(* ===== verification/_CoqProject ===== *)
-Q . S2P
Prelude.v
GoLib.v
Encoding.v
Tx.v
ReportAdapter.v
StoragePolicy.v
Jobs.v
JobsProps.v
Schema.v
Auth.v
AuthProps.v
Intake.v
Reconcile.v
ImportWorker.v
Paging.v
Assets.v
ImportProps.v
ReconcileProps.v
WorkViews.v
Work.v
Decisions.v
DecisionProps.v
Correlations.v
CorrelationProps.v
GroupProps.v
ReplayProps.v
Reports.v
ReportSLA.v
ReportQueue.v
ReportSnapshots.v
ReportExports.v
ReportQueueProps.v
ReportSLAProps.v
Connections.v
Deliveries.v
DeliveryWorker.v
Notifications.v
DeliveryExample.v
ConnectionProps.v
DeliveryProps.v
DeliveryRuns.v
DeliveryBindings.v
DeliveryTickets.v
NotificationProps.v
NotificationRuns.v
Fixture.v
Verifier.v
Verification.v
VerificationWorker.v
VerificationProps.v
VerificationRuns.v
VerificationProgress.v
VerificationOutcome.v
VerificationExample.v
Retention.v
RetentionStore.v
StorageKeys.v
RetentionWorker.v
RetentionActions.v
RetentionArchive.v
RetentionRuns.v
RetentionPreviews.v
RetentionApproval.v
RetentionFence.v
RetentionLifecycle.v
RetentionContent.v
RetentionRoundTrip.v
RetentionOrphans.v
RetentionPreviewProps.v
RetentionApprovalProps.v
RetentionExample.v
Sources.v
SourceCollections.v
SourceWorker.v
SourceRuns.v
SourceLimits.v
SourceInvariant.v
SourceImports.v
SourceExample.v
