(* ===== verification/Prelude.v ===== *)
(** * aspm: a verification library for the self-hosted ASPM control plane

    The program is an application-security posture manager written in Go:
    scanners' reports are uploaded, a worker parses them and reconciles them
    into findings, people decide about the findings, group duplicates, follow
    remediation targets, publish posture reports, send findings to Slack, Jira,
    Teams or webhooks, by hand or by policy, have approved evidence evaluated,
    collect from repositories and let old evidence expire.  Everything durable
    is in PostgreSQL; HTTP handlers and workers are sequences of SQL statements, so
    the interesting behaviour is what interleavings of such sequences, with
    failures at any statement, may do to the tables.

    ** How the code is modelled

    [Tx] defines the monad of handlers and workers: state passing over the
    database with Go errors as values, SQL statements that may fail, clocks,
    random identifiers, contexts, and transactions that commit, abort or lose
    their acknowledgement.  The outside world is an argument [Env]; a theorem
    for every [Env] holds for every schedule of failures.  [Schema] is the
    database: one map per table from primary key to row, rows as records,
    NULL as [None].  A handler is one definition that follows the Go function
    statement by statement, its guards in the code's order.  Concurrency is
    interleaving: step relations ([import_step], [decision_step],
    [report_step], ...) let any operation run next in any world, and the
    properties quantify over [rtc] of them.  Workers whose calls span several
    requests (imports, retention, source collection, deliveries) pause between
    two of them for whatever the other sessions do; [timed] runs ([Tx]) record
    at which tick each change was made, so that a theorem can say that a lease
    was live at the clock of the statement that checked it.

    - [Prelude], [GoLib], [Encoding]: notation, tactics; the strings, UTF-8,
      integers, SHA-256, JSON, base64 and time formats of Go's library that
      the code uses, executable and tested on known values.
    - [Jobs], [JobsProps]: src/internal/jobs/store.go, the generic job queue.
    - [ReportAdapter]: src/pkg/reportadapter, the contract of report parsers.
    - [StoragePolicy]: src/internal/storagepolicy/policy.go.
    - [Auth], [AuthProps]: src/internal/app/auth.go and membership.go:
      enrolment, passwords, sessions, login throttle, roles.
    - [Intake], [Reconcile], [ImportWorker] with the lifecycle of an import,
      [ImportProps], [ReconcileProps]: imports.go, storage.go, worker.go,
      import_authorization.go, reconcile.go.  The worker takes the other
      sessions as an argument ([otherSessions]) and lets them act before each
      of its requests; reading the report is one request.
    - [Paging]: cursor pages, shared by all lists; [Assets]: assets.go with the
      foreign-key cascade of a deletion; [WorkViews]: work_views.go; [Work]:
      work.go, the work list and its CSV export.
    - [Decisions], [DecisionProps]: finding_decisions.go,
      finding_dispositions.go and the writes of findings.go.
    - [Correlations], [CorrelationProps], [GroupProps], [ReplayProps]:
      finding_correlations.go, merging and splitting groups of findings.
    - [Reports]: reports.go and report_finding_metrics.go; [ReportSLA]:
      report_sla.go; [ReportSLAProps]; [ReportQueue],
      [ReportSnapshots], [ReportExports], [ReportQueueProps]:
      report_snapshots.go, report_exports.go, report_worker.go.
    - [Connections], [ConnectionProps]: remediation_connections.go,
      remediation_credentials.go and the targets of remediation_jira.go,
      remediation_teams.go, remediation_webhook.go; [Deliveries]:
      remediation_deliveries.go; [DeliveryWorker]: remediation_worker.go,
      remediation_jira_worker.go, remediation_teams_worker.go, whose state
      [Net] is the database with the requests that left; [DeliveryProps],
      [DeliveryRuns], [DeliveryBindings], [DeliveryTickets].
    - [Notifications], [NotificationProps], [NotificationRuns]:
      notification_policies.go and notification_policy_worker.go.
      [DeliveryExample] is the concrete world of their witnesses.
    - [Fixture], [Verifier]: src/internal/verification, the
      decoding of a fixture byte by byte and Verify over two interfaces, the
      evidence reader and the lookup of an approval; [Verification],
      [VerificationWorker]: verification.go and verification_worker.go, which
      implement the interfaces with the tables; [VerificationProps] (lifecycle,
      table invariant, what each operation may do),
      [VerificationRuns], [VerificationProgress], [VerificationOutcome] and
      the concrete run of [VerificationExample].
    - [Retention] (policy, holds and the worker's question what protects a
      resource: retention.go, the protection queries of retention_worker.go),
      [RetentionPreviews], [RetentionApproval] (previews, retention.go and
      retention_history.go), [RetentionRuns] (retention_runs.go and the readers
      of archived evidence), [RetentionStore] (retention_storage.go over an
      object service), [StorageKeys] (the check of a configured prefix and the
      keys built under it, storage.go), [RetentionWorker], [RetentionActions],
      [RetentionArchive] (retention_worker.go,
      retention_history_archive.go, archive_publications.go: lease, claim and
      one definition per action).  The worker's state [Ret] is the database with
      the objects; between two requests of the worker the other sessions change
      both as they like ([rw_other]), or as the theorem allows them to.
      [RetentionFence]: the rules for such programs;
      [RetentionLifecycle], [RetentionContent], [RetentionRoundTrip],
      [RetentionOrphans], [RetentionPreviewProps], [RetentionApprovalProps];
      [RetentionExample] runs the whole path on a concrete workspace.
    - [Sources] (source_connections.go, source_ado.go, source_types.go),
      [SourceCollections] (source_collections.go, source_imports.go and the
      reader of source_storage.go), [SourceWorker] (source_worker.go,
      source_process.go, source_finalize.go).  [SourceRuns] has the abstract
      machine of the worker and the refinement, with a small logic for programs
      that pause; [SourceInvariant], [SourceImports],
      [SourceLimits]; [SourceExample] collects a build and imports its report.

    ** What the theorems show

    - Queues: rows move only along their lifecycle, fences and attempts are
      bounded and ordered, finished rows stay, retries are idempotent
      ([JobsProps], [ImportProps], [ReportQueueProps]).  An import worker
      writes only under its own claim and a live lease; from the moment the
      import is claimed again or revoked, in the middle of a call too, it
      contributes nothing more.
    - Reconciliation: reports in any order keep human decisions and never move
      a finding back in time; a committed report is recorded exactly once; a
      complete newer scan resolves what it does not contain, as a change of its
      run, and leaves what people decided.
    - Authorization: a workspace always keeps an administrator, enrolment
      happens once, losing the write role fences the imports in flight for
      good, logins are throttled per bucket, for all addresses that share it.
    - Decisions: every decision is well formed and rests on an approval; a
      patch is read back exactly; bulk patches are all or nothing.
    - Groups: each active group shows as exactly one work item under any
      sequence of requests; a merge or split request is carried out once.
    - Reports: every number of an overview or an SLA summary is the length of
      the list behind it, SLA rows are the open work although another query
      finds them, policies keep a gapless immutable history, an exported file
      is the encoding of its snapshot; the trend endpoint is characterised
      exactly, which shows that it refuses snapshots completed between two
      microseconds.
    - Deliveries: the worker's program refines an interleaving semantics in
      which at most one request ever leaves per delivery, with the bound
      content and, for guarded profiles, after a committed attempt made with
      current authority; what is queued passes the worker's digest check;
      guarded requests need the confirmed digest of what is queued; a finding
      gets one Jira ticket per connection; stored credentials open again.
    - Notification policies: a gapless immutable history, by which a change
      event is evaluated against the policies of the moment it was recorded,
      with exactly one outcome per matching policy; a manual delivery that
      takes a policy's reserved key blocks the evaluation, which is shown too.
    - Verification: in every interleaving a recorded result rests on a bound
      approval and on evidence of the approved digest and says what a fixture
      of that digest says; an acknowledged revocation is final; a worker's call
      refines the step relation and finds work at most seven times per job; in
      a calm world a call ends the next job with the submitted outcome.  Two
      exceptions are shown: a third attempt that is cancelled leaves a job no
      one ends, and one failed lookup blocks a job for good.
    - Retention: what the worker changes it changes under the fence of its
      claim and a lease unexpired at that statement; the evidence of an
      observation moves along its life cycle only; archived means that the copy
      is there with the text of the content, restored that the row has the
      content again, and both succeed in a calm world; an orphaned object is
      deleted only while nothing refers to it, which rests on an invariant of
      publications that every worker keeps; a preview lists what the worker
      would find, an approval is for what was shown, a run has exactly the items
      that were approved, field by field.  Two exceptions are shown: a hold placed between the
      last check and the deletion does not protect, and two runs over the same
      copy can leave an archived row without its copy.
    - Source collection: a call of the worker is a run of the abstract machine
      between the steps of the others, so a collection is published in one
      step, under a held lease and current authority, from a checked answer
      all of which is stored; collections, records, pins and idempotency keys
      stay well formed; published evidence reads back as the bytes collected,
      since the key built under a checked prefix is in the reader's scope;
      an import brings in those bytes under the authority of the moment; a
      checked answer fits the tables.
    - Pure parts: the adapter contract, the access matrix of the storage
      policy, password hashes, exports equal to their one-query definition.

    ** Abstractions

    - A statement reads the database clock once.  A transaction runs without
      interleaved writes to the rows it touches: the code locks them
      (FOR UPDATE, advisory locks) or runs repeatable reads; serialization
      failures are failures of the world.  In a step relation a request that is
      one transaction is one step.  A commit or a write of an object may be
      applied with its acknowledgement lost; a single statement outside a
      transaction fails before it takes effect or not at all.
    - Database times are microseconds, UTC sessions; [time.Time] values that
      the code compares below that, those of reports, are nanoseconds.
    - Request strings are valid UTF-8, identifiers are compared bytewise,
      revision counters stay below 2^63.  Random identifiers are what the world
      gives ([env_fresh]); inserting a used one is a unique violation.
    - Parameters, with what is assumed of them where it is used: argon2, net/mail
      parsing, case mapping, PostgreSQL's lower(), the object store, the
      evidence reader, the parsers (any functions), the rows of unmodelled
      tables that block a deletion, the answers of url.ParseQuery and
      time.Parse; for deliveries net/url, strings.ToLower and the AEAD cipher
      ([Gateway], with [AEADLaws] for what a cipher.AEAD promises) and the
      connectors' answers and the cause of a cancelled send ([native]); for
      verification the room each read finds ([buffer]) and when the watcher of
      an approval cancels a read ([revoked]).  A stored JSON value decodes to
      what was encoded.
      For retention the object service ([ObjectService], with [ObjectLaws] where
      a theorem reads what was written), the other sessions, whether a heartbeat
      failed while a request ran, which observations have assessment previews,
      and how PostgreSQL writes a jsonb value ([RetentionWorld]).
      For source collection the collectors of internal/connectors and their
      decoding of a repository, the other sessions and the cause with which a
      watcher cancels ([CollectWorld]); the others may act between the requests
      of the worker, but the objects of one answer are stored in one go.
    - Other sessions do what they like unless a theorem says what they keep.
      For imports they do not delete the asset in question; for the refinement
      of the collector they keep the request of a collection and the objects
      that are stored; the digest check of queued deliveries is about databases
      whose connections, policy revisions and change events have the form the
      handlers write ([queue_sources]).
    - Fuel: [drain], [drainReports] (iterations of a worker loop, which may
      poll for ever; the properties are about every prefix of its run),
      [reconcileSlices] and [exportPages] (bounded by the number of slices and
      rows; their completeness theorems give the fuel that suffices) and
      [splitChunks] (the length of the content; every read takes a byte).

    ** Not modelled

    HTTP routing, CSRF and body decoding, the assembly of the full finding
    document, single sign-on, AI assessments, parsers, connectors,
    installation and the command line.  Most of these are input and output or
    clients of external services; single sign-on and AI assessments are
    stateful and would come next.  Of retention and source collection,
    opening and closing workers, stores and transports is left out, and so is
    the timing of the watcher goroutines.  Other operations of the application enter the step
    relations as steps that leave the tables in question alone. *)
From stdpp Require Export base tactics decidable option list list_numbers
  strings gmap fin_maps sets sorting relations.
From Stdlib Require Export ZArith Lia.

Declare Scope go_scope.
Delimit Scope go_scope with go.

(** Boolean equality tests as Go writes them: both sides live in a type with
    decidable equality and the test is a [bool] that [vm_compute] evaluates. *)
Notation "a ==? b" := (bool_decide (a = b)) (at level 70) : go_scope.
Notation "a !=? b" := (negb (bool_decide (a = b))) (at level 70) : go_scope.
Global Open Scope go_scope.

#[export] Set Default Goal Selector "!".
#[export] Set Warnings "-clear-no-such-hyp".

(** Hint databases of the development: [aspm] holds forward lemmas closed by
    [eauto]; [steps] (declared in Tx) walks through effectful programs. *)
Create HintDb aspm discriminated.

(** Split a boolean hypothesis or goal built from connectives into its
    propositional content, turning [bool_decide] into the proposition. *)
Ltac breflect_in H :=
  repeat first
    [ rewrite andb_true_iff in H | rewrite orb_true_iff in H
    | rewrite negb_true_iff in H | rewrite negb_false_iff in H
    | rewrite andb_false_iff in H | rewrite orb_false_iff in H
    | rewrite bool_decide_eq_true in H | rewrite bool_decide_eq_false in H
    | rewrite Z.ltb_lt in H | rewrite Z.leb_le in H | rewrite Z.eqb_eq in H
    | rewrite Z.ltb_ge in H | rewrite Z.leb_gt in H | rewrite Z.eqb_neq in H ].

Ltac breflect :=
  repeat first
    [ rewrite andb_true_iff | rewrite orb_true_iff
    | rewrite negb_true_iff | rewrite negb_false_iff
    | rewrite andb_false_iff | rewrite orb_false_iff
    | rewrite bool_decide_eq_true | rewrite bool_decide_eq_false
    | rewrite Z.ltb_lt | rewrite Z.leb_le | rewrite Z.eqb_eq
    | rewrite Z.ltb_ge | rewrite Z.leb_gt | rewrite Z.eqb_neq ].

(** Destruct the condition of an [if] or the scrutinee of a [match] that
    appears in the goal, keeping the equation in reflected form. *)
Ltac case_if :=
  let go c := (let E := fresh "E" in destruct c eqn:E; breflect_in E) in
  match goal with
  | |- context [if ?c then _ else _] =>
      lazymatch type of c with
      | bool => go c
      | Decision _ => let E := fresh "E" in destruct c as [E|E]
      | sumbool _ _ => let E := fresh "E" in destruct c as [E|E]
      end
  end.

Ltac case_if_in H :=
  let go c := (let E := fresh "E" in destruct c eqn:E; breflect_in E) in
  match type of H with
  | context [if ?c then _ else _] =>
      lazymatch type of c with
      | bool => go c
      | Decision _ => let E := fresh "E" in destruct c as [E|E]
      | sumbool _ _ => let E := fresh "E" in destruct c as [E|E]
      end
  end.

(** ** Lists *)
Section lists.
Context {A B : Type}.
Implicit Types l : list A.

Lemma forallb_Forall (p : A → bool) l :
  forallb p l = true ↔ Forall (λ x, p x = true) l.
Proof. rewrite forallb_forall, Forall_forall. by setoid_rewrite list_elem_of_In. Qed.

Lemma existsb_Exists (p : A → bool) l :
  existsb p l = true ↔ ∃ x, x ∈ l ∧ p x = true.
Proof. rewrite existsb_exists. by setoid_rewrite list_elem_of_In. Qed.

(** [fold_left] keeps an invariant that each step keeps. *)
Lemma fold_left_invariant (I : B → Prop) (f : B → A → B) l b :
  I b → (∀ b x, x ∈ l → I b → I (f b x)) → I (fold_left f l b).
Proof.
  revert b. induction l as [|x l IH]; intros b Hb Hf; simpl; [done|].
  apply IH; [apply Hf; [set_solver|done] | intros; apply Hf; [set_solver|done]].
Qed.
End lists.

(** ** First row in an order

    [ORDER BY ... LIMIT 1]: the least element of a list for a total preorder
    given as a boolean, [None] for the empty list. *)
Section argmin.
Context {V : Type} (le : V → V → bool).

Definition better (best : option V) (v : V) : option V :=
  match best with
  | None => Some v
  | Some b => if le b v then Some b else Some v
  end.

Definition argmin (l : list V) : option V := fold_left better l None.

Lemma argmin_fold_in l b :
  match fold_left better l b with
  | None => b = None ∧ l = []
  | Some v => b = Some v ∨ v ∈ l
  end.
Proof.
  revert b. induction l as [|x l IH]; intros b; simpl.
  - destruct b; auto.
  - specialize (IH (better b x)). destruct (fold_left better l (better b x)) eqn:E.
    + destruct IH as [H|H]; [|set_solver].
      destruct b as [b|]; simpl in H; [case_if_in H|]; simplify_eq; set_solver.
    + destruct IH as [H _]. destruct b; simpl in H; [case_if_in H|]; simplify_eq.
Qed.

Lemma argmin_elem l v : argmin l = Some v → v ∈ l.
Proof.
  intros H. pose proof (argmin_fold_in l None) as Hf. unfold argmin in H.
  rewrite H in Hf. by destruct Hf.
Qed.

Lemma argmin_None l : argmin l = None ↔ l = [].
Proof.
  split; [|by intros ->]. intros H. pose proof (argmin_fold_in l None) as Hf.
  unfold argmin in H. rewrite H in Hf. by destruct Hf.
Qed.

Context (le_total : ∀ x y, le x y = false → le y x = true)
        (le_trans : ∀ x y z, le x y = true → le y z = true → le x z = true).

Lemma le_reflexive x : le x x = true.
Proof. destruct (le x x) eqn:E; [done|]. pose proof (le_total _ _ E). congruence. Qed.

Lemma argmin_fold_least l b w :
  fold_left better l (Some b) = Some w →
  le w b = true ∧ ∀ v, v ∈ l → le w v = true.
Proof.
  revert b. induction l as [|x l IH]; intros b H; simpl in H.
  - simplify_eq. split; [apply le_reflexive|set_solver].
  - destruct (le b x) eqn:Ex; apply IH in H as [H1 H2]; split; eauto;
      intros v [->|]%elem_of_cons; eauto.
Qed.

Lemma argmin_least l w v : argmin l = Some w → v ∈ l → le w v = true.
Proof.
  unfold argmin. destruct l as [|x l]; simpl; [done|].
  intros H. apply argmin_fold_least in H as [H1 H2].
  intros [->|]%elem_of_cons; eauto.
Qed.
End argmin.
