(* ===== verification/GoLib.v ===== *)
(** * The parts of Go's standard library that the modelled code calls

    Strings are byte sequences ([string], one [ascii] per byte); [bytes] is the
    view as numbers 0..255 used by the decoders.  Instants and durations are
    [Z]; machine integers are [Z] with the 64-bit wrap-around written out. *)
From Stdlib Require Import Ascii String.
From S2P Require Import Prelude.
Local Open Scope Z_scope.

(** ** 64-bit integers *)

Definition wrap64 (z : Z) : Z := (z + 2 ^ 63) mod 2 ^ 64 - 2 ^ 63.
Definition int64 (z : Z) : Prop := - 2 ^ 63 ≤ z < 2 ^ 63.

Lemma wrap64_id z : int64 z → wrap64 z = z.
Proof. unfold wrap64, int64. intros. rewrite Z.mod_small; lia. Qed.

Lemma wrap64_int64 z : int64 (wrap64 z).
Proof.
  unfold wrap64, int64. pose proof (Z.mod_pos_bound (z + 2 ^ 63) (2 ^ 64)). lia.
Qed.

(** ** Instants

    [time.Time{}], January 1 of year 1 UTC, in microseconds of the Unix
    epoch; [t.After(u)] is [u <? t], [t.Before(u)] is [t <? u]. *)
Definition zeroTime : Z := -62135596800000000.
Definition IsZero (t : Z) : bool := t =? zeroTime.

(** ** Bytes *)

Definition bytes (s : string) : list N := N_of_ascii <$> list_ascii_of_string s.
Definition of_bytes (l : list N) : string :=
  string_of_list_ascii (ascii_of_N <$> l).
Definition len (s : string) : Z := Z.of_nat (String.length s).

Lemma of_bytes_bytes s : of_bytes (bytes s) = s.
Proof.
  unfold of_bytes, bytes. rewrite <- list_fmap_compose.
  rewrite (list_fmap_ext _ id), list_fmap_id; [apply string_of_list_ascii_of_string|].
  intros ? x _. apply ascii_N_embedding.
Qed.

Lemma bytes_inj s1 s2 : bytes s1 = bytes s2 → s1 = s2.
Proof. intros H. by rewrite <- (of_bytes_bytes s1), H, of_bytes_bytes. Qed.

Lemma length_bytes s : length (bytes s) = String.length s.
Proof. unfold bytes. rewrite length_fmap. induction s; simpl; auto. Qed.

Lemma bytes_app a b : bytes (a +:+ b) = bytes a ++ bytes b.
Proof.
  unfold bytes. induction a as [|c a IH]; [done|].
  change (String c a +:+ b) with (String c (a +:+ b)). cbn. by rewrite IH.
Qed.

Lemma bytes_small s : Forall (λ b, (b < 256)%N) (bytes s).
Proof. unfold bytes. apply Forall_fmap, Forall_true. intros c. apply N_ascii_bounded. Qed.

(** [strings.ContainsRune(s, 0)]: a NUL byte occurs. *)
Definition containsNUL (s : string) : bool := existsb (N.eqb 0) (bytes s).

(** ** strings.TrimSpace

    [unicode.IsSpace] holds of U+0009..U+000D, U+0020, U+0085, U+00A0, U+1680,
    U+2000..U+200A, U+2028, U+2029, U+202F, U+205F and U+3000.  The functions
    drop the UTF-8 encodings of these runes from the front of a byte list and,
    with the bytes mirrored, from its end. *)
Definition asciiSpace (b : N) : bool :=
  ((9 <=? b) && (b <=? 13) || (b =? 32))%N.

Definition space2 (b0 b1 : N) : bool := ((b0 =? 194) && ((b1 =? 133) || (b1 =? 160)))%N.

Definition space3 (b0 b1 b2 : N) : bool :=
  (((b0 =? 225) && (b1 =? 154) && (b2 =? 128)) ||
   ((b0 =? 226) && (b1 =? 128) &&
      ((128 <=? b2) && (b2 <=? 138) || (b2 =? 168) || (b2 =? 169) || (b2 =? 175))) ||
   ((b0 =? 226) && (b1 =? 129) && (b2 =? 159)) ||
   ((b0 =? 227) && (b1 =? 128) && (b2 =? 128)))%N.

Fixpoint trimLeft (l : list N) : list N :=
  match l with
  | b0 :: l1 =>
      if asciiSpace b0 then trimLeft l1 else
      match l1 with
      | b1 :: l2 =>
          if space2 b0 b1 then trimLeft l2 else
          match l2 with
          | b2 :: l3 => if space3 b0 b1 b2 then trimLeft l3 else l
          | [] => l
          end
      | [] => l
      end
  | [] => []
  end.

Fixpoint trimRightRev (l : list N) : list N :=
  match l with
  | b0 :: l1 =>
      if asciiSpace b0 then trimRightRev l1 else
      match l1 with
      | b1 :: l2 =>
          if space2 b1 b0 then trimRightRev l2 else
          match l2 with
          | b2 :: l3 => if space3 b2 b1 b0 then trimRightRev l3 else l
          | [] => l
          end
      | [] => l
      end
  | [] => []
  end.

Definition TrimSpaceBytes (l : list N) : list N := rev (trimRightRev (rev (trimLeft l))).
Definition TrimSpace (s : string) : string := of_bytes (TrimSpaceBytes (bytes s)).

(** ** UTF-8 *)

Definition cont (b : N) : bool := ((128 <=? b) && (b <=? 191))%N.
Definition utf8two (b0 b1 : N) : bool := ((194 <=? b0) && (b0 <=? 223))%N && cont b1.
Definition utf8three (b0 b1 b2 : N) : bool :=
  (((b0 =? 224) && (160 <=? b1) && (b1 <=? 191)) ||
   (((225 <=? b0) && (b0 <=? 236) || (238 <=? b0) && (b0 <=? 239)) && cont b1) ||
   ((b0 =? 237) && (128 <=? b1) && (b1 <=? 159)))%N && cont b2.
Definition utf8four (b0 b1 b2 b3 : N) : bool :=
  (((b0 =? 240) && (144 <=? b1) && (b1 <=? 191)) ||
   ((241 <=? b0) && (b0 <=? 243) && cont b1) ||
   ((b0 =? 244) && (128 <=? b1) && (b1 <=? 143)))%N && cont b2 && cont b3.

(** [utf8.Valid]. *)
Fixpoint utf8Valid (l : list N) : bool :=
  match l with
  | [] => true
  | b0 :: l1 =>
      if (b0 <? 128)%N then utf8Valid l1 else
      match l1 with
      | b1 :: l2 =>
          if utf8two b0 b1 then utf8Valid l2 else
          match l2 with
          | b2 :: l3 =>
              if utf8three b0 b1 b2 then utf8Valid l3 else
              match l3 with
              | b3 :: l4 => if utf8four b0 b1 b2 b3 then utf8Valid l4 else false
              | [] => false
              end
          | [] => false
          end
      | [] => false
      end
  end.

Definition ValidString (s : string) : bool := utf8Valid (bytes s).

(** The string that survives [json.Marshal] followed by [json.Unmarshal]:
    each byte that does not start a valid rune becomes U+FFFD (EF BF BD). *)
Fixpoint jsonCoerceBytes (l : list N) : list N :=
  match l with
  | [] => []
  | b0 :: l1 =>
      if (b0 <? 128)%N then b0 :: jsonCoerceBytes l1 else
      let bad := 239%N :: 191%N :: 189%N :: jsonCoerceBytes l1 in
      match l1 with
      | b1 :: l2 =>
          if utf8two b0 b1 then b0 :: b1 :: jsonCoerceBytes l2 else
          match l2 with
          | b2 :: l3 =>
              if utf8three b0 b1 b2 then b0 :: b1 :: b2 :: jsonCoerceBytes l3 else
              match l3 with
              | b3 :: l4 =>
                  if utf8four b0 b1 b2 b3 then b0 :: b1 :: b2 :: b3 :: jsonCoerceBytes l4
                  else bad
              | [] => bad
              end
          | [] => bad
          end
      | [] => bad
      end
  end.

Definition jsonCoerce (s : string) : string := of_bytes (jsonCoerceBytes (bytes s)).

Lemma jsonCoerceBytes_valid l : utf8Valid l = true → jsonCoerceBytes l = l.
Proof.
  remember (length l) as n eqn:Hn. revert l Hn.
  induction n as [n IH] using lt_wf_ind; intros l ->.
  destruct l as [|b0 l1]; simpl; [done|].
  case_if; [intros; f_equal; eapply IH; eauto; simpl; lia|].
  destruct l1 as [|b1 l2]; [done|].
  case_if; [intros; do 2 f_equal; eapply IH; eauto; simpl; lia|].
  destruct l2 as [|b2 l3]; [done|].
  case_if; [intros; do 3 f_equal; eapply IH; eauto; simpl; lia|].
  destruct l3 as [|b3 l4]; [done|].
  case_if; [intros; do 4 f_equal; eapply IH; eauto; simpl; lia|done].
Qed.

Lemma jsonCoerce_valid s : ValidString s = true → jsonCoerce s = s.
Proof.
  intros H. unfold jsonCoerce. by rewrite jsonCoerceBytes_valid, of_bytes_bytes.
Qed.

(** ** strings.Split, strings.Contains, strings.HasPrefix, strings.HasSuffix *)

Fixpoint splitBytes (sep : N) (l : list N) : list (list N) :=
  match l with
  | [] => [[]]
  | b :: l' =>
      if (b =? sep)%N then [] :: splitBytes sep l' else
      match splitBytes sep l' with
      | [] => [[b]]
      | part :: parts => (b :: part) :: parts
      end
  end.

Lemma splitBytes_none sep l : Forall (λ b, b ≠ sep) l → splitBytes sep l = [l].
Proof.
  induction 1 as [|b l Hb _ IH]; simpl; [done|]. rewrite (proj2 (N.eqb_neq b sep)) by done. by rewrite IH.
Qed.
Lemma splitBytes_app sep l1 l2 :
  Forall (λ b, b ≠ sep) l1 → splitBytes sep (l1 ++ sep :: l2) = l1 :: splitBytes sep l2.
Proof.
  induction 1 as [|b l Hb _ IH]; simpl; [by rewrite N.eqb_refl|].
  rewrite (proj2 (N.eqb_neq b sep)) by done. by rewrite IH.
Qed.

(** [strings.Split(s, sep)] for a one-byte separator. *)
Definition Split (s : string) (sep : N) : list string :=
  of_bytes <$> splitBytes sep (bytes s).
(** [strings.Join(l, sep)]. *)
Fixpoint joinWith (sep : string) (l : list string) : string :=
  match l with [] => "" | [x] => x | x :: l' => x +:+ sep +:+ joinWith sep l' end.
Definition slash : N := 47.
Definition dash : N := 45.

Definition HasPrefix (s prefix : string) : bool := String.prefix prefix s.
Fixpoint Contains (s sub : string) : bool :=
  String.prefix sub s ||
  match s with EmptyString => false | String _ s' => Contains s' sub end.
Fixpoint HasSuffix (s suffix : string) : bool :=
  (s ==? suffix) || match s with EmptyString => false | String _ s' => HasSuffix s' suffix end.

(** [strings.Compare(a, b) <= 0]: bytewise lexicographic order. *)
Definition strLe (a b : string) : bool := String.leb a b.

Lemma strLe_total a b : strLe a b = false → strLe b a = true.
Proof. intros H. destruct (String.leb_total a b); unfold strLe in *; congruence. Qed.

Lemma strLe_antisym a b : strLe a b = true → strLe b a = true → a = b.
Proof. apply String.leb_antisym. Qed.

Lemma strLe_cons a s b t :
  strLe (String a s) (String b t) = true ↔
  (N_of_ascii a < N_of_ascii b)%N ∨ a = b ∧ strLe s t = true.
Proof.
  unfold strLe, String.leb. simpl. unfold Ascii.compare.
  destruct (N.compare_spec (N_of_ascii a) (N_of_ascii b)) as [E|E|E].
  - apply (f_equal ascii_of_N) in E. rewrite !ascii_N_embedding in E. subst.
    split; [by right | intros [?|[_ ?]]; [lia|done]].
  - split; [by left|done].
  - split; [done | intros [?|[-> _]]; lia].
Qed.

Lemma strLe_trans a b c : strLe a b = true → strLe b c = true → strLe a c = true.
Proof.
  revert b c. induction a as [|x a IH]; intros [|y b] [|z c]; try done.
  rewrite !strLe_cons. intros [?|[-> ?]] [?|[-> ?]]; [left; lia | by left | by left | eauto].
Qed.

(** ** Values decoded from JSON by [encoding/json] into [any] *)
#[local] Set Warnings "-register-all".
Inductive JSON :=
  | JNull | JBool (b : bool) | JNumber (literal : string) | JString (s : string)
  | JArray (l : list JSON) | JObject (fields : list (string * JSON)).
