(* ===== verification/Encoding.v ===== *)
(** * Encodings of Go's standard library: SHA-256, hex, JSON, time and integers

    [Sum256] is crypto/sha256, [marshal] is json.Marshal on the values the code
    encodes (HTML escaping on, objects in the given field order, maps with
    sorted keys), [formatTime] is time.Time's RFC 3339 form, [ParseInt] and
    [formatPadded] are strconv.ParseInt(s, 10, 64) and fmt's [%020d]. *)
From Stdlib Require Import Ascii String.
From S2P Require Import Prelude GoLib.
From stdpp Require Import pretty.

(** ** SHA-256 *)
Section sha256.
Local Open Scope N_scope.

Definition w32 (x : N) : N := N.land x 4294967295.
Definition rotr (n x : N) : N := N.lor (N.shiftr x n) (w32 (N.shiftl x (32 - n))).
Definition sigma0 x := N.lxor (N.lxor (rotr 7 x) (rotr 18 x)) (N.shiftr x 3).
Definition sigma1 x := N.lxor (N.lxor (rotr 17 x) (rotr 19 x)) (N.shiftr x 10).
Definition Sigma0 x := N.lxor (N.lxor (rotr 2 x) (rotr 13 x)) (rotr 22 x).
Definition Sigma1 x := N.lxor (N.lxor (rotr 6 x) (rotr 11 x)) (rotr 25 x).
Definition choose x y z := N.lxor (N.land x y) (N.land (N.lxor x 4294967295) z).
Definition majority x y z := N.lxor (N.lxor (N.land x y) (N.land x z)) (N.land y z).

Definition roundConstants : list N :=
  [1116352408; 1899447441; 3049323471; 3921009573; 961987163; 1508970993; 2453635748; 2870763221;
   3624381080; 310598401; 607225278; 1426881987; 1925078388; 2162078206; 2614888103; 3248222580;
   3835390401; 4022224774; 264347078; 604807628; 770255983; 1249150122; 1555081692; 1996064986;
   2554220882; 2821834349; 2952996808; 3210313671; 3336571891; 3584528711; 113926993; 338241895;
   666307205; 773529912; 1294757372; 1396182291; 1695183700; 1986661051; 2177026350; 2456956037;
   2730485921; 2820302411; 3259730800; 3345764771; 3516065817; 3600352804; 4094571909; 275423344;
   430227734; 506948616; 659060556; 883997877; 958139571; 1322822218; 1537002063; 1747873779;
   1955562222; 2024104815; 2227730452; 2361852424; 2428436474; 2756734187; 3204031479; 3329325298].

Definition initialState : list N :=
  [1779033703; 3144134277; 1013904242; 2773480762; 1359893119; 2600822924; 528734635; 1541459225].

(** The message schedule; the window holds the last 16 words, newest first. *)
Fixpoint schedule (n : nat) (window : list N) : list N :=
  match n with
  | O => []
  | S n' =>
      match window with
      | [w1; w2; w3; w4; w5; w6; w7; w8; w9; w10; w11; w12; w13; w14; w15; w16] =>
          let w := w32 (sigma1 w2 + w7 + sigma0 w15 + w16) in
          w :: schedule n' [w; w1; w2; w3; w4; w5; w6; w7; w8; w9; w10; w11; w12; w13; w14; w15]
      | _ => []
      end
  end.

Definition round (s : list N) (kw : N * N) : list N :=
  match s with
  | [a; b; c; d; e; f; g; h] =>
      let t1 := h + Sigma1 e + choose e f g + kw.1 + kw.2 in
      let t2 := Sigma0 a + majority a b c in
      [w32 (t1 + t2); a; b; c; w32 (d + t1); e; f; g]
  | _ => s
  end.

Fixpoint words (l : list N) : list N :=
  match l with
  | b0 :: b1 :: b2 :: b3 :: l' => (b0 * 16777216 + b1 * 65536 + b2 * 256 + b3) :: words l'
  | _ => []
  end.

Definition block (s : list N) (b : list N) : list N :=
  let w := words b in
  let ws := (w ++ schedule 48 (rev w))%list in
  zip_with (λ x y, w32 (x + y)) s (fold_left round (zip roundConstants ws) s).

Fixpoint blocks (n : nat) (s : list N) (data : list N) : list N :=
  match n with
  | O => s
  | S n' => blocks n' (block s (take 64 data)) (drop 64 data)
  end.

Definition bigEndian (k : nat) (x : N) : list N :=
  (λ i, N.land (N.shiftr x (8 * N.of_nat (k - 1 - i))) 255) <$> seq 0 k.

Definition padded (data : list N) : list N :=
  let n := length data in
  let zeros := ((119 - n mod 64) mod 64)%nat in
  (data ++ [128] ++ replicate zeros 0 ++ bigEndian 8 (8 * N.of_nat n))%list.

Definition Sum256 (data : list N) : list N :=
  let p := padded data in
  concat (bigEndian 4 <$> blocks (length p / 64) initialState p).

Definition hexDigit (d : N) : N := if d <? 10 then 48 + d else 87 + d.
Definition hexBytes (l : list N) : list N :=
  l ≫= (λ b, [hexDigit (N.shiftr b 4); hexDigit (N.land b 15)]).
End sha256.

(** [fmt.Sprintf("%x", data)], [hex.EncodeToString]. *)
Definition hex (l : list N) : string := of_bytes (hexBytes l).

Example sha256_abc :
  hex (Sum256 (bytes "abc")) = "ba7816bf8f01cfea414140de5dae2223b00361a396177a9cb410ff61f20015ad".
Proof. vm_compute. reflexivity. Qed.
Example sha256_empty :
  hex (Sum256 []) = "e3b0c44298fc1c149afbf4c8996fb92427ae41e4649b934ca495991b7852b855".
Proof. vm_compute. reflexivity. Qed.
Example sha256_two_blocks :
  hex (Sum256 (bytes "abcdbcdecdefdefgefghfghighijhijkijkljklmklmnlmnomnopnopq")) =
  "248d6a61d20638b8e5c026930c3e6039a33ce45964ff2167f6ecedd419db06c1".
Proof. vm_compute. reflexivity. Qed.

(** ** JSON *)
Section json.
Local Open Scope N_scope.

Definition quoteByte (b : N) : list N :=
  if b =? 34 then [92; 34] else if b =? 92 then [92; 92]
  else if b =? 8 then [92; 98] else if b =? 12 then [92; 102]
  else if b =? 10 then [92; 110] else if b =? 13 then [92; 114] else if b =? 9 then [92; 116]
  else if (b <? 32) || (b =? 60) || (b =? 62) || (b =? 38)
  then [92; 117; 48; 48; hexDigit (N.shiftr b 4); hexDigit (N.land b 15)]
  else [b].

(** Invalid UTF-8 becomes [\ufffd], U+2028 and U+2029 are escaped. *)
Fixpoint quoteBytes (l : list N) : list N :=
  match l with
  | [] => []
  | b0 :: l1 =>
      if b0 <? 128 then (quoteByte b0 ++ quoteBytes l1)%list else
      let bad := (bytes "\ufffd" ++ quoteBytes l1)%list in
      match l1 with
      | b1 :: l2 =>
          if utf8two b0 b1 then b0 :: b1 :: quoteBytes l2 else
          match l2 with
          | b2 :: l3 =>
              if utf8three b0 b1 b2 then
                if (b0 =? 226) && (b1 =? 128) && (b2 =? 168) then (bytes "\u2028" ++ quoteBytes l3)%list
                else if (b0 =? 226) && (b1 =? 128) && (b2 =? 169) then (bytes "\u2029" ++ quoteBytes l3)%list
                else b0 :: b1 :: b2 :: quoteBytes l3
              else match l3 with
                   | b3 :: l4 => if utf8four b0 b1 b2 b3 then b0 :: b1 :: b2 :: b3 :: quoteBytes l4
                                 else bad
                   | [] => bad
                   end
          | [] => bad
          end
      | [] => bad
      end
  end.
End json.

Definition quote (s : string) : string :=
  of_bytes ((34%N :: quoteBytes (bytes s)) ++ [34%N]).

Fixpoint joinComma (l : list string) : string :=
  match l with
  | [] => ""
  | [x] => x
  | x :: l' => x +:+ "," +:+ joinComma l'
  end.

Fixpoint marshal (v : JSON) : string :=
  match v with
  | JNull => "null"
  | JBool b => if b then "true" else "false"
  | JNumber lit => lit
  | JString s => quote s
  | JArray l => "[" +:+ joinComma ((fix go l := match l with [] => [] | x :: l' => marshal x :: go l' end) l) +:+ "]"
  | JObject l => "{" +:+ joinComma ((fix go l := match l with
                     | [] => [] | (k, x) :: l' => (quote k +:+ ":" +:+ marshal x) :: go l' end) l) +:+ "}"
  end.

Definition JInt (z : Z) : JSON := JNumber (pretty z).

(** A [map[string]T]: keys in byte order, as json.Marshal writes them. *)
Fixpoint insertKey {A} (k : string) (v : A) (l : list (string * A)) : list (string * A) :=
  match l with
  | [] => [(k, v)]
  | (k', v') :: l' => if strLe k k' then (k, v) :: l else (k', v') :: insertKey k v l'
  end.
Definition sortKeys {A} (l : list (string * A)) : list (string * A) :=
  fold_right (λ kv acc, insertKey kv.1 kv.2 acc) [] l.

(** The maps inside a decoded [any] value are printed with sorted keys. *)
Fixpoint sortMaps (v : JSON) : JSON :=
  match v with
  | JArray l => JArray ((fix go l := match l with [] => [] | x :: l' => sortMaps x :: go l' end) l)
  | JObject l => JObject (sortKeys ((fix go l := match l with
                     | [] => [] | (k, x) :: l' => (k, sortMaps x) :: go l' end) l))
  | _ => v
  end.

Example quote_escapes :
  bytes (quote "a<b") = [34; 97; 92; 117; 48; 48; 51; 99; 98; 34]%N.
Proof. vm_compute. reflexivity. Qed.
Example marshal_numbers : marshal (JArray [JInt (-5); JNull; JBool true]) = "[-5,null,true]".
Proof. vm_compute. reflexivity. Qed.

(** ** Decimal integers *)
Section decimal.
Local Open Scope Z_scope.

(** The [n] last decimal digits of [z], most significant first. *)
Fixpoint digitsN (n : nat) (z : Z) : list N :=
  match n with
  | O => []
  | S n' => (digitsN n' (z / 10) ++ [Z.to_N (48 + z mod 10)])%list
  end.

Definition isDigit (b : N) : bool := ((48 <=? b) && (b <=? 57))%N.
Definition digitValue (l : list N) : Z :=
  fold_left (λ acc b, acc * 10 + (Z.of_N b - 48)) l 0.

Lemma digitValue_snoc l b : digitValue (l ++ [b]) = digitValue l * 10 + (Z.of_N b - 48).
Proof. unfold digitValue. by rewrite fold_left_app. Qed.

Lemma length_digitsN n z : length (digitsN n z) = n.
Proof.
  revert z. induction n as [|n IH]; intros z; simpl; [done|]. rewrite length_app, IH. simpl. lia.
Qed.

Lemma digitsN_digits n z : forallb isDigit (digitsN n z) = true.
Proof.
  revert z. induction n as [|n IH]; intros z; simpl; [done|].
  rewrite forallb_app, IH. simpl. pose proof (Z.mod_pos_bound z 10 ltac:(lia)).
  unfold isDigit. rewrite andb_true_r. apply andb_true_iff. rewrite !N.leb_le. lia.
Qed.

Lemma digitValue_digitsN n z : digitValue (digitsN n z) = z mod 10 ^ Z.of_nat n.
Proof.
  revert z. induction n as [|n IH]; intros z.
  - simpl. by rewrite Z.mod_1_r.
  - cbn [digitsN]. rewrite digitValue_snoc, IH, Z2N.id
      by (pose proof (Z.mod_pos_bound z 10 ltac:(lia)); lia).
    rewrite Nat2Z.inj_succ, Z.pow_succ_r by lia.
    rewrite (Z.rem_mul_r z 10 (10 ^ Z.of_nat n)); lia.
Qed.

(** [strconv.ParseInt(s, 10, 64)]: [None] on a syntax or range error. *)
Definition ParseInt (s : string) : option Z :=
  let '(neg, digits) :=
    match bytes s with
    | b :: l => if (b =? 45)%N then (true, l) else if (b =? 43)%N then (false, l) else (false, b :: l)
    | [] => (false, [])
    end in
  if negb (forallb isDigit digits) || bool_decide (digits = []) then None
  else let v := digitValue digits in
       let v := if neg : bool then - v else v in
       if (- 2 ^ 63 <=? v) && (v <? 2 ^ 63) then Some v else None.

(** [fmt.Sprintf("%020d", z)] for an int64. *)
Definition formatPadded (z : Z) : string :=
  if z <? 0 then of_bytes (45%N :: digitsN 19 (- z)) else of_bytes (digitsN 20 z).

Lemma bytes_of_bytes l : Forall (λ b, (b < 256)%N) l → bytes (of_bytes l) = l.
Proof.
  unfold bytes, of_bytes. rewrite list_ascii_of_string_of_list_ascii.
  induction 1 as [|b l Hb _ IH]; [done|]. cbn. f_equal; [by apply N_ascii_embedding|done].
Qed.

Lemma digits_bytes l : forallb isDigit l = true → bytes (of_bytes l) = l.
Proof.
  intros H. apply bytes_of_bytes. apply forallb_Forall in H.
  eapply Forall_impl; [done|]. intros b Hb. simpl in Hb. unfold isDigit in Hb.
  apply andb_true_iff in Hb as [_ Hb]. apply N.leb_le in Hb. lia.
Qed.

Lemma bytes_formatPadded z : 0 ≤ z → bytes (formatPadded z) = digitsN 20 z.
Proof.
  intros Hz. unfold formatPadded. case_if; [lia|]. apply digits_bytes, digitsN_digits.
Qed.

Lemma ParseInt_digits s l :
  bytes s = l → forallb isDigit l = true → l ≠ [] → digitValue l < 2 ^ 63 → 0 ≤ digitValue l →
  ParseInt s = Some (digitValue l).
Proof.
  intros Hs Hd Hne Hlt Hge. unfold ParseInt. rewrite Hs. destruct l as [|b l]; [done|].
  assert (isDigit b = true) as Hb by (simpl in Hd; by apply andb_true_iff in Hd as [? _]).
  unfold isDigit in Hb. apply andb_true_iff in Hb as [Hb1 Hb2].
  apply N.leb_le in Hb1, Hb2.
  destruct (N.eqb_spec b 45); [lia|]. destruct (N.eqb_spec b 43); [lia|].
  rewrite Hd. cbn [negb orb]. case_bool_decide; [done|]. cbv zeta.
  rewrite (proj2 (Z.leb_le _ _)) by lia. rewrite (proj2 (Z.ltb_lt _ _)) by lia. done.
Qed.

Lemma ParseInt_formatPadded z : 0 ≤ z < 2 ^ 63 → ParseInt (formatPadded z) = Some z.
Proof.
  intros Hz. assert (digitValue (digitsN 20 z) = z) as Hv.
  { rewrite digitValue_digitsN, Z.mod_small; [done|]. change (10 ^ Z.of_nat 20) with (10 ^ 20). lia. }
  erewrite ParseInt_digits; [by rewrite Hv|by apply bytes_formatPadded; lia
    |apply digitsN_digits| |lia|lia].
  intros H%(f_equal length). by rewrite length_digitsN in H.
Qed.

(** ** time.Time as JSON

    [None] where MarshalJSON fails: the year is not in 0..9999. *)
Definition civil (days : Z) : Z * Z * Z :=
  let z := days + 719468 in
  let era := z / 146097 in
  let doe := z mod 146097 in
  let yoe := (doe - doe / 1460 + doe / 36524 - doe / 146096) / 365 in
  let doy := doe - (365 * yoe + yoe / 4 - yoe / 100) in
  let mp := (5 * doy + 2) / 153 in
  let d := doy - (153 * mp + 2) / 5 + 1 in
  let m := if mp <? 10 then mp + 3 else mp - 9 in
  (yoe + era * 400 + (if m <=? 2 then 1 else 0), m, d).

Fixpoint dropZeros (l : list N) : list N :=
  match l with b :: l' => if (b =? 48)%N then dropZeros l' else l | [] => [] end.

(** [t.UTC().Format(time.RFC3339Nano)]. *)
Definition formatYear (y : Z) : list N :=
  if y <? 0 then (45%N :: digitsN 4 (- y)) else if 9999 <? y then bytes (pretty y) else digitsN 4 y.
Definition RFC3339Nano (t : Z) : string :=
  let secs := t / 1000000 in
  let '(y, m, d) := civil (secs / 86400) in
  let sod := secs mod 86400 in
  let frac := rev (dropZeros (rev (digitsN 6 (t mod 1000000)))) in
  of_bytes (formatYear y ++ bytes "-" ++ digitsN 2 m ++ bytes "-" ++ digitsN 2 d ++ bytes "T" ++
    digitsN 2 (sod / 3600) ++ bytes ":" ++ digitsN 2 (sod / 60 mod 60) ++ bytes ":" ++
    digitsN 2 (sod mod 60) ++ (if bool_decide (frac = []) then [] else bytes "." ++ frac) ++ bytes "Z").

Definition formatTime (t : Z) : option string :=
  let '(y, _, _) := civil (t / 1000000 / 86400) in
  if (y <? 0) || (9999 <? y) then None else Some (RFC3339Nano t).

Example formatTime_zero : formatTime zeroTime = Some "0001-01-01T00:00:00Z".
Proof. vm_compute. reflexivity. Qed.
Example formatTime_2024 : formatTime 1709164800123400 = Some "2024-02-29T00:00:00.1234Z".
Proof. vm_compute. reflexivity. Qed.
Example formatTime_year_10000 : formatTime 253402300800000000 = None.
Proof. vm_compute. reflexivity. Qed.
End decimal.

(** ** Base64 without padding

    [RawStdEncoding] and [RawURLEncoding] differ in the characters for 62 and
    63.  Decoding skips CR and LF and refuses any other foreign byte. *)
Section base64.
Local Open Scope N_scope.
Context (c62 c63 : N).

Definition b64char (d : N) : N :=
  if d <? 26 then 65 + d else if d <? 52 then 71 + d else if d <? 62 then d - 4
  else if d =? 62 then c62 else c63.

Definition b64digit (b : N) : option N :=
  if (65 <=? b) && (b <=? 90) then Some (b - 65)
  else if (97 <=? b) && (b <=? 122) then Some (b - 71)
  else if (48 <=? b) && (b <=? 57) then Some (b + 4)
  else if b =? c62 then Some 62 else if b =? c63 then Some 63 else None.

Fixpoint b64encode (l : list N) : list N :=
  match l with
  | [] => []
  | [x] => [b64char (x / 4); b64char (x mod 4 * 16)]
  | [x; y] => [b64char (x / 4); b64char (x mod 4 * 16 + y / 16); b64char (y mod 16 * 4)]
  | x :: y :: z :: l' =>
      b64char (x / 4) :: b64char (x mod 4 * 16 + y / 16) ::
      b64char (y mod 16 * 4 + z / 64) :: b64char (z mod 64) :: b64encode l'
  end.

Fixpoint b64groups (l : list N) : option (list N) :=
  match l with
  | [] => Some []
  | [_] => None
  | [a; b] => Some [a * 4 + b / 16]
  | [a; b; c] => Some [a * 4 + b / 16; b mod 16 * 16 + c / 4]
  | a :: b :: c :: d :: l' =>
      tail ← b64groups l';
      Some (a * 4 + b / 16 :: b mod 16 * 16 + c / 4 :: c mod 4 * 64 + d :: tail)
  end.

Definition b64decode (l : list N) : option (list N) :=
  ds ← mapM b64digit (filter (λ b, b ≠ 10 ∧ b ≠ 13) l); b64groups ds.

(** The digits an encoding is made of. *)
Fixpoint b64digits (l : list N) : list N :=
  match l with
  | [] => []
  | [x] => [x / 4; x mod 4 * 16]
  | [x; y] => [x / 4; x mod 4 * 16 + y / 16; y mod 16 * 4]
  | x :: y :: z :: l' =>
      x / 4 :: x mod 4 * 16 + y / 16 :: y mod 16 * 4 + z / 64 :: z mod 64 :: b64digits l'
  end.

Lemma three_ind (P : list N → Prop) :
  P [] → (∀ x, P [x]) → (∀ x y, P [x; y]) → (∀ x y z l, P l → P (x :: y :: z :: l)) → ∀ l, P l.
Proof.
  intros H0 H1 H2 H3 l. assert (P l ∧ (∀ x, P (x :: l)) ∧ (∀ x y, P (x :: y :: l))) as [? _]; [|done].
  induction l as [|z l (IH0 & IH1 & IH2)]; [auto|]. split_and!; auto.
Qed.

Lemma b64encode_digits l : b64encode l = b64char <$> b64digits l.
Proof. induction l using three_ind; simpl; [done..|]. by rewrite IHl. Qed.

Lemma b64digits_small l : Forall (λ b, b < 256) l → Forall (λ d, d < 64) (b64digits l).
Proof.
  induction l using three_ind; cbn [b64digits]; rewrite ?Forall_cons; intros Hb.
  - constructor.
  - destruct Hb as [Hx _]. repeat constructor; [|pose proof (N.mod_lt x 4); lia].
    apply N.Div0.div_lt_upper_bound; lia.
  - destruct Hb as (Hx & Hy & _). assert (y / 16 < 16) by (apply N.Div0.div_lt_upper_bound; lia).
    pose proof (N.mod_lt x 4). pose proof (N.mod_lt y 16).
    repeat constructor; [apply N.Div0.div_lt_upper_bound; lia | lia | lia].
  - destruct Hb as (Hx & Hy & Hz & Hl). assert (y / 16 < 16) by (apply N.Div0.div_lt_upper_bound; lia).
    assert (z / 64 < 4) by (apply N.Div0.div_lt_upper_bound; lia).
    pose proof (N.mod_lt x 4). pose proof (N.mod_lt y 16). pose proof (N.mod_lt z 64).
    repeat constructor; [apply N.Div0.div_lt_upper_bound; lia | lia | lia | lia | auto].
Qed.

Lemma b64groups_digits l : Forall (λ b, b < 256) l → b64groups (b64digits l) = Some l.
Proof.
  induction l as [|x|x y|x y z l IH] using three_ind; rewrite ?Forall_cons; intros Hb; [done|..];
    cbn [b64digits b64groups].
  - rewrite N.div_mul by lia.
    do 2 f_equal. pose proof (N.div_mod x 4). lia.
  - destruct Hb as (Hx & Hy & _). assert (y / 16 < 16) by (apply N.Div0.div_lt_upper_bound; lia).
    rewrite N.div_add_l, (N.div_small (y / 16)), N.div_mul by lia.
    replace ((x mod 4 * 16 + y / 16) mod 16) with (y / 16)
      by (rewrite N.add_comm, N.Div0.mod_add, N.mod_small; lia).
    pose proof (N.div_mod x 4). pose proof (N.div_mod y 16). repeat f_equal; lia.
  - destruct Hb as (Hx & Hy & Hz & Hl). assert (y / 16 < 16) by (apply N.Div0.div_lt_upper_bound; lia).
    assert (z / 64 < 4) by (apply N.Div0.div_lt_upper_bound; lia).
    rewrite IH by done. simpl.
    rewrite !N.div_add_l, (N.div_small (y / 16)), (N.div_small (z / 64)) by lia.
    replace ((x mod 4 * 16 + y / 16) mod 16) with (y / 16)
      by (rewrite N.add_comm, N.Div0.mod_add, N.mod_small; lia).
    replace ((y mod 16 * 4 + z / 64) mod 4) with (z / 64)
      by (rewrite N.add_comm, N.Div0.mod_add, N.mod_small; lia).
    pose proof (N.div_mod x 4). pose proof (N.div_mod y 16). pose proof (N.div_mod z 64).
    repeat f_equal; lia.
Qed.

Context (Hc62 : b64digit c62 = Some 62) (Hc63 : b64digit c63 = Some 63)
        (Hline : c62 ≠ 10 ∧ c62 ≠ 13 ∧ c63 ≠ 10 ∧ c63 ≠ 13).

Lemma b64digit_char d : d < 64 → b64digit (b64char d) = Some d.
Proof.
  intros Hd. unfold b64char. repeat case_if; try done.
  - unfold b64digit. rewrite N.ltb_lt in E. 
    replace ((65 <=? 65 + d) && (65 + d <=? 90)) with true
      by (symmetry; rewrite andb_true_iff, !N.leb_le; lia). f_equal. lia.
  - unfold b64digit. rewrite N.ltb_lt in E0. rewrite N.ltb_ge in E.
    replace ((65 <=? 71 + d) && (71 + d <=? 90)) with false
      by (symmetry; rewrite andb_false_iff, !N.leb_gt; lia).
    replace ((97 <=? 71 + d) && (71 + d <=? 122)) with true
      by (symmetry; rewrite andb_true_iff, !N.leb_le; lia). f_equal. lia.
  - unfold b64digit. rewrite N.ltb_lt in E1. rewrite N.ltb_ge in E0.
    replace ((65 <=? d - 4) && (d - 4 <=? 90)) with false
      by (symmetry; rewrite andb_false_iff, !N.leb_gt; lia).
    replace ((97 <=? d - 4) && (d - 4 <=? 122)) with false
      by (symmetry; rewrite andb_false_iff, !N.leb_gt; lia).
    replace ((48 <=? d - 4) && (d - 4 <=? 57)) with true
      by (symmetry; rewrite andb_true_iff, !N.leb_le; lia). f_equal. lia.
  - rewrite N.eqb_eq in E2. by subst.
  - rewrite N.eqb_neq in E2. rewrite N.ltb_ge in E1. assert (d = 63) as -> by lia. done.
Qed.

Lemma b64digit_line b : b = 10 ∨ b = 13 → b64digit b = None.
Proof.
  intros Hb. unfold b64digit. rewrite (proj2 (N.eqb_neq b c62)), (proj2 (N.eqb_neq b c63)) by lia.
  by destruct Hb as [-> | ->].
Qed.

Lemma b64decode_encode l : Forall (λ b, b < 256) l → b64decode (b64encode l) = Some l.
Proof.
  intros Hl. unfold b64decode. rewrite b64encode_digits.
  pose proof (b64digits_small l Hl) as Hd.
  assert (∀ ds, Forall (λ d, d < 64) ds →
    mapM b64digit (filter (λ b, b ≠ 10 ∧ b ≠ 13) (b64char <$> ds)) = Some ds) as ->; [|by apply b64groups_digits|done].
  induction 1 as [|d ds Hd1 _ IH]; [done|]. rewrite fmap_cons, filter_cons_True.
  - simpl. by rewrite b64digit_char, IH.
  - pose proof (b64digit_char d Hd1) as Hc. split; intros E; rewrite E in Hc.
    + by rewrite (b64digit_line 10) in Hc by auto.
    + by rewrite (b64digit_line 13) in Hc by auto.
Qed.
End base64.

Definition RawStd (l : list N) : string := of_bytes (b64encode 43 47 l).
Definition RawStdDecode (s : string) : option (list N) := b64decode 43 47 (bytes s).
Definition RawURL (l : list N) : string := of_bytes (b64encode 45 95 l).
Definition RawURLDecode (s : string) : option (list N) := b64decode 45 95 (bytes s).

Lemma RawStd_roundtrip l : Forall (λ b, (b < 256)%N) l → RawStdDecode (RawStd l) = Some l.
Proof.
  intros Hl. unfold RawStdDecode, RawStd. rewrite bytes_of_bytes.
  - by apply b64decode_encode.
  - rewrite b64encode_digits. apply Forall_fmap. eapply Forall_impl; [by eapply b64digits_small|].
    intros d Hd. simpl in *. unfold b64char. repeat case_if; rewrite ?N.ltb_lt in *; lia.
Qed.

Example rawStd_hello : RawStd (bytes "hello") = "aGVsbG8".
Proof. vm_compute. reflexivity. Qed.
Example rawURL_decode : RawURLDecode "-_8" = Some [251; 255]%N.
Proof. vm_compute. reflexivity. Qed.
