(* ===== verification/Tx.v ===== *)
(** * Programs over a PostgreSQL database

    Handlers and workers are programs that send SQL statements, read clocks,
    draw random identifiers and fail.  [M S A] is the type of a program over
    the database state [S]: given the outside world and a position in time it
    returns a result or a Go error, the new state and the new position.

    The outside world [Env] is a parameter of every theorem: what the database
    clock shows, whether a statement fails for infrastructure reasons, what a
    commit answers, whether the request context is done.  A theorem that holds
    for every [Env] therefore holds for every schedule of failures.

    Abstractions: [clock_timestamp()] is read once per SQL statement, and a
    transaction runs without interleaved writes of other transactions to the
    rows it touches (the code takes row locks or advisory locks for that). *)
From S2P Require Import Prelude GoLib.
From stdpp Require Import pretty.
Local Open Scope Z_scope.

(** ** Errors

    One constructor per sentinel error of the modelled packages, plus
    [ErrNoRows] (pgx), [ErrUnique] and [ErrConstraint] (SQLSTATE 23505, and 23503
    or 23514), [ErrDatabase] (any other failure of a statement or a commit),
    [ErrContext] (the context was cancelled or timed out) and [ErrDecode] (a
    stored JSON value did not decode). *)
Inductive error :=
  | ErrDatabase | ErrNoRows | ErrContext | ErrDecode | ErrUnique | ErrConstraint
  (* internal/jobs *)
  | JobsErrNoJob | JobsErrInvalid | JobsErrConflict | JobsErrLeaseLost | JobsErrNotFound
  (* internal/evidence *)
  | EvidenceErrScope | EvidenceErrNotFound | EvidenceErrIntegrity | EvidenceErrOther
  (* internal/app: API errors *)
  | errUnauthorized | errForbidden | errNotFound | errConflict | errInvalid
  | errTooLarge | errUnsupported | errReplayExpired | errMethod | errUnavailable
  | errEvidenceExpired | errEvidenceMissing | errEvidenceCorrupt | errHistoryNotArchived
  (* internal/app: workers *)
  | errLeaseLost | errAuthorizationRevoked
  (* errReportLeaseLost, and the errors.New of the report worker that nothing inspects *)
  | errReportLeaseLost | errReportWork
  (* deliveryDenial of the delivery worker, and its errors.New that nothing inspects *)
  | deliveryDenial (code : string) | errDeliveryWork
  (* internal/verification, its errors.New, and the one of the verification worker *)
  | VerifyErrPolicy | VerifyErrLimit | VerifyErrFormat | errReaderUnavailable | errVerificationWork
  (* errRetentionLeaseLost, and the errors.New of the retention worker that nothing inspects *)
  | errRetentionLeaseLost | errRetentionWork
  (* collectionDenial of the collection worker *)
  | collectionDenial (code : string)
  (* pkg/reportadapter *)
  | AdapterErrUnsupported | AdapterErrInvalid | AdapterErrOther
  (* internal/storagepolicy *)
  | PolicyErrInvalid.

#[export] Instance error_eq_dec : EqDecision error.
Proof. solve_decision. Defined.

Inductive Res (A : Type) := Ok (a : A) | Err (e : error).
Arguments Ok {A} a.
Arguments Err {A} e.

Definition is_ok {A} (r : Res A) : bool := match r with Ok _ => true | Err _ => false end.

(** What the server answers to COMMIT: applied and acknowledged, rolled back,
    or applied with the acknowledgement lost. *)
Inductive commit_outcome := Committed | Aborted | AckLost.

Record Env := {
  env_clock : nat → Z;              (** clock_timestamp() of the n-th statement, microseconds *)
  env_now : nat → Z;                (** config.Now() of the process, microseconds *)
  env_nanos : nat → Z;              (** ... and the nanoseconds past them, 0..999 *)
  env_fault : nat → bool;           (** the n-th statement fails before taking effect *)
  env_commit : nat → commit_outcome;
  env_done : nat → bool;            (** ctx.Err() <> nil at the n-th step *)
  env_fresh : nat → string;         (** the n-th random identifier *)
  env_locked : nat → string → bool; (** rows other transactions hold locked, for SKIP LOCKED *)
  env_interval : Z → Z;             (** ns duration -> microseconds of
                                        [$n::double precision*interval '1 second'] *)
}.

(** No infrastructure failure, no cancellation. *)
Definition faultless (env : Env) : Prop :=
  (∀ n, env_fault env n = false) ∧ (∀ n, env_commit env n = Committed) ∧
  (∀ n, env_done env n = false).

(** The database clock does not go backwards. *)
Definition clock_monotone (env : Env) : Prop :=
  ∀ i j, (i ≤ j)%nat → env_clock env i ≤ env_clock env j.

Record Out (S A : Type) := mkOut { out_res : Res A; out_db : S; out_tick : nat }.
Arguments mkOut {S A}.
Arguments out_res {S A}.
Arguments out_db {S A}.
Arguments out_tick {S A}.

Definition M (S A : Type) := Env → nat → S → Out S A.

Section programs.
Context {S : Type}.

Definition ret {A} (a : A) : M S A := λ _ n s, mkOut (Ok a) s n.
Definition throw {A} (e : error) : M S A := λ _ n s, mkOut (Err e) s n.

Definition bind {A B} (m : M S A) (k : A → M S B) : M S B := λ env n s,
  match m env n s with
  | mkOut (Ok a) s' n' => k a env n' s'
  | mkOut (Err e) s' n' => mkOut (Err e) s' n'
  end.

(** Run [m] and hand its result, error included, to [k] (Go code that
    inspects [err] instead of returning it). *)
Definition handle {A B} (m : M S A) (k : Res A → M S B) : M S B := λ env n s,
  match m env n s with mkOut r s' n' => k r env n' s' end.

Definition fromRes {A} (r : Res A) : M S A :=
  match r with Ok a => ret a | Err e => throw e end.

(** [if cond { return err }]. *)
Definition guard (ok : bool) (e : error) : M S unit := if ok then ret tt else throw e.

(** One SQL statement: it may fail as infrastructure, else reads the database
    clock once and runs.  A failed statement leaves the state unchanged. *)
Definition stmt {A} (f : Z → S → Res (A * S)) : M S A := λ env n s,
  if env_fault env n || env_done env n then
    mkOut (Err (if env_done env n then ErrContext else ErrDatabase)) s (n + 1)%nat
  else match f (env_clock env n) s with
       | Ok (a, s') => mkOut (Ok a) s' (n + 1)%nat
       | Err e => mkOut (Err e) s (n + 1)%nat
       end.

(** A statement that only reads. *)
Definition query {A} (f : Z → S → Res A) : M S A :=
  stmt (λ t s, match f t s with Ok a => Ok (a, s) | Err e => Err e end).

(** A statement that changes the state and reports [a] (rows affected). *)
Definition exec {A} (f : Z → S → A * S) : M S A := stmt (λ t s, Ok (f t s)).

(** A statement under a context of its own whose outcome is ignored. *)
Definition detached (f : Z → S → S) : M S unit := λ env n s,
  mkOut (Ok tt) (if env_fault env n then s else f (env_clock env n) s) (n + 1)%nat.

(** A program under a context of its own, which nobody cancels. *)
Definition background {A} (m : M S A) : M S A := λ env n s,
  m {| env_clock := env_clock env; env_now := env_now env; env_nanos := env_nanos env; env_fault := env_fault env;
       env_commit := env_commit env; env_done := λ _, false; env_fresh := env_fresh env; env_locked := env_locked env;
       env_interval := env_interval env |} n s.

(** [config.Now()], a random identifier, [ctx.Err()]. *)
Definition now : M S Z := λ env n s, mkOut (Ok (env_now env n)) s (n + 1)%nat.
Definition nowNanos : M S Z := λ env n s, mkOut (Ok (env_now env n * 1000 + env_nanos env n)) s (n + 1)%nat.
Definition newID : M S string := λ env n s, mkOut (Ok (env_fresh env n)) s (n + 1)%nat.
Definition ctxErr : M S bool := λ env n s, mkOut (Ok (env_done env n)) s (n + 1)%nat.
Definition skipLocked : M S (string → bool) := λ env n s, mkOut (Ok (env_locked env n)) s n.
Definition intervalOf (d : Z) : M S Z := λ env n s, mkOut (Ok (env_interval env d)) s n.

(** [tx, err := pool.Begin(ctx); defer rollback(tx); ...; tx.Commit(ctx)]:
    an error rolls back; a commit may fail, or be applied unacknowledged. *)
Definition transaction {A} (m : M S A) : M S A := λ env n s,
  match m env n s with
  | mkOut (Err e) _ n' => mkOut (Err e) s n'
  | mkOut (Ok a) s' n' =>
      match env_commit env n' with
      | Committed => mkOut (Ok a) s' (n' + 1)%nat
      | Aborted => mkOut (Err ErrDatabase) s (n' + 1)%nat
      | AckLost => mkOut (Err ErrDatabase) s' (n' + 1)%nat
      end
  end.

(** A transaction that commits its writes and then returns an error. *)
Definition transactionRes {A} (m : M S (Res A)) : M S A :=
  bind (transaction m) fromRes.

(** [for _, x := range l { ... }] with an accumulated state. *)
Fixpoint foldM {A B} (f : B → A → M S B) (l : list A) (b : B) : M S B :=
  match l with
  | [] => ret b
  | x :: l' => bind (f b x) (foldM f l')
  end.

(** [for _, x := range l { ... }] collecting one value per element. *)
Fixpoint mapM {A B} (f : A → M S B) (l : list A) : M S (list B) :=
  match l with
  | [] => ret []
  | x :: l' => bind (f x) (λ y, bind (mapM f l') (λ ys, ret (y :: ys)))
  end.
End programs.

Notation "x <- m ;; k" := (bind m (λ x, k))
  (at level 100, m at next level, right associativity) : go_scope.
Notation "m ;;; k" := (bind m (λ _, k)) (at level 100, right associativity) : go_scope.

(** ** Relational reasoning: what a program may do to the state

    [Steps R m]: every run of [m], failing or not, in every world, relates the
    state before and the state after by [R].  For a preorder [R] the property
    is compositional, so a handler's proof reduces to its UPDATE statements.
    Preservation of an invariant [I] is the instance [λ s s', I s → I s']. *)
Definition Steps {S A} (R : S → S → Prop) (m : M S A) : Prop :=
  ∀ env n s, R s (out_db (m env n s)).

Definition preserves {S} (I : S → Prop) (s s' : S) : Prop := I s → I s'.
#[export] Instance preserves_preorder {S} (I : S → Prop) : PreOrder (preserves I).
Proof. split; unfold preserves; [intros s; auto | intros s1 s2 s3; auto]. Qed.

Create HintDb steps discriminated.

Section steps.
Context {S : Type} (R : S → S → Prop) `{!PreOrder R}.

Lemma steps_ret {A} (a : A) : Steps R (ret a).
Proof. intros env n s. reflexivity. Qed.
Lemma steps_throw {A} (e : error) : Steps R (A:=A) (throw e).
Proof. intros env n s. reflexivity. Qed.
Lemma steps_fromRes {A} (r : Res A) : Steps R (fromRes r).
Proof. destruct r; intros env n s; reflexivity. Qed.
Lemma steps_guard b e : Steps R (guard b e).
Proof. destruct b; intros env n s; reflexivity. Qed.
Lemma steps_now : Steps R now.
Proof. intros env n s. reflexivity. Qed.
Lemma steps_nowNanos : Steps R nowNanos.
Proof. intros env n s. reflexivity. Qed.
Lemma steps_newID : Steps R newID.
Proof. intros env n s. reflexivity. Qed.
Lemma steps_ctxErr : Steps R ctxErr.
Proof. intros env n s. reflexivity. Qed.
Lemma steps_skipLocked : Steps R skipLocked.
Proof. intros env n s. reflexivity. Qed.
Lemma steps_intervalOf d : Steps R (intervalOf d).
Proof. intros env n s. reflexivity. Qed.

Lemma steps_bind {A B} (m : M S A) (k : A → M S B) :
  Steps R m → (∀ a, Steps R (k a)) → Steps R (bind m k).
Proof.
  intros Hm Hk env n s. unfold bind. specialize (Hm env n s).
  destruct (m env n s) as [[a|e] s' n']; simpl in *; [|done].
  etransitivity; [done|]. apply Hk.
Qed.

Lemma steps_guarded {B} b e (k : M S B) :
  (b = true → Steps R k) → Steps R (bind (guard b e) (λ _, k)).
Proof. intros Hk. destruct b; [by apply Hk|]. intros env n s. reflexivity. Qed.

Lemma steps_handle {A B} (m : M S A) (k : Res A → M S B) :
  Steps R m → (∀ r, Steps R (k r)) → Steps R (handle m k).
Proof.
  intros Hm Hk env n s. unfold handle. specialize (Hm env n s).
  destruct (m env n s) as [r s' n']; simpl in *.
  etransitivity; [done|]. apply Hk.
Qed.

Lemma steps_stmt {A} (f : Z → S → Res (A * S)) :
  (∀ t s a s', f t s = Ok (a, s') → R s s') → Steps R (stmt f).
Proof.
  intros Hf env n s. unfold stmt. case_if; [reflexivity|].
  destruct (f (env_clock env n) s) as [[a s']|e] eqn:Ef; simpl; [eauto|reflexivity].
Qed.

Lemma steps_query {A} (f : Z → S → Res A) : Steps R (query f).
Proof. apply steps_stmt. intros t s a s' H. destruct (f t s); simplify_eq. reflexivity. Qed.

Lemma steps_exec {A} (f : Z → S → A * S) :
  (∀ t s, R s (snd (f t s))) → Steps R (exec f).
Proof. intros Hf. apply steps_stmt. intros t s a s' [= E]. specialize (Hf t s). by rewrite E in Hf. Qed.

Lemma steps_detached (f : Z → S → S) : (∀ t s, R s (f t s)) → Steps R (detached f).
Proof. intros Hf env n s. unfold detached. simpl. case_if; [reflexivity|apply Hf]. Qed.

Lemma steps_transaction {A} (m : M S A) : Steps R m → Steps R (transaction m).
Proof.
  intros Hm env n s. unfold transaction. specialize (Hm env n s).
  destruct (m env n s) as [[a|e] s' n']; simpl in *; [|reflexivity].
  destruct (env_commit env n'); simpl; done || reflexivity.
Qed.

(** The same, with the run of the body as an equation to invert. *)
Lemma steps_transaction_ok {A} (m : M S A) :
  (∀ env n s a s' n', m env n s = mkOut (Ok a) s' n' → R s s') → Steps R (transaction m).
Proof.
  intros Hm env n s. unfold transaction. destruct (m env n s) as [[a|e] s' n'] eqn:E; simpl;
    [|reflexivity]. apply Hm in E. destruct (env_commit env n'); simpl; done || reflexivity.
Qed.

Lemma steps_transactionRes {A} (m : M S (Res A)) : Steps R m → Steps R (transactionRes m).
Proof. intros. apply steps_bind; [by apply steps_transaction | apply steps_fromRes]. Qed.

Lemma steps_foldM {A B} (f : B → A → M S B) l b :
  (∀ b x, Steps R (f b x)) → Steps R (foldM f l b).
Proof.
  intros Hf. revert b. induction l as [|x l IH]; intros b; simpl;
    [apply steps_ret | by apply steps_bind].
Qed.

Lemma steps_mapM {A B} (f : A → M S B) l : (∀ x, Steps R (f x)) → Steps R (mapM f l).
Proof.
  intros Hf. induction l as [|x l IH]; simpl; [apply steps_ret|].
  apply steps_bind; [done|]. intros y. apply steps_bind; [done|]. intros; apply steps_ret.
Qed.

(** A transaction may break [R] between its statements as long as its whole
    run, when it ends normally, is an [R] step. *)
Lemma steps_transaction_whole {A} (m : M S A) :
  (∀ env n s a, out_res (m env n s) = Ok a → R s (out_db (m env n s))) →
  Steps R (transaction m).
Proof.
  intros Hm env n s. unfold transaction. specialize (Hm env n s).
  destruct (m env n s) as [[a|e] s' n']; simpl in *; [|reflexivity].
  destruct (env_commit env n'); simpl; eauto; reflexivity.
Qed.
End steps.

#[export] Hint Resolve steps_ret steps_throw steps_fromRes steps_guard steps_now
  steps_nowNanos steps_newID steps_ctxErr steps_skipLocked steps_intervalOf steps_query : steps.

(** Walk through a program: apply the structural rules, split on conditions,
    and leave the goals about statements that write. *)
Ltac steps_step :=
  first
    [ match goal with |- ∀ _, _ => intro end
    | solve [eauto 2 with steps typeclass_instances]
    | apply steps_guarded; [apply _|]
    | apply steps_bind; [apply _| |]
    | apply steps_handle; [apply _| |]
    | apply steps_transaction; [apply _|]
    | apply steps_transactionRes; [apply _|]
    | apply steps_foldM; [apply _|]
    | apply steps_mapM; [apply _|]
    | match goal with
      | |- Steps _ (match ?x with _ => _ end) => destruct x
      | |- Steps _ (let _ := _ in _) => cbv zeta
      end ].
Ltac steps := repeat steps_step.
(** The same, treating each transaction as one step of its successful run. *)
Ltac steps_ok :=
  repeat first [ apply steps_transaction_ok; [apply _|] | steps_step ].

(** ** Runs in time

    [timed step env n s n' s']: from tick [n] in [s] to tick [n'] in [s'] the
    state changed only by steps of [step], each at a tick of the run, in order.
    A step may therefore refer to the clock its statement read and to what
    other sessions did at that tick. *)
Section timed.
Context {S : Type}.
Implicit Types step : Env → nat → S → S → Prop.

Inductive timed step (env : Env) : nat → S → nat → S → Prop :=
  | timed_idle n n' s : (n ≤ n')%nat → timed step env n s n' s
  | timed_act n k n' s s1 s' :
      (n ≤ k)%nat → step env k s s1 → timed step env k s1 n' s' → timed step env n s n' s'.

Definition Timed {A} step (m : M S A) : Prop :=
  ∀ env n s, timed step env n s (out_tick (m env n s)) (out_db (m env n s)).
(** The ticks of a program go forward. *)
Definition Forward {A} (m : M S A) : Prop := Timed (λ _ _ _ _, True) m.

Lemma timed_le step env n s n' s' : timed step env n s n' s' → (n ≤ n')%nat.
Proof. induction 1; lia. Qed.
Lemma timed_trans step env n1 s1 n2 s2 n3 s3 :
  timed step env n1 s1 n2 s2 → timed step env n2 s2 n3 s3 → timed step env n1 s1 n3 s3.
Proof.
  induction 1 as [n n' s Hn|n k n' s s1 s' Hn Hs _ IH]; intros H3; [|by eapply timed_act; eauto].
  destruct H3 as [m m' t Hm|m k m' t t1 t' Hm Ht H]; [apply timed_idle; lia|].
  eapply timed_act; [|done..]. lia.
Qed.
Lemma timed_once step env n k n' s s' :
  (n ≤ k ≤ n')%nat → step env k s s' → timed step env n s n' s'.
Proof. intros [? ?] Hs. eapply timed_act; [done..|]. by apply timed_idle. Qed.
Lemma timed_weaken step step' env n s n' s' :
  (∀ k s1 s2, (n ≤ k)%nat → step env k s1 s2 → step' env k s1 s2) →
  timed step env n s n' s' → timed step' env n s n' s'.
Proof.
  intros Hw. induction 1 as [|n k n' s s1 s' Hn Hs _ IH]; [by apply timed_idle|].
  eapply timed_act; [done|by apply Hw|]. apply IH. intros k' s2 s3 Hk. apply Hw. lia.
Qed.

Context (step : Env → nat → S → S → Prop).
Lemma Timed_tick {A} (m : M S A) env n s r s' n' : Timed step m → m env n s = mkOut r s' n' → (n ≤ n')%nat.
Proof. intros H E. specialize (H env n s). rewrite E in H. by apply timed_le in H. Qed.
Lemma timed_ret {A} (a : A) : Timed step (ret a).
Proof. intros env n s. by apply timed_idle. Qed.
Lemma timed_throw {A} e : Timed (A:=A) step (throw e).
Proof. intros env n s. by apply timed_idle. Qed.
Lemma timed_fromRes {A} (r : Res A) : Timed step (fromRes r).
Proof. destruct r; intros env n s; by apply timed_idle. Qed.
Lemma timed_guard b e : Timed step (guard b e).
Proof. destruct b; intros env n s; by apply timed_idle. Qed.
Lemma timed_now : Timed step now.
Proof. intros env n s. apply timed_idle. simpl. lia. Qed.
Lemma timed_newID : Timed step newID.
Proof. intros env n s. apply timed_idle. simpl. lia. Qed.
Lemma timed_ctxErr : Timed step ctxErr.
Proof. intros env n s. apply timed_idle. simpl. lia. Qed.
Lemma timed_skipLocked : Timed step skipLocked.
Proof. intros env n s. by apply timed_idle. Qed.
Lemma timed_intervalOf d : Timed step (intervalOf d).
Proof. intros env n s. by apply timed_idle. Qed.
Lemma timed_bind {A B} (m : M S A) (k : A → M S B) :
  Timed step m → (∀ a, Timed step (k a)) → Timed step (bind m k).
Proof.
  intros Hm Hk env n s. unfold bind. specialize (Hm env n s).
  destruct (m env n s) as [[a|e] s' n']; simpl in *; [|done]. eapply timed_trans; [done|apply Hk].
Qed.
Lemma timed_guarded {B} b e (k : M S B) :
  (b = true → Timed step k) → Timed step (bind (guard b e) (λ _, k)).
Proof. intros Hk. destruct b; [by apply Hk|]. intros env n s. by apply timed_idle. Qed.
Lemma timed_handle {A B} (m : M S A) (k : Res A → M S B) :
  Timed step m → (∀ r, Timed step (k r)) → Timed step (handle m k).
Proof.
  intros Hm Hk env n s. unfold handle. specialize (Hm env n s).
  destruct (m env n s) as [r s' n']; simpl in *. eapply timed_trans; [done|apply Hk].
Qed.
Lemma timed_stmt {A} (f : Z → S → Res (A * S)) :
  (∀ env n s a s', f (env_clock env n) s = Ok (a, s') → s' = s ∨ step env n s s') → Timed step (stmt f).
Proof.
  intros Hf env n s. unfold stmt. destruct (_ || _); [apply timed_idle; simpl; lia|].
  specialize (Hf env n s). destruct (f (env_clock env n) s) as [[a s']|e]; simpl; [|apply timed_idle; lia].
  destruct (Hf a s' eq_refl) as [->|Hs]; [apply timed_idle; lia|]. eapply timed_once; [|done]. lia.
Qed.
Lemma timed_query {A} (f : Z → S → Res A) : Timed step (query f).
Proof. apply timed_stmt. intros env n s a s'. destruct (f _ s); [|done]. intros [= _ <-]. by left. Qed.
Lemma timed_exec {A} (f : Z → S → A * S) :
  (∀ env n s, snd (f (env_clock env n) s) = s ∨ step env n s (snd (f (env_clock env n) s))) → Timed step (exec f).
Proof. intros Hf. apply timed_stmt. intros env n s a s' [= E]. specialize (Hf env n s). by rewrite E in Hf. Qed.
Lemma timed_detached (f : Z → S → S) :
  (∀ env n s, f (env_clock env n) s = s ∨ step env n s (f (env_clock env n) s)) → Timed step (detached f).
Proof.
  intros Hf env n s. unfold detached. simpl. destruct (env_fault env n); [apply timed_idle; lia|].
  destruct (Hf env n s) as [->|Hs]; [apply timed_idle; lia|]. eapply timed_once; [|done]. lia.
Qed.
(** A transaction is one step, at a tick of its run. *)
Lemma timed_transaction {A} (m : M S A) :
  Forward m →
  (∀ env n s a s' n', m env n s = mkOut (Ok a) s' n' →
     s' = s ∨ ∃ k, (n ≤ k ≤ n')%nat ∧ step env k s s') →
  Timed step (transaction m).
Proof.
  intros Hm Hs env n s. unfold transaction. specialize (Hm env n s). apply timed_le in Hm.
  destruct (m env n s) as [[a|e] s' n'] eqn:E; simpl in *; [|by apply timed_idle].
  assert (timed step env n s (n' + 1) s').
  { destruct (Hs _ _ _ _ _ _ E) as [->|(k & ? & ?)]; [apply timed_idle; lia|]. eapply timed_once; [|done]. lia. }
  destruct (env_commit env n'); simpl; [done|apply timed_idle; lia|done].
Qed.
Lemma timed_mapM {A B} (f : A → M S B) l : (∀ x, Timed step (f x)) → Timed step (mapM f l).
Proof.
  intros Hf. induction l as [|x l IH]; simpl; [apply timed_ret|].
  apply timed_bind; [done|]. intros y. apply timed_bind; [done|]. intros; apply timed_ret.
Qed.
Lemma timed_foldM {A B} (f : B → A → M S B) l b : (∀ b x, Timed step (f b x)) → Timed step (foldM f l b).
Proof.
  intros Hf. revert b. induction l as [|x l IH]; intros b; simpl; [apply timed_ret|by apply timed_bind].
Qed.
End timed.

Create HintDb timed discriminated.
#[export] Hint Resolve timed_ret timed_throw timed_fromRes timed_guard timed_now timed_newID timed_ctxErr
  timed_skipLocked timed_intervalOf timed_query : timed.
Ltac timed_step :=
  first
    [ match goal with |- ∀ _, _ => intro end
    | solve [eauto 2 with timed]
    | apply timed_guarded
    | apply timed_bind
    | apply timed_handle
    | apply timed_mapM
    | apply timed_foldM
    | match goal with
      | |- Timed _ (match ?x with _ => _ end) => destruct x
      | |- Timed _ (let _ := _ in _) => cbv zeta
      end ].
Ltac timed_run := repeat timed_step.
(** [Forward m] for a program built from statements. *)
Ltac forward :=
  unfold Forward; repeat first [ timed_step | apply timed_stmt; by right | apply timed_exec; by right
    | apply timed_detached; by right | apply timed_transaction; [|intros; right; eexists; (split; [|done]);
        split; [reflexivity|]; eapply Timed_tick; [|eassumption]] ].

(** ** Which errors a program may return

    [Throws P m]: every error of every run of [m] satisfies [P]; [P] is assumed
    to admit the two infrastructure errors. *)
Definition Throws {S A} (P : error → Prop) (m : M S A) : Prop :=
  ∀ env n s e, out_res (m env n s) = Err e → P e.

Section throws.
Context {S : Type} (P : error → Prop) (HD : P ErrDatabase) (HC : P ErrContext).

Lemma throws_ret {A} (a : A) : Throws P (ret (S:=S) a).
Proof. done. Qed.
Lemma throws_throw {A} e : P e → Throws (S:=S) (A:=A) P (throw e).
Proof. intros He env n s e' [= <-]. done. Qed.
Lemma throws_guard b e : P e → Throws (S:=S) P (guard b e).
Proof. intros He env n s e'. destruct b; [done|]. by intros [= <-]. Qed.
Lemma throws_nowNanos : Throws (S:=S) P nowNanos.
Proof. done. Qed.
Lemma throws_now : Throws (S:=S) P now.
Proof. done. Qed.
Lemma throws_newID : Throws (S:=S) P newID.
Proof. done. Qed.
Lemma throws_ctxErr : Throws (S:=S) P ctxErr.
Proof. done. Qed.
Lemma throws_bind {A B} (m : M S A) (k : A → M S B) :
  Throws P m → (∀ a, Throws P (k a)) → Throws P (bind m k).
Proof.
  intros Hm Hk env n s e. unfold bind. specialize (Hm env n s).
  destruct (m env n s) as [[a|e'] s' n']; simpl in *; [apply Hk|]. intros [= ->]. by apply Hm.
Qed.
Lemma throws_handle {A B} (m : M S A) (k : Res A → M S B) :
  (∀ r, Throws P (k r)) → Throws P (handle m k).
Proof. intros Hk env n s e. unfold handle. destruct (m env n s). apply Hk. Qed.
Lemma throws_stmt {A} (f : Z → S → Res (A * S)) :
  (∀ t s e, f t s = Err e → P e) → Throws P (stmt f).
Proof.
  intros Hf env n s e. unfold stmt. case_if; simpl; [intros [= <-]; by case_if|].
  destruct (f _ s) as [[a s']|e'] eqn:Ef; simpl; [done|]. intros [= <-]. eauto.
Qed.
Lemma throws_query {A} (f : Z → S → Res A) :
  (∀ t s e, f t s = Err e → P e) → Throws P (query f).
Proof.
  intros Hf. apply throws_stmt. intros t s e. destruct (f t s) eqn:E; [done|]. intros [= <-]. eauto.
Qed.
Lemma throws_exec {A} (f : Z → S → A * S) : Throws P (exec f).
Proof. by apply throws_stmt. Qed.
Lemma throws_transaction {A} (m : M S A) : Throws P m → Throws P (transaction m).
Proof.
  intros Hm env n s e. unfold transaction. specialize (Hm env n s).
  destruct (m env n s) as [[a|e'] s' n']; simpl in *; [|intros [= ->]; by apply Hm].
  destruct (env_commit env n'); simpl; [done|by intros [= <-]..].
Qed.
End throws.

Ltac throws_step :=
  first
    [ match goal with |- ∀ _, _ => intro end
    | apply throws_ret | apply throws_now | apply throws_nowNanos | apply throws_newID | apply throws_ctxErr
    | apply throws_throw | apply throws_guard | apply throws_bind | apply throws_handle
    | apply throws_query | apply throws_exec | apply throws_stmt | apply throws_transaction
    | match goal with
      | |- Throws _ (match ?x with _ => _ end) => destruct x
      | |- Throws _ (let _ := _ in _) => cbv zeta
      | H : match ?x with _ => _ end = Err _ |- _ => destruct x
      | H : Ok _ = Err _ |- _ => discriminate H
      | H : Err _ = Err _ |- _ => injection H as <-
      end ].
Ltac throws := repeat throws_step.

(** ** Exact runs

    Equations that evaluate a program in a faultless world. *)
Section runs.
Context {S : Type} (env : Env) (Hok : faultless env).

Lemma run_stmt {A} (f : Z → S → Res (A * S)) n s :
  stmt f env n s =
  match f (env_clock env n) s with
  | Ok (a, s') => mkOut (Ok a) s' (n + 1)%nat
  | Err e => mkOut (Err e) s (n + 1)%nat
  end.
Proof. destruct Hok as (Hf & _ & Hd). unfold stmt. by rewrite Hf, Hd. Qed.

Lemma run_query {A} (f : Z → S → Res A) n s :
  query f env n s = mkOut (f (env_clock env n) s) s (n + 1)%nat.
Proof. unfold query. rewrite run_stmt. by destruct (f _ s). Qed.

Lemma run_exec {A} (f : Z → S → A * S) n s :
  exec f env n s =
  mkOut (Ok (fst (f (env_clock env n) s))) (snd (f (env_clock env n) s)) (n + 1)%nat.
Proof. unfold exec. rewrite run_stmt. by destruct (f _ s). Qed.

Lemma run_transaction {A} (m : M S A) n s :
  transaction m env n s =
  match m env n s with
  | mkOut (Ok a) s' n' => mkOut (Ok a) s' (n' + 1)%nat
  | mkOut (Err e) _ n' => mkOut (Err e) s n'
  end.
Proof.
  destruct Hok as (_ & Hc & _). unfold transaction.
  destruct (m env n s) as [[a|e] s' n']; [by rewrite Hc|done].
Qed.
End runs.

(** ** What success of a program tells

    [bind_ok]: a run of [bind] ends with [Ok] exactly when both parts do. *)
Lemma bind_ok {S A B} (m : M S A) (k : A → M S B) env n s b :
  out_res (bind m k env n s) = Ok b →
  ∃ a, out_res (m env n s) = Ok a ∧
       bind m k env n s = k a env (out_tick (m env n s)) (out_db (m env n s)).
Proof.
  unfold bind. destruct (m env n s) as [[a|e] s' n']; simpl; [eauto|done].
Qed.

Lemma guard_ok {S} b e env n (s : S) x :
  out_res (guard b e env n s) = Ok x → b = true.
Proof. by destruct b. Qed.

(** All-or-nothing: a transaction that reports an error other than a lost
    commit acknowledgement has left the database as it was; in every case the
    database is the old one or the one its body produced. *)
Lemma transaction_atomic {S A} (m : M S A) env n s :
  let o := transaction m env n s in
  (out_db o = s ∨
   out_db o = out_db (m env n s) ∧ is_ok (out_res (m env n s)) = true) ∧
  (∀ e, out_res o = Err e → e ≠ ErrDatabase → out_db o = s).
Proof.
  simpl. unfold transaction. destruct (m env n s) as [[a|e] s' n']; simpl.
  - destruct (env_commit env n'); simpl; split; naive_solver.
  - split; [by left|done].
Qed.

(** ** Inversion of successful runs

    A run that ends with [Ok] went through every statement of the program;
    [run_inv] recovers the intermediate states. *)
Section inversion.
Context {S : Type}.
Implicit Types (env : Env) (n : nat) (s : S).

Lemma ret_inv {A} (a b : A) env n s s' n' :
  ret a env n s = mkOut (Ok b) s' n' → a = b ∧ s' = s.
Proof. by intros [=]; subst. Qed.
Lemma throw_inv {A} e env n s (a : A) s' n' : throw e env n s = mkOut (Ok a) s' n' → False.
Proof. done. Qed.
Lemma fromRes_inv {A} (r : Res A) env n s (a : A) s' n' :
  fromRes r env n s = mkOut (Ok a) s' n' → r = Ok a ∧ s' = s.
Proof. destruct r; [by intros [=]; subst|done]. Qed.
Lemma guard_inv b e env n s x s' n' :
  guard b e env n s = mkOut (Ok x) s' n' → b = true ∧ s' = s.
Proof. destruct b; [by intros [=]|done]. Qed.
Lemma newID_inv env n s a s' n' : newID env n s = mkOut (Ok a) s' n' → a = env_fresh env n ∧ s' = s.
Proof. by intros [=]; subst. Qed.
Lemma nowNanos_inv env n s a s' n' :
  nowNanos env n s = mkOut (Ok a) s' n' → a = env_now env n * 1000 + env_nanos env n ∧ s' = s.
Proof. unfold nowNanos. intros [= <- <- _]. done. Qed.
Lemma now_inv env n s a s' n' : now env n s = mkOut (Ok a) s' n' → a = env_now env n ∧ s' = s.
Proof. by intros [=]; subst. Qed.
Lemma ctxErr_inv env n s a s' n' :
  ctxErr env n s = mkOut (Ok a) s' n' → a = env_done env n ∧ s' = s.
Proof. by intros [=]; subst. Qed.
Lemma skipLocked_inv env n s a s' n' :
  skipLocked env n s = mkOut (Ok a) s' n' → a = env_locked env n ∧ s' = s.
Proof. by intros [=]; subst. Qed.
Lemma intervalOf_inv d env n s a s' n' :
  intervalOf d env n s = mkOut (Ok a) s' n' → a = env_interval env d ∧ s' = s.
Proof. by intros [=]; subst. Qed.

Lemma bind_inv {A B} (m : M S A) (k : A → M S B) env n s b s' n' :
  bind m k env n s = mkOut (Ok b) s' n' →
  ∃ a s1 n1, m env n s = mkOut (Ok a) s1 n1 ∧ k a env n1 s1 = mkOut (Ok b) s' n'.
Proof. unfold bind. destruct (m env n s) as [[a|e] s1 n1]; [eauto|done]. Qed.

Lemma handle_inv {A B} (m : M S A) (k : Res A → M S B) env n s b s' n' :
  handle m k env n s = mkOut (Ok b) s' n' →
  ∃ r s1 n1, m env n s = mkOut r s1 n1 ∧ k r env n1 s1 = mkOut (Ok b) s' n'.
Proof. unfold handle. destruct (m env n s) as [r s1 n1]; eauto. Qed.

Lemma stmt_inv {A} (f : Z → S → Res (A * S)) env n s a s' n' :
  stmt f env n s = mkOut (Ok a) s' n' → f (env_clock env n) s = Ok (a, s').
Proof.
  unfold stmt. case_if; [done|]. destruct (f _ s) as [[a' s1]|e]; [by intros [=]; subst|done].
Qed.
Lemma query_inv {A} (f : Z → S → Res A) env n s a s' n' :
  query f env n s = mkOut (Ok a) s' n' → f (env_clock env n) s = Ok a ∧ s' = s.
Proof.
  intros H%stmt_inv. destruct (f _ s); [|done]. by injection H as -> ->.
Qed.
Lemma exec_inv {A} (f : Z → S → A * S) env n s a s' n' :
  exec f env n s = mkOut (Ok a) s' n' → f (env_clock env n) s = (a, s').
Proof. intros H%stmt_inv. by injection H. Qed.

Lemma transaction_inv {A} (m : M S A) env n s a s' n' :
  transaction m env n s = mkOut (Ok a) s' n' → ∃ n1, m env n s = mkOut (Ok a) s' n1.
Proof.
  unfold transaction. destruct (m env n s) as [[b|e] s1 n1]; [|done].
  destruct (env_commit env n1); intros [=]; subst; eauto.
Qed.
End inversion.

Ltac run_inv_step :=
  match goal with
  | H : bind _ _ _ _ _ = mkOut (Ok _) _ _ |- _ => apply bind_inv in H as (? & ? & ? & ? & H)
  | H : handle _ _ _ _ _ = mkOut (Ok _) _ _ |- _ => apply handle_inv in H as (? & ? & ? & ? & H)
  | H : ret _ _ _ _ = mkOut (Ok _) _ _ |- _ => apply ret_inv in H as [? ?]; subst
  | H : throw _ _ _ _ = mkOut (Ok _) _ _ |- _ => destruct (throw_inv _ _ _ _ _ _ _ H)
  | H : fromRes _ _ _ _ = mkOut (Ok _) _ _ |- _ => apply fromRes_inv in H as [? ?]; subst
  | H : guard _ _ _ _ _ = mkOut (Ok _) _ _ |- _ => apply guard_inv in H as [H ?]; subst
  | H : newID _ _ _ = mkOut (Ok _) _ _ |- _ => apply newID_inv in H as [? ?]; subst
  | H : nowNanos _ _ _ = mkOut (Ok _) _ _ |- _ => apply nowNanos_inv in H as [? ?]; subst
  | H : now _ _ _ = mkOut (Ok _) _ _ |- _ => apply now_inv in H as [? ?]; subst
  | H : ctxErr _ _ _ = mkOut (Ok _) _ _ |- _ => apply ctxErr_inv in H as [? ?]; subst
  | H : skipLocked _ _ _ = mkOut (Ok _) _ _ |- _ => apply skipLocked_inv in H as [? ?]; subst
  | H : intervalOf _ _ _ _ = mkOut (Ok _) _ _ |- _ => apply intervalOf_inv in H as [? ?]; subst
  | H : query _ _ _ _ = mkOut (Ok _) _ _ |- _ => apply query_inv in H as [H ?]; subst
  | H : exec _ _ _ _ = mkOut (Ok _) _ _ |- _ => apply exec_inv in H
  | H : stmt _ _ _ _ = mkOut (Ok _) _ _ |- _ => apply stmt_inv in H
  | H : transaction _ _ _ _ = mkOut (Ok _) _ _ |- _ => apply transaction_inv in H as [? H]
  | H : (match ?x with _ => _ end) _ _ _ = mkOut (Ok _) _ _ |- _ => destruct x eqn:?
  | H : (match ?x with _ => _ end) = Ok _ |- _ => destruct x eqn:?
  end.
Ltac run_inv := repeat (run_inv_step; simplify_eq/=).

(** A concrete world for examples: nothing fails, the clock advances one
    millisecond per step, identifiers are numbered. *)
Definition calm : Env := {|
  env_clock := λ n, Z.of_nat n * 1000; env_now := λ n, Z.of_nat n * 1000; env_nanos := λ _, 0;
  env_fault := λ _, false; env_commit := λ _, Committed; env_done := λ _, false;
  env_fresh := λ n, "id-" +:+ pretty n; env_locked := λ _ _, false;
  env_interval := λ d, d / 1000 |}.

(** A run without a result value is known by its state once it succeeds. *)
Lemma ok_eta {S} (o : Out S unit) :
  is_ok (out_res o) = true → o = mkOut (Ok tt) (out_db o) (out_tick o).
Proof. destruct o as [[[]|] db n]; done. Qed.

Lemma res_eta {S A} (o : Out S A) a :
  out_res o = Ok a → o = mkOut (Ok a) (out_db o) (out_tick o).
Proof. destruct o; simpl. by intros ->. Qed.

Lemma calm_faultless : faultless calm.
Proof. by split_and!. Qed.
#[export] Hint Resolve calm_faultless : aspm.
