(* ===== verification/ReportAdapter.v ===== *)
(** * pkg/reportadapter: the compiled-in report adapter contract

    [reportadapter.go] (types, descriptor and finding validation, the bounded
    [Parse]) and [registry.go] (the immutable registry).  An [Adapter] is the
    Go interface: a record of its methods.  A nil interface value or typed nil
    pointer is [None]; a nil slice of findings is [None]. *)
From S2P Require Import Prelude GoLib Tx.
Local Open Scope Z_scope.

Definition MaxFindings : Z := 5000.
Definition MaxReportBytes : Z := Z.shiftl 32 20.

Record Location := { URI : string; Line : Z }.

Record Finding := {
  Identity : string; SourceFindingID : string; Title : string; Description : string;
  SourceSeverity : string; Severity : string; Impact : string; Remediation : string;
  EvidenceText : string; SourceLabel : string;
  FLocation : Location;
  Unmapped : list (string * JSON) }.

Record Mapping := {
  MSourceFindingID : string; MTitle : string; MSourceSeverity : string;
  MSourceLocation : string; MSourceLine : string; MImpact : string;
  MRemediation : string; MDescription : string }.

Definition Fields (m : Mapping) : list string :=
  [MSourceFindingID m; MTitle m; MSourceSeverity m; MSourceLocation m;
   MSourceLine m; MImpact m; MRemediation m; MDescription m].

Record Descriptor := {
  ID : string; Name : string; Kind : string; ImplementationStatus : string;
  SupportMaturity : string; CountsAsNativeFamily : bool; ReadyToImport : bool;
  SupportedVersions : list string; FieldCoverage : list string;
  LifecycleCapabilities : list string; MappingMode : string; TestFixture : string }.

#[export] Instance Descriptor_eq_dec : EqDecision Descriptor.
Proof. solve_decision. Defined.

(** The interface.  [adapter_Parse] answers with an error or a slice. *)
Record Adapter := {
  adapter_Descriptor : Descriptor;
  adapter_ValidateMapping : Mapping → option error;
  adapter_Parse : list N → Mapping → Res (option (list Finding)) }.

(** ** Validation *)

Definition lowerOrDigitOrDash (b : N) : bool :=
  ((b =? 45) || (97 <=? b) && (b <=? 122) || (48 <=? b) && (b <=? 57))%N.

Definition validID (value : string) : bool :=
  let l := bytes value in
  if (len value =? 0) || (64 <? len value) ||
     negb (match head l with Some b => ((97 <=? b) && (b <=? 122))%N | None => false end) ||
     match last l with Some b => (b =? 45)%N | None => false end
  then false
  else if negb (forallb lowerOrDigitOrDash l) then false
  else negb (Contains value "--").

Definition validReference (value : string) : bool :=
  if (len value =? 0) || (512 <? len value) || Contains value "\" ||
     HasPrefix value "/" || Contains value ":"
  then false
  else forallb (λ part, (part !=? "") && (part !=? ".") && (part !=? "..")) (Split value slash).

(** The loop of [validSet] with the strings seen so far. *)
Fixpoint validSetFrom (seen : list string) (values : list string) : bool :=
  match values with
  | [] => true
  | value :: rest =>
      if (TrimSpace value !=? value) || (value ==? "") || (256 <? len value) ||
         bool_decide (value ∈ seen)
      then false
      else validSetFrom (value :: seen) rest
  end.

Definition validSet (values : list string) : bool :=
  if (Z.of_nat (length values) =? 0) || (64 <? Z.of_nat (length values)) then false
  else validSetFrom [] values.

Definition ValidateDescriptor (d : Descriptor) : option error :=
  if negb (validID (ID d)) || (TrimSpace (Name d) !=? Name d) ||
     (Name d ==? "") || (256 <? len (Name d)) ||
     ((Kind d !=? "report-importer") && (Kind d !=? "manual-intake")) ||
     (ImplementationStatus d !=? "implemented") ||
     ((SupportMaturity d !=? "experimental") && (SupportMaturity d !=? "supported")) ||
     CountsAsNativeFamily d || negb (ReadyToImport d) ||
     ((MappingMode d !=? "none") && (MappingMode d !=? "declarative-fields")) ||
     negb (validReference (TestFixture d))
  then Some AdapterErrInvalid
  else if forallb validSet [SupportedVersions d; FieldCoverage d; LifecycleCapabilities d]
       then None else Some AdapterErrInvalid.

Definition severities : list string := ["critical"; "high"; "medium"; "low"; "info"].

Definition ValidateFinding (f : Finding) : bool :=
  (TrimSpace (Identity f) !=? "") && (len (Identity f) <=? 4096) &&
  (TrimSpace (SourceFindingID f) !=? "") && (len (SourceFindingID f) <=? 4096) &&
  (TrimSpace (Title f) !=? "") && (len (Title f) <=? 4096) &&
  bool_decide (Severity f ∈ severities) &&
  (len (SourceSeverity f) <=? 4096) && (len (URI (FLocation f)) <=? 8192) &&
  (0 <=? Line (FLocation f)) && (len (Description f) <=? Z.shiftl 1 20) &&
  (len (Remediation f) <=? Z.shiftl 1 20) && (len (Impact f) <=? Z.shiftl 1 20) &&
  (len (EvidenceText f) <=? Z.shiftl 1 20) && (len (SourceLabel f) <=? 4096).

(** [errors.Is(err, ErrUnsupported)] keeps the class, anything else is invalid. *)
Definition adapterError (e : error) : error :=
  if decide (e = AdapterErrUnsupported) then AdapterErrUnsupported else AdapterErrInvalid.

(** [Parse(adapter, data, mapping)]. *)
Definition Parse (adapter : option Adapter) (data : list N) (mapping : Mapping)
    : Res (list Finding) :=
  match adapter with
  | None => Err AdapterErrInvalid
  | Some a =>
      match ValidateDescriptor (adapter_Descriptor a) with
      | Some _ => Err AdapterErrInvalid
      | None =>
          match adapter_ValidateMapping a mapping with
          | Some e => Err (adapterError e)
          | None =>
              if (Z.of_nat (length data) =? 0) || (MaxReportBytes <? Z.of_nat (length data)) ||
                 negb (utf8Valid data)
              then Err AdapterErrInvalid
              else match adapter_Parse a data mapping with
                   | Err e => Err (adapterError e)
                   | Ok findings =>
                       let fs := default [] findings in
                       if MaxFindings <? Z.of_nat (length fs) then Err AdapterErrInvalid
                       else if forallb ValidateFinding fs then Ok fs
                       else Err AdapterErrInvalid
                   end
          end
      end
  end.

(** ** Registry *)

Record registryEntry := { entry_adapter : Adapter; entry_descriptor : Descriptor }.
Record Registry := { entries : list registryEntry; byID : gmap string registryEntry }.

Definition entryLe (a b : registryEntry) : Prop :=
  strLe (ID (entry_descriptor a)) (ID (entry_descriptor b)) = true.
#[export] Instance entryLe_dec a b : Decision (entryLe a b).
Proof. unfold entryLe. apply _. Defined.

(** The loop of [NewRegistry] over the adapters. *)
Fixpoint registerAll (es : list registryEntry) (ids : gmap string registryEntry)
    (adapters : list (option Adapter)) : Res (list registryEntry * gmap string registryEntry) :=
  match adapters with
  | [] => Ok (es, ids)
  | None :: _ => Err AdapterErrInvalid
  | Some a :: rest =>
      let d := adapter_Descriptor a in
      match ValidateDescriptor d with
      | Some _ => Err AdapterErrInvalid
      | None =>
          match ids !! ID d with
          | Some _ => Err AdapterErrInvalid
          | None =>
              let entry := {| entry_adapter := a; entry_descriptor := d |} in
              registerAll (es ++ [entry]) (<[ID d := entry]> ids) rest
          end
      end
  end.

Definition NewRegistry (adapters : list (option Adapter)) : Res Registry :=
  match registerAll [] ∅ adapters with
  | Err e => Err e
  | Ok (es, ids) => Ok {| entries := merge_sort entryLe es; byID := ids |}
  end.

(** Methods on a possibly nil [*Registry]. *)
Definition Supports (r : option Registry) (id : string) : bool :=
  match r with
  | None => false
  | Some r => match byID r !! id with Some _ => true | None => false end
  end.

Definition Descriptors (r : option Registry) : list Descriptor :=
  match r with None => [] | Some r => entry_descriptor <$> entries r end.

Definition RegistryValidateMapping (r : option Registry) (id : string) (m : Mapping)
    : option error :=
  match r with
  | None => Some AdapterErrUnsupported
  | Some r =>
      match byID r !! id with
      | None => Some AdapterErrUnsupported
      | Some entry => adapterError <$> adapter_ValidateMapping (entry_adapter entry) m
      end
  end.

Definition RegistryParse (r : option Registry) (id : string) (data : list N) (m : Mapping)
    : Res (list Finding) :=
  match r with
  | None => Err AdapterErrUnsupported
  | Some r =>
      match byID r !! id with
      | None => Err AdapterErrUnsupported
      | Some entry => Parse (Some (entry_adapter entry)) data m
      end
  end.

(** ** Lemmas *)

#[export] Instance entryLe_total : Total entryLe.
Proof.
  intros a b. unfold entryLe.
  destruct (strLe (ID (entry_descriptor a)) (ID (entry_descriptor b))) eqn:E; [by left|].
  right. by apply strLe_total.
Qed.
#[export] Instance entryLe_trans : Transitive entryLe.
Proof. intros a b c. apply strLe_trans. Qed.

(** [entryOf] is the entry [NewRegistry] builds from an adapter. *)
Definition entryOf (a : Adapter) : registryEntry :=
  {| entry_adapter := a; entry_descriptor := adapter_Descriptor a |}.
Definition adapterID (a : Adapter) : string := ID (adapter_Descriptor a).

(** What [NewRegistry] accepts: no nil, valid descriptors, distinct ids. *)
Definition admissible (adapters : list (option Adapter)) (l : list Adapter) : Prop :=
  adapters = Some <$> l ∧
  Forall (λ a, ValidateDescriptor (adapter_Descriptor a) = None) l ∧
  NoDup (adapterID <$> l).

Definition indexed (es : list registryEntry) (ids : gmap string registryEntry) : Prop :=
  ∀ id e, ids !! id = Some e ↔ e ∈ es ∧ ID (entry_descriptor e) = id.

Lemma registerAll_spec es ids adapters es' ids' :
  indexed es ids → NoDup (ID ∘ entry_descriptor <$> es) →
  registerAll es ids adapters = Ok (es', ids') ↔
  ∃ l, adapters = Some <$> l ∧
       Forall (λ a, ValidateDescriptor (adapter_Descriptor a) = None) l ∧
       NoDup (ID ∘ entry_descriptor <$> es') ∧
       es' = es ++ (entryOf <$> l) ∧ indexed es' ids'.
Proof.
  revert es ids. induction adapters as [|[a|] rest IH]; intros es ids Hix Hnd; simpl.
  - split.
    + intros [= <- <-]. exists []. by rewrite app_nil_r.
    + intros ([|] & ? & _ & _ & -> & Hix'); simplify_eq. rewrite app_nil_r in *.
      do 2 f_equal. apply map_eq. intros i. apply option_eq. intros e.
      by rewrite (Hix i e), (Hix' i e).
  - destruct (ValidateDescriptor (adapter_Descriptor a)) eqn:Ev.
    { split; [done|]. intros ([|b l] & ? & HF & _); simplify_eq/=.
      inversion HF; congruence. }
    destruct (ids !! ID (adapter_Descriptor a)) as [e|] eqn:El.
    { split; [done|]. intros ([|b l] & ? & _ & Hnd' & -> & _); simplify_eq/=.
      rewrite fmap_app, fmap_cons in Hnd'. apply NoDup_app in Hnd' as (_ & Hd & _).
      apply Hix in El as [He Hid]. destruct (Hd (ID (adapter_Descriptor b))); [|set_solver].
      rewrite <- Hid. by apply (list_elem_of_fmap_2 (ID ∘ entry_descriptor)). }
    change {| entry_adapter := a; entry_descriptor := adapter_Descriptor a |} with (entryOf a).
    rewrite IH.
    + split.
      * intros (l & -> & ? & ? & -> & ?). exists (a :: l). rewrite <- app_assoc in *. auto.
      * intros ([|b l] & ? & HF & ? & -> & ?); simplify_eq/=. inversion HF; subst.
        exists l. by rewrite <- app_assoc.
    + intros id e. rewrite lookup_insert. case_decide as Eid.
      * subst id. split; [intros [= <-]; split; [set_solver|done]|].
        intros [[He| ->%list_elem_of_singleton]%elem_of_app Hid]; [|done].
        exfalso. assert (ids !! ID (adapter_Descriptor a) = Some e) by (by apply Hix).
        congruence.
      * rewrite (Hix id e), elem_of_app, list_elem_of_singleton. split; [naive_solver|].
        intros [[?| ->] ?]; [done|]. by destruct Eid.
    + rewrite fmap_app. apply NoDup_app. split; [done|]. split; [|apply NoDup_singleton].
      intros id (e & -> & He)%list_elem_of_fmap_1 Hin%list_elem_of_singleton.
      assert (ids !! ID (adapter_Descriptor a) = Some e) by (apply Hix; split; [done|exact Hin]).
      congruence.
  - split; [done|]. intros ([|b l] & ? & _); simplify_eq.
Qed.

Lemma fmap_entryOf_ids (l : list Adapter) : (ID ∘ entry_descriptor) <$> (entryOf <$> l) = adapterID <$> l.
Proof. by rewrite <- list_fmap_compose. Qed.

Lemma NewRegistry_inv adapters r :
  NewRegistry adapters = Ok r ↔
  ∃ l, admissible adapters l ∧ entries r = merge_sort entryLe (entryOf <$> l) ∧
       indexed (entryOf <$> l) (byID r).
Proof.
  unfold NewRegistry, admissible.
  assert (indexed [] ∅) as H0 by (intros id e; rewrite lookup_empty; set_solver).
  split.
  - destruct (registerAll [] ∅ adapters) as [[es ids]|e] eqn:E; [|done].
    intros [= <-]. apply (registerAll_spec [] ∅) in E as (l & -> & ? & Hnd & -> & ?);
      [|done|apply NoDup_nil_2]. exists l. simpl.
    rewrite app_nil_l, fmap_entryOf_ids in Hnd. auto.
  - intros (l & (-> & HF & Hnd) & He & Hix).
    assert (registerAll [] ∅ (Some <$> l) = Ok (entryOf <$> l, byID r)) as ->.
    { apply (registerAll_spec [] ∅); [done|apply NoDup_nil_2|]. exists l. rewrite fmap_entryOf_ids. auto. }
    rewrite <- He. by destruct r.
Qed.

Lemma sorted_entries_perm (l1 l2 : list Adapter) :
  NoDup (adapterID <$> l1) → l1 ≡ₚ l2 →
  merge_sort entryLe (entryOf <$> l1) = merge_sort entryLe (entryOf <$> l2).
Proof.
  intros Hnd Hp. apply (Sorted_unique_strong entryLe).
  - intros e1 e2. rewrite !merge_sort_Permutation.
    intros (a1 & -> & H1)%list_elem_of_fmap_1 (a2 & -> & H2)%list_elem_of_fmap_1 Hle1 Hle2.
    pose proof (strLe_antisym _ _ Hle1 Hle2) as E. simpl in E.
    rewrite <- Hp in H2. f_equal.
    apply list_elem_of_lookup in H1 as [i Hi]. apply list_elem_of_lookup in H2 as [j Hj].
    assert (i = j) as ->; [|congruence].
    eapply (NoDup_lookup _ _ _ (adapterID a1) Hnd); rewrite list_lookup_fmap;
      [by rewrite Hi | by rewrite Hj; unfold adapterID; simpl; rewrite E].
  - apply (Sorted_merge_sort entryLe).
  - apply (Sorted_merge_sort entryLe).
  - by rewrite !merge_sort_Permutation, Hp.
Qed.

(** ** Properties *)

(** [Parse] accepts exactly the reports that respect every bound of the
    contract: a non-nil adapter with a valid descriptor that admits the
    mapping, between 1 byte and 32 MiB of valid UTF-8, at most 5000 findings,
    each passing [ValidateFinding]; and it returns what the adapter parsed,
    with a nil slice turned into the empty one. *)
Theorem Parse_accepts adapter data mapping fs :
  Parse adapter data mapping = Ok fs ↔
  ∃ a parsed, adapter = Some a ∧ ValidateDescriptor (adapter_Descriptor a) = None ∧
    adapter_ValidateMapping a mapping = None ∧
    0 < Z.of_nat (length data) ≤ MaxReportBytes ∧ utf8Valid data = true ∧
    adapter_Parse a data mapping = Ok parsed ∧ fs = default [] parsed ∧
    Z.of_nat (length fs) ≤ MaxFindings ∧ Forall (λ f, ValidateFinding f = true) fs.
Proof.
  split.
  - unfold Parse. destruct adapter as [a|]; [|done].
    destruct (ValidateDescriptor _) eqn:Ed; [done|].
    destruct (adapter_ValidateMapping a mapping) eqn:Em; [done|].
    case_if; [done|]. destruct (adapter_Parse a data mapping) as [parsed|] eqn:Ep; [|done].
    simpl. case_if; [done|]. case_if; [|done]. intros [= <-].
    destruct E as [[Hl0 Hl1] Hu]. exists a, parsed. rewrite <- forallb_Forall.
    repeat split; try done || lia.
  - intros (a & parsed & -> & Ed & Em & Hlen & Hu & Ep & -> & Hn & HF).
    unfold Parse. rewrite Ed, Em, Hu, Ep. rewrite <- forallb_Forall in HF. simpl.
    rewrite HF. repeat case_if; try done; naive_solver lia.
Qed.

(** Every failure of [Parse] is one of the two public errors, and
    [ErrUnsupported] is reported only when the adapter itself said so, for the
    mapping or for the data. *)
Theorem Parse_error_classes adapter data mapping e :
  Parse adapter data mapping = Err e →
  e = AdapterErrInvalid ∨
  e = AdapterErrUnsupported ∧ ∃ a, adapter = Some a ∧
    (adapter_ValidateMapping a mapping = Some AdapterErrUnsupported ∨
     adapter_Parse a data mapping = Err AdapterErrUnsupported).
Proof.
  unfold Parse, adapterError. destruct adapter as [a|]; [|naive_solver].
  destruct (ValidateDescriptor _); [naive_solver|].
  destruct (adapter_ValidateMapping a mapping) as [e'|] eqn:Em.
  { case_decide; naive_solver. }
  case_if; [naive_solver|]. destruct (adapter_Parse a data mapping) as [?|e'] eqn:Ep.
  - simpl. repeat case_if; naive_solver.
  - case_decide; naive_solver.
Qed.

(** [NewRegistry] succeeds exactly on adapters that are non-nil, have
    valid descriptors and pairwise distinct ids. *)
Theorem NewRegistry_succeeds adapters :
  is_ok (NewRegistry adapters) = true ↔ ∃ l, admissible adapters l.
Proof.
  split.
  - destruct (NewRegistry adapters) as [r|] eqn:E; [|done]. intros _.
    apply NewRegistry_inv in E as (l & H & _). eauto.
  - intros [l Hl].
    set (m := list_to_map ((λ a, (adapterID a, entryOf a)) <$> l) : gmap string registryEntry).
    assert (NewRegistry adapters =
      Ok {| entries := merge_sort entryLe (entryOf <$> l); byID := m |}) as ->; [|done].
    apply NewRegistry_inv. exists l. split; [done|]. split; [done|].
    destruct Hl as (-> & HF & Hnd). intros id e. unfold m. simpl.
    rewrite <- elem_of_list_to_map.
    + rewrite !list_elem_of_fmap. naive_solver.
    + by rewrite <- list_fmap_compose.
Qed.

(** The registry is the deterministic index its comment promises: it
    lists every registered adapter exactly once in increasing id order, its
    map finds an entry exactly under the id of its descriptor, and permuting
    the compiled-in adapters changes nothing. *)
Theorem NewRegistry_index adapters r :
  NewRegistry adapters = Ok r →
  ∃ l, admissible adapters l ∧ entries r ≡ₚ entryOf <$> l ∧
       StronglySorted entryLe (entries r) ∧ indexed (entries r) (byID r) ∧
       ∀ adapters', adapters ≡ₚ adapters' → NewRegistry adapters' = Ok r.
Proof.
  intros (l & (-> & HF & Hnd) & He & Hix)%NewRegistry_inv. exists l. rewrite He.
  split; [done|]. split; [apply merge_sort_Permutation|].
  split; [apply (StronglySorted_merge_sort entryLe)|]. split.
  { intros id e. by rewrite merge_sort_Permutation. }
  intros adapters' Hp. symmetry in Hp. apply Permutation_map_inv in Hp as (l' & -> & Hp).
  apply NewRegistry_inv. exists l'. split; [|split].
  - split; [done|]. by rewrite <- Hp.
  - by rewrite <- (sorted_entries_perm l l').
  - intros id e. rewrite (Hix id e). by rewrite Hp.
Qed.

(** Every entry of a registry was validated, so [Parse] through the registry
    never fails for its descriptor. *)
Lemma registry_entry_valid adapters r id e :
  NewRegistry adapters = Ok r → byID r !! id = Some e →
  ValidateDescriptor (adapter_Descriptor (entry_adapter e)) = None ∧
  entry_descriptor e = adapter_Descriptor (entry_adapter e) ∧
  Some (entry_adapter e) ∈ adapters.
Proof.
  intros (l & (-> & HF & Hnd) & He & Hix)%NewRegistry_inv Hl.
  apply Hix in Hl as [(a & -> & Ha)%list_elem_of_fmap_1 Hid]. simpl.
  rewrite Forall_forall in HF. split; [by apply HF|]. split; [done|].
  by apply list_elem_of_fmap_2.
Qed.

(** Parsing through a registry reaches the adapter registered under the
    id and no other: an unregistered id is [ErrUnsupported], a registered one
    gives that adapter's bounded result, and its descriptor is never the
    reason of a failure. *)
Theorem RegistryParse_dispatch adapters r id data m :
  NewRegistry adapters = Ok r →
  (Supports (Some r) id = false →
     RegistryParse (Some r) id data m = Err AdapterErrUnsupported ∧
     RegistryValidateMapping (Some r) id m = Some AdapterErrUnsupported) ∧
  (∀ a, Some a ∈ adapters → adapterID a = id →
     Supports (Some r) id = true ∧
     RegistryParse (Some r) id data m = Parse (Some a) data m ∧
     ValidateDescriptor (adapter_Descriptor a) = None).
Proof.
  intros Hr. split.
  - unfold Supports, RegistryParse, RegistryValidateMapping.
    by destruct (byID r !! id).
  - intros a Ha Hid. pose proof Hr as Hr'.
    apply NewRegistry_inv in Hr as (l & (-> & HF & Hnd) & He & Hix).
    apply list_elem_of_fmap_1 in Ha as (a' & [= <-] & Ha).
    assert (byID r !! id = Some (entryOf a)) as Hl.
    { apply Hix. split; [by apply list_elem_of_fmap_2|done]. }
    unfold Supports, RegistryParse. rewrite Hl. simpl.
    rewrite Forall_forall in HF. auto.
Qed.

(** ** Witnesses *)

Definition sampleDescriptor (id : string) : Descriptor := {|
  ID := id; Name := "Sample"; Kind := "report-importer"; ImplementationStatus := "implemented";
  SupportMaturity := "supported"; CountsAsNativeFamily := false; ReadyToImport := true;
  SupportedVersions := ["1"]; FieldCoverage := ["title"]; LifecycleCapabilities := ["full"];
  MappingMode := "none"; TestFixture := "testdata/sample.json" |}.

Definition sampleAdapter (id : string) : Adapter := {|
  adapter_Descriptor := sampleDescriptor id;
  adapter_ValidateMapping := λ _, None;
  adapter_Parse := λ data _, if (length data <=? 1)%nat then Ok None else Err AdapterErrUnsupported |}.

Definition noMapping : Mapping := Build_Mapping "" "" "" "" "" "" "" "".

Lemma Parse_error_classes_witness :
  Parse (Some (sampleAdapter "sarif")) [65; 66]%N noMapping = Err AdapterErrUnsupported ∧
  (AdapterErrUnsupported = AdapterErrInvalid ∨
   AdapterErrUnsupported = AdapterErrUnsupported ∧
   ∃ a, Some (sampleAdapter "sarif") = Some a ∧
    (adapter_ValidateMapping a noMapping = Some AdapterErrUnsupported ∨
     adapter_Parse a [65; 66]%N noMapping = Err AdapterErrUnsupported)).
Proof.
  assert (Parse (Some (sampleAdapter "sarif")) [65; 66]%N noMapping = Err AdapterErrUnsupported)
    as H by reflexivity.
  split; [exact H|]. apply Parse_error_classes. exact H.
Defined.

Definition sampleRegistry : Registry :=
  match NewRegistry [Some (sampleAdapter "zap"); Some (sampleAdapter "sarif")] with
  | Ok r => r | Err _ => {| entries := []; byID := ∅ |} end.

Lemma NewRegistry_index_witness :
  ID <$> Descriptors (Some sampleRegistry) = ["sarif"; "zap"] ∧
  ∃ l, admissible [Some (sampleAdapter "zap"); Some (sampleAdapter "sarif")] l ∧
       entries sampleRegistry ≡ₚ entryOf <$> l ∧
       StronglySorted entryLe (entries sampleRegistry) ∧
       indexed (entries sampleRegistry) (byID sampleRegistry) ∧
       ∀ adapters', [Some (sampleAdapter "zap"); Some (sampleAdapter "sarif")] ≡ₚ adapters' →
         NewRegistry adapters' = Ok sampleRegistry.
Proof. split; [reflexivity|]. apply NewRegistry_index. reflexivity. Defined.

Lemma RegistryParse_dispatch_witness :
  (Supports (Some sampleRegistry) "trivy" = false →
     RegistryParse (Some sampleRegistry) "trivy" [65]%N noMapping = Err AdapterErrUnsupported ∧
     RegistryValidateMapping (Some sampleRegistry) "trivy" noMapping = Some AdapterErrUnsupported) ∧
  (∀ a, Some a ∈ [Some (sampleAdapter "zap"); Some (sampleAdapter "sarif")] → adapterID a = "trivy" →
     Supports (Some sampleRegistry) "trivy" = true ∧
     RegistryParse (Some sampleRegistry) "trivy" [65]%N noMapping = Parse (Some a) [65]%N noMapping ∧
     ValidateDescriptor (adapter_Descriptor a) = None).
Proof.
  apply (RegistryParse_dispatch [Some (sampleAdapter "zap"); Some (sampleAdapter "sarif")]).
  reflexivity.
Defined.
