(* ===== verification/StoragePolicy.v ===== *)
(** * internal/storagepolicy: object-store identities for the service roles

    [Build] turns an operator's configuration into the SeaweedFS policy that
    gives each service role its own credential and its own key prefixes.  The
    JSON text is [json.Marshal] of the [seaweedPolicy] value modelled here.
    [grants] is the reading of a policy action that the code relies on: [Admin]
    allows everything, [Op:<pattern>*] allows [Op] below the pattern. *)
From S2P Require Import Prelude GoLib Tx.
From Stdlib Require Import Ascii.
Local Open Scope Z_scope.

Record Credential := { AccessKey : string; SecretKey : string }.

Record Config := {
  Bucket : string; RawPrefix : string; NormalizedPrefix : string;
  ApprovedPrefix : string; ArchivePrefix : string;
  Operator : Credential; Core : Credential; Ingestion : Credential;
  AI : Credential; Retention : Credential }.

Record identity := { id_Name : string; id_Credentials : list Credential; id_Actions : list string }.

(** ** Validation *)

Definition lowerDigit (b : N) : bool := ((97 <=? b) && (b <=? 122) || (48 <=? b) && (b <=? 57))%N.
Definition alnum (b : N) : bool := lowerDigit b || ((65 <=? b) && (b <=? 90))%N.
Definition dot : N := 46.

(** [^[a-z0-9][a-z0-9.-]{1,61}[a-z0-9]$] *)
Definition bucketPattern (s : string) : bool :=
  let l := bytes s in
  (3 <=? len s) && (len s <=? 63) &&
  forallb (λ b, lowerDigit b || (b =? dot)%N || (b =? dash)%N) l &&
  match head l with Some b => lowerDigit b | None => false end &&
  match last l with Some b => lowerDigit b | None => false end.

(** [^[A-Za-z0-9][A-Za-z0-9._-]*$] *)
Definition segmentPattern (s : string) : bool :=
  match bytes s with
  | [] => false
  | b :: l => alnum b && forallb (λ b, alnum b || (b =? dot)%N || (b =? 95)%N || (b =? dash)%N) l
  end.

(** One field of a dotted-decimal address: 1 to 3 digits, no leading zero,
    at most 255. *)
Definition ipv4Field (l : list N) : bool :=
  (1 <=? length l)%nat && (length l <=? 3)%nat &&
  forallb (λ b, (48 <=? b) && (b <=? 57))%N l &&
  negb ((1 <? length l)%nat && match head l with Some b => (b =? 48)%N | None => false end) &&
  (fold_left (λ acc b, acc * 10 + (b - 48)) l 0 <=? 255)%N.

(** [net.ParseIP(s) != nil] on the bucket alphabet, which has no colon, so
    only the IPv4 form can parse. *)
Definition parsesAsIP (s : string) : bool :=
  let fields := splitBytes dot (bytes s) in
  (length fields =? 4)%nat && forallb ipv4Field fields.

Definition validBucket (bucket : string) : bool :=
  bucketPattern bucket && negb (Contains bucket "..") && negb (Contains bucket ".-") &&
  negb (Contains bucket "-.") && negb (parsesAsIP bucket).

Definition validPrefix (prefix : string) : bool :=
  if (len prefix <? 2) || (1024 <? len prefix) || negb (HasSuffix prefix "/") then false
  else forallb segmentPattern (Split (of_bytes (removelast (bytes prefix))) slash).

(** [unicode.IsControl]: U+0000..U+001F and U+007F..U+009F; the latter block
    beyond U+007F is encoded C2 80..C2 9F in the valid UTF-8 checked before. *)
Fixpoint hasControl (l : list N) : bool :=
  match l with
  | [] => false
  | b0 :: l' =>
      ((b0 <=? 31) || (b0 =? 127))%N ||
      match l' with
      | b1 :: _ => ((b0 =? 194) && (128 <=? b1) && (b1 <=? 159))%N
      | [] => false
      end || hasControl l'
  end.

Definition validCredentialValue (value : string) : bool :=
  if (len value =? 0) || (4096 <? len value) || (TrimSpace value !=? value) ||
     negb (ValidString value)
  then false
  else negb (hasControl (bytes value)).

(** ** Build *)

(** The prefix loop: each prefix is valid and nested with no earlier one. *)
Fixpoint prefixesOk (previous rest : list string) : bool :=
  match rest with
  | [] => true
  | prefix :: rest' =>
      if negb (validPrefix prefix) then false
      else if existsb (λ p, HasPrefix p prefix || HasPrefix prefix p) previous then false
      else prefixesOk (previous ++ [prefix]) rest'
  end.

(** The credential loop with the values seen so far. *)
Fixpoint valuesOk (seen : gset string) (values : list string) : bool :=
  match values with
  | [] => true
  | value :: rest =>
      if negb (validCredentialValue value) then false
      else if decide (value ∈ seen) then false
      else valuesOk ({[value]} ∪ seen) rest
  end.

Definition prefixes (c : Config) : list string :=
  [RawPrefix c; NormalizedPrefix c; ApprovedPrefix c; ArchivePrefix c].
Definition credentials (c : Config) : list Credential :=
  [Operator c; Core c; Ingestion c; AI c; Retention c].
Definition credentialValues (c : Config) : list string :=
  flat_map (λ cr, [AccessKey cr; SecretKey cr]) (credentials c).

Definition role (name : string) (credential : Credential) (actions : list string) : identity :=
  {| id_Name := name; id_Credentials := [credential]; id_Actions := actions |}.

Definition Build (c : Config) : Res (list identity) :=
  if negb (validBucket (Bucket c)) then Err PolicyErrInvalid
  else if negb (prefixesOk [] (prefixes c)) then Err PolicyErrInvalid
  else if negb (valuesOk ∅ (credentialValues c)) then Err PolicyErrInvalid
  else
    let raw := Bucket c +:+ "/" +:+ RawPrefix c +:+ "*" in
    let normalized := Bucket c +:+ "/" +:+ NormalizedPrefix c +:+ "*" in
    let approved := Bucket c +:+ "/" +:+ ApprovedPrefix c +:+ "*" in
    let archive := Bucket c +:+ "/" +:+ ArchivePrefix c +:+ "*" in
    Ok [role "operator" (Operator c) ["Admin"];
        role "core" (Core c) ["Read:" +:+ raw; "Write:" +:+ raw; "Read:" +:+ approved;
                              "Write:" +:+ approved; "Read:" +:+ archive];
        role "ingestion" (Ingestion c) ["Read:" +:+ raw; "Write:" +:+ normalized];
        role "ai" (AI c) ["Read:" +:+ approved];
        role "retention" (Retention c) ["Read:" +:+ raw; "Write:" +:+ raw;
                                        "Read:" +:+ archive; "Write:" +:+ archive]].

(** ** Meaning of a policy *)

(** [action] allows [op] on the object [key] of [bucket]. *)
Definition allows (action op bucket key : string) : Prop :=
  action = "Admin" ∨
  ∃ pattern, action = op +:+ ":" +:+ pattern +:+ "*" ∧
             String.prefix pattern (bucket +:+ "/" +:+ key) = true.

Definition grants (policy : list identity) (name op bucket key : string) : Prop :=
  ∃ i a, i ∈ policy ∧ id_Name i = name ∧ a ∈ id_Actions i ∧ allows a op bucket key.

(** ** Lemmas *)

#[local] Arguments validCredentialValue : simpl never.
#[local] Arguments validPrefix : simpl never.
#[local] Arguments validBucket : simpl never.

Lemma string_app_cons x a b : String x a +:+ b = String x (a +:+ b).
Proof. done. Qed.

Lemma string_app_assoc (a b c : string) : (a +:+ b) +:+ c = a +:+ b +:+ c.
Proof.
  induction a as [|x a IH]; [done|].
  change (String x ((a +:+ b) +:+ c) = String x (a +:+ b +:+ c)). by rewrite IH.
Qed.

Lemma string_app_inj_last (a b c : string) :
  String.length c = 1%nat → a +:+ c = b +:+ c → a = b.
Proof.
  intros Hc. destruct c as [|x [|]]; simplify_eq/=. revert b.
  induction a as [|y a IH]; intros [|z b]; rewrite ?string_app_cons; intros H; simplify_eq; try done.
  - by destruct b.
  - by destruct a.
  - by rewrite (IH b).
Qed.

Lemma prefix_iff p s : String.prefix p s = true ↔ ∃ t, s = p +:+ t.
Proof.
  revert s. induction p as [|a p IH]; intros s; simpl.
  - split; [by eexists|]. by destruct s.
  - destruct s as [|b s]; simpl; [split; [done|by intros [? ?]]|].
    destruct (ascii_dec a b) as [->|Hne].
    + rewrite IH. split; intros [t Ht]; exists t; rewrite string_app_cons in *; congruence.
    + split; [done|]. intros [t Ht]. rewrite string_app_cons in Ht. congruence.
Qed.

Lemma prefix_app_cancel a p s :
  String.prefix (a +:+ p) (a +:+ s) = String.prefix p s.
Proof.
  induction a as [|x a IH]; [done|]. rewrite !string_app_cons. simpl.
  destruct (ascii_dec x x); [exact IH|done].
Qed.

(** Two prefixes of one string are nested. *)
Lemma prefix_comparable p q s :
  String.prefix p s = true → String.prefix q s = true →
  String.prefix p q = true ∨ String.prefix q p = true.
Proof.
  revert q s. induction p as [|a p IH]; intros q s; [by left; destruct q|].
  destruct s as [|c s]; simpl; [done|]. destruct (ascii_dec a c) as [->|]; [|done].
  destruct q as [|b q]; [by right|]. simpl. destruct (ascii_dec b c) as [->|]; [|done].
  destruct (ascii_dec c c); [|done]. apply IH.
Qed.

Lemma prefixesOk_iff_gen previous rest :
  prefixesOk previous rest = true ↔
  (∀ p, p ∈ rest → validPrefix p = true) ∧
  (∀ p q, p ∈ previous → q ∈ rest → String.prefix p q = false ∧ String.prefix q p = false) ∧
  (∀ i j p q, rest !! i = Some p → rest !! j = Some q → String.prefix p q = true → i = j).
Proof.
  revert previous. induction rest as [|pre rest IH]; intros previous; simpl.
  { split; [intros _|done]. split; [set_solver|]. split; [set_solver|].
    intros i j p q H. by rewrite lookup_nil in H. }
  destruct (validPrefix pre) eqn:Ev; simpl.
  2: { split; [done|]. intros [H _]. rewrite H in Ev; [done|set_solver]. }
  destruct (existsb _ previous) eqn:Ex.
  { split; [done|]. apply existsb_Exists in Ex as (p & Hp & [Ho|Ho]%orb_true_iff);
      intros (_ & H & _); destruct (H p pre) as [H1 H2]; unfold HasPrefix in *; set_solver. }
  apply not_true_iff_false in Ex. rewrite existsb_Exists in Ex.
  assert (∀ p, p ∈ previous → String.prefix p pre = false ∧ String.prefix pre p = false) as Hp.
  { intros p Hin. split; apply not_true_iff_false; intros Hpr; apply Ex; exists p;
      (split; [done|]); apply orb_true_iff; auto. }
  rewrite IH. split.
  - intros (H0 & H1 & H2). split; [set_solver|]. split.
    + intros p q Hin [->|Hq]%elem_of_cons; [auto|]. apply H1; [|done]. set_solver.
    + intros [|i] [|j] p q Hi Hj Hpq; simplify_eq/=; [done| | |f_equal; eauto].
      * destruct (H1 p q); [set_solver|by eapply list_elem_of_lookup_2|congruence].
      * destruct (H1 q p); [set_solver|by eapply list_elem_of_lookup_2|congruence].
  - intros (H0 & H1 & H2). split; [set_solver|]. split.
    + intros p q [Hpv| ->%list_elem_of_singleton]%elem_of_app Hq; [apply H1; set_solver|].
      apply list_elem_of_lookup in Hq as [i Hi].
      split; apply not_true_iff_false; intros Hpr.
      * by assert (0%nat = S i) by (by eapply H2).
      * by assert (S i = 0%nat) by (by eapply H2).
    + intros i j p q Hi Hj Hpq. assert (S i = S j) by (by eapply H2). lia.
Qed.

Lemma prefixesOk_iff rest :
  prefixesOk [] rest = true ↔
  (∀ p, p ∈ rest → validPrefix p = true) ∧
  (∀ i j p q, rest !! i = Some p → rest !! j = Some q → String.prefix p q = true → i = j).
Proof.
  rewrite prefixesOk_iff_gen. split; [by intros (? & _ & ?)|].
  intros [? ?]. split; [done|]. split; [|done]. intros p q Hin. by apply elem_of_nil in Hin.
Qed.

Lemma valuesOk_spec seen values :
  valuesOk seen values = true ↔
  NoDup values ∧ (∀ v, v ∈ values → (v ∉ seen) ∧ validCredentialValue v = true).
Proof.
  revert seen. induction values as [|v values IH]; intros seen; simpl.
  { split; [|done]. split; [constructor|set_solver]. }
  rewrite NoDup_cons. destruct (validCredentialValue v) eqn:E; simpl.
  2: { split; [done|]. intros [_ H]. destruct (H v); [set_solver|congruence]. }
  destruct (decide (v ∈ seen)) as [Hin|Hin].
  { split; [done|]. intros [_ H]. destruct (H v); set_solver. }
  rewrite IH. split.
  - intros [Hnd H]. split; [split; [|done]|].
    + intros Hv. destruct (H v Hv). set_solver.
    + intros w [->|Hw]%elem_of_cons; [done|]. destruct (H w Hw). set_solver.
  - intros [[Hv Hnd] H]. split; [done|]. intros w Hw. destruct (H w); set_solver.
Qed.

(** The access matrix the roles are meant to have. *)
Definition matrix (c : Config) : list (string * string * string) :=
  [("core", "Read", RawPrefix c); ("core", "Write", RawPrefix c);
   ("core", "Read", ApprovedPrefix c); ("core", "Write", ApprovedPrefix c);
   ("core", "Read", ArchivePrefix c);
   ("ingestion", "Read", RawPrefix c); ("ingestion", "Write", NormalizedPrefix c);
   ("ai", "Read", ApprovedPrefix c);
   ("retention", "Read", RawPrefix c); ("retention", "Write", RawPrefix c);
   ("retention", "Read", ArchivePrefix c); ("retention", "Write", ArchivePrefix c)].

Definition permitted (c : Config) (name op key : string) : Prop :=
  name = "operator" ∨ ∃ p, (name, op, p) ∈ matrix c ∧ String.prefix p key = true.

(** Reading one action of the policy. *)
Lemma allows_op (op : string) bucket pre key :
  op = "Read" ∨ op = "Write" →
  (allows ("Read:" +:+ (bucket +:+ "/" +:+ pre +:+ "*")) op bucket key ↔
     op = "Read" ∧ String.prefix pre key = true) ∧
  (allows ("Write:" +:+ (bucket +:+ "/" +:+ pre +:+ "*")) op bucket key ↔
     op = "Write" ∧ String.prefix pre key = true).
Proof.
  assert (∀ pattern, (bucket +:+ "/" +:+ pre) +:+ "*" = pattern +:+ "*" →
    String.prefix pattern (bucket +:+ "/" +:+ key) = String.prefix pre key) as Hpat.
  { intros pattern <-%string_app_inj_last; [|done].
    by rewrite prefix_app_cancel, prefix_app_cancel. }
  assert (bucket +:+ "/" +:+ pre +:+ "*" = (bucket +:+ "/" +:+ pre) +:+ "*") as ->.
  { by rewrite !string_app_assoc. }
  intros Hop. unfold allows. split; split.
  - intros [H|(pattern & H & Hp)]; [done|]. destruct Hop as [->| ->]; [|done].
    split; [done|]. injection H as H. by rewrite <- (Hpat pattern).
  - intros [-> H]. right. eexists. split; [reflexivity|]. by rewrite (Hpat _ eq_refl).
  - intros [H|(pattern & H & Hp)]; [done|]. destruct Hop as [->| ->]; [done|].
    split; [done|]. injection H as H. by rewrite <- (Hpat pattern).
  - intros [-> H]. right. eexists. split; [reflexivity|]. by rewrite (Hpat _ eq_refl).
Qed.

Definition roles : list string := ["operator"; "core"; "ingestion"; "ai"; "retention"].

(** Walk down [x ∈ [a; b; ...]]. *)
Ltac elem_cases H :=
  repeat (apply elem_of_cons in H as [H|H]); [..|by apply elem_of_nil in H].

(** Point at an identity of the policy and one of its actions. *)
Ltac grant_at i j :=
  eexists _, _; split; [apply (list_elem_of_lookup_2 _ i); reflexivity|];
  split; [reflexivity|]; split; [apply (list_elem_of_lookup_2 _ j); reflexivity|].

Lemma grants_iff c policy name op key :
  Build c = Ok policy → op = "Read" ∨ op = "Write" →
  grants policy name op (Bucket c) key ↔ permitted c name op key.
Proof.
  unfold Build. do 3 (case_if; [done|]). intros [= <-] Hop. pose proof (λ pre, allows_op op (Bucket c) pre key Hop) as Hal.
  unfold grants, permitted, matrix. split.
  - intros (i & a & Hi & <- & Ha & H). elem_cases Hi; subst i; simpl in *; [by left|..];
      right; elem_cases Ha; subst a; apply Hal in H as [-> H]; eexists; (split; [|exact H]);
      repeat first [apply list_elem_of_here | apply list_elem_of_further].
  - intros [->|(p & Hp & Hkey)].
    + eexists _, "Admin". split; [by left|]. simpl. split; [done|]. split; [by left|by left].
    + elem_cases Hp; injection Hp as -> -> ->;
        [grant_at 1%nat 0%nat|grant_at 1%nat 1%nat|grant_at 1%nat 2%nat|grant_at 1%nat 3%nat
        |grant_at 1%nat 4%nat|grant_at 2%nat 0%nat|grant_at 2%nat 1%nat|grant_at 3%nat 0%nat
        |grant_at 4%nat 0%nat|grant_at 4%nat 1%nat|grant_at 4%nat 2%nat|grant_at 4%nat 3%nat];
        apply Hal; done.
Qed.

(** Two matrix prefixes that start the same key are the same prefix. *)
Lemma Build_prefix_unique c policy i j p q key :
  Build c = Ok policy → prefixes c !! i = Some p → prefixes c !! j = Some q →
  String.prefix p key = true → String.prefix q key = true → i = j.
Proof.
  unfold Build. do 3 (case_if; [done|]). intros _ Hi Hj Hp Hq.
  apply prefixesOk_iff in E0 as [_ H].
  destruct (prefix_comparable _ _ _ Hp Hq); [|symmetry]; eauto.
Qed.

(** ** Properties *)

(** The policy [Build] returns gives each service role exactly the
    intended access: on an object key of the bucket, a role may read or write
    iff it is the operator or the access matrix has an entry for that role and
    operation whose prefix starts the key. *)
Theorem Build_grants c policy name op key :
  Build c = Ok policy → op = "Read" ∨ op = "Write" →
  grants policy name op (Bucket c) key ↔ permitted c name op key.
Proof. apply grants_iff. Qed.

(** Least privilege between roles: an object the AI role can read is
    neither reachable by ingestion nor by retention, the AI role never writes,
    and what ingestion writes (the normalized prefix) no other service role can
    read or write. *)
Theorem Build_separation c policy key :
  Build c = Ok policy →
  (∀ op, op = "Read" ∨ op = "Write" → grants policy "ai" "Read" (Bucket c) key →
     ¬ grants policy "ingestion" op (Bucket c) key ∧
     ¬ grants policy "retention" op (Bucket c) key) ∧
  ¬ grants policy "ai" "Write" (Bucket c) key ∧
  (∀ op name, op = "Read" ∨ op = "Write" → name ∈ ["core"; "ai"; "retention"] →
     grants policy "ingestion" "Write" (Bucket c) key →
     ¬ grants policy name op (Bucket c) key).
Proof.
  intros HB. pose proof (Build_prefix_unique c policy) as Hu.
  assert (∀ i j p q, prefixes c !! i = Some p → prefixes c !! j = Some q → i ≠ j →
    String.prefix p key = true → String.prefix q key = true → False) as Hx
    by (intros; eauto). clear Hu.
  assert (∀ name op, op = "Read" ∨ op = "Write" → grants policy name op (Bucket c) key →
    permitted c name op key) as Hg by (intros ??? H; by eapply grants_iff in H).
  split; [|split].
  - intros op Hop [|(p & Hp & Hk)]%Hg; [done| |by left]. elem_cases Hp; simplify_eq.
    split; intros [|(q & Hq & Hk')]%Hg; try done; elem_cases Hq; simplify_eq;
      first [by eapply (Hx 2%nat 0%nat) | by eapply (Hx 2%nat 1%nat) | by eapply (Hx 2%nat 3%nat)].
  - intros [|(p & Hp & Hk)]%Hg; [done| |by right]. elem_cases Hp; simplify_eq.
  - intros op name Hop Hn [|(p & Hp & Hk)]%Hg; [done| |by right].
    elem_cases Hp; simplify_eq. intros [->|(q & Hq & Hk')]%Hg; [set_solver| |done].
    elem_cases Hq; simplify_eq; try (by elem_cases Hn);
      first [by eapply (Hx 1%nat 0%nat) | by eapply (Hx 1%nat 2%nat) | by eapply (Hx 1%nat 3%nat)].
Qed.

(** [Build] succeeds exactly on a valid bucket, four valid key prefixes
    none of which starts another, and ten credential values that are valid and
    pairwise different, across roles and between access keys and secrets; every
    identity then carries its own role's credential and nothing else. *)
Theorem Build_accepts c :
  is_ok (Build c) = true ↔
  validBucket (Bucket c) = true ∧
  Forall (λ p, validPrefix p = true) (prefixes c) ∧
  (∀ i j p q, prefixes c !! i = Some p → prefixes c !! j = Some q →
     String.prefix p q = true → i = j) ∧
  Forall (λ v, validCredentialValue v = true) (credentialValues c) ∧
  NoDup (credentialValues c).
Proof.
  assert (is_ok (Build c) = validBucket (Bucket c) && prefixesOk [] (prefixes c) &&
    valuesOk ∅ (credentialValues c)) as ->.
  { unfold Build. repeat case_if; simpl in *; subst; rewrite ?E, ?E0, ?E1; done. }
  rewrite !andb_true_iff, prefixesOk_iff, valuesOk_spec, !Forall_forall. split.
  - intros [[? [? ?]] [? Hv]]. do 3 (split; [done|]). split; [|done]. intros w Hin. by apply Hv.
  - intros (? & ? & ? & Hv & ?). split; [by split|]. split; [done|].
    intros w Hin. split; [apply not_elem_of_empty|by apply Hv].
Qed.

(** ** Witnesses *)

Definition cred (n : string) : Credential :=
  {| AccessKey := "AK" +:+ n; SecretKey := "SK" +:+ n |}.
Definition sampleConfig : Config := {|
  Bucket := "aspm-evidence"; RawPrefix := "raw/"; NormalizedPrefix := "normalized/";
  ApprovedPrefix := "approved/"; ArchivePrefix := "archive/";
  Operator := cred "op"; Core := cred "core"; Ingestion := cred "ing"; AI := cred "ai";
  Retention := cred "ret" |}.
Definition samplePolicy : list identity :=
  match Build sampleConfig with Ok p => p | Err _ => [] end.

Lemma Build_grants_witness :
  id_Name <$> samplePolicy = roles ∧
  (grants samplePolicy "ai" "Read" "aspm-evidence" "approved/x" ↔
   permitted sampleConfig "ai" "Read" "approved/x").
Proof.
  split; [reflexivity|]. apply (Build_grants sampleConfig); [reflexivity|by left].
Defined.

Lemma Build_separation_witness :
  (∀ op, op = "Read" ∨ op = "Write" → grants samplePolicy "ai" "Read" "aspm-evidence" "approved/x" →
     ¬ grants samplePolicy "ingestion" op "aspm-evidence" "approved/x" ∧
     ¬ grants samplePolicy "retention" op "aspm-evidence" "approved/x") ∧
  ¬ grants samplePolicy "ai" "Write" "aspm-evidence" "approved/x" ∧
  (∀ op name, op = "Read" ∨ op = "Write" → name ∈ ["core"; "ai"; "retention"] →
     grants samplePolicy "ingestion" "Write" "aspm-evidence" "approved/x" →
     ¬ grants samplePolicy name op "aspm-evidence" "approved/x").
Proof. apply (Build_separation sampleConfig). reflexivity. Defined.
