(* ===== verification/Jobs.v ===== *)
(** * internal/jobs: the durable job queue

    The table is a map from primary key to row.  Each exported method of
    [*Store] is a program over it; a SQL statement is one [stmt]/[query]/[exec].
    Timestamps are microseconds of the database clock, durations nanoseconds.
    [jsonb] columns hold the Go value that [json.Unmarshal] gives back, so a
    string that is not UTF-8 is stored as [jsonCoerce] leaves it. *)
From S2P Require Import Prelude GoLib Tx.
Local Open Scope Z_scope.

(** ** Data (types.go) *)

Definition Version : string := "aspm/v1alpha1".
Definition IntegrityKind : string := "evidence-integrity-check".

Record Config := {
  DatabaseURL : string; Schema : string; ApplicationName : string; MaxConnections : Z;
  MaxLease : Z; MaxAttempts : Z; RetryDelay : Z; MaxRetryDelay : Z }.

Record Ref := { RefWorkspaceID : string; RefBucket : string; RefKey : string;
                RefSHA256 : string; RefSizeBytes : Z }.
#[export] Instance Ref_eq_dec : EqDecision Ref.
Proof. solve_decision. Defined.

Record Envelope := {
  EVersion : string; EKind : string; EWorkspaceID : string; ESourceID : string;
  ERunID : string; EBatchID : string; EParserRevision : string; ETraceID : string;
  EIdempotencyKey : string; EMaxAttempts : Z; EEvidence : Ref }.
#[export] Instance Envelope_eq_dec : EqDecision Envelope.
Proof. solve_decision. Defined.

Record Enqueued := { EnqJobID : string; EnqCreated : bool }.
Record ClaimReq := { CWorkspaceID : string; CWorkerID : string; CLeaseFor : Z }.
Record Lease := { LJobID : string; LEnvelope : Envelope; LWorkerID : string;
                  LFence : Z; LAttempt : Z; LExpiresAt : Z }.
Record Result := { ResSHA256 : string; ResSizeBytes : Z }.
#[export] Instance Result_eq_dec : EqDecision Result.
Proof. solve_decision. Defined.
Record Failure := { FCode : string; FMessage : string; FRetryable : bool }.
Record Receipt := { RcID : string; RcJobID : string; RcFence : Z; RcResult : Result;
                    RcCompletedAt : Z }.

Inductive jstate := Queued | Leased | RetryWait | Succeeded | Failed.
#[export] Instance jstate_eq_dec : EqDecision jstate.
Proof. solve_decision. Defined.

Record Job := { JID : string; JEnvelope : Envelope; JState : jstate; JAttempts : Z;
                JAvailableAt : Z; JLease : option Lease; JLastFailure : option Failure;
                JReceipt : option Receipt }.

(** One row of the [jobs] table (store.go, migrate); the primary key [id] is
    the key of the map. *)
Record Row := {
  r_workspace_id : string; r_source_id : string; r_run_id : string;
  r_kind : string; r_idempotency_key : string; r_envelope : Envelope; r_state : jstate;
  r_attempts : Z; r_max_attempts : Z; r_fence : Z; r_worker_id : option string;
  r_expires_at : option Z; r_available_at : Z; r_created_at : Z;
  r_last_failure : option Failure; r_receipt : option Receipt }.

Abbreviation Table := (gmap string Row).

(** [UPDATE ... SET state=..,attempts=..,fence=..,worker_id=..,expires_at=..,
    available_at=..,last_failure=..,receipt=..]. *)
Definition setRow (r : Row) (st : jstate) (att fence : Z) (w : option string)
    (ex : option Z) (av : Z) (lf : option Failure) (rc : option Receipt) : Row :=
  {| r_workspace_id := r_workspace_id r; r_source_id := r_source_id r;
     r_run_id := r_run_id r; r_kind := r_kind r; r_idempotency_key := r_idempotency_key r;
     r_envelope := r_envelope r; r_state := st; r_attempts := att;
     r_max_attempts := r_max_attempts r; r_fence := fence; r_worker_id := w;
     r_expires_at := ex; r_available_at := av; r_created_at := r_created_at r;
     r_last_failure := lf; r_receipt := rc |}.

(** ** Validation *)

Definition lowerHex (b : N) : bool := ((48 <=? b) && (b <=? 57) || (97 <=? b) && (b <=? 102))%N.

(** [^[a-z][a-z0-9_]{0,62}$] *)
Definition schemaPattern (s : string) : bool :=
  match bytes s with
  | [] => false
  | b :: l => ((97 <=? b) && (b <=? 122))%N &&
      forallb (λ b, (97 <=? b) && (b <=? 122) || (48 <=? b) && (b <=? 57) || (b =? 95))%N l &&
      (length l <=? 62)%nat
  end.

(** [^sha256:[0-9a-f]{64}$] *)
Definition digestPattern (s : string) : bool :=
  HasPrefix s "sha256:" && (len s =? 71) && forallb lowerHex (drop 7 (bytes s)).

(** The configuration check of [Open]. *)
Definition validConfig (c : Config) : bool :=
  negb (negb (schemaPattern (Schema c)) || (DatabaseURL c ==? "") || (ApplicationName c ==? "") ||
        (MaxConnections c <? 1) || (100 <? MaxConnections c) ||
        (MaxLease c <=? 0) || (10 * 60 * 1000000000 <? MaxLease c) ||
        (MaxAttempts c <? 1) || (20 <? MaxAttempts c) ||
        (RetryDelay c <=? 0) || (MaxRetryDelay c <? RetryDelay c)).

Definition validIdentity (value : string) : bool :=
  (TrimSpace value !=? "") && (len value <=? 512) && negb (containsNUL value).

Section store.
Context (cfg : Config).

Definition validateEnvelope (e : Envelope) : bool :=
  negb ((EVersion e !=? Version) || (EKind e !=? IntegrityKind) ||
        (EMaxAttempts e <? 1) || (MaxAttempts cfg <? EMaxAttempts e)) &&
  forallb validIdentity [EWorkspaceID e; ESourceID e; ERunID e; EBatchID e;
                         EParserRevision e; ETraceID e; EIdempotencyKey e] &&
  negb ((RefWorkspaceID (EEvidence e) !=? EWorkspaceID e) ||
        negb (validIdentity (RefBucket (EEvidence e))) ||
        negb (validIdentity (RefKey (EEvidence e))) ||
        negb (digestPattern (RefSHA256 (EEvidence e))) || (RefSizeBytes (EEvidence e) <? 0)).

(** ** Stored JSON *)

Definition coerceRef (r : Ref) : Ref :=
  {| RefWorkspaceID := jsonCoerce (RefWorkspaceID r); RefBucket := jsonCoerce (RefBucket r);
     RefKey := jsonCoerce (RefKey r); RefSHA256 := jsonCoerce (RefSHA256 r);
     RefSizeBytes := RefSizeBytes r |}.

Definition coerceEnvelope (e : Envelope) : Envelope :=
  {| EVersion := jsonCoerce (EVersion e); EKind := jsonCoerce (EKind e);
     EWorkspaceID := jsonCoerce (EWorkspaceID e); ESourceID := jsonCoerce (ESourceID e);
     ERunID := jsonCoerce (ERunID e); EBatchID := jsonCoerce (EBatchID e);
     EParserRevision := jsonCoerce (EParserRevision e); ETraceID := jsonCoerce (ETraceID e);
     EIdempotencyKey := jsonCoerce (EIdempotencyKey e); EMaxAttempts := EMaxAttempts e;
     EEvidence := coerceRef (EEvidence e) |}.

Definition coerceFailure (f : Failure) : Failure :=
  {| FCode := jsonCoerce (FCode f); FMessage := jsonCoerce (FMessage f);
     FRetryable := FRetryable f |}.

(** ** Enqueue *)

(** The UNIQUE columns. *)
Definition rowKey (r : Row) : string * string * string * string * string :=
  (r_workspace_id r, r_source_id r, r_run_id r, r_kind r, r_idempotency_key r).
Definition envelopeKey (e : Envelope) : string * string * string * string * string :=
  (EWorkspaceID e, ESourceID e, ERunID e, EKind e, EIdempotencyKey e).

Definition findKey (k : string * string * string * string * string) (db : Table)
    : option (string * Row) :=
  head (filter (λ p : string * Row, rowKey p.2 = k) (map_to_list db)).

Definition newRow (e : Envelope) (t : Z) : Row :=
  {| r_workspace_id := EWorkspaceID e; r_source_id := ESourceID e;
     r_run_id := ERunID e; r_kind := EKind e; r_idempotency_key := EIdempotencyKey e;
     r_envelope := coerceEnvelope e; r_state := Queued; r_attempts := 0;
     r_max_attempts := EMaxAttempts e; r_fence := 0; r_worker_id := None;
     r_expires_at := None; r_available_at := t; r_created_at := t;
     r_last_failure := None; r_receipt := None |}.

(** [INSERT ... ON CONFLICT (...) DO NOTHING RETURNING id]: [None] when the
    key exists; text parameters must be UTF-8, [max_attempts] between 1 and 20,
    and the primary key new. *)
Definition insertJob (id : string) (e : Envelope) (t : Z) (db : Table)
    : Res (option string * Table) :=
  if negb (forallb ValidString [EWorkspaceID e; ESourceID e; ERunID e; EKind e; EIdempotencyKey e])
  then Err ErrDatabase
  else if (EMaxAttempts e <? 1) || (20 <? EMaxAttempts e) then Err ErrDatabase
  else match findKey (envelopeKey e) db with
       | Some _ => Ok (None, db)
       | None => match db !! id with
                 | Some _ => Err ErrDatabase
                 | None => Ok (Some id, <[id := newRow e t]> db)
                 end
       end.

Definition Enqueue (e : Envelope) : M Table Enqueued :=
  guard (validateEnvelope e) JobsErrInvalid ;;;
  id <- newID ;;
  inserted <- stmt (insertJob id e) ;;
  match inserted with
  | Some id' => ret {| EnqJobID := id'; EnqCreated := true |}
  | None =>
      found <- query (λ _ db, match findKey (envelopeKey e) db with
                              | Some r => Ok r | None => Err ErrNoRows end) ;;
      if r_envelope found.2 ==? coerceEnvelope e
      then ret {| EnqJobID := found.1; EnqCreated := false |}
      else throw JobsErrConflict
  end.

(** ** Claim *)

Definition waiting (st : jstate) : bool := (st ==? Queued) || (st ==? RetryWait).
Definition expired (t : Z) (r : Row) : bool :=
  match r_expires_at r with Some x => x <=? t | None => false end.
Definition live (t : Z) (r : Row) : bool :=
  match r_expires_at r with Some x => t <? x | None => false end.
Definition attemptLimit (r : Row) : Z := Z.min (r_max_attempts r) (MaxAttempts cfg).

Definition leaseExpiredFailure : Failure :=
  {| FCode := "lease-expired"; FMessage := "Final permitted lease expired before completion";
     FRetryable := false |}.
Definition attemptLimitFailure : Failure :=
  {| FCode := "attempt-limit"; FMessage := "Configured attempt limit exhausted";
     FRetryable := false |}.

Definition exhausted (ws : string) (t : Z) (r : Row) : bool :=
  (r_workspace_id r ==? ws) && (attemptLimit r <=? r_attempts r) &&
  (waiting (r_state r) || (r_state r ==? Leased) && expired t r).

Definition failExhausted (ws : string) (t : Z) (r : Row) : Row :=
  if exhausted ws t r then
    setRow r Failed (r_attempts r) (r_fence r) None None (r_available_at r)
      (Some (if r_state r ==? Leased then leaseExpiredFailure
             else default attemptLimitFailure (r_last_failure r)))
      (r_receipt r)
  else r.

Definition eligible (ws : string) (t : Z) (r : Row) : bool :=
  (r_workspace_id r ==? ws) && (r_attempts r <? attemptLimit r) &&
  (waiting (r_state r) && (r_available_at r <=? t) || (r_state r ==? Leased) && expired t r).

(** [ORDER BY available_at,created_at,id]. *)
Definition rowLe (a b : string * Row) : bool :=
  (r_available_at a.2 <? r_available_at b.2) ||
  (r_available_at a.2 =? r_available_at b.2) &&
  ((r_created_at a.2 <? r_created_at b.2) ||
   (r_created_at a.2 =? r_created_at b.2) && strLe a.1 b.1).

Definition candidate (ws : string) (locked : string → bool) (t : Z) (db : Table)
    : option (string * Row) :=
  argmin rowLe (filter (λ p : string * Row, eligible ws t p.2 && negb (locked p.1) = true)
                       (map_to_list db)).

Definition leaseRow (r : Row) (worker : string) (until : Z) : Row :=
  setRow r Leased (r_attempts r + 1) (r_fence r + 1) (Some worker) (Some until)
    (r_available_at r) (r_last_failure r) (r_receipt r).

Definition leaseOf (id : string) (r : Row) (worker : string) (until : Z) : Lease :=
  {| LJobID := id; LEnvelope := r_envelope r; LWorkerID := worker;
     LFence := r_fence r; LAttempt := r_attempts r; LExpiresAt := until |}.

Definition Claim (req : ClaimReq) : M Table Lease :=
  guard (negb (negb (validIdentity (CWorkspaceID req)) || negb (validIdentity (CWorkerID req)) ||
               (CLeaseFor req <=? 0) || (MaxLease cfg <? CLeaseFor req))) JobsErrInvalid ;;;
  transactionRes (
    exec (λ t db, (tt, failExhausted (CWorkspaceID req) t <$> db)) ;;;
    locked <- skipLocked ;;
    span <- intervalOf (CLeaseFor req) ;;
    exec (λ t db,
      match candidate (CWorkspaceID req) locked t db with
      | None => (Err JobsErrNoJob, db)
      | Some (id, r) =>
          let r' := leaseRow r (CWorkerID req) (t + span) in
          (Ok (leaseOf id r' (CWorkerID req) (t + span)), <[id := r']> db)
      end)).

(** ** Heartbeat, Complete, Fail *)

(** The fence of a lease holder:
    [id=$1 AND workspace_id=$2 AND worker_id=$3 AND fence=$4 AND
     state='leased' AND expires_at>clock_timestamp()]. *)
Definition holds (l : Lease) (t : Z) (r : Row) : bool :=
  (r_workspace_id r ==? EWorkspaceID (LEnvelope l)) && (r_worker_id r ==? Some (LWorkerID l)) &&
  (r_fence r =? LFence l) && (r_state r ==? Leased) && live t r.

Definition Heartbeat (l : Lease) (duration : Z) : M Table Lease :=
  guard (negb ((duration <=? 0) || (MaxLease cfg <? duration))) JobsErrInvalid ;;;
  span <- intervalOf duration ;;
  updated <- exec (λ t db,
    match db !! LJobID l with
    | Some r =>
        if holds l t r then
          (Some (t + span),
           <[LJobID l := setRow r (r_state r) (r_attempts r) (r_fence r) (r_worker_id r)
                           (Some (t + span)) (r_available_at r) (r_last_failure r)
                           (r_receipt r)]> db)
        else (None, db)
    | None => (None, db)
    end) ;;
  match updated with
  | Some until => ret {| LJobID := LJobID l; LEnvelope := LEnvelope l; LWorkerID := LWorkerID l;
                         LFence := LFence l; LAttempt := LAttempt l; LExpiresAt := until |}
  | None => throw JobsErrLeaseLost
  end.

Definition Complete (l : Lease) (result : Result) : M Table Receipt :=
  guard (negb (negb (digestPattern (ResSHA256 result)) || (ResSizeBytes result <? 0))) JobsErrInvalid ;;;
  transaction (
    found <- query (λ t db,
      match db !! LJobID l with
      | Some r => if r_workspace_id r ==? EWorkspaceID (LEnvelope l) then Ok (Some (r, live t r))
                  else Ok None
      | None => Ok None
      end) ;;
    match found with
    | None => throw JobsErrLeaseLost
    | Some (r, active) =>
        guard (negb ((default "" (r_worker_id r) !=? LWorkerID l) || negb (r_fence r =? LFence l)))
          JobsErrLeaseLost ;;;
        guard (negb ((ResSHA256 result !=? RefSHA256 (EEvidence (r_envelope r))) ||
                     negb (ResSizeBytes result =? RefSizeBytes (EEvidence (r_envelope r)))))
          JobsErrInvalid ;;;
        if r_state r ==? Succeeded then
          match r_receipt r with
          | None => throw ErrDecode
          | Some receipt =>
              if RcResult receipt ==? result then ret receipt else throw JobsErrConflict
          end
        else
          guard (negb ((r_state r !=? Leased) || negb active)) JobsErrLeaseLost ;;;
          rid <- newID ;;
          completedAt <- query (λ t _, Ok t) ;;
          let receipt := {| RcID := rid; RcJobID := LJobID l; RcFence := r_fence r;
                            RcResult := result; RcCompletedAt := completedAt |} in
          updated <- exec (λ t db,
            match db !! LJobID l with
            | Some r =>
                if (r_state r ==? Leased) && live t r then
                  (true, <[LJobID l := setRow r Succeeded (r_attempts r) (r_fence r)
                                         (r_worker_id r) None (r_available_at r)
                                         (r_last_failure r) (Some receipt)]> db)
                else (false, db)
            | None => (false, db)
            end) ;;
          guard updated JobsErrLeaseLost ;;;
          ret receipt
    end).

(** [for i := 1; i < attempt && delay < max; i++ { delay = min(delay*2, max) }] *)
Fixpoint retryLoop (steps : nat) (delay : Z) : Z :=
  match steps with
  | O => delay
  | S steps' =>
      if delay <? MaxRetryDelay cfg
      then retryLoop steps' (Z.min (wrap64 (delay * 2)) (MaxRetryDelay cfg))
      else delay
  end.

Definition retryDelay (attempt : Z) : Z := retryLoop (Z.to_nat (attempt - 1)) (RetryDelay cfg).

(** A [jsonb] parameter refuses the escape of a NUL character. *)
Definition Fail (l : Lease) (f : Failure) : M Table unit :=
  guard (negb (negb (validIdentity (FCode f)) || (4096 <? len (FMessage f)))) JobsErrInvalid ;;;
  span <- intervalOf (retryDelay (LAttempt l)) ;;
  updated <- stmt (λ t db,
    if containsNUL (FMessage f) then Err ErrDatabase else
    match db !! LJobID l with
    | Some r =>
        if holds l t r then
          Ok (true, <[LJobID l := setRow r
                (if FRetryable f && (r_attempts r <? attemptLimit r) then RetryWait else Failed)
                (r_attempts r) (r_fence r) None None (t + span)
                (Some (coerceFailure f)) (r_receipt r)]> db)
        else Ok (false, db)
    | None => Ok (false, db)
    end) ;;
  guard updated JobsErrLeaseLost.

(** ** Get and PendingWorkspaces *)

Definition Get (workspace id : string) : M Table Job :=
  r <- query (λ _ db,
    match db !! id with
    | Some r => if r_workspace_id r ==? workspace then Ok r else Err JobsErrNotFound
    | None => Err JobsErrNotFound
    end) ;;
  ret {| JID := id; JEnvelope := r_envelope r; JState := r_state r;
         JAttempts := r_attempts r; JAvailableAt := r_available_at r;
         JLease := match r_worker_id r, r_expires_at r with
                   | Some w, Some x => Some {| LJobID := id; LEnvelope := r_envelope r;
                       LWorkerID := w; LFence := r_fence r; LAttempt := r_attempts r;
                       LExpiresAt := x |}
                   | _, _ => None
                   end;
         JLastFailure := r_last_failure r; JReceipt := r_receipt r |}.

Definition pending (t : Z) (r : Row) : bool :=
  waiting (r_state r) && (r_available_at r <=? t) || (r_state r ==? Leased) && expired t r.

(** [GROUP BY workspace_id]: the least [available_at] of each workspace. *)
Definition groupMin (rows : list Row) : gmap string Z :=
  fold_right (λ r m, <[r_workspace_id r :=
      match m !! r_workspace_id r with
      | Some v => Z.min v (r_available_at r) | None => r_available_at r end]> m) ∅ rows.

Definition groupLe (a b : string * Z) : Prop := a.2 ≤ b.2.
#[export] Instance groupLe_dec a b : Decision (groupLe a b).
Proof. unfold groupLe. apply _. Defined.

Definition PendingWorkspaces (limit : Z) : M Table (list string) :=
  guard (negb ((limit <? 1) || (1000 <? limit))) JobsErrInvalid ;;;
  query (λ t db,
    let rows := filter (λ r, pending t r = true) (snd <$> map_to_list db) in
    Ok (take (Z.to_nat limit)
          (fst <$> merge_sort groupLe (map_to_list (groupMin rows))))).
End store.

(** ** Lifecycle: what may happen to one job

    The abstract state machine the store implements.  A claim is the only step
    that moves the fence, together with the attempt counter; leases end by
    completion, by failure or by exhaustion; succeeded and failed jobs have no
    outgoing step; identity columns and envelope never change. *)
Inductive jstep (cfg : Config) (r : Row) : Row → Prop :=
  | js_claim w x :
      waiting (r_state r) = true ∨ r_state r = Leased → r_attempts r < attemptLimit cfg r →
      jstep cfg r (leaseRow r w x)
  | js_heartbeat x :
      r_state r = Leased →
      jstep cfg r (setRow r (r_state r) (r_attempts r) (r_fence r) (r_worker_id r) (Some x)
                     (r_available_at r) (r_last_failure r) (r_receipt r))
  | js_complete rc :
      r_state r = Leased → RcFence rc = r_fence r →
      RcResult rc = {| ResSHA256 := RefSHA256 (EEvidence (r_envelope r));
                       ResSizeBytes := RefSizeBytes (EEvidence (r_envelope r)) |} →
      jstep cfg r (setRow r Succeeded (r_attempts r) (r_fence r) (r_worker_id r) None
                     (r_available_at r) (r_last_failure r) (Some rc))
  | js_fail (retry : bool) av f :
      r_state r = Leased → (retry = true → r_attempts r < attemptLimit cfg r) →
      jstep cfg r (setRow r (if retry then RetryWait else Failed) (r_attempts r) (r_fence r)
                     None None av (Some f) (r_receipt r))
  | js_exhaust f :
      waiting (r_state r) = true ∨ r_state r = Leased → attemptLimit cfg r ≤ r_attempts r →
      jstep cfg r (setRow r Failed (r_attempts r) (r_fence r) None None
                     (r_available_at r) (Some f) (r_receipt r)).

(** No two rows share the UNIQUE columns. *)
Definition unique_keys (db : Table) : Prop :=
  ∀ i j r1 r2, db !! i = Some r1 → db !! j = Some r2 → rowKey r1 = rowKey r2 → i = j.

(** Every row of [db] evolves by lifecycle steps, none is deleted, every new
    row starts as a freshly enqueued, valid envelope, and keys stay unique. *)
Definition evolves (cfg : Config) (db db' : Table) : Prop :=
  (∀ id r, db !! id = Some r → ∃ r', db' !! id = Some r' ∧ rtc (jstep cfg) r r') ∧
  (∀ id r', db !! id = None → db' !! id = Some r' →
     ∃ e t, validateEnvelope cfg e = true ∧ rtc (jstep cfg) (newRow e t) r') ∧
  (unique_keys db → unique_keys db').

#[export] Instance evolves_preorder cfg : PreOrder (evolves cfg).
Proof.
  split.
  - intros db. split; [eauto using rtc_refl|]. split; [|done]. intros; congruence.
  - intros db1 db2 db3 (H1 & N1 & U1) (H2 & N2 & U2). split; [|split; [|auto]].
    + intros id r Hr. apply H1 in Hr as (r1 & Hr1 & ?). apply H2 in Hr1 as (r2 & ? & ?).
      eauto using rtc_trans.
    + intros id r3 Hn Hr3. destruct (db2 !! id) as [r2|] eqn:E2; [|eauto].
      destruct (N1 id r2 Hn E2) as (e & t & ? & ?). destruct (H2 id r2 E2) as (r3' & ? & ?).
      simplify_eq. eauto 10 using rtc_trans.
Qed.

(** What no lifecycle step touches, and the direction of the counters. *)
Lemma jstep_stable cfg r r' :
  rtc (jstep cfg) r r' →
  rowKey r' = rowKey r ∧ r_envelope r' = r_envelope r ∧ r_max_attempts r' = r_max_attempts r ∧
  r_created_at r' = r_created_at r ∧ r_fence r ≤ r_fence r' ∧
  r_attempts r' - r_attempts r = r_fence r' - r_fence r.
Proof.
  induction 1 as [r|r1 r2 r3 Hs _ IH]; [auto with lia|].
  destruct IH as (-> & -> & -> & -> & IH1 & IH2).
  destruct Hs; unfold leaseRow, setRow, rowKey in *; simpl in *; auto with lia.
  all: repeat split; lia.
Qed.

Lemma evolves_update cfg (db : Table) id r r' :
  db !! id = Some r → rtc (jstep cfg) r r' → evolves cfg db (<[id := r']> db).
Proof.
  intros Hr Hs. split; [|split].
  - intros i ri Hi. rewrite lookup_insert. case_decide; simplify_eq; eauto using rtc_refl.
  - intros i ri Hi Hi'. rewrite lookup_insert in Hi'. case_decide; simplify_eq.
  - apply jstep_stable in Hs as [Hk _]. intros Hu i j r1 r2.
    rewrite !lookup_insert. repeat case_decide; subst; intros; simplify_eq; try done.
    + eapply (Hu i j r r2); eauto; unfold rowKey; congruence.
    + eapply (Hu i j r1 r); eauto; unfold rowKey; congruence.
    + eapply (Hu i j r1 r2); eauto; unfold rowKey; congruence.
Qed.

Lemma evolves_fmap cfg (f : Row → Row) (db : Table) :
  (∀ r, rtc (jstep cfg) r (f r)) → evolves cfg db (f <$> db).
Proof.
  intros Hf. split; [|split].
  - intros i r Hi. exists (f r). by rewrite lookup_fmap, Hi.
  - intros i r Hi Hi'. by rewrite lookup_fmap, Hi in Hi'.
  - intros Hu i j r1 r2. rewrite !lookup_fmap.
    intros (r1' & H1 & ->)%fmap_Some (r2' & H2 & ->)%fmap_Some Hk.
    destruct (jstep_stable _ _ _ (Hf r1')) as [E1 _], (jstep_stable _ _ _ (Hf r2')) as [E2 _].
    eapply Hu; eauto. congruence.
Qed.

Lemma findKey_Some k db id r :
  findKey k db = Some (id, r) → db !! id = Some r ∧ rowKey r = k.
Proof.
  unfold findKey. intros H%head_Some_elem_of%list_elem_of_filter.
  destruct H as [? H%elem_of_map_to_list]. auto.
Qed.

Lemma findKey_None k (db : Table) id r : findKey k db = None → db !! id = Some r → rowKey r ≠ k.
Proof.
  unfold findKey. intros H Hr Hk. apply elem_of_map_to_list in Hr.
  assert ((id, r) ∈ filter (λ p : string * Row, rowKey p.2 = k) (map_to_list db)) as Hin
    by (by apply list_elem_of_filter).
  destruct (filter _ _); [by apply elem_of_nil in Hin|done].
Qed.

Lemma failExhausted_jstep cfg ws t r : rtc (jstep cfg) r (failExhausted cfg ws t r).
Proof.
  unfold failExhausted, exhausted. case_if; [|done]. destruct E as [[_ Hl] Hs].
  apply rtc_once, js_exhaust; [|done]. destruct Hs as [?|[? _]]; auto.
Qed.

Lemma candidate_Some cfg ws locked t db id r :
  candidate cfg ws locked t db = Some (id, r) →
  db !! id = Some r ∧ eligible cfg ws t r = true ∧ locked id = false.
Proof.
  intros H%argmin_elem%list_elem_of_filter. destruct H as [He Hin].
  apply elem_of_map_to_list in Hin. simpl in He. breflect_in He. naive_solver.
Qed.

Lemma eligible_claimable cfg ws t r :
  eligible cfg ws t r = true →
  (waiting (r_state r) = true ∨ r_state r = Leased) ∧ r_attempts r < attemptLimit cfg r.
Proof. unfold eligible. intros H. breflect_in H. naive_solver. Qed.

Lemma holds_leased l t r : holds l t r = true → r_state r = Leased ∧ r_fence r = LFence l.
Proof. unfold holds. intros H. breflect_in H. naive_solver. Qed.

(** ** Every operation is a lifecycle evolution *)
Section lifecycle.
Context (cfg : Config).

Lemma Enqueue_evolves e : Steps (evolves cfg) (Enqueue cfg e).
Proof.
  unfold Enqueue.
  steps. apply steps_stmt; [apply _|]. intros t db ins db'. unfold insertJob.
  repeat case_if; try done. destruct (findKey _ _) eqn:Ek; [by intros [= <- <-]|].
  destruct (db !! _) eqn:El; [done|]. intros [= <- <-]. split; [|split].
  - intros i r Hi. rewrite lookup_insert_ne by congruence. eauto using rtc_refl.
  - intros i r Hi. rewrite lookup_insert. case_decide; [|congruence].
    intros [= <-]. eauto using rtc_refl.
  - intros Hu i j r1 r2. rewrite !lookup_insert.
    repeat case_decide; subst; [done| | |eapply Hu].
    + intros [= <-] H2 Hk. exfalso. by apply (findKey_None _ _ _ _ Ek H2).
    + intros H1 [= <-] Hk. exfalso. by apply (findKey_None _ _ _ _ Ek H1).
Qed.

Lemma Claim_evolves req : Steps (evolves cfg) (Claim cfg req).
Proof.
  unfold Claim. steps.
  - apply steps_exec; [apply _|]. intros t db. apply evolves_fmap. apply failExhausted_jstep.
  - apply steps_exec; [apply _|]. intros t db.
    destruct (candidate _ _ _ _ _) as [[id r]|] eqn:Ec; simpl; [|reflexivity].
    apply candidate_Some in Ec as (Hr & He & _). apply eligible_claimable in He as [? ?].
    eapply evolves_update; [done|]. apply rtc_once. by apply js_claim.
Qed.

Lemma Heartbeat_evolves l d : Steps (evolves cfg) (Heartbeat cfg l d).
Proof.
  unfold Heartbeat. steps. apply steps_exec; [apply _|]. intros t db.
  destruct (db !! LJobID l) as [r|] eqn:Er; [|reflexivity]. case_if; [|reflexivity].
  apply holds_leased in E as [? ?]. simpl. eapply evolves_update; [done|].
  apply rtc_once. by apply js_heartbeat.
Qed.

(** Complete writes at most once, and only for the lease holder of a live
    lease, with a receipt made from that row. *)
Definition completes (l : Lease) (res : Result) (t : Z) (rc : Receipt) (r : Row) : Prop :=
  r_state r = Leased ∧ live t r = true ∧ r_fence r = LFence l ∧
  default "" (r_worker_id r) = LWorkerID l ∧
  r_workspace_id r = EWorkspaceID (LEnvelope l) ∧
  res = {| ResSHA256 := RefSHA256 (EEvidence (r_envelope r));
           ResSizeBytes := RefSizeBytes (EEvidence (r_envelope r)) |} ∧
  RcFence rc = r_fence r ∧ RcResult rc = res ∧ RcJobID rc = LJobID l.

Lemma Complete_run l res env n db :
  let o := Complete l res env n db in
  (out_db o = db ∧
   ∀ rc, out_res o = Ok rc → ∃ r, db !! LJobID l = Some r ∧ r_state r = Succeeded ∧
     r_receipt r = Some rc ∧ r_fence r = LFence l ∧ RcResult rc = res) ∨
  (∃ r rc t, db !! LJobID l = Some r ∧ completes l res t rc r ∧
     out_db o = <[LJobID l := setRow r Succeeded (r_attempts r) (r_fence r) (r_worker_id r) None
                    (r_available_at r) (r_last_failure r) (Some rc)]> db ∧
     (out_res o = Ok rc ∨ out_res o = Err ErrDatabase)).
Proof.
  simpl. unfold Complete, transaction, bind, guard, query, exec, stmt, newID, ret, throw.
  case_if; [|by left]. simpl. case_if; [by left|].
  destruct (db !! LJobID l) as [r|] eqn:Er; simpl; [|by left].
  do 3 (case_if; simpl; [|by left]). case_if.
  { destruct (r_receipt r) as [rc|] eqn:Erc; [|by left]. case_if; [|by left].
    left. destruct (env_commit env (n + 1)); simpl; split; try done.
    intros rc' [= <-]. exists r. naive_solver. }
  case_if; simpl; [|by left]. do 2 (case_if; simpl; [by left|]).
  rewrite Er. case_if; simpl; [|by left].
  set (rc := {| RcID := _ |}).
  assert (completes l res (env_clock env (n + 1 + 1 + 1)) rc r) as Hc.
  { unfold completes. destruct res. simpl in *. naive_solver. }
  destruct (env_commit env _); simpl; [right|by left|right]; exists r, rc; eauto 10.
Qed.

Lemma Complete_evolves l res : Steps (evolves cfg) (Complete l res).
Proof.
  intros env n db. destruct (Complete_run l res env n db) as [[-> _]|(r & rc & t & Hr & Hc & -> & _)];
    [reflexivity|].
  eapply evolves_update; [done|]. apply rtc_once.
  destruct Hc as (? & ? & ? & ? & ? & -> & ? & ? & ?). by apply js_complete.
Qed.

Lemma Fail_evolves l f : Steps (evolves cfg) (Fail cfg l f).
Proof.
  unfold Fail. steps. apply steps_stmt; [apply _|]. intros t db b db'. case_if; [done|].
  destruct (db !! LJobID l) as [r|] eqn:Er; [|by intros [= <- <-]].
  case_if; [|by intros [= <- <-]]. apply holds_leased in E0 as [? ?]. intros [= <- <-].
  eapply evolves_update; [done|]. apply rtc_once. apply js_fail; [done|].
  intros Hb. breflect_in Hb. naive_solver.
Qed.
End lifecycle.

#[export] Hint Resolve Enqueue_evolves Claim_evolves Heartbeat_evolves Complete_evolves
  Fail_evolves : steps.
Arguments Enqueue : simpl never.
Arguments Claim : simpl never.
Arguments Heartbeat : simpl never.
Arguments Complete : simpl never.
Arguments Fail : simpl never.
Arguments PendingWorkspaces : simpl never.
