(* ===== verification/JobsProps.v ===== *)
(** * Properties of the job queue

    Reachability over interleavings of the store's methods, the row invariant,
    fencing of stale leases, idempotent enqueue, claim order and retry delay. *)
From S2P Require Import Prelude GoLib Tx Jobs.
Local Open Scope Z_scope.

(** ** Interleavings

    One call of one method by anybody, in any world. *)
Inductive op :=
  | OpEnqueue (e : Envelope) | OpClaim (req : ClaimReq) | OpHeartbeat (l : Lease) (d : Z)
  | OpComplete (l : Lease) (res : Result) | OpFail (l : Lease) (f : Failure)
  | OpGet (ws id : string) | OpPending (limit : Z).

Definition runOp (cfg : Config) (o : op) (env : Env) (n : nat) (db : Table) : Table :=
  match o with
  | OpEnqueue e => out_db (Enqueue cfg e env n db)
  | OpClaim req => out_db (Claim cfg req env n db)
  | OpHeartbeat l d => out_db (Heartbeat cfg l d env n db)
  | OpComplete l res => out_db (Complete l res env n db)
  | OpFail l f => out_db (Fail cfg l f env n db)
  | OpGet ws id => out_db (Get ws id env n db)
  | OpPending limit => out_db (PendingWorkspaces limit env n db)
  end.

Inductive store_step (cfg : Config) (db : Table) : Table → Prop :=
  | store_step_op o env n : store_step cfg db (runOp cfg o env n db).

(** ** Row invariant *)
Definition row_ok (cfg : Config) (r : Row) : Prop :=
  r_attempts r = r_fence r ∧ 0 ≤ r_attempts r ≤ attemptLimit cfg r ∧
  match r_state r with
  | Queued | RetryWait =>
      r_worker_id r = None ∧ r_expires_at r = None ∧ r_receipt r = None
  | Leased =>
      is_Some (r_worker_id r) ∧ is_Some (r_expires_at r) ∧ r_receipt r = None ∧ 1 ≤ r_attempts r
  | Succeeded =>
      is_Some (r_worker_id r) ∧ r_expires_at r = None ∧ 1 ≤ r_attempts r ∧
      ∃ rc, r_receipt r = Some rc ∧ RcFence rc = r_fence r ∧
        RcResult rc = {| ResSHA256 := RefSHA256 (EEvidence (r_envelope r));
                         ResSizeBytes := RefSizeBytes (EEvidence (r_envelope r)) |}
  | Failed =>
      r_worker_id r = None ∧ r_expires_at r = None ∧ r_receipt r = None ∧
      is_Some (r_last_failure r)
  end.

Lemma row_ok_new cfg e t : validateEnvelope cfg e = true → row_ok cfg (newRow e t).
Proof.
  unfold validateEnvelope, row_ok, attemptLimit. intros H.
  apply andb_true_iff in H as [[H _]%andb_true_iff _]. breflect_in H. simpl. split_and!; auto; lia.
Qed.

Lemma row_ok_jstep cfg r r' : jstep cfg r r' → row_ok cfg r → row_ok cfg r'.
Proof.
  intros Hs (Hf & Ha & Hst). destruct Hs as [w x Hw Hlt|x Hl|rc Hl Hrf Hrr|retry av f Hl Hr|f Hw Hle];
    unfold row_ok, attemptLimit, leaseRow, setRow in *; simpl in *.
  - destruct (r_state r); destruct Hw as [Hw|Hw]; simplify_eq; split_and!; eauto; try lia; naive_solver.
  - rewrite Hl in *. naive_solver.
  - rewrite Hl in *. naive_solver.
  - rewrite Hl in *. destruct retry; naive_solver.
  - destruct (r_state r); destruct Hw as [Hw|Hw]; simplify_eq; naive_solver.
Qed.

Lemma row_ok_rtc cfg r r' : rtc (jstep cfg) r r' → row_ok cfg r → row_ok cfg r'.
Proof. induction 1; eauto using row_ok_jstep. Qed.

Definition store_ok (cfg : Config) (db : Table) : Prop :=
  (∀ id r, db !! id = Some r → row_ok cfg r) ∧ unique_keys db.

Lemma evolves_ok cfg db db' : evolves cfg db db' → store_ok cfg db → store_ok cfg db'.
Proof.
  intros (H1 & H2 & H3) [Hr Hu]. split; [|auto].
  intros id r' Hr'. destruct (db !! id) as [r|] eqn:E.
  - destruct (H1 id r E) as (r2 & ? & ?). simplify_eq. eauto using row_ok_rtc.
  - destruct (H2 id r' E Hr') as (e & t & ? & ?). eauto using row_ok_rtc, row_ok_new.
Qed.

Lemma store_step_evolves cfg db db' : store_step cfg db db' → evolves cfg db db'.
Proof.
  intros [o env n]. destruct o; simpl.
  - apply Enqueue_evolves.
  - apply Claim_evolves.
  - apply Heartbeat_evolves.
  - apply Complete_evolves.
  - apply Fail_evolves.
  - apply (steps_bind (evolves cfg)); [apply steps_query; apply _|intros; apply steps_ret; apply _].
  - apply (steps_guarded (evolves cfg)). intros _. apply steps_query; apply _.
Qed.

Lemma store_steps_evolve cfg db db' : rtc (store_step cfg) db db' → evolves cfg db db'.
Proof.
  induction 1 as [|db1 db2 db3 H _ IH]; [reflexivity|].
  etransitivity; [by apply store_step_evolves|done].
Qed.

Lemma store_ok_empty cfg : store_ok cfg ∅.
Proof. split; [intros id r; by rewrite lookup_empty | intros i j r1 r2; by rewrite lookup_empty]. Qed.

Lemma reachable_ok cfg db : rtc (store_step cfg) ∅ db → store_ok cfg db.
Proof. intros H. eapply evolves_ok; [by apply store_steps_evolve|apply store_ok_empty]. Qed.

(** A job in a terminal state has no lifecycle step. *)
Lemma jstep_terminal cfg r r' :
  rtc (jstep cfg) r r' → r_state r = Succeeded ∨ r_state r = Failed → r' = r.
Proof.
  induction 1 as [|r1 r2 r3 Hs _ IH]; [done|]. intros Ht.
  destruct Hs as [? ? [Hw|Hw]| | | |? [Hw|Hw]]; destruct Ht as [Ht|Ht];
    rewrite Ht in *; simplify_eq.
Qed.

(** ** Stale leases *)

(** A lease that the row's current fence or worker does not match. *)
Definition superseded (l : Lease) (db : Table) : Prop :=
  ∀ r, db !! LJobID l = Some r → r_fence r ≠ LFence l ∨ r_worker_id r ≠ Some (LWorkerID l).

Lemma holds_superseded l t db r :
  superseded l db → db !! LJobID l = Some r → holds l t r = false.
Proof.
  intros Hs Hr. apply not_true_iff_false. intros H. unfold holds in H. breflect_in H.
  destruct (Hs r Hr); naive_solver.
Qed.

(** ** What a claim does *)

Definition validClaim (cfg : Config) (req : ClaimReq) : bool :=
  negb (negb (validIdentity (CWorkspaceID req)) || negb (validIdentity (CWorkerID req)) ||
        (CLeaseFor req <=? 0) || (MaxLease cfg <? CLeaseFor req)).

(** The table after exhausted jobs were failed, and the job a claim takes. *)
Definition swept (cfg : Config) (req : ClaimReq) (env : Env) (n : nat) (db : Table) : Table :=
  failExhausted cfg (CWorkspaceID req) (env_clock env n) <$> db.
Definition picked (cfg : Config) (req : ClaimReq) (env : Env) (n : nat) (db : Table)
    : option (string * Row) :=
  candidate cfg (CWorkspaceID req) (env_locked env (n + 1)) (env_clock env (n + 1))
    (swept cfg req env n db).
Definition leasedUntil (req : ClaimReq) (env : Env) (n : nat) : Z :=
  env_clock env (n + 1) + env_interval env (CLeaseFor req).

Lemma Claim_run cfg req env n db :
  match out_res (Claim cfg req env n db) with
  | Ok l => validClaim cfg req = true ∧ ∃ id r, picked cfg req env n db = Some (id, r) ∧
      let r' := leaseRow r (CWorkerID req) (leasedUntil req env n) in
      l = leaseOf id r' (CWorkerID req) (leasedUntil req env n) ∧
      out_db (Claim cfg req env n db) = <[id := r']> (swept cfg req env n db)
  | Err JobsErrNoJob => picked cfg req env n db = None ∧
      out_db (Claim cfg req env n db) = swept cfg req env n db
  | Err _ => True
  end ∧
  (faultless env → validClaim cfg req = true →
   out_res (Claim cfg req env n db) = Err JobsErrNoJob ∨
   is_ok (out_res (Claim cfg req env n db)) = true).
Proof.
  unfold Claim. fold (validClaim cfg req). destruct (validClaim cfg req) eqn:Ev; [|by split].
  unfold bind, guard, transactionRes, transaction, bind, exec, stmt, skipLocked, intervalOf,
    fromRes, ret, throw. simpl. split.
  - destruct (env_fault env n || env_done env n); [by destruct (env_done env n)|]. simpl.
    destruct (env_fault env (n + 1) || env_done env (n + 1));
      [by destruct (env_done env (n + 1))|].
    fold (swept cfg req env n db). fold (picked cfg req env n db).
    destruct (picked cfg req env n db) as [[id r]|] eqn:Ep; simpl;
      destruct (env_commit env _); simpl; eauto 10.
  - intros (Hf & Hc & Hd) _. rewrite !Hf, !Hd. simpl. rewrite !Hf, !Hd. simpl.
    destruct (candidate _ _ _ _ _) as [[id r]|]; simpl; rewrite Hc; simpl; auto.
Qed.

Lemma rowLe_total a b : rowLe a b = false → rowLe b a = true.
Proof.
  unfold rowLe. intros H. breflect_in H. breflect.
  destruct H as [H1 H2]. destruct (decide (r_available_at a.2 = r_available_at b.2)) as [E|E]; [|lia].
  right. split; [done|]. destruct H2 as [?|[H2 H3]]; [done|].
  destruct (decide (r_created_at a.2 = r_created_at b.2)) as [E'|E']; [|lia].
  right. split; [done|]. destruct H3; [done|]. by apply strLe_total.
Qed.

Lemma rowLe_trans a b c : rowLe a b = true → rowLe b c = true → rowLe a c = true.
Proof.
  unfold rowLe. rewrite !orb_true_iff, !andb_true_iff, !orb_true_iff, !andb_true_iff,
    !Z.ltb_lt, !Z.eqb_eq. intros H1 H2.
  destruct H1 as [?|[? [?|[? ?]]]], H2 as [?|[? [?|[? ?]]]]; try lia.
  right. split; [lia|]. right. split; [lia|]. by eapply strLe_trans.
Qed.

Lemma picked_least cfg req env n db id r id' r' :
  picked cfg req env n db = Some (id, r) →
  swept cfg req env n db !! id' = Some r' →
  eligible cfg (CWorkspaceID req) (env_clock env (n + 1)) r' = true →
  env_locked env (n + 1) id' = false → rowLe (id, r) (id', r') = true.
Proof.
  unfold picked, candidate. intros Hp Hr He Hl.
  eapply (argmin_least rowLe rowLe_total rowLe_trans); [exact Hp|].
  apply list_elem_of_filter. simpl. rewrite He, Hl. split; [done|].
  by apply elem_of_map_to_list.
Qed.

Lemma picked_None cfg req env n db :
  picked cfg req env n db = None ↔
  ∀ id r, swept cfg req env n db !! id = Some r →
    env_locked env (n + 1) id = false →
    eligible cfg (CWorkspaceID req) (env_clock env (n + 1)) r = false.
Proof.
  unfold picked, candidate. rewrite argmin_None. split.
  - intros Hn id r Hr Hl. apply not_true_iff_false. intros He.
    assert ((id, r) ∈ filter (λ p : string * Row,
      eligible cfg (CWorkspaceID req) (env_clock env (n + 1)) p.2 &&
      negb (env_locked env (n + 1) p.1) = true) (map_to_list (swept cfg req env n db))) as Hin.
    { apply list_elem_of_filter. simpl. rewrite He, Hl. split; [done|].
      by apply elem_of_map_to_list. }
    rewrite Hn in Hin. by apply elem_of_nil in Hin.
  - intros H. destruct (filter _ _) as [|[id r] l] eqn:E; [done|].
    assert ((id, r) ∈ filter (λ p : string * Row,
      eligible cfg (CWorkspaceID req) (env_clock env (n + 1)) p.2 &&
      negb (env_locked env (n + 1) p.1) = true) (map_to_list (swept cfg req env n db))) as Hin
      by (rewrite E; left).
    apply list_elem_of_filter in Hin as [He Hin%elem_of_map_to_list]. simpl in He.
    breflect_in He. destruct He as [He Hl]. rewrite (H id r) in He; done.
Qed.

(** ** Properties *)

(** C18: the store implements the job lifecycle: whatever calls are made, by
    any worker, with any failures, each row only takes lifecycle steps, no row
    disappears, new rows are fresh validated envelopes and the idempotency key
    stays unique. *)
Theorem store_refines_lifecycle cfg db db' :
  rtc (store_step cfg) db db' → evolves cfg db db'.
Proof. apply store_steps_evolve. Qed.

(** In every reachable table the row invariant holds: fence and attempt
    counter agree and never exceed the attempt limit, a lease has an owner and
    a deadline exactly while leased, a succeeded job carries a receipt of its
    final fence for the enqueued evidence, a failed job carries its failure. *)
Theorem store_invariant cfg db :
  rtc (store_step cfg) ∅ db → store_ok cfg db.
Proof. apply reachable_ok. Qed.

(** Succeeded and failed are final: no later call changes such a row. *)
Theorem terminal_rows_immutable cfg db db' id r :
  db !! id = Some r → r_state r = Succeeded ∨ r_state r = Failed →
  rtc (store_step cfg) db db' → db' !! id = Some r.
Proof.
  intros Hr Ht (H1 & _)%store_steps_evolve. destruct (H1 id r Hr) as (r' & Hr' & Hs).
  by rewrite (jstep_terminal _ _ _ Hs Ht) in Hr'.
Qed.

Lemma superseded_later cfg db db' l r :
  db !! LJobID l = Some r → LFence l < r_fence r →
  rtc (store_step cfg) db db' →
  ∃ r', db' !! LJobID l = Some r' ∧ LFence l < r_fence r'.
Proof.
  intros Hr Hf (H1 & _)%store_steps_evolve. destruct (H1 _ r Hr) as (r' & Hr' & Hs).
  apply jstep_stable in Hs as (_ & _ & _ & _ & Hle & _). exists r'. split; [done|lia].
Qed.

(** C33: fencing: once the fence of a job has moved past a lease (the job was
    claimed again), every later heartbeat, completion or failure report with
    that lease is refused and leaves the table unchanged, for ever and in
    every world. *)
Theorem stale_lease_fenced cfg db db' l r env n d res f :
  db !! LJobID l = Some r → LFence l < r_fence r → rtc (store_step cfg) db db' →
  (out_db (Heartbeat cfg l d env n db') = db' ∧ is_ok (out_res (Heartbeat cfg l d env n db')) = false) ∧
  (out_db (Complete l res env n db') = db' ∧ is_ok (out_res (Complete l res env n db')) = false) ∧
  (out_db (Fail cfg l f env n db') = db' ∧ is_ok (out_res (Fail cfg l f env n db')) = false).
Proof.
  intros Hr Hf Hs. destruct (superseded_later _ _ _ _ _ Hr Hf Hs) as (r' & Hr' & Hf').
  assert (∀ t, holds l t r' = false) as Hh.
  { intros t. apply (holds_superseded l t db' r'); [|done]. intros r0 Hr0. simplify_eq. left. lia. }
  split; [|split].
  - unfold Heartbeat, bind, guard, exec, stmt, intervalOf, ret, throw.
    repeat (case_if; simpl; [|done]). case_if; simpl; [done|]. rewrite Hr', Hh. done.
  - destruct (Complete_run l res env n db') as [[-> Hok]|(r2 & rc & t & Hr2 & Hc & _)].
    + split; [done|]. destruct (out_res _) as [rc|]; [|done].
      destruct (Hok rc eq_refl) as (r2 & ? & _ & _ & ? & _). simplify_eq. lia.
    + destruct Hc as (_ & _ & ? & _). simplify_eq. lia.
  - unfold Fail, bind, guard, stmt, intervalOf, ret, throw.
    repeat (case_if; simpl; [|done]). case_if; simpl; [done|]. case_if; simpl; [done|].
    rewrite Hr', Hh. done.
Qed.

(** What a granted lease means: the claimed job belonged to the workspace
    and was waiting or its lease had expired, had attempts left, and was the
    first such job not locked elsewhere in (available_at, created_at, id)
    order; the lease carries the next fence, which every earlier lease of the
    job is below, and the row is now held by the claiming worker until the
    lease's deadline. *)
Theorem Claim_grants cfg req env n db l :
  out_res (Claim cfg req env n db) = Ok l →
  ∃ r, db !! LJobID l = Some r ∧
    eligible cfg (CWorkspaceID req) (env_clock env (n + 1)) r = true ∧
    LFence l = r_fence r + 1 ∧ LAttempt l = r_attempts r + 1 ∧
    LAttempt l ≤ attemptLimit cfg r ∧ LEnvelope l = r_envelope r ∧
    out_db (Claim cfg req env n db) !! LJobID l =
      Some (leaseRow r (CWorkerID req) (LExpiresAt l)) ∧
    LWorkerID l = CWorkerID req ∧
    (∀ id' r', db !! id' = Some r' → env_locked env (n + 1) id' = false →
       exhausted cfg (CWorkspaceID req) (env_clock env n) r' = false →
       eligible cfg (CWorkspaceID req) (env_clock env (n + 1)) r' = true →
       rowLe (LJobID l, r) (id', r') = true).
Proof.
  intros Hok. pose proof (Claim_run cfg req env n db) as [H _]. rewrite Hok in H.
  destruct H as (_ & id & r & Hp & -> & Hdb). simpl.
  pose proof Hp as Hp'. unfold picked in Hp. apply candidate_Some in Hp as (Hr & He & _).
  pose proof (eligible_claimable _ _ _ _ He) as [_ Hlt]. unfold swept in Hr.
  apply lookup_fmap_Some in Hr as (r0 & Hr0 & Hr). unfold failExhausted in Hr0. case_if_in Hr0.
  { subst r. unfold eligible in He. cbn in He. by rewrite !andb_false_r in He. }
  subst r0. exists r. split_and!; try done; try lia.
  - rewrite Hdb. by rewrite lookup_insert_eq.
  - intros id' r' Hr' Hl Hx He'. eapply picked_least; eauto. unfold swept.
    rewrite lookup_fmap, Hr'. simpl. unfold failExhausted. by rewrite Hx.
Qed.

(** No starvation by the queue itself: in a world without failures a valid
    claim that reports [ErrNoJob] leaves no unlocked job of the workspace that
    could be claimed, and otherwise a lease is granted. *)
Theorem Claim_no_job cfg req env n db :
  faultless env → validClaim cfg req = true →
  (out_res (Claim cfg req env n db) = Err JobsErrNoJob ↔
   ∀ id r, db !! id = Some r → env_locked env (n + 1) id = false →
     eligible cfg (CWorkspaceID req) (env_clock env (n + 1))
       (failExhausted cfg (CWorkspaceID req) (env_clock env n) r) = false) ∧
  (out_res (Claim cfg req env n db) ≠ Err JobsErrNoJob →
   ∃ l, out_res (Claim cfg req env n db) = Ok l).
Proof.
  intros Hok Hv. pose proof (Claim_run cfg req env n db) as [H Ht]. specialize (Ht Hok Hv).
  assert ((∀ id r, db !! id = Some r → env_locked env (n + 1) id = false →
     eligible cfg (CWorkspaceID req) (env_clock env (n + 1))
       (failExhausted cfg (CWorkspaceID req) (env_clock env n) r) = false) ↔
    picked cfg req env n db = None) as ->.
  { rewrite picked_None. unfold swept. split.
    - intros Ha id r (r0 & <- & Hr)%lookup_fmap_Some Hl. by apply (Ha id).
    - intros Ha id r Hr. apply Ha. by rewrite lookup_fmap, Hr. }
  destruct (out_res (Claim cfg req env n db)) as [l|e] eqn:E.
  - destruct H as (_ & id & r & -> & _). split; [done|]. intros _. by exists l.
  - destruct Ht as [[= ->]|?]; [|done]. destruct H as [-> _]. done.
Qed.

(** Completing is exactly-once: after a completion was acknowledged, the
    receipt is stored for good, and the same completion sent again at any later
    time, by the same lease with the same result, returns the same receipt and
    changes nothing. *)
Theorem Complete_exactly_once cfg l res env n db rc db' env' n' :
  out_res (Complete l res env n db) = Ok rc →
  rtc (store_step cfg) (out_db (Complete l res env n db)) db' →
  (∃ r, db' !! LJobID l = Some r ∧ r_state r = Succeeded ∧ r_receipt r = Some rc) ∧
  (∀ rc', out_res (Complete l res env' n' db') = Ok rc' → rc' = rc) ∧
  out_db (Complete l res env' n' db') = db'.
Proof.
  intros Hok Hs.
  assert (∃ r, out_db (Complete l res env n db) !! LJobID l = Some r ∧ r_state r = Succeeded ∧
    r_receipt r = Some rc) as (r & Hr & Hst & Hrc).
  { destruct (Complete_run l res env n db) as [[-> H]|(r & rc' & t & Hr & _ & -> & H)].
    - destruct (H rc Hok) as (r & ? & ? & ? & _). eauto.
    - destruct H as [H|H]; rewrite Hok in H; simplify_eq.
      rewrite lookup_insert_eq. eexists. split; [done|]. by split. }
  destruct (store_steps_evolve _ _ _ Hs) as (H1 & _).
  destruct (H1 _ r Hr) as (r' & Hr' & Hj). rewrite (jstep_terminal _ _ _ Hj) in Hr' by auto.
  split; [eauto|].
  destruct (Complete_run l res env' n' db') as [[-> H]|(r2 & rc' & t & Hr2 & Hc & _)].
  - split; [|done]. intros rc' Hok'. destruct (H rc' Hok') as (r2 & ? & _ & ? & _). by simplify_eq.
  - destruct Hc as (? & _). simplify_eq. congruence.
Qed.

(** ** Enqueue *)

Lemma findKey_unique (db : Table) k id r :
  unique_keys db → db !! id = Some r → rowKey r = k → findKey k db = Some (id, r).
Proof.
  intros Hu Hr Hk. destruct (findKey k db) as [[id' r']|] eqn:E.
  - apply findKey_Some in E as [Hr' Hk']. assert (id' = id) as -> by (eapply Hu; eauto; congruence).
    by simplify_eq.
  - by eapply findKey_None in E.
Qed.

Definition keyTextValid (e : Envelope) : bool :=
  forallb ValidString [EWorkspaceID e; ESourceID e; ERunID e; EKind e; EIdempotencyKey e].

Lemma keyTextValid_key e e' : envelopeKey e = envelopeKey e' → keyTextValid e = keyTextValid e'.
Proof. unfold envelopeKey, keyTextValid. intros [= -> -> -> -> ->]. done. Qed.

(** An acknowledged enqueue has a row under its key with its payload. *)
Lemma Enqueue_ok cfg e env n db a :
  out_res (Enqueue cfg e env n db) = Ok a →
  keyTextValid e = true ∧
  ∃ r, out_db (Enqueue cfg e env n db) !! EnqJobID a = Some r ∧
       rowKey r = envelopeKey e ∧ r_envelope r = coerceEnvelope e.
Proof.
  unfold Enqueue, bind, guard, query, stmt, newID, ret, throw, insertJob. fold (keyTextValid e).
  case_if; [|done]. simpl. case_if; [done|]. destruct (keyTextValid e) eqn:Ek; [|done]. simpl.
  case_if; [done|]. destruct (findKey (envelopeKey e) db) as [[id r]|] eqn:Ef; simpl.
  - case_if; [done|]. rewrite Ef. simpl. case_if; simpl; [|done]. intros [= <-]. split; [done|].
    apply findKey_Some in Ef as [? ?]. by exists r.
  - destruct (db !! env_fresh env n) eqn:El; [done|]. simpl. intros [= <-]. split; [done|].
    exists (newRow e (env_clock env (n + 1))). by rewrite lookup_insert_eq.
Qed.

Lemma Enqueue_existing cfg e env n db id r :
  faultless env → validConfig cfg = true → validateEnvelope cfg e = true →
  keyTextValid e = true → unique_keys db → db !! id = Some r → rowKey r = envelopeKey e →
  out_db (Enqueue cfg e env n db) = db ∧
  out_res (Enqueue cfg e env n db) =
    if r_envelope r ==? coerceEnvelope e
    then Ok {| EnqJobID := id; EnqCreated := false |} else Err JobsErrConflict.
Proof.
  intros (Hf & _ & Hd) Hc Hv Ht Hu Hr Hk.
  unfold Enqueue, bind, guard, query, stmt, newID, ret, throw, insertJob. fold (keyTextValid e).
  rewrite Hv, Ht, (findKey_unique db _ id r Hu Hr Hk), !Hf, !Hd. simpl.
  assert ((EMaxAttempts e <? 1) || (20 <? EMaxAttempts e) = false) as ->.
  { unfold validateEnvelope in Hv. unfold validConfig in Hc.
    apply andb_true_iff in Hv as [[Hv _]%andb_true_iff _]. breflect_in Hv. breflect_in Hc. breflect. lia. }
  simpl. rewrite !Hf, !Hd. simpl. rewrite (findKey_unique db _ id r Hu Hr Hk). simpl.
  by case_if.
Qed.

(** Enqueueing is idempotent: after an acknowledged enqueue, and after any
    later activity on the store, the same key enqueued again creates nothing;
    it returns the same job when the payload is the same and [ErrConflict]
    when it differs. *)
Theorem Enqueue_idempotent cfg e e' env n db a db' env' n' :
  validConfig cfg = true → unique_keys db →
  out_res (Enqueue cfg e env n db) = Ok a →
  rtc (store_step cfg) (out_db (Enqueue cfg e env n db)) db' →
  faultless env' → validateEnvelope cfg e' = true → envelopeKey e' = envelopeKey e →
  out_db (Enqueue cfg e' env' n' db') = db' ∧
  out_res (Enqueue cfg e' env' n' db') =
    if coerceEnvelope e ==? coerceEnvelope e'
    then Ok {| EnqJobID := EnqJobID a; EnqCreated := false |} else Err JobsErrConflict.
Proof.
  intros Hc Hu Hok Hs Hw Hv Hk. apply Enqueue_ok in Hok as (Ht & r & Hr & Hkr & Her).
  destruct (store_steps_evolve _ _ _ Hs) as (H1 & _ & HU).
  destruct (H1 _ r Hr) as (r' & Hr' & Hj). apply jstep_stable in Hj as (Hkr' & Her' & _).
  rewrite <- Her, <- Her'. apply Enqueue_existing; try done.
  - by rewrite (keyTextValid_key _ _ Hk).
  - apply HU. by apply (proj2 (proj2 (Enqueue_evolves cfg e env n db))).
  - congruence.
Qed.

(** ** Retry delay *)

Lemma retryLoop_spec cfg k d :
  0 < d ≤ MaxRetryDelay cfg → MaxRetryDelay cfg < 2 ^ 62 →
  retryLoop cfg k d = Z.min (d * 2 ^ Z.of_nat k) (MaxRetryDelay cfg).
Proof.
  intros Hd Hm. revert d Hd. induction k as [|k IH]; intros d Hd; cbn [retryLoop].
  { rewrite Z.mul_1_r. lia. }
  case_if.
  - rewrite wrap64_id by (unfold int64; lia). rewrite IH by lia.
    rewrite Nat2Z.inj_succ, Z.pow_succ_r by lia.
    assert (0 < 2 ^ Z.of_nat k) by lia. nia.
  - rewrite Nat2Z.inj_succ, Z.pow_succ_r by lia.
    assert (0 < 2 ^ Z.of_nat k) by lia. nia.
Qed.

(** A retry waits exponentially longer up to the configured maximum: for a
    configuration [Open] accepts and a maximum below 2^62 ns, the delay of
    attempt [k] is [min(RetryDelay * 2^(k-1), MaxRetryDelay)], so always between
    [RetryDelay] and [MaxRetryDelay] and never decreasing with the attempt. *)
Theorem retryDelay_exponential cfg attempt :
  validConfig cfg = true → MaxRetryDelay cfg < 2 ^ 62 →
  retryDelay cfg attempt =
    Z.min (RetryDelay cfg * 2 ^ Z.max 0 (attempt - 1)) (MaxRetryDelay cfg) ∧
  RetryDelay cfg ≤ retryDelay cfg attempt ≤ MaxRetryDelay cfg ∧
  retryDelay cfg attempt ≤ retryDelay cfg (attempt + 1).
Proof.
  intros Hc Hm. assert (0 < RetryDelay cfg ≤ MaxRetryDelay cfg) as Hd.
  { unfold validConfig in Hc. breflect_in Hc. lia. }
  assert (∀ a, retryDelay cfg a =
    Z.min (RetryDelay cfg * 2 ^ Z.max 0 (a - 1)) (MaxRetryDelay cfg)) as Heq.
  { intros a. unfold retryDelay. rewrite retryLoop_spec by lia. do 3 f_equal. lia. }
  split; [apply Heq|]. rewrite !Heq.
  assert (2 ^ Z.max 0 (attempt - 1) ≤ 2 ^ Z.max 0 (attempt + 1 - 1))
    by (apply Z.pow_le_mono_r; lia).
  assert (0 < 2 ^ Z.max 0 (attempt - 1)) by lia. nia.
Qed.

(** The bound on the maximum is needed: [Open] accepts a configuration whose
    doubled delay overflows, and the retry is then due in the past. *)
Definition hugeDelays : Config := {|
  DatabaseURL := "postgres://db"; Schema := "aspm"; ApplicationName := "worker";
  MaxConnections := 4; MaxLease := 60000000000; MaxAttempts := 5;
  RetryDelay := 2 ^ 62; MaxRetryDelay := 2 ^ 63 - 1 |}.

Example retryDelay_overflows :
  validConfig hugeDelays = true ∧ retryDelay hugeDelays 2 = - 2 ^ 63.
Proof. vm_compute. done. Qed.

(** ** Witnesses *)

Definition sampleCfg : Config := {|
  DatabaseURL := "postgres://db"; Schema := "aspm"; ApplicationName := "worker";
  MaxConnections := 4; MaxLease := 60000000000; MaxAttempts := 5;
  RetryDelay := 1000000000; MaxRetryDelay := 30000000000 |}.

Definition sampleDigest : string :=
  "sha256:0123456789abcdef0123456789abcdef0123456789abcdef0123456789abcdef".

Definition sampleEnvelope : Envelope := {|
  EVersion := Version; EKind := IntegrityKind; EWorkspaceID := "ws"; ESourceID := "src";
  ERunID := "run"; EBatchID := "batch"; EParserRevision := "p1"; ETraceID := "trace";
  EIdempotencyKey := "key"; EMaxAttempts := 3;
  EEvidence := {| RefWorkspaceID := "ws"; RefBucket := "b"; RefKey := "k";
                  RefSHA256 := sampleDigest; RefSizeBytes := 10 |} |}.

Definition sampleReq : ClaimReq :=
  {| CWorkspaceID := "ws"; CWorkerID := "w1"; CLeaseFor := 10000000 |}.

Definition resultOf {A} (d : A) (r : Res A) : A := match r with Ok a => a | Err _ => d end.

(** Enqueue, claim, and claim again after the first lease has run out. *)
Definition db1 : Table := out_db (Enqueue sampleCfg sampleEnvelope calm 0%nat ∅).
Definition noLease : Lease := leaseOf "" (newRow sampleEnvelope 0) "" 0.
Definition lease1 : Lease := resultOf noLease (out_res (Claim sampleCfg sampleReq calm 2%nat db1)).
Definition db2 : Table := out_db (Claim sampleCfg sampleReq calm 2%nat db1).
Definition db3 : Table := out_db (Claim sampleCfg sampleReq calm 20%nat db2).
Definition row3 : Row := default (newRow sampleEnvelope 0) (db3 !! "id-0").
Definition sampleResult : Result := {| ResSHA256 := sampleDigest; ResSizeBytes := 10 |}.
Definition db4 : Table := out_db (Complete lease1 sampleResult calm 3%nat db2).
Definition receipt1 : Receipt :=
  resultOf {| RcID := ""; RcJobID := ""; RcFence := 0; RcResult := sampleResult; RcCompletedAt := 0 |}
    (out_res (Complete lease1 sampleResult calm 3%nat db2)).
Definition row4 : Row := default (newRow sampleEnvelope 0) (db4 !! "id-0").

Lemma store_refines_lifecycle_witness : evolves sampleCfg ∅ db1.
Proof.
  apply store_refines_lifecycle. apply rtc_once.
  exact (store_step_op sampleCfg ∅ (OpEnqueue sampleEnvelope) calm 0%nat).
Defined.

Lemma store_invariant_witness : store_ok sampleCfg db1.
Proof.
  apply store_invariant. apply rtc_once.
  exact (store_step_op sampleCfg ∅ (OpEnqueue sampleEnvelope) calm 0%nat).
Defined.

Lemma terminal_rows_immutable_witness :
  db4 !! "id-0" = Some row4 ∧ r_state row4 = Succeeded ∧
  runOp sampleCfg (OpClaim sampleReq) calm 20%nat db4 !! "id-0" = Some row4.
Proof.
  assert (db4 !! "id-0" = Some row4) as H by (vm_compute; reflexivity).
  assert (r_state row4 = Succeeded) as Hs by (vm_compute; reflexivity).
  split; [exact H|]. split; [exact Hs|].
  apply (terminal_rows_immutable sampleCfg db4 _ "id-0" row4 H (or_introl Hs)).
  apply rtc_once. constructor.
Defined.

Lemma stale_lease_fenced_witness :
  db3 !! LJobID lease1 = Some row3 ∧ LFence lease1 < r_fence row3 ∧
  (out_db (Heartbeat sampleCfg lease1 1000000 calm 22%nat db3) = db3 ∧
   is_ok (out_res (Heartbeat sampleCfg lease1 1000000 calm 22%nat db3)) = false) ∧
  (out_db (Complete lease1 sampleResult calm 22%nat db3) = db3 ∧
   is_ok (out_res (Complete lease1 sampleResult calm 22%nat db3)) = false) ∧
  (out_db (Fail sampleCfg lease1 attemptLimitFailure calm 22%nat db3) = db3 ∧
   is_ok (out_res (Fail sampleCfg lease1 attemptLimitFailure calm 22%nat db3)) = false).
Proof.
  assert (db3 !! LJobID lease1 = Some row3) as H by (vm_compute; reflexivity).
  assert (LFence lease1 < r_fence row3) as Hf by (vm_compute; reflexivity).
  split; [exact H|]. split; [exact Hf|].
  apply (stale_lease_fenced sampleCfg db3 db3 lease1 row3 calm 22%nat 1000000 sampleResult
    attemptLimitFailure H Hf). apply rtc_refl.
Defined.

Lemma Claim_grants_witness :
  ∃ r, db1 !! LJobID lease1 = Some r ∧
    eligible sampleCfg "ws" (env_clock calm 3%nat) r = true ∧
    LFence lease1 = r_fence r + 1 ∧ LAttempt lease1 = r_attempts r + 1 ∧
    LAttempt lease1 ≤ attemptLimit sampleCfg r ∧ LEnvelope lease1 = r_envelope r ∧
    db2 !! LJobID lease1 = Some (leaseRow r "w1" (LExpiresAt lease1)) ∧
    LWorkerID lease1 = "w1" ∧
    (∀ id' r', db1 !! id' = Some r' → env_locked calm 3%nat id' = false →
       exhausted sampleCfg "ws" (env_clock calm 2%nat) r' = false →
       eligible sampleCfg "ws" (env_clock calm 3%nat) r' = true →
       rowLe (LJobID lease1, r) (id', r') = true).
Proof. apply (Claim_grants sampleCfg sampleReq calm 2%nat db1). vm_compute. reflexivity. Defined.

Lemma Claim_no_job_witness :
  (out_res (Claim sampleCfg sampleReq calm 0%nat ∅) = Err JobsErrNoJob ↔
   ∀ id r, (∅ : Table) !! id = Some r → env_locked calm 1%nat id = false →
     eligible sampleCfg "ws" (env_clock calm 1%nat)
       (failExhausted sampleCfg "ws" (env_clock calm 0%nat) r) = false) ∧
  (out_res (Claim sampleCfg sampleReq calm 0%nat ∅) ≠ Err JobsErrNoJob →
   ∃ l, out_res (Claim sampleCfg sampleReq calm 0%nat ∅) = Ok l).
Proof. apply Claim_no_job; [apply calm_faultless|vm_compute; reflexivity]. Defined.

Lemma Complete_exactly_once_witness :
  (∃ r, db4 !! LJobID lease1 = Some r ∧ r_state r = Succeeded ∧ r_receipt r = Some receipt1) ∧
  (∀ rc', out_res (Complete lease1 sampleResult calm 30%nat db4) = Ok rc' → rc' = receipt1) ∧
  out_db (Complete lease1 sampleResult calm 30%nat db4) = db4.
Proof.
  apply (Complete_exactly_once sampleCfg lease1 sampleResult calm 3%nat db2);
    [vm_compute; reflexivity|apply rtc_refl].
Defined.

Lemma Enqueue_idempotent_witness :
  out_db (Enqueue sampleCfg sampleEnvelope calm 5%nat db1) = db1 ∧
  out_res (Enqueue sampleCfg sampleEnvelope calm 5%nat db1) =
    if coerceEnvelope sampleEnvelope ==? coerceEnvelope sampleEnvelope
    then Ok {| EnqJobID := "id-0"; EnqCreated := false |} else Err JobsErrConflict.
Proof.
  apply (Enqueue_idempotent sampleCfg sampleEnvelope sampleEnvelope calm 0%nat ∅
    {| EnqJobID := "id-0"; EnqCreated := true |}); try (vm_compute; reflexivity).
  - intros i j r1 r2. by rewrite lookup_empty.
  - apply rtc_refl.
  - apply calm_faultless.
Defined.

Lemma retryDelay_exponential_witness :
  retryDelay sampleCfg 4 =
    Z.min (RetryDelay sampleCfg * 2 ^ Z.max 0 (4 - 1)) (MaxRetryDelay sampleCfg) ∧
  RetryDelay sampleCfg ≤ retryDelay sampleCfg 4 ≤ MaxRetryDelay sampleCfg ∧
  retryDelay sampleCfg 4 ≤ retryDelay sampleCfg (4 + 1).
Proof. apply retryDelay_exponential; vm_compute; reflexivity. Defined.
