(* ===== verification/Schema.v ===== *)
(** * internal/app: the database of the control plane

    One record field per table the modelled handlers touch; a table is a map
    from its primary key to its row.  Rows group the columns that change
    together: what an import or a finding is (never updated), the state of its
    queue entry, the source projection, the decision a person made.

    Instants are microseconds; a NULL is [None].  Request strings come from
    json.Unmarshal and are valid UTF-8, so text parameters are accepted by the
    server unless a CHECK refuses them. *)
From S2P Require Import Prelude GoLib Tx ReportAdapter.
Local Open Scope Z_scope.

(** ** Identity and membership *)

Record User := { UserID : string; UserName : string; UserEmail : string }.

Record UserRow := { u_name : string; u_email : string; u_password_hash : option string;
                    u_auth_method : string; u_created_at : Z }.
Record WorkspaceRow := { w_name : string; w_created_at : Z; w_notification_policy_epoch : Z }.
Record BootstrapRow := { b_user_id : string; b_workspace_id : string; b_enrolled_at : Z }.
Record SessionRow := { s_user_id : string; s_created_at : Z; s_expires_at : Z;
                       s_revoked_at : option Z }.
Record AssetRow := { a_workspace_id : string; a_name : string; a_kind : string;
                     a_environment : string; a_criticality : string; a_tags : list string;
                     a_owner_id : option string; a_created_at : Z }.

(** Where archived bytes went: archive_key, archive_digest, archive_size and
    archived_at, NULL together. *)
Record ArchiveRef := { ar_key : string; ar_digest : string; ar_size : Z; ar_at : Z }.

(** The columns retention keeps for an event of the history tables. *)
Record HistoryDetail := {
  dt_availability : string; dt_revision : Z; dt_archive : option ArchiveRef }.
Definition freshDetail : HistoryDetail :=
  {| dt_availability := "available"; dt_revision := 1; dt_archive := None |}.

(** ** Imports *)

Record Scope := { ScopeID : string; ScopeRevision : string; ScopeBranch : string }.
#[export] Instance Scope_eq_dec : EqDecision Scope.
Proof. solve_decision. Defined.

#[export] Instance Mapping_eq_dec : EqDecision Mapping.
Proof. solve_decision. Defined.

Inductive istate := IQueued | IProcessing | ISucceeded | IFailed.
#[export] Instance istate_eq_dec : EqDecision istate.
Proof. solve_decision. Defined.

(** The columns written at intake and never again. *)
Record ImportMeta := {
  i_run_id : string; i_workspace_id : string; i_asset_id : string; i_source_id : string;
  i_scan_id : string; i_scope : Scope; i_format : string; i_mapping : Mapping;
  i_source_scan_at : option Z; i_collected_at : Z; i_imported_at : Z; i_source_status : string;
  i_scan_kind : string; i_completeness : string; i_report_digest : string; i_report_key : string;
  i_report_size : Z; i_metadata_digest : string; i_submitted_by : option string }.

(** The columns of the queue entry. *)
Record ImportJob := {
  i_state : istate; i_observation_count : Z; i_failure_code : option string;
  i_failure_message : option string; i_worker_id : option string; i_fence : Z; i_attempts : Z;
  i_lease_until : option Z; i_available_at : Z }.

(** The columns the evidence reader and retention keep. *)
Record ImportEvidence := {
  i_evidence_availability : string; i_evidence_revision : Z; i_retention_transition : option string;
  i_evidence_expired_at : option Z }.

Record ImportRow := { i_meta : ImportMeta; i_job : ImportJob; i_evidence : ImportEvidence }.

(** ** Findings *)

(** The columns of [sameScope] in reconcile.go. *)
Record ScopeKey := { k_workspace_id : string; k_asset_id : string; k_source_id : string;
                     k_scope : Scope }.
#[export] Instance ScopeKey_eq_dec : EqDecision ScopeKey.
Proof. solve_decision. Defined.
#[export] Instance ScopeKey_countable : Countable ScopeKey.
Proof.
  refine (inj_countable'
    (λ k, (k_workspace_id k, k_asset_id k, k_source_id k,
           ScopeID (k_scope k), ScopeRevision (k_scope k), ScopeBranch (k_scope k)))
    (λ '(w, a, s, i, r, b), {| k_workspace_id := w; k_asset_id := a; k_source_id := s;
       k_scope := {| ScopeID := i; ScopeRevision := r; ScopeBranch := b |} |}) _).
  by intros [? ? ? []].
Defined.

(** What the latest authoritative observation says. *)
Record Projection := {
  p_title : string; p_description : string; p_remediation : string; p_severity : string;
  p_evidence_text : string; p_source_label : string; p_source_scan_at : option Z;
  p_collected_at : Z; p_imported_at : Z; p_source_state : string; p_content_digest : string }.

(** The change lifecycle of the projection. *)
Record Change := { c_kind : string; c_at : option Z; c_run_id : string; c_revision : Z }.

(** What a person decided. *)
Record DecisionCols := {
  d_owner_id : option string; d_workflow_state : string; d_disposition : string;
  d_accepted_risk_expires_at : option Z; d_decision_revision : Z }.

Record FindingRow := {
  f_scope : ScopeKey; f_identity_key : string; f_first_observed_at : Z;
  f_projection : Projection; f_candidate_uri : string; f_candidate_line : Z;
  f_change : Change; f_source_freshness_at : option Z; f_decision : DecisionCols;
  f_evidence_revision : Z }.

Definition f_workspace_id (f : FindingRow) : string := k_workspace_id (f_scope f).
Definition f_asset_id (f : FindingRow) : string := k_asset_id (f_scope f).
Definition f_source_id (f : FindingRow) : string := k_source_id (f_scope f).

Record Observation := {
  o_id : string; o_run_id : string; o_source_id : string; o_scan_id : string; o_scope : Scope;
  o_source_scan_at : option Z; o_source_finding_id : string; o_source_severity : string;
  o_normalized_severity : string; o_source_location : Location; o_impact : string;
  o_remediation : string; o_unmapped : list (string * JSON); o_evidence_digest : string;
  o_change_kind : string; o_change_reasons : list string }.

(** The content of an observation: [data] while it is available, afterwards a
    [summary] with the archived copy named by [oe_archive]. *)
Record ObservationEvidence := {
  oe_data : option Observation; oe_summary : option Observation; oe_availability : string;
  oe_revision : Z; oe_archive : option ArchiveRef; oe_expired_at : option Z; oe_transition : option string }.
Definition hotEvidence (o : Observation) : ObservationEvidence := {|
  oe_data := Some o; oe_summary := None; oe_availability := "available"; oe_revision := 1;
  oe_archive := None; oe_expired_at := None; oe_transition := None |}.

Record ObservationRow := { ob_workspace_id : string; ob_finding_id : string; ob_run_id : string;
                           ob_ordinal : Z; ob_evidence : ObservationEvidence }.

(** The queue entry of a change event that waits for the notification policies. *)
Inductive cstate := CPending | CProcessing | CEvaluated.
#[export] Instance cstate_eq_dec : EqDecision cstate.
Proof. solve_decision. Defined.
Record ChangeJob := { ce_state : cstate; ce_worker_id : option string; ce_fence : Z; ce_lease_until : option Z }.
Definition pendingChange : ChangeJob :=
  {| ce_state := CPending; ce_worker_id := None; ce_fence := 0; ce_lease_until := None |}.

Record ChangeEventRow := {
  ce_workspace_id : string; ce_finding_id : string; ce_policy_epoch : Z; ce_title : string;
  ce_severity : string; ce_asset_name : string; ce_change_kind : string; ce_change_revision : Z;
  ce_change_at : Z; ce_job : ChangeJob; ce_detail : HistoryDetail }.

Record NoteRow := { n_workspace_id : string; n_finding_id : string; n_author_id : string;
                    n_text : string; n_created_at : Z }.

(** ** Decisions *)

Record FindingDecision := {
  OwnerID : option string; WorkflowState : string; Disposition : string;
  AcceptedRiskExpiresAt : option Z; DispositionScope : string;
  SuppressionExpiresAt : option Z; DispositionRationale : string }.
#[export] Instance FindingDecision_eq_dec : EqDecision FindingDecision.
Proof. solve_decision. Defined.

Record ApprovalRow := {
  ap_workspace_id : string; ap_finding_id : string; ap_decision_revision : Z; ap_actor_id : string;
  ap_disposition : string; ap_scope_kind : string; ap_scope_value : string; ap_rationale : string;
  ap_expires_at : option Z; ap_created_at : Z }.

Record DecisionEventRow := {
  ev_workspace_id : string; ev_finding_id : string; ev_decision_revision : Z; ev_actor_id : string;
  ev_action : string; ev_rationale : string; ev_changed_fields : list string;
  ev_before : FindingDecision; ev_after : FindingDecision; ev_created_at : Z; ev_detail : HistoryDetail }.

(** ** Correlations *)

Record CorrelationRow := {
  g_workspace_id : string; g_primary_finding_id : string; g_active : bool; g_revision : Z;
  g_created_by : string; g_created_at : Z; g_updated_at : Z }.

Record MemberRow := {
  m_workspace_id : string; m_correlation_id : string; m_finding_id : string; m_ordinal : Z;
  m_original_decision : FindingDecision; m_added_at : Z; m_added_by : string;
  m_released : option (Z * string) }.

Record CorrelationEventRow := {
  x_workspace_id : string; x_correlation_id : string; x_sequence : Z; x_event_type : string;
  x_actor_id : string; x_rationale : string; x_idempotency_key : string;
  x_binding_digest : list N; x_before_state : JSON; x_after_state : JSON; x_created_at : Z;
  x_detail : HistoryDetail }.

(** ** Policies created with a workspace *)

Record RetentionPolicyRow := {
  rp_revision : Z; rp_hot_history_days : Z; rp_raw_report_days : Z;
  rp_archived_evidence_days : Z; rp_audit_days : Z; rp_updated : option (string * Z) }.

Record SLAPolicyRow := {
  sla_critical_days : Z; sla_high_days : Z; sla_medium_days : Z; sla_low_days : Z;
  sla_info_days : Z; sla_revision : Z; sla_approved_by : option (string * string);
  sla_rationale : string; sla_created_at : Z; sla_updated_at : Z }.

(** ** Saved views *)

Record WorkViewRow := {
  v_workspace_id : string; v_user_id : string; v_name : string; v_query : string; v_sort : string;
  v_revision : Z; v_created_at : Z; v_updated_at : Z }.

(** ** Posture reports and their snapshots (reports.go, report_snapshots.go)

    The [time.Time]s of a report, and of its JSON form, keep nanoseconds; every
    timestamptz column keeps microseconds. *)
Record PostureTotals := {
  TotalAssets : Z; TotalFindings : Z; OpenFindings : Z; AcceptedRisk : Z; ExpiredAcceptedRisk : Z;
  Suppressed : Z; ExpiredSuppression : Z; FalsePositive : Z; InferredResolved : Z; VerifiedResolved : Z }.
Record SeverityCounts := { Critical : Z; High : Z; Medium : Z; Low : Z; Info : Z }.
Record PostureCoverage := {
  ScannedAssets : Z; UnscannedAssets : Z; StaleAssets : Z; UnknownFreshnessAssets : Z;
  FreshnessWindowDays : Z }.
Record FreshnessWindow := { WindowFrom : Z; WindowTo : Z; WindowDays : Z }.
Record PostureReport := {
  ReportWorkspaceID : string; ReportAsOf : Z; ReportTotals : PostureTotals;
  ReportBySeverity : SeverityCounts; ReportCoverage : PostureCoverage; ReportWindow : FreshnessWindow;
  ReportVerification : string * string }.

(** A row of a report queue: what was asked for, and the queue entry with the
    result of type [R] once it succeeded.  The paired columns of a failure (and
    of an artifact) are NULL together by the tables' CHECKs. *)
Record QueueJob (R : Type) := mkQueueJob {
  q_state : istate; q_result : option R; q_completed_at : option Z; q_failure : option (string * string);
  q_worker_id : option string; q_fence : Z; q_attempts : Z; q_lease_until : option Z; q_available_at : Z }.
Arguments mkQueueJob {R}.
Arguments q_state {R}.
Arguments q_result {R}.
Arguments q_completed_at {R}.
Arguments q_failure {R}.
Arguments q_worker_id {R}.
Arguments q_fence {R}.
Arguments q_attempts {R}.
Arguments q_lease_until {R}.
Arguments q_available_at {R}.
Record QueueRow (A R : Type) := mkQueueRow { q_meta : A; q_job : QueueJob R }.
Arguments mkQueueRow {A R}.
Arguments q_meta {A R}.
Arguments q_job {A R}.

Record SnapshotMeta := {
  rs_workspace_id : string; rs_name : string; rs_requested_by : string; rs_freshness_days : Z;
  rs_created_at : Z }.
Abbreviation SnapshotRow := (QueueRow SnapshotMeta PostureReport).

Record ExportMeta := {
  re_workspace_id : string; re_snapshot_id : string; re_requested_by : string; re_format : string;
  re_idempotency_key : string; re_created_at : Z }.
Record ExportArtifact := { re_content : list N; re_content_digest : string; re_content_size : Z }.
Abbreviation ExportRow := (QueueRow ExportMeta ExportArtifact).

(** ** Integration connections and deliveries (remediation_*.go)

    Targets are jsonb columns; a Go map that may be nil is an [option]. *)
Record JiraTarget := {
  CredentialType : string; CloudID : string; APIBase : string; SiteOrigin : string;
  Project : string; IssueType : string; FieldMappings : option (gmap string string) }.
#[export] Instance JiraTarget_eq_dec : EqDecision JiraTarget.
Proof. solve_decision. Defined.
Record TeamsMetadata := {
  WorkflowOrigin : string; ChannelType : string; OwnershipAcknowledged : bool }.
#[export] Instance TeamsMetadata_eq_dec : EqDecision TeamsMetadata.
Proof. solve_decision. Defined.
Record TeamsDestination := { DestinationName : string; DestinationTeams : TeamsMetadata }.
#[export] Instance TeamsDestination_eq_dec : EqDecision TeamsDestination.
Proof. solve_decision. Defined.
Record WebhookTarget := { Origin : string; WebhookPath : string; Signature : string }.
#[export] Instance WebhookTarget_eq_dec : EqDecision WebhookTarget.
Proof. solve_decision. Defined.

Record ConnectionRow := {
  cn_workspace_id : string; cn_profile : string; cn_name : string; cn_channel : string;
  cn_ciphertext : list N; cn_enabled : bool; cn_revision : Z; cn_created_at : Z; cn_updated_at : Z;
  cn_jira : option JiraTarget; cn_teams : option TeamsMetadata; cn_webhook : option WebhookTarget }.

Record FindingNotification := {
  PayloadTitle : string; PayloadBody : string; DeepLink : string; PayloadFields : option (gmap string string) }.
#[export] Instance FindingNotification_eq_dec : EqDecision FindingNotification.
Proof. solve_decision. Defined.

(** What a delivery is to send, where, and on whose behalf. *)
Record DeliveryIntent := {
  dl_workspace_id : string; dl_finding_id : string; dl_connection_id : string;
  dl_connection_revision : Z; dl_profile : string; dl_channel : string; dl_requested_by : string;
  dl_payload : FindingNotification; dl_jira : option JiraTarget;
  dl_destination : option TeamsDestination; dl_webhook : option WebhookTarget;
  dl_trigger_kind : string; dl_policy_id : option string; dl_policy_revision : option Z;
  dl_finding_change_revision : option Z }.

Inductive dstate :=
  | DQueued | DDispatching | DConfirmed | DAccepted | DBlocked | DFailed | DRateLimited | DUncertain.
#[export] Instance dstate_eq_dec : EqDecision dstate.
Proof. solve_decision. Defined.

Record FindingDeliveryReceipt := { RemoteID : string; RemoteURL : string }.
Record FindingDeliveryFailure := {
  DeliveryCode : string; NativeCode : string; HTTPStatus : Z; RetryAfterSeconds : Z;
  DeliveryRetryable : bool; Stage : string; MissingFields : list string }.

(** The progress of a delivery. *)
Record DeliveryJob := {
  dl_state : dstate; dl_dispatch_started_at : option Z; dl_completed_at : option Z;
  dl_worker_id : option string; dl_fence : Z; dl_lease_until : option Z;
  dl_receipt : option FindingDeliveryReceipt; dl_failure : option FindingDeliveryFailure;
  dl_create_attempted_at : option Z }.

(** The columns written when the delivery is queued. *)
Record DeliveryMeta := {
  dl_intent : DeliveryIntent; dl_idempotency_key : string; dl_binding_digest : list N;
  dl_approval_ref : string; dl_created_at : Z }.
Record DeliveryRow := { dl_meta : DeliveryMeta; dl_job : DeliveryJob }.

(** ** Notification policies (notification_policies.go)

    The terms of a policy, the columns that notification_policies and each row
    of notification_policy_revisions share ([pt_approved_by] is the revision's
    actor_id, [pt_updated_at] its created_at). *)
Record PolicyTerms := {
  pt_name : string; pt_connection_id : string; pt_connection_profile : string;
  pt_connection_revision : Z; pt_enabled : bool; pt_change_kinds : list string;
  pt_minimum_severity : string; pt_revision : Z; pt_epoch : Z; pt_approved_by : string;
  pt_rationale : string; pt_updated_at : Z }.
Record PolicyRow := { np_workspace_id : string; np_terms : PolicyTerms; np_created_at : Z }.
Record PolicyRevisionRow := {
  nr_workspace_id : string; nr_policy_id : string; nr_terms : PolicyTerms; nr_actor_name : string;
  nr_detail : HistoryDetail }.
Record PolicyEventRow := {
  pe_workspace_id : string; pe_policy_id : string; pe_policy_revision : Z; pe_finding_id : string;
  pe_finding_change_revision : Z; pe_outcome : string; pe_delivery_id : option string; pe_created_at : Z;
  pe_detail : HistoryDetail }.

(** ** Verification (verification.go)

    What evidence, approval and job are bound to: the columns of the foreign
    keys between the three tables. *)
Record VerificationBinding := {
  vb_workspace_id : string; vb_finding_id : string; vb_evidence_id : string; vb_method : string;
  vb_environment_id : string; vb_scope_revision : string; vb_finding_evidence_revision : Z;
  vb_evidence_digest : string }.
#[export] Instance VerificationBinding_eq_dec : EqDecision VerificationBinding.
Proof. solve_decision. Defined.

Record VerificationEvidenceRow := {
  ve_workspace_id : string; ve_finding_id : string; ve_submitted_by : string; ve_method : string;
  ve_fixture_schema : string; ve_environment_id : string; ve_scope_revision : string;
  ve_finding_evidence_revision : Z; ve_content : list N; ve_content_digest : string; ve_content_size : Z;
  ve_created_at : Z }.

(** [va_revoked]: when, by whom and why, NULL together. *)
Record VerificationApprovalRow := {
  va_binding : VerificationBinding; va_approved_by : string; va_rationale : string; va_created_at : Z;
  va_expires_at : Z; va_revoked : option (Z * string * string) }.

Inductive vstate := VQueued | VProcessing | VSucceeded | VBlocked | VFailed | VCancelled.
#[export] Instance vstate_eq_dec : EqDecision vstate.
Proof. solve_decision. Defined.

Record VerificationMeta := {
  vj_binding : VerificationBinding; vj_approval_id : string; vj_requested_by : string;
  vj_idempotency_key : string; vj_created_at : Z }.
(** [vj_reproduced]: the outcome, reproduced or not-reproduced. *)
Record VerificationEntry := {
  vj_state : vstate; vj_reproduced : option bool; vj_close_finding : bool; vj_false_positive : bool;
  vj_failure : option (string * string); vj_completed_at : option Z; vj_worker_id : option string;
  vj_fence : Z; vj_attempts : Z; vj_lease_until : option Z; vj_available_at : Z }.
Record VerificationRow := { vj_meta : VerificationMeta; vj_entry : VerificationEntry }.

(** ** Retention (retention.go, retention_runs.go, archive_publications.go)

    [h_released]: by whom, when and why, NULL together. *)
Record HoldRow := {
  h_workspace_id : string; h_resource_kind : string; h_resource_id : string; h_reason : string;
  h_revision : Z; h_created_by : string; h_created_at : Z; h_released : option (string * Z * string) }.

Record RetentionClassSummary := {
  SumClass : string; SumAction : string; SumRetainDays : Z; SumTotalCount : Z; SumEligibleCount : Z;
  SumProtectedCount : Z; SumSizeBytes : Z }.

Inductive pvstate := PvReady | PvApproved | PvStale.
#[export] Instance pvstate_eq_dec : EqDecision pvstate.
Proof. solve_decision. Defined.
(** [pv_approval]: by whom, when, why, under which key and binding, NULL together. *)
Record PreviewRow := {
  pv_workspace_id : string; pv_revision : Z; pv_state : pvstate; pv_policy_revision : Z;
  pv_snapshot_digest : string; pv_summary : list RetentionClassSummary; pv_created_by : string;
  pv_created_at : Z; pv_expires_at : Z; pv_approval : option (string * Z * string * string * string) }.
(** [pi_object]: key, digest and revision of an archive object. *)
Record RetentionPreviewItem := {
  pi_class : string; pi_kind : string; pi_resource_id : string; pi_action : string; pi_observed_at : Z;
  pi_size : Z; pi_reasons : list string; pi_object : option (string * string * Z) }.
Record PreviewItemRow := { pi_workspace_id : string; pi_item : RetentionPreviewItem }.

(** What a run was asked to do: apply a preview, or restore an observation. *)
Inductive RunOperation := ApplyPreview (preview : string) | RestoreObservation (observation : string).
Inductive rrstate := RQueued | RProcessing | RSucceeded | RPartial | RFailed.
#[export] Instance rrstate_eq_dec : EqDecision rrstate.
Proof. solve_decision. Defined.
Record RunMeta := {
  rr_workspace_id : string; rr_operation : RunOperation; rr_requested_by : string; rr_rationale : string;
  rr_idempotency_key : string; rr_binding_digest : string; rr_created_at : Z }.
Record RunJob := {
  rr_state : rrstate; rr_completed_at : option Z; rr_available_at : Z; rr_worker_id : option string;
  rr_fence : Z; rr_attempts : Z; rr_lease_until : option Z; rr_failure : option (string * string) }.
Record RunRow := { rr_meta : RunMeta; rr_job : RunJob }.

Inductive ristate := RiQueued | RiProcessing | RiSucceeded | RiProtected | RiMissing | RiCorrupt | RiFailed.
#[export] Instance ristate_eq_dec : EqDecision ristate.
Proof. solve_decision. Defined.
Record RunItemMeta := {
  ri_workspace_id : string; ri_run_id : string; ri_ordinal : Z; ri_class : string; ri_kind : string;
  ri_resource_id : string; ri_action : string; ri_object : option (string * string * Z) }.
Record RunItemJob := {
  ri_state : ristate; ri_reasons : list string; ri_outcome : string; ri_attempts : Z;
  ri_failure : option (string * string); ri_started_at : option Z; ri_completed_at : option Z }.
Record RunItemRow := { ri_meta : RunItemMeta; ri_job : RunItemJob }.

Inductive pbstate := PbPublishing | PbReferenced | PbOrphan | PbDeleted.
#[export] Instance pbstate_eq_dec : EqDecision pbstate.
Proof. solve_decision. Defined.
Record PublicationRow := {
  pb_workspace_id : string; pb_object_key : string; pb_resource_kind : string; pb_resource_id : string;
  pb_object_digest : string; pb_object_size : Z; pb_state : pbstate; pb_revision : Z; pb_created_at : Z;
  pb_updated_at : Z; pb_referenced_at : option Z; pb_deleted_at : option Z }.
#[export] Instance PublicationRow_eq_dec : EqDecision PublicationRow.
Proof. solve_decision. Defined.

(** ** Source collection (source_schema.go, source_types.go)

    [so_target] is an Azure DevOps repository, [so_repository_id] the repository
    the connection is pinned to once it was collected. *)
Record AzureDevOpsTarget := { Organization : string; TargetProjectID : string; TargetRepositoryID : string }.
#[export] Instance AzureDevOpsTarget_eq_dec : EqDecision AzureDevOpsTarget.
Proof. solve_decision. Defined.
Record AzureDevOpsSelection := { BuildID : string; ArtifactName : string; ArtifactPath : string }.
#[export] Instance AzureDevOpsSelection_eq_dec : EqDecision AzureDevOpsSelection.
Proof. solve_decision. Defined.
Record SourceRow := {
  so_workspace_id : string; so_profile : string; so_name : string; so_repository : string; so_enabled : bool;
  so_ciphertext : list N; so_revision : Z; so_repository_id : option string; so_created_at : Z; so_updated_at : Z;
  so_target : option AzureDevOpsTarget }.

Inductive sstate := SQueued | SCollecting | SSucceeded | SPartial | SBlocked | SFailed.
#[export] Instance sstate_eq_dec : EqDecision sstate.
Proof. solve_decision. Defined.
(** What a collection was requested for, never changed; and how far it is. *)
Record CollectionIntent := {
  sc_workspace_id : string; sc_source_id : string; sc_profile : string; sc_connection_revision : Z;
  sc_repository : string; sc_requested_by : string; sc_target : option AzureDevOpsTarget;
  sc_selection : option AzureDevOpsSelection }.
Record CollectionMeta := {
  sc_intent : CollectionIntent; sc_idempotency_key : string; sc_binding_digest : list N; sc_created_at : Z }.
Record CollectionJob := {
  sc_state : sstate; sc_complete : bool; sc_asset_id : option string; sc_repository_id : option string;
  sc_record_count : Z; sc_gaps : list string; sc_collected_at : option Z; sc_completed_at : option Z;
  sc_failure : option FindingDeliveryFailure; sc_worker_id : option string; sc_fence : Z; sc_lease_until : option Z }.
Record CollectionRow := { sc_meta : CollectionMeta; sc_job : CollectionJob }.

(** evidence.Ref *)
Record evidenceRef := {
  erWorkspaceID : string; erBucket : string; erKey : string; erSHA256 : string; erSizeBytes : Z }.
#[export] Instance evidenceRef_eq_dec : EqDecision evidenceRef.
Proof. solve_decision. Defined.
Record SourceRecordRow := {
  sr_workspace_id : string; sr_collection_id : string; sr_ordinal : Z; sr_kind : string; sr_external_id : string;
  sr_parent_id : string; sr_native_run_id : string; sr_state : string; sr_severity : string; sr_location : string;
  sr_raw_url : string; sr_source_scan_at : option Z; sr_source_updated_at : option Z; sr_evidence : evidenceRef }.

(** ** The database *)
Record DB := mkDB {
  t_users : gmap string UserRow;
  t_workspaces : gmap string WorkspaceRow;
  t_memberships : gmap (string * string) string;
  t_bootstrap : option BootstrapRow;
  t_sessions : gmap string SessionRow;
  t_throttle : gmap Z (Z * Z);
  t_assets : gmap string AssetRow;
  t_imports : gmap string ImportRow;
  t_coverage : gmap ScopeKey Z;
  t_findings : gmap string FindingRow;
  t_observations : gmap string ObservationRow;
  t_changeEvents : gmap string ChangeEventRow;
  t_notes : gmap string NoteRow;
  t_approvals : gmap string ApprovalRow;
  t_decisionEvents : gmap string DecisionEventRow;
  t_correlations : gmap string CorrelationRow;
  t_members : gmap string MemberRow;
  t_correlationEvents : gmap string CorrelationEventRow;
  t_retentionPolicies : gmap string RetentionPolicyRow;
  t_slaPolicies : gmap string SLAPolicyRow;
  t_slaRevisions : gmap (string * Z) SLAPolicyRow;
  t_workViews : gmap string WorkViewRow;
  t_snapshots : gmap string SnapshotRow;
  t_reportExports : gmap string ExportRow;
  t_connections : gmap string ConnectionRow;
  t_deliveries : gmap string DeliveryRow;
  t_policies : gmap string PolicyRow;
  t_policyRevisions : gmap string PolicyRevisionRow;
  t_policyEvents : gmap string PolicyEventRow;
  t_jiraEffects : gmap (string * string * string) (string * Z);
  t_verificationEvidence : gmap string VerificationEvidenceRow;
  t_verificationApprovals : gmap string VerificationApprovalRow;
  t_verificationJobs : gmap string VerificationRow;
  t_holds : gmap string HoldRow;
  t_previews : gmap string PreviewRow;
  t_previewItems : gmap (string * Z) PreviewItemRow;
  t_retentionRuns : gmap string RunRow;
  t_runItems : gmap string RunItemRow;
  t_publications : gmap string PublicationRow;
  t_sources : gmap string SourceRow;
  t_collections : gmap string CollectionRow;
  t_repositoryAssets : gmap (string * string * string) string;
  t_sourceRecords : gmap string SourceRecordRow }.

Definition with_users (x : gmap string UserRow) (d : DB) : DB :=
  mkDB x (t_workspaces d) (t_memberships d) (t_bootstrap d) (t_sessions d) (t_throttle d)
    (t_assets d) (t_imports d) (t_coverage d) (t_findings d) (t_observations d)
    (t_changeEvents d) (t_notes d) (t_approvals d) (t_decisionEvents d) (t_correlations d)
    (t_members d) (t_correlationEvents d) (t_retentionPolicies d) (t_slaPolicies d)
    (t_slaRevisions d) (t_workViews d) (t_snapshots d) (t_reportExports d) (t_connections d)
    (t_deliveries d) (t_policies d) (t_policyRevisions d) (t_policyEvents d) (t_jiraEffects d)
    (t_verificationEvidence d) (t_verificationApprovals d) (t_verificationJobs d) (t_holds d)
    (t_previews d) (t_previewItems d) (t_retentionRuns d) (t_runItems d) (t_publications d)
    (t_sources d) (t_collections d) (t_repositoryAssets d) (t_sourceRecords d).
Definition with_workspaces (x : gmap string WorkspaceRow) (d : DB) : DB :=
  mkDB (t_users d) x (t_memberships d) (t_bootstrap d) (t_sessions d) (t_throttle d) (t_assets
    d) (t_imports d) (t_coverage d) (t_findings d) (t_observations d) (t_changeEvents d)
    (t_notes d) (t_approvals d) (t_decisionEvents d) (t_correlations d) (t_members d)
    (t_correlationEvents d) (t_retentionPolicies d) (t_slaPolicies d) (t_slaRevisions d)
    (t_workViews d) (t_snapshots d) (t_reportExports d) (t_connections d) (t_deliveries d)
    (t_policies d) (t_policyRevisions d) (t_policyEvents d) (t_jiraEffects d)
    (t_verificationEvidence d) (t_verificationApprovals d) (t_verificationJobs d) (t_holds d)
    (t_previews d) (t_previewItems d) (t_retentionRuns d) (t_runItems d) (t_publications d)
    (t_sources d) (t_collections d) (t_repositoryAssets d) (t_sourceRecords d).
Definition with_memberships (x : gmap (string * string) string) (d : DB) : DB :=
  mkDB (t_users d) (t_workspaces d) x (t_bootstrap d) (t_sessions d) (t_throttle d) (t_assets
    d) (t_imports d) (t_coverage d) (t_findings d) (t_observations d) (t_changeEvents d)
    (t_notes d) (t_approvals d) (t_decisionEvents d) (t_correlations d) (t_members d)
    (t_correlationEvents d) (t_retentionPolicies d) (t_slaPolicies d) (t_slaRevisions d)
    (t_workViews d) (t_snapshots d) (t_reportExports d) (t_connections d) (t_deliveries d)
    (t_policies d) (t_policyRevisions d) (t_policyEvents d) (t_jiraEffects d)
    (t_verificationEvidence d) (t_verificationApprovals d) (t_verificationJobs d) (t_holds d)
    (t_previews d) (t_previewItems d) (t_retentionRuns d) (t_runItems d) (t_publications d)
    (t_sources d) (t_collections d) (t_repositoryAssets d) (t_sourceRecords d).
Definition with_bootstrap (x : option BootstrapRow) (d : DB) : DB :=
  mkDB (t_users d) (t_workspaces d) (t_memberships d) x (t_sessions d) (t_throttle d)
    (t_assets d) (t_imports d) (t_coverage d) (t_findings d) (t_observations d)
    (t_changeEvents d) (t_notes d) (t_approvals d) (t_decisionEvents d) (t_correlations d)
    (t_members d) (t_correlationEvents d) (t_retentionPolicies d) (t_slaPolicies d)
    (t_slaRevisions d) (t_workViews d) (t_snapshots d) (t_reportExports d) (t_connections d)
    (t_deliveries d) (t_policies d) (t_policyRevisions d) (t_policyEvents d) (t_jiraEffects d)
    (t_verificationEvidence d) (t_verificationApprovals d) (t_verificationJobs d) (t_holds d)
    (t_previews d) (t_previewItems d) (t_retentionRuns d) (t_runItems d) (t_publications d)
    (t_sources d) (t_collections d) (t_repositoryAssets d) (t_sourceRecords d).
Definition with_sessions (x : gmap string SessionRow) (d : DB) : DB :=
  mkDB (t_users d) (t_workspaces d) (t_memberships d) (t_bootstrap d) x (t_throttle d)
    (t_assets d) (t_imports d) (t_coverage d) (t_findings d) (t_observations d)
    (t_changeEvents d) (t_notes d) (t_approvals d) (t_decisionEvents d) (t_correlations d)
    (t_members d) (t_correlationEvents d) (t_retentionPolicies d) (t_slaPolicies d)
    (t_slaRevisions d) (t_workViews d) (t_snapshots d) (t_reportExports d) (t_connections d)
    (t_deliveries d) (t_policies d) (t_policyRevisions d) (t_policyEvents d) (t_jiraEffects d)
    (t_verificationEvidence d) (t_verificationApprovals d) (t_verificationJobs d) (t_holds d)
    (t_previews d) (t_previewItems d) (t_retentionRuns d) (t_runItems d) (t_publications d)
    (t_sources d) (t_collections d) (t_repositoryAssets d) (t_sourceRecords d).
Definition with_throttle (x : gmap Z (Z * Z)) (d : DB) : DB :=
  mkDB (t_users d) (t_workspaces d) (t_memberships d) (t_bootstrap d) (t_sessions d) x
    (t_assets d) (t_imports d) (t_coverage d) (t_findings d) (t_observations d)
    (t_changeEvents d) (t_notes d) (t_approvals d) (t_decisionEvents d) (t_correlations d)
    (t_members d) (t_correlationEvents d) (t_retentionPolicies d) (t_slaPolicies d)
    (t_slaRevisions d) (t_workViews d) (t_snapshots d) (t_reportExports d) (t_connections d)
    (t_deliveries d) (t_policies d) (t_policyRevisions d) (t_policyEvents d) (t_jiraEffects d)
    (t_verificationEvidence d) (t_verificationApprovals d) (t_verificationJobs d) (t_holds d)
    (t_previews d) (t_previewItems d) (t_retentionRuns d) (t_runItems d) (t_publications d)
    (t_sources d) (t_collections d) (t_repositoryAssets d) (t_sourceRecords d).
Definition with_assets (x : gmap string AssetRow) (d : DB) : DB :=
  mkDB (t_users d) (t_workspaces d) (t_memberships d) (t_bootstrap d) (t_sessions d)
    (t_throttle d) x (t_imports d) (t_coverage d) (t_findings d) (t_observations d)
    (t_changeEvents d) (t_notes d) (t_approvals d) (t_decisionEvents d) (t_correlations d)
    (t_members d) (t_correlationEvents d) (t_retentionPolicies d) (t_slaPolicies d)
    (t_slaRevisions d) (t_workViews d) (t_snapshots d) (t_reportExports d) (t_connections d)
    (t_deliveries d) (t_policies d) (t_policyRevisions d) (t_policyEvents d) (t_jiraEffects d)
    (t_verificationEvidence d) (t_verificationApprovals d) (t_verificationJobs d) (t_holds d)
    (t_previews d) (t_previewItems d) (t_retentionRuns d) (t_runItems d) (t_publications d)
    (t_sources d) (t_collections d) (t_repositoryAssets d) (t_sourceRecords d).
Definition with_imports (x : gmap string ImportRow) (d : DB) : DB :=
  mkDB (t_users d) (t_workspaces d) (t_memberships d) (t_bootstrap d) (t_sessions d)
    (t_throttle d) (t_assets d) x (t_coverage d) (t_findings d) (t_observations d)
    (t_changeEvents d) (t_notes d) (t_approvals d) (t_decisionEvents d) (t_correlations d)
    (t_members d) (t_correlationEvents d) (t_retentionPolicies d) (t_slaPolicies d)
    (t_slaRevisions d) (t_workViews d) (t_snapshots d) (t_reportExports d) (t_connections d)
    (t_deliveries d) (t_policies d) (t_policyRevisions d) (t_policyEvents d) (t_jiraEffects d)
    (t_verificationEvidence d) (t_verificationApprovals d) (t_verificationJobs d) (t_holds d)
    (t_previews d) (t_previewItems d) (t_retentionRuns d) (t_runItems d) (t_publications d)
    (t_sources d) (t_collections d) (t_repositoryAssets d) (t_sourceRecords d).
Definition with_coverage (x : gmap ScopeKey Z) (d : DB) : DB :=
  mkDB (t_users d) (t_workspaces d) (t_memberships d) (t_bootstrap d) (t_sessions d)
    (t_throttle d) (t_assets d) (t_imports d) x (t_findings d) (t_observations d)
    (t_changeEvents d) (t_notes d) (t_approvals d) (t_decisionEvents d) (t_correlations d)
    (t_members d) (t_correlationEvents d) (t_retentionPolicies d) (t_slaPolicies d)
    (t_slaRevisions d) (t_workViews d) (t_snapshots d) (t_reportExports d) (t_connections d)
    (t_deliveries d) (t_policies d) (t_policyRevisions d) (t_policyEvents d) (t_jiraEffects d)
    (t_verificationEvidence d) (t_verificationApprovals d) (t_verificationJobs d) (t_holds d)
    (t_previews d) (t_previewItems d) (t_retentionRuns d) (t_runItems d) (t_publications d)
    (t_sources d) (t_collections d) (t_repositoryAssets d) (t_sourceRecords d).
Definition with_findings (x : gmap string FindingRow) (d : DB) : DB :=
  mkDB (t_users d) (t_workspaces d) (t_memberships d) (t_bootstrap d) (t_sessions d)
    (t_throttle d) (t_assets d) (t_imports d) (t_coverage d) x (t_observations d)
    (t_changeEvents d) (t_notes d) (t_approvals d) (t_decisionEvents d) (t_correlations d)
    (t_members d) (t_correlationEvents d) (t_retentionPolicies d) (t_slaPolicies d)
    (t_slaRevisions d) (t_workViews d) (t_snapshots d) (t_reportExports d) (t_connections d)
    (t_deliveries d) (t_policies d) (t_policyRevisions d) (t_policyEvents d) (t_jiraEffects d)
    (t_verificationEvidence d) (t_verificationApprovals d) (t_verificationJobs d) (t_holds d)
    (t_previews d) (t_previewItems d) (t_retentionRuns d) (t_runItems d) (t_publications d)
    (t_sources d) (t_collections d) (t_repositoryAssets d) (t_sourceRecords d).
Definition with_observations (x : gmap string ObservationRow) (d : DB) : DB :=
  mkDB (t_users d) (t_workspaces d) (t_memberships d) (t_bootstrap d) (t_sessions d)
    (t_throttle d) (t_assets d) (t_imports d) (t_coverage d) (t_findings d) x (t_changeEvents
    d) (t_notes d) (t_approvals d) (t_decisionEvents d) (t_correlations d) (t_members d)
    (t_correlationEvents d) (t_retentionPolicies d) (t_slaPolicies d) (t_slaRevisions d)
    (t_workViews d) (t_snapshots d) (t_reportExports d) (t_connections d) (t_deliveries d)
    (t_policies d) (t_policyRevisions d) (t_policyEvents d) (t_jiraEffects d)
    (t_verificationEvidence d) (t_verificationApprovals d) (t_verificationJobs d) (t_holds d)
    (t_previews d) (t_previewItems d) (t_retentionRuns d) (t_runItems d) (t_publications d)
    (t_sources d) (t_collections d) (t_repositoryAssets d) (t_sourceRecords d).
Definition with_changeEvents (x : gmap string ChangeEventRow) (d : DB) : DB :=
  mkDB (t_users d) (t_workspaces d) (t_memberships d) (t_bootstrap d) (t_sessions d)
    (t_throttle d) (t_assets d) (t_imports d) (t_coverage d) (t_findings d) (t_observations d)
    x (t_notes d) (t_approvals d) (t_decisionEvents d) (t_correlations d) (t_members d)
    (t_correlationEvents d) (t_retentionPolicies d) (t_slaPolicies d) (t_slaRevisions d)
    (t_workViews d) (t_snapshots d) (t_reportExports d) (t_connections d) (t_deliveries d)
    (t_policies d) (t_policyRevisions d) (t_policyEvents d) (t_jiraEffects d)
    (t_verificationEvidence d) (t_verificationApprovals d) (t_verificationJobs d) (t_holds d)
    (t_previews d) (t_previewItems d) (t_retentionRuns d) (t_runItems d) (t_publications d)
    (t_sources d) (t_collections d) (t_repositoryAssets d) (t_sourceRecords d).
Definition with_notes (x : gmap string NoteRow) (d : DB) : DB :=
  mkDB (t_users d) (t_workspaces d) (t_memberships d) (t_bootstrap d) (t_sessions d)
    (t_throttle d) (t_assets d) (t_imports d) (t_coverage d) (t_findings d) (t_observations d)
    (t_changeEvents d) x (t_approvals d) (t_decisionEvents d) (t_correlations d) (t_members d)
    (t_correlationEvents d) (t_retentionPolicies d) (t_slaPolicies d) (t_slaRevisions d)
    (t_workViews d) (t_snapshots d) (t_reportExports d) (t_connections d) (t_deliveries d)
    (t_policies d) (t_policyRevisions d) (t_policyEvents d) (t_jiraEffects d)
    (t_verificationEvidence d) (t_verificationApprovals d) (t_verificationJobs d) (t_holds d)
    (t_previews d) (t_previewItems d) (t_retentionRuns d) (t_runItems d) (t_publications d)
    (t_sources d) (t_collections d) (t_repositoryAssets d) (t_sourceRecords d).
Definition with_approvals (x : gmap string ApprovalRow) (d : DB) : DB :=
  mkDB (t_users d) (t_workspaces d) (t_memberships d) (t_bootstrap d) (t_sessions d)
    (t_throttle d) (t_assets d) (t_imports d) (t_coverage d) (t_findings d) (t_observations d)
    (t_changeEvents d) (t_notes d) x (t_decisionEvents d) (t_correlations d) (t_members d)
    (t_correlationEvents d) (t_retentionPolicies d) (t_slaPolicies d) (t_slaRevisions d)
    (t_workViews d) (t_snapshots d) (t_reportExports d) (t_connections d) (t_deliveries d)
    (t_policies d) (t_policyRevisions d) (t_policyEvents d) (t_jiraEffects d)
    (t_verificationEvidence d) (t_verificationApprovals d) (t_verificationJobs d) (t_holds d)
    (t_previews d) (t_previewItems d) (t_retentionRuns d) (t_runItems d) (t_publications d)
    (t_sources d) (t_collections d) (t_repositoryAssets d) (t_sourceRecords d).
Definition with_decisionEvents (x : gmap string DecisionEventRow) (d : DB) : DB :=
  mkDB (t_users d) (t_workspaces d) (t_memberships d) (t_bootstrap d) (t_sessions d)
    (t_throttle d) (t_assets d) (t_imports d) (t_coverage d) (t_findings d) (t_observations d)
    (t_changeEvents d) (t_notes d) (t_approvals d) x (t_correlations d) (t_members d)
    (t_correlationEvents d) (t_retentionPolicies d) (t_slaPolicies d) (t_slaRevisions d)
    (t_workViews d) (t_snapshots d) (t_reportExports d) (t_connections d) (t_deliveries d)
    (t_policies d) (t_policyRevisions d) (t_policyEvents d) (t_jiraEffects d)
    (t_verificationEvidence d) (t_verificationApprovals d) (t_verificationJobs d) (t_holds d)
    (t_previews d) (t_previewItems d) (t_retentionRuns d) (t_runItems d) (t_publications d)
    (t_sources d) (t_collections d) (t_repositoryAssets d) (t_sourceRecords d).
Definition with_correlations (x : gmap string CorrelationRow) (d : DB) : DB :=
  mkDB (t_users d) (t_workspaces d) (t_memberships d) (t_bootstrap d) (t_sessions d)
    (t_throttle d) (t_assets d) (t_imports d) (t_coverage d) (t_findings d) (t_observations d)
    (t_changeEvents d) (t_notes d) (t_approvals d) (t_decisionEvents d) x (t_members d)
    (t_correlationEvents d) (t_retentionPolicies d) (t_slaPolicies d) (t_slaRevisions d)
    (t_workViews d) (t_snapshots d) (t_reportExports d) (t_connections d) (t_deliveries d)
    (t_policies d) (t_policyRevisions d) (t_policyEvents d) (t_jiraEffects d)
    (t_verificationEvidence d) (t_verificationApprovals d) (t_verificationJobs d) (t_holds d)
    (t_previews d) (t_previewItems d) (t_retentionRuns d) (t_runItems d) (t_publications d)
    (t_sources d) (t_collections d) (t_repositoryAssets d) (t_sourceRecords d).
Definition with_members (x : gmap string MemberRow) (d : DB) : DB :=
  mkDB (t_users d) (t_workspaces d) (t_memberships d) (t_bootstrap d) (t_sessions d)
    (t_throttle d) (t_assets d) (t_imports d) (t_coverage d) (t_findings d) (t_observations d)
    (t_changeEvents d) (t_notes d) (t_approvals d) (t_decisionEvents d) (t_correlations d) x
    (t_correlationEvents d) (t_retentionPolicies d) (t_slaPolicies d) (t_slaRevisions d)
    (t_workViews d) (t_snapshots d) (t_reportExports d) (t_connections d) (t_deliveries d)
    (t_policies d) (t_policyRevisions d) (t_policyEvents d) (t_jiraEffects d)
    (t_verificationEvidence d) (t_verificationApprovals d) (t_verificationJobs d) (t_holds d)
    (t_previews d) (t_previewItems d) (t_retentionRuns d) (t_runItems d) (t_publications d)
    (t_sources d) (t_collections d) (t_repositoryAssets d) (t_sourceRecords d).
Definition with_correlationEvents (x : gmap string CorrelationEventRow) (d : DB) : DB :=
  mkDB (t_users d) (t_workspaces d) (t_memberships d) (t_bootstrap d) (t_sessions d)
    (t_throttle d) (t_assets d) (t_imports d) (t_coverage d) (t_findings d) (t_observations d)
    (t_changeEvents d) (t_notes d) (t_approvals d) (t_decisionEvents d) (t_correlations d)
    (t_members d) x (t_retentionPolicies d) (t_slaPolicies d) (t_slaRevisions d) (t_workViews
    d) (t_snapshots d) (t_reportExports d) (t_connections d) (t_deliveries d) (t_policies d)
    (t_policyRevisions d) (t_policyEvents d) (t_jiraEffects d) (t_verificationEvidence d)
    (t_verificationApprovals d) (t_verificationJobs d) (t_holds d) (t_previews d)
    (t_previewItems d) (t_retentionRuns d) (t_runItems d) (t_publications d) (t_sources d)
    (t_collections d) (t_repositoryAssets d) (t_sourceRecords d).
Definition with_retentionPolicies (x : gmap string RetentionPolicyRow) (d : DB) : DB :=
  mkDB (t_users d) (t_workspaces d) (t_memberships d) (t_bootstrap d) (t_sessions d)
    (t_throttle d) (t_assets d) (t_imports d) (t_coverage d) (t_findings d) (t_observations d)
    (t_changeEvents d) (t_notes d) (t_approvals d) (t_decisionEvents d) (t_correlations d)
    (t_members d) (t_correlationEvents d) x (t_slaPolicies d) (t_slaRevisions d) (t_workViews
    d) (t_snapshots d) (t_reportExports d) (t_connections d) (t_deliveries d) (t_policies d)
    (t_policyRevisions d) (t_policyEvents d) (t_jiraEffects d) (t_verificationEvidence d)
    (t_verificationApprovals d) (t_verificationJobs d) (t_holds d) (t_previews d)
    (t_previewItems d) (t_retentionRuns d) (t_runItems d) (t_publications d) (t_sources d)
    (t_collections d) (t_repositoryAssets d) (t_sourceRecords d).
Definition with_slaPolicies (x : gmap string SLAPolicyRow) (d : DB) : DB :=
  mkDB (t_users d) (t_workspaces d) (t_memberships d) (t_bootstrap d) (t_sessions d)
    (t_throttle d) (t_assets d) (t_imports d) (t_coverage d) (t_findings d) (t_observations d)
    (t_changeEvents d) (t_notes d) (t_approvals d) (t_decisionEvents d) (t_correlations d)
    (t_members d) (t_correlationEvents d) (t_retentionPolicies d) x (t_slaRevisions d)
    (t_workViews d) (t_snapshots d) (t_reportExports d) (t_connections d) (t_deliveries d)
    (t_policies d) (t_policyRevisions d) (t_policyEvents d) (t_jiraEffects d)
    (t_verificationEvidence d) (t_verificationApprovals d) (t_verificationJobs d) (t_holds d)
    (t_previews d) (t_previewItems d) (t_retentionRuns d) (t_runItems d) (t_publications d)
    (t_sources d) (t_collections d) (t_repositoryAssets d) (t_sourceRecords d).
Definition with_slaRevisions (x : gmap (string * Z) SLAPolicyRow) (d : DB) : DB :=
  mkDB (t_users d) (t_workspaces d) (t_memberships d) (t_bootstrap d) (t_sessions d)
    (t_throttle d) (t_assets d) (t_imports d) (t_coverage d) (t_findings d) (t_observations d)
    (t_changeEvents d) (t_notes d) (t_approvals d) (t_decisionEvents d) (t_correlations d)
    (t_members d) (t_correlationEvents d) (t_retentionPolicies d) (t_slaPolicies d) x
    (t_workViews d) (t_snapshots d) (t_reportExports d) (t_connections d) (t_deliveries d)
    (t_policies d) (t_policyRevisions d) (t_policyEvents d) (t_jiraEffects d)
    (t_verificationEvidence d) (t_verificationApprovals d) (t_verificationJobs d) (t_holds d)
    (t_previews d) (t_previewItems d) (t_retentionRuns d) (t_runItems d) (t_publications d)
    (t_sources d) (t_collections d) (t_repositoryAssets d) (t_sourceRecords d).
Definition with_workViews (x : gmap string WorkViewRow) (d : DB) : DB :=
  mkDB (t_users d) (t_workspaces d) (t_memberships d) (t_bootstrap d) (t_sessions d)
    (t_throttle d) (t_assets d) (t_imports d) (t_coverage d) (t_findings d) (t_observations d)
    (t_changeEvents d) (t_notes d) (t_approvals d) (t_decisionEvents d) (t_correlations d)
    (t_members d) (t_correlationEvents d) (t_retentionPolicies d) (t_slaPolicies d)
    (t_slaRevisions d) x (t_snapshots d) (t_reportExports d) (t_connections d) (t_deliveries
    d) (t_policies d) (t_policyRevisions d) (t_policyEvents d) (t_jiraEffects d)
    (t_verificationEvidence d) (t_verificationApprovals d) (t_verificationJobs d) (t_holds d)
    (t_previews d) (t_previewItems d) (t_retentionRuns d) (t_runItems d) (t_publications d)
    (t_sources d) (t_collections d) (t_repositoryAssets d) (t_sourceRecords d).
Definition with_snapshots (x : gmap string SnapshotRow) (d : DB) : DB :=
  mkDB (t_users d) (t_workspaces d) (t_memberships d) (t_bootstrap d) (t_sessions d)
    (t_throttle d) (t_assets d) (t_imports d) (t_coverage d) (t_findings d) (t_observations d)
    (t_changeEvents d) (t_notes d) (t_approvals d) (t_decisionEvents d) (t_correlations d)
    (t_members d) (t_correlationEvents d) (t_retentionPolicies d) (t_slaPolicies d)
    (t_slaRevisions d) (t_workViews d) x (t_reportExports d) (t_connections d) (t_deliveries
    d) (t_policies d) (t_policyRevisions d) (t_policyEvents d) (t_jiraEffects d)
    (t_verificationEvidence d) (t_verificationApprovals d) (t_verificationJobs d) (t_holds d)
    (t_previews d) (t_previewItems d) (t_retentionRuns d) (t_runItems d) (t_publications d)
    (t_sources d) (t_collections d) (t_repositoryAssets d) (t_sourceRecords d).
Definition with_reportExports (x : gmap string ExportRow) (d : DB) : DB :=
  mkDB (t_users d) (t_workspaces d) (t_memberships d) (t_bootstrap d) (t_sessions d)
    (t_throttle d) (t_assets d) (t_imports d) (t_coverage d) (t_findings d) (t_observations d)
    (t_changeEvents d) (t_notes d) (t_approvals d) (t_decisionEvents d) (t_correlations d)
    (t_members d) (t_correlationEvents d) (t_retentionPolicies d) (t_slaPolicies d)
    (t_slaRevisions d) (t_workViews d) (t_snapshots d) x (t_connections d) (t_deliveries d)
    (t_policies d) (t_policyRevisions d) (t_policyEvents d) (t_jiraEffects d)
    (t_verificationEvidence d) (t_verificationApprovals d) (t_verificationJobs d) (t_holds d)
    (t_previews d) (t_previewItems d) (t_retentionRuns d) (t_runItems d) (t_publications d)
    (t_sources d) (t_collections d) (t_repositoryAssets d) (t_sourceRecords d).
Definition with_connections (x : gmap string ConnectionRow) (d : DB) : DB :=
  mkDB (t_users d) (t_workspaces d) (t_memberships d) (t_bootstrap d) (t_sessions d)
    (t_throttle d) (t_assets d) (t_imports d) (t_coverage d) (t_findings d) (t_observations d)
    (t_changeEvents d) (t_notes d) (t_approvals d) (t_decisionEvents d) (t_correlations d)
    (t_members d) (t_correlationEvents d) (t_retentionPolicies d) (t_slaPolicies d)
    (t_slaRevisions d) (t_workViews d) (t_snapshots d) (t_reportExports d) x (t_deliveries d)
    (t_policies d) (t_policyRevisions d) (t_policyEvents d) (t_jiraEffects d)
    (t_verificationEvidence d) (t_verificationApprovals d) (t_verificationJobs d) (t_holds d)
    (t_previews d) (t_previewItems d) (t_retentionRuns d) (t_runItems d) (t_publications d)
    (t_sources d) (t_collections d) (t_repositoryAssets d) (t_sourceRecords d).
Definition with_deliveries (x : gmap string DeliveryRow) (d : DB) : DB :=
  mkDB (t_users d) (t_workspaces d) (t_memberships d) (t_bootstrap d) (t_sessions d)
    (t_throttle d) (t_assets d) (t_imports d) (t_coverage d) (t_findings d) (t_observations d)
    (t_changeEvents d) (t_notes d) (t_approvals d) (t_decisionEvents d) (t_correlations d)
    (t_members d) (t_correlationEvents d) (t_retentionPolicies d) (t_slaPolicies d)
    (t_slaRevisions d) (t_workViews d) (t_snapshots d) (t_reportExports d) (t_connections d) x
    (t_policies d) (t_policyRevisions d) (t_policyEvents d) (t_jiraEffects d)
    (t_verificationEvidence d) (t_verificationApprovals d) (t_verificationJobs d) (t_holds d)
    (t_previews d) (t_previewItems d) (t_retentionRuns d) (t_runItems d) (t_publications d)
    (t_sources d) (t_collections d) (t_repositoryAssets d) (t_sourceRecords d).
Definition with_policies (x : gmap string PolicyRow) (d : DB) : DB :=
  mkDB (t_users d) (t_workspaces d) (t_memberships d) (t_bootstrap d) (t_sessions d)
    (t_throttle d) (t_assets d) (t_imports d) (t_coverage d) (t_findings d) (t_observations d)
    (t_changeEvents d) (t_notes d) (t_approvals d) (t_decisionEvents d) (t_correlations d)
    (t_members d) (t_correlationEvents d) (t_retentionPolicies d) (t_slaPolicies d)
    (t_slaRevisions d) (t_workViews d) (t_snapshots d) (t_reportExports d) (t_connections d)
    (t_deliveries d) x (t_policyRevisions d) (t_policyEvents d) (t_jiraEffects d)
    (t_verificationEvidence d) (t_verificationApprovals d) (t_verificationJobs d) (t_holds d)
    (t_previews d) (t_previewItems d) (t_retentionRuns d) (t_runItems d) (t_publications d)
    (t_sources d) (t_collections d) (t_repositoryAssets d) (t_sourceRecords d).
Definition with_policyRevisions (x : gmap string PolicyRevisionRow) (d : DB) : DB :=
  mkDB (t_users d) (t_workspaces d) (t_memberships d) (t_bootstrap d) (t_sessions d)
    (t_throttle d) (t_assets d) (t_imports d) (t_coverage d) (t_findings d) (t_observations d)
    (t_changeEvents d) (t_notes d) (t_approvals d) (t_decisionEvents d) (t_correlations d)
    (t_members d) (t_correlationEvents d) (t_retentionPolicies d) (t_slaPolicies d)
    (t_slaRevisions d) (t_workViews d) (t_snapshots d) (t_reportExports d) (t_connections d)
    (t_deliveries d) (t_policies d) x (t_policyEvents d) (t_jiraEffects d)
    (t_verificationEvidence d) (t_verificationApprovals d) (t_verificationJobs d) (t_holds d)
    (t_previews d) (t_previewItems d) (t_retentionRuns d) (t_runItems d) (t_publications d)
    (t_sources d) (t_collections d) (t_repositoryAssets d) (t_sourceRecords d).
Definition with_policyEvents (x : gmap string PolicyEventRow) (d : DB) : DB :=
  mkDB (t_users d) (t_workspaces d) (t_memberships d) (t_bootstrap d) (t_sessions d)
    (t_throttle d) (t_assets d) (t_imports d) (t_coverage d) (t_findings d) (t_observations d)
    (t_changeEvents d) (t_notes d) (t_approvals d) (t_decisionEvents d) (t_correlations d)
    (t_members d) (t_correlationEvents d) (t_retentionPolicies d) (t_slaPolicies d)
    (t_slaRevisions d) (t_workViews d) (t_snapshots d) (t_reportExports d) (t_connections d)
    (t_deliveries d) (t_policies d) (t_policyRevisions d) x (t_jiraEffects d)
    (t_verificationEvidence d) (t_verificationApprovals d) (t_verificationJobs d) (t_holds d)
    (t_previews d) (t_previewItems d) (t_retentionRuns d) (t_runItems d) (t_publications d)
    (t_sources d) (t_collections d) (t_repositoryAssets d) (t_sourceRecords d).
Definition with_jiraEffects (x : gmap (string * string * string) (string * Z)) (d : DB) : DB :=
  mkDB (t_users d) (t_workspaces d) (t_memberships d) (t_bootstrap d) (t_sessions d)
    (t_throttle d) (t_assets d) (t_imports d) (t_coverage d) (t_findings d) (t_observations d)
    (t_changeEvents d) (t_notes d) (t_approvals d) (t_decisionEvents d) (t_correlations d)
    (t_members d) (t_correlationEvents d) (t_retentionPolicies d) (t_slaPolicies d)
    (t_slaRevisions d) (t_workViews d) (t_snapshots d) (t_reportExports d) (t_connections d)
    (t_deliveries d) (t_policies d) (t_policyRevisions d) (t_policyEvents d) x
    (t_verificationEvidence d) (t_verificationApprovals d) (t_verificationJobs d) (t_holds d)
    (t_previews d) (t_previewItems d) (t_retentionRuns d) (t_runItems d) (t_publications d)
    (t_sources d) (t_collections d) (t_repositoryAssets d) (t_sourceRecords d).
Definition with_verificationEvidence (x : gmap string VerificationEvidenceRow) (d : DB) : DB :=
  mkDB (t_users d) (t_workspaces d) (t_memberships d) (t_bootstrap d) (t_sessions d)
    (t_throttle d) (t_assets d) (t_imports d) (t_coverage d) (t_findings d) (t_observations d)
    (t_changeEvents d) (t_notes d) (t_approvals d) (t_decisionEvents d) (t_correlations d)
    (t_members d) (t_correlationEvents d) (t_retentionPolicies d) (t_slaPolicies d)
    (t_slaRevisions d) (t_workViews d) (t_snapshots d) (t_reportExports d) (t_connections d)
    (t_deliveries d) (t_policies d) (t_policyRevisions d) (t_policyEvents d) (t_jiraEffects d)
    x (t_verificationApprovals d) (t_verificationJobs d) (t_holds d) (t_previews d)
    (t_previewItems d) (t_retentionRuns d) (t_runItems d) (t_publications d) (t_sources d)
    (t_collections d) (t_repositoryAssets d) (t_sourceRecords d).
Definition with_verificationApprovals (x : gmap string VerificationApprovalRow) (d : DB) : DB :=
  mkDB (t_users d) (t_workspaces d) (t_memberships d) (t_bootstrap d) (t_sessions d)
    (t_throttle d) (t_assets d) (t_imports d) (t_coverage d) (t_findings d) (t_observations d)
    (t_changeEvents d) (t_notes d) (t_approvals d) (t_decisionEvents d) (t_correlations d)
    (t_members d) (t_correlationEvents d) (t_retentionPolicies d) (t_slaPolicies d)
    (t_slaRevisions d) (t_workViews d) (t_snapshots d) (t_reportExports d) (t_connections d)
    (t_deliveries d) (t_policies d) (t_policyRevisions d) (t_policyEvents d) (t_jiraEffects d)
    (t_verificationEvidence d) x (t_verificationJobs d) (t_holds d) (t_previews d)
    (t_previewItems d) (t_retentionRuns d) (t_runItems d) (t_publications d) (t_sources d)
    (t_collections d) (t_repositoryAssets d) (t_sourceRecords d).
Definition with_verificationJobs (x : gmap string VerificationRow) (d : DB) : DB :=
  mkDB (t_users d) (t_workspaces d) (t_memberships d) (t_bootstrap d) (t_sessions d)
    (t_throttle d) (t_assets d) (t_imports d) (t_coverage d) (t_findings d) (t_observations d)
    (t_changeEvents d) (t_notes d) (t_approvals d) (t_decisionEvents d) (t_correlations d)
    (t_members d) (t_correlationEvents d) (t_retentionPolicies d) (t_slaPolicies d)
    (t_slaRevisions d) (t_workViews d) (t_snapshots d) (t_reportExports d) (t_connections d)
    (t_deliveries d) (t_policies d) (t_policyRevisions d) (t_policyEvents d) (t_jiraEffects d)
    (t_verificationEvidence d) (t_verificationApprovals d) x (t_holds d) (t_previews d)
    (t_previewItems d) (t_retentionRuns d) (t_runItems d) (t_publications d) (t_sources d)
    (t_collections d) (t_repositoryAssets d) (t_sourceRecords d).
Definition with_holds (x : gmap string HoldRow) (d : DB) : DB :=
  mkDB (t_users d) (t_workspaces d) (t_memberships d) (t_bootstrap d) (t_sessions d)
    (t_throttle d) (t_assets d) (t_imports d) (t_coverage d) (t_findings d) (t_observations d)
    (t_changeEvents d) (t_notes d) (t_approvals d) (t_decisionEvents d) (t_correlations d)
    (t_members d) (t_correlationEvents d) (t_retentionPolicies d) (t_slaPolicies d)
    (t_slaRevisions d) (t_workViews d) (t_snapshots d) (t_reportExports d) (t_connections d)
    (t_deliveries d) (t_policies d) (t_policyRevisions d) (t_policyEvents d) (t_jiraEffects d)
    (t_verificationEvidence d) (t_verificationApprovals d) (t_verificationJobs d) x
    (t_previews d) (t_previewItems d) (t_retentionRuns d) (t_runItems d) (t_publications d)
    (t_sources d) (t_collections d) (t_repositoryAssets d) (t_sourceRecords d).
Definition with_previews (x : gmap string PreviewRow) (d : DB) : DB :=
  mkDB (t_users d) (t_workspaces d) (t_memberships d) (t_bootstrap d) (t_sessions d)
    (t_throttle d) (t_assets d) (t_imports d) (t_coverage d) (t_findings d) (t_observations d)
    (t_changeEvents d) (t_notes d) (t_approvals d) (t_decisionEvents d) (t_correlations d)
    (t_members d) (t_correlationEvents d) (t_retentionPolicies d) (t_slaPolicies d)
    (t_slaRevisions d) (t_workViews d) (t_snapshots d) (t_reportExports d) (t_connections d)
    (t_deliveries d) (t_policies d) (t_policyRevisions d) (t_policyEvents d) (t_jiraEffects d)
    (t_verificationEvidence d) (t_verificationApprovals d) (t_verificationJobs d) (t_holds d)
    x (t_previewItems d) (t_retentionRuns d) (t_runItems d) (t_publications d) (t_sources d)
    (t_collections d) (t_repositoryAssets d) (t_sourceRecords d).
Definition with_previewItems (x : gmap (string * Z) PreviewItemRow) (d : DB) : DB :=
  mkDB (t_users d) (t_workspaces d) (t_memberships d) (t_bootstrap d) (t_sessions d)
    (t_throttle d) (t_assets d) (t_imports d) (t_coverage d) (t_findings d) (t_observations d)
    (t_changeEvents d) (t_notes d) (t_approvals d) (t_decisionEvents d) (t_correlations d)
    (t_members d) (t_correlationEvents d) (t_retentionPolicies d) (t_slaPolicies d)
    (t_slaRevisions d) (t_workViews d) (t_snapshots d) (t_reportExports d) (t_connections d)
    (t_deliveries d) (t_policies d) (t_policyRevisions d) (t_policyEvents d) (t_jiraEffects d)
    (t_verificationEvidence d) (t_verificationApprovals d) (t_verificationJobs d) (t_holds d)
    (t_previews d) x (t_retentionRuns d) (t_runItems d) (t_publications d) (t_sources d)
    (t_collections d) (t_repositoryAssets d) (t_sourceRecords d).
Definition with_retentionRuns (x : gmap string RunRow) (d : DB) : DB :=
  mkDB (t_users d) (t_workspaces d) (t_memberships d) (t_bootstrap d) (t_sessions d)
    (t_throttle d) (t_assets d) (t_imports d) (t_coverage d) (t_findings d) (t_observations d)
    (t_changeEvents d) (t_notes d) (t_approvals d) (t_decisionEvents d) (t_correlations d)
    (t_members d) (t_correlationEvents d) (t_retentionPolicies d) (t_slaPolicies d)
    (t_slaRevisions d) (t_workViews d) (t_snapshots d) (t_reportExports d) (t_connections d)
    (t_deliveries d) (t_policies d) (t_policyRevisions d) (t_policyEvents d) (t_jiraEffects d)
    (t_verificationEvidence d) (t_verificationApprovals d) (t_verificationJobs d) (t_holds d)
    (t_previews d) (t_previewItems d) x (t_runItems d) (t_publications d) (t_sources d)
    (t_collections d) (t_repositoryAssets d) (t_sourceRecords d).
Definition with_runItems (x : gmap string RunItemRow) (d : DB) : DB :=
  mkDB (t_users d) (t_workspaces d) (t_memberships d) (t_bootstrap d) (t_sessions d)
    (t_throttle d) (t_assets d) (t_imports d) (t_coverage d) (t_findings d) (t_observations d)
    (t_changeEvents d) (t_notes d) (t_approvals d) (t_decisionEvents d) (t_correlations d)
    (t_members d) (t_correlationEvents d) (t_retentionPolicies d) (t_slaPolicies d)
    (t_slaRevisions d) (t_workViews d) (t_snapshots d) (t_reportExports d) (t_connections d)
    (t_deliveries d) (t_policies d) (t_policyRevisions d) (t_policyEvents d) (t_jiraEffects d)
    (t_verificationEvidence d) (t_verificationApprovals d) (t_verificationJobs d) (t_holds d)
    (t_previews d) (t_previewItems d) (t_retentionRuns d) x (t_publications d) (t_sources d)
    (t_collections d) (t_repositoryAssets d) (t_sourceRecords d).
Definition with_publications (x : gmap string PublicationRow) (d : DB) : DB :=
  mkDB (t_users d) (t_workspaces d) (t_memberships d) (t_bootstrap d) (t_sessions d)
    (t_throttle d) (t_assets d) (t_imports d) (t_coverage d) (t_findings d) (t_observations d)
    (t_changeEvents d) (t_notes d) (t_approvals d) (t_decisionEvents d) (t_correlations d)
    (t_members d) (t_correlationEvents d) (t_retentionPolicies d) (t_slaPolicies d)
    (t_slaRevisions d) (t_workViews d) (t_snapshots d) (t_reportExports d) (t_connections d)
    (t_deliveries d) (t_policies d) (t_policyRevisions d) (t_policyEvents d) (t_jiraEffects d)
    (t_verificationEvidence d) (t_verificationApprovals d) (t_verificationJobs d) (t_holds d)
    (t_previews d) (t_previewItems d) (t_retentionRuns d) (t_runItems d) x (t_sources d)
    (t_collections d) (t_repositoryAssets d) (t_sourceRecords d).
Definition with_sources (x : gmap string SourceRow) (d : DB) : DB :=
  mkDB (t_users d) (t_workspaces d) (t_memberships d) (t_bootstrap d) (t_sessions d)
    (t_throttle d) (t_assets d) (t_imports d) (t_coverage d) (t_findings d) (t_observations d)
    (t_changeEvents d) (t_notes d) (t_approvals d) (t_decisionEvents d) (t_correlations d)
    (t_members d) (t_correlationEvents d) (t_retentionPolicies d) (t_slaPolicies d)
    (t_slaRevisions d) (t_workViews d) (t_snapshots d) (t_reportExports d) (t_connections d)
    (t_deliveries d) (t_policies d) (t_policyRevisions d) (t_policyEvents d) (t_jiraEffects d)
    (t_verificationEvidence d) (t_verificationApprovals d) (t_verificationJobs d) (t_holds d)
    (t_previews d) (t_previewItems d) (t_retentionRuns d) (t_runItems d) (t_publications d) x
    (t_collections d) (t_repositoryAssets d) (t_sourceRecords d).
Definition with_collections (x : gmap string CollectionRow) (d : DB) : DB :=
  mkDB (t_users d) (t_workspaces d) (t_memberships d) (t_bootstrap d) (t_sessions d)
    (t_throttle d) (t_assets d) (t_imports d) (t_coverage d) (t_findings d) (t_observations d)
    (t_changeEvents d) (t_notes d) (t_approvals d) (t_decisionEvents d) (t_correlations d)
    (t_members d) (t_correlationEvents d) (t_retentionPolicies d) (t_slaPolicies d)
    (t_slaRevisions d) (t_workViews d) (t_snapshots d) (t_reportExports d) (t_connections d)
    (t_deliveries d) (t_policies d) (t_policyRevisions d) (t_policyEvents d) (t_jiraEffects d)
    (t_verificationEvidence d) (t_verificationApprovals d) (t_verificationJobs d) (t_holds d)
    (t_previews d) (t_previewItems d) (t_retentionRuns d) (t_runItems d) (t_publications d)
    (t_sources d) x (t_repositoryAssets d) (t_sourceRecords d).
Definition with_repositoryAssets (x : gmap (string * string * string) string) (d : DB) : DB :=
  mkDB (t_users d) (t_workspaces d) (t_memberships d) (t_bootstrap d) (t_sessions d)
    (t_throttle d) (t_assets d) (t_imports d) (t_coverage d) (t_findings d) (t_observations d)
    (t_changeEvents d) (t_notes d) (t_approvals d) (t_decisionEvents d) (t_correlations d)
    (t_members d) (t_correlationEvents d) (t_retentionPolicies d) (t_slaPolicies d)
    (t_slaRevisions d) (t_workViews d) (t_snapshots d) (t_reportExports d) (t_connections d)
    (t_deliveries d) (t_policies d) (t_policyRevisions d) (t_policyEvents d) (t_jiraEffects d)
    (t_verificationEvidence d) (t_verificationApprovals d) (t_verificationJobs d) (t_holds d)
    (t_previews d) (t_previewItems d) (t_retentionRuns d) (t_runItems d) (t_publications d)
    (t_sources d) (t_collections d) x (t_sourceRecords d).
Definition with_sourceRecords (x : gmap string SourceRecordRow) (d : DB) : DB :=
  mkDB (t_users d) (t_workspaces d) (t_memberships d) (t_bootstrap d) (t_sessions d)
    (t_throttle d) (t_assets d) (t_imports d) (t_coverage d) (t_findings d) (t_observations d)
    (t_changeEvents d) (t_notes d) (t_approvals d) (t_decisionEvents d) (t_correlations d)
    (t_members d) (t_correlationEvents d) (t_retentionPolicies d) (t_slaPolicies d)
    (t_slaRevisions d) (t_workViews d) (t_snapshots d) (t_reportExports d) (t_connections d)
    (t_deliveries d) (t_policies d) (t_policyRevisions d) (t_policyEvents d) (t_jiraEffects d)
    (t_verificationEvidence d) (t_verificationApprovals d) (t_verificationJobs d) (t_holds d)
    (t_previews d) (t_previewItems d) (t_retentionRuns d) (t_runItems d) (t_publications d)
    (t_sources d) (t_collections d) (t_repositoryAssets d) x.

Definition emptyDB : DB :=
  mkDB ∅ ∅ ∅ None ∅ ∅ ∅ ∅ ∅ ∅ ∅ ∅ ∅ ∅ ∅ ∅ ∅ ∅ ∅ ∅ ∅ ∅ ∅ ∅ ∅ ∅ ∅ ∅ ∅ ∅ ∅ ∅ ∅ ∅ ∅ ∅ ∅ ∅ ∅ ∅ ∅ ∅ ∅.

Definition importKey (m : ImportMeta) : ScopeKey :=
  {| k_workspace_id := i_workspace_id m; k_asset_id := i_asset_id m; k_source_id := i_source_id m;
     k_scope := i_scope m |}.

(** ** Selecting rows *)
Section rows.
Context {K V : Type} `{Countable K}.
Implicit Types (P : K → V → bool) (m : gmap K V).

(** [SELECT ... WHERE P] expected to match at most one row. *)
Definition findRow P m : option (K * V) :=
  head (filter (λ p : K * V, P p.1 p.2 = true) (map_to_list m)).
(** [SELECT EXISTS(SELECT 1 ... WHERE P)], [count( * )]. *)
Definition anyRow P m : bool := existsb (λ p : K * V, P p.1 p.2) (map_to_list m).
Definition rowsWhere P m : list (K * V) := filter (λ p : K * V, P p.1 p.2 = true) (map_to_list m).
Definition countRows P m : Z := Z.of_nat (length (rowsWhere P m)).
(** [UPDATE ... SET f WHERE P]. *)
Definition updateRows P (f : V → V) m : gmap K V :=
  map_imap (λ k v, Some (if P k v then f v else v)) m.

Lemma findRow_Some P m k v : findRow P m = Some (k, v) → m !! k = Some v ∧ P k v = true.
Proof.
  unfold findRow. intros Hf%head_Some_elem_of%list_elem_of_filter.
  destruct Hf as [? Hf%elem_of_map_to_list]. auto.
Qed.

Lemma findRow_None P m k v : findRow P m = None → m !! k = Some v → P k v = false.
Proof.
  unfold findRow. intros Hf Hv. apply elem_of_map_to_list in Hv.
  destruct (P k v) eqn:EP; [|done].
  assert ((k, v) ∈ filter (λ p : K * V, P p.1 p.2 = true) (map_to_list m)) as Hin
    by (by apply list_elem_of_filter).
  destruct (filter _ _); [by apply elem_of_nil in Hin|done].
Qed.

Lemma elem_of_rowsWhere P m k v : (k, v) ∈ rowsWhere P m ↔ m !! k = Some v ∧ P k v = true.
Proof.
  unfold rowsWhere. rewrite list_elem_of_filter, elem_of_map_to_list. simpl. tauto.
Qed.

Lemma anyRow_true P m : anyRow P m = true ↔ ∃ k v, m !! k = Some v ∧ P k v = true.
Proof.
  unfold anyRow. rewrite existsb_Exists. split.
  - intros ([k v] & Hin%elem_of_map_to_list & HP). eauto.
  - intros (k & v & Hm%elem_of_map_to_list & HP). by exists (k, v).
Qed.

Lemma anyRow_false P m : anyRow P m = false ↔ ∀ k v, m !! k = Some v → P k v = false.
Proof.
  split.
  - intros Ha k v Hm. destruct (P k v) eqn:E; [|done].
    assert (anyRow P m = true) by (apply anyRow_true; eauto). congruence.
  - intros Hn. destruct (anyRow P m) eqn:E; [|done].
    apply anyRow_true in E as (k & v & ? & ?). rewrite Hn in *; done.
Qed.

Lemma lookup_updateRows P f m k :
  updateRows P f m !! k = (λ v, if P k v then f v else v) <$> m !! k.
Proof. unfold updateRows. rewrite map_lookup_imap. by destruct (m !! k). Qed.

Lemma countRows_pos P m k v : m !! k = Some v → P k v = true → 1 ≤ countRows P m.
Proof.
  intros Hm HP. unfold countRows. assert ((k, v) ∈ rowsWhere P m) as Hin
    by (by apply elem_of_rowsWhere).
  destruct (rowsWhere P m); [by apply elem_of_nil in Hin|simpl; lia].
Qed.

Lemma countRows_two P m :
  1 < countRows P m ↔
  ∃ k1 k2 v1 v2, k1 ≠ k2 ∧ m !! k1 = Some v1 ∧ m !! k2 = Some v2 ∧ P k1 v1 = true ∧ P k2 v2 = true.
Proof.
  unfold countRows. split.
  - intros Hlt. destruct (rowsWhere P m) as [|[k1 v1] [|[k2 v2] l]] eqn:E; simpl in Hlt; [lia..|].
    assert (NoDup ((rowsWhere P m).*1)) as Hnd.
    { eapply sublist_NoDup; [apply (NoDup_fst_map_to_list m) | apply fmap_sublist, sublist_filter]. }
    rewrite E in Hnd. simpl in Hnd. apply NoDup_cons in Hnd as [Hn _].
    exists k1, k2, v1, v2. split; [set_solver|].
    assert ((k1, v1) ∈ rowsWhere P m ∧ (k2, v2) ∈ rowsWhere P m) as [H1 H2]
      by (rewrite E; set_solver).
    apply elem_of_rowsWhere in H1 as [? ?], H2 as [? ?]. auto.
  - intros (k1 & k2 & v1 & v2 & Hne & H1 & H2 & P1 & P2).
    assert ((k1, v1) ∈ rowsWhere P m) as I1 by (by apply elem_of_rowsWhere).
    assert ((k2, v2) ∈ rowsWhere P m) as I2 by (by apply elem_of_rowsWhere).
    destruct (rowsWhere P m) as [|x [|y l]]; simpl; [by apply elem_of_nil in I1| |lia].
    apply list_elem_of_singleton in I1, I2. congruence.
Qed.

(** [INSERT]: a duplicate primary key is a unique violation. *)
Definition insertRow (k : K) (v : V) (m : gmap K V) : Res (gmap K V) :=
  match m !! k with Some _ => Err ErrUnique | None => Ok (<[k := v]> m) end.
End rows.

(** Rows in primary-key order ([ORDER BY id]) and by a number column. *)
Definition keyLe {V} (a b : string * V) : Prop := strLe a.1 b.1 = true.
#[export] Instance keyLe_dec {V} (a b : string * V) : Decision (keyLe a b).
Proof. unfold keyLe. apply _. Defined.
Definition numLe {V} (f : V → Z) (a b : string * V) : Prop := f a.2 ≤ f b.2.
#[export] Instance numLe_dec {V} f (a b : string * V) : Decision (numLe f a b).
Proof. unfold numLe. apply _. Defined.

Definition rowsById {V} (P : string → V → bool) (m : gmap string V) : list (string * V) :=
  merge_sort keyLe (rowsWhere P m).
Definition rowsBy {V} (f : V → Z) (P : string → V → bool) (m : gmap string V) : list (string * V) :=
  merge_sort (numLe f) (rowsWhere P m).

(** [INSERT INTO table]: [check] names the constraint that the new row breaks,
    a duplicate primary key breaks uniqueness. *)
Definition insertInto {K V} `{Countable K} (proj : DB → gmap K V) (put : gmap K V → DB → DB)
    (check : DB → option error) (k : K) (v : V) : M DB unit :=
  stmt (λ _ db, match check db with
                | Some e => Err e
                | None => match insertRow k v (proj db) with
                          | Ok m => Ok (tt, put m db)
                          | Err e => Err e
                          end
                end).

Definition noCheck (db : DB) : option error := None.
Definition requires (b : DB → bool) (e : error) (db : DB) : option error :=
  if b db then None else Some e.
Definition isSome {A} (x : option A) : bool := match x with Some _ => true | None => false end.

Lemma isSome_true {A} (x : option A) : isSome x = true ↔ is_Some x.
Proof. destruct x; split; intros Hx; [eauto|done|done|by destruct Hx]. Qed.

Lemma insertInto_inv {K V} `{Countable K} (proj : DB → gmap K V) put check k v env n db x db' n' :
  insertInto proj put check k v env n db = mkOut (Ok x) db' n' →
  check db = None ∧ proj db !! k = None ∧ db' = put (<[k := v]> (proj db)) db.
Proof.
  intros Hs%stmt_inv. destruct (check db) eqn:?; [done|]. unfold insertRow in Hs.
  destruct (proj db !! k); [done|]. by injection Hs as _ <-.
Qed.

Lemma steps_insertInto {K V} `{Countable K} (R : DB → DB → Prop) `{!PreOrder R}
    (proj : DB → gmap K V) put check k v :
  (∀ db, check db = None → proj db !! k = None → R db (put (<[k := v]> (proj db)) db)) →
  Steps R (insertInto proj put check k v).
Proof.
  intros HR. apply steps_stmt; [apply _|]. intros t db a db' Hs.
  destruct (check db) eqn:?; [done|]. unfold insertRow in Hs.
  destruct (proj db !! k) eqn:?; [done|]. injection Hs as _ <-. auto.
Qed.
Lemma forward_insertInto {K V} `{Countable K} (proj : DB → gmap K V) put check k v :
  Timed (λ _ _ _ _, True) (insertInto proj put check k v).
Proof. apply timed_stmt. by right. Qed.
#[export] Hint Resolve forward_insertInto : timed.
Arguments insertInto : simpl never.

Ltac db_inv :=
  repeat first
    [ run_inv_step; simplify_eq/=
    | match goal with
      | H : insertInto _ _ _ _ _ _ _ _ = mkOut (Ok _) _ _ |- _ =>
          apply insertInto_inv in H as (? & ? & ?); subst; simpl in *
      end ].
