(* ===== verification/Auth.v ===== *)
(** * internal/app: identity, sessions and workspace membership

    [auth.go] (local identities, password hashes, sessions, throttling,
    bootstrap, workspaces and users) and [membership.go] (role checks and role
    changes with revocation).

    Parameters: argon2 ([IDKey]), net/mail's address parser ([ParseAddress])
    and Unicode lower casing ([ToLower]); nothing is assumed of them.  A random
    session token is one draw of the world's identifiers. *)
From S2P Require Import Prelude GoLib Encoding Tx ReportAdapter Schema.
Local Open Scope Z_scope.

Definition lowerHexDigit (b : N) : bool :=
  negb (((b <? 48) || (57 <? b)) && ((b <? 97) || (102 <? b)))%N.

(** auth.go [validID]: 32 lower-case hexadecimal digits. *)
Definition validID (id : string) : bool :=
  if negb (len id =? 32) then false else forallb lowerHexDigit (bytes id).

Definition validText (value : string) (limit : Z) : bool :=
  (TrimSpace value !=? "") && (len value <=? limit) && negb (containsNUL value).

Definition validRole (role : string) : bool :=
  (role ==? "admin") || (role ==? "analyst") || (role ==? "viewer").

Record Workspace := { WorkspaceID : string; WorkspaceName : string; WorkspaceRole : string }.
Definition canWrite (w : Workspace) : bool :=
  (WorkspaceRole w ==? "admin") || (WorkspaceRole w ==? "analyst").

Record authenticatedSession := { SessUser : User; SessExpiresAt : Z; SessTokenHash : string }.

(** The number of runes of a valid UTF-8 string: bytes that do not continue one. *)
Definition runeCount (s : string) : Z :=
  Z.of_nat (length (filter (λ b, cont b = false) (bytes s))).

Definition sha256Key (s : string) : string := of_bytes (Sum256 (bytes s)).

Definition dollar : N := 36.
Definition passwordParameters : string := "m=65536,t=3,p=4".
(** [fmt.Sprintf("$argon2id$v=%d$%s$%s$%s", ...)]. *)
Definition encodeHash (salt key : list N) : string :=
  "$argon2id$v=19$" +:+ passwordParameters +:+ "$" +:+ RawStd salt +:+ "$" +:+ RawStd key.

Section auth.
Context (IDKey : string → list N → list N) (ParseAddress : string → option string)
        (ToLower : string → string).
(** Configuration: the enrolled bootstrap secret's hash and whether bootstrap
    is enabled, the session lifetime in microseconds, the hash compared when no
    user matches. *)
Context (bootstrapEnabled : bool) (bootstrapHash : string) (SessionTTL : Z) (dummyPassword : string).

(** ** Passwords *)

(** Waiting for a hash slot ends when the context does. *)
Definition derivePassword (password : string) (salt : list N) : M DB (list N) :=
  done <- ctxErr ;;
  if (done : bool) then throw ErrContext else ret (IDKey password salt).

(** The salt is a random draw of sixteen bytes. *)
Definition hashPassword (password : string) : M DB string :=
  raw <- newID ;;
  let salt := resize 16 0%N (bytes raw) in
  key <- derivePassword password salt ;;
  ret (encodeHash salt key).

Definition checkPassword (password encoded : string) : M DB bool :=
  match Split encoded dollar with
  | [f0; f1; f2; f3; f4; f5] =>
      if (f1 !=? "argon2id") || (f2 !=? "v=19") || (f3 !=? passwordParameters) then ret false
      else match RawStdDecode f4, RawStdDecode f5 with
           | Some salt, Some want =>
               if negb (length salt =? 16)%nat || negb (length want =? 32)%nat then ret false
               else handle (derivePassword password salt) (λ r,
                      match r with
                      | Ok actual => ret (want ==? actual)
                      | Err _ => ret false
                      end)
           | _, _ => ret false
           end
  | _ => ret false
  end.

Definition localIdentity (name email password : string) : option string :=
  let email := ToLower (TrimSpace email) in
  match ParseAddress email with
  | None => None
  | Some address =>
      if negb (validText name 256) || (254 <? len email) || (address !=? email) ||
         (runeCount password <? 12) || (1024 <? len password) || containsNUL password
      then None else Some email
  end.

(** ** Rows *)

Definition insertUser (user : User) (hash : string) (at_ : Z) : M DB unit :=
  insertInto t_users with_users
    (λ db, if negb (UserEmail user ==? ToLower (UserEmail user)) then Some ErrConstraint
           else if anyRow (λ _ u, u_email u ==? UserEmail user) (t_users db) then Some ErrUnique
           else None)
    (UserID user)
    {| u_name := UserName user; u_email := UserEmail user; u_password_hash := Some hash;
       u_auth_method := "local"; u_created_at := at_ |}.

Definition insertWorkspace (id name : string) (at_ : Z) : M DB unit :=
  insertInto t_workspaces with_workspaces noCheck id
    {| w_name := name; w_created_at := at_; w_notification_policy_epoch := 0 |}.

Definition insertRetentionPolicy (workspace : string) : M DB unit :=
  insertInto t_retentionPolicies with_retentionPolicies
    (requires (λ db, isSome (t_workspaces db !! workspace)) ErrConstraint) workspace
    {| rp_revision := 1; rp_hot_history_days := 90; rp_raw_report_days := 180;
       rp_archived_evidence_days := 365; rp_audit_days := 730; rp_updated := None |}.

Definition insertMembership (workspace user role : string) : M DB unit :=
  insertInto t_memberships with_memberships
    (requires (λ db, isSome (t_workspaces db !! workspace) && isSome (t_users db !! user) &&
                     validRole role) ErrConstraint)
    (workspace, user) role.

(** report_sla.go: the initial targets and their first revision. *)
Definition initialSLA (actor : User) (at_ : Z) : SLAPolicyRow :=
  {| sla_critical_days := 7; sla_high_days := 30; sla_medium_days := 90; sla_low_days := 180;
     sla_info_days := 365; sla_revision := 1; sla_approved_by := Some (UserID actor, UserName actor);
     sla_rationale := "Initial workspace remediation targets."; sla_created_at := at_;
     sla_updated_at := at_ |}.

Definition insertInitialWorkspaceSLAPolicy (workspace : string) (actor : User) (at_ : Z) : M DB unit :=
  insertInto t_slaPolicies with_slaPolicies
    (requires (λ db, isSome (t_workspaces db !! workspace) && isSome (t_users db !! UserID actor))
       ErrConstraint) workspace (initialSLA actor at_) ;;;
  insertInto t_slaRevisions with_slaRevisions noCheck (workspace, 1) (initialSLA actor at_).

(** ** Bootstrap *)

Definition enrolledQuery : M DB bool := query (λ _ db, Ok (isSome (t_bootstrap db))).

Definition bootstrap (token workspaceName name email password : string) : M DB (User * Workspace) :=
  guard (negb (negb bootstrapEnabled || (bootstrapHash !=? sha256Key token))) errUnauthorized ;;;
  match localIdentity name email password with
  | None => throw errInvalid
  | Some email =>
      guard (validText workspaceName 256) errInvalid ;;;
      enrolled <- enrolledQuery ;;
      guard (negb enrolled) errConflict ;;;
      passwordHash <- hashPassword password ;;
      transaction (
        enrolled <- enrolledQuery ;;
        guard (negb enrolled) errConflict ;;;
        uid <- newID ;;
        wid <- newID ;;
        let user := {| UserID := uid; UserName := name; UserEmail := email |} in
        let workspace := {| WorkspaceID := wid; WorkspaceName := workspaceName;
                            WorkspaceRole := "admin" |} in
        now <- now ;;
        insertUser user passwordHash now ;;;
        insertWorkspace wid workspaceName now ;;;
        insertRetentionPolicy wid ;;;
        insertMembership wid uid "admin" ;;;
        insertInitialWorkspaceSLAPolicy wid user now ;;;
        stmt (λ _ db, match t_bootstrap db with
                      | Some _ => Err ErrUnique
                      | None => Ok (tt, with_bootstrap (Some {| b_user_id := uid;
                                   b_workspace_id := wid; b_enrolled_at := now |}) db)
                      end) ;;;
        ret (user, workspace))
  end.

(** ** Login throttling and sessions *)

Definition throttleBucket (host : string) : Z :=
  match Sum256 (bytes host) with
  | h0 :: h1 :: _ => Z.lor (Z.shiftl (Z.of_N h0) 8) (Z.of_N h1) mod 4096
  | _ => 0
  end.

Definition minute : Z := 60 * 1000000.

Definition countAttempt (now : Z) (row : option (Z * Z)) : Z * Z :=
  match row with
  | None => (now, 1)
  | Some (window_at, attempts) =>
      if window_at <=? now - minute then (now, 1) else (window_at, attempts + 1)
  end.

Definition loginAllowed (host : string) : M DB bool :=
  now <- now ;;
  attempts <- exec (λ _ db,
    let row := countAttempt now (t_throttle db !! throttleBucket host) in
    (row.2, with_throttle (<[throttleBucket host := row]> (t_throttle db)) db)) ;;
  ret (attempts <=? 30).

Record issuedSession := { cookieValue : string; cookieExpires : Z }.

Definition revokeSession (hash : string) (at_ : Z) (P : SessionRow → bool) (db : DB) : DB :=
  with_sessions (updateRows (λ k s, (k ==? hash) && P s)
    (λ s, {| s_user_id := s_user_id s; s_created_at := s_created_at s;
             s_expires_at := s_expires_at s; s_revoked_at := Some at_ |}) (t_sessions db)) db.

Definition issueSession (oldCookie : option string) (userID : string) : M DB issuedSession :=
  token <- newID ;;
  now <- now ;;
  let expires := now + SessionTTL in
  match oldCookie with
  | Some old =>
      exec (λ _ db, (tt, revokeSession (sha256Key old) now
        (λ s, (s_user_id s ==? userID) && negb (isSome (s_revoked_at s))) db))
  | None => ret tt
  end ;;;
  exec (λ _ db, (tt, with_sessions (filter (λ p : string * SessionRow,
    (s_user_id p.2 ==? userID) && ((s_expires_at p.2 <=? now) || isSome (s_revoked_at p.2)) = false)
    (t_sessions db)) db)) ;;;
  insertInto t_sessions with_sessions
    (requires (λ db, isSome (t_users db !! userID)) ErrConstraint) (sha256Key token)
    {| s_user_id := userID; s_created_at := now; s_expires_at := expires; s_revoked_at := None |} ;;;
  ret {| cookieValue := token; cookieExpires := expires |}.

(** [SELECT w.id,w.name,m.role FROM memberships m JOIN workspaces w ... ORDER BY w.id]. *)
Definition membershipsOf (userID : string) (db : DB) : list Workspace :=
  omap (λ p : string * WorkspaceRow,
    role ← t_memberships db !! (p.1, userID);
    Some {| WorkspaceID := p.1; WorkspaceName := w_name p.2; WorkspaceRole := role |})
    (rowsById (λ _ _, true) (t_workspaces db)).

Definition memberships (userID : string) : M DB (list Workspace) :=
  query (λ _ db, Ok (membershipsOf userID db)).

Definition login (host email password : string) (oldCookie : option string)
    : M DB (User * list Workspace * issuedSession) :=
  guard (negb ((254 <? len email) || (1024 <? len password))) errUnauthorized ;;;
  allowed <- loginAllowed host ;;
  guard allowed errUnauthorized ;;;
  found <- query (λ _ db, Ok (findRow (λ _ u, (u_email u ==? ToLower (TrimSpace email)) &&
                                (u_auth_method u ==? "local")) (t_users db))) ;;
  let hash := match found with
              | Some (_, u) => default "" (u_password_hash u)
              | None => dummyPassword
              end in
  valid <- checkPassword password hash ;;
  match found with
  | None => throw errUnauthorized
  | Some (uid, u) =>
      guard valid errUnauthorized ;;;
      session <- transaction (issueSession oldCookie uid) ;;
      workspaces <- memberships uid ;;
      ret ({| UserID := uid; UserName := u_name u; UserEmail := u_email u |}, workspaces, session)
  end.

Definition authenticate (cookies : list string) : M DB authenticatedSession :=
  match cookies with
  | [value] =>
      match RawURLDecode value with
      | None => throw errUnauthorized
      | Some raw =>
          guard ((length raw =? 32)%nat && (len value =? 43)) errUnauthorized ;;;
          now <- now ;;
          query (λ _ db,
            match t_sessions db !! sha256Key value with
            | None => Err errUnauthorized
            | Some s =>
                if negb (isSome (s_revoked_at s)) && (now <? s_expires_at s) then
                  match t_users db !! s_user_id s with
                  | None => Err errUnauthorized
                  | Some u => Ok {| SessUser := {| UserID := s_user_id s; UserName := u_name u;
                                                   UserEmail := u_email u |};
                                    SessExpiresAt := s_expires_at s;
                                    SessTokenHash := sha256Key value |}
                  end
                else Err errUnauthorized
            end)
      end
  | _ => throw errUnauthorized
  end.

Definition selectWorkspace (selected userID : string) : M DB Workspace :=
  if selected ==? "" then
    items <- memberships userID ;;
    match items with [item] => ret item | _ => throw errForbidden end
  else
    query (λ _ db,
      match t_memberships db !! (selected, userID), t_workspaces db !! selected with
      | Some role, Some w => Ok {| WorkspaceID := selected; WorkspaceName := w_name w;
                                   WorkspaceRole := role |}
      | _, _ => Err errForbidden
      end).

Definition logout (session : authenticatedSession) : M DB unit :=
  now <- now ;;
  exec (λ _ db, (tt, revokeSession (SessTokenHash session) now (λ _, true) db)).

(** ** Workspaces and users *)

Definition createWorkspace (name : string) (user : User) : M DB Workspace :=
  guard (validText name 256) errInvalid ;;;
  wid <- newID ;;
  now <- now ;;
  transaction (
    insertWorkspace wid name now ;;;
    insertRetentionPolicy wid ;;;
    insertMembership wid (UserID user) "admin" ;;;
    insertInitialWorkspaceSLAPolicy wid user now ;;;
    ret {| WorkspaceID := wid; WorkspaceName := name; WorkspaceRole := "admin" |}).

Definition createUser (workspace name email password role : string) : M DB User :=
  match localIdentity name email password with
  | None => throw errInvalid
  | Some email =>
      guard (validRole role) errInvalid ;;;
      hash <- hashPassword password ;;
      uid <- newID ;;
      let user := {| UserID := uid; UserName := name; UserEmail := email |} in
      transaction (
        now <- now ;;
        insertUser user hash now ;;;
        insertMembership workspace uid role ;;;
        ret user)
  end.
End auth.

(** ** Roles (membership.go) *)

Definition sessionRole (session : authenticatedSession) (workspace : string) : M DB string :=
  done <- ctxErr ;;
  guard (negb done) ErrContext ;;;
  now <- now ;;
  userID <- query (λ _ db,
    match t_sessions db !! SessTokenHash session with
    | Some s =>
        if (s_user_id s ==? UserID (SessUser session)) && negb (isSome (s_revoked_at s)) &&
           (now <? s_expires_at s)
        then Ok (s_user_id s) else Err errUnauthorized
    | None => Err errUnauthorized
    end) ;;
  query (λ _ db,
    match t_memberships db !! (workspace, userID) with
    | Some role => Ok role
    | None => Err errForbidden
    end).

Definition authorizeIntake (session : authenticatedSession) (workspace assetID : string) : M DB unit :=
  role <- sessionRole session workspace ;;
  guard ((role ==? "admin") || (role ==? "analyst")) errForbidden ;;;
  query (λ _ db,
    match t_assets db !! assetID with
    | Some a => if a_workspace_id a ==? workspace then Ok tt else Err errNotFound
    | None => Err errNotFound
    end).

Definition revocationCode : string := "authorization-revoked".
Definition revocationMessage : string :=
  "Submitting actor no longer has selected-workspace write permission".

Definition setJob (r : ImportRow) (j : ImportJob) : ImportRow :=
  {| i_meta := i_meta r; i_job := j; i_evidence := i_evidence r |}.

(** [state='failed',failure_code='authorization-revoked',...,fence=fence+1]. *)
Definition revokeJob (r : ImportRow) : ImportRow :=
  let j := i_job r in
  setJob r {| i_state := IFailed; i_observation_count := i_observation_count j;
              i_failure_code := Some revocationCode; i_failure_message := Some revocationMessage;
              i_worker_id := None; i_fence := i_fence j + 1; i_attempts := i_attempts j;
              i_lease_until := None; i_available_at := i_available_at j |}.

Definition pendingJob (r : ImportRow) : bool :=
  (i_state (i_job r) ==? IQueued) || (i_state (i_job r) ==? IProcessing).

Definition pendingOf (workspace actor : string) (r : ImportRow) : bool :=
  (i_workspace_id (i_meta r) ==? workspace) && (i_submitted_by (i_meta r) ==? Some actor) &&
  pendingJob r.

(** The transaction of [changeUserRole]. *)
Definition changeRoleTx (workspace : string) (session : authenticatedSession) (id newRole : string)
    : M DB User :=
  query (λ _ db, match t_workspaces db !! workspace with
                 | Some _ => Ok tt | None => Err ErrNoRows end) ;;;
  role <- sessionRole session workspace ;;
  guard (role ==? "admin") errForbidden ;;;
  found <- query (λ _ db,
    match t_memberships db !! (workspace, id), t_users db !! id with
    | Some prior, Some u =>
        Ok ({| UserID := id; UserName := u_name u; UserEmail := u_email u |}, prior)
    | _, _ => Err ErrNoRows
    end) ;;
  let '(user, prior) := found in
  (if (prior ==? "admin") && (newRole !=? "admin") then
     admins <- query (λ _ db, Ok (countRows (λ k r, (k.1 ==? workspace) && (r ==? "admin"))
                                    (t_memberships db))) ;;
     guard (1 <? admins) errConflict
   else ret tt) ;;;
  exec (λ _ db, (tt, with_memberships
    (updateRows (λ k _, (k.1 ==? workspace) && (k.2 ==? id)) (λ _, newRole) (t_memberships db)) db)) ;;;
  (if (prior !=? "viewer") && (newRole ==? "viewer") then
     exec (λ _ db, (tt, with_imports
       (updateRows (λ _ r, pendingOf workspace id r) revokeJob (t_imports db)) db))
   else ret tt) ;;;
  done <- ctxErr ;;
  guard (negb done) ErrContext ;;;
  ret user.

Definition changeUserRole (workspace : string) (session : authenticatedSession) (id newRole : string)
    : M DB User :=
  guard (validRole newRole) errInvalid ;;;
  transaction (changeRoleTx workspace session id newRole).

Arguments sessionRole : simpl never.
Arguments authorizeIntake : simpl never.
Arguments changeRoleTx : simpl never.
Arguments changeUserRole : simpl never.
Arguments derivePassword : simpl never.
Arguments hashPassword : simpl never.
Arguments checkPassword : simpl never.
Arguments bootstrap : simpl never.
Arguments login : simpl never.
Arguments issueSession : simpl never.
Arguments loginAllowed : simpl never.
Arguments authenticate : simpl never.

(** ** What reading programs leave alone *)
Section reads.
Context (R : DB → DB → Prop) `{!PreOrder R}.
Lemma steps_sessionRole s w : Steps R (sessionRole s w).
Proof. unfold sessionRole. steps. Qed.
Lemma steps_authorizeIntake s w a : Steps R (authorizeIntake s w a).
Proof. unfold authorizeIntake. steps; apply steps_sessionRole. Qed.
Lemma steps_derivePassword k p salt : Steps R (derivePassword k p salt).
Proof. unfold derivePassword. steps. Qed.
Lemma steps_hashPassword k p : Steps R (hashPassword k p).
Proof. unfold hashPassword. steps; apply steps_derivePassword. Qed.
Lemma steps_checkPassword k p e : Steps R (checkPassword k p e).
Proof.
  unfold checkPassword. destruct (Split e dollar) as [|? [|? [|? [|? [|? [|? [|]]]]]]]; steps;
    apply steps_derivePassword.
Qed.
Lemma steps_memberships u : Steps R (memberships u).
Proof. unfold memberships. steps. Qed.
Lemma steps_enrolledQuery : Steps R enrolledQuery.
Proof. unfold enrolledQuery. steps. Qed.
End reads.
#[export] Hint Resolve steps_sessionRole steps_authorizeIntake steps_derivePassword
  steps_hashPassword steps_checkPassword steps_memberships steps_enrolledQuery : steps.

(** A query program leaves the database as it was. *)
Lemma sessionRole_inv session workspace env n db role db' n' :
  sessionRole session workspace env n db = mkOut (Ok role) db' n' →
  db' = db ∧ t_memberships db !! (workspace, UserID (SessUser session)) = Some role.
Proof.
  unfold sessionRole. intros H. db_inv.
  match goal with H : _ && _ = true |- _ => breflect_in H; destruct H as [[<- _] _] end. auto.
Qed.
