(* ===== verification/AuthProps.v ===== *)
(** * Properties of identity, sessions and membership

    Interleavings of the identity handlers keep an administrator in every
    workspace and enrol at most once; a role revocation fences the pending
    imports of the actor; the login throttle, password hashes and sessions
    behave as their callers expect. *)
From S2P Require Import Prelude GoLib Encoding Tx ReportAdapter Schema Auth.
Local Open Scope Z_scope.

(** ** Administrators *)

Definition has_admin (db : DB) : Prop :=
  ∀ w r, t_workspaces db !! w = Some r → ∃ u, t_memberships db !! (w, u) = Some "admin".

Definition same_roles (d d' : DB) : Prop :=
  t_workspaces d' = t_workspaces d ∧ t_memberships d' = t_memberships d.
Lemma same_roles_admin d d' : same_roles d d' → preserves has_admin d d'.
Proof. intros [E1 E2] H. unfold has_admin. by rewrite E1, E2. Qed.

(** A workspace that is added together with its administrator. *)
Lemma has_admin_add d d' wid row uid :
  t_workspaces d' = <[wid := row]> (t_workspaces d) →
  t_memberships d' = <[(wid, uid) := "admin"]> (t_memberships d) →
  t_memberships d !! (wid, uid) = None →
  has_admin d → has_admin d'.
Proof.
  intros Ew Em Hn Ha w r. rewrite Ew, Em, lookup_insert. case_decide as Hw; subst; intros Hr.
  - exists uid. by rewrite lookup_insert_eq.
  - destruct (Ha w r Hr) as [u Hu]. exists u. rewrite lookup_insert_ne; congruence.
Qed.

Section identity.
Context (IDKey : string → list N → list N) (ParseAddress : string → option string)
        (ToLower : string → string) (enabled : bool) (hash : string) (ttl : Z) (dummy : string).
Abbreviation bootstrap := (bootstrap IDKey ParseAddress ToLower enabled hash).
Abbreviation login := (login IDKey ToLower ttl dummy).
Abbreviation createUser := (createUser IDKey ParseAddress ToLower).

(** ** Administrators are kept *)

Lemma createWorkspace_admin name user : Steps (preserves has_admin) (createWorkspace name user).
Proof.
  unfold createWorkspace, insertInitialWorkspaceSLAPolicy, insertMembership,
    insertRetentionPolicy, insertWorkspace. steps_ok. db_inv.
  intros Ha. eapply has_admin_add; [done..|]. done.
Qed.

Lemma bootstrap_admin token wname name email password :
  Steps (preserves has_admin) (bootstrap token wname name email password).
Proof.
  unfold Auth.bootstrap, insertInitialWorkspaceSLAPolicy, insertMembership,
    insertRetentionPolicy, insertWorkspace, insertUser. steps_ok. unfold enrolledQuery in *. db_inv.
  intros Ha. eapply has_admin_add; [done..|]. done.
Qed.

Lemma createUser_admin ws name email password role :
  Steps (preserves has_admin) (createUser ws name email password role).
Proof.
  unfold Auth.createUser, insertMembership, insertUser. steps_ok. db_inv.
  intros Ha w r Hr. destruct (Ha w r Hr) as [u Hu]. exists u. simpl.
  rewrite lookup_insert_ne; congruence.
Qed.

Lemma login_admin host email password old :
  Steps (preserves has_admin) (login host email password old).
Proof.
  unfold Auth.login, loginAllowed, issueSession. steps.
  all: try (apply steps_exec; [apply _|]; intros t db; apply same_roles_admin; by split).
  apply steps_insertInto; [apply _|]. intros db _ _. apply same_roles_admin. by split.
Qed.

Lemma logout_admin session : Steps (preserves has_admin) (logout session).
Proof.
  unfold logout. steps. apply steps_exec; [apply _|]. intros t db.
  apply same_roles_admin. by split.
Qed.
End identity.

(** What a role change that commits did. *)
Lemma changeRoleTx_run workspace session id newRole env n db u db' n' :
  changeRoleTx workspace session id newRole env n db = mkOut (Ok u) db' n' →
  ∃ prior, t_memberships db !! (workspace, id) = Some prior ∧
    t_memberships db !! (workspace, UserID (SessUser session)) = Some "admin" ∧
    (prior = "admin" → newRole ≠ "admin" →
       1 < countRows (λ k r, (k.1 ==? workspace) && (r ==? "admin")) (t_memberships db)) ∧
    db' = with_imports (if (prior !=? "viewer") && (newRole ==? "viewer")
                        then updateRows (λ _ r, pendingOf workspace id r) revokeJob (t_imports db)
                        else t_imports db)
           (with_memberships
              (updateRows (λ k _, (k.1 ==? workspace) && (k.2 ==? id)) (λ _, newRole)
                 (t_memberships db)) db).
Proof.
  unfold changeRoleTx. intros H. db_inv.
  all: repeat match goal with H : sessionRole _ _ _ _ _ = _ |- _ => apply sessionRole_inv in H as [-> ?] end.
  all: match goal with H : (?r ==? "admin") = true, H' : _ = Some ?r |- _ =>
         apply bool_decide_eq_true in H; subst r end.
  all: eexists; split; [eassumption|]; split; [eassumption|].
  all: match goal with H : ?b = _ |- context [if ?b then _ else _] => rewrite H end.
  all: split; [|by destruct db].
  all: try (intros _ _; by apply Z.ltb_lt).
  all: intros -> Hn.
  all: match goal with H : (_ ==? "admin") && _ = false |- _ => by rewrite (bool_decide_false _ Hn) in H end.
Qed.

Lemma changeUserRole_admin workspace session id newRole :
  Steps (preserves has_admin) (changeUserRole workspace session id newRole).
Proof.
  unfold changeUserRole. apply steps_guarded; [apply _|]. intros _. apply steps_transaction_ok; [apply _|].
  intros env n db u db' n' (prior & Hp & _ & Hc & ->)%changeRoleTx_run Ha w r Hr. simpl in *.
  setoid_rewrite lookup_updateRows.
  destruct (Ha w r Hr) as [u1 Hu1]. destruct (decide (w = workspace)) as [->|Hw].
  2: { exists u1. rewrite Hu1. simpl. by rewrite bool_decide_false. }
  destruct (decide (newRole = "admin")) as [->|Hne].
  { exists u1. rewrite Hu1. simpl. by case_if. }
  destruct (decide (prior = "admin")) as [->|Hp1].
  - destruct (proj1 (countRows_two _ _) (Hc eq_refl Hne))
      as ([w1 k1] & [w2 k2] & v1 & v2 & Hk & H1 & H2 & P1 & P2). simpl in *.
    breflect_in P1. breflect_in P2. destruct P1 as [-> ->], P2 as [-> ->].
    destruct (decide (k1 = id)) as [->|Hi].
    + exists k2. rewrite H2. simpl. rewrite (bool_decide_false (k2 = id)) by congruence.
      by rewrite andb_false_r.
    + exists k1. rewrite H1. simpl. rewrite (bool_decide_false (k1 = id)) by done.
      by rewrite andb_false_r.
  - exists u1. rewrite Hu1. simpl. rewrite (bool_decide_false (u1 = id)) by congruence.
    by rewrite andb_false_r.
Qed.

(** ** Interleavings of the identity handlers *)
Section interleavings.
Context (IDKey : string → list N → list N) (ParseAddress : string → option string)
        (ToLower : string → string) (enabled : bool) (hash : string) (ttl : Z) (dummy : string).
Abbreviation bootstrap := (bootstrap IDKey ParseAddress ToLower enabled hash).
Abbreviation login := (login IDKey ToLower ttl dummy).
Abbreviation createUser := (createUser IDKey ParseAddress ToLower).

(** One request of one identity handler, in any world. *)
Inductive identity_step (db : DB) : DB → Prop :=
  | is_bootstrap token wname name email password env n :
      identity_step db (out_db (bootstrap token wname name email password env n db))
  | is_login host email password old env n :
      identity_step db (out_db (login host email password old env n db))
  | is_logout session env n : identity_step db (out_db (logout session env n db))
  | is_createWorkspace name user env n :
      identity_step db (out_db (createWorkspace name user env n db))
  | is_createUser ws name email password role env n :
      identity_step db (out_db (createUser ws name email password role env n db))
  | is_changeUserRole ws session id role env n :
      identity_step db (out_db (changeUserRole ws session id role env n db)).

(** C36: no sequence of bootstrap, login, logout, workspace creation, user creation and role change requests, in any order and by anybody, whatever fails in them, leaves a workspace without an administrator: starting from a database where every workspace has one (the empty database is one), every workspace of every reachable database has a member whose role is admin. A request is taken as a whole; a role change holds the row of its workspace locked from its first statement to its commit. *)
Theorem every_workspace_has_admin db db' w row :
  has_admin db → rtc identity_step db db' → t_workspaces db' !! w = Some row →
  ∃ u, t_memberships db' !! (w, u) = Some "admin".
Proof.
  intros Ha Hs Hw. revert w row Hw. change (has_admin db').
  induction Hs as [|d1 d2 d3 Hstep _ IH]; [done|]. apply IH. destruct Hstep;
    [apply bootstrap_admin | apply login_admin | apply logout_admin | apply createWorkspace_admin
    | apply createUser_admin | apply changeUserRole_admin]; done.
Qed.

(** ** Enrolment *)

Definition enrolment_kept (d d' : DB) : Prop := is_Some (t_bootstrap d) → t_bootstrap d' = t_bootstrap d.
#[local] Instance enrolment_kept_preorder : PreOrder enrolment_kept.
Proof.
  split; [by intros d|]. intros d1 d2 d3 H1 H2 Hs. specialize (H1 Hs).
  rewrite <- H1 in Hs |- *. auto.
Qed.

Lemma identity_step_enrolment d d' : identity_step d d' → enrolment_kept d d'.
Proof.
  intros [token wname name email password env n|host email password old env n|session env n
    |name user env n|ws name email password role env n|ws session id role env n].
  - revert env n d. change (Steps enrolment_kept (bootstrap token wname name email password)).
    unfold Auth.bootstrap, insertInitialWorkspaceSLAPolicy, insertMembership,
      insertRetentionPolicy, insertWorkspace, insertUser, enrolledQuery. steps.
    all: try (apply steps_insertInto; [apply _|]; by intros).
    apply steps_stmt; [apply _|]. intros t d0 x d1. destruct (t_bootstrap d0) eqn:E; [done|].
    intros _ [? Hs]. congruence.
  - revert env n d. change (Steps enrolment_kept (login host email password old)).
    unfold Auth.login, loginAllowed, issueSession. steps.
    all: try (apply steps_exec; [apply _|]; by intros).
    apply steps_insertInto; [apply _|]; by intros.
  - revert env n d. change (Steps enrolment_kept (logout session)).
    unfold logout. steps. apply steps_exec; [apply _|]; by intros.
  - revert env n d. change (Steps enrolment_kept (createWorkspace name user)).
    unfold createWorkspace, insertInitialWorkspaceSLAPolicy, insertMembership,
      insertRetentionPolicy, insertWorkspace. steps.
    all: apply steps_insertInto; [apply _|]; by intros.
  - revert env n d. change (Steps enrolment_kept (createUser ws name email password role)).
    unfold Auth.createUser, insertMembership, insertUser. steps.
    all: apply steps_insertInto; [apply _|]; by intros.
  - revert env n d. change (Steps enrolment_kept (changeUserRole ws session id role)).
    unfold changeUserRole, changeRoleTx. steps.
    all: apply steps_exec; [apply _|]; by intros.
Qed.

(** A bootstrap on an enrolled installation does nothing. *)
Lemma bootstrap_enrolled token wname name email password env n db :
  is_Some (t_bootstrap db) →
  let o := bootstrap token wname name email password env n db in
  out_db o = db ∧ is_ok (out_res o) = false.
Proof.
  intros [row Hrow]. simpl. unfold Auth.bootstrap, enrolledQuery, bind, guard, query, stmt, throw.
  case_if; simpl; [|done]. destruct (localIdentity _ _ _ _ _) as [em|]; simpl; [|done].
  case_if; simpl; [|done]. destruct (env_fault env n || env_done env n); simpl; [done|].
  by rewrite Hrow.
Qed.

(** An installation is enrolled at most once: after a bootstrap has been acknowledged, in every database that any interleaving of identity requests can reach, every further bootstrap request fails and leaves the database unchanged, even with the right bootstrap token. *)
Theorem bootstrap_once token wname name email password env n db r db1 n1 db2
    token' wname' name' email' password' env' n' :
  bootstrap token wname name email password env n db = mkOut (Ok r) db1 n1 →
  rtc identity_step db1 db2 →
  let o := bootstrap token' wname' name' email' password' env' n' db2 in
  out_db o = db2 ∧ is_ok (out_res o) = false.
Proof.
  intros Hb Hs. apply bootstrap_enrolled.
  assert (enrolment_kept db1 db2) as Hk.
  { clear Hb. induction Hs; [reflexivity|]. etransitivity; [by apply identity_step_enrolment|done]. }
  assert (is_Some (t_bootstrap db1)) as Hd.
  { unfold Auth.bootstrap, insertInitialWorkspaceSLAPolicy, insertMembership,
      insertRetentionPolicy, insertWorkspace, insertUser, enrolledQuery in Hb.
    db_inv. by eexists. }
  by rewrite Hk.
Qed.
End interleavings.

(** ** Revocation *)

(** When a role change to viewer is acknowledged, the member is a viewer and every import they submitted in that workspace and that was queued or processing is failed as authorization-revoked, without worker or lease and with a higher fence, while every other import and every finished import is unchanged. *)
Theorem role_revocation_fences workspace session id prior env n db u db' n' :
  t_memberships db !! (workspace, id) = Some prior → prior ≠ "viewer" →
  changeUserRole workspace session id "viewer" env n db = mkOut (Ok u) db' n' →
  t_memberships db' !! (workspace, id) = Some "viewer" ∧
  ∀ i r, t_imports db !! i = Some r →
    if pendingOf workspace id r
    then ∃ r', t_imports db' !! i = Some r' ∧ i_meta r' = i_meta r ∧
           i_state (i_job r') = IFailed ∧ i_failure_code (i_job r') = Some revocationCode ∧
           i_worker_id (i_job r') = None ∧ i_lease_until (i_job r') = None ∧
           i_fence (i_job r') = i_fence (i_job r) + 1
    else t_imports db' !! i = Some r.
Proof.
  intros Hp Hv Hrun. unfold changeUserRole in Hrun. do 2 run_inv_step.
  apply transaction_inv in Hrun as [n1 Hrun].
  apply changeRoleTx_run in Hrun as (prior' & Hp' & _ & _ & ->). simplify_eq. simpl.
  rewrite bool_decide_false by done. simpl. rewrite !lookup_updateRows, Hp. simpl.
  rewrite !bool_decide_true by done. split; [done|]. intros i r Hr.
  rewrite lookup_updateRows, Hr. simpl. case_if; [|done]. eexists; split_and!; eauto.
Qed.

Definition member_admin : string := "a".
Definition member_target : string := "b".
Definition exampleJob : ImportJob :=
  {| i_state := IProcessing; i_observation_count := 0; i_failure_code := None;
     i_failure_message := None; i_worker_id := Some "w"; i_fence := 1; i_attempts := 1;
     i_lease_until := Some 90000000; i_available_at := 0 |}.
Definition exampleMeta (actor : string) : ImportMeta :=
  {| i_run_id := "run"; i_workspace_id := "ws"; i_asset_id := "asset"; i_source_id := "src";
     i_scan_id := "scan"; i_scope := {| ScopeID := "s"; ScopeRevision := "r"; ScopeBranch := "m" |};
     i_format := "sarif"; i_mapping := {| MSourceFindingID := ""; MTitle := ""; MSourceSeverity := "";
       MSourceLocation := ""; MSourceLine := ""; MImpact := ""; MRemediation := ""; MDescription := "" |};
     i_source_scan_at := Some 1000; i_collected_at := 2000; i_imported_at := 3000;
     i_source_status := "succeeded"; i_scan_kind := "full"; i_completeness := "complete";
     i_report_digest := "sha256:00"; i_report_key := "key"; i_report_size := 10;
     i_metadata_digest := "sha256:01"; i_submitted_by := Some actor |}.
Definition exampleImport (actor : string) : ImportRow :=
  {| i_meta := exampleMeta actor; i_job := exampleJob;
     i_evidence := {| i_evidence_availability := "available"; i_evidence_revision := 1;
                      i_retention_transition := None;
                      i_evidence_expired_at := None |} |}.
Definition exampleSession (user : string) : authenticatedSession :=
  {| SessUser := {| UserID := user; UserName := "n"; UserEmail := "e" |};
     SessExpiresAt := 10 ^ 12; SessTokenHash := "hash-" +:+ user |}.
Definition exampleUser : UserRow :=
  {| u_name := "n"; u_email := "e"; u_password_hash := None; u_auth_method := "oidc"; u_created_at := 0 |}.
Definition exampleSessionRow (user : string) : SessionRow :=
  {| s_user_id := user; s_created_at := 0; s_expires_at := 10 ^ 12; s_revoked_at := None |}.

(** A workspace with an administrator [a], an analyst [b], and an import of
    [b] that a worker is processing. *)
Definition exampleDB : DB :=
  with_imports {["import" := exampleImport "b"]}
  (with_sessions {["hash-a" := exampleSessionRow "a"; "hash-b" := exampleSessionRow "b"]}
  (with_memberships {[("ws", "a") := "admin"; ("ws", "b") := "analyst"]}
  (with_users {["a" := exampleUser; "b" := exampleUser]}
  (with_assets {["asset" := {| a_workspace_id := "ws"; a_name := "api"; a_kind := "repo";
      a_environment := ""; a_criticality := "medium"; a_tags := []; a_owner_id := Some "b";
      a_created_at := 0 |}]}
  (with_workspaces {["ws" := {| w_name := "main"; w_created_at := 0;
      w_notification_policy_epoch := 1 |}]} emptyDB))))).

Lemma role_revocation_fences_witness :
  ∃ u db' n', changeUserRole "ws" (exampleSession "a") "b" "viewer" calm 0%nat exampleDB =
    mkOut (Ok u) db' n' ∧ t_memberships db' !! ("ws", "b") = Some "viewer".
Proof.
  do 3 eexists. split; [vm_compute; reflexivity|].
  eapply (role_revocation_fences "ws" (exampleSession "a") "b" "analyst" calm 0%nat exampleDB);
    [vm_compute; reflexivity | done | vm_compute; reflexivity].
Defined.

Definition exampleIDKey (p : string) (salt : list N) : list N := resize 32 7%N (bytes p).

(** Ada enrols the installation, logs in, adds Bob as a second administrator,
    and steps down. *)
Section enrolled.
Abbreviation step := (identity_step exampleIDKey (λ e, Some e) (λ e, e) true (sha256Key "secret") (10 ^ 12) "").
Definition enrolled : DB := out_db (bootstrap exampleIDKey (λ e, Some e) (λ e, e) true (sha256Key "secret")
  "secret" "main" "Ada" "ada@example.org" "correct horse battery" calm 0%nat emptyDB).
Definition loggedIn := login exampleIDKey (λ e, e) (10 ^ 12) "" "10.0.0.1" "ada@example.org" "correct horse battery" None
  calm 100%nat enrolled.
Definition adaSession : authenticatedSession :=
  match out_res loggedIn with
  | Ok (user, _, s) => {| SessUser := user; SessExpiresAt := cookieExpires s; SessTokenHash := sha256Key (cookieValue s) |}
  | Err _ => exampleSession "a"
  end.
Definition adaWorkspace : string :=
  match out_res loggedIn with Ok (_, w :: _, _) => WorkspaceID w | _ => "" end.
Definition twoAdmins : DB := out_db (createUser exampleIDKey (λ e, Some e) (λ e, e) adaWorkspace "Bob" "bob@example.org"
  "another password" "admin" calm 200%nat (out_db loggedIn)).
Definition steppedDown : DB := out_db (changeUserRole adaWorkspace adaSession (UserID (SessUser adaSession)) "viewer"
  calm 300%nat twoAdmins).

Lemma every_workspace_has_admin_witness :
  t_memberships steppedDown !! (adaWorkspace, UserID (SessUser adaSession)) = Some "viewer" ∧
  ∃ u, t_memberships steppedDown !! (adaWorkspace, u) = Some "admin".
Proof.
  split; [vm_compute; reflexivity|].
  eapply (every_workspace_has_admin exampleIDKey (λ e, Some e) (λ e, e) true (sha256Key "secret") (10 ^ 12) "" emptyDB
    steppedDown adaWorkspace); [| |vm_compute; reflexivity].
  - intros w r Hw. vm_compute in Hw. discriminate Hw.
  - apply (rtc_l step _ enrolled); [apply is_bootstrap|]. apply (rtc_l step _ (out_db loggedIn)); [apply is_login|].
    apply (rtc_l step _ twoAdmins); [apply is_createUser|]. apply rtc_once, is_changeUserRole.
Defined.
End enrolled.

Lemma bootstrap_once_witness :
  ∃ r db1 n1,
    bootstrap exampleIDKey (λ e, Some e) (λ e, e) true (sha256Key "secret")
      "secret" "main" "Ada" "ada@example.org" "correct horse battery" calm 0%nat emptyDB =
      mkOut (Ok r) db1 n1 ∧
    is_ok (out_res (bootstrap exampleIDKey (λ e, Some e) (λ e, e) true (sha256Key "secret")
      "secret" "other" "Eve" "eve@example.org" "another password" calm 100%nat db1)) = false.
Proof.
  do 3 eexists. split; [vm_compute; reflexivity|].
  eapply (bootstrap_once exampleIDKey (λ e, Some e) (λ e, e) true (sha256Key "secret") 0 ""
    "secret" "main" "Ada" "ada@example.org" "correct horse battery" calm 0%nat emptyDB);
    [vm_compute; reflexivity | apply rtc_refl].
Defined.

(** ** Login throttle *)

(** The answers of successive throttle checks of clients with their addresses,
    each in its own world; a check that fails as infrastructure admits nobody. *)
Fixpoint throttled (calls : list (string * (Env * nat))) (db : DB) : list (string * bool) :=
  match calls with
  | [] => []
  | (host, (env, n)) :: l =>
      let o := loginAllowed host env n db in
      (host, match out_res o with Ok b => b | Err _ => false end) :: throttled l (out_db o)
  end.

(** A call in a world whose process clock stands at [t]. *)
Definition set_now (env : Env) (t : Z) : Env * nat :=
  ({| env_clock := env_clock env; env_now := λ _, t; env_fault := env_fault env;
      env_commit := env_commit env; env_done := env_done env; env_fresh := env_fresh env;
      env_locked := env_locked env; env_nanos := env_nanos env; env_interval := env_interval env |}, 0%nat).

(** How many attempts whose address falls into [bucket] were admitted. *)
Definition admitted (bucket : Z) (l : list (string * bool)) : Z :=
  Z.of_nat (length (filter (λ p : string * bool, throttleBucket p.1 = bucket ∧ p.2 = true) l)).
Lemma admitted_cons bucket host b l :
  admitted bucket ((host, b) :: l) = admitted bucket l + (if (throttleBucket host =? bucket) && b then 1 else 0).
Proof.
  unfold admitted. rewrite filter_cons. simpl. destruct (decide (throttleBucket host = bucket ∧ b = true)) as [[-> ->]|Hn].
  - rewrite Z.eqb_refl. cbn [length andb]. lia.
  - destruct (throttleBucket host =? bucket) eqn:E, b; simpl; lia.
Qed.

Definition within (bucket t : Z) (calls : list (string * (Env * nat))) : Prop :=
  Forall (λ c : string * (Env * nat), throttleBucket c.1 = bucket → ∀ k, env_now c.2.1 k < t) calls.

Lemma throttled_window bucket calls db w a :
  t_throttle db !! bucket = Some (w, a) → within bucket (w + minute) calls →
  0 ≤ admitted bucket (throttled calls db) ≤ Z.max 0 (30 - a).
Proof.
  revert db a. induction calls as [|[host [env n]] l IH]; intros db a Ha Hl; cbn [throttled].
  { unfold admitted. simpl. lia. }
  apply Forall_cons in Hl as [Hn Hl]. simpl in Hn. rewrite admitted_cons.
  unfold loginAllowed, bind, now, exec, stmt, ret.
  destruct (env_fault env (n + 1) || env_done env (n + 1)); simpl.
  { rewrite andb_false_r, Z.add_0_r. by apply IH. }
  destruct (Z.eqb_spec (throttleBucket host) bucket) as [<-|Hne].
  - rewrite Ha. simpl. specialize (Hn eq_refl n). rewrite (proj2 (Z.leb_gt w (env_now env n - minute))) by lia. simpl.
    specialize (IH (with_throttle (<[throttleBucket host := (w, a + 1)]> (t_throttle db)) db) (a + 1)).
    simpl in IH. rewrite lookup_insert_eq in IH. specialize (IH eq_refl Hl).
    destruct (Z.leb_spec (a + 1) 30); lia.
  - simpl. rewrite Z.add_0_r. apply IH; [|done]. simpl. by rewrite lookup_insert_ne.
Qed.

(** C39: the login throttle admits at most 30 attempts per client bucket in one window: whatever the bucket held before, once an attempt has opened a window (the first attempt of an address of the bucket, or the first once the previous window is a minute old), that attempt and all attempts of the next minute from all addresses that share the bucket, interleaved in any way with attempts in other buckets, together contain at most 30 that are allowed to check a password. *)
Theorem login_throttle_bound host env n calls db b :
  let bucket := throttleBucket host in
  out_res (loginAllowed host env n db) = Ok b →
  (∀ w a, t_throttle db !! bucket = Some (w, a) → w ≤ env_now env n - minute) →
  within bucket (env_now env n + minute) calls →
  admitted bucket (throttled ((host, (env, n)) :: calls) db) ≤ 30.
Proof.
  intros bucket Hok Hw Hl. revert Hok. cbn [throttled]. rewrite admitted_cons. unfold loginAllowed, bind, now, exec, stmt, ret.
  destruct (env_fault env (n + 1) || env_done env (n + 1)); simpl; [done|intros _]. fold bucket.
  assert (countAttempt (env_now env n) (t_throttle db !! bucket) = (env_now env n, 1)) as ->.
  { unfold countAttempt. destruct (t_throttle db !! bucket) as [[w a]|] eqn:E; [|done].
    by rewrite (proj2 (Z.leb_le _ _)) by eauto. }
  rewrite Z.eqb_refl. simpl.
  pose proof (throttled_window bucket calls
    (with_throttle (<[bucket := (env_now env n, 1)]> (t_throttle db)) db) (env_now env n) 1) as IH.
  simpl in IH. rewrite lookup_insert_eq in IH. specialize (IH eq_refl Hl). lia.
Qed.

(** Two addresses that share a bucket, and one of another. *)
Definition sameBucket : string := "10.0.30.73".
Definition thirdHost : string := "192.168.0.9".
Definition exampleCalls : list (string * (Env * nat)) :=
  mjoin (replicate 20 [("10.0.0.1", set_now calm 0); (sameBucket, set_now calm 0); (thirdHost, set_now calm 0)]).

Lemma login_throttle_bound_witness :
  throttleBucket sameBucket = throttleBucket "10.0.0.1" ∧
  admitted (throttleBucket "10.0.0.1") (throttled (("10.0.0.1", (calm, 0%nat)) :: exampleCalls) emptyDB) ≤ 30.
Proof.
  split; [vm_compute; reflexivity|].
  apply (login_throttle_bound "10.0.0.1" calm 0%nat exampleCalls emptyDB true).
  - vm_compute. reflexivity.
  - intros w a Hw. by vm_compute in Hw.
  - apply Forall_forall. intros c Hc _ k. unfold exampleCalls in Hc. apply list_elem_of_join in Hc as (l & Hc & Hl).
    apply elem_of_replicate in Hl as [-> _]. repeat (apply elem_of_cons in Hc as [->|Hc]; [vm_compute; reflexivity|]).
    by apply elem_of_nil in Hc.
Defined.

Example throttle_admits_30 :
  admitted (throttleBucket "10.0.0.1") (throttled exampleCalls emptyDB) = 30.
Proof. vm_compute. reflexivity. Qed.

(** ** Passwords *)

Lemma RawStd_no_dollar l : Forall (λ b, (b < 256)%N) l → Forall (λ b, b ≠ dollar) (bytes (RawStd l)).
Proof.
  intros Hl. unfold RawStd. pose proof (b64digits_small l Hl) as Hd.
  assert (Forall (λ b, (b < 256)%N ∧ b ≠ dollar) (b64encode 43 47 l)) as Hc.
  { rewrite b64encode_digits. apply Forall_fmap. eapply Forall_impl; [done|]. intros d Hd'.
    simpl in *. unfold b64char, dollar. repeat case_if; rewrite ?N.ltb_lt, ?N.ltb_ge in *; lia. }
  rewrite bytes_of_bytes; (eapply Forall_impl; [done|]); naive_solver.
Qed.

Lemma Split_encodeHash salt key :
  Forall (λ b, (b < 256)%N) salt → Forall (λ b, (b < 256)%N) key →
  Split (encodeHash salt key) dollar =
  [""; "argon2id"; "v=19"; passwordParameters; RawStd salt; RawStd key].
Proof.
  intros Hs Hk. unfold Split.
  assert (bytes (encodeHash salt key) =
    [] ++ dollar :: (bytes "argon2id" ++ dollar :: (bytes "v=19" ++ dollar ::
      (bytes passwordParameters ++ dollar :: (bytes (RawStd salt) ++ dollar :: bytes (RawStd key)))))) as ->.
  { unfold encodeHash. rewrite !bytes_app. reflexivity. }
  rewrite splitBytes_app by constructor.
  rewrite splitBytes_app by (by apply (bool_decide_unpack _)).
  rewrite splitBytes_app by (by apply (bool_decide_unpack _)).
  rewrite splitBytes_app by (by apply (bool_decide_unpack _)).
  rewrite splitBytes_app, splitBytes_none by (by apply RawStd_no_dollar).
  simpl. by rewrite !of_bytes_bytes.
Qed.

(** Password hashes round trip: with a key derivation that returns 32 bytes, the stored hash of a password verifies a candidate exactly when both derive the same key from the stored salt; in particular the password itself verifies, whatever the database and the world, as long as the request is not cancelled. *)
Theorem password_hash_roundtrip (IDKey : string → list N → list N) password env n db h db1 n1 :
  (∀ p salt, length (IDKey p salt) = 32%nat ∧ Forall (λ b, (b < 256)%N) (IDKey p salt)) →
  hashPassword IDKey password env n db = mkOut (Ok h) db1 n1 →
  ∃ salt, length salt = 16%nat ∧ h = encodeHash salt (IDKey password salt) ∧
    ∀ candidate env' n' db', env_done env' n' = false →
      out_res (checkPassword IDKey candidate h env' n' db') =
      Ok (bool_decide (IDKey password salt = IDKey candidate salt)).
Proof.
  intros Hkey Hh. unfold hashPassword, derivePassword in Hh. db_inv.
  set (salt := resize 16 0%N (bytes (env_fresh env n))). exists salt.
  assert (length salt = 16%nat) as Hlen by (unfold salt; by rewrite length_resize).
  split; [done|]. split; [done|]. intros candidate env' n' db' Hd.
  assert (Forall (λ b, (b < 256)%N) salt) as Hs.
  { unfold salt. apply Forall_resize; [done|apply bytes_small]. }
  destruct (Hkey password salt) as [Hl Hk].
  unfold checkPassword. rewrite Split_encodeHash by done.
  rewrite !(bool_decide_true (_ = _)) by done. simpl.
  rewrite !RawStd_roundtrip by done. rewrite Hlen, Hl. simpl.
  unfold handle, derivePassword, bind, ctxErr. simpl. by rewrite Hd.
Qed.

Lemma exampleIDKey_ok p salt :
  length (exampleIDKey p salt) = 32%nat ∧ Forall (λ b, (b < 256)%N) (exampleIDKey p salt).
Proof.
  split; [apply length_resize|]. apply Forall_resize; [done|apply bytes_small].
Qed.

Lemma password_hash_roundtrip_witness :
  ∃ h db1 n1, hashPassword exampleIDKey "correct horse" calm 0%nat emptyDB = mkOut (Ok h) db1 n1 ∧
    ∃ salt, length salt = 16%nat ∧ h = encodeHash salt (exampleIDKey "correct horse" salt) ∧
    ∀ candidate env' n' db', env_done env' n' = false →
      out_res (checkPassword exampleIDKey candidate h env' n' db') =
      Ok (bool_decide (exampleIDKey "correct horse" salt = exampleIDKey candidate salt)).
Proof.
  do 3 eexists. split; [vm_compute; reflexivity|].
  eapply (password_hash_roundtrip exampleIDKey "correct horse" calm 0%nat emptyDB);
    [apply exampleIDKey_ok | vm_compute; reflexivity].
Defined.

(** ** Sessions *)

Lemma checkPassword_db IDKey p h env n db r db' n' :
  checkPassword IDKey p h env n db = mkOut r db' n' → db' = db.
Proof. intros H. pose proof (steps_checkPassword eq IDKey p h env n db) as E. by rewrite H in E. Qed.

Lemma issueSession_run ttl old uid env n db s db' n' :
  issueSession ttl old uid env n db = mkOut (Ok s) db' n' →
  t_users db' = t_users db ∧
  (∃ at_, t_sessions db' !! sha256Key (cookieValue s) =
     Some {| s_user_id := uid; s_created_at := at_; s_expires_at := cookieExpires s;
             s_revoked_at := None |}) ∧
  (∀ v row, old = Some v → sha256Key v ≠ sha256Key (cookieValue s) →
     t_sessions db' !! sha256Key v = Some row → s_user_id row ≠ uid).
Proof.
  unfold issueSession. intros H. db_inv.
  - split; [done|]. split; [eexists; by rewrite lookup_insert_eq|].
    intros v row [= <-] Hne. rewrite lookup_insert_ne by congruence.
    intros [Hr Hf]%map_lookup_filter_Some. simpl in Hf. revert Hr.
    rewrite lookup_updateRows. destruct (t_sessions db !! _) as [s0|]; [|done]. simpl.
    rewrite bool_decide_true by done. simpl. intros [= <-] Hu.
    destruct (s_user_id s0 ==? uid) eqn:E; simpl in Hf.
    + destruct (s_revoked_at s0) eqn:Er; simpl in Hf; rewrite ?E, ?Er, ?orb_true_r in Hf; done.
    + apply bool_decide_eq_false in E. done.
  - split; [done|]. split; [eexists; by rewrite lookup_insert_eq|]. done.
Qed.

(** An acknowledged login opens exactly the session it hands out: the issued cookie authenticates as that user until it expires, in every later world without infrastructure failures, and the session of the cookie the client presented can no longer authenticate as that user. *)
Theorem login_session IDKey ToLower ttl dummy host email password old env n db user ws s db' n' :
  login IDKey ToLower ttl dummy host email password old env n db = mkOut (Ok (user, ws, s)) db' n' →
  (∀ raw env' k, RawURLDecode (cookieValue s) = Some raw → length raw = 32%nat →
     len (cookieValue s) = 43 → faultless env' → env_now env' k < cookieExpires s →
     out_res (authenticate [cookieValue s] env' k db') =
     Ok {| SessUser := user; SessExpiresAt := cookieExpires s;
           SessTokenHash := sha256Key (cookieValue s) |}) ∧
  (∀ v session env' k, old = Some v → sha256Key v ≠ sha256Key (cookieValue s) →
     out_res (authenticate [v] env' k db') = Ok session → UserID (SessUser session) ≠ UserID user).
Proof.
  unfold login, loginAllowed, memberships. intros H. db_inv.
  match goal with H : checkPassword _ _ _ _ _ _ = _ |- _ => apply checkPassword_db in H as -> end.
  match goal with H : issueSession _ _ _ _ _ _ = _ |- _ =>
    apply issueSession_run in H as (Hu & [at_ Hs] & Hold) end.
  match goal with H : findRow _ _ = Some _ |- _ => apply findRow_Some in H as [Huser _] end.
  simpl in *. split.
  - intros raw env' k Hraw Hlen Hl Hok Hnow. unfold authenticate. rewrite Hraw, Hlen, Hl. simpl.
    unfold bind, now. simpl. rewrite run_query by done. simpl. rewrite Hs. simpl.
    rewrite (proj2 (Z.ltb_lt _ _)) by done. rewrite Hu, Huser. done.
  - intros v session env' k -> Hne Ha.
    destruct (authenticate [v] env' k _) as [[found|] db2 k2] eqn:E; simplify_eq/=.
    unfold authenticate in E. db_inv. simpl. eapply Hold; eauto.
Qed.

(** A user with a known password, and a world whose first draw is a session
    token: 32 bytes in unpadded base64url. *)
Definition tokenEnv : Env :=
  {| env_clock := env_clock calm; env_now := env_now calm; env_fault := env_fault calm;
     env_commit := env_commit calm; env_done := env_done calm;
     env_fresh := λ _, RawURL (replicate 32 5%N);
     env_locked := env_locked calm; env_nanos := env_nanos calm; env_interval := env_interval calm |}.
Definition loginDB : DB :=
  with_users {["a" := {| u_name := "Ada"; u_email := "ada@example.org";
    u_password_hash := Some (encodeHash (replicate 16 3%N) (exampleIDKey "correct horse" []));
    u_auth_method := "local"; u_created_at := 0 |}]} emptyDB.

Lemma login_session_witness :
  ∃ user ws s db' n',
    login exampleIDKey (λ e, e) 3600000000 "" "10.0.0.1" "ada@example.org" "correct horse" None
      tokenEnv 0%nat loginDB = mkOut (Ok (user, ws, s)) db' n' ∧ UserName user = "Ada" ∧
    out_res (authenticate [cookieValue s] calm 5%nat db') =
    Ok {| SessUser := user; SessExpiresAt := cookieExpires s;
          SessTokenHash := sha256Key (cookieValue s) |}.
Proof.
  do 5 eexists. split; [vm_compute; reflexivity|]. split; [reflexivity|].
  eapply (proj1 (login_session exampleIDKey (λ e, e) 3600000000 "" "10.0.0.1" "ada@example.org"
    "correct horse" None tokenEnv 0%nat loginDB _ _ _ _ _ ltac:(vm_compute; reflexivity)));
    [vm_compute; reflexivity | vm_compute; reflexivity | vm_compute; reflexivity
    | apply calm_faultless | vm_compute; reflexivity].
Defined.
