(* ===== verification/Intake.v ===== *)
(** * internal/app: report intake

    [imports.go] (validation, replay, acceptance, reading one import) and the
    publication of report evidence in [storage.go].  The object store is a
    parameter: the answers of PutObject and HeadObject for one call, and of the
    evidence reader; the adapter registry is an argument. *)
From S2P Require Import Prelude GoLib Encoding Tx ReportAdapter Schema Auth.
Local Open Scope Z_scope.

Definition APIVersion : string := "aspm/v1alpha1".
Definition importReplayWindow : Z := 24 * 60 * 60 * 1000000.

(** [fmt.Sprintf("sha256:%x", sha256.Sum256(data))]. *)
Definition reportDigest (data : list N) : string := "sha256:" +:+ hex (Sum256 data).

Record importInput := {
  inAPIVersion : string; inAssetID : string; inFormat : string; inReport : string;
  inSourceID : string; inScanID : string; inScope : Scope; inSourceScanAt : option Z;
  inCollectedAt : Z; inSourceStatus : string; inScanKind : string; inCompleteness : string;
  inMapping : Mapping }.

Definition validImport (i : importInput) : bool :=
  if (inAPIVersion i !=? APIVersion) || negb (validID (inAssetID i)) ||
     negb (validText (inSourceID i) 512) || negb (validText (inScanID i) 512) ||
     negb (validText (ScopeID (inScope i)) 512) || negb (validText (ScopeRevision (inScope i)) 512) ||
     negb (validText (ScopeBranch (inScope i)) 512) || IsZero (inCollectedAt i) ||
     match inSourceScanAt i with Some t => IsZero t | None => false end
  then false
  else if (inSourceStatus i !=? "succeeded") && (inSourceStatus i !=? "failed") then false
  else if (inScanKind i !=? "full") && (inScanKind i !=? "delta") then false
  else (inCompleteness i ==? "complete") || (inCompleteness i ==? "partial") ||
       (inCompleteness i ==? "unknown").

(** ** JSON of the request *)

Definition scopeJSON (s : Scope) : JSON :=
  JObject [("id", JString (ScopeID s)); ("revision", JString (ScopeRevision s));
           ("branch", JString (ScopeBranch s))].

(** [omitempty] leaves out the empty fields. *)
Definition mappingJSON (m : Mapping) : JSON :=
  JObject ((λ p, (p.1, JString p.2)) <$>
    filter (λ p : string * string, p.2 ≠ "")
      [("sourceFindingId", MSourceFindingID m); ("title", MTitle m);
       ("sourceSeverity", MSourceSeverity m); ("sourceLocation", MSourceLocation m);
       ("sourceLine", MSourceLine m); ("impact", MImpact m); ("remediation", MRemediation m);
       ("description", MDescription m)]).

Definition optionTime (t : option Z) : option JSON :=
  match t with
  | None => Some JNull
  | Some t => JString <$> formatTime t
  end.

(** json.Marshal(input); [None] when a time is outside the years 0..9999. *)
Definition importJSON (i : importInput) : option JSON :=
  scanAt ← optionTime (inSourceScanAt i);
  collected ← formatTime (inCollectedAt i);
  Some (JObject [("apiVersion", JString (inAPIVersion i)); ("assetId", JString (inAssetID i));
    ("format", JString (inFormat i)); ("report", JString (inReport i));
    ("sourceId", JString (inSourceID i)); ("scanId", JString (inScanID i));
    ("scope", scopeJSON (inScope i)); ("sourceScanAt", scanAt); ("collectedAt", JString collected);
    ("sourceStatus", JString (inSourceStatus i)); ("scanKind", JString (inScanKind i));
    ("completeness", JString (inCompleteness i)); ("mapping", mappingJSON (inMapping i))]).

Definition withoutReport (i : importInput) : importInput :=
  {| inAPIVersion := inAPIVersion i; inAssetID := inAssetID i; inFormat := inFormat i;
     inReport := ""; inSourceID := inSourceID i; inScanID := inScanID i; inScope := inScope i;
     inSourceScanAt := inSourceScanAt i; inCollectedAt := zeroTime;
     inSourceStatus := inSourceStatus i; inScanKind := inScanKind i;
     inCompleteness := inCompleteness i; inMapping := inMapping i |}.

(** The error of json.Marshal is dropped, its data is then nil. *)
Definition metadataDigest (i : importInput) : string :=
  reportDigest (match importJSON (withoutReport i) with
                | Some v => bytes (marshal v) | None => [] end).

Definition runIdentity (workspace : string) (i : importInput) : string :=
  reportDigest (bytes (marshal (JArray [JString workspace; JString (inSourceID i); JString (inScanID i)]))).

(** ** Records *)

(** [importRecord] as [scanImport] reads it: the row with its primary key. *)
Record importRecord := { recID : string; recRow : ImportRow }.
Definition recMeta (r : importRecord) : ImportMeta := i_meta (recRow r).
Definition WorkspaceOf (r : importRecord) : string := i_workspace_id (recMeta r).
Definition SubmittedBy (r : importRecord) : string := default "" (i_submitted_by (recMeta r)).
Definition WorkerID (r : importRecord) : string := default "" (i_worker_id (i_job (recRow r))).
Definition Fence (r : importRecord) : Z := i_fence (i_job (recRow r)).
Definition RetentionTransition (r : importRecord) : string :=
  default "" (i_retention_transition (i_evidence (recRow r))).

(** The failure shown with an import. *)
Definition importFailure (r : importRecord) : option (string * string) :=
  code ← i_failure_code (i_job (recRow r));
  Some (code, default "" (i_failure_message (i_job (recRow r)))).

Definition replayAllowed (now : Z) (record : importRecord) (i : importInput)
    (digest metadata : string) : option error :=
  if (i_asset_id (recMeta record) !=? inAssetID i) || (i_scope (recMeta record) !=? inScope i) ||
     (i_report_digest (recMeta record) !=? digest) || (i_metadata_digest (recMeta record) !=? metadata)
  then Some errConflict
  else if negb (now <? i_imported_at (recMeta record) + importReplayWindow) then Some errReplayExpired
  else None.

Definition sourceScanRow (workspace source scan : string) (r : ImportRow) : bool :=
  (i_workspace_id (i_meta r) ==? workspace) && (i_source_id (i_meta r) ==? source) &&
  (i_scan_id (i_meta r) ==? scan).

Definition sourceScan (workspace : string) (i : importInput) : M DB importRecord :=
  query (λ _ db,
    match findRow (λ _ r, sourceScanRow workspace (inSourceID i) (inScanID i) r) (t_imports db) with
    | Some (id, r) => Ok {| recID := id; recRow := r |}
    | None => Err ErrNoRows
    end).

(** [importReply]: 200 for a finished import, 202 otherwise. *)
Definition importReply (record : importRecord) : Z * importRecord :=
  let st := i_state (i_job (recRow record)) in
  (if (st ==? ISucceeded) || (st ==? IFailed) then 200 else 202, record).

(** ** Evidence publication (storage.go) *)

Definition segmentByte (b : N) : bool :=
  ((65 <=? b) && (b <=? 90) || (97 <=? b) && (b <=? 122) || (48 <=? b) && (b <=? 57))%N.

(** [^[A-Za-z0-9][A-Za-z0-9._-]{0,199}$] *)
Definition storageSegment (s : string) : bool :=
  match bytes s with
  | [] => false
  | b :: l => segmentByte b && (length l <=? 199)%nat &&
      forallb (λ b, segmentByte b || (b =? 46) || (b =? 95) || (b =? 45))%N l
  end.

(** The object store of one call: whether the conditional PUT of a key was
    accepted, and the length HEAD reports afterwards. *)
Record ObjectStore := { PutObject : string → list N → bool; HeadObject : string → option Z }.

Definition put (s3 : ObjectStore) (prefix : string) (limit : Z) (workspace id : string)
    (data : list N) : Res string :=
  if negb (storageSegment workspace) || negb (storageSegment id) || (limit <? Z.of_nat (length data))
  then Err EvidenceErrOther
  else
    let key := prefix +:+ workspace +:+ "/" +:+ id +:+ "/" +:+ hex (Sum256 data) in
    if negb (PutObject s3 key data) then Err EvidenceErrOther
    else match HeadObject s3 key with
         | Some n => if n =? Z.of_nat (length data) then Ok key else Err EvidenceErrOther
         | None => Err EvidenceErrOther
         end.

(** ** Acceptance *)

Section intake.
Context (registry : option Registry) (s3 : ObjectStore) (prefix : string) (limit : Z).

(** The checks shared by the preflight and the final transaction: the actor
    may import into the asset, [additional] authority holds, and an existing
    scan may be replayed. *)
Definition intakeCheck (workspace : string) (session : authenticatedSession) (i : importInput)
    (digest metadata : string) (strictActor : bool) (additional : option (M DB unit))
    : M DB importRecord :=
  authorizeIntake session workspace (inAssetID i) ;;;
  (match additional with Some check => check | None => ret tt end) ;;;
  existing <- sourceScan workspace i ;;
  now <- now ;;
  match replayAllowed now existing i digest metadata with
  | Some e => throw e
  | None =>
      guard (negb (strictActor && (SubmittedBy existing !=? UserID (SessUser session)))) errConflict ;;;
      ret existing
  end.

(** [pgx.ErrNoRows] of the check means that the scan is new. *)
Definition newScan (m : M DB importRecord) : M DB (option importRecord) :=
  handle m (λ r, match r with
                 | Ok existing => ret (Some existing)
                 | Err e => if decide (e = ErrNoRows) then ret None else throw e
                 end).

Definition importMeta (workspace actor runID key digest metadata : string) (size now : Z)
    (i : importInput) : ImportMeta :=
  {| i_run_id := runID; i_workspace_id := workspace; i_asset_id := inAssetID i;
     i_source_id := inSourceID i; i_scan_id := inScanID i; i_scope := inScope i;
     i_format := inFormat i; i_mapping := inMapping i; i_source_scan_at := inSourceScanAt i;
     i_collected_at := inCollectedAt i; i_imported_at := now; i_source_status := inSourceStatus i;
     i_scan_kind := inScanKind i; i_completeness := inCompleteness i; i_report_digest := digest;
     i_report_key := key; i_report_size := size; i_metadata_digest := metadata;
     i_submitted_by := Some actor |}.

(** The column defaults of a new queue entry. *)
Definition queuedJob (t : Z) : ImportJob :=
  {| i_state := IQueued; i_observation_count := 0; i_failure_code := None; i_failure_message := None;
     i_worker_id := None; i_fence := 0; i_attempts := 0; i_lease_until := None; i_available_at := t |}.
Definition availableEvidence : ImportEvidence :=
  {| i_evidence_availability := "available"; i_evidence_revision := 1; i_retention_transition := None;
     i_evidence_expired_at := None |}.

Definition insertImport (id : string) (m : ImportMeta) : M DB importRecord :=
  stmt (λ t db,
    if anyRow (λ _ r, (i_run_id (i_meta r) ==? i_run_id m) || (i_report_key (i_meta r) ==? i_report_key m) ||
                      sourceScanRow (i_workspace_id m) (i_source_id m) (i_scan_id m) r) (t_imports db)
    then Err ErrUnique
    else if negb (match i_submitted_by m with Some u => isSome (t_users db !! u) | None => true end) then Err ErrConstraint
    else match t_assets db !! i_asset_id m with
         | Some a =>
             if a_workspace_id a ==? i_workspace_id m then
               let row := {| i_meta := m; i_job := queuedJob t; i_evidence := availableEvidence |} in
               match insertRow id row (t_imports db) with
               | Ok imports => Ok ({| recID := id; recRow := row |}, with_imports imports db)
               | Err e => Err e
               end
             else Err ErrConstraint
         | None => Err ErrConstraint
         end).

(** The final transaction: replay, or insert the queue entry. *)
Definition acceptTx (workspace : string) (session : authenticatedSession) (i : importInput)
    (digest metadata id runID key : string) (size : Z) (strictActor : bool)
    (additional : option (M DB unit)) : M DB (Z * importRecord) :=
  found <- newScan (intakeCheck workspace session i digest metadata strictActor additional) ;;
  match found with
  | Some existing => ret (importReply existing)
  | None =>
      now <- now ;;
      record <- insertImport id (importMeta workspace (UserID (SessUser session)) runID key digest
                                   metadata size now i) ;;
      authorizeIntake session workspace (inAssetID i) ;;;
      (match additional with Some check => check | None => ret tt end) ;;;
      ret (importReply record)
  end.

Definition acceptImport (workspace : string) (session : authenticatedSession) (input : importInput)
    (report : string) (strictActor : bool) (additional : option (M DB unit)) : M DB (Z * importRecord) :=
  guard (validImport input) errInvalid ;;;
  guard (Supports registry (inFormat input)) errUnsupported ;;;
  match RegistryValidateMapping registry (inFormat input) (inMapping input) with
  | Some _ => throw errInvalid
  | None =>
      let digest := reportDigest (bytes report) in
      let metadata := metadataDigest input in
      found <- transaction (newScan (intakeCheck workspace session input digest metadata
                                       strictActor additional)) ;;
      match found with
      | Some existing => ret (importReply existing)
      | None =>
          id <- newID ;;
          runID <- newID ;;
          match put s3 prefix limit workspace id (bytes report) with
          | Err e => throw e
          | Ok key =>
              transaction (acceptTx workspace session input digest metadata id runID key
                             (len report) strictActor additional)
          end
      end
  end.
End intake.

(** ** Reading one import *)

Definition evidenceAvailabilityError (e : error) : option (string * error) :=
  match e with
  | EvidenceErrNotFound => Some ("missing", errEvidenceMissing)
  | EvidenceErrIntegrity => Some ("corrupt", errEvidenceCorrupt)
  | _ => None
  end.

Definition setAvailability (workspace id : string) (revision : Z) (states : list string)
    (state : string) (db : DB) : DB :=
  with_imports (updateRows (λ k r, (k ==? id) && (i_workspace_id (i_meta r) ==? workspace) &&
      (i_evidence_revision (i_evidence r) =? revision) &&
      bool_decide (i_evidence_availability (i_evidence r) ∈ states))
    (λ r, {| i_meta := i_meta r; i_job := i_job r;
             i_evidence := {| i_evidence_availability := state;
                              i_evidence_revision := i_evidence_revision (i_evidence r) + 1;
                              i_retention_transition := i_retention_transition (i_evidence r);
                              i_evidence_expired_at := i_evidence_expired_at (i_evidence r) |} |})
    (t_imports db)) db.

Definition readImport (workspace id : string) : M DB importRecord :=
  query (λ _ db, match t_imports db !! id with
                 | Some r => if i_workspace_id (i_meta r) ==? workspace
                             then Ok {| recID := id; recRow := r |} else Err ErrNoRows
                 | None => Err ErrNoRows
                 end).

(** [read] is the evidence reader; without [evidence] the record is shown. *)
Definition importResource (read : importRecord → Res (list N)) (workspace id : string)
    (evidence : bool) : M DB (importRecord + list N) :=
  record <- readImport workspace id ;;
  let ev := i_evidence (recRow record) in
  if negb evidence then ret (inl record)
  else
    guard (i_evidence_availability ev !=? "expired") errEvidenceExpired ;;;
    guard (RetentionTransition record ==? "") errUnavailable ;;;
    match read record with
    | Err e =>
        match evidenceAvailabilityError e with
        | Some (state, problem) =>
            exec (λ _ db, (tt, setAvailability workspace id (i_evidence_revision ev)
                                 ["available"; "missing"; "corrupt"] state db)) ;;;
            throw problem
        | None => throw e
        end
    | Ok data =>
        (if i_evidence_availability ev !=? "available" then
           exec (λ _ db, (tt, setAvailability workspace id (i_evidence_revision ev)
                                ["missing"; "corrupt"] "available" db))
         else ret tt) ;;;
        ret (inr data)
    end.
