(* ===== verification/Reconcile.v ===== *)
(** * internal/app: reconciling a report into findings

    [import_authorization.go] (the actor and the lease are re-checked before,
    during and after evidence access) and [reconcile.go] (upserting findings,
    recording observations, inferring resolution from complete scans, change
    events, the terminal receipt).  The batches of a slice are sequences of
    statements; all slices share one transaction. *)
From S2P Require Import Prelude GoLib Encoding Tx ReportAdapter Schema Auth Intake.
Local Open Scope Z_scope.

(** ** Authorization (import_authorization.go) *)

Definition authorizeActor (record : importRecord) : M DB unit :=
  done <- ctxErr ;;
  guard (negb done) ErrContext ;;;
  guard (SubmittedBy record !=? "") errAuthorizationRevoked ;;;
  query (λ _ db,
    match t_memberships db !! (WorkspaceOf record, SubmittedBy record) with
    | None => Err errAuthorizationRevoked
    | Some role => if (role !=? "admin") && (role !=? "analyst") then Err errAuthorizationRevoked
                   else Ok tt
    end).

Definition leaseLive (t : Z) (j : ImportJob) : bool :=
  match i_lease_until j with Some x => t <? x | None => false end.

(** The second statement of [authorizeImport]: the queue entry of the claim. *)
Definition checkClaim (record : importRecord) : M DB unit :=
  query (λ t db,
    match t_imports db !! recID record with
    | None => Err errLeaseLost
    | Some r =>
        if negb (i_workspace_id (i_meta r) ==? WorkspaceOf record) then Err errLeaseLost
        else if (default "" (i_failure_code (i_job r)) ==? "authorization-revoked") ||
                (default "" (i_submitted_by (i_meta r)) !=? SubmittedBy record)
        then Err errAuthorizationRevoked
        else if (i_state (i_job r) !=? IProcessing) || negb (i_fence (i_job r) =? Fence record) ||
                (default "" (i_worker_id (i_job r)) !=? WorkerID record) || negb (leaseLive t (i_job r))
        then Err errLeaseLost
        else Ok tt
    end).

Definition authorizeImport (record : importRecord) : M DB unit :=
  authorizeActor record ;;;
  checkClaim record.

(** Two statements on the pool; [pause] is what other sessions do in between. *)
Definition failRevokedImport (pause : M DB unit) (record : importRecord) : M DB unit :=
  updated <- exec (λ _ db,
    match t_imports db !! recID record with
    | Some r =>
        let j := i_job r in
        if (i_workspace_id (i_meta r) ==? WorkspaceOf record) &&
           (i_worker_id j ==? Some (WorkerID record)) && (i_fence j =? Fence record) &&
           (i_state j ==? IProcessing)
        then (true, with_imports (<[recID record := setJob r
               {| i_state := IFailed; i_observation_count := i_observation_count j;
                  i_failure_code := Some revocationCode; i_failure_message := Some revocationMessage;
                  i_worker_id := None; i_fence := i_fence j; i_attempts := i_attempts j;
                  i_lease_until := None; i_available_at := i_available_at j |}]> (t_imports db)) db)
        else (false, db)
    | None => (false, db)
    end) ;;
  if (updated : bool) then ret tt
  else
    pause ;;;
    revoked <- query (λ _ db,
      match t_imports db !! recID record with
      | Some r => if i_workspace_id (i_meta r) ==? WorkspaceOf record
                  then Ok ((i_state (i_job r) ==? IFailed) &&
                           (i_failure_code (i_job r) ==? Some "authorization-revoked"))
                  else Err ErrNoRows
      | None => Err ErrNoRows
      end) ;;
    guard revoked errLeaseLost.

(** ** Classification (reconcile.go) *)

Definition comparable (m : ImportMeta) : bool :=
  (i_source_status m ==? "succeeded") && (i_scan_kind m ==? "full") &&
  (i_completeness m ==? "complete") && isSome (i_source_scan_at m).

Record reconciledFinding := {
  rfID : string; rfChangeKind : string; rfChangeRunID : string; rfContentDigest : string;
  rfChangeAt : option Z; rfChangeRevision : Z; rfSourceScanAt : option Z }.

Definition findingContentDigest (f : Finding) : string :=
  reportDigest (bytes (marshal (JObject [
    ("SourceFindingID", JString (SourceFindingID f)); ("Title", JString (Title f));
    ("Description", JString (Description f)); ("SourceSeverity", JString (SourceSeverity f));
    ("Severity", JString (Severity f)); ("Impact", JString (Impact f));
    ("Remediation", JString (Remediation f)); ("EvidenceText", JString (EvidenceText f));
    ("SourceLabel", JString (SourceLabel f));
    ("Location", JObject [("uri", JString (URI (FLocation f))); ("line", JInt (Line (FLocation f)))]);
    ("Unmapped", sortMaps (JObject (Unmapped f)))]))).

(** [value[:end]] for the largest [end <= n] that is valid UTF-8. *)
Fixpoint validPrefix (n : nat) (l : list N) : list N :=
  match n with
  | O => []
  | S n' => if utf8Valid (take n l) then take n l else validPrefix n' l
  end.

Definition boundedNotificationSnapshot (value : string) (limit : nat) : string :=
  if len value <=? Z.of_nat limit then value else of_bytes (validPrefix limit (bytes value)).

Definition outOfOrder (m : ImportMeta) (digest : string) (result : reconciledFinding) : bool :=
  if i_source_status m !=? "succeeded" then false
  else if rfChangeRunID result ==? i_run_id m then false
  else match i_source_scan_at m, rfSourceScanAt result with
       | Some a, Some b => if a <? b then true else digest !=? rfContentDigest result
       | _, _ => digest !=? rfContentDigest result
       end.

Definition observationChange (m : ImportMeta) (digest : string) (result : reconciledFinding)
    : string * list string :=
  let reasons :=
    (if i_source_status m !=? "succeeded" then ["source-status-failed"]
     else if outOfOrder m digest result then ["out-of-order"] else []) ++
    (if i_completeness m ==? "partial" then ["partial-scan"]
     else if i_completeness m ==? "unknown" then ["unknown-completeness"] else []) ++
    (if i_scan_kind m ==? "delta" then ["delta-scan"] else []) ++
    (match i_source_scan_at m with None => ["unknown-source-time"] | Some _ => [] end) in
  if i_source_status m !=? "succeeded" then ("non-authoritative", reasons)
  else if bool_decide ("out-of-order" ∈ reasons) then ("historical", reasons)
  else if rfChangeRunID result ==? i_run_id m then (rfChangeKind result, reasons)
  else ("unchanged", reasons).

Definition correlationCandidateLocation (l : Location) : string * Z :=
  let uri := TrimSpace (URI l) in
  if (uri ==? "") || (Line l <=? 0) then ("", 0) else (uri, Line l).

(** ** The upsert *)

(** The arguments of one upsert: the row as it would be inserted, whether the
    source status is [succeeded] ($25) and whether its freshness counts ($26). *)
Record upsert := { up_id : string; up_row : FindingRow; up_authoritative : bool; up_fresh : bool }.

Definition newer (authoritative : bool) (f e : FindingRow) : bool :=
  authoritative &&
  match p_source_scan_at (f_projection e) with
  | Some scan =>
      match p_source_scan_at (f_projection f) with Some old => old <? scan | None => true end &&
      match f_source_freshness_at f with Some fresh => fresh <=? scan | None => true end
  | None => match p_source_scan_at (f_projection f), f_source_freshness_at f with
            | None, None => true | _, _ => false end
  end.

Definition changedKind (f e : FindingRow) : string :=
  if p_source_state (f_projection f) ==? "inferred-resolved" then "reopened"
  else if p_content_digest (f_projection f) ==? "" then "unchanged"
  else if p_content_digest (f_projection f) !=? p_content_digest (f_projection e) then "changed"
  else "unchanged".

(** [ON CONFLICT ... DO UPDATE SET]. *)
Definition updateFinding (u : upsert) (f : FindingRow) : FindingRow :=
  let e := up_row u in
  let n := newer (up_authoritative u) f e in
  let candidateNewer := n || ((f_candidate_uri f ==? "") && up_authoritative u && (f_candidate_uri e !=? "")) in
  {| f_scope := f_scope f; f_identity_key := f_identity_key f;
     f_first_observed_at := f_first_observed_at f;
     f_projection := if n then f_projection e else f_projection f;
     f_candidate_uri := if candidateNewer then f_candidate_uri e else f_candidate_uri f;
     f_candidate_line := if candidateNewer then f_candidate_line e else f_candidate_line f;
     f_change := if n then {| c_kind := changedKind f e; c_at := c_at (f_change e);
                              c_run_id := c_run_id (f_change e); c_revision := c_revision (f_change f) + 1 |}
                 else f_change f;
     f_source_freshness_at :=
       match f_source_freshness_at e, f_source_freshness_at f with
       | Some a, Some b => if up_fresh u && (b <? a) then Some a else Some b
       | Some a, None => if up_fresh u then Some a else None
       | None, old => old
       end;
     f_decision := f_decision f;
     f_evidence_revision := f_evidence_revision f + 1 |}.

Definition sameFinding (e f : FindingRow) : bool :=
  (f_scope f ==? f_scope e) && (f_identity_key f ==? f_identity_key e).

Definition validSeverity (s : string) : bool :=
  bool_decide (s ∈ ["critical"; "high"; "medium"; "low"; "info"]).

(** The CHECK constraints on the values a report supplies. *)
Definition findingChecks (e : FindingRow) : bool :=
  validSeverity (p_severity (f_projection e)) && (len (f_candidate_uri e) <=? 8192) &&
  (0 <=? f_candidate_line e) && (f_candidate_line e <=? 2147483647) &&
  (((f_candidate_uri e ==? "") && (f_candidate_line e =? 0)) ||
   ((f_candidate_uri e !=? "") && (0 <? f_candidate_line e))).

Definition returning (id : string) (f : FindingRow) : reconciledFinding :=
  {| rfID := id; rfChangeKind := c_kind (f_change f); rfChangeRunID := c_run_id (f_change f);
     rfContentDigest := p_content_digest (f_projection f); rfChangeAt := c_at (f_change f);
     rfChangeRevision := c_revision (f_change f);
     rfSourceScanAt := p_source_scan_at (f_projection f) |}.

Definition findingUpsert (u : upsert) (db : DB) : Res (reconciledFinding * DB) :=
  if negb (findingChecks (up_row u)) then Err ErrConstraint
  else match findRow (λ _ f, sameFinding (up_row u) f) (t_findings db) with
       | Some (id, f) =>
           let f' := updateFinding u f in
           Ok (returning id f', with_findings (<[id := f']> (t_findings db)) db)
       | None =>
           match insertRow (up_id u) (up_row u) (t_findings db) with
           | Ok findings => Ok (returning (up_id u) (up_row u), with_findings findings db)
           | Err e => Err e
           end
       end.

(** The row a finding of the report would be inserted as. *)
Definition findingRow (m : ImportMeta) (owner : option string) (coverage : option Z) (f : Finding)
    : FindingRow * bool :=
  let succeeded := i_source_status m ==? "succeeded" in
  let covered := succeeded &&
    match i_source_scan_at m, coverage with Some s, Some c => s <? c | _, _ => false end in
  let state := if covered then "inferred-resolved" else if succeeded then "observed" else "unknown" in
  let freshness := if covered then coverage else if comparable m then i_source_scan_at m else None in
  let '(uri, line) := if succeeded then correlationCandidateLocation (FLocation f) else ("", 0) in
  ({| f_scope := importKey m; f_identity_key := Identity f; f_first_observed_at := i_imported_at m;
      f_projection := {| p_title := Title f; p_description := Description f;
        p_remediation := Remediation f; p_severity := Severity f; p_evidence_text := EvidenceText f;
        p_source_label := SourceLabel f; p_source_scan_at := i_source_scan_at m;
        p_collected_at := i_collected_at m; p_imported_at := i_imported_at m;
        p_source_state := state; p_content_digest := findingContentDigest f |};
      f_candidate_uri := uri; f_candidate_line := line;
      f_change := {| c_kind := if succeeded then "new" else "unchanged";
                     c_at := if succeeded then Some (i_imported_at m) else None;
                     c_run_id := if succeeded then i_run_id m else "";
                     c_revision := 1 |};
      f_source_freshness_at := freshness;
      f_decision := {| d_owner_id := owner; d_workflow_state := "open"; d_disposition := "none";
                       d_accepted_risk_expires_at := None; d_decision_revision := 1 |};
      f_evidence_revision := 1 |}, comparable m || covered).

Definition upsertFinding (m : ImportMeta) (owner : option string) (coverage : option Z) (f : Finding)
    : M DB reconciledFinding :=
  id <- newID ;;
  let '(row, fresh) := findingRow m owner coverage f in
  stmt (λ _ db, findingUpsert {| up_id := id; up_row := row;
                                 up_authoritative := i_source_status m ==? "succeeded";
                                 up_fresh := fresh |} db).

(** ** Observations and change events *)

Definition observation (m : ImportMeta) (id : string) (f : Finding) (result : reconciledFinding)
    : Observation :=
  let '(kind, reasons) := observationChange m (findingContentDigest f) result in
  {| o_id := id; o_run_id := i_run_id m; o_source_id := i_source_id m; o_scan_id := i_scan_id m;
     o_scope := i_scope m; o_source_scan_at := i_source_scan_at m;
     o_source_finding_id := SourceFindingID f; o_source_severity := SourceSeverity f;
     o_normalized_severity := Severity f; o_source_location := FLocation f; o_impact := Impact f;
     o_remediation := Remediation f; o_unmapped := Unmapped f; o_evidence_digest := i_report_digest m;
     o_change_kind := kind; o_change_reasons := reasons |}.

Definition insertObservation (m : ImportMeta) (ordinal : Z) (f : Finding) (result : reconciledFinding)
    : M DB unit :=
  id <- newID ;;
  insertInto t_observations with_observations
    (λ db, if anyRow (λ _ o, (ob_run_id o ==? i_run_id m) && (ob_ordinal o =? ordinal)) (t_observations db)
           then Some ErrUnique else None)
    id {| ob_workspace_id := i_workspace_id m; ob_finding_id := rfID result;
          ob_run_id := i_run_id m; ob_ordinal := ordinal; ob_evidence := hotEvidence (observation m id f result) |}.

Definition notificationChangeKinds : list string := ["new"; "changed"; "reopened"].

Definition notifies (policyEpoch : Z) (m : ImportMeta) (result : reconciledFinding) : bool :=
  (0 <? policyEpoch) && comparable m && (rfChangeRunID result ==? i_run_id m) &&
  bool_decide (rfChangeKind result ∈ notificationChangeKinds) && isSome (rfChangeAt result).

Definition insertChangeEvent (m : ImportMeta) (policyEpoch : Z) (assetName : string) (f : Finding)
    (result : reconciledFinding) : M DB unit :=
  id <- newID ;;
  let row := {| ce_workspace_id := i_workspace_id m; ce_finding_id := rfID result;
    ce_policy_epoch := policyEpoch; ce_title := boundedNotificationSnapshot (Title f) 1024;
    ce_severity := Severity f; ce_asset_name := boundedNotificationSnapshot assetName 256;
    ce_change_kind := rfChangeKind result; ce_change_revision := rfChangeRevision result;
    ce_change_at := default 0 (rfChangeAt result); ce_job := pendingChange;
    ce_detail := freshDetail |} in
  stmt (λ _ db,
    if negb ((1 <=? len (ce_title row)) && (len (ce_title row) <=? 1024) &&
             (1 <=? len (ce_asset_name row)) && (len (ce_asset_name row) <=? 256) &&
             validSeverity (ce_severity row) && (0 <? ce_change_revision row)) then Err ErrConstraint
    else if anyRow (λ _ e, (ce_workspace_id e ==? ce_workspace_id row) &&
                      (ce_finding_id e ==? ce_finding_id row) &&
                      (ce_change_revision e =? ce_change_revision row)) (t_changeEvents db)
    then Ok (tt, db)
    else match insertRow id row (t_changeEvents db) with
         | Ok events => Ok (tt, with_changeEvents events db)
         | Err e => Err e
         end).

(** One slice: upserts first, then observations with their change events. *)
Definition recordOne (m : ImportMeta) (policyEpoch : Z) (assetName : string)
    (item : Z * (Finding * reconciledFinding)) : M DB unit :=
  let '(ordinal, (f, result)) := item in
  insertObservation m ordinal f result ;;;
  if notifies policyEpoch m result then insertChangeEvent m policyEpoch assetName f result else ret tt.

Definition reconcileSlice (m : ImportMeta) (owner : option string) (coverage : option Z)
    (policyEpoch : Z) (assetName : string) (start : Z) (slice : list Finding) : M DB unit :=
  reconciled <- mapM (upsertFinding m owner coverage) slice ;;
  foldM (λ _ item, recordOne m policyEpoch assetName item)
    (zip (seqZ start (Z.of_nat (length slice))) (zip slice reconciled)) tt.

(** [for start := 0; start < len(findings); start += 100]; [n] bounds the
    number of slices. *)
Fixpoint reconcileSlices (m : ImportMeta) (owner : option string) (coverage : option Z)
    (policyEpoch : Z) (assetName : string) (n : nat) (start : Z) (findings : list Finding) : M DB unit :=
  match n, findings with
  | S n', _ :: _ =>
      reconcileSlice m owner coverage policyEpoch assetName start (take 100 findings) ;;;
      reconcileSlices m owner coverage policyEpoch assetName n' (start + 100) (drop 100 findings)
  | _, _ => ret tt
  end.

(** ** Inferred resolution *)

Definition absent (m : ImportMeta) (scan : Z) (observations : gmap string ObservationRow)
    (id : string) (f : FindingRow) : bool :=
  (f_scope f ==? importKey m) &&
  match p_source_scan_at (f_projection f) with Some s => s <? scan | None => false end &&
  (p_source_state (f_projection f) !=? "unknown") &&
  match f_source_freshness_at f with Some x => x <? scan | None => true end &&
  negb (anyRow (λ _ o, (ob_finding_id o ==? id) && (ob_run_id o ==? i_run_id m)) observations).

Definition inferResolved (m : ImportMeta) (scan : Z) (f : FindingRow) : FindingRow :=
  let p := f_projection f in
  {| f_scope := f_scope f; f_identity_key := f_identity_key f;
     f_first_observed_at := f_first_observed_at f;
     f_projection := {| p_title := p_title p; p_description := p_description p;
       p_remediation := p_remediation p; p_severity := p_severity p;
       p_evidence_text := p_evidence_text p; p_source_label := p_source_label p;
       p_source_scan_at := p_source_scan_at p; p_collected_at := p_collected_at p;
       p_imported_at := p_imported_at p; p_source_state := "inferred-resolved";
       p_content_digest := p_content_digest p |};
     f_candidate_uri := f_candidate_uri f; f_candidate_line := f_candidate_line f;
     f_change := {| c_kind := "inferred-resolved"; c_at := Some (i_imported_at m);
                    c_run_id := i_run_id m; c_revision := c_revision (f_change f) + 1 |};
     f_source_freshness_at := Some scan; f_decision := f_decision f;
     f_evidence_revision := f_evidence_revision f + 1 |}.

Definition markAbsent (m : ImportMeta) (scan : Z) (db : DB) : DB :=
  with_findings (updateRows (absent m scan (t_observations db)) (inferResolved m scan) (t_findings db)) db.

(** ** The transaction *)

(** SQL's conjunction over possibly NULL truth values. *)
Definition and3 (a b : option bool) : option bool :=
  match a, b with
  | Some false, _ | _, Some false => Some false
  | Some true, Some true => Some true
  | _, _ => None
  end.

Definition activeLease (record : importRecord) (t : Z) (j : ImportJob) : option bool :=
  and3 (and3 (and3 (Some (i_state j ==? IProcessing))
                   ((λ w, w ==? WorkerID record) <$> i_worker_id j))
             (Some (i_fence j =? Fence record)))
       ((λ x, t <? x) <$> i_lease_until j).

Lemma activeLease_true record t j :
  activeLease record t j = Some true →
  i_state j = IProcessing ∧ i_worker_id j = Some (WorkerID record) ∧ i_fence j = Fence record ∧
  leaseLive t j = true.
Proof.
  unfold activeLease, leaseLive. intros H.
  destruct (i_state j ==? IProcessing) eqn:E1, (i_fence j =? Fence record) eqn:E3,
    (i_worker_id j) as [w|], (i_lease_until j) as [x|]; simpl in H;
    try destruct (w ==? WorkerID record) eqn:E2; try destruct (t <? x) eqn:E4; try done.
  breflect_in E1. breflect_in E2. breflect_in E3. by subst.
Qed.

Definition finishImport (record : importRecord) (count : Z) : M DB bool :=
  exec (λ t db,
    match t_imports db !! recID record with
    | Some r =>
        let j := i_job r in
        if (i_worker_id j ==? Some (WorkerID record)) && (i_fence j =? Fence record) &&
           (i_state j ==? IProcessing) && leaseLive t j
        then (true, with_imports (<[recID record := setJob r
               {| i_state := ISucceeded; i_observation_count := count; i_failure_code := None;
                  i_failure_message := None; i_worker_id := None; i_fence := i_fence j;
                  i_attempts := i_attempts j; i_lease_until := None;
                  i_available_at := i_available_at j |}]> (t_imports db)) db)
        else (false, db)
    | None => (false, db)
    end).

Definition reconcileTx (record : importRecord) (findings : list Finding) : M DB unit :=
  let m := recMeta record in
  authorizeActor record ;;;
  active <- query (λ t db,
    match t_imports db !! recID record with
    | None => Err ErrNoRows
    | Some r => match activeLease record t (i_job r) with
                | Some b => Ok b | None => Err ErrDecode end
    end) ;;
  guard active errLeaseLost ;;;
  authorizeImport record ;;;
  asset <- query (λ _ db,
    match t_assets db !! i_asset_id m with
    | Some a =>
        if a_workspace_id a ==? i_workspace_id m then
          match t_workspaces db !! a_workspace_id a with
          | Some w => Ok (a_owner_id a, a_name a, w_notification_policy_epoch w)
          | None => Err ErrNoRows
          end
        else Err ErrNoRows
    | None => Err ErrNoRows
    end) ;;
  let '(owner, assetName, policyEpoch) := asset in
  coverage <- query (λ _ db, Ok (t_coverage db !! importKey m)) ;;
  reconcileSlices m owner coverage policyEpoch assetName (length findings) 0 findings ;;;
  (match i_source_scan_at m with
   | Some scan =>
       if comparable m && match coverage with Some c => c <? scan | None => true end then
         exec (λ _ db, (tt, markAbsent m scan db)) ;;;
         exec (λ _ db, (tt, with_coverage (<[importKey m := scan]> (t_coverage db)) db))
       else ret tt
   | None => ret tt
   end) ;;;
  authorizeImport record ;;;
  finished <- finishImport record (Z.of_nat (length findings)) ;;
  guard finished errLeaseLost.

Definition reconcile (record : importRecord) (findings : list Finding) : M DB unit :=
  transaction (reconcileTx record findings).

(** ** What reconciling writes

    A relation that holds across each of the writing statements holds across
    the whole transaction. *)
Section writes.
Context (R : DB → DB → Prop) `{!PreOrder R} (m : ImportMeta).
Context (HU : ∀ owner cov f id db x db',
           findingUpsert {| up_id := id; up_row := (findingRow m owner cov f).1;
             up_authoritative := i_source_status m ==? "succeeded";
             up_fresh := (findingRow m owner cov f).2 |} db = Ok (x, db') → R db db')
        (HO : ∀ db x, R db (with_observations x db))
        (HE : ∀ db x, R db (with_changeEvents x db)).

Lemma steps_upsertFinding owner cov f : Steps R (upsertFinding m owner cov f).
Proof.
  unfold upsertFinding. apply steps_bind; [apply _|apply steps_newID; apply _|]. intros id.
  destruct (findingRow m owner cov f) as [row fresh] eqn:E. apply steps_stmt; [apply _|].
  intros t db x db' Hu. specialize (HU owner cov f id db x db'). rewrite E in HU. by apply HU.
Qed.

Lemma steps_recordOne ep name item : Steps R (recordOne m ep name item).
Proof.
  destruct item as [ordinal [f result]]. cbn [recordOne]. apply steps_bind; [apply _|..].
  - apply steps_bind; [apply _|apply steps_newID; apply _|]. intros id.
    apply steps_insertInto; [apply _|]. intros; apply HO.
  - intros _. case_if; [|apply steps_ret; apply _]. unfold insertChangeEvent.
    apply steps_bind; [apply _|apply steps_newID; apply _|]. intros id. cbv zeta.
    apply steps_stmt; [apply _|]. intros t db x db'. destruct (negb _); [discriminate|].
    destruct (anyRow _ _); [by intros [= <- <-]|]. unfold insertRow.
    destruct (t_changeEvents db !! id); [done|]. intros [= <- <-]. apply HE.
Qed.

Lemma steps_reconcileSlices owner cov ep name n start fs :
  Steps R (reconcileSlices m owner cov ep name n start fs).
Proof.
  revert start fs. induction n as [|n IH]; intros start [|f fs]; cbn [reconcileSlices];
    try (apply steps_ret; apply _).
  apply steps_bind; [apply _| |intros _; apply IH].
  apply steps_bind; [apply _|apply steps_mapM; [apply _|]; intros; apply steps_upsertFinding|].
  intros rs. apply steps_foldM; [apply _|]. intros; apply steps_recordOne.
Qed.
End writes.

Arguments authorizeActor : simpl never.
Arguments authorizeImport : simpl never.
Arguments reconcileSlices : simpl never.
Arguments finishImport : simpl never.
Arguments reconcileTx : simpl never.
Arguments reconcile : simpl never.
Arguments failRevokedImport : simpl never.

(** ** Successful runs *)

(** The actor of the import may write in its workspace. *)
Definition actor_authorized (record : importRecord) (db : DB) : Prop :=
  SubmittedBy record ≠ "" ∧
  ∃ role, t_memberships db !! (WorkspaceOf record, SubmittedBy record) = Some role ∧
    (role = "admin" ∨ role = "analyst").

(** The queue entry is being processed under the record's claim at time [t]. *)
Definition claim_held (record : importRecord) (t : Z) (r : ImportRow) : Prop :=
  i_state (i_job r) = IProcessing ∧ i_worker_id (i_job r) = Some (WorkerID record) ∧
  i_fence (i_job r) = Fence record ∧ leaseLive t (i_job r) = true.

Lemma authorizeActor_inv record env n db x db' n' :
  authorizeActor record env n db = mkOut (Ok x) db' n' → db' = db ∧ actor_authorized record db.
Proof.
  unfold authorizeActor. intros H. db_inv.
  match goal with H : (SubmittedBy record !=? "") = true |- _ => breflect_in H end.
  match goal with H : _ && _ = false |- _ => breflect_in H end.
  split; [done|]. split; [done|]. eexists. split; [done|]. tauto.
Qed.

Lemma authorizeImport_inv record env n db x db' n' :
  authorizeImport record env n db = mkOut (Ok x) db' n' →
  db' = db ∧ actor_authorized record db ∧
  ∃ t r, t_imports db !! recID record = Some r ∧ i_state (i_job r) = IProcessing ∧
    i_fence (i_job r) = Fence record ∧ leaseLive t (i_job r) = true ∧
    default "" (i_submitted_by (i_meta r)) = SubmittedBy record ∧
    default "" (i_failure_code (i_job r)) ≠ revocationCode.
Proof.
  unfold authorizeImport, checkClaim. intros H. run_inv_step.
  match goal with H : authorizeActor _ _ _ _ = _ |- _ => apply authorizeActor_inv in H as [-> Ha] end.
  db_inv. repeat match goal with H : _ || _ = false |- _ => breflect_in H end.
  split; [done|]. split; [done|]. do 2 eexists. split; [done|]. unfold revocationCode. naive_solver.
Qed.

(** Closing a complete scan: absent findings are inferred resolved and the
    coverage of the scope moves to the scan. *)
Definition closeScan (m : ImportMeta) (coverage : option Z) (db : DB) : DB :=
  match i_source_scan_at m with
  | Some scan =>
      if comparable m && match coverage with Some c => c <? scan | None => true end
      then with_coverage (<[importKey m := scan]> (t_coverage (markAbsent m scan db)))
             (markAbsent m scan db)
      else db
  | None => db
  end.

Definition succeedJob (r : ImportRow) (count : Z) : ImportRow :=
  let j := i_job r in
  setJob r {| i_state := ISucceeded; i_observation_count := count; i_failure_code := None;
              i_failure_message := None; i_worker_id := None; i_fence := i_fence j;
              i_attempts := i_attempts j; i_lease_until := None; i_available_at := i_available_at j |}.

Lemma reconcileSlices_imports m owner cov ep name k start fs env n db :
  t_imports (out_db (reconcileSlices m owner cov ep name k start fs env n db)) = t_imports db.
Proof.
  revert env n db. change (Steps (λ d d', t_imports d' = t_imports d)
    (reconcileSlices m owner cov ep name k start fs)).
  assert (PreOrder (λ d d', t_imports d' = t_imports d)) as ?.
  { split; [done|]. intros d1 d2 d3. congruence. }
  apply steps_reconcileSlices; [done| |done..].
  intros owner' cov' f id db x db'. unfold findingUpsert. case_if; [done|].
  destruct (findRow _ _) as [[? ?]|]; [by intros [= <- <-]|].
  unfold insertRow. destruct (t_findings db !! _); [done|]. by intros [= <- <-].
Qed.

Lemma finishImport_inv record count env n db db' n' :
  finishImport record count env n db = mkOut (Ok true) db' n' →
  ∃ r, t_imports db !! recID record = Some r ∧
    db' = with_imports (<[recID record := succeedJob r count]> (t_imports db)) db.
Proof.
  unfold finishImport. intros H. run_inv_step. destruct (t_imports db !! recID record) as [r|]; [|done].
  case_if_in H; [|done]. injection H as <-. by exists r.
Qed.

(** What a reconciliation that commits did: the actor was authorized and the
    claim held, every slice was recorded, the scan was closed, and the queue
    entry of the record became succeeded with the number of findings. *)
Lemma reconcileTx_run record fs env n db x db' n' :
  reconcileTx record fs env n db = mkOut (Ok x) db' n' →
  let m := recMeta record in
  ∃ r t asset w db1 k n1,
    t_imports db !! recID record = Some r ∧ claim_held record t r ∧ actor_authorized record db ∧
    t_assets db !! i_asset_id m = Some asset ∧ a_workspace_id asset = i_workspace_id m ∧
    t_workspaces db !! a_workspace_id asset = Some w ∧
    reconcileSlices m (a_owner_id asset) (t_coverage db !! importKey m)
      (w_notification_policy_epoch w) (a_name asset) (length fs) 0 fs env k db = mkOut (Ok tt) db1 n1 ∧
    db' = with_imports (<[recID record := succeedJob r (Z.of_nat (length fs))]> (t_imports db))
            (closeScan m (t_coverage db !! importKey m) db1).
Proof.
  unfold reconcileTx. intros H. cbv zeta. run_inv_step.
  match goal with H : authorizeActor _ _ _ _ = _ |- _ => apply authorizeActor_inv in H as [-> Ha] end.
  db_inv.
  all: repeat match goal with
    | H : authorizeImport _ _ _ _ = _ |- _ => apply authorizeImport_inv in H as (-> & _ & _)
    | H : finishImport _ _ _ _ _ = _ |- _ => apply finishImport_inv in H as (? & H & ->); simpl in H
    | H : (_ ==? _) = true |- _ => apply bool_decide_eq_true in H
    | H : reconcileSlices ?m ?o ?c ?e ?na ?k ?st ?f ?env ?n ?db = mkOut (Ok ?u) _ _ |- _ =>
        lazymatch goal with HI : t_imports _ = t_imports _ |- _ => fail | _ => idtac end;
        pose proof (reconcileSlices_imports m o c e na k st f env n db) as HI;
        rewrite H in HI; simpl in HI; destruct u
    end.
  all: match goal with HI : t_imports ?d = t_imports _, Hr : t_imports ?d !! _ = Some _ |- _ =>
         rewrite HI in Hr; simplify_eq end.
  all: match goal with Ha : activeLease _ _ _ = _ |- _ => apply activeLease_true in Ha end.
  all: do 7 eexists; do 7 (split; [first [reflexivity | eassumption]|]).
  all: unfold closeScan; match goal with Hs : i_source_scan_at _ = _ |- _ => rewrite Hs end.
  all: try match goal with Hc : _ && _ = _ |- _ => rewrite Hc end.
  all: simpl; match goal with HI : t_imports ?d = t_imports _ |- _ => by rewrite HI end.
Qed.
