(* ===== verification/ImportWorker.v ===== *)
(** * internal/app: the import worker

    [worker.go]: claiming queued imports under a lease and a fence, processing
    one claimed import, draining the queue; [readAuthorizedReport] of
    [import_authorization.go].  The evidence reader and the number of
    authorization checks its watcher makes while reading are parameters. *)
From S2P Require Import Prelude GoLib Encoding Tx ReportAdapter Schema Auth Intake Reconcile.
Local Open Scope Z_scope.

Definition importLease : Z := 90 * 1000000000.
Definition importAttempts : Z := 3.
Definition second : Z := 1000000.

(** ** Claiming *)

(** [ORDER BY available_at,id]. *)
Definition claimLe (a b : string * ImportRow) : bool :=
  (i_available_at (i_job a.2) <? i_available_at (i_job b.2)) ||
  (i_available_at (i_job a.2) =? i_available_at (i_job b.2)) && strLe a.1 b.1.
Definition claimOrder (a b : string * ImportRow) : Prop := claimLe a b = true.
#[export] Instance claimOrder_dec a b : Decision (claimOrder a b).
Proof. unfold claimOrder. apply _. Defined.

Definition leaseExpired (t : Z) (j : ImportJob) : bool :=
  match i_lease_until j with Some x => x <=? t | None => false end.

Definition exhaustedImport (t : Z) (r : ImportRow) : bool :=
  let j := i_job r in
  (importAttempts <=? i_attempts j) &&
  ((i_state j ==? IQueued) || (i_state j ==? IProcessing) && leaseExpired t j).

Definition failAttempts (r : ImportRow) : ImportRow :=
  let j := i_job r in
  setJob r {| i_state := IFailed; i_observation_count := i_observation_count j;
    i_failure_code := Some "attempt-limit";
    i_failure_message := Some "Import could not complete within its permitted attempts";
    i_worker_id := None; i_fence := i_fence j; i_attempts := i_attempts j; i_lease_until := None;
    i_available_at := i_available_at j |}.

(** The ids of the exhausted imports one claim fails: at most 100. *)
Definition exhaustedIDs (locked : string → bool) (t : Z) (db : DB) : list string :=
  take 100 (fst <$> merge_sort claimOrder
    (rowsWhere (λ id r, exhaustedImport t r && negb (locked id)) (t_imports db))).

Definition claimableImport (t : Z) (r : ImportRow) : bool :=
  let j := i_job r in
  (i_attempts j <? importAttempts) &&
  ((i_state j ==? IQueued) && (i_available_at j <=? t) ||
   (i_state j ==? IProcessing) && leaseExpired t j).

Definition importCandidate (locked : string → bool) (t : Z) (db : DB) : option (string * ImportRow) :=
  argmin claimLe (rowsWhere (λ id r, claimableImport t r && negb (locked id)) (t_imports db)).

Definition claimJob (r : ImportRow) (worker : string) (until : Z) : ImportRow :=
  let j := i_job r in
  setJob r {| i_state := IProcessing; i_observation_count := i_observation_count j;
    i_failure_code := i_failure_code j; i_failure_message := i_failure_message j;
    i_worker_id := Some worker; i_fence := i_fence j + 1; i_attempts := i_attempts j + 1;
    i_lease_until := Some until; i_available_at := i_available_at j |}.

Definition claimImport (worker : string) : M DB importRecord :=
  locked <- skipLocked ;;
  exec (λ t db, (tt, with_imports (updateRows (λ id _, bool_decide (id ∈ exhaustedIDs locked t db))
                                     failAttempts (t_imports db)) db)) ;;;
  locked <- skipLocked ;;
  span <- intervalOf importLease ;;
  stmt (λ t db,
    match importCandidate locked t db with
    | None => Err ErrNoRows
    | Some (id, r) =>
        let r' := claimJob r worker (t + span) in
        Ok ({| recID := id; recRow := r' |}, with_imports (<[id := r']> (t_imports db)) db)
    end).

(** ** Processing one import

    The worker holds no lock between two requests: each statement on the pool,
    and the transaction of [reconcile], is preceded by whatever other sessions
    did meanwhile. *)

(** What other sessions do to the database at a tick. *)
Definition otherSessions (others : nat → DB → DB) : M DB unit := λ _ n db,
  mkOut (Ok tt) (others n db) (n + 1)%nat.
(** Nobody else is there. *)
Definition alone (n : nat) (db : DB) : DB := db.

Section worker.
Context (others : nat → DB → DB).
Context (registry : option Registry) (readReport : importRecord → Res (list N))
        (ticks : importRecord → nat).
Abbreviation pause := (otherSessions others).

(** [authorizeImport] on the pool. *)
Definition authorizeOnPool (record : importRecord) : M DB unit :=
  pause ;;;
  authorizeActor record ;;;
  pause ;;;
  checkClaim record.

(** The watcher: authorization checks while the report is read; the first
    error cancels the read with that cause. *)
Fixpoint watchImport (record : importRecord) (n : nat) : M DB unit :=
  match n with
  | O => ret tt
  | S n' => authorizeOnPool record ;;; watchImport record n'
  end.

Definition readAuthorizedReport (record : importRecord) : M DB (list N) :=
  authorizeOnPool record ;;;
  watchImport record (ticks record) ;;;
  match readReport record with
  | Err e => throw e
  | Ok data => authorizeOnPool record ;;; ret data
  end.

(** [UPDATE ... SET state='queued',worker_id=NULL,lease_until=NULL WHERE id=$1
    AND worker_id=$2 AND fence=$3 AND state='processing']. *)
Definition ownJob (record : importRecord) (j : ImportJob) : bool :=
  (i_worker_id j ==? Some (WorkerID record)) && (i_fence j =? Fence record) &&
  (i_state j ==? IProcessing).

Definition releaseImport (record : importRecord) (db : DB) : DB :=
  match t_imports db !! recID record with
  | Some r =>
      let j := i_job r in
      if ownJob record j
      then with_imports (<[recID record := setJob r
             {| i_state := IQueued; i_observation_count := i_observation_count j;
                i_failure_code := i_failure_code j; i_failure_message := i_failure_message j;
                i_worker_id := None; i_fence := i_fence j; i_attempts := i_attempts j;
                i_lease_until := None; i_available_at := i_available_at j |}]> (t_imports db)) db
      else db
  | None => db
  end.

Definition failJob (r : ImportRow) (t : Z) (retryable : bool) (code message : string) : ImportRow :=
  let j := i_job r in
  setJob r {| i_state := if retryable && (i_attempts j <? importAttempts) then IQueued else IFailed;
    i_observation_count := i_observation_count j; i_failure_code := Some code;
    i_failure_message := Some message; i_worker_id := None; i_fence := i_fence j;
    i_attempts := i_attempts j; i_lease_until := None;
    i_available_at := t + second * i_attempts j |}.

Definition recordFailure (record : importRecord) (retryable : bool) (code message : string) : M DB unit :=
  updated <- exec (λ t db,
    match t_imports db !! recID record with
    | Some r =>
        if ownJob record (i_job r) && leaseLive t (i_job r)
        then (true, with_imports (<[recID record := failJob r t retryable code message]> (t_imports db)) db)
        else (false, db)
    | None => (false, db)
    end) ;;
  guard updated errLeaseLost.

(** What happens to a claimed import after an error other than a lost lease. *)
Definition afterError (record : importRecord) (e : error) (retryable : bool) (code message : string)
    : M DB unit :=
  if decide (e = errAuthorizationRevoked) then pause ;;; failRevokedImport pause record
  else if decide (e = errLeaseLost) then throw e
  else
    done <- ctxErr ;;
    pause ;;;
    if (done : bool) then
      detached (λ _ db, releaseImport record db) ;;;
      throw ErrContext
    else recordFailure record retryable code message.

Definition evidenceRetryable (e : error) : bool :=
  negb (bool_decide (e ∈ [EvidenceErrScope; EvidenceErrNotFound; EvidenceErrIntegrity])).

Definition processImport (record : importRecord) : M DB unit :=
  handle (readAuthorizedReport record) (λ read,
  match read with
  | Err e =>
      afterError record e (evidenceRetryable e) "evidence-unavailable"
        "Original report evidence could not be read and verified"
  | Ok data =>
      match RegistryParse registry (i_format (recMeta record)) data (i_mapping (recMeta record)) with
      | Err e =>
          afterError record e false "invalid-report"
            "Report does not match the admitted format or exceeds parser limits"
      | Ok findings =>
          handle (pause ;;; reconcile record findings) (λ done,
          match done with
          | Ok _ => ret tt
          | Err e =>
              if decide (e = errLeaseLost) then throw e
              else afterError record e true "processing-failed" "Report processing could not be committed"
          end)
      end
  end).

(** ** Draining the queue

    [fuel] bounds the iterations; [true] means the queue was drained. *)
Fixpoint drain (fuel : nat) (worker : string) : M DB bool :=
  match fuel with
  | O => ret false
  | S fuel' =>
      done <- ctxErr ;;
      guard (negb done) ErrContext ;;;
      pause ;;;
      handle (claimImport worker) (λ claimed,
      match claimed with
      | Err e =>
          if decide (e = ErrNoRows) then
            pause ;;;
            pending <- query (λ _ db, Ok (anyRow (λ _ r, pendingJob r) (t_imports db))) ;;
            if negb pending then ret true else drain fuel' worker
          else throw e
      | Ok record =>
          handle (processImport record) (λ r,
          match r with
          | Ok _ => drain fuel' worker
          | Err e => if decide (e = errLeaseLost) then drain fuel' worker else throw e
          end)
      end)
  end.

Definition ProcessImports (fuel : nat) : M DB bool :=
  worker <- newID ;;
  drain fuel worker.
End worker.

(** ** The lifecycle of an import

    What the handlers and workers may do to one row of the imports table, as a
    step relation, and that every modelled operation that writes the table only
    takes such steps. *)

(** The job columns when a lease ends. *)
Definition endJob (j : ImportJob) (st : istate) (count : Z) (code message : option string)
    (fence available : Z) : ImportJob :=
  {| i_state := st; i_observation_count := count; i_failure_code := code; i_failure_message := message;
     i_worker_id := None; i_fence := fence; i_attempts := i_attempts j; i_lease_until := None;
     i_available_at := available |}.

Inductive istep (r : ImportRow) : ImportRow → Prop :=
  | is_claim w x :
      pendingJob r = true → i_attempts (i_job r) < importAttempts → istep r (claimJob r w x)
  | is_exhaust :
      pendingJob r = true → importAttempts ≤ i_attempts (i_job r) → istep r (failAttempts r)
  | is_revoke :
      pendingJob r = true → istep r (revokeJob r)
  | is_succeed count :
      i_state (i_job r) = IProcessing →
      istep r (setJob r (endJob (i_job r) ISucceeded count None None (i_fence (i_job r))
                           (i_available_at (i_job r))))
  | is_fail st code message available :
      i_state (i_job r) = IProcessing → (st = IFailed ∧ is_Some code ∨ st = IQueued) →
      istep r (setJob r (endJob (i_job r) st (i_observation_count (i_job r)) code message
                           (i_fence (i_job r)) available))
  | is_evidence e : istep r {| i_meta := i_meta r; i_job := i_job r; i_evidence := e |}.

(** A row that intake creates. *)
Definition newImportRow (r : ImportRow) : Prop :=
  ∃ m t, r = {| i_meta := m; i_job := queuedJob t; i_evidence := availableEvidence |} ∧
    is_Some (i_submitted_by m).

(** The UNIQUE index of the source scan. *)
Definition scanKey (r : ImportRow) : string * string * string :=
  (i_workspace_id (i_meta r), i_source_id (i_meta r), i_scan_id (i_meta r)).
Definition unique_scans (db : DB) : Prop :=
  ∀ i j r1 r2, t_imports db !! i = Some r1 → t_imports db !! j = Some r2 →
    scanKey r1 = scanKey r2 → i = j.

Definition imports_evolve (db db' : DB) : Prop :=
  (∀ i r, t_imports db !! i = Some r → ∃ r', t_imports db' !! i = Some r' ∧ rtc istep r r') ∧
  (∀ i r', t_imports db !! i = None → t_imports db' !! i = Some r' →
     ∃ r, newImportRow r ∧ rtc istep r r') ∧
  (unique_scans db → unique_scans db').

#[export] Instance imports_evolve_preorder : PreOrder imports_evolve.
Proof.
  split.
  - intros db. split_and!; [eauto using rtc_refl | intros; congruence | done].
  - intros d1 d2 d3 (H1 & N1 & U1) (H2 & N2 & U2). split_and!; [| |auto].
    + intros i r Hr. apply H1 in Hr as (r1 & Hr1 & ?). apply H2 in Hr1 as (r2 & ? & ?).
      eauto using rtc_trans.
    + intros i r3 Hn Hr3. destruct (t_imports d2 !! i) as [r2|] eqn:E2; [|eauto].
      destruct (N1 i r2 Hn E2) as (r & ? & ?). destruct (H2 i r2 E2) as (r3' & ? & ?).
      simplify_eq. eauto using rtc_trans.
Qed.

Lemma istep_stable r r' :
  rtc istep r r' →
  i_meta r' = i_meta r ∧ i_fence (i_job r) ≤ i_fence (i_job r') ∧
  i_attempts (i_job r) ≤ i_attempts (i_job r').
Proof.
  induction 1 as [|r1 r2 r3 Hs _ (IH1 & IH2 & IH3)]; [auto with lia|]. rewrite IH1.
  destruct Hs; simpl in *; split_and!; auto with lia; try lia.
Qed.

Lemma imports_same d d' : t_imports d' = t_imports d → imports_evolve d d'.
Proof.
  intros E. split_and!; unfold unique_scans; rewrite E; eauto using rtc_refl. intros; congruence.
Qed.

Lemma imports_update db id r r' :
  t_imports db !! id = Some r → rtc istep r r' →
  imports_evolve db (with_imports (<[id := r']> (t_imports db)) db).
Proof.
  intros Hr Hs. split_and!; simpl.
  - intros i ri Hi. rewrite lookup_insert. case_decide; simplify_eq; eauto using rtc_refl.
  - intros i ri Hi Hi'. rewrite lookup_insert in Hi'. case_decide; simplify_eq.
  - apply istep_stable in Hs as [Hm _]. intros Hu i j r1 r2. simpl.
    assert (scanKey r' = scanKey r) as HK by (unfold scanKey; by rewrite Hm).
    rewrite !lookup_insert. do 2 case_decide; subst; [done|..]; intros H1 H2 Hk.
    + injection H1 as <-. eapply (Hu i j r r2); [done..|]. by rewrite <- HK.
    + injection H2 as <-. eapply (Hu i j r1 r); [done..|]. by rewrite <- HK.
    + eapply (Hu i j r1 r2); done.
Qed.

Lemma imports_updateRows db P f :
  (∀ i r, t_imports db !! i = Some r → P i r = true → rtc istep r (f r)) →
  imports_evolve db (with_imports (updateRows P f (t_imports db)) db).
Proof.
  intros Hf.
  assert (∀ i r r', t_imports db !! i = Some r → updateRows P f (t_imports db) !! i = Some r' →
    rtc istep r r') as Hev.
  { intros i r r' Hr. rewrite lookup_updateRows, Hr. simpl. intros [= <-].
    destruct (P i r) eqn:E; [by eapply Hf|done]. }
  split_and!; simpl.
  - intros i r Hr. destruct (updateRows P f (t_imports db) !! i) as [r'|] eqn:E; [eauto|].
    by rewrite lookup_updateRows, Hr in E.
  - intros i r Hn. by rewrite lookup_updateRows, Hn.
  - intros Hu i j r1 r2. simpl. intros H1 H2 Hk.
    assert (is_Some (t_imports db !! i)) as [s1 S1]
      by (rewrite lookup_updateRows in H1; destruct (t_imports db !! i); [eauto|done]).
    assert (is_Some (t_imports db !! j)) as [s2 S2]
      by (rewrite lookup_updateRows in H2; destruct (t_imports db !! j); [eauto|done]).
    destruct (istep_stable _ _ (Hev _ _ _ S1 H1)) as [M1 _], (istep_stable _ _ (Hev _ _ _ S2 H2)) as [M2 _].
    eapply Hu; eauto. unfold scanKey in *. by rewrite <- M1, <- M2.
Qed.

Lemma imports_insert db id m t :
  t_imports db !! id = None → is_Some (i_submitted_by m) →
  (∀ i r, t_imports db !! i = Some r → sourceScanRow (i_workspace_id m) (i_source_id m) (i_scan_id m) r = false) →
  imports_evolve db (with_imports (<[id := {| i_meta := m; i_job := queuedJob t;
                                             i_evidence := availableEvidence |}]> (t_imports db)) db).
Proof.
  intros Hn Hs Hu. split_and!; simpl.
  - intros i r Hr. rewrite lookup_insert_ne by congruence. eauto using rtc_refl.
  - intros i r Hi. rewrite lookup_insert. case_decide; [|congruence]. intros [= <-].
    eexists. split; [by exists m, t|done].
  - assert (∀ i r, t_imports db !! i = Some r →
      scanKey r ≠ (i_workspace_id m, i_source_id m, i_scan_id m)) as Hne.
    { intros i r Hr [= E1 E2 E3]. apply Hu in Hr. unfold sourceScanRow in Hr.
      rewrite !bool_decide_true in Hr by done. done. }
    intros Hun i j r1 r2. simpl. rewrite !lookup_insert.
    do 2 case_decide; subst; [done|..]; intros H1 H2 Hk.
    + injection H1 as <-. by apply Hne in H2.
    + injection H2 as <-. by apply Hne in H1.
    + eapply Hun; done.
Qed.

(** ** Operations *)

Lemma pendingJob_processing r : i_state (i_job r) = IProcessing → pendingJob r = true.
Proof. unfold pendingJob. intros ->. done. Qed.

Section reads.
Context (R : DB → DB → Prop) `{!PreOrder R}.
Lemma steps_authorizeActor r : Steps R (authorizeActor r).
Proof. unfold authorizeActor. steps. Qed.
Lemma steps_authorizeImport r : Steps R (authorizeImport r).
Proof. unfold authorizeImport. steps; apply steps_authorizeActor; apply _. Qed.
Lemma steps_checkClaim r : Steps R (checkClaim r).
Proof. unfold checkClaim. steps. Qed.
Lemma steps_otherSessions others : (∀ n db, R db (others n db)) → Steps R (otherSessions others).
Proof. intros Ho env n db. apply Ho. Qed.
Lemma steps_alone : Steps R (otherSessions alone).
Proof. intros env n db. reflexivity. Qed.
Lemma steps_intakeCheck ws s i d md strict add :
  (∀ a, add = Some a → Steps R a) → Steps R (intakeCheck ws s i d md strict add).
Proof. intros Ha. unfold intakeCheck, sourceScan. steps; eauto. Qed.
Lemma steps_newScan m : Steps R m → Steps R (newScan m).
Proof. intros Hm. unfold newScan. steps; done. Qed.
End reads.
#[export] Hint Resolve steps_authorizeActor steps_authorizeImport steps_checkClaim steps_otherSessions
  steps_alone : steps.

Lemma forward_authorizeActor step r : Timed step (authorizeActor r).
Proof. unfold authorizeActor. timed_run. Qed.
Lemma forward_checkClaim step r : Timed step (checkClaim r).
Proof. unfold checkClaim. timed_run. Qed.
#[export] Hint Resolve forward_authorizeActor forward_checkClaim : timed.
Lemma forward_authorizeImport step r : Timed step (authorizeImport r).
Proof. unfold authorizeImport. timed_run. Qed.
#[export] Hint Resolve forward_authorizeImport : timed.
Lemma forward_reconcileSlices m owner cov ep name k start fs :
  Timed (λ _ _ _ _, True) (reconcileSlices m owner cov ep name k start fs).
Proof.
  revert start fs. induction k as [|k IH]; intros start [|f fs]; cbn [reconcileSlices]; try apply timed_ret.
  apply timed_bind; [|intros; apply IH]. unfold reconcileSlice, upsertFinding, recordOne, insertObservation, insertChangeEvent.
  forward.
Qed.
Lemma forward_finishImport r c : Timed (λ _ _ _ _, True) (finishImport r c).
Proof. unfold finishImport. forward. Qed.
#[export] Hint Resolve forward_reconcileSlices forward_finishImport : timed.
Lemma forward_reconcileTx r fs : Forward (reconcileTx r fs).
Proof. unfold reconcileTx. forward. Qed.
(** A reconciliation that commits found the claim live at a clock it read. *)
Lemma reconcileTx_claim record fs env n db x db' n' :
  reconcileTx record fs env n db = mkOut (Ok x) db' n' →
  ∃ r k, (n ≤ k ≤ n')%nat ∧ t_imports db !! recID record = Some r ∧
    claim_held record (env_clock env k) r ∧ actor_authorized record db.
Proof.
  unfold reconcileTx. intros H. cbv zeta in H. apply bind_inv in H as (u & d1 & n1 & Ha & H).
  pose proof (Timed_tick (λ _ _ _ _, True) _ _ _ _ _ _ _ (forward_authorizeActor _ record) Ha) as Hn.
  apply authorizeActor_inv in Ha as [-> Ha].
  apply bind_inv in H as (active & d2 & n2 & Hq & H).
  assert (n1 ≤ n2 ∧ n2 ≤ n')%nat as Ht.
  { split; [by eapply (Timed_tick (λ _ _ _ _, True)), Hq; apply timed_query|].
    eapply (Timed_tick (λ _ _ _ _, True)), H. forward. }
  apply query_inv in Hq as [Hq ->]. apply bind_inv in H as (u2 & d3 & n3 & [Hact ->]%guard_inv & _).
  destruct (t_imports db !! recID record) as [r|]; [|done].
  destruct (activeLease _ _ _) as [b|] eqn:El; [|done]. simplify_eq.
  exists r, n1. split; [lia|]. split; [done|]. split; [|done]. by apply activeLease_true.
Qed.

(** A relation that the others obey, and the writes of the worker, holds across
    the whole processing of an import. *)
Section processing.
Context (R : DB → DB → Prop) `{!PreOrder R} (others : nat → DB → DB) (Ho : ∀ n db, R db (others n db)).
Context (record : importRecord).
Lemma steps_authorizeOnPool : Steps R (authorizeOnPool others record).
Proof. unfold authorizeOnPool. steps. Qed.
#[local] Hint Resolve steps_authorizeOnPool : steps.
Lemma steps_watchImport n : Steps R (watchImport others record n).
Proof. induction n; simpl; steps. Qed.
#[local] Hint Resolve steps_watchImport : steps.
Lemma steps_readAuthorizedReport read ticks : Steps R (readAuthorizedReport others read ticks record).
Proof. unfold readAuthorizedReport. steps. Qed.
#[local] Hint Resolve steps_readAuthorizedReport : steps.

Context (Hreconcile : ∀ fs, Steps R (reconcile record fs)).
Context (Hrevoke : Steps R (failRevokedImport (otherSessions others) record)).
Context (Hfail : ∀ b c m, Steps R (recordFailure record b c m)).
Context (Hrelease : ∀ db, R db (releaseImport record db)).
Lemma steps_processImport registry read ticks :
  Steps R (processImport others registry read ticks record).
Proof.
  unfold processImport, afterError. steps; try apply Hfail. all: apply steps_detached; [apply _|]; intros; apply Hrelease.
Qed.
End processing.

(** ... in particular one that does not look at the queue. *)
Lemma steps_processImport_queue (R : DB → DB → Prop) `{!PreOrder R} others registry read ticks record :
  (∀ n db, R db (others n db)) → (∀ fs, Steps R (reconcile record fs)) → (∀ db x, R db (with_imports x db)) →
  Steps R (processImport others registry read ticks record).
Proof.
  intros Ho Hr Hi. apply steps_processImport; [done..| | |].
  - unfold failRevokedImport. steps. apply steps_exec; [apply _|]. intros t db.
    destruct (t_imports db !! recID record); [case_if|]; apply Hi || reflexivity.
  - intros b c m. unfold recordFailure. steps. apply steps_exec; [apply _|]. intros t db.
    destruct (t_imports db !! recID record); [case_if|]; apply Hi || reflexivity.
  - intros db. unfold releaseImport. destruct (t_imports db !! recID record); [case_if|]; apply Hi || reflexivity.
Qed.

Lemma claimImport_evolves w : Steps imports_evolve (claimImport w).
Proof.
  unfold claimImport. steps.
  - apply steps_exec; [apply _|]. intros t db. simpl. apply imports_updateRows.
    intros i r Hr Hin%bool_decide_eq_true. unfold exhaustedIDs in Hin.
    eapply elem_of_submseteq in Hin; [|apply sublist_submseteq, sublist_take].
    apply list_elem_of_fmap_1 in Hin as ([i' r'] & -> & Hin). simpl in *.
    rewrite merge_sort_Permutation in Hin. apply elem_of_rowsWhere in Hin as [Hr' He]. simplify_eq.
    apply andb_true_iff in He as [He _]. unfold exhaustedImport in He. breflect_in He.
    destruct He as [Ha Hst]. apply rtc_once, is_exhaust; [|done].
    unfold pendingJob. breflect. naive_solver.
  - apply steps_stmt; [apply _|]. intros t db x db'.
    destruct (importCandidate _ _ _) as [[id r]|] eqn:Ec; [|done]. intros [= <- <-].
    apply argmin_elem, elem_of_rowsWhere in Ec as [Hr Hc].
    apply andb_true_iff in Hc as [Hc _]. unfold claimableImport in Hc. breflect_in Hc.
    destruct Hc as [Ha Hst]. eapply imports_update; [done|]. apply rtc_once, is_claim; [|done].
    unfold pendingJob. breflect. naive_solver.
Qed.

Lemma failRevokedImport_evolves R `{!PreOrder R} pause r :
  (∀ d d', imports_evolve d d' → R d d') → Steps R pause → Steps R (failRevokedImport pause r).
Proof.
  intros HR Hp. unfold failRevokedImport. steps. apply steps_exec; [apply _|]. intros t db.
  destruct (t_imports db !! recID r) as [row|] eqn:Er; [|reflexivity].
  case_if; [|reflexivity]. simpl. apply HR. eapply imports_update; [done|]. apply rtc_once.
  apply is_fail; [naive_solver|by left; eauto].
Qed.

Lemma finishImport_evolves r c : Steps imports_evolve (finishImport r c).
Proof.
  unfold finishImport. apply steps_exec; [apply _|]. intros t db.
  destruct (t_imports db !! recID r) as [row|] eqn:Er; [|reflexivity].
  case_if; [|reflexivity]. simpl. eapply imports_update; [done|]. apply rtc_once.
  apply is_succeed. naive_solver.
Qed.

Lemma recordFailure_evolves r b c m : Steps imports_evolve (recordFailure r b c m).
Proof.
  unfold recordFailure. steps. apply steps_exec; [apply _|]. intros t db.
  destruct (t_imports db !! recID r) as [row|] eqn:Er; [|reflexivity].
  case_if; [|reflexivity]. simpl. eapply imports_update; [done|]. apply rtc_once.
  destruct E as [E _]. unfold ownJob in E. breflect_in E.
  apply is_fail; [naive_solver|]. case_if; eauto.
Qed.

Lemma releaseImport_evolves r db : imports_evolve db (releaseImport r db).
Proof.
  unfold releaseImport. destruct (t_imports db !! recID r) as [row|] eqn:Er; [|reflexivity].
  case_if; [|reflexivity]. eapply imports_update; [done|]. apply rtc_once.
  unfold ownJob in E. breflect_in E. apply is_fail; [naive_solver|by right].
Qed.

Lemma reconcileSlices_evolves m owner cov ep name n start fs :
  Steps imports_evolve (reconcileSlices m owner cov ep name n start fs).
Proof.
  apply steps_reconcileSlices; [apply _| |intros; by apply imports_same..].
  intros owner' cov' f id db x db'. unfold findingUpsert. case_if; [done|].
  destruct (findRow _ _) as [[? ?]|]; [intros [= <- <-]; by apply imports_same|].
  unfold insertRow. destruct (t_findings db !! _); [done|]. intros [= <- <-]. by apply imports_same.
Qed.
Lemma reconcile_evolves r fs : Steps imports_evolve (reconcile r fs).
Proof.
  unfold reconcile, reconcileTx. steps;
    first [apply reconcileSlices_evolves | apply finishImport_evolves
          | apply steps_exec; [apply _|]; intros; by apply imports_same].
Qed.

(** For every relation that contains the lifecycle and that the others obey. *)
Lemma processImport_evolves R `{!PreOrder R} others registry read ticks r :
  (∀ d d', imports_evolve d d' → R d d') → (∀ n db, R db (others n db)) →
  Steps R (processImport others registry read ticks r).
Proof.
  intros HR Ho. apply steps_processImport; [done..| | | |].
  - intros fs env n db. apply HR, reconcile_evolves.
  - apply failRevokedImport_evolves; [done..|]. by apply steps_otherSessions.
  - intros b c m env n db. apply HR, recordFailure_evolves.
  - intros db. apply HR, releaseImport_evolves.
Qed.

Lemma changeUserRole_evolves ws s id role : Steps imports_evolve (changeUserRole ws s id role).
Proof.
  unfold changeUserRole, changeRoleTx. steps.
  all: apply steps_exec; [apply _|]; intros t db; simpl; try by apply imports_same.
  apply imports_updateRows. intros i r _ Hp. apply rtc_once, is_revoke.
  unfold pendingOf in Hp. breflect_in Hp. naive_solver.
Qed.

Lemma acceptImport_evolves registry s3 prefix limit ws s i report strict add :
  (∀ a, add = Some a → Steps imports_evolve a) →
  Steps imports_evolve (acceptImport registry s3 prefix limit ws s i report strict add).
Proof.
  intros Ha. unfold acceptImport, acceptTx, intakeCheck. steps; eauto.
  unfold insertImport. apply steps_stmt; [apply _|]. intros t db x db'.
  case_if; [done|]. rewrite anyRow_false in E.
  repeat (case_if; [done|]). destruct (t_assets db !! _); [|done]. case_if; [|done].
  unfold insertRow. destruct (t_imports db !! _) eqn:El; [done|]. intros [= <- <-].
  apply imports_insert; [done|by eexists|]. intros j r Hr. apply E in Hr.
  breflect_in Hr. naive_solver.
Qed.

Lemma importResource_evolves read ws id ev : Steps imports_evolve (importResource read ws id ev).
Proof.
  unfold importResource, readImport. steps.
  all: apply steps_exec; [apply _|]; intros t db; simpl; apply imports_updateRows;
    intros; apply rtc_once, is_evidence.
Qed.
