(* ===== verification/Paging.v ===== *)
(** * Cursor pages

    Every list endpoint reads [id > cursor ORDER BY id LIMIT limit+1], cuts the
    extra row and hands out the id of the last row kept as the next cursor
    ([pageParameters] of http.go reads the request's side of it).  Following
    the cursors over an unchanged table visits its rows once, in order. *)
From S2P Require Import Prelude GoLib Encoding Tx Schema Auth.
Local Open Scope Z_scope.

(** [limit] and [cursor] are the query parameters, "" when absent. *)
Definition pageParameters (limit cursor : string) : Res (nat * string) :=
  match (if limit ==? "" then Some 100 else ParseInt limit) with
  | None => Err errInvalid
  | Some n =>
      if (n <? 1) || (500 <? n) then Err errInvalid
      else if (cursor !=? "") && negb (validID cursor) then Err errInvalid
      else Ok (Z.to_nat n, cursor)
  end.

Definition strLt (a b : string) : bool := strLe a b && (a !=? b).

(** The cut of the [limit+1] rows read to a page and its next cursor. *)
Definition cutPage {A} (key : A → string) (limit : nat) (items : list A) : list A * option string :=
  if (limit <? length items)%nat
  then let kept := take limit items in (kept, key <$> last kept)
  else (items, None).

(** ** Following cursors *)

Lemma strLt_trans a b c : strLt a b = true → strLe b c = true → strLt a c = true.
Proof.
  unfold strLt. intros [H1 H2]%andb_true_iff H3. breflect_in H2. apply andb_true_iff. split.
  - by eapply strLe_trans.
  - breflect. intros ->. apply H2. by apply strLe_antisym.
Qed.

Section paging.
Context {V : Type} (P : string → V → bool) (m : gmap string V).
Implicit Types (c k : string).

(** The rows past a cursor. *)
Definition rowsAfter c : list (string * V) := rowsById (λ id v, P id v && strLt c id) m.

#[local] Instance keyLe_total : Total (keyLe (V:=V)).
Proof.
  intros [k v] [k' v']. unfold keyLe. simpl. destruct (strLe k k') eqn:E; [by left|].
  right. by apply strLe_total.
Qed.
#[local] Instance keyLe_trans : Transitive (keyLe (V:=V)).
Proof. intros [k v] [k' v'] [k'' v'']. unfold keyLe. simpl. apply strLe_trans. Qed.

Lemma elem_of_rowsAfter c k v :
  (k, v) ∈ rowsAfter c ↔ m !! k = Some v ∧ P k v = true ∧ strLt c k = true.
Proof.
  unfold rowsAfter, rowsById. rewrite merge_sort_Permutation, elem_of_rowsWhere, andb_true_iff. done.
Qed.

Lemma rowsAfter_NoDup c : NoDup (rowsAfter c).
Proof.
  unfold rowsAfter, rowsById. rewrite merge_sort_Permutation. unfold rowsWhere.
  apply NoDup_filter, NoDup_map_to_list.
Qed.

Lemma rowsAfter_sorted c : StronglySorted keyLe (rowsAfter c).
Proof. unfold rowsAfter, rowsById. apply StronglySorted_merge_sort; apply _. Qed.

(** The rows past the last row of a prefix are the rest. *)
Lemma rowsAfter_split c l1 k v l2 :
  rowsAfter c = l1 ++ (k, v) :: l2 → rowsAfter k = l2.
Proof.
  intros E. pose proof (rowsAfter_NoDup c) as Hnd. pose proof (rowsAfter_sorted c) as Hs.
  rewrite E in Hnd, Hs. apply NoDup_app in Hnd as (_ & Hd & Hnd).
  apply NoDup_cons in Hnd as [Hn Hnd]. apply StronglySorted_app in Hs as (H1 & Hss & Hs).
  apply StronglySorted_inv in Hs as [Hs Hk]. rewrite Forall_forall in Hk.
  assert (∀ k' v', (k', v') ∈ l1 ++ (k, v) :: l2 ↔ m !! k' = Some v' ∧ P k' v' = true ∧ strLt c k' = true)
    as Hin by (intros; by rewrite <-E, elem_of_rowsAfter).
  destruct (Hin k v) as [(Hm & HP & Hc) _]; [set_solver|].
  eapply (StronglySorted_unique_strong keyLe).
  - intros [k1 v1] [k2 v2] (Hk1 & _)%elem_of_rowsAfter Hk2 Hle1 Hle2. unfold keyLe in *. simpl in *.
    assert (k1 = k2) as -> by (by apply strLe_antisym).
    destruct (Hin k2 v2) as [(Hk2' & _) _]; [set_solver|]. congruence.
  - apply rowsAfter_sorted.
  - done.
  - apply NoDup_Permutation; [apply rowsAfter_NoDup|done|]. intros [k' v']. rewrite elem_of_rowsAfter.
    split.
    + intros (Hm' & HP' & Hlt). assert ((k', v') ∈ l1 ++ (k, v) :: l2) as Hel.
      { apply Hin. split_and!; [done..|]. eapply strLt_trans; [done|].
        unfold strLt in Hlt. by apply andb_true_iff in Hlt as [? _]. }
      unfold strLt in Hlt. apply andb_true_iff in Hlt as [Hle Hne]. breflect_in Hne.
      apply elem_of_app in Hel as [Hel|[?|?]%elem_of_cons]; [|naive_solver|done].
      exfalso. apply Hne. apply strLe_antisym; [done|].
      apply (H1 (k', v') (k, v) Hel). set_solver.
    + intros Hel. destruct (Hin k' v') as [(? & ? & ?) _]; [set_solver|]. split_and!; [done..|].
      unfold strLt. apply andb_true_iff. split; [by apply (Hk (k', v'))|]. breflect. intros <-.
      assert (v' = v) as -> by congruence. done.
Qed.

(** One page: everything that is left, or [limit] rows and the cursor that
    leads to the others. *)
Lemma page_spec {B} (key : B → string) (g : string * V → B) limit c :
  (1 ≤ limit)%nat → (∀ r, key (g r) = r.1) →
  ∃ l1 l2, rowsAfter c = l1 ++ l2 ∧
    cutPage key limit (take (limit + 1) (g <$> rowsAfter c)) =
      (g <$> l1, match l2 with [] => None | _ => fst <$> last l1 end) ∧
    (l2 ≠ [] → length l1 = limit ∧ ∀ k, fst <$> last l1 = Some k → rowsAfter k = l2).
Proof.
  intros Hl Hk. unfold cutPage. rewrite length_take, length_fmap.
  destruct (limit <? _)%nat eqn:E.
  - apply Nat.ltb_lt in E. exists (take limit (rowsAfter c)), (drop limit (rowsAfter c)).
    rewrite take_drop. split; [done|]. rewrite take_take, Nat.min_l by lia.
    rewrite <-fmap_take. assert (drop limit (rowsAfter c) ≠ []) as Hd.
    { intros H%(f_equal length). rewrite length_drop in H. simpl in H. lia. }
    split.
    + destruct (drop limit _); [done|]. f_equal. rewrite fmap_last.
      destruct (last (take limit (rowsAfter c))) as [r|]; [|done]. simpl. by rewrite Hk.
    + intros _. rewrite length_take. split; [lia|]. intros k Hlast.
      destruct (last _) as [[k' v]|] eqn:El in Hlast; [|done]. injection Hlast as <-.
      apply last_Some in El as [l' El]. eapply (rowsAfter_split c l').
      rewrite <-(take_drop limit (rowsAfter c)) at 1. by rewrite El, <-app_assoc.
  - apply Nat.ltb_ge in E. exists (rowsAfter c), []. rewrite app_nil_r. split; [done|].
    rewrite take_ge by (rewrite length_fmap; lia). done.
Qed.
End paging.
Arguments rowsAfter {V} P m c : simpl never.
