(* ===== verification/Assets.v ===== *)
(** * internal/app/assets.go: the assets of a workspace

    Creation, patching, listing, and deletion with its ON DELETE CASCADE. *)
From S2P Require Import Prelude GoLib Encoding Tx ReportAdapter Schema Auth Paging.
Local Open Scope Z_scope.

(** types.go: a JSON field that tells an absent value from [null]. *)
Record optional (A : Type) := { IsSet : bool; Value : option A }.
Arguments IsSet {A}.
Arguments Value {A}.
Definition absentField {A} : optional A := {| IsSet := false; Value := None |}.
Definition field {A} (v : option A) : optional A := {| IsSet := true; Value := v |}.

Record Asset := {
  AssetID : string; AssetWorkspaceID : string; AssetName : string; AssetKind : string;
  Environment : string; Criticality : string; Tags : list string; AssetOwnerID : option string }.

Definition scanAsset (id : string) (a : AssetRow) : Asset :=
  {| AssetID := id; AssetWorkspaceID := a_workspace_id a; AssetName := a_name a;
     AssetKind := a_kind a; Environment := a_environment a; Criticality := a_criticality a;
     Tags := a_tags a; AssetOwnerID := a_owner_id a |}.

(** ** Validation *)

Definition checkOwner (workspace : string) (owner : option string) : M DB unit :=
  match owner with
  | None => ret tt
  | Some o =>
      guard (validID o) errInvalid ;;;
      exists_ <- query (λ _ db, Ok (isSome (t_memberships db !! (workspace, o)))) ;;
      guard exists_ errInvalid
  end.

Definition validAsset (v : Asset) : bool :=
  if negb (validText (AssetName v) 256) || negb (validText (AssetKind v) 64) ||
     (128 <? len (Environment v)) || containsNUL (Environment v) ||
     (64 <? Z.of_nat (length (Tags v)))
  then false
  else if negb ((Criticality v ==? "low") || (Criticality v ==? "medium") ||
                (Criticality v ==? "high") || (Criticality v ==? "critical"))
  then false
  else forallb (λ tag, validText tag 128) (Tags v).

(** ** Operations *)

Definition ownerMember (workspace : string) (owner : option string) (db : DB) : bool :=
  match owner with None => true | Some o => isSome (t_memberships db !! (workspace, o)) end.

Definition createAsset (workspace name kind environment criticality : string)
    (tags : option (list string)) (owner : option string) : M DB Asset :=
  id <- newID ;;
  let asset := {| AssetID := id; AssetWorkspaceID := workspace; AssetName := name;
    AssetKind := kind; Environment := environment;
    Criticality := if criticality ==? "" then "medium" else criticality;
    Tags := default [] tags; AssetOwnerID := owner |} in
  guard (validAsset asset) errInvalid ;;;
  transaction (
    checkOwner workspace owner ;;;
    at_ <- now ;;
    insertInto t_assets with_assets
      (requires (λ db, isSome (t_workspaces db !! workspace) && ownerMember workspace owner db)
         ErrConstraint)
      id {| a_workspace_id := workspace; a_name := name; a_kind := kind;
            a_environment := environment; a_criticality := Criticality asset;
            a_tags := Tags asset; a_owner_id := owner; a_created_at := at_ |} ;;;
    ret asset).

Definition readAsset (workspace id : string) : M DB (Asset * AssetRow) :=
  query (λ _ db,
    match t_assets db !! id with
    | Some a => if a_workspace_id a ==? workspace then Ok (scanAsset id a, a) else Err ErrNoRows
    | None => Err ErrNoRows
    end).

Definition getAsset (workspace id : string) : M DB Asset :=
  r <- readAsset workspace id ;; ret (fst r).

Record assetPatch := {
  pName : optional string; pKind : optional string; pEnvironment : optional string;
  pCriticality : optional string; pTags : optional (list string); pOwnerID : optional string }.

(** A field that may be set but not to [null]. *)
Definition patchField {A} (p : optional A) (old : A) : Res A :=
  if IsSet p then match Value p with Some v => Ok v | None => Err errInvalid end else Ok old.

Definition patchAsset (workspace id : string) (p : assetPatch) : M DB Asset :=
  transaction (
    r <- readAsset workspace id ;;
    let asset := fst r in
    name <- fromRes (patchField (pName p) (AssetName asset)) ;;
    kind <- fromRes (patchField (pKind p) (AssetKind asset)) ;;
    environment <- fromRes (patchField (pEnvironment p) (Environment asset)) ;;
    criticality <- fromRes (patchField (pCriticality p) (Criticality asset)) ;;
    tags <- fromRes (patchField (pTags p) (Tags asset)) ;;
    let owner := if IsSet (pOwnerID p) then Value (pOwnerID p) else AssetOwnerID asset in
    let asset := {| AssetID := AssetID asset; AssetWorkspaceID := AssetWorkspaceID asset;
      AssetName := name; AssetKind := kind; Environment := environment;
      Criticality := criticality; Tags := tags; AssetOwnerID := owner |} in
    guard (validAsset asset) errInvalid ;;;
    checkOwner workspace owner ;;;
    exec (λ _ db, (tt, with_assets (updateRows
      (λ i a, (i ==? id) && (a_workspace_id a ==? workspace))
      (λ a, {| a_workspace_id := a_workspace_id a; a_name := name; a_kind := kind;
               a_environment := environment; a_criticality := criticality; a_tags := tags;
               a_owner_id := owner; a_created_at := a_created_at a |}) (t_assets db)) db)) ;;;
    ret asset).

(** ** Deletion

    [DELETE FROM assets] and what its foreign keys do: imports, coverage and
    findings of the asset go, and with them observations, notes, approvals,
    decision events, change events, policy outcomes, Jira effects, verifications and the
    link to a collected repository; a finding in a correlation group
    refuses the deletion.  [blocked] stands for the foreign keys of tables
    outside this model. *)
Definition deleteRows {K V} `{Countable K} (P : K → V → bool) (m : gmap K V) : gmap K V :=
  filter (λ p, P p.1 p.2 = false) m.

Definition importOf (workspace id : string) (r : ImportRow) : bool :=
  (i_workspace_id (i_meta r) ==? workspace) && (i_asset_id (i_meta r) ==? id).
Definition findingOf (workspace id : string) (f : FindingRow) : bool :=
  (f_workspace_id f ==? workspace) && (f_asset_id f ==? id).
(** The finding, or the run, a row refers to is deleted with the asset. *)
Definition findingGone (workspace id : string) (db : DB) (ws finding : string) : bool :=
  match t_findings db !! finding with
  | Some f => findingOf workspace id f && (ws ==? workspace)
  | None => false
  end.
Definition runGone (workspace id : string) (db : DB) (ws run : string) : bool :=
  (ws ==? workspace) && anyRow (λ _ r, importOf workspace id r && (i_run_id (i_meta r) ==? run)) (t_imports db).

Definition cascade (workspace id : string) (db : DB) : DB :=
  let gone := findingGone workspace id db in
  with_assets (delete id (t_assets db))
  (with_imports (deleteRows (λ _ r, importOf workspace id r) (t_imports db))
  (with_coverage (deleteRows (λ k _, (k_workspace_id k ==? workspace) && (k_asset_id k ==? id)) (t_coverage db))
  (with_findings (deleteRows (λ _ f, findingOf workspace id f) (t_findings db))
  (with_observations (deleteRows (λ _ o, gone (ob_workspace_id o) (ob_finding_id o) ||
     runGone workspace id db (ob_workspace_id o) (ob_run_id o)) (t_observations db))
  (with_changeEvents (deleteRows (λ _ e, gone (ce_workspace_id e) (ce_finding_id e)) (t_changeEvents db))
  (with_policyEvents (deleteRows (λ _ e, gone (pe_workspace_id e) (pe_finding_id e)) (t_policyEvents db))
  (with_jiraEffects (deleteRows (λ k _, gone k.1.1 k.2) (t_jiraEffects db))
  (with_notes (deleteRows (λ _ n, gone (n_workspace_id n) (n_finding_id n)) (t_notes db))
  (with_approvals (deleteRows (λ _ p, gone (ap_workspace_id p) (ap_finding_id p)) (t_approvals db))
  (with_decisionEvents (deleteRows (λ _ e, gone (ev_workspace_id e) (ev_finding_id e)) (t_decisionEvents db))
  (with_verificationEvidence (deleteRows (λ _ e, gone (ve_workspace_id e) (ve_finding_id e)) (t_verificationEvidence db))
  (with_verificationApprovals (deleteRows (λ _ a, let b := va_binding a in gone (vb_workspace_id b) (vb_finding_id b))
     (t_verificationApprovals db))
  (with_verificationJobs (deleteRows (λ _ j, let b := vj_binding (vj_meta j) in gone (vb_workspace_id b) (vb_finding_id b))
     (t_verificationJobs db))
  (with_repositoryAssets (deleteRows (λ k asset, (k.1.1 ==? workspace) && (asset ==? id)) (t_repositoryAssets db))
   db)))))))))))))).

Definition correlated (workspace id : string) (db : DB) : bool :=
  anyRow (λ _ g, findingGone workspace id db (g_workspace_id g) (g_primary_finding_id g)) (t_correlations db) ||
  anyRow (λ _ m, findingGone workspace id db (m_workspace_id m) (m_finding_id m)) (t_members db).

Definition deleteAsset (blocked : bool) (workspace id : string) : M DB unit :=
  affected <- stmt (λ _ db,
    match t_assets db !! id with
    | Some a =>
        if a_workspace_id a ==? workspace then
          if correlated workspace id db || blocked then Err ErrConstraint
          else Ok (1, cascade workspace id db)
        else Ok (0, db)
    | None => Ok (0, db)
    end) ;;
  guard (negb (affected =? 0)) errNotFound.

(** ** Listing *)

Definition listAssets (limit cursor workspace : string) : M DB (list Asset * Z * option string) :=
  p <- fromRes (pageParameters limit cursor) ;;
  total <- query (λ _ db, Ok (countRows (λ _ a, a_workspace_id a ==? workspace) (t_assets db))) ;;
  items <- query (λ _ db, Ok (take (fst p + 1) ((λ r, scanAsset r.1 r.2) <$>
    rowsById (λ id a, (a_workspace_id a ==? workspace) && strLt (snd p) id) (t_assets db)))) ;;
  let page := cutPage AssetID (fst p) items in
  ret (fst page, total, snd page).

(** ** Deleted rows *)

Lemma lookup_deleteRows {K V} `{Countable K} (P : K → V → bool) (m : gmap K V) k :
  deleteRows P m !! k = (v ← m !! k; if P k v then None else Some v).
Proof.
  unfold deleteRows. destruct (m !! k) as [v|] eqn:E; simpl.
  - destruct (P k v) eqn:HP.
    + apply map_lookup_filter_None. right. intros v' E'. simplify_eq/=. congruence.
    + by apply map_lookup_filter_Some.
  - apply map_lookup_filter_None. by left.
Qed.

Lemma lookup_deleteRows_Some {K V} `{Countable K} (P : K → V → bool) (m : gmap K V) k v :
  deleteRows P m !! k = Some v ↔ m !! k = Some v ∧ P k v = false.
Proof. apply map_lookup_filter_Some. Qed.

(** ** Referential integrity *)

Definition asset_ok (db : DB) (ws id : string) : Prop :=
  ∃ a, t_assets db !! id = Some a ∧ a_workspace_id a = ws.
Definition finding_ok (db : DB) (ws id : string) : Prop :=
  ∃ f, t_findings db !! id = Some f ∧ f_workspace_id f = ws.
Definition run_ok (db : DB) (ws run : string) : Prop :=
  ∃ i r, t_imports db !! i = Some r ∧ i_workspace_id (i_meta r) = ws ∧ i_run_id (i_meta r) = run.

(** Every foreign key into assets, imports and findings has its target. *)
Record references (db : DB) : Prop := {
  ref_imports : ∀ i r, t_imports db !! i = Some r → asset_ok db (i_workspace_id (i_meta r)) (i_asset_id (i_meta r));
  ref_coverage : ∀ k t, t_coverage db !! k = Some t → asset_ok db (k_workspace_id k) (k_asset_id k);
  ref_findings : ∀ i f, t_findings db !! i = Some f → asset_ok db (f_workspace_id f) (f_asset_id f);
  ref_observations : ∀ i o, t_observations db !! i = Some o →
    finding_ok db (ob_workspace_id o) (ob_finding_id o) ∧ run_ok db (ob_workspace_id o) (ob_run_id o);
  ref_changeEvents : ∀ i e, t_changeEvents db !! i = Some e → finding_ok db (ce_workspace_id e) (ce_finding_id e);
  ref_policyEvents : ∀ i e, t_policyEvents db !! i = Some e → finding_ok db (pe_workspace_id e) (pe_finding_id e);
  ref_jiraEffects : ∀ k e, t_jiraEffects db !! k = Some e → finding_ok db k.1.1 k.2;
  ref_notes : ∀ i x, t_notes db !! i = Some x → finding_ok db (n_workspace_id x) (n_finding_id x);
  ref_approvals : ∀ i p, t_approvals db !! i = Some p → finding_ok db (ap_workspace_id p) (ap_finding_id p);
  ref_decisionEvents : ∀ i e, t_decisionEvents db !! i = Some e → finding_ok db (ev_workspace_id e) (ev_finding_id e);
  ref_verificationEvidence : ∀ i e, t_verificationEvidence db !! i = Some e →
    finding_ok db (ve_workspace_id e) (ve_finding_id e);
  ref_verificationApprovals : ∀ i a, t_verificationApprovals db !! i = Some a →
    finding_ok db (vb_workspace_id (va_binding a)) (vb_finding_id (va_binding a));
  ref_verificationJobs : ∀ i j, t_verificationJobs db !! i = Some j →
    finding_ok db (vb_workspace_id (vj_binding (vj_meta j))) (vb_finding_id (vj_binding (vj_meta j)));
  ref_correlations : ∀ i g, t_correlations db !! i = Some g → finding_ok db (g_workspace_id g) (g_primary_finding_id g);
  ref_members : ∀ i m, t_members db !! i = Some m → finding_ok db (m_workspace_id m) (m_finding_id m) }.

Section cascade.
Context (workspace id : string) (db : DB).

(** References to what stays survive the cascade. *)
Lemma asset_ok_cascade ws a :
  asset_ok db ws a → (ws ==? workspace) && (a ==? id) = false →
  (∃ x, t_assets db !! id = Some x ∧ a_workspace_id x = workspace) →
  asset_ok (cascade workspace id db) ws a.
Proof.
  intros (x & Hx & Hw) Hne (y & Hy & Hwy). exists x. split; [|done]. simpl.
  rewrite lookup_delete_ne; [done|]. intros <-. simplify_eq. by rewrite !bool_decide_true in Hne.
Qed.

Lemma finding_ok_cascade ws f :
  finding_ok db ws f → findingGone workspace id db ws f = false →
  finding_ok (cascade workspace id db) ws f.
Proof.
  intros (x & Hx & Hw) Hg. exists x. split; [|done]. simpl. apply lookup_deleteRows_Some.
  split; [done|]. unfold findingGone in Hg. rewrite Hx in Hg. unfold findingOf in *.
  breflect. breflect_in Hg. naive_solver.
Qed.

Lemma run_ok_cascade ws run :
  run_ok db ws run → runGone workspace id db ws run = false →
  run_ok (cascade workspace id db) ws run.
Proof.
  intros (i & r & Hr & Hw & Hrun) Hg. exists i, r. split_and!; [|done..]. simpl.
  apply lookup_deleteRows_Some. split; [done|]. unfold runGone in Hg.
  destruct (importOf workspace id r) eqn:Ei; [|done]. apply andb_false_iff in Hg as [Hg|Hg].
  - unfold importOf in Ei. breflect_in Ei. breflect_in Hg. naive_solver.
  - pose proof (proj1 (anyRow_false _ _) Hg i r Hr) as Hf. simpl in Hf.
    by rewrite Ei, bool_decide_true in Hf.
Qed.
End cascade.

Lemma references_cascade workspace id db a :
  t_assets db !! id = Some a → a_workspace_id a = workspace →
  correlated workspace id db = false →
  references db → references (cascade workspace id db).
Proof.
  intros Ha Hw Hc [Hi Hcov Hf Ho].
  unfold correlated in Hc. apply orb_false_iff in Hc as [Hc1 Hc2].
  split; simpl; intros k v; rewrite ?lookup_deleteRows_Some; intros Hv.
  1-3: destruct Hv as [Hv HP]; apply asset_ok_cascade; eauto.
  1: destruct Hv as [Hv HP]; apply orb_false_iff in HP as [? ?]; destruct (Ho k v Hv);
     split; [by apply finding_ok_cascade | by apply run_ok_cascade].
  1-9: destruct Hv; apply finding_ok_cascade; eauto.
  - apply finding_ok_cascade; [eauto|]. by apply (proj1 (anyRow_false _ _) Hc1 k v).
  - apply finding_ok_cascade; [eauto|]. by apply (proj1 (anyRow_false _ _) Hc2 k v).
Qed.

Lemma deleteAsset_inv blocked workspace id env n db x db' n' :
  deleteAsset blocked workspace id env n db = mkOut (Ok x) db' n' →
  (∃ a, t_assets db !! id = Some a ∧ a_workspace_id a = workspace) ∧
  correlated workspace id db = false ∧ blocked = false ∧ db' = cascade workspace id db.
Proof.
  unfold deleteAsset. intros H. run_inv. breflect_in Heqb.
  match goal with H : _ || _ = false |- _ => apply orb_false_iff in H as [? ?] end. eauto 10.
Qed.

(** An acknowledged deletion of an asset removes the asset and nothing of it remains (no import, coverage, finding, and no observation or change event, note, approval or decision event of such a finding), every import and finding of another asset stays exactly as it was, and no row is left pointing at something that is gone; a finding that is in a correlation group blocks the deletion. *)
Theorem deleteAsset_exact blocked workspace id env n db x db' n' :
  references db →
  deleteAsset blocked workspace id env n db = mkOut (Ok x) db' n' →
  t_assets db' = delete id (t_assets db) ∧
  (∀ i r, t_imports db' !! i = Some r ↔ t_imports db !! i = Some r ∧ importOf workspace id r = false) ∧
  (∀ i f, t_findings db' !! i = Some f ↔ t_findings db !! i = Some f ∧ findingOf workspace id f = false) ∧
  (∀ k t, t_coverage db' !! k = Some t → k_workspace_id k = workspace → k_asset_id k ≠ id) ∧
  references db' ∧
  (∀ i m f, t_members db !! i = Some m → t_findings db !! m_finding_id m = Some f → findingOf workspace id f = false).
Proof.
  intros Href H. apply deleteAsset_inv in H as ((a & Ha & Hw) & Hc & _ & ->).
  split; [done|]. split; [intros i r; exact (lookup_deleteRows_Some (λ _ r, importOf workspace id r) (t_imports db) i r)|].
  split; [intros i f; exact (lookup_deleteRows_Some (λ _ f, findingOf workspace id f) (t_findings db) i f)|].
  split_and!; simpl.
  - intros k t [_ HP]%lookup_deleteRows_Some. breflect_in HP. naive_solver.
  - by eapply references_cascade.
  - intros i m f Hm Hf. apply orb_false_iff in Hc as [_ Hc].
    pose proof (proj1 (anyRow_false _ _) Hc i m Hm) as Hg. simpl in Hg. unfold findingGone in Hg.
    rewrite Hf in Hg. destruct (ref_members _ Href i m Hm) as (f' & Hf' & Hwf). simplify_eq.
    unfold findingOf in *. breflect. breflect_in Hg. rewrite Hwf in *. tauto.
Qed.

(** ** Witness *)

Definition assetRow (ws : string) : AssetRow :=
  {| a_workspace_id := ws; a_name := "api"; a_kind := "repo"; a_environment := "";
     a_criticality := "medium"; a_tags := []; a_owner_id := None; a_created_at := 0 |}.
Definition twoAssets : DB :=
  with_coverage {[{| k_workspace_id := "ws"; k_asset_id := "a1"; k_source_id := "s";
      k_scope := {| ScopeID := "x"; ScopeRevision := "r"; ScopeBranch := "b" |} |} := 5]}
    (with_assets {["a1" := assetRow "ws"; "a2" := assetRow "ws"]} emptyDB).

Lemma twoAssets_references : references twoAssets.
Proof.
  split; simpl; intros k v H; try by rewrite lookup_empty in H.
  apply lookup_singleton_Some in H as [<- _]. by exists (assetRow "ws").
Qed.

Lemma deleteAsset_exact_witness :
  is_ok (out_res (deleteAsset false "ws" "a1" calm 0%nat twoAssets)) = true ∧
  t_assets (out_db (deleteAsset false "ws" "a1" calm 0%nat twoAssets)) = delete "a1" (t_assets twoAssets).
Proof.
  assert (is_ok (out_res (deleteAsset false "ws" "a1" calm 0%nat twoAssets)) = true) as Hok
    by (vm_compute; reflexivity).
  split; [exact Hok|].
  exact (proj1 (deleteAsset_exact false "ws" "a1" calm 0%nat twoAssets tt _ _ twoAssets_references
    (ok_eta _ Hok))).
Defined.
