(* ===== verification/ImportProps.v ===== *)
(** * Properties of the import queue

    Interleavings of intake, workers, role changes and evidence reads: the
    queue invariant, fencing of superseded workers, finality of revocation and
    of finished imports, idempotent intake. *)
From S2P Require Import Prelude GoLib Encoding Tx ReportAdapter Schema Auth AuthProps Intake Reconcile ImportWorker Assets.
Local Open Scope Z_scope.

(** What evidence retention does to the imports table: its evidence columns. *)
Definition evidence_only (db db' : DB) : Prop :=
  ∀ i, (λ r, (i_meta r, i_job r)) <$> t_imports db' !! i = (λ r, (i_meta r, i_job r)) <$> t_imports db !! i.

(** Rows of assets that may not be deleted only move along the lifecycle, a
    row that is there evolved from an earlier or a new one, scans stay unique. *)
Definition imports_kept (deleted : string → Prop) (db db' : DB) : Prop :=
  (∀ i r, t_imports db !! i = Some r → ¬ deleted (i_asset_id (i_meta r)) →
     ∃ r', t_imports db' !! i = Some r' ∧ rtc istep r r') ∧
  (∀ i r', t_imports db' !! i = Some r' →
     ∃ r, (t_imports db !! i = Some r ∨ newImportRow r) ∧ rtc istep r r') ∧
  (unique_scans db → unique_scans db').

(** One operation by anybody, in any world.  Assets whose id satisfies
    [deleted] may be deleted, with their imports; everything else the
    application does leaves the scan and the queue entry of every import alone.
    While a worker processes an import the others may do all of this too. *)
Inductive import_step (deleted : string → Prop) (db : DB) : DB → Prop :=
  | st_accept registry s3 prefix limit ws s i report strict env n :
      import_step deleted db (out_db (acceptImport registry s3 prefix limit ws s i report strict None env n db))
  | st_claim w env n : import_step deleted db (out_db (claimImport w env n db))
  | st_process others registry read ticks record env n :
      (∀ n db, imports_kept deleted db (others n db)) →
      import_step deleted db (out_db (processImport others registry read ticks record env n db))
  | st_role ws s id role env n : import_step deleted db (out_db (changeUserRole ws s id role env n db))
  | st_read read ws id ev env n : import_step deleted db (out_db (importResource read ws id ev env n db))
  | st_delete blocked ws id env n :
      deleted id → import_step deleted db (out_db (deleteAsset blocked ws id env n db))
  | st_other db' : evidence_only db db' → import_step deleted db db'.

#[local] Instance imports_kept_preorder deleted : PreOrder (imports_kept deleted).
Proof.
  split.
  - intros db. split_and!; eauto using rtc_refl.
  - intros d1 d2 d3 (H1 & N1 & U1) (H2 & N2 & U2). split_and!; [| |auto].
    + intros i r Hr Hd. apply H1 in Hr as (r1 & Hr1 & Hst); [|done].
      pose proof (istep_stable _ _ Hst) as [Em _].
      apply H2 in Hr1 as (r2 & ? & ?); [eauto using rtc_trans | by rewrite Em].
    + intros i r3 Hr3. apply N2 in Hr3 as (r2 & [Hr2|?] & ?); [|eauto].
      apply N1 in Hr2 as (r1 & ? & ?). eauto using rtc_trans.
Qed.

Lemma imports_evolve_kept deleted db db' : imports_evolve db db' → imports_kept deleted db db'.
Proof.
  intros (He & Hn & Hu). split_and!; [eauto| |done]. intros i r' Hr'.
  destruct (t_imports db !! i) as [r|] eqn:E.
  - destruct (He i r E) as (r1 & Hr1 & ?). simplify_eq. eauto.
  - destruct (Hn i r' E Hr') as (r & ? & ?). eauto.
Qed.

Lemma evidence_only_evolve db db' : evidence_only db db' → imports_evolve db db'.
Proof.
  intros He.
  assert (∀ i r r', t_imports db !! i = Some r → t_imports db' !! i = Some r' → rtc istep r r') as Hst.
  { intros i [m j e] [m' j' e'] E E'. specialize (He i). rewrite E, E' in He. simpl in He. simplify_eq.
    apply rtc_once, (is_evidence {| i_meta := m; i_job := j; i_evidence := e |} e'). }
  assert (∀ i r', t_imports db' !! i = Some r' → ∃ r, t_imports db !! i = Some r) as Hb.
  { intros i r' E'. specialize (He i). rewrite E' in He. destruct (t_imports db !! i); naive_solver. }
  split_and!.
  - intros i r E. pose proof (He i) as Hi. rewrite E in Hi.
    destruct (t_imports db' !! i) as [r'|] eqn:E'; [|done]. eauto.
  - intros i r' E E'. apply Hb in E' as [? ?]. congruence.
  - intros Hu i j r1 r2 E1 E2 Hk. destruct (Hb _ _ E1) as [q1 Q1], (Hb _ _ E2) as [q2 Q2].
    apply (Hu i j q1 q2 Q1 Q2). unfold scanKey in *.
    destruct (istep_stable _ _ (Hst _ _ _ Q1 E1)) as [M1 _], (istep_stable _ _ (Hst _ _ _ Q2 E2)) as [M2 _].
    by rewrite <-M1, <-M2.
Qed.

Lemma deleteAsset_kept deleted blocked ws id env n db :
  deleted id → imports_kept deleted db (out_db (deleteAsset blocked ws id env n db)).
Proof.
  intros Hd. unfold deleteAsset. apply steps_bind; [apply _| |intros; apply steps_guard; apply _].
  apply steps_stmt; [apply _|]. intros _ d a d' Hs.
  destruct (t_assets d !! id) as [x|]; [|simplify_eq; reflexivity].
  destruct (_ ==? ws); [|simplify_eq; reflexivity]. destruct (_ || _); [done|]. simplify_eq.
  split_and!.
  - intros i r Hr Hn. exists r. split; [|apply rtc_refl].
    apply (lookup_deleteRows_Some (λ _ r, importOf ws id r)). split; [done|].
    unfold importOf. breflect. right. by intros <-.
  - intros i r Hr. apply (lookup_deleteRows_Some (λ _ r, importOf ws id r)) in Hr as [? _].
    eauto using rtc_refl.
  - intros Hu i j r1 r2 H1 H2. apply (lookup_deleteRows_Some (λ _ r, importOf ws id r)) in H1 as [? _], H2 as [? _].
    by apply Hu.
Qed.

Lemma import_step_kept deleted db db' : import_step deleted db db' → imports_kept deleted db db'.
Proof.
  intros [].
  - by apply imports_evolve_kept, acceptImport_evolves.
  - apply imports_evolve_kept, claimImport_evolves.
  - by apply processImport_evolves; [apply _|apply imports_evolve_kept|].
  - apply imports_evolve_kept, changeUserRole_evolves.
  - apply imports_evolve_kept, importResource_evolves.
  - by apply deleteAsset_kept.
  - by apply imports_evolve_kept, evidence_only_evolve.
Qed.

Lemma import_steps_kept deleted db db' :
  rtc (import_step deleted) db db' → imports_kept deleted db db'.
Proof.
  induction 1 as [|d1 d2 d3 H _ IH]; [reflexivity|].
  etransitivity; [by apply import_step_kept|done].
Qed.

(** ** The queue invariant *)

Definition import_ok (r : ImportRow) : Prop :=
  let j := i_job r in
  0 ≤ i_attempts j ≤ importAttempts ∧ i_attempts j ≤ i_fence j ∧ is_Some (i_submitted_by (i_meta r)) ∧
  match i_state j with
  | IQueued => i_worker_id j = None ∧ i_lease_until j = None
  | IProcessing => is_Some (i_worker_id j) ∧ is_Some (i_lease_until j) ∧ 1 ≤ i_attempts j
  | ISucceeded => i_worker_id j = None ∧ i_lease_until j = None ∧ i_failure_code j = None ∧ 1 ≤ i_attempts j
  | IFailed => i_worker_id j = None ∧ i_lease_until j = None ∧ is_Some (i_failure_code j)
  end.

Lemma import_ok_step r r' : istep r r' → import_ok r → import_ok r'.
Proof.
  unfold import_ok, importAttempts. intros Hs (Ha & Hf & Hm & Hst).
  destruct Hs as [w x Hp Hlt|Hp Hle|Hp|count Hp|st code message av Hp Hst'|e]; simpl in *;
    unfold importAttempts in *; split_and!; eauto; try lia; rewrite ?Hp in *.
  - naive_solver.
  - destruct Hst' as [[-> ?]| ->]; naive_solver.
Qed.

Lemma import_ok_steps r r' : rtc istep r r' → import_ok r → import_ok r'.
Proof. induction 1; eauto using import_ok_step. Qed.

Lemma import_ok_new r : newImportRow r → import_ok r.
Proof.
  intros (m & t & -> & Hm). unfold import_ok, importAttempts. simpl. split_and!; auto; lia.
Qed.

(** In every database reachable from one without imports by any interleaving of intake, claims, processing, role changes, evidence reads and retention and asset deletions, under any failures: an import has an actor, at most three attempts and no more attempts than its fence; a queued import has no worker and no lease, a processing one has both, a succeeded one carries no failure and was attempted, a failed one names its failure; and no two imports share workspace, source and scan. *)
Theorem import_queue_invariant db db' :
  t_imports db = ∅ → rtc (import_step (λ _, True)) db db' →
  (∀ i r, t_imports db' !! i = Some r → import_ok r) ∧ unique_scans db'.
Proof.
  intros He Hs%import_steps_kept. destruct Hs as (_ & Hn & Hu). split.
  - intros i r Hr. destruct (Hn i r Hr) as (r0 & [H0|?] & ?); [by rewrite He, lookup_empty in H0|].
    eauto using import_ok_steps, import_ok_new.
  - apply Hu. intros i j r1 r2. by rewrite He, lookup_empty.
Qed.

(** ** Finished imports *)

Lemma istep_terminal r r' :
  rtc istep r r' → i_state (i_job r) = ISucceeded ∨ i_state (i_job r) = IFailed → i_job r' = i_job r.
Proof.
  induction 1 as [|r1 r2 r3 Hs _ IH]; [done|]. intros Ht.
  destruct Hs as [w x Hp|Hp|Hp|? Hp|? ? ? ? Hp|e]; unfold pendingJob in *;
    try (breflect_in Hp; destruct Ht as [Ht|Ht]; rewrite Ht in Hp; naive_solver).
  by rewrite IH.
Qed.

(** A succeeded or failed import is final: as long as its asset is not deleted, whatever happens later, its state, result, failure, fence and attempts never change, and neither do the scan it was made from and the evidence it refers to. *)
Theorem finished_imports_final db db' i r :
  t_imports db !! i = Some r → i_state (i_job r) = ISucceeded ∨ i_state (i_job r) = IFailed →
  rtc (import_step (λ a, a ≠ i_asset_id (i_meta r))) db db' →
  ∃ r', t_imports db' !! i = Some r' ∧ i_job r' = i_job r ∧ i_meta r' = i_meta r.
Proof.
  intros Hr Ht Hs%import_steps_kept. destruct Hs as (He & _ & _).
  destruct (He i r Hr) as (r' & Hr' & Hst); [by intros []|]. exists r'. split_and!; [done| |].
  - by apply istep_terminal.
  - by apply istep_stable in Hst as [? _].
Qed.

(** ** What a worker writes

    A worker processes an import in several requests and others act in between,
    so its claim may be lost while it works. *)

Section written.
Context (others : nat → DB → DB) (record : importRecord).

Definition claimed (r : ImportRow) : Prop :=
  i_state (i_job r) = IProcessing ∧ i_worker_id (i_job r) = Some (WorkerID record) ∧ i_fence (i_job r) = Fence record.

(** A write of the worker itself, at tick [k]: the claim is its own; it changes
    nothing but the queue entry of the claim, or the lease is live at the clock
    of that tick and the actor may write. *)
Definition ownWrite (env : Env) (k : nat) (db db' : DB) : Prop :=
  ∃ r, t_imports db !! recID record = Some r ∧ claimed r ∧
    ((∃ r', i_meta r' = i_meta r ∧ db' = with_imports (<[recID record := r']> (t_imports db)) db) ∨
     leaseLive (env_clock env k) (i_job r) = true ∧ actor_authorized record db).
Definition otherAct (env : Env) (k : nat) (db db' : DB) : Prop := db' = others k db.
Definition importAct (env : Env) (k : nat) (db db' : DB) : Prop :=
  otherAct env k db db' ∨ ownWrite env k db db'.

Lemma timed_pause : Timed importAct (otherSessions others).
Proof. intros env n db. eapply (timed_once _ _ _ n); [simpl; lia|]. by left. Qed.
#[local] Hint Resolve timed_pause : timed.
Lemma timed_authorizeOnPool : Timed importAct (authorizeOnPool others record).
Proof. unfold authorizeOnPool. timed_run. Qed.
#[local] Hint Resolve timed_authorizeOnPool : timed.
Lemma timed_watchImport n : Timed importAct (watchImport others record n).
Proof. induction n; simpl; timed_run. Qed.
#[local] Hint Resolve timed_watchImport : timed.
Lemma timed_readAuthorizedReport read ticks : Timed importAct (readAuthorizedReport others read ticks record).
Proof. unfold readAuthorizedReport. timed_run. Qed.

(** An update of the queue entry of the claim, guarded by the claim. *)
Lemma own_settles env k db r r' :
  t_imports db !! recID record = Some r → claimed r → i_meta r' = i_meta r →
  importAct env k db (with_imports (<[recID record := r']> (t_imports db)) db).
Proof. intros Hr Hc Hm. right. exists r. split_and!; [done..|]. left. eauto. Qed.
Lemma ownJob_claimed r : ownJob record (i_job r) = true → claimed r.
Proof. unfold ownJob, claimed. intros H. breflect_in H. tauto. Qed.
Lemma timed_reconcile fs : Timed importAct (reconcile record fs).
Proof.
  apply timed_transaction; [apply forward_reconcileTx|]. intros env n db a db' n' H. right.
  apply reconcileTx_claim in H as (r & k & Hk & Hr & (? & ? & ? & ?) & Ha). exists k. split; [done|].
  right. exists r. split; [done|]. split; [done|]. by right.
Qed.
Lemma timed_failRevoked : Timed importAct (failRevokedImport (otherSessions others) record).
Proof.
  unfold failRevokedImport. timed_run. apply timed_exec. intros env n db.
  destruct (t_imports db !! recID record) as [r|] eqn:Er; [|by left]. case_if; [|by left]. right. simpl.
  eapply own_settles; [done| |done]. unfold claimed. tauto.
Qed.
Lemma timed_recordFailure b c m : Timed importAct (recordFailure record b c m).
Proof.
  unfold recordFailure. timed_run. apply timed_exec. intros env n db.
  destruct (t_imports db !! recID record) as [r|] eqn:Er; [|by left].
  destruct (ownJob record (i_job r)) eqn:E; [|by left]. destruct (leaseLive _ _); [right|by left]. simpl.
  eapply own_settles; [done| |done]. by apply ownJob_claimed.
Qed.
Lemma timed_release : Timed importAct (detached (λ _ db, releaseImport record db)).
Proof.
  apply timed_detached. intros env n db. unfold releaseImport.
  destruct (t_imports db !! recID record) as [r|] eqn:Er; [|by left].
  destruct (ownJob record (i_job r)) eqn:E; [right|by left]. eapply own_settles; [done| |done]. by apply ownJob_claimed.
Qed.
#[local] Hint Resolve timed_readAuthorizedReport timed_reconcile timed_failRevoked timed_recordFailure timed_release : timed.
Lemma timed_processImport registry read ticks : Timed importAct (processImport others registry read ticks record).
Proof. unfold processImport, afterError. timed_run. Qed.

(** A claim that is lost for good: what follows is the work of others. *)
Lemma lost_claim (lost : DB → Prop) :
  (∀ db r, lost db → t_imports db !! recID record = Some r → ¬ claimed r) →
  (∀ k db, lost db → lost (others k db)) →
  ∀ env n db n' db', lost db → timed importAct env n db n' db' → timed otherAct env n db n' db'.
Proof.
  intros Hno Hst env n db n' db' Hl Hrun. induction Hrun as [|n k n' s s1 s' Hn Hs _ IH]; [by apply timed_idle|].
  destruct Hs as [->|(r & Hr & Hc & _)]; [|by destruct (Hno _ _ Hl Hr)].
  eapply timed_act; [done|done|]. apply IH. by apply Hst.
Qed.
End written.

(** The fence of the import is higher than the one of the claim. *)
Definition superseded (record : importRecord) (db : DB) : Prop :=
  ∃ r, t_imports db !! recID record = Some r ∧ Fence record < i_fence (i_job r) ∧
    i_asset_id (i_meta r) = i_asset_id (recMeta record).

(** C1: a superseded worker writes nothing.  While a worker processes its claim, in any world and whatever other sessions do between its requests (as long as they do not delete the asset of the import), the database changes by what the others do and by writes of the worker; each of its writes is made while the import is processing under its own worker id and fence, and changes only the queue entry of the claim unless the lease is live at the clock of the statement and the actor may write; and from the moment another claim or a revocation has raised the fence, during the run or before it, nothing but the changes of the others happens any more: no finding, observation, coverage, change event or queue entry is written by the superseded worker. *)
Theorem superseded_worker_writes_nothing others registry read ticks record env n db :
  (∀ k db, imports_kept (λ a, a ≠ i_asset_id (recMeta record)) db (others k db)) →
  let o := processImport others registry read ticks record env n db in
  timed (importAct others record) env n db (out_tick o) (out_db o) ∧
  ∀ k s n' s', superseded record s → timed (importAct others record) env k s n' s' →
    timed (otherAct others) env k s n' s'.
Proof.
  intros Ho o. split; [apply timed_processImport|]. intros k s n' s' Hs. apply (lost_claim _ _ (superseded record)); [| |done].
  - intros d r (r' & Hr' & Hf & _) Hr (_ & _ & Hc). simplify_eq. lia.
  - intros j d (r & Hr & Hf & Ha). destruct (Ho j d) as (He & _ & _).
    destruct (He _ _ Hr) as (r' & Hr' & Hst); [rewrite Ha; by intros []|].
    apply istep_stable in Hst as (Hm & ? & _). exists r'. split; [done|]. rewrite Hm. split; [lia|done].
Qed.

(** C32: revocation is final: when a member is made a viewer, none of the imports they had queued or in processing ever publishes anything.  Take any database reached after the acknowledged revocation, in which the asset of the import was not deleted, even after the role was granted again: from it on, a worker that processes the import under any claim, whether it started before the revocation or after it, contributes nothing to the database; all that still changes is what the others do between its requests. *)
Theorem revocation_is_final workspace session id prior env0 n0 db u db1 n1 i r db2
    others registry read ticks record env n s :
  t_memberships db !! (workspace, id) = Some prior → prior ≠ "viewer" →
  changeUserRole workspace session id "viewer" env0 n0 db = mkOut (Ok u) db1 n1 →
  t_imports db !! i = Some r → pendingOf workspace id r = true →
  rtc (import_step (λ a, a ≠ i_asset_id (i_meta r))) db1 db2 → recID record = i →
  (∀ k d, imports_kept (λ a, a ≠ i_asset_id (i_meta r)) d (others k d)) →
  let o := processImport others registry read ticks record env n s in
  timed (importAct others record) env n s (out_tick o) (out_db o) ∧
  ∀ k n' s', timed (importAct others record) env k db2 n' s' → timed (otherAct others) env k db2 n' s'.
Proof.
  intros Hp Hv Hrun Hr Hpend Hs%import_steps_kept Hid Ho o. split; [apply timed_processImport|]. intros k n' s'.
  assert (t_imports db1 !! i = Some (revokeJob r)) as Hr1.
  { unfold changeUserRole in Hrun. do 2 run_inv_step. apply transaction_inv in Hrun as [n2 Hrun].
    apply changeRoleTx_run in Hrun as (prior' & Hp' & _ & _ & ->). simplify_eq. simpl.
    rewrite bool_decide_false by done. simpl. by rewrite lookup_updateRows, Hr; simpl; rewrite Hpend. }
  set (lost d := ∃ q, t_imports d !! i = Some q ∧ i_job q = i_job (revokeJob r) ∧ i_meta q = i_meta r).
  assert (Hkeep : ∀ d d', imports_kept (λ a, a ≠ i_asset_id (i_meta r)) d d' → lost d → lost d').
  { intros d d' (He & _ & _) (q & Hq & Hj & Hm). destruct (He _ _ Hq) as (q' & Hq' & Hst); [rewrite Hm; by intros []|].
    exists q'. split; [done|]. pose proof (istep_stable _ _ Hst) as [Hm' _]. rewrite Hm', Hm. split; [|done].
    apply istep_terminal in Hst as ->; [done|]. right. by rewrite Hj. }
  apply (lost_claim _ _ lost).
  - intros d q (q' & Hq' & Hj & _) Hq (Hc & _). subst i. simplify_eq. by rewrite Hj in Hc.
  - intros j d. by apply Hkeep.
  - eapply Hkeep; [done|]. by exists (revokeJob r).
Qed.

(** ** Intake *)

(** The session's user may import into the asset. *)
Definition may_import (session : authenticatedSession) (workspace assetID : string) (db : DB) : Prop :=
  (∃ role, t_memberships db !! (workspace, UserID (SessUser session)) = Some role ∧
     (role = "admin" ∨ role = "analyst")) ∧
  ∃ a, t_assets db !! assetID = Some a ∧ a_workspace_id a = workspace.

Lemma authorizeIntake_inv session workspace assetID env n db x db' n' :
  authorizeIntake session workspace assetID env n db = mkOut (Ok x) db' n' →
  db' = db ∧ may_import session workspace assetID db.
Proof.
  unfold authorizeIntake. intros H. run_inv_step.
  match goal with H : sessionRole _ _ _ _ _ = _ |- _ => apply sessionRole_inv in H as [-> Hr] end.
  db_inv. repeat match goal with H : _ = true |- _ => progress breflect_in H end.
  split; [done|]. split; [eauto|]. eexists. split; [done|]. by subst.
Qed.

Lemma authorizeIntake_errors session workspace assetID :
  Throws (λ e, e ≠ ErrNoRows) (authorizeIntake session workspace assetID).
Proof. unfold authorizeIntake, sessionRole. throws; done. Qed.

Definition replays (workspace : string) (i : importInput) (report : string) (now : Z)
    (record : importRecord) (db : DB) : Prop :=
  t_imports db !! recID record = Some (recRow record) ∧
  scanKey (recRow record) = (workspace, inSourceID i, inScanID i) ∧
  i_asset_id (recMeta record) = inAssetID i ∧ i_scope (recMeta record) = inScope i ∧
  i_report_digest (recMeta record) = reportDigest (bytes report) ∧
  i_metadata_digest (recMeta record) = metadataDigest i ∧
  now < i_imported_at (recMeta record) + importReplayWindow.

Lemma intakeCheck_run workspace session i report strict env n db r db' n' :
  intakeCheck workspace session i (reportDigest (bytes report)) (metadataDigest i) strict None env n db
    = mkOut r db' n' →
  db' = db ∧
  match r with
  | Ok record => may_import session workspace (inAssetID i) db ∧
                 ∃ now, replays workspace i report now record db
  | Err ErrNoRows => may_import session workspace (inAssetID i) db ∧
      ∀ k row, t_imports db !! k = Some row → scanKey row ≠ (workspace, inSourceID i, inScanID i)
  | Err _ => True
  end.
Proof.
  intros H. split.
  { pose proof (steps_intakeCheck eq workspace session i (reportDigest (bytes report))
      (metadataDigest i) strict None ltac:(done) env n db) as E. by rewrite H in E. }
  unfold intakeCheck in H. unfold bind at 1 in H.
  destruct (authorizeIntake session workspace (inAssetID i) env n db) as [[x|e] d1 n1] eqn:Ea.
  2: { injection H as <- <- <-. pose proof (authorizeIntake_errors session workspace (inAssetID i) env n db e) as He.
       rewrite Ea in He. specialize (He eq_refl). by destruct e. }
  apply authorizeIntake_inv in Ea as [-> Hmay].
  unfold bind, ret, sourceScan, query, stmt, now in H. simpl in H.
  destruct (env_fault env n1 || env_done env n1).
  { injection H as <- <- <-. by destruct (env_done env n1). }
  destruct (findRow _ (t_imports db)) as [[k row]|] eqn:Ef.
  2: { injection H as <- <- <-. split; [done|]. intros k row Hk Hkey.
       pose proof (findRow_None _ _ _ _ Ef Hk) as Hn. simpl in Hn. unfold sourceScanRow in Hn.
       injection Hkey as E1 E2 E3. by rewrite !bool_decide_true in Hn by done. }
  apply findRow_Some in Ef as [Hrow Hkey]. unfold sourceScanRow in Hkey. breflect_in Hkey.
  unfold replayAllowed in H. simpl in H.
  destruct (_ || _ || _ || _) eqn:Ec in H; [injection H as <- <- <-; done|].
  destruct (_ <? _) eqn:Et in H; simpl in H; [|injection H as <- <- <-; done].
  unfold guard in H. destruct (negb (strict && _)); simpl in H; [|injection H as <- <- <-; done].
  injection H as <- <- <-. split; [done|]. exists (env_now env (n1 + 1)).
  breflect_in Ec. breflect_in Et. unfold replays, scanKey, recMeta. simpl in *. destruct Hkey as [[-> ->] ->], Ec as [[[? ?] ?] ?]. by split_and!.
Qed.

Lemma newScan_run workspace session i report strict env n db found db' n' :
  newScan (intakeCheck workspace session i (reportDigest (bytes report)) (metadataDigest i) strict None)
    env n db = mkOut (Ok found) db' n' →
  db' = db ∧ may_import session workspace (inAssetID i) db ∧
  match found with
  | Some record => ∃ now, replays workspace i report now record db
  | None => ∀ k row, t_imports db !! k = Some row → scanKey row ≠ (workspace, inSourceID i, inScanID i)
  end.
Proof.
  unfold newScan. intros H. apply handle_inv in H as (r & s1 & n1 & Hc & H).
  apply intakeCheck_run in Hc as [-> Hc]. destruct r as [record|e]; [db_inv; tauto|].
  case_decide; subst; db_inv. tauto.
Qed.

Lemma insertImport_inv id m env n db record db' n' :
  insertImport id m env n db = mkOut (Ok record) db' n' →
  ∃ t, t_imports db !! id = None ∧
    record = {| recID := id; recRow := {| i_meta := m; i_job := queuedJob t;
                                          i_evidence := availableEvidence |} |} ∧
    db' = with_imports (<[id := recRow record]> (t_imports db)) db.
Proof.
  unfold insertImport, insertRow. intros H. db_inv. eauto.
Qed.

(** An acknowledged upload either replays an accepted scan or queues a new one, never both and never a second one: in the first case the database is unchanged and the answer is the stored import of that workspace, source and scan, whose asset, scope, report digest and metadata digest are those of the request and whose replay window is open; in the second case no import of that scan existed, the report was published in the object store under the key the new row names before the row was written, and exactly one queue entry, with the digest and the size of the report and the uploading actor, was added. The actor could import into the asset in either case. *)
Theorem acceptImport_replay_or_queue registry s3 prefix limit workspace session i report strict
    env n db status record db' n' :
  acceptImport registry s3 prefix limit workspace session i report strict None env n db
    = mkOut (Ok (status, record)) db' n' →
  may_import session workspace (inAssetID i) db ∧
  ((∃ now, db' = db ∧ replays workspace i report now record db) ∨
   (t_imports db !! recID record = None ∧
    (∀ k row, t_imports db !! k = Some row → scanKey row ≠ (workspace, inSourceID i, inScanID i)) ∧
    put s3 prefix limit workspace (recID record) (bytes report) = Ok (i_report_key (recMeta record)) ∧
    i_report_digest (recMeta record) = reportDigest (bytes report) ∧
    i_report_size (recMeta record) = len report ∧
    i_metadata_digest (recMeta record) = metadataDigest i ∧
    i_submitted_by (recMeta record) = Some (UserID (SessUser session)) ∧
    scanKey (recRow record) = (workspace, inSourceID i, inScanID i) ∧
    i_state (i_job (recRow record)) = IQueued ∧ status = 202 ∧
    db' = with_imports (<[recID record := recRow record]> (t_imports db)) db)).
Proof.
  intros H. unfold acceptImport in H. db_inv.
  all: match goal with H : newScan _ _ _ _ = _ |- _ => apply newScan_run in H as (-> & Hmay & Hf) end.
  - match goal with H : importReply _ = _ |- _ => injection H as <- <- end.
    split; [done|]. left. destruct Hf as [t Hf]. by exists t.
  - match goal with H : acceptTx _ _ _ _ _ _ _ _ _ _ _ _ _ _ = _ |- _ => unfold acceptTx in H end. db_inv.
    all: match goal with H : newScan _ _ _ _ = _ |- _ => apply newScan_run in H as (-> & _ & Hf2) end.
    + match goal with H : importReply _ = _ |- _ => injection H as <- <- end.
      split; [done|]. left. destruct Hf2 as [t Hf2]. by exists t.
    + match goal with H : insertImport _ _ _ _ _ = _ |- _ => apply insertImport_inv in H as (t & Hn & -> & ->) end.
      match goal with H : authorizeIntake _ _ _ _ _ _ = _ |- _ => apply authorizeIntake_inv in H as [-> _] end.
      match goal with H : importReply _ = _ |- _ => injection H as <- <- end.
      split; [done|]. right. simpl. by split_and!.
Qed.

(** ** Witnesses *)

Definition currentRecord : importRecord := {| recID := "import"; recRow := exampleImport "b" |}.
(** The whole processing of [currentRecord]; the last pause before the
    transaction is at tick 15. *)
Definition exampleProcess (others : nat → DB → DB) : Out DB unit :=
  processImport others (Some sampleRegistry) (λ _, Ok [65%N]) (λ _, 1%nat) currentRecord calm 0%nat exampleDB.

(** At that pause the lease has run out and another worker takes the import. *)
Definition lateWorld : Env :=
  {| env_clock := λ _, 10 ^ 9; env_now := env_now calm; env_fault := env_fault calm;
     env_commit := env_commit calm; env_done := env_done calm; env_fresh := env_fresh calm;
     env_locked := env_locked calm; env_nanos := env_nanos calm; env_interval := env_interval calm |}.
Definition takeover (k : nat) (db : DB) : DB :=
  if (k =? 15)%nat then out_db (claimImport "w2" lateWorld 0%nat db) else db.

Lemma superseded_worker_writes_nothing_witness :
  let o := exampleProcess takeover in
  (i_worker_id ∘ i_job <$> t_imports (out_db o) !! "import" = Some (Some "w2") ∧ t_findings (out_db o) = ∅) ∧
  timed (importAct takeover currentRecord) calm 0 exampleDB (out_tick o) (out_db o) ∧
  ∀ n' s', timed (importAct takeover currentRecord) calm 15 (takeover 15 exampleDB) n' s' →
    timed (otherAct takeover) calm 15 (takeover 15 exampleDB) n' s'.
Proof.
  assert (Ho : ∀ k db, imports_kept (λ a, a ≠ i_asset_id (recMeta currentRecord)) db (takeover k db)).
  { intros k db. unfold takeover. destruct (k =? 15)%nat; [|reflexivity]. apply imports_evolve_kept, claimImport_evolves. }
  destruct (superseded_worker_writes_nothing takeover (Some sampleRegistry) (λ _, Ok [65%N]) (λ _, 1%nat)
    currentRecord calm 0%nat exampleDB Ho) as [H1 H2].
  split; [split; vm_compute; reflexivity|]. split; [exact H1|]. intros n' s'. apply H2.
  exists (claimJob (exampleImport "b") "w2" (10 ^ 9 + 90000000)). split; [vm_compute; reflexivity|]. split; [vm_compute|]; reflexivity.
Defined.

(** At that pause the member loses the role. *)
Definition revoking (k : nat) (db : DB) : DB :=
  if (k =? 15)%nat then out_db (changeUserRole "ws" (exampleSession "a") "b" "viewer" calm 0%nat db) else db.

Lemma revocation_is_final_witness :
  let o := exampleProcess revoking in
  (i_state ∘ i_job <$> t_imports (out_db o) !! "import" = Some IFailed ∧ t_findings (out_db o) = ∅) ∧
  timed (importAct revoking currentRecord) calm 0 exampleDB (out_tick o) (out_db o) ∧
  ∀ n' s', timed (importAct revoking currentRecord) calm 15 (revoking 15 exampleDB) n' s' →
    timed (otherAct revoking) calm 15 (revoking 15 exampleDB) n' s'.
Proof.
  assert (Ho : ∀ k db, imports_kept (λ a, a ≠ i_asset_id (i_meta (exampleImport "b"))) db (revoking k db)).
  { intros k db. unfold revoking. destruct (k =? 15)%nat; [|reflexivity]. apply imports_evolve_kept, changeUserRole_evolves. }
  set (run := changeUserRole "ws" (exampleSession "a") "b" "viewer" calm 0%nat exampleDB).
  destruct (revocation_is_final "ws" (exampleSession "a") "b" "analyst" calm 0%nat exampleDB
    {| UserID := "b"; UserName := "n"; UserEmail := "e" |} (out_db run) (out_tick run)
    "import" (exampleImport "b") (out_db run) revoking (Some sampleRegistry) (λ _, Ok [65%N]) (λ _, 1%nat) currentRecord
    calm 0%nat exampleDB) as [H1 H2];
    [vm_compute; reflexivity | done | apply (res_eta run); vm_compute; reflexivity | vm_compute; reflexivity
    | vm_compute; reflexivity | apply rtc_refl | reflexivity | exact Ho |].
  split; [split; vm_compute; reflexivity|]. split; [exact H1|]. intros n' s'. apply H2.
Defined.

(** Undisturbed, the report is reconciled and the import succeeds. *)
Example current_worker_publishes :
  i_state ∘ i_job <$> t_imports (out_db (exampleProcess alone)) !! "import" = Some ISucceeded.
Proof. vm_compute. reflexivity. Qed.

Definition finishedDB : DB :=
  with_imports {["import" := failAttempts (exampleImport "b")]} exampleDB.

Lemma finished_imports_final_witness :
  ∃ r', t_imports (out_db (claimImport "w2" calm 0%nat finishedDB)) !! "import" = Some r' ∧
    i_job r' = i_job (failAttempts (exampleImport "b")) ∧ i_meta r' = exampleMeta "b".
Proof.
  apply (finished_imports_final finishedDB _ "import" (failAttempts (exampleImport "b")));
    [vm_compute; reflexivity | by right | apply rtc_once, st_claim].
Defined.

Definition assetHex : string := "0123456789abcdef0123456789abcdef".
Definition exampleInput : importInput :=
  {| inAPIVersion := APIVersion; inAssetID := assetHex; inFormat := "sarif"; inReport := "";
     inSourceID := "scanner"; inScanID := "scan-1";
     inScope := {| ScopeID := "repo"; ScopeRevision := "abc"; ScopeBranch := "main" |};
     inSourceScanAt := Some 1700000000000000; inCollectedAt := 1700000001000000;
     inSourceStatus := "succeeded"; inScanKind := "full"; inCompleteness := "complete";
     inMapping := noMapping |}.
Definition exampleStore : ObjectStore :=
  {| PutObject := λ _ _, true; HeadObject := λ _, Some 6 |}.
Definition intakeDB : DB :=
  with_assets {[assetHex := {| a_workspace_id := "ws"; a_name := "api"; a_kind := "repo";
      a_environment := ""; a_criticality := "medium"; a_tags := []; a_owner_id := None;
      a_created_at := 0 |}]} (with_imports ∅ exampleDB).

Lemma acceptImport_replay_or_queue_witness :
  ∃ status record db' n',
    acceptImport (Some sampleRegistry) exampleStore "reports/" 1000 "ws" (exampleSession "b")
      exampleInput "report" false None calm 0%nat intakeDB = mkOut (Ok (status, record)) db' n' ∧
    status = 202 ∧ may_import (exampleSession "b") "ws" assetHex intakeDB.
Proof.
  do 4 eexists. split; [vm_compute; reflexivity|]. split; [reflexivity|].
  eapply (proj1 (acceptImport_replay_or_queue (Some sampleRegistry) exampleStore "reports/" 1000 "ws"
    (exampleSession "b") exampleInput "report" false calm 0%nat intakeDB _ _ _ _
    ltac:(vm_compute; reflexivity))).
Defined.

Lemma import_queue_invariant_witness :
  (∀ i r, t_imports (out_db (acceptImport (Some sampleRegistry) exampleStore "reports/" 1000 "ws"
     (exampleSession "b") exampleInput "report" false None calm 0%nat intakeDB)) !! i = Some r → import_ok r) ∧
  unique_scans (out_db (acceptImport (Some sampleRegistry) exampleStore "reports/" 1000 "ws"
     (exampleSession "b") exampleInput "report" false None calm 0%nat intakeDB)).
Proof.
  apply (import_queue_invariant intakeDB); [reflexivity|]. apply rtc_once, st_accept.
Defined.

(** A scan time whose UTC year is 10000 cannot be marshalled; the digest of the
    metadata is then the digest of nothing, whatever the metadata is. *)
Definition lateScan (kind : string) : importInput :=
  {| inAPIVersion := APIVersion; inAssetID := assetHex; inFormat := "sarif"; inReport := "";
     inSourceID := "scanner"; inScanID := "scan-1";
     inScope := {| ScopeID := "repo"; ScopeRevision := "abc"; ScopeBranch := "main" |};
     inSourceScanAt := Some 253402300800000000; inCollectedAt := 1700000001000000;
     inSourceStatus := "succeeded"; inScanKind := kind; inCompleteness := "complete";
     inMapping := noMapping |}.
Example metadata_digest_ignores_late_scans :
  validImport (lateScan "full") = true ∧ validImport (lateScan "delta") = true ∧
  metadataDigest (lateScan "full") = metadataDigest (lateScan "delta") ∧
  metadataDigest (lateScan "full") = reportDigest [].
Proof. vm_compute. auto. Qed.
