(* ===== verification/ReconcileProps.v ===== *)
(** * Properties of reconciliation

    Reports never regress findings and never touch what people decided; a
    complete scan records one observation per finding of the report and infers
    resolution for exactly the findings it no longer contains. *)
From S2P Require Import Prelude GoLib Encoding Tx ReportAdapter Schema Auth AuthProps Intake Reconcile ImportWorker.
Local Open Scope Z_scope.

(** ** Evolution of one finding *)

Definition timeLe (a b : option Z) : Prop :=
  match a, b with Some x, Some y => x ≤ y | None, _ => True | Some _, None => False end.
Lemma timeLe_refl a : timeLe a a.
Proof. destruct a; simpl; lia || done. Qed.
Lemma timeLe_trans a b c : timeLe a b → timeLe b c → timeLe a c.
Proof. destruct a, b, c; simpl; try done. lia. Qed.

(** What a projection shows of a finding, its source state apart. *)
Definition content (p : Projection) :=
  (p_title p, p_description p, p_remediation p, p_severity p, p_evidence_text p,
   p_source_label p, p_collected_at p, p_imported_at p, p_content_digest p).

Definition findingKey (f : FindingRow) : ScopeKey * string := (f_scope f, f_identity_key f).

Record finding_evolves (f f' : FindingRow) : Prop := {
  fe_key : findingKey f' = findingKey f;
  fe_first : f_first_observed_at f' = f_first_observed_at f;
  fe_decision : f_decision f' = f_decision f;
  fe_evidence : f_evidence_revision f ≤ f_evidence_revision f';
  fe_change : c_revision (f_change f) ≤ c_revision (f_change f');
  fe_scan : timeLe (p_source_scan_at (f_projection f)) (p_source_scan_at (f_projection f'));
  fe_fresh : timeLe (f_source_freshness_at f) (f_source_freshness_at f');
  fe_content : ∀ s, p_source_scan_at (f_projection f) = Some s →
    p_source_scan_at (f_projection f') = Some s → content (f_projection f') = content (f_projection f);
  fe_silent : c_revision (f_change f') = c_revision (f_change f) →
    f_projection f' = f_projection f ∧ f_change f' = f_change f }.

#[export] Instance finding_evolves_preorder : PreOrder finding_evolves.
Proof.
  split.
  - intros f. split; auto using timeLe_refl with lia.
  - intros f1 f2 f3 [K1 I1 D1 E1 C1 S1 F1 T1 Q1] [K2 I2 D2 E2 C2 S2 F2 T2 Q2]. split; try congruence; try lia.
    + eauto using timeLe_trans.
    + eauto using timeLe_trans.
    + intros s H1 H3. destruct (p_source_scan_at (f_projection f2)) as [s2|] eqn:H2.
      * rewrite H1 in S1. rewrite H3 in S2. simpl in *. assert (s2 = s) as -> by lia.
        rewrite (T2 s), (T1 s) by auto. done.
      * rewrite H1 in S1. done.
    + intros Hc. destruct Q1 as [P1 G1]; [lia|]. destruct Q2 as [P2 G2]; [lia|]. split; congruence.
Qed.

Lemma updateFinding_evolves u f : sameFinding (up_row u) f = true → finding_evolves f (updateFinding u f).
Proof.
  intros Hs. unfold updateFinding. destruct (newer (up_authoritative u) f (up_row u)) eqn:En; split; simpl;
    try done; try lia; try apply timeLe_refl.
  all: try (destruct (f_source_freshness_at (up_row u)) as [x|], (f_source_freshness_at f) as [y|]; simpl;
    try case_if; simpl; try done; lia).
  - unfold newer in En. apply andb_true_iff in En as [_ En].
    destruct (p_source_scan_at (f_projection (up_row u))) as [s|] eqn:Es,
      (p_source_scan_at (f_projection f)) as [o|] eqn:Eo; simpl in *; try done.
    apply andb_true_iff in En as [En _]. lia.
  - intros s Ho Hs'. unfold newer in En. apply andb_true_iff in En as [_ En].
    rewrite Hs', Ho in En. apply andb_true_iff in En as [En _]. lia.
Qed.

Lemma inferResolved_evolves m scan obs id f :
  absent m scan obs id f = true → finding_evolves f (inferResolved m scan f).
Proof.
  unfold absent. intros Ha. repeat rewrite andb_true_iff in Ha.
  destruct Ha as [[[[_ _] _] Hf] _]. split; simpl; try done; try lia; try apply timeLe_refl.
  destruct (f_source_freshness_at f) as [x|]; simpl; [|done]. lia.
Qed.

(** Every finding of the database evolves, none disappears. *)
Definition findings_evolve (d d' : DB) : Prop :=
  ∀ id f, t_findings d !! id = Some f → ∃ f', t_findings d' !! id = Some f' ∧ finding_evolves f f'.
#[export] Instance findings_evolve_preorder : PreOrder findings_evolve.
Proof.
  split; [intros d id f Hf; exists f; split; [done|reflexivity]|].
  intros d1 d2 d3 H1 H2 id f Hf. apply H1 in Hf as (f1 & Hf1 & E1). apply H2 in Hf1 as (f2 & Hf2 & E2).
  exists f2. split; [done|]. by etransitivity.
Qed.
Lemma findings_same d d' : t_findings d' = t_findings d → findings_evolve d d'.
Proof. intros E id f Hf. rewrite E. exists f. split; [done|reflexivity]. Qed.

Definition coverage_grows (d d' : DB) : Prop :=
  ∀ k, timeLe (t_coverage d !! k) (t_coverage d' !! k).
#[export] Instance coverage_grows_preorder : PreOrder coverage_grows.
Proof.
  split; [intros d k; apply timeLe_refl|]. intros d1 d2 d3 H1 H2 k. eauto using timeLe_trans.
Qed.
Definition worker_safe (d d' : DB) : Prop := findings_evolve d d' ∧ coverage_grows d d'.
#[export] Instance worker_safe_preorder : PreOrder worker_safe.
Proof.
  split; [by split|]. intros d1 d2 d3 [? ?] [? ?]. split; by etransitivity.
Qed.
Lemma worker_safe_same d d' :
  t_findings d' = t_findings d → t_coverage d' = t_coverage d → worker_safe d d'.
Proof.
  intros E1 E2. split; [by apply findings_same|]. intros k. rewrite E2. apply timeLe_refl.
Qed.

Lemma findingUpsert_safe u db x db' : findingUpsert u db = Ok (x, db') → worker_safe db db'.
Proof.
  unfold findingUpsert. case_if; [done|]. destruct (findRow _ _) as [[id f]|] eqn:Ef.
  - intros [= <- <-]. apply findRow_Some in Ef as [Hf Hs]. split; [|by intros k; apply timeLe_refl].
    intros i f0 Hf0. simpl. rewrite lookup_insert. case_decide; subst.
    + rewrite Hf in Hf0. injection Hf0 as <-. eexists. split; [done|]. by apply updateFinding_evolves.
    + exists f0. split; [done|reflexivity].
  - unfold insertRow. destruct (t_findings db !! up_id u) eqn:E1; [done|]. intros [= <- <-].
    split; [|by intros k; apply timeLe_refl]. intros i f0 Hf0. simpl.
    rewrite lookup_insert_ne by congruence. exists f0. split; [done|reflexivity].
Qed.

Lemma closeScan_safe m db1 : worker_safe db1 (closeScan m (t_coverage db1 !! importKey m) db1).
Proof.
  unfold closeScan. destruct (i_source_scan_at m) as [scan|]; [|reflexivity].
  destruct (comparable m && _) eqn:E; [|reflexivity]. split.
  - intros id f Hf. simpl. rewrite lookup_updateRows, Hf. simpl.
    destruct (absent _ _ _ id f) eqn:Ea.
    + eexists. split; [done|]. by eapply inferResolved_evolves.
    + eexists. split; [done|reflexivity].
  - intros k. simpl. rewrite lookup_insert. case_decide; [subst|apply timeLe_refl].
    apply andb_true_iff in E as [_ E]. destruct (t_coverage db1 !! importKey m); simpl; [lia|done].
Qed.

Lemma reconcileSlices_safe m owner cov ep name k start fs :
  Steps worker_safe (reconcileSlices m owner cov ep name k start fs).
Proof.
  apply steps_reconcileSlices; [apply _| |intros; by apply worker_safe_same..].
  intros. by eapply findingUpsert_safe.
Qed.

Lemma reconcileSlices_coverage m owner cov ep name k start fs env n db :
  t_coverage (out_db (reconcileSlices m owner cov ep name k start fs env n db)) = t_coverage db.
Proof.
  revert env n db. change (Steps (λ d d', t_coverage d' = t_coverage d)
    (reconcileSlices m owner cov ep name k start fs)).
  assert (PreOrder (λ d d', t_coverage d' = t_coverage d)) as ?.
  { split; [done|]. intros d1 d2 d3. congruence. }
  apply steps_reconcileSlices; [done| |done..].
  intros owner' cov' f id db x db'. unfold findingUpsert. case_if; [done|].
  destruct (findRow _ _) as [[? ?]|]; [by intros [= <- <-]|].
  unfold insertRow. destruct (t_findings db !! _); [done|]. by intros [= <- <-].
Qed.

Lemma reconcile_safe record fs : Steps worker_safe (reconcile record fs).
Proof.
  unfold reconcile. apply steps_transaction_ok; [apply _|]. intros env n db a db' n' H.
  apply reconcileTx_run in H as (r & t & asset & w & db1 & k & n1 & _ & _ & _ & _ & _ & _ & Hs & ->).
  pose proof (reconcileSlices_safe (recMeta record) (a_owner_id asset)
    (t_coverage db !! importKey (recMeta record)) (w_notification_policy_epoch w) (a_name asset)
    (length fs) 0 fs env k db) as H1. rewrite Hs in H1. simpl in H1.
  pose proof (reconcileSlices_coverage (recMeta record) (a_owner_id asset)
    (t_coverage db !! importKey (recMeta record)) (w_notification_policy_epoch w) (a_name asset)
    (length fs) 0 fs env k db) as H2. rewrite Hs in H2. simpl in H2.
  etransitivity; [exact H1|]. rewrite <- H2. etransitivity; [apply closeScan_safe|].
  by apply worker_safe_same.
Qed.

Lemma processImport_safe others registry read ticks record :
  (∀ n db, worker_safe db (others n db)) →
  Steps worker_safe (processImport others registry read ticks record).
Proof.
  intros Ho. apply steps_processImport_queue; [apply _|done|apply reconcile_safe|]. intros. by apply worker_safe_same.
Qed.

(** One worker processing one claimed import, in any world, while others who
    respect the findings as well act between its requests. *)
Inductive worker_step (db : DB) : DB → Prop :=
  | ws_process others registry read ticks record env n :
      (∀ n db, worker_safe db (others n db)) →
      worker_step db (out_db (processImport others registry read ticks record env n db)).

(** C2: reports never regress a finding: however many imports are processed, in whatever order scans arrive and whatever fails, each finding keeps its identity, first observation and everything people decided about it (owner, workflow state, disposition, expiry, decision revision); its scan time, freshness, evidence revision and change revision never go back; what it shows changes only with a strictly later scan time or when no scan time was known, and never without a new change revision; and the coverage of a scope never moves back. *)
Theorem reports_never_regress_findings db db' id f :
  rtc worker_step db db' → t_findings db !! id = Some f →
  (∃ f', t_findings db' !! id = Some f' ∧ finding_evolves f f') ∧
  ∀ k, timeLe (t_coverage db !! k) (t_coverage db' !! k).
Proof.
  intros Hs Hf. assert (worker_safe db db') as [He Hc].
  { clear Hf. induction Hs as [|d1 d2 d3 Hstep _ IH]; [reflexivity|]. etransitivity; [|done].
    destruct Hstep. by apply processImport_safe. }
  split; [by apply He|apply Hc].
Qed.

(** ** What a committed report recorded *)

Section recorded.
Context (m : ImportMeta).

(** The finding [f] of the report is the row [row]. *)
Definition identifies (f : Finding) (row : FindingRow) : Prop :=
  findingKey row = (importKey m, Identity f).

Lemma findingRow_key owner cov f : findingKey (findingRow m owner cov f).1 = (importKey m, Identity f).
Proof.
  unfold findingRow. destruct (i_source_status m ==? "succeeded"); simpl; [|done].
  by destruct (correlationCandidateLocation (FLocation f)).
Qed.

Lemma upsertFinding_run owner cov f env n db r db' n' :
  upsertFinding m owner cov f env n db = mkOut (Ok r) db' n' →
  ∃ row, db' = with_findings (<[rfID r := row]> (t_findings db)) db ∧ identifies f row ∧
    ∀ row0, t_findings db !! rfID r = Some row0 → identifies f row0.
Proof.
  unfold upsertFinding. intros H. run_inv_step. run_inv_step. subst.
  pose proof (findingRow_key owner cov f) as Hk.
  destruct (findingRow m owner cov f) as [row fresh]. simpl in Hk. run_inv_step.
  unfold findingUpsert in H. case_if_in H; [done|]. simpl in H.
  destruct (findRow _ _) as [[id f0]|] eqn:Ef.
  - injection H as <- <-. apply findRow_Some in Ef as [Hf0 Hs]. unfold sameFinding in Hs.
    breflect_in Hs. destruct Hs as [H1 H2]. unfold findingKey in Hk. injection Hk as E1 E2. simpl.
    assert (identifies f f0) as Hid by (unfold identifies, findingKey; congruence).
    eexists. split; [done|]. split; [done|]. intros row0 Hr. rewrite Hf0 in Hr. by injection Hr as <-.
  - unfold insertRow in H. destruct (t_findings db !! _) eqn:El; [done|]. injection H as <- <-. simpl.
    eexists. split; [done|]. split; [done|]. intros row0 Hr. congruence.
Qed.

(** The upserts of a slice: findings the slice does not name keep their rows,
    and each returned id is the row of its finding. *)
Lemma upserts_run owner cov fs env n db rs db' n' :
  mapM (upsertFinding m owner cov) fs env n db = mkOut (Ok rs) db' n' →
  t_observations db' = t_observations db ∧
  (∀ id row, t_findings db !! id = Some row → (∀ f, f ∈ fs → ¬ identifies f row) →
     t_findings db' !! id = Some row) ∧
  (∀ id row f, t_findings db !! id = Some row → identifies f row →
     ∃ row', t_findings db' !! id = Some row' ∧ identifies f row') ∧
  Forall2 (λ f r, ∃ row, t_findings db' !! rfID r = Some row ∧ identifies f row) fs rs.
Proof.
  revert n db rs db' n'. induction fs as [|f fs IH]; intros n db rs db' n' H; cbn [mapM] in H.
  { run_inv_step. subst. split_and!; eauto. }
  run_inv_step. rename H0 into Hu. apply upsertFinding_run in Hu as (row & -> & Hid & Hold).
  run_inv_step. run_inv_step. subst. rename H0 into Hrec.
  apply IH in Hrec as (Ho & Hkeep & Hkey & Hall). simpl in *.
  split_and!; [done|..].
  - intros id row0 Hr Hno. apply Hkeep; [|set_solver]. rewrite lookup_insert_ne; [done|].
    intros <-. apply (Hno f); [set_solver|]. by apply Hold.
  - intros id row0 f0 Hr Hf0. destruct (decide (rfID x = id)) as [<-|Hne].
    + eapply Hkey; [by rewrite lookup_insert_eq|]. apply Hold in Hr.
      unfold identifies in *. congruence.
    + eapply Hkey; [by rewrite lookup_insert_ne|]. done.
  - constructor; [|done]. eapply Hkey; [by rewrite lookup_insert_eq|done].
Qed.

(** The observation rows of a slice: one per item, with its ordinal. *)
Definition recorded (items : list (Z * (Finding * reconciledFinding))) (d d' : DB) : Prop :=
  t_findings d' = t_findings d ∧
  (∀ k o, t_observations d' !! k = Some o → t_observations d !! k = Some o ∨
     ∃ item, item ∈ items ∧ ob_run_id o = i_run_id m ∧ ob_ordinal o = item.1 ∧
       ob_finding_id o = rfID item.2.2) ∧
  (∀ k o, t_observations d !! k = Some o → t_observations d' !! k = Some o) ∧
  (∀ item, item ∈ items → ∃ k o, t_observations d' !! k = Some o ∧ ob_run_id o = i_run_id m ∧
     ob_ordinal o = item.1 ∧ ob_finding_id o = rfID item.2.2).

Lemma changeEvent_run ep name f result env n db x db' n' :
  (if notifies ep m result then insertChangeEvent m ep name f result else ret tt) env n db
    = mkOut (Ok x) db' n' →
  t_findings db' = t_findings db ∧ t_observations db' = t_observations db.
Proof.
  intros H. destruct (notifies ep m result); [|by db_inv]. unfold insertChangeEvent in H.
  run_inv_step. run_inv_step. subst. cbv zeta in H. run_inv_step.
  revert H. match goal with |- (if ?c then _ else _) = _ → _ => destruct c; [discriminate|] end.
  match goal with |- (if ?c then _ else _) = _ → _ => destruct c; [by intros [= _ <-]|] end.
  unfold insertRow. destruct (t_changeEvents db !! env_fresh env n); [done|]. by intros [= _ <-].
Qed.

Lemma recordOne_run ep name item env n db x db' n' :
  recordOne m ep name item env n db = mkOut (Ok x) db' n' → recorded [item] db db'.
Proof.
  destruct item as [ordinal [f result]]. cbn [recordOne]. intros H. run_inv_step.
  apply changeEvent_run in H as [E1 E2]. rename H0 into Ho. unfold insertObservation in Ho. db_inv.
  unfold recorded. rewrite E1, E2. split_and!; [done|..].
  - intros k o. rewrite lookup_insert. case_decide; [|by left]. intros [= <-]. right.
    eexists. split; [apply list_elem_of_singleton; reflexivity|done].
  - intros k o Hk. rewrite lookup_insert_ne; [done|]. congruence.
  - intros item ->%list_elem_of_singleton. do 2 eexists. split; [apply lookup_insert_eq|done].
Qed.

Lemma recorded_app i1 i2 d1 d2 d3 : recorded i1 d1 d2 → recorded i2 d2 d3 → recorded (i1 ++ i2) d1 d3.
Proof.
  intros (F1 & N1 & K1 & A1) (F2 & N2 & K2 & A2). split_and!; [congruence|..].
  - intros k o [H|(item & Hin & H)]%N2.
    + apply N1 in H as [?|(item & Hin & H)]; [by left|]. right. exists item. split; [set_solver|done].
    + right. exists item. split; [set_solver|done].
  - eauto.
  - intros item [Hin|Hin]%elem_of_app; [|by apply A2].
    destruct (A1 _ Hin) as (k & o & Hk & Ho). exists k, o. split; [by apply K2|done].
Qed.

Lemma records_run ep name items env n db x db' n' :
  foldM (λ _ item, recordOne m ep name item) items tt env n db = mkOut (Ok x) db' n' →
  recorded items db db'.
Proof.
  revert n db x db' n'. induction items as [|item items IH]; intros n db x db' n' H; cbn [foldM] in H.
  { run_inv_step. subst. split_and!; try done; [by left|intros item Hin; by apply elem_of_nil in Hin]. }
  run_inv_step. rename H0 into H1. apply recordOne_run in H1. destruct x0. apply IH in H.
  by apply (recorded_app [item] items _ _ _ H1).
Qed.

(** The observation [o] of the run records the finding [f] as number [i]. *)
Definition observes (d : DB) (o : ObservationRow) (i : Z) (f : Finding) : Prop :=
  ob_run_id o = i_run_id m ∧ ob_ordinal o = i ∧
  ∃ row, t_findings d !! ob_finding_id o = Some row ∧ identifies f row.

Record slice_spec (start : Z) (fs : list Finding) (d d' : DB) : Prop := {
  sl_keep : ∀ id row, t_findings d !! id = Some row → (∀ f, f ∈ fs → ¬ identifies f row) →
              t_findings d' !! id = Some row;
  sl_key : ∀ id row f, t_findings d !! id = Some row → identifies f row →
              ∃ row', t_findings d' !! id = Some row' ∧ identifies f row';
  sl_new : ∀ k o, t_observations d' !! k = Some o → t_observations d !! k = Some o ∨
              ∃ i f, fs !! i = Some f ∧ observes d' o (start + Z.of_nat i) f;
  sl_old : ∀ k o, t_observations d !! k = Some o → t_observations d' !! k = Some o;
  sl_all : ∀ i f, fs !! i = Some f → ∃ k o, t_observations d' !! k = Some o ∧
              observes d' o (start + Z.of_nat i) f }.

Lemma slice_nil start d : slice_spec start [] d d.
Proof. split; try done; eauto. Qed.

Lemma observes_later start fs d d' o i f :
  slice_spec start fs d d' → observes d o i f → observes d' o i f.
Proof.
  intros Hs (Hr & Ho & row & Hf & Hid). split_and!; [done..|]. by apply (sl_key _ _ _ _ Hs _ _ _ Hf).
Qed.

Lemma slice_app start l1 l2 d1 d2 d3 :
  slice_spec start l1 d1 d2 → slice_spec (start + Z.of_nat (length l1)) l2 d2 d3 →
  slice_spec start (l1 ++ l2) d1 d3.
Proof.
  intros H1 H2. split.
  - intros id row Hr Hno. apply (sl_keep _ _ _ _ H2); [apply (sl_keep _ _ _ _ H1)|]; set_solver.
  - intros id row f Hr Hi. destruct (sl_key _ _ _ _ H1 _ _ _ Hr Hi) as (row2 & Hr2 & Hi2).
    by apply (sl_key _ _ _ _ H2 _ _ _ Hr2).
  - intros k o Hk. apply (sl_new _ _ _ _ H2) in Hk as [Hk|(i & f & Hf & Ho)].
    + apply (sl_new _ _ _ _ H1) in Hk as [Hk|(i & f & Hf & Ho)]; [by left|]. right.
      exists i, f. split; [by apply lookup_app_l_Some|]. by eapply observes_later.
    + right. exists (length l1 + i)%nat, f. split; [rewrite lookup_app_r by lia; by replace (length l1 + i - length l1)%nat with i by lia|].
      replace (start + Z.of_nat (length l1 + i)) with (start + Z.of_nat (length l1) + Z.of_nat i) by lia.
      done.
  - intros k o Hk. apply (sl_old _ _ _ _ H2). by apply (sl_old _ _ _ _ H1).
  - intros i f [Hf|[Hlen Hf]]%lookup_app_Some.
    + destruct (sl_all _ _ _ _ H1 _ _ Hf) as (k & o & Hk & Ho). exists k, o.
      split; [by apply (sl_old _ _ _ _ H2)|]. by eapply observes_later.
    + destruct (sl_all _ _ _ _ H2 _ _ Hf) as (k & o & Hk & Ho). exists k, o. split; [done|].
      by replace (start + Z.of_nat i) with
        (start + Z.of_nat (length l1) + Z.of_nat (i - length l1)) by lia.
Qed.

Lemma slice_run owner cov ep name start fs env n db x db' n' :
  reconcileSlice m owner cov ep name start fs env n db = mkOut (Ok x) db' n' →
  slice_spec start fs db db'.
Proof.
  unfold reconcileSlice. intros H. run_inv_step. rename H0 into Hu.
  apply upserts_run in Hu as (Ho & Hkeep & Hkey & Hall).
  apply records_run in H as (Hf & Hnew & Hold & Hrec).
  assert (∀ i f, fs !! i = Some f → ∃ r, x0 !! i = Some r ∧
    ∃ row, t_findings x1 !! rfID r = Some row ∧ identifies f row) as Hr.
  { intros i f Hi. exact (Forall2_lookup_l _ _ _ _ _ Hall Hi). }
  split.
  - intros id row Hr0 Hno. rewrite Hf. by apply Hkeep.
  - intros id row f Hr0 Hi. rewrite Hf. by eapply Hkey.
  - intros k o [Hk|(item & Hin & H1 & H2 & H3)]%Hnew; [left; by rewrite Ho in Hk|right].
    apply list_elem_of_lookup in Hin as [i Hi]. apply lookup_zip_with_Some in Hi as (z & [f r] & -> & Hz & Hfr).
    apply lookup_zip_with_Some in Hfr as (f' & r' & [= <- <-] & Hfi & Hri).
    apply lookup_seqZ in Hz as [-> _]. exists i, f. split; [done|]. split_and!; [done..|].
    destruct (Hr _ _ Hfi) as (r2 & Hr2 & row & Hrow & Hid). simplify_eq/=. exists row.
    by rewrite H3, Hf.
  - intros k o Hk. apply Hold. by rewrite Ho.
  - intros i f Hi. destruct (Hr _ _ Hi) as (r & Hri & row & Hrow & Hid).
    destruct (Hrec (start + Z.of_nat i, (f, r))) as (k & o & Hk & H1 & H2 & H3).
    { apply list_elem_of_lookup_2 with i. apply lookup_zip_with_Some.
      exists (start + Z.of_nat i), (f, r). split_and!; [done|..].
      - apply lookup_seqZ. split; [done|]. apply lookup_lt_Some in Hi. lia.
      - apply lookup_zip_with_Some. eauto. }
    exists k, o. split; [done|]. split_and!; [done..|]. exists row. by rewrite H3, Hf.
Qed.

Lemma reconcileSlices_cons owner cov ep name k start f fs :
  reconcileSlices m owner cov ep name (S k) start (f :: fs) =
  (reconcileSlice m owner cov ep name start (take 100 (f :: fs)) ;;;
   reconcileSlices m owner cov ep name k (start + 100) (drop 100 (f :: fs))).
Proof. reflexivity. Qed.

Lemma slices_run owner cov ep name k start fs env n db x db' n' :
  (length fs ≤ k)%nat →
  reconcileSlices m owner cov ep name k start fs env n db = mkOut (Ok x) db' n' →
  slice_spec start fs db db'.
Proof.
  revert start fs n db x db' n'. induction k as [|k IH]; intros start fs n db x db' n' Hk H.
  { destruct fs; [|simpl in Hk; lia]. unfold reconcileSlices in H. run_inv_step. subst. apply slice_nil. }
  destruct fs as [|f fs]; [unfold reconcileSlices in H; run_inv_step; subst; apply slice_nil|].
  rewrite reconcileSlices_cons in H. run_inv_step. rename H0 into Hs. apply slice_run in Hs.
  apply IH in H; [|rewrite length_drop; simpl in *; lia].
  rewrite <- (take_drop 100 (f :: fs)). eapply slice_app; [done|].
  destruct (decide (length (f :: fs) <= 100)%nat) as [Hl|Hl].
  - rewrite drop_ge in H |- * by done.
    destruct H as [A B C D E]. split; [done|done| |done|done].
    intros ko o Ho. apply C in Ho as [?|(i & f0 & Hf0 & _)]; [by left|done].
  - rewrite length_take_le by lia. done.
Qed.
End recorded.

Lemma closeScan_observations m cov d : t_observations (closeScan m cov d) = t_observations d.
Proof.
  unfold closeScan. destruct (i_source_scan_at m); [|done]. by destruct (comparable m && _).
Qed.

Lemma closeScan_key m cov d id row f :
  t_findings d !! id = Some row → identifies m f row →
  ∃ row', t_findings (closeScan m cov d) !! id = Some row' ∧ identifies m f row'.
Proof.
  intros Hr Hi. unfold closeScan. destruct (i_source_scan_at m) as [scan|]; [|by eauto].
  destruct (comparable m && _); [|by eauto]. simpl. rewrite lookup_updateRows, Hr. simpl.
  eexists. split; [done|]. by case_if.
Qed.

(** C27: a report that commits is recorded completely: when reconciliation succeeds for a run without earlier observations, the actor was authorized and the claim was held, the import is succeeded with the number of findings of the report, every finding of the report has an observation of the run with its position, attached to the finding of that scope and identity, and the run has no other observation. *)
Theorem committed_report_recorded record fs env n db x db' n' :
  reconcile record fs env n db = mkOut (Ok x) db' n' →
  (∀ k o, t_observations db !! k = Some o → ob_run_id o ≠ i_run_id (recMeta record)) →
  actor_authorized record db ∧
  (∃ r t, t_imports db !! recID record = Some r ∧ claim_held record t r ∧
     t_imports db' !! recID record = Some (succeedJob r (Z.of_nat (length fs)))) ∧
  (∀ i f, fs !! i = Some f → ∃ k o, t_observations db' !! k = Some o ∧
     observes (recMeta record) db' o (Z.of_nat i) f) ∧
  (∀ k o, t_observations db' !! k = Some o → ob_run_id o = i_run_id (recMeta record) →
     ∃ i f, fs !! i = Some f ∧ observes (recMeta record) db' o (Z.of_nat i) f).
Proof.
  intros H Hfresh. unfold reconcile in H. apply transaction_inv in H as [n1 H].
  apply reconcileTx_run in H
    as (r & t & asset & w & db1 & k & n2 & Hr & Hc & Ha & _ & _ & _ & Hs & ->).
  apply slices_run in Hs; [|lia]. split; [done|]. split.
  { exists r, t. split_and!; [done..|]. simpl. apply lookup_insert_eq. }
  assert (∀ o i f, observes (recMeta record) db1 o i f →
    observes (recMeta record) (with_imports (<[recID record := succeedJob r (Z.of_nat (length fs))]>
      (t_imports db)) (closeScan (recMeta record) (t_coverage db !! importKey (recMeta record)) db1)) o i f) as Hob.
  { intros o i f (H1 & H2 & row & Hrow & Hid). split_and!; [done..|]. simpl. by eapply closeScan_key. }
  simpl. rewrite closeScan_observations. split.
  - intros i f Hf. destruct (sl_all _ _ _ _ _ Hs _ _ Hf) as (ko & o & Hk & Ho). rewrite Z.add_0_l in Ho.
    eauto 10.
  - intros ko o Hk Hrun. destruct (sl_new _ _ _ _ _ Hs _ _ Hk) as [Hold|(i & f & Hf & Ho)].
    + by apply Hfresh in Hold.
    + rewrite Z.add_0_l in Ho. eauto 10.
Qed.

(** C28: absence in a complete scan resolves: when a successful full and complete scan with a known time later than the coverage of its scope commits, every finding of that scope that the report does not contain, whose last scan and freshness are strictly older and whose state is known, has the source state inferred-resolved afterwards, as a change of this run at its import time with the next change revision, the freshness of this scan and one more evidence revision; its identity, its first observation, what it shows, its last scan and everything people decided about it are unchanged; and the coverage of the scope becomes the time of the scan. *)
Theorem complete_scan_resolves_absent record fs scan env n db x db' n' id f last :
  reconcile record fs env n db = mkOut (Ok x) db' n' →
  (∀ k o, t_observations db !! k = Some o → ob_run_id o ≠ i_run_id (recMeta record)) →
  comparable (recMeta record) = true → i_source_scan_at (recMeta record) = Some scan →
  (∀ c, t_coverage db !! importKey (recMeta record) = Some c → c < scan) →
  t_findings db !! id = Some f → f_scope f = importKey (recMeta record) →
  f_identity_key f ∉ (Identity <$> fs) →
  p_source_scan_at (f_projection f) = Some last → last < scan →
  (∀ t, f_source_freshness_at f = Some t → t < scan) → p_source_state (f_projection f) ≠ "unknown" →
  (∃ f', t_findings db' !! id = Some f' ∧
     p_source_state (f_projection f') = "inferred-resolved" ∧
     c_kind (f_change f') = "inferred-resolved" ∧ c_run_id (f_change f') = i_run_id (recMeta record) ∧
     c_at (f_change f') = Some (i_imported_at (recMeta record)) ∧
     c_revision (f_change f') = c_revision (f_change f) + 1 ∧
     f_source_freshness_at f' = Some scan ∧ f_evidence_revision f' = f_evidence_revision f + 1 ∧
     findingKey f' = findingKey f ∧ f_first_observed_at f' = f_first_observed_at f ∧
     content (f_projection f') = content (f_projection f) ∧ p_source_scan_at (f_projection f') = Some last ∧
     f_decision f' = f_decision f) ∧
  t_coverage db' !! importKey (recMeta record) = Some scan.
Proof.
  intros H Hfresh Hcmp Hscan Hcov Hf Hscope Hnot Hlast Hlt Hold Hknown.
  unfold reconcile in H. apply transaction_inv in H as [n1 H].
  apply reconcileTx_run in H
    as (r & t & asset & w & db1 & k & n2 & _ & _ & _ & _ & _ & _ & Hs & ->).
  apply slices_run in Hs; [|lia]. set (m := recMeta record) in *.
  assert (∀ pf, pf ∈ fs → ¬ identifies m pf f) as Hno.
  { intros pf Hin Hid. apply Hnot. unfold identifies, findingKey in Hid. injection Hid as _ ->.
    by apply list_elem_of_fmap_2. }
  assert (t_findings db1 !! id = Some f) as Hf1 by (by apply (sl_keep _ _ _ _ _ Hs)).
  simpl. unfold closeScan. rewrite Hscan, Hcmp.
  assert (match t_coverage db !! importKey m with Some c => c <? scan | None => true end = true) as ->.
  { destruct (t_coverage db !! importKey m) as [c|]; [|done]. apply Z.ltb_lt. auto. }
  simpl. split; [|by rewrite lookup_insert_eq]. rewrite lookup_updateRows, Hf1. simpl.
  enough (absent m scan (t_observations db1) id f = true) as -> by (eexists; by split_and!).
  unfold absent. rewrite bool_decide_true by done. rewrite Hlast, (proj2 (Z.ltb_lt _ _)) by done.
  rewrite bool_decide_false by done. simpl. apply andb_true_iff. split.
  - destruct (f_source_freshness_at f) as [t0|]; [|done]. apply Z.ltb_lt. auto.
  - apply negb_true_iff, anyRow_false. intros ko o Ho. apply not_true_iff_false. intros E.
    breflect_in E. destruct E as [Eid Erun].
    destruct (sl_new _ _ _ _ _ Hs _ _ Ho) as [Hold'|(i & pf & Hpf & _ & _ & row & Hrow & Hid)].
    + by apply Hfresh in Hold'.
    + rewrite Eid, Hf1 in Hrow. injection Hrow as <-.
      apply (Hno pf); [by eapply list_elem_of_lookup_2|done].
Qed.

(** ** Witnesses *)

Definition reportFinding (id : string) : Finding :=
  {| Identity := id; SourceFindingID := id; Title := "SQL injection"; Description := "d";
     SourceSeverity := "error"; Severity := "high"; Impact := ""; Remediation := "";
     EvidenceText := "e"; SourceLabel := "SARIF"; FLocation := {| URI := "a.go"; Line := 3 |};
     Unmapped := [("rank", JNumber "7")] |}.
Definition oldFinding : FindingRow :=
  {| f_scope := importKey (exampleMeta "b"); f_identity_key := "old"; f_first_observed_at := 10;
     f_projection := {| p_title := "t"; p_description := "d"; p_remediation := ""; p_severity := "low";
       p_evidence_text := "e"; p_source_label := "SARIF"; p_source_scan_at := Some 500;
       p_collected_at := 600; p_imported_at := 700; p_source_state := "observed";
       p_content_digest := "sha256:aa" |};
     f_candidate_uri := ""; f_candidate_line := 0;
     f_change := {| c_kind := "new"; c_at := Some 700; c_run_id := "run0"; c_revision := 1 |};
     f_source_freshness_at := Some 500;
     f_decision := {| d_owner_id := Some "b"; d_workflow_state := "in-progress"; d_disposition := "none";
       d_accepted_risk_expires_at := None; d_decision_revision := 4 |};
     f_evidence_revision := 1 |}.
Definition reconcileDB : DB := with_findings {["old-id" := oldFinding]} exampleDB.
Definition exampleRecord : importRecord := {| recID := "import"; recRow := exampleImport "b" |}.
Definition reportFindings : list Finding := [reportFinding "n1"; reportFinding "n2"; reportFinding "n1"].

Definition exampleRun : Out DB unit := reconcile exampleRecord reportFindings calm 0%nat reconcileDB.

Lemma committed_report_recorded_witness :
  is_ok (out_res exampleRun) = true ∧
  (∀ i f, reportFindings !! i = Some f → ∃ k o, t_observations (out_db exampleRun) !! k = Some o ∧
     observes (recMeta exampleRecord) (out_db exampleRun) o (Z.of_nat i) f).
Proof.
  split; [vm_compute; reflexivity|].
  eapply (committed_report_recorded exampleRecord reportFindings calm 0%nat reconcileDB tt
    (out_db exampleRun) (out_tick exampleRun)).
  - apply (ok_eta exampleRun). vm_compute. reflexivity.
  - intros k o Ho. vm_compute in Ho. done.
Defined.

Lemma complete_scan_resolves_absent_witness :
  is_ok (out_res exampleRun) = true ∧
  (∃ f', t_findings (out_db exampleRun) !! "old-id" = Some f' ∧
     p_source_state (f_projection f') = "inferred-resolved" ∧ f_decision f' = f_decision oldFinding) ∧
  t_coverage (out_db exampleRun) !! importKey (exampleMeta "b") = Some 1000.
Proof.
  split; [vm_compute; reflexivity|].
  destruct (complete_scan_resolves_absent exampleRecord reportFindings 1000 calm 0%nat reconcileDB tt
    (out_db exampleRun) (out_tick exampleRun) "old-id" oldFinding 500)
    as [(f' & Hf & Hs & _ & _ & _ & _ & _ & _ & _ & _ & _ & _ & Hd) Hc];
    [apply (ok_eta exampleRun); vm_compute; reflexivity
    | intros k o Ho; vm_compute in Ho; done | vm_compute; reflexivity
    | reflexivity | intros c Hc; vm_compute in Hc; done | vm_compute; reflexivity | reflexivity
    | by apply (bool_decide_unpack _) | reflexivity | lia | intros t Ht; vm_compute in Ht; simplify_eq; lia
    | done |].
  split; [|exact Hc]. exists f'. split; [exact Hf|]. split; [exact Hs|exact Hd].
Defined.

Lemma reports_never_regress_findings_witness :
  (∃ f', t_findings (out_db (processImport alone (Some sampleRegistry) (λ _, Ok [65%N]) (λ _, 1%nat)
       exampleRecord calm 0%nat reconcileDB)) !! "old-id" = Some f' ∧ finding_evolves oldFinding f') ∧
  ∀ k, timeLe (t_coverage reconcileDB !! k) (t_coverage (out_db (processImport alone (Some sampleRegistry)
       (λ _, Ok [65%N]) (λ _, 1%nat) exampleRecord calm 0%nat reconcileDB)) !! k).
Proof.
  apply (reports_never_regress_findings reconcileDB _ "old-id" oldFinding);
    [apply rtc_once, ws_process; reflexivity | vm_compute; reflexivity].
Defined.
