(* ===== verification/WorkViews.v ===== *)
(** * internal/app/work_views.go: saved work views

    Private per member, updated and deleted under the revision the client
    last saw (sent back as text). *)
From stdpp Require Import pretty.
From S2P Require Import Prelude GoLib Encoding Tx ReportAdapter Schema Auth Paging Assets.
Local Open Scope Z_scope.

Record WorkView := {
  ViewID : string; ViewName : string; ViewQuery : string; ViewSort : string;
  ViewRevision : string; ViewCreatedAt : Z; ViewUpdatedAt : Z }.

(** [revision::text] is the decimal numeral. *)
Definition scanWorkView (id : string) (r : WorkViewRow) : WorkView :=
  {| ViewID := id; ViewName := v_name r; ViewQuery := v_query r; ViewSort := v_sort r;
     ViewRevision := pretty (v_revision r); ViewCreatedAt := v_created_at r;
     ViewUpdatedAt := v_updated_at r |}.

Record workViewInput := {
  vName : optional string; vQuery : optional string; vSort : optional string }.

Definition validViewText (name query sort : string) : bool :=
  ValidString name && validText name 256 && ValidString query && (len query <=? 512) &&
  negb (containsNUL query) &&
  ((sort ==? "source-order") || (sort ==? "severity") || (sort ==? "title")).

(** The new texts of the view and whether any of them differs. *)
Definition applyWorkViewInput (view : WorkView) (input : workViewInput) : Res (WorkView * bool) :=
  match patchField {| IsSet := IsSet (vName input); Value := TrimSpace <$> Value (vName input) |}
          (ViewName view) with
  | Err e => Err e
  | Ok name =>
    match patchField {| IsSet := IsSet (vQuery input); Value := TrimSpace <$> Value (vQuery input) |}
            (ViewQuery view) with
    | Err e => Err e
    | Ok query =>
      match patchField (vSort input) (ViewSort view) with
      | Err e => Err e
      | Ok sort =>
          if negb (validViewText name query sort) then Err errInvalid
          else Ok ({| ViewID := ViewID view; ViewName := name; ViewQuery := query;
                      ViewSort := sort; ViewRevision := ViewRevision view;
                      ViewCreatedAt := ViewCreatedAt view; ViewUpdatedAt := ViewUpdatedAt view |},
                   (name !=? ViewName view) || (query !=? ViewQuery view) || (sort !=? ViewSort view))
      end
    end
  end.

Definition workViewRevision (input : optional string) : Res string :=
  match (if IsSet input then Value input else None) with
  | None => Err errInvalid
  | Some value =>
      match ParseInt value with
      | Some revision =>
          if (revision <=? 0) || (pretty revision !=? value) then Err errInvalid else Ok value
      | None => Err errInvalid
      end
  end.

Definition authorizeWorkViewWrite (workspace : string) (session : authenticatedSession) : M DB unit :=
  query (λ _ db, if isSome (t_workspaces db !! workspace) then Ok tt else Err ErrNoRows) ;;;
  sessionRole session workspace ;;;
  ret tt.

Definition ownView (workspace user : string) (r : WorkViewRow) : bool :=
  (v_workspace_id r ==? workspace) && (v_user_id r ==? user).

Definition readWorkView (workspace user id : string) : M DB WorkView :=
  query (λ _ db,
    match t_workViews db !! id with
    | Some r => if ownView workspace user r then Ok (scanWorkView id r) else Err ErrNoRows
    | None => Err ErrNoRows
    end).

Definition listWorkViews (limit cursor workspace user : string) : M DB (list WorkView * Z * option string) :=
  p <- fromRes (pageParameters limit cursor) ;;
  transaction (
    total <- query (λ _ db, Ok (countRows (λ _ r, ownView workspace user r) (t_workViews db))) ;;
    items <- query (λ _ db, Ok (take (fst p + 1) ((λ r, scanWorkView r.1 r.2) <$>
      rowsById (λ id r, ownView workspace user r && strLt (snd p) id) (t_workViews db)))) ;;
    let page := cutPage ViewID (fst p) items in
    ret (fst page, total, snd page)).

Definition emptyView : WorkView :=
  {| ViewID := ""; ViewName := ""; ViewQuery := ""; ViewSort := ""; ViewRevision := "";
     ViewCreatedAt := zeroTime; ViewUpdatedAt := zeroTime |}.

Definition createWorkView (workspace : string) (session : authenticatedSession)
    (input : workViewInput) : M DB WorkView :=
  guard (IsSet (vName input) && IsSet (vQuery input) && IsSet (vSort input)) errInvalid ;;;
  applied <- fromRes (applyWorkViewInput emptyView input) ;;
  let view := fst applied in
  transaction (
    authorizeWorkViewWrite workspace session ;;;
    id <- newID ;;
    at_ <- now ;;
    let row := {| v_workspace_id := workspace; v_user_id := UserID (SessUser session);
      v_name := ViewName view; v_query := ViewQuery view; v_sort := ViewSort view;
      v_revision := 1; v_created_at := at_; v_updated_at := at_ |} in
    insertInto t_workViews with_workViews
      (requires (λ db, isSome (t_workspaces db !! workspace) &&
         isSome (t_users db !! UserID (SessUser session))) ErrConstraint) id row ;;;
    ret (scanWorkView id row)).

Definition updateViewTx (workspace : string) (session : authenticatedSession) (id : string)
    (input : workViewInput) (revision : string) : M DB WorkView :=
  authorizeWorkViewWrite workspace session ;;;
  view <- readWorkView workspace (UserID (SessUser session)) id ;;
  guard (ViewRevision view ==? revision) errConflict ;;;
  applied <- fromRes (applyWorkViewInput view input) ;;
  if snd applied : bool then
    let next := fst applied in
    at_ <- now ;;
    stmt (λ _ db,
      match t_workViews db !! id with
      | Some r =>
          if ownView workspace (UserID (SessUser session)) r then
            let r' := {| v_workspace_id := v_workspace_id r; v_user_id := v_user_id r;
              v_name := ViewName next; v_query := ViewQuery next; v_sort := ViewSort next;
              v_revision := v_revision r + 1; v_created_at := v_created_at r;
              v_updated_at := Z.max at_ (v_updated_at r + 1) |} in
            Ok (scanWorkView id r', with_workViews (<[id := r']> (t_workViews db)) db)
          else Err ErrNoRows
      | None => Err ErrNoRows
      end)
  else ret view.

Definition updateWorkView (workspace : string) (session : authenticatedSession) (id : string)
    (input : workViewInput) (revision : optional string) : M DB WorkView :=
  revision <- fromRes (workViewRevision revision) ;;
  transaction (updateViewTx workspace session id input revision).

Definition deleteViewTx (workspace : string) (session : authenticatedSession) (id revision : string)
    : M DB unit :=
  authorizeWorkViewWrite workspace session ;;;
  view <- readWorkView workspace (UserID (SessUser session)) id ;;
  guard (ViewRevision view ==? revision) errConflict ;;;
  exec (λ _ db, (tt, with_workViews (deleteRows
    (λ i r, (i ==? id) && ownView workspace (UserID (SessUser session)) r) (t_workViews db)) db)).

Definition deleteWorkView (workspace : string) (session : authenticatedSession) (id : string)
    (revision : optional string) : M DB unit :=
  revision <- fromRes (workViewRevision revision) ;;
  transaction (deleteViewTx workspace session id revision).

(** ** Optimistic concurrency *)

Lemma steps_authorizeWorkViewWrite R `{!PreOrder R} ws s : Steps R (authorizeWorkViewWrite ws s).
Proof. unfold authorizeWorkViewWrite, sessionRole. steps. Qed.

Lemma workViewRevision_inv o value :
  workViewRevision o = Ok value → ∃ n, 0 < n ∧ value = pretty n.
Proof.
  unfold workViewRevision. destruct (if IsSet o then Value o else None) as [v|]; [|done].
  destruct (ParseInt v) as [n|]; [|done]. destruct (_ || _) eqn:E; [done|]. intros [= <-].
  breflect_in E. exists n. naive_solver lia.
Qed.

Lemma authorizeWorkViewWrite_inv ws s env n db x db' n' :
  authorizeWorkViewWrite ws s env n db = mkOut (Ok x) db' n' → db' = db.
Proof.
  intros H. pose proof (steps_authorizeWorkViewWrite eq ws s env n db) as E. by rewrite H in E.
Qed.

(** The state in which a request finds its view. *)
Definition has_view (workspace user id : string) (revision : Z) (r : WorkViewRow) (db : DB) : Prop :=
  t_workViews db !! id = Some r ∧ v_workspace_id r = workspace ∧ v_user_id r = user ∧ v_revision r = revision.

Lemma readWorkView_inv workspace user id env n db v db' n' :
  readWorkView workspace user id env n db = mkOut (Ok v) db' n' →
  ∃ r, has_view workspace user id (v_revision r) r db ∧ v = scanWorkView id r ∧ db' = db.
Proof.
  unfold readWorkView. intros H. run_inv. unfold ownView in *.
  match goal with H : _ && _ = true |- _ => breflect_in H; destruct H as [? ?] end.
  eexists. split; [|done]. by split_and!.
Qed.

(** What an acknowledged update did: nothing, or the next revision with a
    strictly later update time, of this view only. *)
Definition revised (id : string) (r r' : WorkViewRow) (db db' : DB) : Prop :=
  db' = with_workViews (<[id := r']> (t_workViews db)) db ∧
  v_revision r' = v_revision r + 1 ∧ v_updated_at r < v_updated_at r' ∧
  v_workspace_id r' = v_workspace_id r ∧ v_user_id r' = v_user_id r ∧ v_created_at r' = v_created_at r.

Lemma updateViewTx_inv workspace session id input revision env n db v db' n' :
  updateViewTx workspace session id input revision env n db = mkOut (Ok v) db' n' →
  ∃ r, has_view workspace (UserID (SessUser session)) id (v_revision r) r db ∧
       revision = pretty (v_revision r) ∧
       ((db' = db ∧ v = scanWorkView id r) ∨ ∃ r', v = scanWorkView id r' ∧ revised id r r' db db').
Proof.
  unfold updateViewTx. intros (? & s2 & ? & ->%authorizeWorkViewWrite_inv & H)%bind_inv.
  apply bind_inv in H as (view & s3 & ? & (r & Hr & -> & ->)%readWorkView_inv & H).
  apply bind_inv in H as (? & s4 & ? & [He ->]%guard_inv & H). breflect_in He. simpl in He.
  apply bind_inv in H as ([next changed] & s5 & ? & [_ ->]%fromRes_inv & H).
  exists r. split; [done|]. split; [done|]. simpl in H. destruct changed.
  - apply bind_inv in H as (t & s6 & ? & [-> ->]%now_inv & H%stmt_inv).
    destruct Hr as (Hr & _). rewrite Hr in H. destruct (ownView _ _ _); [|done]. injection H as <- <-.
    right. eexists. split; [done|]. unfold revised. simpl. split_and!; done || lia.
  - apply ret_inv in H as [<- ->]. by left.
Qed.

Lemma deleteViewTx_inv workspace session id revision env n db x db' n' :
  deleteViewTx workspace session id revision env n db = mkOut (Ok x) db' n' →
  ∃ r, has_view workspace (UserID (SessUser session)) id (v_revision r) r db ∧
       revision = pretty (v_revision r) ∧
       db' = with_workViews (delete id (t_workViews db)) db.
Proof.
  unfold deleteViewTx. intros (? & s2 & ? & ->%authorizeWorkViewWrite_inv & H)%bind_inv.
  apply bind_inv in H as (view & s3 & ? & (r & Hr & -> & ->)%readWorkView_inv & H).
  apply bind_inv in H as (? & s4 & ? & [He ->]%guard_inv & H). breflect_in He. simpl in He.
  apply exec_inv in H. injection H as _ <-. exists r. split; [done|]. split; [done|].
  f_equal. apply map_eq. intros i. rewrite lookup_deleteRows.
  destruct (decide (i = id)) as [->|Hne].
  - rewrite lookup_delete_eq. destruct Hr as (-> & Hw & Hu & _). simpl. unfold ownView.
    by rewrite !bool_decide_true.
  - rewrite lookup_delete_ne by done. rewrite (bool_decide_false (i = id)) by done. simpl.
    by destruct (t_workViews db !! i).
Qed.

(** View requests by anybody, in any world in which [id] is not drawn again. *)
Inductive view_step (id : string) (db : DB) : DB → Prop :=
  | vs_create ws s input env n :
      (∀ k, env_fresh env k ≠ id) → view_step id db (out_db (createWorkView ws s input env n db))
  | vs_update ws s i input o env n : view_step id db (out_db (updateWorkView ws s i input o env n db))
  | vs_delete ws s i o env n : view_step id db (out_db (deleteWorkView ws s i o env n db)).

(** The revision of the view, while it exists, is beyond [n]. *)
Definition beyond (id : string) (n : Z) (db : DB) : Prop :=
  ∀ r, t_workViews db !! id = Some r → n < v_revision r.

Lemma createWorkView_beyond id k ws s input env n db :
  (∀ k, env_fresh env k ≠ id) → beyond id k db → beyond id k (out_db (createWorkView ws s input env n db)).
Proof.
  intros Hf Hb. unfold createWorkView, guard. destruct (_ && _); [|done].
  unfold bind at 1, ret at 1.
  unfold bind at 1. destruct (applyWorkViewInput _ _) as [app|e]; [|done]. unfold fromRes, ret at 1.
  unfold transaction. destruct (bind _ _ env _ db) as [[v|e] db' n'] eqn:H; [|done].
  apply bind_inv in H as (? & s2 & ? & ->%authorizeWorkViewWrite_inv & H).
  apply bind_inv in H as (? & ? & ? & [-> ->]%newID_inv & H).
  apply bind_inv in H as (? & ? & ? & [-> ->]%now_inv & H).
  apply bind_inv in H as (? & ? & ? & (_ & _ & ->)%insertInto_inv & H).
  apply ret_inv in H as [_ ->].
  destruct (env_commit env n'); simpl; [|done|]; intros r; simpl;
    (rewrite lookup_insert_ne; [apply Hb|done]).
Qed.

Lemma view_step_beyond id k db db' : view_step id db db' → beyond id k db → beyond id k db'.
Proof.
  intros [ws s input env n Hf|ws s i input o env n|ws s i o env n].
  - by apply createWorkView_beyond.
  - revert env n db. change (Steps (preserves (beyond id k)) (updateWorkView ws s i input o)).
    unfold updateWorkView. apply steps_bind; [apply _|apply steps_fromRes; apply _|]. intros rev.
    apply steps_transaction_ok; [apply _|]. intros env n d v d' n' H Hb r.
    apply updateViewTx_inv in H as (r0 & (Hr0 & _) & _ & [[-> _]|(r' & _ & Hrev)]); [by apply Hb|].
    destruct Hrev as (-> & Hn & _). simpl. destruct (decide (i = id)) as [->|Hne].
    + rewrite lookup_insert_eq. intros [= <-]. apply Hb in Hr0. lia.
    + rewrite lookup_insert_ne by done. apply Hb.
  - revert env n db. change (Steps (preserves (beyond id k)) (deleteWorkView ws s i o)).
    unfold deleteWorkView. apply steps_bind; [apply _|apply steps_fromRes; apply _|]. intros rev.
    apply steps_transaction_ok; [apply _|]. intros env n d v d' n' H Hb r.
    apply deleteViewTx_inv in H as (_ & _ & _ & ->). simpl. rewrite lookup_delete_Some. intros [_ Hr]. by apply Hb.
Qed.

(** A request that presents a revision below the current one fails. *)
Lemma stale_update_fails id k db ws s input env n :
  beyond id k db → is_ok (out_res (updateWorkView ws s id input (field (Some (pretty k))) env n db)) = false.
Proof.
  intros Hb. destruct (updateWorkView _ _ _ _ _ _ _ _) as [[v|e] db' n'] eqn:H; [exfalso|done].
  unfold updateWorkView in H. apply bind_inv in H as (rev & ? & ? & [Hrev ->]%fromRes_inv & H).
  apply transaction_inv in H as [? (r & (Hr & _) & -> & _)%updateViewTx_inv].
  apply Hb in Hr. unfold workViewRevision, field in Hrev. simpl in Hrev.
  destruct (ParseInt _) as [z|]; [|done]. destruct (_ || _); [done|]. injection Hrev as Hk.
  apply (inj pretty) in Hk. lia.
Qed.

Lemma stale_delete_fails id k db ws s env n :
  beyond id k db → is_ok (out_res (deleteWorkView ws s id (field (Some (pretty k))) env n db)) = false.
Proof.
  intros Hb. destruct (deleteWorkView _ _ _ _ _ _ _) as [[v|e] db' n'] eqn:H; [exfalso|done].
  unfold deleteWorkView in H. apply bind_inv in H as (rev & ? & ? & [Hrev ->]%fromRes_inv & H).
  apply transaction_inv in H as [? (r & (Hr & _) & -> & _)%deleteViewTx_inv].
  apply Hb in Hr. unfold workViewRevision, field in Hrev. simpl in Hrev.
  destruct (ParseInt _) as [z|]; [|done]. destruct (_ || _); [done|]. injection Hrev as Hk.
  apply (inj pretty) in Hk. lia.
Qed.

(** No lost update: an acknowledged update that changed a saved view found it at the presented revision, in the caller's own workspace and account, and moved only that view, to the next revision with a strictly later update time; from then on, after any requests of anybody, an update or deletion of the view that still presents the old revision fails. *)
Theorem view_update_not_lost ws s id input k env n db v db1 n1 :
  updateWorkView ws s id input (field (Some (pretty k))) env n db = mkOut (Ok v) db1 n1 →
  ViewRevision v ≠ pretty k →
  (∃ r r', has_view ws (UserID (SessUser s)) id k r db ∧ v = scanWorkView id r' ∧ revised id r r' db db1) ∧
  ∀ db2 ws' s' input' env' n', rtc (view_step id) db1 db2 →
    is_ok (out_res (updateWorkView ws' s' id input' (field (Some (pretty k))) env' n' db2)) = false ∧
    is_ok (out_res (deleteWorkView ws' s' id (field (Some (pretty k))) env' n' db2)) = false.
Proof.
  unfold updateWorkView at 1. intros (rev & ? & ? & [Hrev ->]%fromRes_inv & H)%bind_inv Hne.
  apply transaction_inv in H as [? (r & Hr & -> & Hcase)%updateViewTx_inv].
  unfold workViewRevision, field in Hrev. simpl in Hrev. destruct (ParseInt _) as [z|]; [|done].
  destruct (_ || _); [done|]. injection Hrev as Hk%(inj pretty).
  destruct Hcase as [[_ ->]|(r' & -> & Hrv)]; [by simpl in Hne; rewrite Hk in Hne|].
  split; [exists r, r'; by rewrite Hk|]. intros db2 ws' s' input' env' n' Hs.
  assert (beyond id k db1) as Hb.
  { destruct Hrv as (-> & Hn & _). intros r2. simpl. rewrite lookup_insert_eq. intros [= <-]. lia. }
  assert (beyond id k db2) as Hb2 by (clear -Hs Hb; induction Hs; eauto using view_step_beyond).
  split; [by apply stale_update_fails | by apply stale_delete_fails].
Qed.

(** ** Witness *)

Definition viewDB : DB :=
  with_users {["u" := {| u_name := "U"; u_email := "u@x"; u_password_hash := None;
      u_auth_method := "local"; u_created_at := 0 |}]}
  (with_workspaces {["ws" := {| w_name := "W"; w_created_at := 0; w_notification_policy_epoch := 0 |}]}
  (with_memberships {[("ws", "u") := "viewer"]}
  (with_sessions {["t" := {| s_user_id := "u"; s_created_at := 0; s_expires_at := 1000000000;
      s_revoked_at := None |}]}
  (with_workViews {["v" := {| v_workspace_id := "ws"; v_user_id := "u"; v_name := "Mine";
      v_query := ""; v_sort := "title"; v_revision := 1; v_created_at := 0; v_updated_at := 0 |}]}
   emptyDB)))).
Definition viewSession : authenticatedSession :=
  {| SessUser := {| UserID := "u"; UserName := "U"; UserEmail := "u@x" |};
     SessExpiresAt := 1000000000; SessTokenHash := "t" |}.
Definition renameView : workViewInput :=
  {| vName := field (Some "Ours"); vQuery := absentField; vSort := absentField |}.

Lemma view_update_not_lost_witness :
  ∃ v db1 n1,
    updateWorkView "ws" viewSession "v" renameView (field (Some (pretty 1))) calm 0%nat viewDB
      = mkOut (Ok v) db1 n1 ∧
    is_ok (out_res (updateWorkView "ws" viewSession "v" renameView (field (Some (pretty 1))) calm 30%nat db1))
      = false.
Proof.
  do 3 eexists. split; [vm_compute; reflexivity|].
  eapply (proj2 (view_update_not_lost "ws" viewSession "v" renameView 1 calm 0%nat viewDB _ _ _
    ltac:(vm_compute; reflexivity) ltac:(vm_compute; discriminate)));
    apply rtc_refl.
Defined.
