(* ===== verification/Work.v ===== *)
(** * internal/app/work.go: the work list and its CSV export

    A finding is work unless it is a secondary member of an active correlation
    group.  Lists and exports read cursor pages of the visible findings.
    [lower] stands for PostgreSQL's lower(), which depends on the database's
    locale; url.ParseQuery's answer is the [urlQuery] argument. *)
From S2P Require Import Prelude GoLib Encoding Tx ReportAdapter Schema Auth Paging WorkViews.
Local Open Scope Z_scope.

Record WorkItem := {
  WorkID : string; WorkTitle : string; WorkAssetName : string; WorkSeverity : string;
  WorkOwnerName : option string; WorkState : string; WorkSourceScanAt : option Z;
  WorkCollectedAt : Z; WorkImportedAt : Z; WorkChangeKind : string; WorkChangeAt : option Z;
  WorkDecisionRevision : Z; WorkDisposition : string; WorkRiskExpiresAt : option Z;
  RiskAcceptanceExpired : bool }.

Definition workVisible (db : DB) (id : string) (f : FindingRow) : bool :=
  negb (anyRow (λ _ cm,
    (m_workspace_id cm ==? f_workspace_id f) && (m_finding_id cm ==? id) &&
    negb (isSome (m_released cm)) &&
    match t_correlations db !! m_correlation_id cm with
    | Some c => (g_workspace_id c ==? m_workspace_id cm) && g_active c && (g_primary_finding_id c !=? id)
    | None => false
    end) (t_members db)).

(** The joins of [workFrom]. *)
Definition assetName (db : DB) (f : FindingRow) : option string :=
  match t_assets db !! f_asset_id f with
  | Some a => if a_workspace_id a ==? f_workspace_id f then Some (a_name a) else None
  | None => None
  end.
Definition ownerName (db : DB) (f : FindingRow) : option string :=
  match d_owner_id (f_decision f) with
  | Some o => u_name <$> t_users db !! o
  | None => None
  end.

Section work.
Context (lower : string → string).

Definition workFilter (workspace q change : string) (db : DB) (id : string) (f : FindingRow) : bool :=
  (f_workspace_id f ==? workspace) && workVisible db id f &&
  match assetName db f with
  | None => false
  | Some asset =>
      (q ==? "") || Contains (lower (p_title (f_projection f))) (lower q) ||
      Contains (lower asset) (lower q) || Contains (lower (default "" (ownerName db f))) (lower q)
  end &&
  (if change ==? "meaningful"
   then (c_kind (f_change f) ==? "new") || (c_kind (f_change f) ==? "changed") ||
        (c_kind (f_change f) ==? "reopened")
   else true).

(** [workColumns] of a joined row. *)
Definition workRow (db : DB) (r : string * FindingRow) : WorkItem :=
  let '(id, f) := r in
  let p := f_projection f in let d := f_decision f in
  {| WorkID := id; WorkTitle := p_title p; WorkAssetName := default "" (assetName db f);
     WorkSeverity := p_severity p; WorkOwnerName := ownerName db f;
     WorkState := d_workflow_state d; WorkSourceScanAt := p_source_scan_at p;
     WorkCollectedAt := p_collected_at p; WorkImportedAt := p_imported_at p;
     WorkChangeKind := c_kind (f_change f); WorkChangeAt := c_at (f_change f);
     WorkDecisionRevision := d_decision_revision d; WorkDisposition := d_disposition d;
     WorkRiskExpiresAt := d_accepted_risk_expires_at d; RiskAcceptanceExpired := false |}.

Definition riskExpired (now : Z) (disposition : string) (expires : option Z) : bool :=
  (disposition ==? "accepted-risk") &&
  match expires with Some t => negb (now <? t) | None => false end.

Definition scanWork (now : Z) (v : WorkItem) : WorkItem :=
  {| WorkID := WorkID v; WorkTitle := WorkTitle v; WorkAssetName := WorkAssetName v;
     WorkSeverity := WorkSeverity v; WorkOwnerName := WorkOwnerName v; WorkState := WorkState v;
     WorkSourceScanAt := WorkSourceScanAt v; WorkCollectedAt := WorkCollectedAt v;
     WorkImportedAt := WorkImportedAt v; WorkChangeKind := WorkChangeKind v;
     WorkChangeAt := WorkChangeAt v; WorkDecisionRevision := WorkDecisionRevision v;
     WorkDisposition := WorkDisposition v; WorkRiskExpiresAt := WorkRiskExpiresAt v;
     RiskAcceptanceExpired := riskExpired now (WorkDisposition v) (WorkRiskExpiresAt v) |}.

(** ** Requests *)

(** A parsed query string: whether a part of it was malformed (and dropped),
    the keys of its raw parts, the values of each key. *)
Record urlQuery := { q_malformed : bool; q_keys : list string; q_values : gmap string (list string) }.
Definition queryGet (query : urlQuery) (key : string) : string :=
  match q_values query !! key with Some (v :: _) => v | _ => "" end.

Definition queryText (query : urlQuery) : Res string :=
  let q := queryGet query "q" in
  if (512 <? len q) || containsNUL q then Err errInvalid else Ok q.

Definition workQuery (query : urlQuery) (workspace : string) (session : authenticatedSession) : M DB string :=
  guard (negb (q_malformed query && existsb (λ k, k ==? "viewId") (q_keys query))) errInvalid ;;;
  match q_values query !! "viewId" with
  | None => fromRes (queryText query)
  | Some selectors =>
      match selectors with
      | [id] =>
          guard (negb (q_malformed query || isSome (q_values query !! "q") || negb (validID id))) errInvalid ;;;
          view <- readWorkView workspace (UserID (SessUser session)) id ;;
          ret (ViewQuery view)
      | _ => throw errInvalid
      end
  end.

Definition workChangeMode (query : urlQuery) : Res string :=
  if q_malformed query && existsb (λ k, k ==? "change") (q_keys query) then Err errInvalid
  else match q_values query !! "change" with
       | None => Ok "all"
       | Some values =>
           if q_malformed query then Err errInvalid
           else match values with
                | [v] => if v ==? "meaningful" then Ok "meaningful" else Err errInvalid
                | _ => Err errInvalid
                end
       end.

(** ** Pages *)

Definition workPage (workspace q change cursor : string) (limit : nat) : M DB (list WorkItem * option string) :=
  rows <- query (λ _ db, Ok (take (limit + 1)
    (workRow db <$> rowsAfter (workFilter workspace q change db) (t_findings db) cursor))) ;;
  items <- mapM (λ v, t <- now ;; ret (scanWork t v)) rows ;;
  ret (cutPage WorkID limit items).

Definition listWork (query_ : urlQuery) (workspace : string) (session : authenticatedSession)
    : M DB (list WorkItem * Z * option string * string) :=
  q <- workQuery query_ workspace session ;;
  change <- fromRes (workChangeMode query_) ;;
  p <- fromRes (pageParameters (queryGet query_ "limit") (queryGet query_ "cursor")) ;;
  transaction (
    total <- query (λ _ db, Ok (countRows (workFilter workspace q change db) (t_findings db))) ;;
    page <- workPage workspace q change (snd p) (fst p) ;;
    ret (fst page, total, snd page, change)).

(** ** CSV export *)

Definition csvTime (t : option Z) : string :=
  match t with None => "" | Some t => RFC3339Nano t end.

(** [strings.TrimLeft(text, " \r\n\t")]. *)
Fixpoint trimCells (l : list N) : list N :=
  match l with
  | b :: l' => if (b =? 32)%N || (b =? 13)%N || (b =? 10)%N || (b =? 9)%N then trimCells l' else l
  | [] => []
  end.
(** '=', '+', '-' and '@'. *)
Definition formulaByte (b : N) : bool := ((b =? 61) || (b =? 43) || (b =? 45) || (b =? 64))%N.
Definition csvText (text : string) : string :=
  if match bytes text with b :: _ => (b =? 9)%N || (b =? 13)%N | [] => false end ||
     match trimCells (bytes text) with b :: _ => formulaByte b | [] => false end
  then "'" +:+ text else text.

Definition csvHeader : list string :=
  ["id"; "title"; "assetName"; "severity"; "ownerName"; "workflowState"; "sourceScanAt";
   "collectedAt"; "importedAt"; "changeKind"; "changeAt"].
Definition csvRecord (v : WorkItem) : list string :=
  [WorkID v; csvText (WorkTitle v); csvText (WorkAssetName v); WorkSeverity v;
   csvText (default "" (WorkOwnerName v)); WorkState v; csvTime (WorkSourceScanAt v);
   csvTime (Some (WorkCollectedAt v)); csvTime (Some (WorkImportedAt v)); WorkChangeKind v;
   csvTime (WorkChangeAt v)].

(** The loop of [exportWork]: the records written after the pages in hand and
    the value of the X-ASPM-Export-Status trailer, "" when the fuel ends
    before the pages do. *)
Fixpoint exportPages (fuel : nat) (workspace q change : string) (items : list WorkItem)
    (next : option string) (written : list (list string)) : M DB (list (list string) * string) :=
  let written := written ++ (csvRecord <$> items) in
  match next with
  | None => ret (written, "complete")
  | Some cursor =>
      match fuel with
      | O => ret (written, "")
      | S fuel =>
          handle (workPage workspace q change cursor 500) (λ r,
            match r with
            | Ok (items, next) => exportPages fuel workspace q change items next written
            | Err _ => ret (written, "failed")
            end)
      end
  end.

(** The response writer accepts every record; the second result is the trailer. *)
Definition exportWork (fuel : nat) (query : urlQuery) (workspace : string)
    (session : authenticatedSession) : M DB (list (list string) * string) :=
  guard (queryGet query "format" ==? "csv") errUnsupported ;;;
  q <- workQuery query workspace session ;;
  change <- fromRes (workChangeMode query) ;;
  page <- workPage workspace q change "" 500 ;;
  exportPages fuel workspace q change (fst page) (snd page) [csvHeader].
End work.

(** ** The export is complete *)

Lemma cutPage_fmap {A B} (f : A → B) (key : A → string) (key' : B → string) limit l :
  (∀ x, key' (f x) = key x) →
  cutPage key' limit (f <$> l) = (f <$> fst (cutPage key limit l), snd (cutPage key limit l)).
Proof.
  intros Hk. unfold cutPage. rewrite length_fmap. destruct (_ <? _)%nat; [|done].
  simpl. rewrite <-fmap_take. f_equal. rewrite fmap_last.
  destruct (last (take limit l)); [simpl; by rewrite Hk|done].
Qed.

Section export.
Context (lower : string → string) (env : Env) (Hok : faultless env).
Context (workspace q change : string) (db : DB).
Let matching := rowsAfter (workFilter lower workspace q change db) (t_findings db).
Let record := λ r, csvRecord (workRow db r).

Lemma scan_run rows n :
  ∃ items n', mapM (λ v, bind now (λ t, ret (scanWork t v))) rows env n db = mkOut (Ok items) db n' ∧
    csvRecord <$> items = csvRecord <$> rows.
Proof.
  revert n. induction rows as [|v rows IH]; intros n; simpl.
  - exists [], n. done.
  - unfold bind at 1. unfold bind at 1. unfold now at 1. unfold ret at 1. destruct (IH (n + 1)%nat) as (items & n' & Hr & He).
    unfold bind at 1. rewrite Hr. eexists (_ :: items), n'. split; [reflexivity|].
    rewrite !fmap_cons. by f_equal.
Qed.

Lemma workPage_run cursor limit n :
  ∃ items next n', workPage lower workspace q change cursor limit env n db = mkOut (Ok (items, next)) db n' ∧
    (csvRecord <$> items, next) = cutPage (hd "") limit (take (limit + 1) (record <$> matching cursor)).
Proof.
  unfold workPage. unfold bind at 1. rewrite run_query by done. simpl.
  edestruct scan_run as (items & n' & Hr & He). unfold bind at 1. rewrite Hr. clear Hr.
  do 3 eexists. split; [unfold ret; f_equal; f_equal; apply surjective_pairing|].
  rewrite <-(cutPage_fmap csvRecord WorkID (hd "")) by done. rewrite He, fmap_take, <-list_fmap_compose.
  done.
Qed.

Lemma exportPages_run fuel items next written rest n :
  match next with
  | None => rest = []
  | Some k => matching k = rest ∧ (length rest ≤ fuel)%nat
  end → (next = None ∨ rest ≠ []) →
  ∃ n', exportPages lower fuel workspace q change items next written env n db =
    mkOut (Ok (written ++ (csvRecord <$> items) ++ (record <$> rest), "complete")) db n'.
Proof.
  revert items next written rest n.
  induction fuel as [|fuel IH]; intros items next written rest n Hn Hr.
  - destruct next as [k|]; [|subst; eexists; simpl; by rewrite app_nil_r].
    destruct Hn as [_ Hl], Hr as [?|Hr]; [done|]. destruct rest; [done|simpl in Hl; lia].
  - destruct next as [k|]; [|subst; eexists; simpl; by rewrite app_nil_r].
    destruct Hn as [Hk Hl]. simpl.
    destruct (workPage_run k 500 n) as (items' & next' & n1 & Hp & Hcut).
    destruct (page_spec (workFilter lower workspace q change db) (t_findings db) (hd "") record 500 k)
      as (l1 & l2 & Hs & Hpg & Hrest); [lia|by intros []|]. fold matching in Hs, Hpg, Hrest.
    rewrite Hpg in Hcut. injection Hcut as Hi Hnext.
    unfold handle. rewrite Hp. rewrite Hk in Hs.
    destruct (IH items' next' (written ++ (csvRecord <$> items)) l2 n1) as [n2 HIH].
    { subst next'. destruct l2 as [|r l2]; [done|]. destruct Hrest as [Hlen Hk2]; [done|].
      destruct (last l1) as [x|] eqn:El; simpl.
      - split; [by apply Hk2|]. rewrite Hs, length_app in Hl. simpl in Hl. lia.
      - apply last_None in El. subst l1. simpl in Hlen. lia. }
    { destruct l2; [by left|by right]. }
    exists n2. rewrite HIH, Hs, fmap_app, Hi. by rewrite <-!app_assoc.
Qed.
End export.

(** The findings an export with this filter is about, in id order. *)
Definition exported (lower : string → string) (workspace q change : string) (db : DB) : list (string * FindingRow) :=
  rowsAfter (workFilter lower workspace q change db) (t_findings db) "".

(** C38: an export that meets no failure and no concurrent change ends with the status "complete" and has written the header and then, in id order, exactly one record for every finding of the workspace that is visible work and matches the filter (the selected findings are exactly those rows of the table), however many pages that takes. *)
Theorem exportWork_complete lower env fuel query workspace session db n q change :
  faultless env →
  queryGet query "format" = "csv" → q_malformed query = false → q_values query !! "viewId" = None →
  queryText query = Ok q → workChangeMode query = Ok change →
  (length (exported lower workspace q change db) ≤ fuel)%nat →
  (∀ i f, t_findings db !! i = Some f → i ≠ "") →
  (∃ n', exportWork lower fuel query workspace session env n db =
    mkOut (Ok (csvHeader :: ((λ r, csvRecord (workRow db r)) <$> exported lower workspace q change db),
               "complete")) db n') ∧
  NoDup (exported lower workspace q change db) ∧
  ∀ i f, (i, f) ∈ exported lower workspace q change db ↔
    t_findings db !! i = Some f ∧ workFilter lower workspace q change db i f = true.
Proof.
  intros Hok Hf Hm Hv Hq Hc Hfuel Hne. split; [|split; [apply rowsAfter_NoDup|]].
  - unfold exportWork, guard. rewrite Hf, bool_decide_true by done. unfold bind at 1, ret at 1.
    unfold workQuery, guard. rewrite Hm, Hv, Hq. simpl. unfold bind at 1 2, ret at 1, fromRes at 1, ret at 1.
    rewrite Hc. unfold bind at 1, fromRes, ret at 1.
    destruct (workPage_run lower env Hok workspace q change db "" 500 n) as (items & next & n1 & Hp & Hcut).
    destruct (page_spec (workFilter lower workspace q change db) (t_findings db) (hd "")
      (λ r, csvRecord (workRow db r)) 500 "") as (l1 & l2 & Hs & Hpg & Hrest); [lia|by intros []|].
    rewrite Hpg in Hcut. injection Hcut as Hi Hnext.
    unfold bind at 1. rewrite Hp. simpl fst. simpl snd. unfold exported in *. rewrite Hs in *.
    destruct (exportPages_run lower env Hok workspace q change db fuel items next [csvHeader] l2 n1)
      as [n2 Hrun].
    { subst next. destruct l2 as [|r l2]; [done|]. destruct Hrest as [Hlen Hk2]; [done|].
      destruct (last l1) as [x|] eqn:El; simpl.
      - split; [by apply Hk2|]. rewrite length_app in Hfuel. simpl in Hfuel. lia.
      - apply last_None in El. subst l1. simpl in Hlen. lia. }
    { destruct l2; [left; by subst|by right]. }
    exists n2. rewrite Hrun, Hi, fmap_app. done.
  - intros i f. unfold exported. rewrite elem_of_rowsAfter. split; [tauto|]. intros [Hi Hw].
    split_and!; [done..|]. unfold strLt. apply andb_true_iff. split; [by destruct i|]. breflect.
    intros <-. by apply (Hne "" f).
Qed.

(** A cell never starts a spreadsheet formula: it begins with neither a tab
    nor a carriage return, and its first byte after blanks is no operator. *)
Lemma csvText_inert text :
  match bytes (csvText text) with b :: _ => b ≠ 9%N ∧ b ≠ 13%N | [] => True end ∧
  match trimCells (bytes (csvText text)) with b :: _ => formulaByte b = false | [] => True end.
Proof.
  unfold csvText. destruct (_ || _) eqn:E.
  - rewrite bytes_app. by vm_compute.
  - apply orb_false_iff in E as [E1 E2]. split.
    + destruct (bytes text) as [|b l]; [done|]. apply orb_false_iff in E1 as [?%N.eqb_neq ?%N.eqb_neq]. done.
    + destruct (trimCells (bytes text)); done.
Qed.

(** ** Witness *)

Definition exampleFinding (asset : string) : FindingRow :=
  {| f_scope := {| k_workspace_id := "ws"; k_asset_id := asset; k_source_id := "scanner";
       k_scope := {| ScopeID := "repo"; ScopeRevision := "abc"; ScopeBranch := "main" |} |};
     f_identity_key := "k"; f_first_observed_at := 0;
     f_projection := {| p_title := "=cmd"; p_description := ""; p_remediation := ""; p_severity := "high";
       p_evidence_text := ""; p_source_label := ""; p_source_scan_at := None; p_collected_at := 0;
       p_imported_at := 0; p_source_state := "observed"; p_content_digest := "" |};
     f_candidate_uri := ""; f_candidate_line := 0;
     f_change := {| c_kind := "new"; c_at := None; c_run_id := ""; c_revision := 1 |};
     f_source_freshness_at := None;
     f_decision := {| d_owner_id := None; d_workflow_state := "open"; d_disposition := "none";
       d_accepted_risk_expires_at := None; d_decision_revision := 1 |};
     f_evidence_revision := 1 |}.
Definition workDB : DB :=
  with_assets {["a" := {| a_workspace_id := "ws"; a_name := "api"; a_kind := "repo"; a_environment := "";
      a_criticality := "medium"; a_tags := []; a_owner_id := None; a_created_at := 0 |}]}
    (with_findings {["f1" := exampleFinding "a"; "f2" := exampleFinding "a"; "f3" := exampleFinding "gone"]}
      emptyDB).
Definition csvQuery : urlQuery :=
  {| q_malformed := false; q_keys := ["format"]; q_values := {["format" := ["csv"]]} |}.

Lemma exportWork_complete_witness :
  ∃ n', exportWork (λ s, s) 5 csvQuery "ws" viewSession calm 0%nat workDB =
    mkOut (Ok (csvHeader :: ((λ r, csvRecord (workRow workDB r)) <$> exported (λ s, s) "ws" "" "all" workDB),
               "complete")) workDB n' ∧
    length (exported (λ s, s) "ws" "" "all" workDB) = 2%nat.
Proof.
  destruct (exportWork_complete (λ s, s) calm 5 csvQuery "ws" viewSession workDB 0%nat "" "all") as [[n' H] _];
    [exact calm_faultless | reflexivity.. | vm_compute; repeat constructor | |].
  - intros i f Hi ->. vm_compute in Hi. discriminate Hi.
  - exists n'. split; [exact H|]. vm_compute. reflexivity.
Defined.
