(* ===== verification/Decisions.v ===== *)
(** * internal/app: decisions people make about findings

    finding_decisions.go, finding_dispositions.go and the writing handlers of
    findings.go: patching one finding or many, disposition approvals, notes,
    and the event written with every patch. *)
From S2P Require Import Prelude GoLib Encoding Tx ReportAdapter Schema Auth Paging Assets WorkViews Work.
Local Open Scope Z_scope.

Definition maxBulkFindings : Z := 100.
Definition decisionPageSize : nat := 100.
Definition maxJSONSafeInt : Z := 9007199254740991.

Record findingDecisionPatch := {
  patchOwnerID : optional string; patchWorkflowState : optional string;
  patchDisposition : optional string; patchAcceptedRiskExpiresAt : optional Z;
  patchDispositionScope : optional string; patchSuppressionExpiresAt : optional Z;
  patchRationale : string; ExpectedRevision : option Z; RejectNoChange : bool }.

Record storedFindingDecision := {
  sdDecision : FindingDecision; sdFindingID : string; sdScope : ScopeKey; sdRevision : Z }.

Definition validWorkflowState (v : string) : bool :=
  (v ==? "open") || (v ==? "in-progress") || (v ==? "pending-retest") || (v ==? "resolved").
Definition validDisposition (v : string) : bool :=
  (v ==? "none") || (v ==? "accepted-risk") || (v ==? "suppressed") || (v ==? "false-positive").
Definition validDispositionScope (v : string) : bool :=
  (v ==? "finding") || (v ==? "asset") || (v ==? "source") || (v ==? "scope").

Definition decisionChanges (before after : FindingDecision) : list string :=
  (if OwnerID before ==? OwnerID after then [] else ["ownerId"]) ++
  (if WorkflowState before ==? WorkflowState after then [] else ["workflowState"]) ++
  (if Disposition before ==? Disposition after then [] else ["disposition"]) ++
  (if AcceptedRiskExpiresAt before ==? AcceptedRiskExpiresAt after then [] else ["acceptedRiskExpiresAt"]) ++
  (if DispositionScope before ==? DispositionScope after then [] else ["dispositionScope"]) ++
  (if SuppressionExpiresAt before ==? SuppressionExpiresAt after then [] else ["suppressionExpiresAt"]) ++
  (if DispositionRationale before ==? DispositionRationale after then [] else ["dispositionRationale"]).

(** ** Approvals *)

(** The approval the current disposition rests on:
    [... ORDER BY decision_revision DESC LIMIT 1]. *)
Definition approvalOf (workspace finding disposition : string) (revision : Z) (a : ApprovalRow) : bool :=
  (ap_workspace_id a ==? workspace) && (ap_finding_id a ==? finding) &&
  (ap_disposition a ==? disposition) && (ap_decision_revision a <=? revision).
Definition laterApproval (a b : ApprovalRow) : bool := ap_decision_revision b <=? ap_decision_revision a.
Definition currentApproval (workspace finding disposition : string) (revision : Z) (db : DB) : option ApprovalRow :=
  argmin laterApproval (snd <$> rowsWhere (λ _ a, approvalOf workspace finding disposition revision a) (t_approvals db)).

(** The decision columns of a finding joined with that approval. *)
Definition decisionOf (db : DB) (id : string) (f : FindingRow) : FindingDecision :=
  let d := f_decision f in
  let approval := currentApproval (f_workspace_id f) id (d_disposition d) (d_decision_revision d) db in
  {| OwnerID := d_owner_id d; WorkflowState := d_workflow_state d; Disposition := d_disposition d;
     AcceptedRiskExpiresAt := d_accepted_risk_expires_at d;
     DispositionScope := if d_disposition d ==? "none" then "" else default "finding" (ap_scope_kind <$> approval);
     SuppressionExpiresAt := if d_disposition d ==? "suppressed" then a ← approval; ap_expires_at a else None;
     DispositionRationale := default "" (ap_rationale <$> approval) |}.

Definition readDecision (workspace id : string) : M DB storedFindingDecision :=
  query (λ _ db,
    match t_findings db !! id with
    | Some f =>
        if (f_workspace_id f ==? workspace) && workVisible db id f
        then Ok {| sdDecision := decisionOf db id f; sdFindingID := id; sdScope := f_scope f;
                   sdRevision := d_decision_revision (f_decision f) |}
        else Err ErrNoRows
    | None => Err ErrNoRows
    end).

Definition dispositionScopeValue (decision : storedFindingDecision) : option string :=
  let k := sdScope decision in
  let scope := DispositionScope (sdDecision decision) in
  if scope ==? "finding" then Some (sdFindingID decision)
  else if scope ==? "asset" then Some (k_asset_id k)
  else if scope ==? "source" then Some (k_source_id k)
  else if scope ==? "scope" then
    let value := ScopeID (k_scope k) +:+ " / " +:+ ScopeBranch (k_scope k) +:+
                 " (revision " +:+ ScopeRevision (k_scope k) +:+ ")" in
    if value ==? " /  (revision )" then None else Some value
  else None.

(** The CHECK of finding_disposition_approvals. *)
Definition approvalSemantics (a : ApprovalRow) : bool :=
  (ap_disposition a ==? "accepted-risk") && (ap_scope_kind a ==? "finding") ||
  (ap_disposition a ==? "suppressed") && isSome (ap_expires_at a) ||
  (ap_disposition a ==? "false-positive") && (ap_scope_kind a ==? "finding") && negb (isSome (ap_expires_at a)).

Definition insertApproval (id : string) (a : ApprovalRow) : M DB unit :=
  insertInto t_approvals with_approvals
    (λ db, if negb ((1 <? ap_decision_revision a) && validDispositionScope (ap_scope_kind a) &&
                    (1 <=? len (ap_scope_value a)) && (len (ap_scope_value a) <=? 4096) &&
                    (1 <=? len (ap_rationale a)) && (len (ap_rationale a) <=? 8192) &&
                    approvalSemantics a && isSome (t_users db !! ap_actor_id a) &&
                    match t_findings db !! ap_finding_id a with
                    | Some f => f_workspace_id f ==? ap_workspace_id a | None => false end)
           then Some ErrConstraint
           else if anyRow (λ _ b, (ap_workspace_id b ==? ap_workspace_id a) && (ap_finding_id b ==? ap_finding_id a) &&
                     (ap_decision_revision b =? ap_decision_revision a)) (t_approvals db)
           then Some ErrUnique else None)
    id a.

(** The expiry an approval of this decision carries; [Err] where the decision
    does not make an approval. *)
Definition approvalExpiry (t : Z) (d : FindingDecision) : Res (option Z) :=
  if Disposition d ==? "accepted-risk" then
    if (DispositionScope d !=? "finding") || isSome (SuppressionExpiresAt d) then Err errInvalid
    else Ok (AcceptedRiskExpiresAt d)
  else if Disposition d ==? "suppressed" then
    match AcceptedRiskExpiresAt d, SuppressionExpiresAt d with
    | None, Some e => if IsZero e || negb (t <? e) then Err errInvalid else Ok (Some e)
    | _, _ => Err errInvalid
    end
  else if Disposition d ==? "false-positive" then
    if (DispositionScope d !=? "finding") || isSome (AcceptedRiskExpiresAt d) || isSome (SuppressionExpiresAt d)
    then Err errInvalid else Ok None
  else Err errInvalid.

Definition insertDispositionApproval (workspace actor : string) (decision : storedFindingDecision)
    (fallbackRationale : string) : M DB unit :=
  let d := sdDecision decision in
  if Disposition d ==? "none" then ret tt else
  let rationale := if DispositionRationale d ==? "" then fallbackRationale else DispositionRationale d in
  guard (validText rationale 8192 && validDispositionScope (DispositionScope d)) errInvalid ;;;
  match dispositionScopeValue decision with
  | None => throw errInvalid
  | Some scopeValue =>
      guard (negb (containsNUL scopeValue) && (len scopeValue <=? 4096)) errInvalid ;;;
      t <- now ;;
      expires <- fromRes (approvalExpiry t d) ;;
      id <- newID ;;
      at_ <- now ;;
      insertApproval id {| ap_workspace_id := workspace; ap_finding_id := sdFindingID decision;
        ap_decision_revision := sdRevision decision; ap_actor_id := actor;
        ap_disposition := Disposition d; ap_scope_kind := DispositionScope d;
        ap_scope_value := scopeValue; ap_rationale := rationale; ap_expires_at := expires;
        ap_created_at := at_ |}
  end.

(** ** Applying a patch *)

(** The decision with the patch's fields, before dispositions are made
    consistent: [Err] where a field is [null] that may not be. *)
Definition patchFields (p : findingDecisionPatch) (before : FindingDecision) : Res FindingDecision :=
  match patchField (patchWorkflowState p) (WorkflowState before) with
  | Err e => Err e
  | Ok workflow =>
    if negb (validWorkflowState workflow) then Err errInvalid else
    match patchField (patchDisposition p) (Disposition before) with
    | Err e => Err e
    | Ok disposition =>
      match patchField (patchDispositionScope p) (DispositionScope before) with
      | Err e => Err e
      | Ok scope =>
          Ok {| OwnerID := if IsSet (patchOwnerID p) then Value (patchOwnerID p) else OwnerID before;
                WorkflowState := workflow; Disposition := disposition;
                AcceptedRiskExpiresAt := if IsSet (patchAcceptedRiskExpiresAt p)
                  then Value (patchAcceptedRiskExpiresAt p) else AcceptedRiskExpiresAt before;
                DispositionScope := scope;
                SuppressionExpiresAt := if IsSet (patchSuppressionExpiresAt p)
                  then Value (patchSuppressionExpiresAt p) else SuppressionExpiresAt before;
                DispositionRationale := DispositionRationale before |}
      end
    end
  end.

Definition withDisposition (d : FindingDecision) (risk suppression : option Z) (scope rationale : string) : FindingDecision :=
  {| OwnerID := OwnerID d; WorkflowState := WorkflowState d; Disposition := Disposition d;
     AcceptedRiskExpiresAt := risk; DispositionScope := scope; SuppressionExpiresAt := suppression;
     DispositionRationale := rationale |}.

(** What a change of disposition resets. *)
Definition resetDisposition (scopeSet : bool) (d : FindingDecision) : Res FindingDecision :=
  let scope := if scopeSet then DispositionScope d else "finding" in
  if Disposition d ==? "none" then Ok (withDisposition d None None "" "")
  else if Disposition d ==? "accepted-risk" then
    Ok (withDisposition d (AcceptedRiskExpiresAt d) None scope (DispositionRationale d))
  else if Disposition d ==? "suppressed" then
    if scopeSet then Ok (withDisposition d None (SuppressionExpiresAt d) (DispositionScope d) (DispositionRationale d))
    else Err errInvalid
  else if Disposition d ==? "false-positive" then Ok (withDisposition d None None scope (DispositionRationale d))
  else Ok d.

Definition dispositionTouched (p : findingDecisionPatch) : bool :=
  IsSet (patchDisposition p) || IsSet (patchAcceptedRiskExpiresAt p) ||
  IsSet (patchDispositionScope p) || IsSet (patchSuppressionExpiresAt p).

(** The rationale a patch must carry and where it goes. *)
Definition applyRationale (p : findingDecisionPatch) (d : FindingDecision) : Res FindingDecision :=
  if dispositionTouched p then
    if negb (validText (patchRationale p) 8192) then Err errInvalid
    else if Disposition d ==? "none" then Ok (withDisposition d None None "" "")
    else Ok (withDisposition d (AcceptedRiskExpiresAt d) (SuppressionExpiresAt d) (DispositionScope d) (patchRationale p))
  else if (patchRationale p !=? "") && negb (validText (patchRationale p) 8192) then Err errInvalid
  else Ok d.

(** The final switch: the fields a disposition may carry at time [t]. *)
Definition consistentDecision (t : Z) (d : FindingDecision) : bool :=
  if Disposition d ==? "none" then
    negb (isSome (AcceptedRiskExpiresAt d)) && negb (isSome (SuppressionExpiresAt d)) &&
    (DispositionScope d ==? "") && (DispositionRationale d ==? "")
  else if Disposition d ==? "accepted-risk" then
    (DispositionScope d ==? "finding") && negb (isSome (SuppressionExpiresAt d)) &&
    negb (match AcceptedRiskExpiresAt d with Some e => IsZero e | None => false end)
  else if Disposition d ==? "suppressed" then
    validDispositionScope (DispositionScope d) && negb (isSome (AcceptedRiskExpiresAt d)) &&
    match SuppressionExpiresAt d with Some e => negb (IsZero e) && (t <? e) | None => false end
  else if Disposition d ==? "false-positive" then
    (DispositionScope d ==? "finding") && negb (isSome (AcceptedRiskExpiresAt d)) &&
    negb (isSome (SuppressionExpiresAt d))
  else true.

Definition nextDecision (t : Z) (p : findingDecisionPatch) (before : FindingDecision) : Res FindingDecision :=
  match patchFields p before with
  | Err e => Err e
  | Ok d =>
    match (if Disposition d ==? Disposition before then Ok d
           else resetDisposition (IsSet (patchDispositionScope p)) d) with
    | Err e => Err e
    | Ok d =>
        if negb (validDisposition (Disposition d)) then Err errInvalid else
        match applyRationale p d with
        | Err e => Err e
        | Ok d => if consistentDecision t d then Ok d else Err errInvalid
        end
    end
  end.

(** json.Marshal of a decision fails on a year that RFC 3339 cannot carry. *)
Definition marshalableTime (t : option Z) : bool :=
  match t with Some t => isSome (formatTime t) | None => true end.
Definition marshalable (d : FindingDecision) : bool :=
  marshalableTime (AcceptedRiskExpiresAt d) && marshalableTime (SuppressionExpiresAt d).

Definition decisionCols (d : FindingDecision) (revision : Z) : DecisionCols :=
  {| d_owner_id := OwnerID d; d_workflow_state := WorkflowState d; d_disposition := Disposition d;
     d_accepted_risk_expires_at := AcceptedRiskExpiresAt d; d_decision_revision := revision |}.
Definition setDecision (f : FindingRow) (d : DecisionCols) : FindingRow :=
  {| f_scope := f_scope f; f_identity_key := f_identity_key f; f_first_observed_at := f_first_observed_at f;
     f_projection := f_projection f; f_candidate_uri := f_candidate_uri f; f_candidate_line := f_candidate_line f;
     f_change := f_change f; f_source_freshness_at := f_source_freshness_at f; f_decision := d;
     f_evidence_revision := f_evidence_revision f |}.

(** [UPDATE findings SET owner_id=...,decision_revision=$7 WHERE ...]. *)
Definition updateDecision (workspace id : string) (d : FindingDecision) (revision : Z) : M DB unit :=
  stmt (λ _ db,
    match t_findings db !! id with
    | Some f =>
        if f_workspace_id f ==? workspace then
          if ownerMember workspace (OwnerID d) db
          then Ok (tt, with_findings (<[id := setDecision f (decisionCols d revision)]> (t_findings db)) db)
          else Err ErrConstraint
        else Ok (tt, db)
    | None => Ok (tt, db)
    end).

Definition insertDecisionEvent (id : string) (e : DecisionEventRow) : M DB unit :=
  insertInto t_decisionEvents with_decisionEvents
    (λ db, if negb ((1 <? ev_decision_revision e) && (len (ev_rationale e) <=? 8192) &&
                    isSome (t_users db !! ev_actor_id e) &&
                    match t_findings db !! ev_finding_id e with
                    | Some f => f_workspace_id f ==? ev_workspace_id e | None => false end)
           then Some ErrConstraint
           else if anyRow (λ _ b, (ev_workspace_id b ==? ev_workspace_id e) && (ev_finding_id b ==? ev_finding_id e) &&
                     (ev_decision_revision b =? ev_decision_revision e)) (t_decisionEvents db)
           then Some ErrUnique else None)
    id e.

Definition patchedOwner (p : findingDecisionPatch) (before : FindingDecision) : option string :=
  if IsSet (patchOwnerID p) then Value (patchOwnerID p) else OwnerID before.

Definition applyFindingDecisionPatch (workspace id actor action : string) (p : findingDecisionPatch)
    : M DB storedFindingDecision :=
  before <- readDecision workspace id ;;
  guard (match ExpectedRevision p with Some e => sdRevision before =? e | None => true end) errConflict ;;;
  checkOwner workspace (patchedOwner p (sdDecision before)) ;;;
  t <- now ;;
  d <- fromRes (nextDecision t p (sdDecision before)) ;;
  let changes := decisionChanges (sdDecision before) d in
  guard (negb (RejectNoChange p && (changes ==? []))) errConflict ;;;
  let after := {| sdDecision := d; sdFindingID := sdFindingID before; sdScope := sdScope before;
                  sdRevision := sdRevision before + 1 |} in
  (if dispositionTouched p && (Disposition d !=? "none")
   then insertDispositionApproval workspace actor after (patchRationale p) else ret tt) ;;;
  updateDecision workspace id d (sdRevision after) ;;;
  guard (marshalable (sdDecision before) && marshalable d) ErrDecode ;;;
  eid <- newID ;;
  at_ <- now ;;
  insertDecisionEvent eid {| ev_workspace_id := workspace; ev_finding_id := id;
    ev_decision_revision := sdRevision after; ev_actor_id := actor; ev_action := action;
    ev_rationale := patchRationale p; ev_changed_fields := changes;
    ev_before := sdDecision before; ev_after := d; ev_created_at := at_;
    ev_detail := freshDetail |} ;;;
  ret after.

(** ** Handlers *)

(** findings.go: the patch of one finding, up to the response it then reads. *)
Definition patchFinding (workspace actor id : string) (p : findingDecisionPatch) : M DB storedFindingDecision :=
  transaction (applyFindingDecisionPatch workspace id actor "update"
    {| patchOwnerID := patchOwnerID p; patchWorkflowState := patchWorkflowState p;
       patchDisposition := patchDisposition p; patchAcceptedRiskExpiresAt := patchAcceptedRiskExpiresAt p;
       patchDispositionScope := patchDispositionScope p; patchSuppressionExpiresAt := patchSuppressionExpiresAt p;
       patchRationale := patchRationale p; ExpectedRevision := None; RejectNoChange := false |}).

Definition bumpRevision (f : FindingRow) : FindingRow :=
  let d := f_decision f in
  setDecision f {| d_owner_id := d_owner_id d; d_workflow_state := d_workflow_state d;
    d_disposition := d_disposition d; d_accepted_risk_expires_at := d_accepted_risk_expires_at d;
    d_decision_revision := d_decision_revision d + 1 |}.

Definition inWorkspace (workspace id : string) (db : DB) : bool :=
  match t_findings db !! id with Some f => f_workspace_id f ==? workspace | None => false end.

Definition addNote (workspace author id text : string) : M DB string :=
  guard (validText text 8192) errInvalid ;;;
  nid <- newID ;;
  transaction (
    query (λ _ db,
      match t_findings db !! id with
      | Some f => if (f_workspace_id f ==? workspace) && workVisible db id f then Ok tt else Err ErrNoRows
      | None => Err ErrNoRows
      end) ;;;
    at_ <- now ;;
    affected <- stmt (λ _ db,
      if inWorkspace workspace id db then
        if isSome (t_memberships db !! (workspace, author)) then
          match insertRow nid {| n_workspace_id := workspace; n_finding_id := id; n_author_id := author;
                                 n_text := text; n_created_at := at_ |} (t_notes db) with
          | Ok notes => Ok (1, with_notes notes db)
          | Err e => Err e
          end
        else Err ErrConstraint
      else Ok (0, db)) ;;
    guard (negb (affected =? 0)) errNotFound ;;;
    exec (λ _ db, (tt, with_findings (updateRows
      (λ i f, (i ==? id) && (f_workspace_id f ==? workspace)) bumpRevision (t_findings db)) db)) ;;;
    ret nid).

Record bulkInput := {
  FindingIDs : list string; bulkOwnerID : optional string; bulkWorkflowState : optional string;
  DecisionRevisions : option (gmap string string); bulkDisposition : optional string;
  bulkAcceptedRiskExpiresAt : optional Z; bulkRationale : string }.

Definition riskMode (i : bulkInput) : bool :=
  IsSet (bulkDisposition i) || IsSet (bulkAcceptedRiskExpiresAt i) || isSome (DecisionRevisions i).

Definition validBulk (i : bulkInput) : bool :=
  negb ((Z.of_nat (length (FindingIDs i)) =? 0) || (maxBulkFindings <? Z.of_nat (length (FindingIDs i))) ||
        negb (validText (bulkRationale i) 8192) ||
        riskMode i && (IsSet (bulkOwnerID i) || IsSet (bulkWorkflowState i) ||
          negb (IsSet (bulkDisposition i)) || (Value (bulkDisposition i) !=? Some "accepted-risk") ||
          negb (IsSet (bulkAcceptedRiskExpiresAt i)) || negb (isSome (DecisionRevisions i))) ||
        negb (riskMode i) && negb (IsSet (bulkOwnerID i)) && negb (IsSet (bulkWorkflowState i))).

Definition idLe (a b : string) : Prop := strLe a b = true.
#[export] Instance idLe_dec a b : Decision (idLe a b).
Proof. unfold idLe. apply _. Defined.
Definition sortIDs (ids : list string) : list string := merge_sort idLe ids.
Fixpoint distinctIDs (ids : list string) : bool :=
  match ids with
  | [] => true
  | x :: l => validID x && match l with y :: _ => x !=? y | [] => true end && distinctIDs l
  end.

(** The expected revision of each finding, [None] where the request is
    malformed. *)
Definition expectedRevision (revisions : gmap string string) (id : string) : option Z :=
  match revisions !! id with
  | None => None
  | Some value =>
      match ParseInt value with
      | Some r => if (r <? 1) || (maxJSONSafeInt <? r) then None else Some r
      | None => None
      end
  end.
Definition validRevisions (t : Z) (i : bulkInput) (revisions : gmap string string) (ids : list string) : bool :=
  (Z.of_nat (size revisions) =? Z.of_nat (length ids)) &&
  match Value (bulkAcceptedRiskExpiresAt i) with Some e => t <? e | None => true end &&
  forallb (λ id, isSome (expectedRevision revisions id)) ids &&
  forallb (λ r, bool_decide (r.1 ∈ ids)) (map_to_list revisions).

Definition bulkPatch (i : bulkInput) (id : string) : findingDecisionPatch :=
  if riskMode i then
    {| patchOwnerID := bulkOwnerID i; patchWorkflowState := bulkWorkflowState i;
       patchDisposition := bulkDisposition i; patchAcceptedRiskExpiresAt := bulkAcceptedRiskExpiresAt i;
       patchDispositionScope := field (Some "finding"); patchSuppressionExpiresAt := absentField;
       patchRationale := bulkRationale i;
       ExpectedRevision := Some (default 0 (expectedRevision (default ∅ (DecisionRevisions i)) id));
       RejectNoChange := true |}
  else
    {| patchOwnerID := bulkOwnerID i; patchWorkflowState := bulkWorkflowState i;
       patchDisposition := absentField; patchAcceptedRiskExpiresAt := absentField;
       patchDispositionScope := absentField; patchSuppressionExpiresAt := absentField;
       patchRationale := bulkRationale i; ExpectedRevision := None; RejectNoChange := false |}.

Definition bulkPatchFindings (workspace actor : string) (i : bulkInput) : M DB (list WorkItem) :=
  guard (validBulk i) errInvalid ;;;
  let ids := sortIDs (FindingIDs i) in
  guard (distinctIDs ids) errInvalid ;;;
  t <- now ;;
  guard (if riskMode i then validRevisions t i (default ∅ (DecisionRevisions i)) ids else true) errInvalid ;;;
  transaction (
    mapM (λ id, applyFindingDecisionPatch workspace id actor "bulk-update" (bulkPatch i id)) ids ;;;
    rows <- query (λ _ db, Ok (workRow db <$> rowsById (λ id f, (f_workspace_id f ==? workspace) &&
      bool_decide (id ∈ ids) && workVisible db id f && isSome (assetName db f)) (t_findings db))) ;;
    items <- mapM (λ v, t <- now ;; ret (scanWork t v)) rows ;;
    guard (length items =? length ids)%nat ErrNoRows ;;;
    ret items).

(** ** Decision history *)

Definition decisionCursor (value : string) : Res Z :=
  if value ==? "" then Ok 0
  else if negb (len value =? 20) || negb (forallb isDigit (bytes value)) then Err errInvalid
  else match ParseInt value with
       | Some r => if r <? 0 then Err errInvalid else Ok r
       | None => Err errInvalid
       end.

Definition formatDecisionCursor (revision : Z) : string := formatPadded revision.

Record FindingDecisionEvent := {
  feID : string; feEvent : DecisionEventRow; feActorName : string;
  feBeforeOwnerName : option string; feAfterOwnerName : option string }.

Definition userName (db : DB) (id : option string) : option string :=
  match id with Some u => u_name <$> t_users db !! u | None => None end.

Definition readFindingDecisionEvents (workspace findingID : string) (cursor : Z)
    : M DB (list FindingDecisionEvent * option string) :=
  events <- query (λ _ db, Ok (take (decisionPageSize + 1)
    ((λ r, {| feID := r.1; feEvent := r.2; feActorName := default "" (userName db (Some (ev_actor_id r.2)));
              feBeforeOwnerName := userName db (OwnerID (ev_before r.2));
              feAfterOwnerName := userName db (OwnerID (ev_after r.2)) |}) <$>
     rowsBy ev_decision_revision (λ _ e, (ev_workspace_id e ==? workspace) && (ev_finding_id e ==? findingID) &&
       (cursor <? ev_decision_revision e) && isSome (t_users db !! ev_actor_id e)) (t_decisionEvents db)))) ;;
  if (decisionPageSize <? length events)%nat then
    let kept := take decisionPageSize events in
    ret (kept, (λ e, formatDecisionCursor (ev_decision_revision (feEvent e))) <$> last kept)
  else ret (events, None).

Definition readDispositionApproval (workspace finding disposition : string) (revision : Z)
    : M DB (option (ApprovalRow * bool)) :=
  if disposition ==? "none" then ret None else
  approval <- query (λ _ db, Ok (argmin laterApproval (snd <$> rowsWhere
    (λ _ a, approvalOf workspace finding disposition revision a && isSome (t_users db !! ap_actor_id a))
    (t_approvals db)))) ;;
  match approval with
  | None => ret None
  | Some a =>
      t <- now ;;
      ret (Some (a, match ap_expires_at a with Some e => negb (t <? e) | None => false end))
  end.
