(* ===== verification/DecisionProps.v ===== *)
(** * Properties of finding decisions

    What a patch writes is what the next reader sees; every patch leaves one
    event; approvals and decisions stay consistent under any requests; bulk
    requests are all or nothing. *)
From S2P Require Import Prelude GoLib Encoding Tx ReportAdapter Schema Auth Intake Reconcile ImportWorker Paging Assets WorkViews Work Decisions.
Local Open Scope Z_scope.

(** ** Runs *)

Lemma insertApproval_inv id a env n db x db' n' :
  insertApproval id a env n db = mkOut (Ok x) db' n' →
  approvalSemantics a = true ∧ t_approvals db !! id = None ∧
  db' = with_approvals (<[id := a]> (t_approvals db)) db.
Proof.
  unfold insertApproval. intros (Hc & Hn & ->)%insertInto_inv. split_and!; [|done..].
  destruct (negb _) eqn:E in Hc; [done|]. apply negb_false_iff in E. by repeat
    match goal with H : _ && _ = true |- _ => apply andb_true_iff in H as [? ?] end.
Qed.

(** The approval an accepted decision leaves. *)
Definition approves (workspace actor rationale : string) (sd : storedFindingDecision) (a : ApprovalRow) : Prop :=
  ap_workspace_id a = workspace ∧ ap_finding_id a = sdFindingID sd ∧
  ap_decision_revision a = sdRevision sd ∧ ap_actor_id a = actor ∧
  ap_disposition a = Disposition (sdDecision sd) ∧ ap_scope_kind a = DispositionScope (sdDecision sd) ∧
  ap_rationale a = rationale ∧ rationale ≠ "" ∧
  (Disposition (sdDecision sd) = "suppressed" → ap_expires_at a = SuppressionExpiresAt (sdDecision sd)) ∧
  approvalSemantics a = true.

Lemma insertDispositionApproval_inv workspace actor sd fallback env n db x db' n' :
  insertDispositionApproval workspace actor sd fallback env n db = mkOut (Ok x) db' n' →
  Disposition (sdDecision sd) ≠ "none" →
  ∃ id a, approves workspace actor
      (if DispositionRationale (sdDecision sd) ==? "" then fallback else DispositionRationale (sdDecision sd)) sd a ∧
    t_approvals db !! id = None ∧ db' = with_approvals (<[id := a]> (t_approvals db)) db.
Proof.
  unfold insertDispositionApproval. intros H Hd. rewrite bool_decide_false in H by done. cbv zeta in H.
  apply bind_inv in H as (? & ? & ? & [Hv ->]%guard_inv & H).
  destruct (dispositionScopeValue sd) as [scope|]; [|by apply throw_inv in H].
  apply bind_inv in H as (? & ? & ? & [_ ->]%guard_inv & H).
  apply bind_inv in H as (t & ? & ? & [_ ->]%now_inv & H).
  apply bind_inv in H as (expires & ? & ? & [He ->]%fromRes_inv & H).
  apply bind_inv in H as (id & ? & ? & [_ ->]%newID_inv & H).
  apply bind_inv in H as (at_ & ? & ? & [_ ->]%now_inv & H).
  apply insertApproval_inv in H as (Hs & Hn & ->). eexists id, _. split; [|by split].
  unfold approves. simpl. split_and!; try done.
  - apply andb_true_iff in Hv as [Hv _]. intros E. rewrite E in Hv. by vm_compute in Hv.
  - intros Hsup. unfold approvalExpiry in He. rewrite Hsup in He. simpl in He.
    destruct (AcceptedRiskExpiresAt _); [done|]. destruct (SuppressionExpiresAt _) as [e|]; [|done].
    destruct (_ || _); [done|]. by injection He as <-.
Qed.

Lemma checkOwner_inv ws o env n db x db' n' :
  checkOwner ws o env n db = mkOut (Ok x) db' n' → db' = db.
Proof. unfold checkOwner. destruct o; intros H; [|by apply ret_inv in H as [_ ->]]. run_inv. done. Qed.

(** The tables after an accepted patch. *)
Definition patched (workspace id actor action : string) (p : findingDecisionPatch) (f : FindingRow)
    (d : FindingDecision) (db db' : DB) : Prop :=
  let before := decisionOf db id f in
  let revision := d_decision_revision (f_decision f) + 1 in
  ∃ approvals eid at_,
    (if dispositionTouched p && (Disposition d !=? "none")
     then ∃ aid a, approves workspace actor (if DispositionRationale d ==? "" then patchRationale p else DispositionRationale d)
            {| sdDecision := d; sdFindingID := id; sdScope := f_scope f; sdRevision := revision |} a ∧
          t_approvals db !! aid = None ∧ approvals = <[aid := a]> (t_approvals db)
     else approvals = t_approvals db) ∧
    t_decisionEvents db !! eid = None ∧
    db' = with_decisionEvents (<[eid := {| ev_workspace_id := workspace; ev_finding_id := id;
              ev_decision_revision := revision; ev_actor_id := actor; ev_action := action;
              ev_rationale := patchRationale p; ev_changed_fields := decisionChanges before d;
              ev_before := before; ev_after := d; ev_created_at := at_; ev_detail := freshDetail |}]> (t_decisionEvents db))
          (with_findings (<[id := setDecision f (decisionCols d revision)]> (t_findings db))
          (with_approvals approvals db)).

Lemma applyPatch_inv workspace id actor action p env n db sd db' n' :
  applyFindingDecisionPatch workspace id actor action p env n db = mkOut (Ok sd) db' n' →
  ∃ f t d, t_findings db !! id = Some f ∧ f_workspace_id f = workspace ∧ workVisible db id f = true ∧
    (∀ e, ExpectedRevision p = Some e → d_decision_revision (f_decision f) = e) ∧
    nextDecision t p (decisionOf db id f) = Ok d ∧
    (RejectNoChange p = true → decisionChanges (decisionOf db id f) d ≠ []) ∧
    sd = {| sdDecision := d; sdFindingID := id; sdScope := f_scope f;
            sdRevision := d_decision_revision (f_decision f) + 1 |} ∧
    patched workspace id actor action p f d db db'.
Proof.
  unfold applyFindingDecisionPatch, readDecision.
  intros (before & ? & ? & [Hr ->]%query_inv & H)%bind_inv.
  destruct (t_findings db !! id) as [f|] eqn:Ef; [|done]. destruct (_ && _) eqn:Ev in Hr; [|done].
  injection Hr as <-. apply andb_true_iff in Ev as [Ew Ev]. breflect_in Ew. simpl in H.
  apply bind_inv in H as (? & ? & ? & [Hx ->]%guard_inv & H).
  apply bind_inv in H as (? & ? & ? & ->%checkOwner_inv & H).
  apply bind_inv in H as (t & ? & ? & [_ ->]%now_inv & H).
  apply bind_inv in H as (d & ? & ? & [Hd ->]%fromRes_inv & H).
  apply bind_inv in H as (? & ? & ? & [Hc ->]%guard_inv & H).
  apply bind_inv in H as (? & db1 & ? & Ha & H).
  apply bind_inv in H as (? & ? & ? & Hu%stmt_inv & H).
  apply bind_inv in H as (? & ? & ? & [_ ->]%guard_inv & H).
  apply bind_inv in H as (eid & ? & ? & [_ ->]%newID_inv & H).
  apply bind_inv in H as (at_ & ? & ? & [_ ->]%now_inv & H).
  apply bind_inv in H as (? & ? & ? & (_ & He & ->)%insertInto_inv & H).
  apply ret_inv in H as [<- ->].
  assert (∃ approvals, db1 = with_approvals approvals db ∧
    if dispositionTouched p && (Disposition d !=? "none")
    then ∃ aid a, approves workspace actor (if DispositionRationale d ==? "" then patchRationale p else DispositionRationale d)
            {| sdDecision := d; sdFindingID := id; sdScope := f_scope f;
               sdRevision := d_decision_revision (f_decision f) + 1 |} a ∧
          t_approvals db !! aid = None ∧ approvals = <[aid := a]> (t_approvals db)
    else approvals = t_approvals db) as (approvals & -> & Hap).
  { destruct (dispositionTouched p && _) eqn:Et.
    - apply andb_true_iff in Et as [_ Et]. breflect_in Et.
      apply insertDispositionApproval_inv in Ha as (aid & a & ? & ? & ->); [|done]. eauto 10.
    - apply ret_inv in Ha as [_ ->]. exists (t_approvals db). split; [by destruct db|done]. }
  simpl in Hu. rewrite Ef, bool_decide_true in Hu by done. destruct (ownerMember _ _ _); [|done].
  injection Hu as _ <-. eexists f, _, d. split_and!; try done.
  - intros e Ee. rewrite Ee in Hx. by apply Z.eqb_eq.
  - intros Hrej Hnil. rewrite Hrej, Hnil in Hc. done.
  - unfold patched. eexists approvals, _, _. by split_and!.
Qed.

(** ** The decision a patch computes *)

Lemma withDisposition_same d :
  withDisposition d (AcceptedRiskExpiresAt d) (SuppressionExpiresAt d) (DispositionScope d) (DispositionRationale d) = d.
Proof. by destruct d. Qed.

Lemma patchFields_ok p before d :
  patchFields p before = Ok d →
  validWorkflowState (WorkflowState d) = true ∧
  DispositionRationale d = DispositionRationale before ∧
  (dispositionTouched p = false →
   Disposition d = Disposition before ∧ DispositionScope d = DispositionScope before ∧
   AcceptedRiskExpiresAt d = AcceptedRiskExpiresAt before ∧ SuppressionExpiresAt d = SuppressionExpiresAt before).
Proof.
  unfold patchFields, patchField, dispositionTouched. intros H.
  destruct (IsSet (patchWorkflowState p)), (Value (patchWorkflowState p)); try done;
  (destruct (validWorkflowState _) eqn:Ew; [simpl in H|done]);
  destruct (IsSet (patchDisposition p)), (Value (patchDisposition p)); try done;
  destruct (IsSet (patchDispositionScope p)), (Value (patchDispositionScope p)); try done;
  injection H as <-; simpl; split_and!; try done;
  destruct (IsSet (patchAcceptedRiskExpiresAt p)), (IsSet (patchSuppressionExpiresAt p)); done.
Qed.

Lemma resetDisposition_ok b d d' :
  resetDisposition b d = Ok d' →
  Disposition d' = Disposition d ∧ WorkflowState d' = WorkflowState d.
Proof.
  unfold resetDisposition. intros H.
  repeat match type of H with context [bool_decide ?c] => destruct (bool_decide c) end;
    destruct b; by simplify_eq/=.
Qed.

Lemma applyRationale_ok p d d' :
  applyRationale p d = Ok d' →
  Disposition d' = Disposition d ∧ WorkflowState d' = WorkflowState d ∧
  (dispositionTouched p = false → d' = d) ∧
  (dispositionTouched p = true → Disposition d ≠ "none" →
   DispositionRationale d' = patchRationale p ∧ patchRationale p ≠ "").
Proof.
  unfold applyRationale. destruct (dispositionTouched p).
  - destruct (validText (patchRationale p) 8192) eqn:Ev; [|done]. simpl.
    assert (patchRationale p ≠ "") by (intros E; rewrite E in Ev; by vm_compute in Ev).
    destruct (_ ==? _) eqn:En; intros [= <-]; simpl; split_and!; try done.
    intros _ Hn. by breflect_in En.
  - destruct (_ && _); [done|]. by intros [= <-].
Qed.

Lemma nextDecision_ok t p before d :
  nextDecision t p before = Ok d →
  validDisposition (Disposition d) = true ∧ validWorkflowState (WorkflowState d) = true ∧
  consistentDecision t d = true ∧
  (dispositionTouched p = false →
   Disposition d = Disposition before ∧ DispositionScope d = DispositionScope before ∧
   AcceptedRiskExpiresAt d = AcceptedRiskExpiresAt before ∧
   SuppressionExpiresAt d = SuppressionExpiresAt before ∧
   DispositionRationale d = DispositionRationale before) ∧
  (dispositionTouched p = true → Disposition d ≠ "none" →
   DispositionRationale d = patchRationale p ∧ patchRationale p ≠ "").
Proof.
  unfold nextDecision. intros H. destruct (patchFields p before) as [d1|] eqn:E1; [|done].
  apply patchFields_ok in E1 as (Hw & Hr & Hu).
  destruct (if Disposition d1 ==? Disposition before then Ok d1 else _) as [d2|] eqn:E2; [|done].
  destruct (validDisposition (Disposition d2)) eqn:Ev; [simpl in H|done].
  destruct (applyRationale p d2) as [d3|] eqn:E3; [|done].
  destruct (consistentDecision t d3) eqn:Ec; [|done]. injection H as <-.
  apply applyRationale_ok in E3 as (Hd & Hw3 & Hsame & Hrat).
  assert (Disposition d2 = Disposition d1 ∧ WorkflowState d2 = WorkflowState d1) as [Hd2 Hw2].
  { destruct (_ ==? _) in E2; [by simplify_eq|by apply resetDisposition_ok in E2]. }
  rewrite Hd, Hw3, Hw2. split_and!; try done.
  - intros Ht. destruct (Hu Ht) as (Ed & ? & ? & ?). rewrite (Hsame Ht).
    rewrite bool_decide_true in E2 by done. injection E2 as <-. by rewrite Ed.
Qed.

(** ** The invariant *)

Definition decision_ok (db : DB) (id : string) (f : FindingRow) : Prop :=
  let d := f_decision f in
  validDisposition (d_disposition d) = true ∧ validWorkflowState (d_workflow_state d) = true ∧
  (is_Some (d_accepted_risk_expires_at d) → d_disposition d = "accepted-risk") ∧
  (d_disposition d ≠ "none" →
   is_Some (currentApproval (f_workspace_id f) id (d_disposition d) (d_decision_revision d) db)).

Definition approval_ok (db : DB) (a : ApprovalRow) : Prop :=
  approvalSemantics a = true ∧ ap_rationale a ≠ "" ∧
  ∃ f, t_findings db !! ap_finding_id a = Some f ∧ f_workspace_id f = ap_workspace_id a ∧
       ap_decision_revision a ≤ d_decision_revision (f_decision f).

(** Every decision is well formed and, unless it is "none", rests on an
    approval with a rationale; approvals belong to their finding's past. *)
Definition decisions_ok (db : DB) : Prop :=
  (∀ id f, t_findings db !! id = Some f → decision_ok db id f) ∧
  (∀ i a, t_approvals db !! i = Some a → approval_ok db a).

(** ** Looking approvals up *)

Lemma laterApproval_total x y : laterApproval x y = false → laterApproval y x = true.
Proof. unfold laterApproval. rewrite Z.leb_gt, Z.leb_le. lia. Qed.
Lemma laterApproval_trans x y z : laterApproval x y = true → laterApproval y z = true → laterApproval x z = true.
Proof. unfold laterApproval. rewrite !Z.leb_le. lia. Qed.

Lemma elem_of_approvals ws id disp r db a :
  a ∈ (rowsWhere (λ _ a, approvalOf ws id disp r a) (t_approvals db)).*2 ↔
  ∃ i, t_approvals db !! i = Some a ∧ approvalOf ws id disp r a = true.
Proof.
  rewrite list_elem_of_fmap. split.
  - intros ([i b] & -> & Hb%elem_of_rowsWhere). eauto.
  - intros (i & Hi & Ha). exists (i, a). split; [done|]. by apply elem_of_rowsWhere.
Qed.

Lemma currentApproval_is_Some ws id disp r db i a :
  t_approvals db !! i = Some a → approvalOf ws id disp r a = true →
  is_Some (currentApproval ws id disp r db).
Proof.
  intros Hi Ha. unfold currentApproval. destruct (argmin _ _) eqn:E; [eauto|]. apply argmin_None in E.
  assert (a ∈ (rowsWhere (λ _ a, approvalOf ws id disp r a) (t_approvals db)).*2) as Hin
    by (apply elem_of_approvals; eauto).
  rewrite E in Hin. by apply elem_of_nil in Hin.
Qed.

Lemma currentApproval_elem ws id disp r db a :
  currentApproval ws id disp r db = Some a →
  ∃ i, t_approvals db !! i = Some a ∧ approvalOf ws id disp r a = true.
Proof. intros H. by apply elem_of_approvals, argmin_elem with laterApproval. Qed.

(** The newest approval is the one found. *)
Lemma currentApproval_newest ws id disp r db i a :
  t_approvals db !! i = Some a → approvalOf ws id disp r a = true →
  (∀ j b, t_approvals db !! j = Some b → approvalOf ws id disp r b = true → j ≠ i →
     ap_decision_revision b < ap_decision_revision a) →
  currentApproval ws id disp r db = Some a.
Proof.
  intros Hi Ha Hlt. destruct (currentApproval_is_Some _ _ _ _ _ _ _ Hi Ha) as [w Hw]. rewrite Hw.
  pose proof (currentApproval_elem _ _ _ _ _ _ Hw) as (j & Hj & Hwo).
  destruct (decide (j = i)) as [->|Hne]; [by simplify_eq|].
  assert (laterApproval w a = true) as Hl.
  { eapply (argmin_least _ laterApproval_total laterApproval_trans); [exact Hw|].
    apply elem_of_approvals. eauto. }
  unfold laterApproval in Hl. apply Z.leb_le in Hl. specialize (Hlt j w Hj Hwo Hne). lia.
Qed.

(** Approvals that are the same rows give the same answer. *)
Lemma currentApproval_ext ws id disp r r' db db' :
  t_approvals db' = t_approvals db →
  (∀ i a, t_approvals db !! i = Some a → approvalOf ws id disp r a = approvalOf ws id disp r' a) →
  currentApproval ws id disp r' db' = currentApproval ws id disp r db.
Proof.
  intros E Heq. unfold currentApproval, rowsWhere. rewrite E. f_equal. f_equal.
  assert (∀ x, x ∈ map_to_list (t_approvals db) →
    (approvalOf ws id disp r' x.2 = true) ↔ (approvalOf ws id disp r x.2 = true)) as Hx.
  { intros [i a] Hi%elem_of_map_to_list. simpl. by rewrite (Heq i a). }
  clear Heq E. induction (map_to_list (t_approvals db)) as [|x l IH]; [done|].
  rewrite !filter_cons. rewrite IH by (intros; apply Hx; set_solver).
  assert (approvalOf ws id disp r' x.2 = true ↔ approvalOf ws id disp r x.2 = true) by (apply Hx; set_solver).
  do 2 case_decide; naive_solver.
Qed.

(** ** One patch *)

Lemma approvalOf_true ws id disp r a :
  approvalOf ws id disp r a = true ↔
  ap_workspace_id a = ws ∧ ap_finding_id a = id ∧ ap_disposition a = disp ∧ ap_decision_revision a ≤ r.
Proof. unfold approvalOf. breflect. tauto. Qed.

Lemma approval_not_none db i a : decisions_ok db → t_approvals db !! i = Some a → ap_disposition a ≠ "none".
Proof.
  intros [_ Ha] Hi E. destruct (Ha i a Hi) as [Hs _]. unfold approvalSemantics in Hs. by rewrite E in Hs.
Qed.

Lemma currentApproval_none ws id r db : decisions_ok db → currentApproval ws id "none" r db = None.
Proof.
  intros Hok. destruct (currentApproval ws id "none" r db) as [a|] eqn:E; [|done].
  apply currentApproval_elem in E as (i & Hi & Ha%approvalOf_true).
  destruct (approval_not_none db i a Hok Hi). tauto.
Qed.

(** The approval of a new decision is found at its revision. *)
Lemma currentApproval_new ws id actor rat f d db db' aid a :
  decisions_ok db → t_findings db !! id = Some f → f_workspace_id f = ws →
  approves ws actor rat {| sdDecision := d; sdFindingID := id; sdScope := f_scope f;
                           sdRevision := d_decision_revision (f_decision f) + 1 |} a →
  t_approvals db !! aid = None → t_approvals db' = <[aid := a]> (t_approvals db) →
  currentApproval ws id (Disposition d) (d_decision_revision (f_decision f) + 1) db' = Some a.
Proof.
  intros [_ Hok] Hf Hw (E1 & E2 & E3 & _ & E4 & _) Hn Ht. simpl in *.
  apply (currentApproval_newest _ _ _ _ _ aid).
  - by rewrite Ht, lookup_insert_eq.
  - apply approvalOf_true. split_and!; [done..|lia].
  - intros j b Hj (Ew & Ef & _)%approvalOf_true Hne. rewrite Ht, lookup_insert_ne in Hj by done.
    destruct (Hok j b Hj) as (_ & _ & f' & Hf' & _ & Hle). rewrite Ef in Hf'. simplify_eq. lia.
Qed.

(** A disposition nobody touched keeps its approval at the next revision. *)
Lemma currentApproval_kept ws id disp f db db' :
  decisions_ok db → t_findings db !! id = Some f → t_approvals db' = t_approvals db →
  currentApproval ws id disp (d_decision_revision (f_decision f) + 1) db' =
  currentApproval ws id disp (d_decision_revision (f_decision f)) db.
Proof.
  intros [_ Hok] Hf Ht. apply currentApproval_ext; [done|]. intros i a Hi.
  apply eq_bool_prop_intro. rewrite !Is_true_true, !approvalOf_true. split; [naive_solver lia|].
  intros (? & Ef & ? & _). split_and!; [done..|].
  destruct (Hok i a Hi) as (_ & _ & f' & Hf' & _ & Hle). rewrite Ef in Hf'. by simplify_eq.
Qed.

Lemma consistent_fields t d :
  validDisposition (Disposition d) = true → consistentDecision t d = true →
  (Disposition d ≠ "suppressed" → SuppressionExpiresAt d = None) ∧
  (is_Some (AcceptedRiskExpiresAt d) → Disposition d = "accepted-risk") ∧
  (Disposition d = "none" → DispositionScope d = "" ∧ DispositionRationale d = "").
Proof.
  unfold validDisposition, consistentDecision. intros Hv Hc.
  destruct (AcceptedRiskExpiresAt d), (SuppressionExpiresAt d); breflect_in Hv;
    destruct Hv as [[[Hv|Hv]|Hv]|Hv]; rewrite Hv in *; simpl in Hc;
    repeat match goal with H : _ && _ = true |- _ => apply andb_true_iff in H as [? ?] end;
    repeat match goal with H : bool_decide _ = true |- _ => apply bool_decide_eq_true in H end;
    try discriminate; split_and!; try done; by intros [].
Qed.

(** What was written is what is read. *)
Lemma patched_read_back workspace id actor action p f t d db db' :
  decisions_ok db → t_findings db !! id = Some f → f_workspace_id f = workspace →
  nextDecision t p (decisionOf db id f) = Ok d →
  patched workspace id actor action p f d db db' →
  ∃ f', t_findings db' !! id = Some f' ∧
    f' = setDecision f (decisionCols d (d_decision_revision (f_decision f) + 1)) ∧
    decisionOf db' id f' = d.
Proof.
  intros Hok Hf Hw (Hv & _ & Hc & Hun & Hto)%nextDecision_ok (approvals & eid & at_ & Hap & _ & ->).
  eexists. split; [simpl; apply lookup_insert_eq|]. split; [done|].
  destruct (consistent_fields t d Hv Hc) as (Hsup & _ & Hnone).
  unfold decisionOf. simpl. change (f_workspace_id (setDecision _ _)) with (f_workspace_id f). rewrite Hw.
  match goal with |- context [currentApproval _ _ _ _ ?x] => set (db' := x) end.
  destruct (decide (Disposition d = "none")) as [En|Hn].
  - rewrite En in *. rewrite bool_decide_true, bool_decide_false by done.
    destruct (Hnone eq_refl) as [Es Er].
    assert (currentApproval workspace id "none" (d_decision_revision (f_decision f) + 1) db' = None) as ->.
    { rewrite andb_false_r in Hap. rewrite <-(currentApproval_none workspace id (d_decision_revision (f_decision f)) db Hok).
      apply currentApproval_kept; [done..|]. subst db'. simpl. by rewrite Hap. }
    simpl. destruct d; simpl in *. subst. by rewrite Hsup by done.
  - rewrite (bool_decide_false (Disposition d = "none")) by done.
    destruct (dispositionTouched p) eqn:Et; simpl in Hap.
    + rewrite (bool_decide_false (Disposition d = "none")) in Hap by done. simpl in Hap.
      destruct Hap as (aid & a & Ha & Hna & ->).
      rewrite (currentApproval_new workspace id actor _ f d db db' aid a Hok Hf Hw Ha Hna) by done.
      destruct Ha as (_ & _ & _ & _ & _ & Es & Er & _ & Ee & _). simpl in *.
      destruct (Hto eq_refl Hn) as [Hr Hne]. rewrite Hr, bool_decide_false in Er by done.
      rewrite Es, Er. destruct (decide (Disposition d = "suppressed")) as [E|E].
      * rewrite bool_decide_true by done. rewrite Ee by done. destruct d; simpl in *. by subst.
      * rewrite bool_decide_false by done. rewrite Hsup in * by done. destruct d; simpl in *. subst.
        by rewrite Hsup by done.
    + destruct (Hun eq_refl) as (Ed & Es & _ & Eu & Er).
      rewrite (currentApproval_kept workspace id (Disposition d) f db db' Hok Hf) by done.
      unfold decisionOf in Ed, Es, Eu, Er. simpl in *. rewrite Hw in *. rewrite <-Ed in *.
      rewrite (bool_decide_false (Disposition d = "none")) in Es by done.
      rewrite <-Es, <-Er, <-Eu. by destruct d.
Qed.

(** ** The invariant is kept *)

Lemma currentApproval_mono ws id disp r r' db db' :
  r ≤ r' → t_approvals db ⊆ t_approvals db' →
  is_Some (currentApproval ws id disp r db) → is_Some (currentApproval ws id disp r' db').
Proof.
  intros Hr Hs [a (i & Hi & Ha)%currentApproval_elem]. eapply currentApproval_is_Some.
  - eapply lookup_weaken; [exact Hi|done].
  - apply approvalOf_true. apply approvalOf_true in Ha. naive_solver lia.
Qed.

(** One finding moves to a later revision, with the approvals there were and
    perhaps the one its new decision needs. *)
Lemma decisions_ok_move db db' id f d' :
  decisions_ok db → t_findings db !! id = Some f →
  d_decision_revision (f_decision f) ≤ d_decision_revision d' →
  t_findings db' = <[id := setDecision f d']> (t_findings db) →
  t_approvals db ⊆ t_approvals db' →
  (∀ i a, t_approvals db' !! i = Some a → t_approvals db !! i = None →
     approvalSemantics a = true ∧ ap_rationale a ≠ "" ∧ ap_finding_id a = id ∧
     ap_workspace_id a = f_workspace_id f ∧ ap_decision_revision a ≤ d_decision_revision d') →
  decision_ok db' id (setDecision f d') →
  decisions_ok db'.
Proof.
  intros [Hfs Has] Hf Hrev Ef Ea Hnew Hd. split.
  - intros i fi. rewrite Ef, lookup_insert. case_decide; [subst; by intros [= <-]|]. intros Hi.
    destruct (Hfs i fi Hi) as (H1 & H2 & H3 & H4). split_and!; [done..|]. intros Hn.
    by eapply currentApproval_mono, H4.
  - intros i a Hi. destruct (t_approvals db !! i) as [b|] eqn:Eb.
    + pose proof (lookup_weaken _ _ _ _ Eb Ea) as Hb. assert (b = a) as -> by congruence.
      destruct (Has i a Eb) as (H1 & H2 & f0 & Hf0 & Hw & Hle). split_and!; [done..|].
      rewrite Ef, lookup_insert. case_decide; subst; [|eauto].
      eexists. split; [done|]. simplify_eq. split; [done|]. simpl. lia.
    + destruct (Hnew i a Hi Eb) as (H1 & H2 & E & Hw & Hle). split_and!; [done..|].
      exists (setDecision f d'). by rewrite Ef, E, lookup_insert_eq.
Qed.

Lemma patched_ok workspace id actor action p f t d db db' :
  decisions_ok db → t_findings db !! id = Some f → f_workspace_id f = workspace →
  nextDecision t p (decisionOf db id f) = Ok d →
  patched workspace id actor action p f d db db' → decisions_ok db'.
Proof.
  intros Hok Hf Hw Hnd Hp. pose proof (nextDecision_ok _ _ _ _ Hnd) as (Hv & Hwf & Hc & Hun & Hto).
  destruct (consistent_fields t d Hv Hc) as (_ & Hrisk & _).
  destruct Hp as (approvals & eid & at_ & Hap & _ & ->).
  eapply (decisions_ok_move db _ id f (decisionCols d (d_decision_revision (f_decision f) + 1)));
    [done|done|simpl; lia|done|..].
  - simpl. destruct (dispositionTouched p && _); [|by rewrite Hap].
    destruct Hap as (aid & a & _ & Hn & ->). by apply insert_subseteq.
  - simpl. intros i a Hi Hn. destruct (dispositionTouched p && _); [|by rewrite Hap, Hn in Hi].
    destruct Hap as (aid & b & Ha & _ & ->). apply lookup_insert_Some in Hi as [[<- <-]|[_ ?]]; [|congruence].
    destruct Ha as (E1 & E2 & E3 & _ & _ & _ & E4 & Hne & _ & Hs). simpl in *. rewrite E4, E3, Hw.
    split_and!; try done.
  - split_and!; [done..|]. simpl. intros Hn.
    match goal with |- is_Some (currentApproval ?ws _ _ _ ?x) =>
      change ws with (f_workspace_id f); set (db' := x) end. rewrite Hw.
    destruct (dispositionTouched p) eqn:Et; simpl in Hap.
    + rewrite (bool_decide_false (Disposition d = "none")) in Hap by done. simpl in Hap.
      destruct Hap as (aid & a & Ha & Hna & ->).
      rewrite (currentApproval_new workspace id actor _ f d db db' aid a Hok Hf Hw Ha Hna) by done. eauto.
    + rewrite (currentApproval_kept workspace id (Disposition d) f db db' Hok Hf) by done.
      destruct (Hun eq_refl) as (Ed & _). simpl in Ed. rewrite Ed in *. rewrite <-Hw.
      by apply (proj1 Hok id f Hf).
Qed.

Lemma applyPatch_ok workspace id actor action p :
  ∀ env n db sd db' n', applyFindingDecisionPatch workspace id actor action p env n db = mkOut (Ok sd) db' n' →
  decisions_ok db → decisions_ok db'.
Proof.
  intros env n db sd db' n' (f & t & d & Hf & Hw & _ & _ & Hnd & _ & _ & Hp)%applyPatch_inv Hok.
  by eapply patched_ok.
Qed.

(** Programs that keep the invariant when they succeed. *)
Lemma mapM_ok_invariant {S A B} (I : S → Prop) (m : A → M S B) l :
  (∀ x env n s y s' n', m x env n s = mkOut (Ok y) s' n' → I s → I s') →
  ∀ env n s ys s' n', mapM m l env n s = mkOut (Ok ys) s' n' → I s → I s'.
Proof.
  intros Hm. induction l as [|x l IH]; simpl; intros env n s ys s' n' H Hs.
  - by apply ret_inv in H as [_ ->].
  - apply bind_inv in H as (y & s1 & n1 & H1 & H). apply bind_inv in H as (ys' & s2 & n2 & H2 & H).
    apply ret_inv in H as [_ ->]. eauto.
Qed.

Lemma scanAll_db {B} (g : Z → WorkItem → B) rows env n (db : DB) :
  out_db (mapM (λ v, bind now (λ t, ret (g t v))) rows env n db) = db.
Proof.
  revert env n db. change (Steps (λ a b : DB, b = a) (mapM (λ v, bind now (λ t, ret (g t v))) rows)).
  assert (PreOrder (λ a b : DB, b = a)) by (split; [done|intros ? ? ?; congruence]).
  apply steps_mapM; [done|]. intros v. apply steps_bind; [done|by apply steps_now|]. intros; by apply steps_ret.
Qed.

(** A bulk request: nothing, or the run of all its patches. *)
Lemma bulk_shape workspace actor i env n db r db' n' :
  bulkPatchFindings workspace actor i env n db = mkOut r db' n' →
  (db' = db ∧ is_ok r = false) ∨
  validBulk i = true ∧ distinctIDs (sortIDs (FindingIDs i)) = true ∧
  (∀ id, id ∈ sortIDs (FindingIDs i) → riskMode i = true →
     isSome (expectedRevision (default ∅ (DecisionRevisions i)) id) = true) ∧
  ∃ n1 ys n2, mapM (λ id, applyFindingDecisionPatch workspace id actor "bulk-update" (bulkPatch i id))
    (sortIDs (FindingIDs i)) env n1 db = mkOut (Ok ys) db' n2.
Proof.
  unfold bulkPatchFindings, guard. unfold bind at 1. destruct (validBulk i); [|intros [= <- <- _]; by left].
  unfold ret at 1. unfold bind at 1. destruct (distinctIDs _); [|intros [= <- <- _]; by left].
  unfold ret at 1. unfold bind at 1, now at 1. unfold bind at 1.
  destruct (if riskMode i then _ else _) eqn:Er; [|intros [= <- <- _]; by left]. unfold ret at 1.
  unfold transaction. destruct (bind _ _ env _ db) as [[b|e] s k] eqn:E; [|intros [= <- <- _]; by left].
  apply bind_inv in E as (ys & s1 & n1 & Hm & E). apply bind_inv in E as (rows & s2 & n2 & [_ ->]%query_inv & E).
  apply bind_inv in E as (items & s3 & n3 & Hi & E). pose proof (scanAll_db scanWork rows env n2 s1) as Hd.
  rewrite Hi in Hd. simpl in Hd. subst s3. apply bind_inv in E as (? & ? & ? & [_ ->]%guard_inv & E).
  apply ret_inv in E as [_ ->].
  assert (∀ id, id ∈ sortIDs (FindingIDs i) → riskMode i = true →
     isSome (expectedRevision (default ∅ (DecisionRevisions i)) id) = true) as Hx.
  { intros id Hid Hr. rewrite Hr in Er. unfold validRevisions in Er. 
    apply andb_true_iff in Er as [[_ Er]%andb_true_iff _]. rewrite forallb_Forall, Forall_forall in Er. by apply Er. }
  destruct (env_commit env k); intros [= <- <- _]; [right| by left |right]; eauto 10.
Qed.

Lemma addNote_ok workspace author id text : Steps (preserves decisions_ok) (addNote workspace author id text).
Proof.
  unfold addNote. apply steps_guarded; [apply _|]. intros _.
  apply steps_bind; [apply _|apply steps_newID; apply _|]. intros nid.
  apply steps_transaction_ok; [apply _|]. intros env n db a db' n' H Hok.
  apply bind_inv in H as (? & ? & ? & [Hq ->]%query_inv & H).
  apply bind_inv in H as (? & ? & ? & [_ ->]%now_inv & H).
  apply bind_inv in H as (? & s1 & ? & Hs%stmt_inv & H).
  apply bind_inv in H as (? & ? & ? & [_ ->]%guard_inv & H).
  apply bind_inv in H as (? & s2 & ? & He%exec_inv & H). apply ret_inv in H as [_ ->].
  injection He as _ <-. destruct (t_findings db !! id) as [f|] eqn:Ef; [|done].
  destruct (_ && _) eqn:Ew in Hq; [|done]. apply andb_true_iff in Ew as [Ew _]. 
  assert (t_findings s1 = t_findings db ∧ t_approvals s1 = t_approvals db) as [E1 E2].
  { destruct (inWorkspace _ _ _); [|by simplify_eq]. destruct (isSome _); [|done].
    unfold insertRow in Hs. destruct (t_notes db !! nid); [done|]. by simplify_eq. }
  eapply (decisions_ok_move db _ id f (f_decision (bumpRevision f))); [done|done|simpl; lia|..].
  - simpl. rewrite E1. apply map_eq. intros j. rewrite lookup_updateRows.
    destruct (decide (j = id)) as [->|Hne].
    + rewrite Ef, lookup_insert_eq. simpl. by rewrite Ew, bool_decide_true.
    + rewrite lookup_insert_ne by done. destruct (t_findings db !! j); [|done]. simpl.
      by rewrite bool_decide_false.
  - simpl. by rewrite E2.
  - simpl. rewrite E2. intros; congruence.
  - destruct (proj1 Hok id f Ef) as (H1 & H2 & H3 & H4). split_and!; [done..|]. simpl. intros Hn.
    eapply currentApproval_mono, H4; [simpl; lia|simpl; by rewrite E2|done].
Qed.

(** Reports and asset deletions keep it too: they leave decisions and
    approvals alone, new findings are undecided, and a deleted finding takes
    its approvals with it. *)
Definition undecided (f : FindingRow) : Prop :=
  d_disposition (f_decision f) = "none" ∧ d_workflow_state (f_decision f) = "open" ∧
  d_accepted_risk_expires_at (f_decision f) = None.

(** Groups, members and their events are the same rows. *)
Definition same_groups (db db' : DB) : Prop :=
  t_correlations db' = t_correlations db ∧ t_members db' = t_members db ∧
  t_correlationEvents db' = t_correlationEvents db.
#[export] Instance same_groups_preorder : PreOrder same_groups.
Proof. split; [done|]. intros d1 d2 d3 (? & ? & ?) (? & ? & ?). split_and!; congruence. Qed.

Definition human_kept (db db' : DB) : Prop :=
  t_approvals db' = t_approvals db ∧ same_groups db db' ∧
  (∀ id f, t_findings db !! id = Some f →
     ∃ f', t_findings db' !! id = Some f' ∧ f_scope f' = f_scope f ∧ f_decision f' = f_decision f) ∧
  (∀ id f', t_findings db !! id = None → t_findings db' !! id = Some f' → undecided f').
#[export] Instance human_kept_preorder : PreOrder human_kept.
Proof.
  split.
  - intros db. split; [done|]. split; [done|]. split; [eauto|congruence].
  - intros d1 d2 d3 (A1 & G1 & F1 & N1) (A2 & G2 & F2 & N2).
    split; [congruence|]. split; [by trans d2|]. split.
    + intros id f Hf. apply F1 in Hf as (f2 & Hf2 & Es & Ed). apply F2 in Hf2 as (f3 & ? & ? & ?).
      exists f3. split_and!; congruence.
    + intros id f3 Hn H3. destruct (t_findings d2 !! id) as [f2|] eqn:E2; [|eauto].
      destruct (F2 id f2 E2) as (f3' & H3' & _ & Ed). specialize (N1 id f2 Hn E2). simplify_eq.
      unfold undecided in *. by rewrite Ed.
Qed.

Lemma human_kept_same db db' :
  t_findings db' = t_findings db → t_approvals db' = t_approvals db → same_groups db db' → human_kept db db'.
Proof. intros E1 E2 E3. split; [done|]. split; [done|]. split; [rewrite E1; eauto|rewrite E1; congruence]. Qed.

Lemma human_kept_ok db db' : human_kept db db' → decisions_ok db → decisions_ok db'.
Proof.
  intros (Ea & _ & Hf & Hn) [Hfs Has].
  assert (∀ ws id disp r, currentApproval ws id disp r db' = currentApproval ws id disp r db) as Hcur
    by (intros; by apply currentApproval_ext).
  split.
  - intros id f' Hf'. destruct (t_findings db !! id) as [f|] eqn:E.
    + destruct (Hf id f E) as (f0 & Hf0 & Es & Ed). simplify_eq. destruct (Hfs id f E) as (H1 & H2 & H3 & H4).
      unfold decision_ok, f_workspace_id. rewrite Ed, Es. split_and!; [done..|]. intros Hd. rewrite Hcur. auto.
    + destruct (Hn id f' E Hf') as (U1 & U2 & U3). unfold decision_ok. rewrite U1, U2, U3.
      split_and!; [done..|by intros []|done].
  - intros i a. rewrite Ea. intros Hi. destruct (Has i a Hi) as (H1 & H2 & f & Hfi & Hw & Hle).
    split_and!; [done..|]. destruct (Hf _ _ Hfi) as (f' & ? & Es & Ed). exists f'. split; [done|].
    unfold f_workspace_id in *. by rewrite Es, Ed.
Qed.

Lemma findingUpsert_human m owner cov f id db x db' :
  findingUpsert {| up_id := id; up_row := (findingRow m owner cov f).1;
    up_authoritative := i_source_status m ==? "succeeded"; up_fresh := (findingRow m owner cov f).2 |} db
    = Ok (x, db') → human_kept db db'.
Proof.
  unfold findingUpsert. case_if; [done|]. destruct (findRow _ _) as [[i g]|] eqn:Ef.
  - intros [= <- <-]. apply findRow_Some in Ef as [Hg Hs]. split; [done|]. split; [done|]. split.
    + intros j fj Hj. simpl. rewrite lookup_insert.
      destruct (decide (i = j)) as [->|]; [|exists fj; by split_and!].
      rewrite Hg in Hj. injection Hj as <-. eexists. split; [done|]. by unfold updateFinding.
    + intros j fj Hn. simpl. rewrite lookup_insert. destruct (decide (i = j)) as [->|]; congruence.
  - unfold insertRow. simpl. destruct (t_findings db !! id) eqn:E1; [done|]. intros [= <- <-]. split; [done|]. split; [done|]. split.
    + intros j fj Hj. simpl. rewrite lookup_insert_ne by congruence. exists fj. by split_and!.
    + intros j fj Hn. simpl. rewrite lookup_insert. destruct (decide (id = j)) as [->|]; [|congruence]. intros [= <-].
      unfold findingRow. by destruct (if _ ==? _ then _ else _).
Qed.

Lemma closeScan_human m cov db : human_kept db (closeScan m cov db).
Proof.
  unfold closeScan. destruct (i_source_scan_at m) as [scan|]; [|reflexivity].
  destruct (_ && _); [|reflexivity]. split; [done|]. split; [done|]. split.
  - intros id f Hf. simpl. rewrite lookup_updateRows, Hf. simpl. eexists. split; [done|].
    by destruct (absent _ _ _ _ _).
  - intros id f Hn. simpl. rewrite lookup_updateRows, Hn. done.
Qed.

Lemma reconcile_human record fs : Steps human_kept (reconcile record fs).
Proof.
  unfold reconcile. apply steps_transaction_ok; [apply _|]. intros env n db a db' n' H.
  apply reconcileTx_run in H as (r & t & asset & w & db1 & k & n1 & _ & _ & _ & _ & _ & _ & Hs & ->).
  assert (Steps human_kept (reconcileSlices (recMeta record) (a_owner_id asset)
    (t_coverage db !! importKey (recMeta record)) (w_notification_policy_epoch w) (a_name asset)
    (length fs) 0 fs)) as H1.
  { apply steps_reconcileSlices; [apply _| |intros; by apply human_kept_same..].
    intros. by eapply findingUpsert_human. }
  specialize (H1 env k db). rewrite Hs in H1. simpl in H1.
  etransitivity; [exact H1|]. etransitivity; [apply closeScan_human|]. by apply human_kept_same.
Qed.

Lemma processImport_human others registry read ticks record :
  (∀ n db, human_kept db (others n db)) →
  Steps human_kept (processImport others registry read ticks record).
Proof.
  intros Ho. apply steps_processImport_queue; [apply _|done|apply reconcile_human|]. intros. by apply human_kept_same.
Qed.

Lemma cascade_decisions workspace id db : decisions_ok db → decisions_ok (cascade workspace id db).
Proof.
  intros [Hfs Has]. split.
  - intros i f. simpl. rewrite lookup_deleteRows_Some. intros [Hf Hk].
    destruct (Hfs i f Hf) as (H1 & H2 & H3 & H4). split_and!; [done..|]. intros Hn.
    destruct (H4 Hn) as [a (j & Hj & Ha)%currentApproval_elem].
    apply (currentApproval_is_Some _ _ _ _ _ j a); [|done]. simpl. apply lookup_deleteRows_Some.
    split; [done|]. apply approvalOf_true in Ha as (_ & Ef & _). unfold findingGone. by rewrite Ef, Hf, Hk.
  - intros i a. simpl. rewrite lookup_deleteRows_Some. intros [Hi Hg].
    destruct (Has i a Hi) as (H1 & H2 & f & Hf & Hw & Hle). split_and!; [done..|].
    exists f. split; [|done]. simpl. apply lookup_deleteRows_Some. split; [done|].
    unfold findingGone in Hg. rewrite Hf in Hg. destruct (findingOf workspace id f) eqn:E; [|done].
    simpl in Hg. unfold findingOf in E. breflect_in E. breflect_in Hg. naive_solver.
Qed.

(** ** What a patch does *)

(** The names of the fields in which two decisions differ. *)
Definition differs (name : string) (b a : FindingDecision) : Prop :=
  name = "ownerId" ∧ OwnerID b ≠ OwnerID a ∨ name = "workflowState" ∧ WorkflowState b ≠ WorkflowState a ∨
  name = "disposition" ∧ Disposition b ≠ Disposition a ∨
  name = "acceptedRiskExpiresAt" ∧ AcceptedRiskExpiresAt b ≠ AcceptedRiskExpiresAt a ∨
  name = "dispositionScope" ∧ DispositionScope b ≠ DispositionScope a ∨
  name = "suppressionExpiresAt" ∧ SuppressionExpiresAt b ≠ SuppressionExpiresAt a ∨
  name = "dispositionRationale" ∧ DispositionRationale b ≠ DispositionRationale a.

Lemma elem_of_unless (P : Prop) `{Decision P} (x y : string) :
  x ∈ (if bool_decide P then [] else [y]) ↔ x = y ∧ ¬ P.
Proof. case_bool_decide; set_solver. Qed.

Lemma decisionChanges_spec name b a : name ∈ decisionChanges b a ↔ differs name b a.
Proof. unfold decisionChanges, differs. by rewrite !elem_of_app, !elem_of_unless. Qed.

(** An acknowledged patch of a finding changes only that finding, keeps everything the scanners reported, moves its decision to the next revision, and is read back exactly: the decision any later reader computes from the finding and its approvals is the decision the patch announced. It leaves exactly one new history event, by the acting user, that holds the decision before and after and names precisely the fields that differ. *)
Theorem patch_read_back workspace actor id p env n db sd db' n' :
  decisions_ok db → patchFinding workspace actor id p env n db = mkOut (Ok sd) db' n' →
  ∃ f f' eid e,
    t_findings db !! id = Some f ∧ f_workspace_id f = workspace ∧
    t_findings db' = <[id := f']> (t_findings db) ∧
    f' = setDecision f (decisionCols (sdDecision sd) (d_decision_revision (f_decision f) + 1)) ∧
    decisionOf db' id f' = sdDecision sd ∧
    t_decisionEvents db !! eid = None ∧ t_decisionEvents db' = <[eid := e]> (t_decisionEvents db) ∧
    ev_before e = decisionOf db id f ∧ ev_after e = sdDecision sd ∧ ev_finding_id e = id ∧
    ev_actor_id e = actor ∧ ev_decision_revision e = d_decision_revision (f_decision f) + 1 ∧
    (∀ name, name ∈ ev_changed_fields e ↔ differs name (ev_before e) (ev_after e)).
Proof.
  intros Hok H. unfold patchFinding in H. apply transaction_inv in H as [n1 H].
  apply applyPatch_inv in H as (f & t & d & Hf & Hw & _ & _ & Hnd & _ & -> & Hp). simpl.
  pose proof (patched_read_back _ _ _ _ _ _ _ _ _ _ Hok Hf Hw Hnd Hp) as (f' & Hf' & -> & Hread).
  destruct Hp as (approvals & eid & at_ & _ & Hn & ->).
  exists f, (setDecision f (decisionCols d (d_decision_revision (f_decision f) + 1))), eid. eexists.
  split_and!; try done. intros name. apply decisionChanges_spec.
Qed.

(** ** Bulk patches *)

(** What a bulk request makes of one finding. *)
Definition bulk_moved (i : bulkInput) (id : string) (f f' : FindingRow) : Prop :=
  d_decision_revision (f_decision f') = d_decision_revision (f_decision f) + 1 ∧
  f_projection f' = f_projection f ∧
  (if riskMode i
   then expectedRevision (default ∅ (DecisionRevisions i)) id = Some (d_decision_revision (f_decision f)) ∧
        d_disposition (f_decision f') = "accepted-risk" ∧
        d_accepted_risk_expires_at (f_decision f') = Value (bulkAcceptedRiskExpiresAt i) ∧
        d_owner_id (f_decision f') = d_owner_id (f_decision f) ∧
        d_workflow_state (f_decision f') = d_workflow_state (f_decision f)
   else (IsSet (bulkOwnerID i) = true → d_owner_id (f_decision f') = Value (bulkOwnerID i)) ∧
        (IsSet (bulkWorkflowState i) = true → Some (d_workflow_state (f_decision f')) = Value (bulkWorkflowState i)) ∧
        d_disposition (f_decision f') = d_disposition (f_decision f) ∧
        d_accepted_risk_expires_at (f_decision f') = d_accepted_risk_expires_at (f_decision f)).

Lemma patchFields_sets p before d :
  patchFields p before = Ok d →
  OwnerID d = patchedOwner p before ∧
  Some (WorkflowState d) = (if IsSet (patchWorkflowState p) then Value (patchWorkflowState p) else Some (WorkflowState before)) ∧
  Some (Disposition d) = (if IsSet (patchDisposition p) then Value (patchDisposition p) else Some (Disposition before)) ∧
  AcceptedRiskExpiresAt d = (if IsSet (patchAcceptedRiskExpiresAt p) then Value (patchAcceptedRiskExpiresAt p)
                             else AcceptedRiskExpiresAt before).
Proof.
  unfold patchFields, patchField. intros H.
  destruct (IsSet (patchWorkflowState p)), (Value (patchWorkflowState p)); try done;
  (destruct (validWorkflowState _); [simpl in H|done]);
  destruct (IsSet (patchDisposition p)), (Value (patchDisposition p)); try done;
  destruct (IsSet (patchDispositionScope p)), (Value (patchDispositionScope p)); try done;
  injection H as <-; done.
Qed.

Lemma resetDisposition_sets b d d' :
  resetDisposition b d = Ok d' →
  OwnerID d' = OwnerID d ∧ WorkflowState d' = WorkflowState d ∧ Disposition d' = Disposition d ∧
  (Disposition d = "accepted-risk" → AcceptedRiskExpiresAt d' = AcceptedRiskExpiresAt d).
Proof.
  unfold resetDisposition. intros H. split_and!.
  4: { intros E. rewrite E in H. simpl in H. by injection H as <-. }
  all: repeat match type of H with context [bool_decide ?c] => destruct (bool_decide c) end;
    destruct b; by simplify_eq/=.
Qed.

Lemma applyRationale_sets p d d' :
  applyRationale p d = Ok d' →
  OwnerID d' = OwnerID d ∧ WorkflowState d' = WorkflowState d ∧ Disposition d' = Disposition d ∧
  (Disposition d ≠ "none" → AcceptedRiskExpiresAt d' = AcceptedRiskExpiresAt d).
Proof.
  unfold applyRationale. intros H. destruct (dispositionTouched p).
  - destruct (negb _); [done|]. destruct (bool_decide_reflect (Disposition d = "none")); by injection H as <-.
  - destruct (_ && _); [done|]. by injection H as <-.
Qed.

(** Owner, workflow state and disposition come from the patch where it sets them. *)
Lemma nextDecision_fields t p before d :
  nextDecision t p before = Ok d →
  OwnerID d = patchedOwner p before ∧
  Some (WorkflowState d) = (if IsSet (patchWorkflowState p) then Value (patchWorkflowState p) else Some (WorkflowState before)) ∧
  Some (Disposition d) = (if IsSet (patchDisposition p) then Value (patchDisposition p) else Some (Disposition before)) ∧
  (Disposition d = "accepted-risk" →
   AcceptedRiskExpiresAt d = if IsSet (patchAcceptedRiskExpiresAt p) then Value (patchAcceptedRiskExpiresAt p)
                             else AcceptedRiskExpiresAt before).
Proof.
  unfold nextDecision. intros H. destruct (patchFields p before) as [d1|] eqn:E1; [|done].
  apply patchFields_sets in E1 as (O1 & W1 & D1 & R1).
  destruct (if Disposition d1 ==? Disposition before then Ok d1 else _) as [d2|] eqn:E2; [|done].
  assert (OwnerID d2 = OwnerID d1 ∧ WorkflowState d2 = WorkflowState d1 ∧ Disposition d2 = Disposition d1 ∧
    (Disposition d1 = "accepted-risk" → AcceptedRiskExpiresAt d2 = AcceptedRiskExpiresAt d1)) as (O2 & W2 & D2 & R2).
  { destruct (_ ==? _) in E2; [by simplify_eq|by apply resetDisposition_sets in E2]. }
  destruct (validDisposition (Disposition d2)); [simpl in H|done].
  destruct (applyRationale p d2) as [d3|] eqn:E3; [|done].
  destruct (consistentDecision t d3); [|done]. injection H as <-.
  apply applyRationale_sets in E3 as (O3 & W3 & D3 & R3).
  rewrite O3, W3, D3, O2, W2, D2. split_and!; [done..|]. intros Hd.
  rewrite R3, R2, R1; [done|congruence|]. rewrite D2, Hd. done.
Qed.

Lemma bulkPatch_moves workspace actor i id env n db sd db' n' :
  validBulk i = true →
  (riskMode i = true → isSome (expectedRevision (default ∅ (DecisionRevisions i)) id) = true) →
  applyFindingDecisionPatch workspace id actor "bulk-update" (bulkPatch i id) env n db = mkOut (Ok sd) db' n' →
  ∃ f f', t_findings db !! id = Some f ∧ f_workspace_id f = workspace ∧
    t_findings db' = <[id := f']> (t_findings db) ∧
    bulk_moved i id f f' ∧ size (t_decisionEvents db') = S (size (t_decisionEvents db)).
Proof.
  intros Hv Hx (f & t & d & Hf & Hw & _ & He & Hnd & _ & _ & Hp)%applyPatch_inv.
  exists f, (setDecision f (decisionCols d (d_decision_revision (f_decision f) + 1))).
  destruct Hp as (approvals & eid & at_ & _ & Hn & ->). simpl. split_and!; [done..| |by rewrite map_size_insert_None].
  pose proof (nextDecision_ok _ _ _ _ Hnd) as (_ & _ & _ & Hun & _).
  apply nextDecision_fields in Hnd as (HO & HW & HD & HR). unfold bulk_moved. simpl.
  split_and!; [done..|]. unfold bulkPatch in *. unfold validBulk in Hv. apply negb_true_iff in Hv.
  destruct (riskMode i) eqn:Er; simpl in *.
  - rewrite orb_false_r in Hv. apply orb_false_iff in Hv as [_ Hv].
    repeat match goal with H : _ || _ = false |- _ => apply orb_false_iff in H as [? ?] end.
    repeat match goal with H : negb _ = false |- _ => apply negb_false_iff in H end.
    repeat match goal with H : bool_decide _ = true |- _ => apply bool_decide_eq_true in H end.
    specialize (Hx eq_refl). unfold patchedOwner in HO. simpl in HO.
    repeat match goal with H : IsSet _ = _ |- _ => rewrite H in * end.
    destruct (expectedRevision _ id) as [r|]; [|done]. simpl in He. rewrite (He r) by done.
    assert (Disposition d = "accepted-risk") as Hd by congruence. injection HW as HW.
    split_and!; [done|done|by apply HR|done|done].
  - unfold patchedOwner in HO. simpl in HO. injection HD as HD. split_and!.
    + intros E. by rewrite E in HO.
    + intros E. by rewrite E in HW.
    + done.
    + by destruct (Hun eq_refl) as (_ & _ & ? & _).
Qed.

Lemma bulk_run workspace actor i ids env n db ys db' n' :
  validBulk i = true →
  (∀ id, id ∈ ids → riskMode i = true → isSome (expectedRevision (default ∅ (DecisionRevisions i)) id) = true) →
  NoDup ids →
  mapM (λ id, applyFindingDecisionPatch workspace id actor "bulk-update" (bulkPatch i id)) ids env n db
    = mkOut (Ok ys) db' n' →
  (∀ id, id ∈ ids → ∃ f f', t_findings db !! id = Some f ∧ f_workspace_id f = workspace ∧
     t_findings db' !! id = Some f' ∧ bulk_moved i id f f') ∧
  (∀ id, id ∉ ids → t_findings db' !! id = t_findings db !! id) ∧
  size (t_decisionEvents db') = (size (t_decisionEvents db) + length ids)%nat.
Proof.
  intros Hv. revert n db ys n'. induction ids as [|x ids IH]; intros n db ys n' Hx Hnd H; simpl in H.
  - apply ret_inv in H as [_ ->]. simpl. split_and!; [set_solver|done|lia].
  - apply bind_inv in H as (y & db1 & n1 & H1 & H). apply bind_inv in H as (ys' & db2 & n2 & H2 & H).
    apply ret_inv in H as [_ ->]. apply NoDup_cons in Hnd as [Hn Hnd].
    apply bulkPatch_moves in H1 as (f & f' & Hf & Hw & Ef & Hm & Hsz); [|done|intros; apply Hx; set_solver].
    apply IH in H2 as (Hin & Hout & Hs2); [|intros; apply Hx; set_solver|done].
    split_and!.
    + intros id [->|Hid]%elem_of_cons.
      * exists f, f'. rewrite Hout by done. rewrite Ef, lookup_insert_eq. done.
      * destruct (Hin id Hid) as (g & g' & Hg & ?). exists g, g'.
        rewrite Ef, lookup_insert_ne in Hg by set_solver. done.
    + intros id Hid. rewrite Hout by set_solver. rewrite Ef, lookup_insert_ne by set_solver. done.
    + rewrite Hs2, Hsz. simpl. lia.
Qed.

Lemma distinctIDs_NoDup l : StronglySorted idLe l → distinctIDs l = true → NoDup l.
Proof.
  induction l as [|x l IH]; intros Hs Hd; [constructor|]. apply StronglySorted_inv in Hs as [Hs Hx].
  cbn [distinctIDs] in Hd. apply andb_true_iff in Hd as [Hd Hl]. apply andb_true_iff in Hd as [_ Hne].
  apply NoDup_cons. split; [|by apply IH]. intros Hin. destruct l as [|y l]; [set_solver|].
  breflect_in Hne. apply Hne. rewrite Forall_forall in Hx. apply StronglySorted_inv in Hs as [_ Hy].
  rewrite Forall_forall in Hy. apply strLe_antisym; [apply (Hx y); set_solver|].
  apply elem_of_cons in Hin as [->|Hin]; [apply (Hx y); set_solver|by apply Hy].
Qed.

Lemma sortIDs_sorted l : StronglySorted idLe (sortIDs l).
Proof.
  assert (Total idLe).
  { intros a b. unfold idLe. destruct (strLe a b) eqn:E; [by left|right; by apply strLe_total]. }
  assert (Transitive idLe) by (intros a b c; apply strLe_trans).
  by apply StronglySorted_merge_sort.
Qed.

(** C37: a bulk request is all or nothing: whatever fails, either the database is unchanged or every finding it names moved together, one decision revision each, with one history event each and no other finding touched. An accepted-risk request moves a finding only from the revision the caller saw for it, to accepted risk with the requested expiry, leaving owner and workflow state alone; any other request leaves dispositions alone. An acknowledged request did move them. *)
Theorem bulk_all_or_nothing workspace actor i env n db r db' n' :
  bulkPatchFindings workspace actor i env n db = mkOut r db' n' →
  let moved :=
    (∀ id, id ∈ FindingIDs i → ∃ f f', t_findings db !! id = Some f ∧ f_workspace_id f = workspace ∧
       t_findings db' !! id = Some f' ∧ bulk_moved i id f f') ∧
    (∀ id, id ∉ FindingIDs i → t_findings db' !! id = t_findings db !! id) ∧
    size (t_decisionEvents db') = (size (t_decisionEvents db) + length (FindingIDs i))%nat ∧
    NoDup (FindingIDs i) in
  (db' = db ∨ moved) ∧ (is_ok r = true → moved).
Proof.
  intros H moved. apply bulk_shape in H as [[-> Hr]|(Hv & Hd & Hx & n1 & ys & n2 & Hm)].
  { split; [by left|congruence]. }
  assert (moved) as Hmoved; [|split; auto].
  pose proof (distinctIDs_NoDup _ (sortIDs_sorted _) Hd) as Hnd.
  apply bulk_run in Hm as (Hin & Hout & Hsz); [|done..].
  assert (sortIDs (FindingIDs i) ≡ₚ FindingIDs i) as Hperm by apply merge_sort_Permutation.
  subst moved. split_and!.
  - intros id Hid. apply Hin. by rewrite Hperm.
  - intros id Hid. apply Hout. by rewrite Hperm.
  - by rewrite Hsz, Hperm.
  - by rewrite <-Hperm.
Qed.

(** ** Witnesses *)

Definition findingHex : string := "000000000000000000000000000000f1".
Definition otherHex : string := "000000000000000000000000000000f2".
Definition decisionDB : DB :=
  with_users (t_users viewDB) (with_memberships (t_memberships viewDB) (with_workspaces (t_workspaces viewDB)
  (with_assets (t_assets workDB)
  (with_findings {[findingHex := exampleFinding "a"; otherHex := exampleFinding "a"]} emptyDB)))).

Lemma decisionDB_ok : decisions_ok decisionDB.
Proof.
  apply (human_kept_ok emptyDB).
  - split; [done|]. split; [done|]. split.
    + intros id f H. simpl in H. by rewrite lookup_empty in H.
    + intros id f _ H. simpl in H.
      apply lookup_insert_Some in H as [[_ <-]|[_ H]]; [done|]. by apply lookup_singleton_Some in H as [_ <-].
  - split; intros i x H; simpl in H; by rewrite lookup_empty in H.
Qed.

Definition suppressPatch : findingDecisionPatch :=
  {| patchOwnerID := absentField; patchWorkflowState := field (Some "in-progress");
     patchDisposition := field (Some "suppressed"); patchAcceptedRiskExpiresAt := absentField;
     patchDispositionScope := field (Some "asset"); patchSuppressionExpiresAt := field (Some 9000000);
     patchRationale := "test asset"; ExpectedRevision := None; RejectNoChange := false |}.
Definition suppressed : storedFindingDecision :=
  {| sdDecision := {| OwnerID := None; WorkflowState := "in-progress"; Disposition := "suppressed";
       AcceptedRiskExpiresAt := None; DispositionScope := "asset"; SuppressionExpiresAt := Some 9000000;
       DispositionRationale := "test asset" |};
     sdFindingID := findingHex; sdScope := f_scope (exampleFinding "a"); sdRevision := 2 |}.
Definition suppressRun : Out DB storedFindingDecision :=
  patchFinding "ws" "u" findingHex suppressPatch calm 0%nat decisionDB.

Lemma patch_read_back_witness :
  ∃ f', t_findings (out_db suppressRun) !! findingHex = Some f' ∧
    decisionOf (out_db suppressRun) findingHex f' = sdDecision suppressed.
Proof.
  destruct (patch_read_back "ws" "u" findingHex suppressPatch calm 0%nat decisionDB suppressed
    (out_db suppressRun) (out_tick suppressRun) decisionDB_ok) as (f & f' & eid & e & _ & _ & Ef & _ & Hd & _).
  - apply res_eta. vm_compute. reflexivity.
  - exists f'. split; [|exact Hd]. rewrite Ef. apply lookup_insert_eq.
Defined.

Definition acceptRisk : bulkInput :=
  {| FindingIDs := [otherHex; findingHex]; bulkOwnerID := absentField; bulkWorkflowState := absentField;
     DecisionRevisions := Some {[findingHex := "1"; otherHex := "1"]};
     bulkDisposition := field (Some "accepted-risk"); bulkAcceptedRiskExpiresAt := field None;
     bulkRationale := "accepted by the owner" |}.
Definition bulkRun : Out DB (list WorkItem) :=
  bulkPatchFindings "ws" "u" acceptRisk calm 0%nat decisionDB.

Lemma bulk_all_or_nothing_witness :
  is_ok (out_res bulkRun) = true ∧
  ∃ f f', t_findings decisionDB !! findingHex = Some f ∧ f_workspace_id f = "ws" ∧
    t_findings (out_db bulkRun) !! findingHex = Some f' ∧ bulk_moved acceptRisk findingHex f f'.
Proof.
  assert (is_ok (out_res bulkRun) = true) as Hok by (vm_compute; reflexivity). split; [exact Hok|].
  assert (bulkRun = mkOut (out_res bulkRun) (out_db bulkRun) (out_tick bulkRun)) as E by (by destruct bulkRun).
  destruct (bulk_all_or_nothing "ws" "u" acceptRisk calm 0%nat decisionDB _ _ _ E) as [_ H].
  destruct (H Hok) as (Hin & _). apply Hin. right. left.
Defined.
