(* ===== verification/Correlations.v ===== *)
(** * internal/app/finding_correlations.go: merging findings of several sources

    A correlation group joins findings of one asset reported by different
    sources under a primary finding; the others stop being work.  Merges and
    splits carry the revisions the caller saw and an idempotency key bound to
    the digest of the whole request. *)
From S2P Require Import Prelude GoLib Encoding Tx ReportAdapter Schema Auth Intake Paging Assets WorkViews Work Decisions.
Local Open Scope Z_scope.

Record FindingCorrelationMember := {
  mFindingID : string; mSourceID : string; mTitle : string; mSeverity : string; mActive : bool;
  mDecisionRevision : Z; mEvidenceRevision : Z; mObservationCount : Z; mNoteCount : Z;
  mDecision : FindingDecision; mOriginalDecision : FindingDecision }.
Record FindingCorrelationEvent := {
  xeID : string; xeType : string; xeActorID : string; xeRationale : string; xeCreatedAt : Z;
  xeDetailAvailability : string }.
Record FindingCorrelation := {
  corrID : string; corrWorkspaceID : string; corrPrimaryFindingID : string; corrState : string;
  corrRevision : Z; corrMembers : list FindingCorrelationMember; corrEvents : list FindingCorrelationEvent }.

Record correlationFinding := {
  cfMember : FindingCorrelationMember; cfScope : ScopeKey; cfCandidateURI : string; cfCandidateLine : Z }.
Definition cfID (c : correlationFinding) : string := mFindingID (cfMember c).
Definition cfDecision (c : correlationFinding) : FindingDecision := mDecision (cfMember c).

(** ** Requested decisions *)

Record findingDecisionInput := {
  inOwnerID : optional string; inWorkflowState : string; inDisposition : string;
  inAcceptedRiskExpiresAt : optional Z; inDispositionScope : string;
  inSuppressionExpiresAt : optional Z; inDispositionRationale : string }.

Definition findingScope (s : string) : bool := (s ==? "") || (s ==? "finding").

(** The fields each disposition admits, with its scope filled in. *)
Definition inputDisposition (d : FindingDecision) : option FindingDecision :=
  let risk := AcceptedRiskExpiresAt d in let suppression := SuppressionExpiresAt d in
  if Disposition d ==? "none" then
    if isSome risk || isSome suppression || negb (findingScope (DispositionScope d)) then None
    else Some (withDisposition d risk suppression "" "")
  else if Disposition d ==? "accepted-risk" then
    if match risk with Some t => IsZero t | None => false end || isSome suppression ||
       negb (findingScope (DispositionScope d)) then None
    else Some (withDisposition d risk suppression "finding" (DispositionRationale d))
  else if Disposition d ==? "suppressed" then
    if negb (validDispositionScope (DispositionScope d)) || isSome risk ||
       match suppression with Some t => IsZero t | None => true end then None
    else Some d
  else if Disposition d ==? "false-positive" then
    if isSome risk || isSome suppression || negb (findingScope (DispositionScope d)) then None
    else Some (withDisposition d risk suppression "finding" (DispositionRationale d))
  else Some d.

Definition decision (i : findingDecisionInput) : option FindingDecision :=
  if negb (IsSet (inOwnerID i)) || negb (IsSet (inAcceptedRiskExpiresAt i)) ||
     negb (validWorkflowState (inWorkflowState i)) || negb (validDisposition (inDisposition i))
  then None
  else match inputDisposition {| OwnerID := Value (inOwnerID i); WorkflowState := inWorkflowState i;
               Disposition := inDisposition i; AcceptedRiskExpiresAt := Value (inAcceptedRiskExpiresAt i);
               DispositionScope := inDispositionScope i; SuppressionExpiresAt := Value (inSuppressionExpiresAt i);
               DispositionRationale := inDispositionRationale i |} with
       | None => None
       | Some d =>
           if (Disposition d !=? "none") && (DispositionRationale d !=? "") &&
              negb (validText (DispositionRationale d) 8192)
           then None else Some d
       end.

(** ** Comparing decisions *)

Definition sameDecision (l r : FindingDecision) : bool :=
  (OwnerID l ==? OwnerID r) && (WorkflowState l ==? WorkflowState r) && (Disposition l ==? Disposition r) &&
  (AcceptedRiskExpiresAt l ==? AcceptedRiskExpiresAt r) && (DispositionScope l ==? DispositionScope r) &&
  (SuppressionExpiresAt l ==? SuppressionExpiresAt r) && (DispositionRationale l ==? DispositionRationale r).

Definition correlationConflicts (l r : FindingDecision) : list string :=
  (if OwnerID l ==? OwnerID r then [] else ["ownerId"]) ++
  (if WorkflowState l ==? WorkflowState r then [] else ["workflowState"]) ++
  (if Disposition l ==? Disposition r then [] else ["disposition"]) ++
  (if AcceptedRiskExpiresAt l ==? AcceptedRiskExpiresAt r then [] else ["acceptedRiskExpiresAt"]) ++
  (if DispositionScope l ==? DispositionScope r then [] else ["dispositionScope"]) ++
  (if SuppressionExpiresAt l ==? SuppressionExpiresAt r then [] else ["suppressionExpiresAt"]) ++
  (if DispositionRationale l ==? DispositionRationale r then [] else ["dispositionRationale"]).

(** ** JSON of decisions and requests *)

Definition decisionJSON (d : FindingDecision) : option JSON :=
  match optionTime (AcceptedRiskExpiresAt d), optionTime (SuppressionExpiresAt d) with
  | Some risk, Some suppression =>
      Some (JObject [("ownerId", match OwnerID d with Some o => JString o | None => JNull end);
        ("workflowState", JString (WorkflowState d)); ("disposition", JString (Disposition d));
        ("acceptedRiskExpiresAt", risk); ("dispositionScope", JString (DispositionScope d));
        ("suppressionExpiresAt", suppression); ("dispositionRationale", JString (DispositionRationale d))])
  | _, _ => None
  end.

Definition correlationDigest (value : option JSON) : Res (list N) :=
  match value with Some v => Ok (Sum256 (bytes (marshal v))) | None => Err ErrDecode end.

(** ** Reading findings and groups *)

Definition memberOf (db : DB) (id : string) (f : FindingRow) (original : FindingDecision) (active : bool)
    : FindingCorrelationMember :=
  {| mFindingID := id; mSourceID := f_source_id f; mTitle := p_title (f_projection f);
     mSeverity := p_severity (f_projection f); mActive := active;
     mDecisionRevision := d_decision_revision (f_decision f); mEvidenceRevision := f_evidence_revision f;
     mObservationCount := countRows (λ _ o, (ob_workspace_id o ==? f_workspace_id f) && (ob_finding_id o ==? id)) (t_observations db);
     mNoteCount := countRows (λ _ n, (n_workspace_id n ==? f_workspace_id f) && (n_finding_id n ==? id)) (t_notes db);
     mDecision := decisionOf db id f; mOriginalDecision := original |}.

Definition scanCorrelationFinding (db : DB) (id : string) (f : FindingRow) : correlationFinding :=
  {| cfMember := memberOf db id f (decisionOf db id f) true; cfScope := f_scope f;
     cfCandidateURI := f_candidate_uri f; cfCandidateLine := f_candidate_line f |}.

Definition readCorrelationFinding (workspace id : string) : M DB correlationFinding :=
  query (λ _ db,
    match t_findings db !! id with
    | Some f => if f_workspace_id f ==? workspace then Ok (scanCorrelationFinding db id f) else Err ErrNoRows
    | None => Err ErrNoRows
    end).

(** The active group a finding is an unreleased member of. *)
Definition activeMember (workspace finding : string) (m : MemberRow) : bool :=
  (m_workspace_id m ==? workspace) && (m_finding_id m ==? finding) && negb (isSome (m_released m)).
Definition groupOf (db : DB) (m : MemberRow) : option CorrelationRow :=
  match t_correlations db !! m_correlation_id m with
  | Some c => if (g_workspace_id c ==? m_workspace_id m) && g_active c then Some c else None
  | None => None
  end.
Definition activeGroup (workspace finding : string) (db : DB) : option (string * CorrelationRow) :=
  match findRow (λ _ m, activeMember workspace finding m && isSome (groupOf db m)) (t_members db) with
  | Some (_, m) => (λ c, (m_correlation_id m, c)) <$> groupOf db m
  | None => None
  end.
Definition activeCorrelationMeta (workspace finding : string) : M DB (option (string * CorrelationRow)) :=
  query (λ _ db, Ok (activeGroup workspace finding db)).

(** The group a finding is in is led by another finding. *)
Definition ledByOther (group : option (string * CorrelationRow)) (finding : string) : bool :=
  match group with Some (_, c) => g_primary_finding_id c !=? finding | None => false end.

(** Members of a group, in ordinal order. *)
Definition groupMembers (workspace id : string) (db : DB) : list (string * MemberRow) :=
  rowsBy m_ordinal (λ _ m, (m_workspace_id m ==? workspace) && (m_correlation_id m ==? id)) (t_members db).

Definition loadMembers (workspace id : string) (db : DB) : list FindingCorrelationMember :=
  omap (λ r : string * MemberRow,
    match t_findings db !! m_finding_id r.2 with
    | Some f => if f_workspace_id f ==? workspace
                then Some (memberOf db (m_finding_id r.2) f (m_original_decision r.2) (negb (isSome (m_released r.2))))
                else None
    | None => None
    end) (groupMembers workspace id db).

Definition loadCorrelation (workspace id : string) : M DB FindingCorrelation :=
  c <- query (λ _ db,
    match t_correlations db !! id with
    | Some c => if g_workspace_id c ==? workspace then Ok c else Err ErrNoRows
    | None => Err ErrNoRows
    end) ;;
  members <- query (λ _ db, Ok (loadMembers workspace id db)) ;;
  events <- query (λ _ db, Ok ((λ r, {| xeID := r.1; xeType := x_event_type r.2; xeActorID := x_actor_id r.2;
      xeRationale := x_rationale r.2; xeCreatedAt := x_created_at r.2;
      xeDetailAvailability := dt_availability (x_detail r.2) |}) <$>
    rowsBy x_sequence (λ _ e, (x_workspace_id e ==? workspace) && (x_correlation_id e ==? id)) (t_correlationEvents db))) ;;
  ret {| corrID := id; corrWorkspaceID := workspace; corrPrimaryFindingID := g_primary_finding_id c;
         corrState := if g_active c then "active" else "split"; corrRevision := g_revision c;
         corrMembers := members; corrEvents := events |}.

Definition correlationActiveMemberIDs (members : list FindingCorrelationMember) : list string :=
  mFindingID <$> filter (λ m, mActive m = true) members.

Definition activeCorrelationForPrimary (workspace finding : string) : M DB (option FindingCorrelation) :=
  found <- query (λ _ db, Ok (findRow (λ _ c, (g_workspace_id c ==? workspace) &&
    (g_primary_finding_id c ==? finding) && g_active c) (t_correlations db))) ;;
  match found with
  | None => ret None
  | Some (id, _) => c <- loadCorrelation workspace id ;; ret (Some c)
  end.

(** ** Previews *)

Record FindingMergePreview := {
  pvPrimary : FindingCorrelationMember; pvOther : FindingCorrelationMember;
  pvConflicts : list string; pvCorrelation : option FindingCorrelation }.

(** A finding that may not join the group: already there, or its source is. *)
Definition occupied (other source : string) (members : list FindingCorrelationMember) : bool :=
  existsb (λ m, (mFindingID m ==? other) || mActive m && (mSourceID m ==? source)) members.

Definition correlationPreview (workspace primaryID otherID : string) : M DB FindingMergePreview :=
  guard (primaryID !=? otherID) errInvalid ;;;
  primary <- readCorrelationFinding workspace primaryID ;;
  other <- readCorrelationFinding workspace otherID ;;
  guard ((k_asset_id (cfScope primary) ==? k_asset_id (cfScope other)) &&
         (k_source_id (cfScope primary) !=? k_source_id (cfScope other))) errInvalid ;;;
  primaryGroup <- activeCorrelationMeta workspace primaryID ;;
  otherGroup <- activeCorrelationMeta workspace otherID ;;
  guard (negb (isSome otherGroup) && negb (ledByOther primaryGroup primaryID)) errConflict ;;;
  correlation <- match primaryGroup with
    | None => ret None
    | Some (id, _) =>
        c <- loadCorrelation workspace id ;;
        guard (negb (occupied otherID (k_source_id (cfScope other)) (corrMembers c))) errConflict ;;;
        ret (Some c)
    end ;;
  ret {| pvPrimary := cfMember primary; pvOther := cfMember other;
         pvConflicts := correlationConflicts (cfDecision primary) (cfDecision other);
         pvCorrelation := correlation |}.

Definition previewFindingMerge (workspace primary other : string) : M DB FindingMergePreview :=
  guard (validID other) errInvalid ;;;
  correlationPreview workspace primary other.

(** The findings [listCorrelationCandidates] offers: same asset, branch and
    exact location, another source, in no active group, not in this group. *)
Definition isCandidate (workspace primaryID cursor : string) (primary : correlationFinding)
    (group : option (string * CorrelationRow)) (db : DB) (id : string) (f : FindingRow) : bool :=
  (f_workspace_id f ==? workspace) && (f_asset_id f ==? k_asset_id (cfScope primary)) &&
  (ScopeBranch (k_scope (f_scope f)) ==? ScopeBranch (k_scope (cfScope primary))) &&
  (f_candidate_uri f ==? cfCandidateURI primary) && (f_candidate_line f =? cfCandidateLine primary) &&
  (id !=? primaryID) && strLt cursor id && (f_source_id f !=? k_source_id (cfScope primary)) &&
  negb (anyRow (λ _ m, activeMember workspace id m && isSome (groupOf db m)) (t_members db)) &&
  match group with
  | None => true
  | Some (g, _) =>
      negb (anyRow (λ _ m, (m_workspace_id m ==? workspace) && (m_correlation_id m ==? g) &&
              (m_finding_id m ==? id)) (t_members db)) &&
      negb (anyRow (λ _ m, (m_workspace_id m ==? workspace) && (m_correlation_id m ==? g) &&
              negb (isSome (m_released m)) &&
              match t_findings db !! m_finding_id m with
              | Some grouped => (f_workspace_id grouped ==? m_workspace_id m) && (f_source_id grouped ==? f_source_id f)
              | None => false
              end) (t_members db))
  end.

Definition listCorrelationCandidates (limit cursor workspace primaryID : string)
    : M DB (list correlationFinding * option string) :=
  p <- fromRes (pageParameters limit cursor) ;;
  guard (fst p <=? 100)%nat errInvalid ;;;
  primary <- readCorrelationFinding workspace primaryID ;;
  group <- activeCorrelationMeta workspace primaryID ;;
  guard (negb (ledByOther group primaryID)) errConflict ;;;
  if (cfCandidateURI primary ==? "") || (cfCandidateLine primary =? 0) then ret ([], None) else
  items <- query (λ _ db, Ok (take (fst p + 1) ((λ r, scanCorrelationFinding db r.1 r.2) <$>
    rowsById (isCandidate workspace primaryID (snd p) primary group db) (t_findings db)))) ;;
  ret (cutPage cfID (fst p) items).

(** ** Writing decisions *)

Definition lockCorrelationFindings (workspace primaryID otherID : string)
    : M DB (correlationFinding * correlationFinding) :=
  let '(a, b) := if strLe primaryID otherID then (primaryID, otherID) else (otherID, primaryID) in
  first <- readCorrelationFinding workspace a ;;
  second <- readCorrelationFinding workspace b ;;
  if cfID first ==? primaryID then ret (first, second) else ret (second, first).

(** [UPDATE findings ... WHERE decision_revision=$3 AND evidence_revision=$8]. *)
Definition updateCorrelated (workspace id : string) (d : FindingDecision) (decisionRevision evidenceRevision : Z) : M DB Z :=
  stmt (λ _ db,
    match t_findings db !! id with
    | Some f =>
        if (f_workspace_id f ==? workspace) && (d_decision_revision (f_decision f) =? decisionRevision) &&
           (f_evidence_revision f =? evidenceRevision) then
          if ownerMember workspace (OwnerID d) db
          then Ok (1, with_findings (<[id := setDecision f (decisionCols d (d_decision_revision (f_decision f) + 1))]>
                                      (t_findings db)) db)
          else Err ErrConstraint
        else Ok (0, db)
    | None => Ok (0, db)
    end).

Definition applyFindingDecision (workspace : string) (record : correlationFinding) (d : FindingDecision)
    (actor rationale : string) : M DB unit :=
  checkOwner workspace (OwnerID d) ;;;
  (if Disposition d !=? "none" then
     insertDispositionApproval workspace actor
       {| sdDecision := d; sdFindingID := cfID record; sdScope := cfScope record;
          sdRevision := mDecisionRevision (cfMember record) + 1 |} rationale
   else ret tt) ;;;
  affected <- updateCorrelated workspace (cfID record) d (mDecisionRevision (cfMember record))
                (mEvidenceRevision (cfMember record)) ;;
  guard (affected =? 1) errConflict.

Definition keyedEvent (workspace key : string) (e : CorrelationEventRow) : bool :=
  (x_workspace_id e ==? workspace) && (x_idempotency_key e ==? key).

(** [Some id]: the request was carried out before, for that group. *)
Definition correlationReplay (workspace key eventType : string) (digest : list N) : M DB (option string) :=
  query (λ _ db,
    match findRow (λ _ e, keyedEvent workspace key e) (t_correlationEvents db) with
    | None => Ok None
    | Some (_, e) =>
        if (x_event_type e !=? eventType) || (x_binding_digest e !=? digest) then Err errConflict
        else Ok (Some (x_correlation_id e))
    end).

(** ** Rows *)

Definition member (workspace user : string) (db : DB) : bool := isSome (t_memberships db !! (workspace, user)).
Definition groupIn (workspace id : string) (db : DB) : bool :=
  match t_correlations db !! id with Some c => g_workspace_id c ==? workspace | None => false end.

Definition insertCorrelation (id : string) (c : CorrelationRow) : M DB unit :=
  insertInto t_correlations with_correlations
    (requires (λ db, inWorkspace (g_workspace_id c) (g_primary_finding_id c) db &&
                     member (g_workspace_id c) (g_created_by c) db) ErrConstraint) id c.

Definition insertMember (id : string) (m : MemberRow) : M DB unit :=
  insertInto t_members with_members
    (λ db, if negb ((0 <=? m_ordinal m) && (m_ordinal m <=? 63) && groupIn (m_workspace_id m) (m_correlation_id m) db &&
                    inWorkspace (m_workspace_id m) (m_finding_id m) db && member (m_workspace_id m) (m_added_by m) db)
           then Some ErrConstraint
           else if anyRow (λ _ b, (m_workspace_id b ==? m_workspace_id m) &&
                     ((m_correlation_id b ==? m_correlation_id m) && (m_finding_id b ==? m_finding_id m) ||
                      (m_correlation_id b ==? m_correlation_id m) && (m_ordinal b =? m_ordinal m) ||
                      (m_finding_id b ==? m_finding_id m) && negb (isSome (m_released b)))) (t_members db)
           then Some ErrUnique else None)
    id m.

Definition insertCorrelationEvent (id : string) (e : CorrelationEventRow) : M DB unit :=
  insertInto t_correlationEvents with_correlationEvents
    (λ db, if negb ((0 <? x_sequence e) && (1 <=? len (x_rationale e)) && (len (x_rationale e) <=? 8192) &&
                    (length (x_binding_digest e) =? 32)%nat && groupIn (x_workspace_id e) (x_correlation_id e) db &&
                    member (x_workspace_id e) (x_actor_id e) db)
           then Some ErrConstraint
           else if anyRow (λ _ b, (x_workspace_id b ==? x_workspace_id e) &&
                     ((x_idempotency_key b ==? x_idempotency_key e) ||
                      (x_correlation_id b ==? x_correlation_id e) && (x_sequence b =? x_sequence e))) (t_correlationEvents db)
           then Some ErrUnique else None)
    id e.

(** [UPDATE finding_correlations SET state,revision=revision+1,updated_at
    WHERE revision=$3 AND state='active']: the rows affected. *)
Definition advanceGroup (workspace id : string) (revision at_ : Z) (active : bool) : M DB Z :=
  exec (λ _ db,
    match t_correlations db !! id with
    | Some c =>
        if (g_workspace_id c ==? workspace) && (g_revision c =? revision) && g_active c
        then (1, with_correlations (<[id := {| g_workspace_id := g_workspace_id c;
                g_primary_finding_id := g_primary_finding_id c; g_active := active; g_revision := g_revision c + 1;
                g_created_by := g_created_by c; g_created_at := g_created_at c; g_updated_at := at_ |}]>
              (t_correlations db)) db)
        else (0, db)
    | None => (0, db)
    end).

Definition releaseMember (at_ : Z) (by_ : string) (m : MemberRow) : MemberRow :=
  {| m_workspace_id := m_workspace_id m; m_correlation_id := m_correlation_id m; m_finding_id := m_finding_id m;
     m_ordinal := m_ordinal m; m_original_decision := m_original_decision m; m_added_at := m_added_at m;
     m_added_by := m_added_by m; m_released := Some (at_, by_) |}.

(** [UPDATE finding_correlation_members SET released_at,released_by WHERE P]. *)
Definition releaseMembers (P : MemberRow → bool) (at_ : Z) (by_ : string) : M DB Z :=
  exec (λ _ db, (countRows (λ _ m, P m) (t_members db),
    with_members (updateRows (λ _ m, P m) (releaseMember at_ by_) (t_members db)) db)).

(** An unreleased member of the group. *)
Definition inGroup (workspace group : string) (m : MemberRow) : bool :=
  (m_workspace_id m ==? workspace) && (m_correlation_id m ==? group) && negb (isSome (m_released m)).

(** ** Merging *)

Record mergeInput := {
  OtherFindingID : string; mgCorrelationRevision : Z; mgPrimaryDecisionRevision : Z;
  mgPrimaryEvidenceRevision : Z; OtherDecisionRevision : Z; OtherEvidenceRevision : Z;
  mgDecision : findingDecisionInput; mgRationale : string; mgIdempotencyKey : string }.

Definition mergeBinding (workspace actor primaryID : string) (i : mergeInput) (d : FindingDecision) : option JSON :=
  dj ← decisionJSON d;
  Some (JObject [("Workspace", JString workspace); ("Actor", JString actor); ("Primary", JString primaryID);
    ("Other", JString (OtherFindingID i)); ("Rationale", JString (mgRationale i)); ("Key", JString (mgIdempotencyKey i));
    ("CorrelationRevision", JInt (mgCorrelationRevision i)); ("PrimaryDecision", JInt (mgPrimaryDecisionRevision i));
    ("PrimaryEvidence", JInt (mgPrimaryEvidenceRevision i)); ("OtherDecision", JInt (OtherDecisionRevision i));
    ("OtherEvidence", JInt (OtherEvidenceRevision i)); ("Decision", dj)]).

Definition validMerge (primaryID : string) (i : mergeInput) : bool :=
  validID (OtherFindingID i) && (OtherFindingID i !=? primaryID) && (0 <=? mgCorrelationRevision i) &&
  (1 <=? mgPrimaryDecisionRevision i) && (1 <=? mgPrimaryEvidenceRevision i) &&
  (1 <=? OtherDecisionRevision i) && (1 <=? OtherEvidenceRevision i) &&
  validText (mgRationale i) 8192 && validText (mgIdempotencyKey i) 256.

Definition fromJSON (v : option JSON) : M DB JSON :=
  match v with Some v => ret v | None => throw ErrDecode end.

Definition newMember (workspace group : string) (ordinal at_ : Z) (by_ : string) (c : correlationFinding) : MemberRow :=
  {| m_workspace_id := workspace; m_correlation_id := group; m_finding_id := cfID c; m_ordinal := ordinal;
     m_original_decision := cfDecision c; m_added_at := at_; m_added_by := by_; m_released := None |}.

(** The first merge of a finding: a new group of two. *)
Definition createGroup (workspace actor : string) (primary other : correlationFinding) (d : FindingDecision)
    (i : mergeInput) (at_ : Z) : M DB (string * Z * option JSON) :=
  guard (mgCorrelationRevision i =? 0) errConflict ;;;
  gid <- newID ;;
  insertCorrelation gid {| g_workspace_id := workspace; g_primary_finding_id := cfID primary; g_active := true;
    g_revision := 1; g_created_by := actor; g_created_at := at_; g_updated_at := at_ |} ;;;
  guard (marshalable (cfDecision primary)) ErrDecode ;;;
  id0 <- newID ;;
  insertMember id0 (newMember workspace gid 0 at_ actor primary) ;;;
  guard (marshalable (cfDecision other)) ErrDecode ;;;
  id1 <- newID ;;
  insertMember id1 (newMember workspace gid 1 at_ actor other) ;;;
  ret (gid, 1,
    pj ← decisionJSON (cfDecision primary); oj ← decisionJSON (cfDecision other); dj ← decisionJSON d;
    Some (JObject (sortKeys [("primaryFindingId", JString (cfID primary)); ("otherFindingId", JString (cfID other));
      ("primaryDecision", pj); ("otherDecision", oj); ("selectedDecision", dj)]))).

(** A later merge: one more member of the group the primary leads. *)
Definition extendGroup (workspace actor gid : string) (primary other : correlationFinding) (d : FindingDecision)
    (i : mergeInput) (at_ : Z) : M DB (string * Z * option JSON) :=
  revision <- query (λ _ db,
    match t_correlations db !! gid with
    | Some c => if (g_workspace_id c ==? workspace) && g_active c then Ok (g_revision c) else Err ErrNoRows
    | None => Err ErrNoRows
    end) ;;
  guard (mgCorrelationRevision i =? revision) errConflict ;;;
  current <- loadCorrelation workspace gid ;;
  guard (negb (occupied (cfID other) (k_source_id (cfScope other)) (corrMembers current))) errConflict ;;;
  let ordinal := Z.of_nat (length (corrMembers current)) in
  guard (ordinal <=? 63) errTooLarge ;;;
  guard (marshalable (cfDecision other)) ErrDecode ;;;
  id1 <- newID ;;
  insertMember id1 (newMember workspace gid ordinal at_ actor other) ;;;
  affected <- advanceGroup workspace gid revision at_ true ;;
  guard (affected =? 1) errConflict ;;;
  ret (gid, revision + 1,
    dj ← decisionJSON d;
    Some (JObject (sortKeys [("state", JString "active"); ("primaryFindingId", JString (cfID primary));
      ("memberFindingIds", JArray (JString <$> correlationActiveMemberIDs (corrMembers current)));
      ("addedFindingId", JString (cfID other)); ("selectedDecision", dj)]))).

Definition mergeTx (workspace : string) (session : authenticatedSession) (primaryID : string) (i : mergeInput)
    (d : FindingDecision) (digest : list N) : M DB (Z * FindingCorrelation) :=
  let actor := UserID (SessUser session) in
  replay <- correlationReplay workspace (mgIdempotencyKey i) "merge" digest ;;
  match replay with
  | Some gid => c <- loadCorrelation workspace gid ;; ret (200, c)
  | None =>
      role <- sessionRole session workspace ;;
      guard (canWrite {| WorkspaceID := ""; WorkspaceName := ""; WorkspaceRole := role |}) errForbidden ;;;
      locked <- lockCorrelationFindings workspace primaryID (OtherFindingID i) ;;
      let '(primary, other) := locked in
      guard ((k_asset_id (cfScope primary) ==? k_asset_id (cfScope other)) &&
             (k_source_id (cfScope primary) !=? k_source_id (cfScope other)) &&
             (mDecisionRevision (cfMember primary) =? mgPrimaryDecisionRevision i) &&
             (mEvidenceRevision (cfMember primary) =? mgPrimaryEvidenceRevision i) &&
             (mDecisionRevision (cfMember other) =? OtherDecisionRevision i) &&
             (mEvidenceRevision (cfMember other) =? OtherEvidenceRevision i)) errConflict ;;;
      primaryGroup <- activeCorrelationMeta workspace primaryID ;;
      otherGroup <- activeCorrelationMeta workspace (OtherFindingID i) ;;
      guard (negb (isSome otherGroup) && negb (ledByOther primaryGroup primaryID)) errConflict ;;;
      applyFindingDecision workspace primary d actor (mgRationale i) ;;;
      at_ <- now ;;
      g <- match primaryGroup with
           | None => createGroup workspace actor primary other d i at_
           | Some (gid, _) => extendGroup workspace actor gid primary other d i at_
           end ;;
      let '(gid, sequence, beforeState) := g in
      before <- fromJSON beforeState ;;
      current <- loadCorrelation workspace gid ;;
      after <- fromJSON (dj ← decisionJSON d;
        Some (JObject (sortKeys [("state", JString "active"); ("primaryFindingId", JString primaryID);
          ("memberFindingIds", JArray (JString <$> correlationActiveMemberIDs (corrMembers current)));
          ("decision", dj)]))) ;;
      eid <- newID ;;
      insertCorrelationEvent eid {| x_workspace_id := workspace; x_correlation_id := gid; x_sequence := sequence;
        x_event_type := "merge"; x_actor_id := actor; x_rationale := mgRationale i;
        x_idempotency_key := mgIdempotencyKey i; x_binding_digest := digest; x_before_state := before;
        x_after_state := after; x_created_at := at_; x_detail := freshDetail |} ;;;
      c <- loadCorrelation workspace gid ;;
      ret (201, c)
  end.

Definition mergeFindings (workspace : string) (session : authenticatedSession) (primaryID : string) (i : mergeInput)
    : M DB (Z * FindingCorrelation) :=
  match decision (mgDecision i) with
  | None => throw errInvalid
  | Some d =>
      guard (validMerge primaryID i) errInvalid ;;;
      digest <- fromRes (correlationDigest (mergeBinding workspace (UserID (SessUser session)) primaryID i d)) ;;
      transaction (mergeTx workspace session primaryID i d digest)
  end.

(** ** Splitting *)

Record FindingSplitPreview := {
  spCorrelation : FindingCorrelation; spPrimary : FindingCorrelationMember; spMember : FindingCorrelationMember }.

Definition activeSplitPreview (workspace primaryID memberID : string) : M DB FindingSplitPreview :=
  gid <- query (λ _ db,
    match findRow (λ id c, (g_workspace_id c ==? workspace) && (g_primary_finding_id c ==? primaryID) && g_active c &&
            anyRow (λ _ m, inGroup workspace id m && (m_finding_id m ==? memberID)) (t_members db)) (t_correlations db) with
    | Some (id, _) => Ok id
    | None => Err ErrNoRows
    end) ;;
  c <- loadCorrelation workspace gid ;;
  guard (2 <=? length (correlationActiveMemberIDs (corrMembers c)))%nat errConflict ;;;
  (* the loop keeps the last match *)
  let pick id := last (filter (λ m, mActive m = true ∧ mFindingID m = id) (corrMembers c)) in
  match pick primaryID, (if memberID ==? primaryID then None else pick memberID) with
  | Some p, Some m => ret {| spCorrelation := c; spPrimary := p; spMember := m |}
  | _, _ => throw errNotFound
  end.

Definition previewFindingSplit (workspace primary memberID : string) : M DB FindingSplitPreview :=
  guard (validID memberID && (memberID !=? primary)) errInvalid ;;;
  activeSplitPreview workspace primary memberID.

Record splitInput := {
  MemberFindingID : string; slCorrelationRevision : Z; slPrimaryDecisionRevision : Z;
  slPrimaryEvidenceRevision : Z; MemberDecisionRevision : Z; MemberEvidenceRevision : Z;
  slPrimaryDecision : findingDecisionInput; slMemberDecision : findingDecisionInput;
  slRationale : string; slIdempotencyKey : string }.

Definition splitBinding (workspace actor primaryID : string) (i : splitInput) (pd md : FindingDecision) : option JSON :=
  pj ← decisionJSON pd; mj ← decisionJSON md;
  Some (JObject [("Workspace", JString workspace); ("Actor", JString actor); ("Primary", JString primaryID);
    ("Member", JString (MemberFindingID i)); ("Rationale", JString (slRationale i)); ("Key", JString (slIdempotencyKey i));
    ("Correlation", JInt (slCorrelationRevision i)); ("PrimaryDecisionRevision", JInt (slPrimaryDecisionRevision i));
    ("PrimaryEvidenceRevision", JInt (slPrimaryEvidenceRevision i));
    ("MemberDecisionRevision", JInt (MemberDecisionRevision i));
    ("MemberEvidenceRevision", JInt (MemberEvidenceRevision i)); ("PrimaryDecision", pj); ("MemberDecision", mj)]).

Definition validSplit (primaryID : string) (i : splitInput) : bool :=
  validID (MemberFindingID i) && (MemberFindingID i !=? primaryID) && (1 <=? slCorrelationRevision i) &&
  (1 <=? slPrimaryDecisionRevision i) && (1 <=? slPrimaryEvidenceRevision i) &&
  (1 <=? MemberDecisionRevision i) && (1 <=? MemberEvidenceRevision i) &&
  validText (slRationale i) 8192 && validText (slIdempotencyKey i) 256.

Definition splitTx (workspace : string) (session : authenticatedSession) (primaryID : string) (i : splitInput)
    (pd md : FindingDecision) (digest : list N) : M DB (Z * FindingCorrelation) :=
  let actor := UserID (SessUser session) in
  let memberID := MemberFindingID i in
  replay <- correlationReplay workspace (slIdempotencyKey i) "split" digest ;;
  match replay with
  | Some gid => c <- loadCorrelation workspace gid ;; ret (200, c)
  | None =>
      role <- sessionRole session workspace ;;
      guard (canWrite {| WorkspaceID := ""; WorkspaceName := ""; WorkspaceRole := role |}) errForbidden ;;;
      locked <- lockCorrelationFindings workspace primaryID memberID ;;
      let '(primary, member_) := locked in
      found <- query (λ _ db,
        match findRow (λ _ c, (g_workspace_id c ==? workspace) && (g_primary_finding_id c ==? primaryID) && g_active c)
                (t_correlations db) with
        | Some (id, c) => Ok (id, g_revision c)
        | None => Err ErrNoRows
        end) ;;
      let '(gid, revision) := found in
      guard (revision =? slCorrelationRevision i) errConflict ;;;
      members <- query (λ _ db, Ok (countRows (λ _ m, inGroup workspace gid m) (t_members db))) ;;
      guard (2 <=? members) errConflict ;;;
      present <- query (λ _ db, Ok (anyRow (λ _ m, inGroup workspace gid m && (m_finding_id m ==? memberID)) (t_members db))) ;;
      guard present errNotFound ;;;
      guard ((mDecisionRevision (cfMember primary) =? slPrimaryDecisionRevision i) &&
             (mEvidenceRevision (cfMember primary) =? slPrimaryEvidenceRevision i) &&
             (mDecisionRevision (cfMember member_) =? MemberDecisionRevision i) &&
             (mEvidenceRevision (cfMember member_) =? MemberEvidenceRevision i)) errConflict ;;;
      applyFindingDecision workspace primary pd actor (slRationale i) ;;;
      applyFindingDecision workspace member_ md actor (slRationale i) ;;;
      current <- loadCorrelation workspace gid ;;
      let beforeIDs := correlationActiveMemberIDs (corrMembers current) in
      at_ <- now ;;
      let terminal := members =? 2 in
      released <- releaseMembers (λ m, inGroup workspace gid m && (terminal || (m_finding_id m ==? memberID))) at_ actor ;;
      guard (released =? if terminal then 2 else 1) errConflict ;;;
      let afterIDs := if terminal then [] else filter (λ id, id ≠ memberID) beforeIDs in
      affected <- advanceGroup workspace gid revision at_ (negb terminal) ;;
      guard (affected =? 1) errConflict ;;;
      after <- fromJSON (pj ← decisionJSON pd; mj ← decisionJSON md;
        Some (JObject (sortKeys [("state", JString (if terminal then "split" else "active"));
          ("primaryFindingId", JString primaryID); ("memberFindingId", JString memberID);
          ("memberFindingIds", JArray (JString <$> afterIDs)); ("primaryDecision", pj); ("memberDecision", mj)]))) ;;
      eid <- newID ;;
      insertCorrelationEvent eid {| x_workspace_id := workspace; x_correlation_id := gid; x_sequence := revision + 1;
        x_event_type := "split"; x_actor_id := actor; x_rationale := slRationale i;
        x_idempotency_key := slIdempotencyKey i; x_binding_digest := digest;
        x_before_state := JObject (sortKeys [("state", JString "active"); ("primaryFindingId", JString primaryID);
          ("memberFindingIds", JArray (JString <$> beforeIDs))]);
        x_after_state := after; x_created_at := at_; x_detail := freshDetail |} ;;;
      c <- loadCorrelation workspace gid ;;
      ret (201, c)
  end.

Definition splitFinding (workspace : string) (session : authenticatedSession) (primaryID : string) (i : splitInput)
    : M DB (Z * FindingCorrelation) :=
  match decision (slPrimaryDecision i), decision (slMemberDecision i) with
  | Some pd, Some md =>
      guard (validSplit primaryID i) errInvalid ;;;
      digest <- fromRes (correlationDigest (splitBinding workspace (UserID (SessUser session)) primaryID i pd md)) ;;
      transaction (splitTx workspace session primaryID i pd md digest)
  | _, _ => throw errInvalid
  end.
