(* ===== verification/CorrelationProps.v ===== *)
(** * Properties of correlations, and of decisions under every request

    One step relation for all requests that write decisions or groups: patch,
    bulk patch, note, merge, split, report processing and asset deletion. *)
From S2P Require Import Prelude GoLib Encoding Tx ReportAdapter Schema Auth Intake Reconcile ImportWorker Paging Assets WorkViews Work Decisions DecisionProps Correlations.
Local Open Scope Z_scope.

(** ** Runs of the building blocks *)

Lemma loadCorrelation_inv workspace id env n db c db' n' :
  loadCorrelation workspace id env n db = mkOut (Ok c) db' n' →
  db' = db ∧ corrMembers c = loadMembers workspace id db ∧
  ∃ g, t_correlations db !! id = Some g ∧ g_workspace_id g = workspace.
Proof.
  unfold loadCorrelation. intros (g & ? & ? & [Hg ->]%query_inv & H)%bind_inv.
  apply bind_inv in H as (ms & ? & ? & [Hm ->]%query_inv & H).
  apply bind_inv in H as (es & ? & ? & [_ ->]%query_inv & H). apply ret_inv in H as [<- ->].
  injection Hm as <-. split_and!; [done..|]. destruct (t_correlations db !! id) as [g'|]; [|done].
  destruct (_ ==? _) eqn:E; [|done]. injection Hg as ->. breflect_in E. eauto.
Qed.

Lemma readCorrelationFinding_inv workspace id env n db c db' n' :
  readCorrelationFinding workspace id env n db = mkOut (Ok c) db' n' →
  db' = db ∧ ∃ f, t_findings db !! id = Some f ∧ f_workspace_id f = workspace ∧ c = scanCorrelationFinding db id f.
Proof.
  unfold readCorrelationFinding. intros [H ->]%query_inv. split; [done|].
  destruct (t_findings db !! id) as [f|]; [|done]. destruct (_ ==? _) eqn:E; [|done].
  injection H as <-. breflect_in E. eauto.
Qed.

Lemma lockCorrelationFindings_inv workspace p o env n db r db' n' :
  p ≠ o →
  lockCorrelationFindings workspace p o env n db = mkOut (Ok r) db' n' →
  db' = db ∧ ∃ fp fo, t_findings db !! p = Some fp ∧ f_workspace_id fp = workspace ∧
    t_findings db !! o = Some fo ∧ f_workspace_id fo = workspace ∧
    r = (scanCorrelationFinding db p fp, scanCorrelationFinding db o fo).
Proof.
  intros Hne. unfold lockCorrelationFindings. destruct (strLe p o).
  all: intros (a & ? & ? & (-> & fa & Ha & Hwa & ->)%readCorrelationFinding_inv & H)%bind_inv.
  all: apply bind_inv in H as (b & ? & ? & (-> & fb & Hb & Hwb & ->)%readCorrelationFinding_inv & H).
  all: cbn [cfID cfMember scanCorrelationFinding memberOf mFindingID] in H.
  - rewrite bool_decide_true in H by done. apply ret_inv in H as [<- ->]. eauto 10.
  - rewrite bool_decide_false in H by done. apply ret_inv in H as [<- ->]. eauto 10.
Qed.

(** What an accepted decision of a merge or split writes. *)
Definition decided (workspace actor rationale id : string) (revision : Z) (d : FindingDecision) (f : FindingRow)
    (db db' : DB) : Prop :=
  t_findings db !! id = Some f ∧ f_workspace_id f = workspace ∧ d_decision_revision (f_decision f) = revision ∧
  ∃ approvals,
    (if Disposition d ==? "none" then approvals = t_approvals db
     else ∃ aid a, approves workspace actor (if DispositionRationale d ==? "" then rationale else DispositionRationale d)
            {| sdDecision := d; sdFindingID := id; sdScope := f_scope f; sdRevision := revision + 1 |} a ∧
          t_approvals db !! aid = None ∧ approvals = <[aid := a]> (t_approvals db)) ∧
    db' = with_findings (<[id := setDecision f (decisionCols d (revision + 1))]> (t_findings db))
            (with_approvals approvals db).

Lemma applyFindingDecision_inv workspace record d actor rationale env n db x db' n' :
  applyFindingDecision workspace record d actor rationale env n db = mkOut (Ok x) db' n' →
  ∃ f, decided workspace actor rationale (cfID record) (mDecisionRevision (cfMember record)) d f db db'.
Proof.
  unfold applyFindingDecision. intros (? & ? & ? & ->%checkOwner_inv & H)%bind_inv.
  apply bind_inv in H as (? & db1 & ? & Ha & H).
  apply bind_inv in H as (affected & db2 & ? & Hu%stmt_inv & H).
  apply guard_inv in H as [Haff ->]. apply Z.eqb_eq in Haff. subst affected.
  assert (∃ approvals, db1 = with_approvals approvals db ∧
    if Disposition d ==? "none" then approvals = t_approvals db
    else ∃ aid a, approves workspace actor (if DispositionRationale d ==? "" then rationale else DispositionRationale d)
            {| sdDecision := d; sdFindingID := cfID record; sdScope := cfScope record;
               sdRevision := mDecisionRevision (cfMember record) + 1 |} a ∧
          t_approvals db !! aid = None ∧ approvals = <[aid := a]> (t_approvals db)) as (approvals & -> & Hap).
  { destruct (bool_decide_reflect (Disposition d = "none")) as [E|E]; simpl in Ha.
    - apply ret_inv in Ha as [_ ->]. exists (t_approvals db). split; [by destruct db|done].
    - apply insertDispositionApproval_inv in Ha as (aid & a & ? & ? & ->); [|done]. eauto 10. }
  simpl in Hu. destruct (t_findings db !! cfID record) as [f|] eqn:Ef; [|done].
  destruct (_ && _) eqn:Ec in Hu; [|done]. breflect_in Ec. destruct Ec as [[Ew Er] _].
  destruct (ownerMember _ _ _); [|done]. injection Hu as <-. rewrite Er.
  exists f. split_and!; try done. exists approvals. split; [|done].
  destruct (_ ==? _); [done|]. destruct Hap as (aid & a & Hav & ? & ->). exists aid, a. done.
Qed.

(** ** Decisions stay consistent *)

Definition well_formed (d : FindingDecision) : Prop :=
  validDisposition (Disposition d) = true ∧ validWorkflowState (WorkflowState d) = true ∧
  (is_Some (AcceptedRiskExpiresAt d) → Disposition d = "accepted-risk").

Lemma inputDisposition_risk d d' :
  inputDisposition d = Some d' → validDisposition (Disposition d) = true →
  Disposition d' = Disposition d ∧ WorkflowState d' = WorkflowState d ∧
  (is_Some (AcceptedRiskExpiresAt d') → Disposition d' = "accepted-risk").
Proof.
  unfold inputDisposition, validDisposition. intros H Hv. breflect_in Hv.
  destruct Hv as [[[Hv|Hv]|Hv]|Hv]; rewrite Hv in H; simpl in H;
    destruct (AcceptedRiskExpiresAt d) eqn:Er; simpl in H; rewrite ?orb_true_r in H; simpl in H; try done;
    repeat match type of H with (if ?c then _ else _) = _ => destruct c; [done|] end;
    injection H as <-; simpl; rewrite ?Hv, ?Er; split_and!; try done; by intros [].
Qed.

Lemma decision_well_formed i d : decision i = Some d → well_formed d.
Proof.
  unfold decision. destruct (_ || _) eqn:E; [done|].
  repeat (apply orb_false_iff in E as [E ?]). repeat match goal with H : negb _ = false |- _ => apply negb_false_iff in H end.
  destruct (inputDisposition _) as [d0|] eqn:Ei; [|done]. destruct (_ && _ && _); [done|]. intros [= <-].
  apply inputDisposition_risk in Ei as (G1 & G2 & G3); [|done]. simpl in *. split_and!; [by rewrite G1|by rewrite G2|done].
Qed.

Lemma decided_ok workspace actor rationale id revision d f db db' :
  decisions_ok db → well_formed d → decided workspace actor rationale id revision d f db db' → decisions_ok db'.
Proof.
  intros Hok (Hv & Hw & Hr) (Hf & Hws & Hrev & approvals & Hap & ->). subst revision.
  eapply (decisions_ok_move db _ id f (decisionCols d (d_decision_revision (f_decision f) + 1)));
    [done|done|simpl; lia|done|..].
  - simpl. destruct (_ ==? _); [by rewrite Hap|]. destruct Hap as (aid & a & _ & Hn & ->). by apply insert_subseteq.
  - simpl. intros i a Hi Hn. destruct (_ ==? _); [by rewrite Hap, Hn in Hi|].
    destruct Hap as (aid & b & Ha & _ & ->). apply lookup_insert_Some in Hi as [[<- <-]|[_ ?]]; [|congruence].
    destruct Ha as (E1 & E2 & E3 & _ & _ & _ & E4 & Hne & _ & Hs). simpl in *. rewrite E4, E3, Hws.
    split_and!; try done.
  - split_and!; [done..|]. simpl. intros Hn.
    match goal with |- is_Some (currentApproval ?ws _ _ _ ?x) =>
      change ws with (f_workspace_id f); set (db' := x) end. rewrite Hws.
    rewrite (bool_decide_false (Disposition d = "none")) in Hap by done.
    destruct Hap as (aid & a & Ha & Hna & ->).
    rewrite (currentApproval_new workspace id actor _ f d db db' aid a Hok Hf Hws Ha Hna) by done. eauto.
Qed.

(** What merges and splits do to the tables of decisions: nothing but accepted
    decisions; groups, members and events are other tables. *)
Definition same_decisions (db db' : DB) : Prop :=
  t_findings db' = t_findings db ∧ t_approvals db' = t_approvals db.
#[export] Instance same_decisions_preorder : PreOrder same_decisions.
Proof. split; [done|]. intros d1 d2 d3 [? ?] [? ?]. split; congruence. Qed.

Lemma same_decisions_ok db db' : same_decisions db db' → decisions_ok db → decisions_ok db'.
Proof.
  (* the invariant reads these two tables only *)
  intros [E1 E2] Hok. apply (human_kept_ok db (with_findings (t_findings db') (with_approvals (t_approvals db') db))); [|done].
  by apply human_kept_same.
Qed.

Lemma steps_loadCorrelation R `{!PreOrder R} ws id : Steps R (loadCorrelation ws id).
Proof. unfold loadCorrelation. steps. Qed.
Lemma steps_fromJSON R `{!PreOrder R} v : Steps R (fromJSON v).
Proof. unfold fromJSON. destruct v; steps. Qed.
#[export] Hint Resolve steps_loadCorrelation steps_fromJSON : steps.

(** A relation every run respects, for the result of a run. *)
Lemma run_steps {A} (R : DB → DB → Prop) (m : M DB A) env n db r db' n' :
  Steps R m → m env n db = mkOut r db' n' → R db db'.
Proof. intros Hs H. specialize (Hs env n db). by rewrite H in Hs. Qed.

(** Creating and extending groups writes groups and members only. *)
Section regrouping.
Context (R : DB → DB → Prop) `{!PreOrder R}.
Context (Hgroups : ∀ db x, R db (with_correlations x db)) (Hmembers : ∀ db x, R db (with_members x db)).

Lemma advanceGroup_steps ws id r t b : Steps R (advanceGroup ws id r t b).
Proof.
  apply steps_exec; [apply _|]. intros _ db. destruct (t_correlations db !! id); [|reflexivity].
  destruct (_ && _); [apply Hgroups|reflexivity].
Qed.
Lemma createGroup_steps ws actor p o d i t : Steps R (createGroup ws actor p o d i t).
Proof. unfold createGroup, insertCorrelation, insertMember. steps. all: apply steps_insertInto; [apply _|]; auto. Qed.
Lemma extendGroup_steps ws actor g p o d i t : Steps R (extendGroup ws actor g p o d i t).
Proof.
  unfold extendGroup, insertMember. steps.
  all: first [apply advanceGroup_steps | apply steps_insertInto; [apply _|]; auto].
Qed.
Lemma regroup_run ws actor (g : option (string * CorrelationRow)) p o d i t env n db r db' n' :
  match g with
  | None => createGroup ws actor p o d i t env n db
  | Some (gid, _) => extendGroup ws actor gid p o d i t env n db
  end = mkOut r db' n' → R db db'.
Proof.
  destruct g as [[gid ?]|]; intros H; [eapply run_steps; [apply (extendGroup_steps ws actor gid p o d i t)|exact H]|].
  eapply run_steps; [apply (createGroup_steps ws actor p o d i t)|exact H].
Qed.
End regrouping.

(** ** Merges *)

Definition recorded (workspace key eventType : string) (digest : list N) (e : CorrelationEventRow) : Prop :=
  x_workspace_id e = workspace ∧ x_idempotency_key e = key ∧ x_event_type e = eventType ∧ x_binding_digest e = digest.

(** The request was carried out before. *)
Definition replayed (workspace key eventType : string) (digest : list N) (db : DB) : Prop :=
  ∃ eid e, t_correlationEvents db !! eid = Some e ∧ recorded workspace key eventType digest e.

Lemma correlationReplay_inv workspace key ty digest env n db r db' n' :
  correlationReplay workspace key ty digest env n db = mkOut (Ok r) db' n' →
  db' = db ∧ (is_Some r → replayed workspace key ty digest db).
Proof.
  unfold correlationReplay. intros [H ->]%query_inv. split; [done|].
  destruct (findRow _ _) as [[eid e]|] eqn:E; [|injection H as <-; by intros []].
  apply findRow_Some in E as [He Hk]. destruct (_ || _) eqn:Ec in H; [done|]. intros _.
  exists eid, e. split; [done|]. unfold keyedEvent in Hk. breflect_in Hk. breflect_in Ec. unfold recorded. naive_solver.
Qed.

(** The event an acknowledged request leaves. *)
Definition leaves_event (workspace key eventType : string) (digest : list N) (db db' : DB) : Prop :=
  ∃ eid e, t_correlationEvents db !! eid = None ∧ recorded workspace key eventType digest e ∧
    groupIn workspace (x_correlation_id e) db = true ∧
    (∀ j b, t_correlationEvents db !! j = Some b → keyedEvent workspace key b = false) ∧
    db' = with_correlationEvents (<[eid := e]> (t_correlationEvents db)) db.

Lemma insertCorrelationEvent_inv id e env n db x db' n' :
  insertCorrelationEvent id e env n db = mkOut (Ok x) db' n' →
  leaves_event (x_workspace_id e) (x_idempotency_key e) (x_event_type e) (x_binding_digest e) db db'.
Proof.
  unfold insertCorrelationEvent. intros (Hc & Hn & ->)%insertInto_inv.
  destruct (negb _) eqn:Eb in Hc; [done|]. apply negb_false_iff in Eb. rewrite !andb_true_iff in Eb.
  destruct Eb as [[_ Hg] _]. destruct (anyRow _ _) eqn:Ea in Hc; [done|].
  exists id, e. split_and!; [done..| |done]. intros j b Hb.
  pose proof (proj1 (anyRow_false _ _) Ea j b Hb) as Hf. simpl in Hf. unfold keyedEvent.
  destruct (x_workspace_id b ==? _); [|done]. destruct (x_idempotency_key b ==? _); done.
Qed.

(** A merge that was not a replay. *)
Definition merges (workspace actor primaryID : string) (i : mergeInput) (d : FindingDecision) (digest : list N)
    (env : Env) (db db' : DB) : Prop :=
  ∃ fp fo db1 dbg gid seq bs at_ n1 n2,
    t_findings db !! primaryID = Some fp ∧ f_workspace_id fp = workspace ∧
    t_findings db !! OtherFindingID i = Some fo ∧ f_workspace_id fo = workspace ∧
    f_asset_id fp = f_asset_id fo ∧ f_source_id fp ≠ f_source_id fo ∧
    activeGroup workspace (OtherFindingID i) db = None ∧
    ledByOther (activeGroup workspace primaryID db) primaryID = false ∧
    decided workspace actor (mgRationale i) primaryID (d_decision_revision (f_decision fp)) d fp db db1 ∧
    match activeGroup workspace primaryID db with
    | None => createGroup workspace actor (scanCorrelationFinding db primaryID fp)
                (scanCorrelationFinding db (OtherFindingID i) fo) d i at_ env n1 db1
    | Some (g, _) => extendGroup workspace actor g (scanCorrelationFinding db primaryID fp)
                (scanCorrelationFinding db (OtherFindingID i) fo) d i at_ env n1 db1
    end = mkOut (Ok (gid, seq, bs)) dbg n2 ∧
    leaves_event workspace (mgIdempotencyKey i) "merge" digest dbg db'.

Lemma mergeTx_run workspace session primaryID i d digest env n db r db' n' :
  OtherFindingID i ≠ primaryID →
  mergeTx workspace session primaryID i d digest env n db = mkOut (Ok r) db' n' →
  (db' = db ∧ r.1 = 200 ∧ replayed workspace (mgIdempotencyKey i) "merge" digest db) ∨
  (r.1 = 201 ∧ merges workspace (UserID (SessUser session)) primaryID i d digest env db db').
Proof.
  intros Hne. unfold mergeTx. intros (replay & ? & ? & (-> & Hrep)%correlationReplay_inv & H)%bind_inv.
  destruct replay as [gid|].
  { apply bind_inv in H as (c & ? & ? & (-> & _)%loadCorrelation_inv & H). apply ret_inv in H as [<- ->].
    left. split_and!; [done..|]. apply Hrep. eauto. }
  apply bind_inv in H as (role & ? & ? & [-> _]%sessionRole_inv & H).
  apply bind_inv in H as (? & ? & ? & [_ ->]%guard_inv & H).
  apply bind_inv in H as (locked & ? & ? & Hl & H).
  apply lockCorrelationFindings_inv in Hl as (-> & fp & fo & Hp & Hwp & Ho & Hwo & ->); [|done].
  apply bind_inv in H as (? & ? & ? & [Hg ->]%guard_inv & H).
  apply bind_inv in H as (pg & ? & ? & [Hpg ->]%query_inv & H). injection Hpg as <-.
  apply bind_inv in H as (og & ? & ? & [Hog ->]%query_inv & H). injection Hog as <-.
  apply bind_inv in H as (? & ? & ? & [Hfree ->]%guard_inv & H).
  apply bind_inv in H as (? & db1 & ? & (f0 & Hd)%applyFindingDecision_inv & H).
  apply bind_inv in H as (at_ & ? & n1 & [_ ->]%now_inv & H).
  apply bind_inv in H as ([[gid seq] bs] & dbg & n2 & Hrun & H).
  apply bind_inv in H as (before & s1 & ? & Hb & H).
  pose proof (run_steps eq _ _ _ _ _ _ _ (steps_fromJSON eq bs) Hb) as <-. clear Hb.
  apply bind_inv in H as (cur & s2 & ? & (-> & _)%loadCorrelation_inv & H).
  apply bind_inv in H as (after & s3 & ? & Ha & H).
  pose proof (run_steps eq _ _ _ _ _ _ _ (steps_fromJSON eq _) Ha) as <-. clear Ha.
  apply bind_inv in H as (eid & ? & ? & [_ ->]%newID_inv & H).
  apply bind_inv in H as (? & s4 & ? & He%insertCorrelationEvent_inv & H).
  apply bind_inv in H as (c & ? & ? & (-> & _)%loadCorrelation_inv & H). apply ret_inv in H as [<- ->].
  right. split; [done|]. apply andb_true_iff in Hfree as [Hfo Hled]. apply negb_true_iff in Hfo, Hled.
  simpl in Hg. breflect_in Hg. destruct Hg as [[[[[Ea Es] _] _] _] _].
  change (cfID (scanCorrelationFinding db primaryID fp)) with primaryID in Hd.
  assert (f0 = fp) as -> by (destruct Hd as [Hd0 _]; congruence).
  exists fp, fo, db1, dbg, gid, seq, bs, at_, n1, n2. split_and!; try done.
  - by destruct (activeGroup workspace (OtherFindingID i) db).
  - by destruct (activeGroup workspace primaryID db) as [[? ?]|].
Qed.

(** ** Splits *)

(** A split that was not a replay: the group it is about, the decisions of the
    two findings, the members released, the group advanced. *)
Definition splits (workspace actor primaryID : string) (i : splitInput) (pd md : FindingDecision) (digest : list N)
    (db db' : DB) : Prop :=
  ∃ fp fm fm' db1 db2 gid c at_,
    let terminal := countRows (λ _ m, inGroup workspace gid m) (t_members db) =? 2 in
    let leaving m := inGroup workspace gid m && (terminal || (m_finding_id m ==? MemberFindingID i)) in
    t_findings db !! primaryID = Some fp ∧ t_findings db !! MemberFindingID i = Some fm ∧
    t_correlations db !! gid = Some c ∧ g_workspace_id c = workspace ∧ g_primary_finding_id c = primaryID ∧
    g_active c = true ∧
    2 ≤ countRows (λ _ m, inGroup workspace gid m) (t_members db) ∧
    anyRow (λ _ m, inGroup workspace gid m && (m_finding_id m ==? MemberFindingID i)) (t_members db) = true ∧
    decided workspace actor (slRationale i) primaryID (d_decision_revision (f_decision fp)) pd fp db db1 ∧
    decided workspace actor (slRationale i) (MemberFindingID i) (d_decision_revision (f_decision fm)) md fm' db1 db2 ∧
    leaves_event workspace (slIdempotencyKey i) "split" digest
      (with_correlations (<[gid := {| g_workspace_id := workspace; g_primary_finding_id := primaryID;
           g_active := negb terminal; g_revision := g_revision c + 1; g_created_by := g_created_by c;
           g_created_at := g_created_at c; g_updated_at := at_ |}]> (t_correlations db))
        (with_members (updateRows (λ _ m, leaving m) (releaseMember at_ actor) (t_members db)) db2)) db'.

(** Tables [decided] leaves alone. *)
Lemma decided_groups ws actor rat id rev d f db db' :
  decided ws actor rat id rev d f db db' →
  t_members db' = t_members db ∧ t_correlations db' = t_correlations db ∧
  t_correlationEvents db' = t_correlationEvents db.
Proof. intros (_ & _ & _ & approvals & _ & ->). done. Qed.

Lemma advanceGroup_inv ws gid revision at_ active env n db r db' n' :
  advanceGroup ws gid revision at_ active env n db = mkOut (Ok r) db' n' → r = 1 →
  ∃ c, t_correlations db !! gid = Some c ∧ g_workspace_id c = ws ∧ g_revision c = revision ∧ g_active c = true ∧
    db' = with_correlations (<[gid := {| g_workspace_id := g_workspace_id c;
      g_primary_finding_id := g_primary_finding_id c; g_active := active; g_revision := g_revision c + 1;
      g_created_by := g_created_by c; g_created_at := g_created_at c; g_updated_at := at_ |}]> (t_correlations db)) db.
Proof.
  unfold advanceGroup. intros H%exec_inv ->. destruct (t_correlations db !! gid) as [c|]; [|done].
  destruct (_ && _) eqn:E in H; [|done]. injection H as <-. breflect_in E. destruct E as [[? ?] ?]. eauto 10.
Qed.

Lemma splitTx_run workspace session primaryID i pd md digest env n db r db' n' :
  MemberFindingID i ≠ primaryID →
  splitTx workspace session primaryID i pd md digest env n db = mkOut (Ok r) db' n' →
  (db' = db ∧ r.1 = 200 ∧ replayed workspace (slIdempotencyKey i) "split" digest db) ∨
  (r.1 = 201 ∧ splits workspace (UserID (SessUser session)) primaryID i pd md digest db db').
Proof.
  intros Hne. unfold splitTx. intros (replay & ? & ? & (-> & Hrep)%correlationReplay_inv & H)%bind_inv.
  destruct replay as [gid|].
  { apply bind_inv in H as (c & ? & ? & (-> & _)%loadCorrelation_inv & H). apply ret_inv in H as [<- ->].
    left. split_and!; [done..|]. apply Hrep. eauto. }
  apply bind_inv in H as (role & ? & ? & [-> _]%sessionRole_inv & H).
  apply bind_inv in H as (? & ? & ? & [_ ->]%guard_inv & H).
  apply bind_inv in H as (locked & ? & ? & Hl & H).
  apply lockCorrelationFindings_inv in Hl as (-> & fp & fm & Hp & Hwp & Hm & Hwm & ->); [|done].
  apply bind_inv in H as ([gid revision] & ? & ? & [Hfound ->]%query_inv & H).
  destruct (findRow _ _) as [[gid' c]|] eqn:Ef in Hfound; [|done]. injection Hfound as -> <-.
  apply findRow_Some in Ef as [Hc Hprops]. breflect_in Hprops. destruct Hprops as [[Hcw Hcp] Hca].
  apply bind_inv in H as (? & ? & ? & [_ ->]%guard_inv & H).
  apply bind_inv in H as (members & ? & ? & [Hcount ->]%query_inv & H). injection Hcount as <-.
  apply bind_inv in H as (? & ? & ? & [Htwo ->]%guard_inv & H). apply Z.leb_le in Htwo.
  apply bind_inv in H as (present & ? & ? & [Hpres ->]%query_inv & H). injection Hpres as <-.
  apply bind_inv in H as (? & ? & ? & [Hpres ->]%guard_inv & H).
  apply bind_inv in H as (? & ? & ? & [_ ->]%guard_inv & H).
  apply bind_inv in H as (? & db1 & ? & (f0 & Hd1)%applyFindingDecision_inv & H).
  apply bind_inv in H as (? & db2 & ? & (fm' & Hd2)%applyFindingDecision_inv & H).
  apply bind_inv in H as (cur & ? & ? & (-> & _)%loadCorrelation_inv & H).
  apply bind_inv in H as (at_ & ? & ? & [_ ->]%now_inv & H). cbv zeta in H.
  apply bind_inv in H as (released & s1 & ? & Hrel & H).
  apply bind_inv in H as (? & ? & ? & [_ ->]%guard_inv & H).
  apply bind_inv in H as (affected & s2 & ? & Hadv & H).
  apply bind_inv in H as (? & ? & ? & [Haff ->]%guard_inv & H). apply Z.eqb_eq in Haff.
  apply bind_inv in H as (after & s3 & ? & Ha & H).
  pose proof (run_steps eq _ _ _ _ _ _ _ (steps_fromJSON eq _) Ha) as <-. clear Ha.
  apply bind_inv in H as (eid & ? & ? & [_ ->]%newID_inv & H).
  apply bind_inv in H as (? & s4 & ? & He%insertCorrelationEvent_inv & H).
  apply bind_inv in H as (c' & ? & ? & (-> & _)%loadCorrelation_inv & H). apply ret_inv in H as [<- ->].
  right. split; [done|].
  change (cfID (scanCorrelationFinding db primaryID fp)) with primaryID in Hd1.
  change (cfID (scanCorrelationFinding db (MemberFindingID i) fm)) with (MemberFindingID i) in Hd2.
  assert (f0 = fp) as -> by (destruct Hd1 as [Hd0 _]; congruence).
  destruct (decided_groups _ _ _ _ _ _ _ _ _ Hd1) as (M1 & G1 & _).
  destruct (decided_groups _ _ _ _ _ _ _ _ _ Hd2) as (M2 & G2 & _).
  unfold releaseMembers in Hrel. apply exec_inv in Hrel. injection Hrel as _ <-.
  apply advanceGroup_inv in Hadv as (c2 & Hc2 & _ & _ & _ & ->); [|done]. simpl in Hc2.
  rewrite G2, G1 in Hc2. rewrite Hc in Hc2. injection Hc2 as <-.
  exists fp, fm, fm', db1, db2, gid, c, at_. cbv zeta. split_and!; try done.
  simpl in He. rewrite G2, G1, M2, M1, Hcw, Hcp in He. exact He.
Qed.


(** ** Requests that write decisions or groups *)

Inductive decision_step (db : DB) : DB → Prop :=
  | ds_patch ws actor id p env n : decision_step db (out_db (patchFinding ws actor id p env n db))
  | ds_bulk ws actor i env n : decision_step db (out_db (bulkPatchFindings ws actor i env n db))
  | ds_note ws author id text env n : decision_step db (out_db (addNote ws author id text env n db))
  | ds_merge ws session id i env n : decision_step db (out_db (mergeFindings ws session id i env n db))
  | ds_split ws session id i env n : decision_step db (out_db (splitFinding ws session id i env n db))
  | ds_report others registry read ticks record env n :
      (∀ n db, human_kept db (others n db)) →
      decision_step db (out_db (processImport others registry read ticks record env n db))
  | ds_delete blocked ws id env n : decision_step db (out_db (deleteAsset blocked ws id env n db)).

Lemma validMerge_distinct id i : validMerge id i = true → OtherFindingID i ≠ id.
Proof. unfold validMerge. rewrite !andb_true_iff, negb_true_iff, bool_decide_eq_false. tauto. Qed.
Lemma validSplit_distinct id i : validSplit id i = true → MemberFindingID i ≠ id.
Proof. unfold validSplit. rewrite !andb_true_iff, negb_true_iff, bool_decide_eq_false. tauto. Qed.

Lemma mergeFindings_steps R `{!PreOrder R} ws session id i :
  (∀ d digest env n db r db' n', OtherFindingID i ≠ id → well_formed d →
     mergeTx ws session id i d digest env n db = mkOut (Ok r) db' n' → R db db') →
  Steps R (mergeFindings ws session id i).
Proof.
  intros Hm. unfold mergeFindings. destruct (decision _) as [d|] eqn:Ed; [|by apply steps_throw].
  apply steps_guarded; [apply _|]. intros Hv. apply steps_bind; [apply _|by apply steps_fromRes|]. intros digest.
  apply steps_transaction_ok; [apply _|]. intros. eapply Hm; [by apply validMerge_distinct|exact (decision_well_formed _ _ Ed)|eassumption].
Qed.

Lemma splitFinding_steps R `{!PreOrder R} ws session id i :
  (∀ pd md digest env n db r db' n', MemberFindingID i ≠ id → well_formed pd → well_formed md →
     splitTx ws session id i pd md digest env n db = mkOut (Ok r) db' n' → R db db') →
  Steps R (splitFinding ws session id i).
Proof.
  intros Hm. unfold splitFinding. destruct (decision (slPrimaryDecision i)) as [pd|] eqn:Ep; [|by apply steps_throw].
  destruct (decision (slMemberDecision i)) as [md|] eqn:Em; [|by apply steps_throw].
  apply steps_guarded; [apply _|]. intros Hv. apply steps_bind; [apply _|by apply steps_fromRes|]. intros digest.
  apply steps_transaction_ok; [apply _|]. intros. eapply Hm; [by apply validSplit_distinct|exact (decision_well_formed _ _ Ep)|exact (decision_well_formed _ _ Em)|eassumption].
Qed.

(** Patches and bulk patches are runs of [applyFindingDecisionPatch]. *)
Lemma patches_steps (I : DB → Prop) :
  (∀ ws id actor action p env n db sd db' n',
     applyFindingDecisionPatch ws id actor action p env n db = mkOut (Ok sd) db' n' → I db → I db') →
  (∀ ws actor id p, Steps (preserves I) (patchFinding ws actor id p)) ∧
  (∀ ws actor i, Steps (preserves I) (bulkPatchFindings ws actor i)).
Proof.
  intros HI. split.
  - intros ws actor id p. unfold patchFinding. apply steps_transaction_ok; [apply _|].
    intros env n db sd db' n' H Hi. exact (HI _ _ _ _ _ _ _ _ _ _ _ H Hi).
  - intros ws actor i env n db Hi. destruct (bulkPatchFindings ws actor i env n db) as [r db' n'] eqn:E. simpl.
    apply bulk_shape in E as [[-> _]|(_ & _ & _ & n1 & ys & n2 & Hm)]; [done|].
    eapply mapM_ok_invariant, Hi; [|exact Hm].
    intros id e k s sd s' k' H Hs. exact (HI _ _ _ _ _ _ _ _ _ _ _ H Hs).
Qed.

Lemma deleteAsset_steps (R : DB → DB → Prop) `{!PreOrder R} blocked ws id :
  (∀ db a, t_assets db !! id = Some a → a_workspace_id a = ws → correlated ws id db = false →
     R db (cascade ws id db)) →
  Steps R (deleteAsset blocked ws id).
Proof.
  intros HR. unfold deleteAsset. apply steps_bind; [apply _| |intros; by apply steps_guard].
  apply steps_stmt; [apply _|]. intros t db a db' H. destruct (t_assets db !! id) as [row|] eqn:E; [|by simplify_eq].
  destruct (bool_decide_reflect (a_workspace_id row = ws)); [|by simplify_eq].
  destruct (correlated ws id db) eqn:Ec; [done|]. destruct blocked; simplify_eq/=. by eapply HR.
Qed.

(** ** Decisions rest on approvals, whatever the requests *)

Lemma merges_decisions ws actor id i d digest env db db' :
  well_formed d → merges ws actor id i d digest env db db' → decisions_ok db → decisions_ok db'.
Proof.
  intros Hwf (fp & fo & db1 & dbg & gid & seq & bs & at_ & n1 & n2 & _ & _ & _ & _ & _ & _ & _ & _ & Hd & Hg & He) Hok.
  eapply decided_ok in Hd; [|done..]. apply (same_decisions_ok db1); [|done]. trans dbg.
  - by eapply (regroup_run same_decisions); [..|exact Hg].
  - by destruct He as (eid & e & _ & _ & _ & _ & ->).
Qed.

Lemma splits_decisions ws actor id i pd md digest db db' :
  well_formed pd → well_formed md → splits ws actor id i pd md digest db db' → decisions_ok db → decisions_ok db'.
Proof.
  intros Hp Hm (fp & fm & fm' & db1 & db2 & gid & c & at_ & _ & _ & _ & _ & _ & _ & _ & _ & Hd1 & Hd2 & He) Hok.
  eapply decided_ok in Hd1; [|done..]. eapply decided_ok in Hd2; [|done..].
  apply (same_decisions_ok db2); [|done]. by destruct He as (eid & e & _ & _ & _ & _ & ->).
Qed.

Lemma decision_step_ok db db' : decision_step db db' → decisions_ok db → decisions_ok db'.
Proof.
  destruct (patches_steps decisions_ok) as [Hpatch Hbulk]; [intros ws id actor action p; apply applyPatch_ok|].
  intros []; [apply Hpatch|apply Hbulk|apply addNote_ok|apply mergeFindings_steps; [apply _|]|
    apply splitFinding_steps; [apply _|]| |].
  - intros d digest e k s r s' k' Hne Hd [(-> & _)|[_ Hm]]%mergeTx_run Hok; [done| |done]. by eapply merges_decisions.
  - intros pd md digest e k s r s' k' Hne Hp Hm [(-> & _)|[_ Hs]]%splitTx_run Hok; [done| |done]. exact (splits_decisions _ _ _ _ _ _ _ _ _ Hp Hm Hs Hok).
  - by apply human_kept_ok, processImport_human.
  - apply deleteAsset_steps; [apply _|]. intros ? ? _ _ _. apply cascade_decisions.
Qed.

(** What a reader may rely on. *)
Definition supported (db : DB) (id : string) (f : FindingRow) : Prop :=
  let d := decisionOf db id f in
  validDisposition (Disposition d) = true ∧ validWorkflowState (WorkflowState d) = true ∧
  (is_Some (AcceptedRiskExpiresAt d) → Disposition d = "accepted-risk") ∧
  (Disposition d = "suppressed" ↔ is_Some (SuppressionExpiresAt d)) ∧
  (Disposition d ≠ "none" → DispositionRationale d ≠ "" ∧
     ∃ i a, t_approvals db !! i = Some a ∧ ap_workspace_id a = f_workspace_id f ∧ ap_finding_id a = id ∧
       ap_disposition a = Disposition d ∧ ap_rationale a = DispositionRationale d ∧
       ap_decision_revision a ≤ d_decision_revision (f_decision f)).

Lemma decisions_ok_supported db id f : decisions_ok db → t_findings db !! id = Some f → supported db id f.
Proof.
  intros [Hfs Has] Hf. destruct (Hfs id f Hf) as (Hv & Hw & Hr & Hc). unfold supported, decisionOf. simpl.
  destruct (decide (d_disposition (f_decision f) = "none")) as [E|Hn].
  - rewrite E in *. rewrite bool_decide_false by done. split_and!; try done; by intros [].
  - destruct (Hc Hn) as [a Ha]. rewrite Ha. simpl. pose proof (currentApproval_elem _ _ _ _ _ _ Ha) as (i & Hi & Ho).
    apply approvalOf_true in Ho as (E1 & E2 & E3 & E4). destruct (Has i a Hi) as (Hs & Hrat & _).
    assert (d_disposition (f_decision f) = "suppressed" → is_Some (ap_expires_at a)) as Hexp.
    { rewrite <-E3. unfold approvalSemantics in Hs. intros E. rewrite E in Hs. simpl in Hs.
      rewrite orb_false_r in Hs. by destruct (ap_expires_at a). }
    destruct (bool_decide_reflect (d_disposition (f_decision f) = "suppressed")) as [E|E].
    + split; [done|]. split; [done|]. split; [done|]. split; [by split; auto|]. intros _. split; [done|].
      exists i, a. by split_and!.
    + split; [done|]. split; [done|]. split; [done|]. split; [split; [done|by intros []]|]. intros _. split; [done|].
      exists i, a. by split_and!.
Qed.

(** C4: whatever sequence of patches, bulk patches, notes, merges, splits, report runs and asset deletions is run, in worlds where any statement or commit may fail, every finding's decision is well formed and supported: a disposition other than "none" rests on an approval of that very finding and disposition, given at or before the current revision, with a non-empty rationale, which is the rationale readers are shown; an expiry for accepted risk exists only for accepted risk, and a suppression always has an expiry. *)
Theorem decisions_supported db db' :
  decisions_ok db → rtc decision_step db db' →
  decisions_ok db' ∧ ∀ id f, t_findings db' !! id = Some f → supported db' id f.
Proof.
  intros Hok Hst. assert (decisions_ok db') as Hok'.
  { induction Hst; [done|]. eauto using decision_step_ok. }
  split; [done|]. intros id f. by apply decisions_ok_supported.
Qed.

(** ** Witness *)

Lemma decisions_supported_witness :
  ∃ f, t_findings (out_db suppressRun) !! findingHex = Some f ∧
    d_disposition (f_decision f) = "suppressed" ∧ supported (out_db suppressRun) findingHex f.
Proof.
  destruct (t_findings (out_db suppressRun) !! findingHex) as [f|] eqn:E.
  - exists f. split; [reflexivity|]. split.
    + assert ((d_disposition ∘ f_decision) <$> t_findings (out_db suppressRun) !! findingHex = Some "suppressed") as Hd
        by (vm_compute; reflexivity). rewrite E in Hd. by injection Hd.
    + refine (proj2 (decisions_supported decisionDB (out_db suppressRun) decisionDB_ok _) findingHex f E).
      apply rtc_once, ds_patch.
  - exfalso. assert (isSome (t_findings (out_db suppressRun) !! findingHex) = true) as Hs by (vm_compute; reflexivity).
    by rewrite E in Hs.
Defined.
