(* ===== verification/GroupProps.v ===== *)
(** * Correlation groups: one work item per group, requests carried out once

    The invariant of groups, members and their events, kept by every request
    that writes findings, decisions or groups; what it means for work lists;
    and what the idempotency key of a merge or split guarantees. *)
From S2P Require Import Prelude GoLib Encoding Tx ReportAdapter Schema Auth Intake Reconcile ImportWorker Paging Assets WorkViews Work Decisions DecisionProps Correlations CorrelationProps.
Local Open Scope Z_scope.

(** ** The invariant *)

(** A finding, by the fields groups depend on. *)
Definition located (db : DB) (id : string) (k : ScopeKey) : Prop :=
  ∃ f, t_findings db !! id = Some f ∧ f_scope f = k.

Definition together (k k' : ScopeKey) : Prop := k_asset_id k = k_asset_id k' ∧ k_source_id k ≠ k_source_id k'.

(** Unreleased memberships. *)
Definition joined (db : DB) (i : string) (m : MemberRow) : Prop := t_members db !! i = Some m ∧ m_released m = None.

Record members_ok (db : DB) : Prop := {
  mb_group : ∀ i m, joined db i m → is_Some (groupOf db m);
  mb_finding : ∀ i m, joined db i m → ∃ k, located db (m_finding_id m) k ∧ k_workspace_id k = m_workspace_id m;
  mb_unique : ∀ i j m m', joined db i m → joined db j m' →
    m_workspace_id m = m_workspace_id m' → m_finding_id m = m_finding_id m' → i = j;
  mb_together : ∀ i j m m' k k', joined db i m → joined db j m' → i ≠ j →
    m_correlation_id m = m_correlation_id m' →
    located db (m_finding_id m) k → located db (m_finding_id m') k' → together k k' }.

(** Every active group has its primary and another member. *)
Definition led (db : DB) (g : string) (c : CorrelationRow) : Prop :=
  (∃ i m, t_members db !! i = Some m ∧ inGroup (g_workspace_id c) g m = true ∧ m_finding_id m = g_primary_finding_id c) ∧
  (∃ i m, t_members db !! i = Some m ∧ inGroup (g_workspace_id c) g m = true ∧ m_finding_id m ≠ g_primary_finding_id c).
Definition groups_led (db : DB) : Prop :=
  ∀ g c, t_correlations db !! g = Some c → g_active c = true → led db g c.

(** Events belong to a group; keys are used once. *)
Definition events_ok (db : DB) : Prop :=
  (∀ i e, t_correlationEvents db !! i = Some e →
     ∃ c, t_correlations db !! x_correlation_id e = Some c ∧ g_workspace_id c = x_workspace_id e) ∧
  (∀ i j e e', t_correlationEvents db !! i = Some e → t_correlationEvents db !! j = Some e' →
     x_workspace_id e = x_workspace_id e' → x_idempotency_key e = x_idempotency_key e' → i = j).

Definition groups_ok (db : DB) : Prop := members_ok db ∧ groups_led db ∧ events_ok db.

(** ** Requests that leave groups alone *)

Lemma inGroup_true ws g m :
  inGroup ws g m = true ↔ m_workspace_id m = ws ∧ m_correlation_id m = g ∧ m_released m = None.
Proof.
  unfold inGroup. rewrite !andb_true_iff, !bool_decide_eq_true, negb_true_iff. destruct (m_released m); naive_solver.
Qed.

Lemma located_fun db id k k' : located db id k → located db id k' → k = k'.
Proof. intros (f & Hf & <-) (f' & Hf' & <-). by simplify_eq. Qed.

(** Findings keep the fields groups depend on. *)
Definition located_kept (db db' : DB) : Prop := ∀ id k, located db id k → located db' id k.

(** The same memberships and groups; the members' findings are still there. *)
Lemma members_ok_ext db db' :
  members_ok db → t_members db' = t_members db → t_correlations db ⊆ t_correlations db' →
  (∀ i m k, joined db i m → located db (m_finding_id m) k → located db' (m_finding_id m) k) →
  members_ok db'.
Proof.
  intros [Hg Hf Hu Ht] Em Ec Hl. assert (∀ i m, joined db' i m ↔ joined db i m) as Hj by (intros; unfold joined; by rewrite Em).
  split.
  - intros i m Hm%Hj. destruct (Hg i m Hm) as [c Hc]. exists c. unfold groupOf in *.
    destruct (t_correlations db !! m_correlation_id m) as [c'|] eqn:E; [|done].
    by rewrite (lookup_weaken _ _ _ _ E Ec).
  - intros i m Hm%Hj. destruct (Hf i m Hm) as (k & Hk & ?). exists k. split; [|done]. by apply (Hl i).
  - intros i j m m' Hm%Hj Hm'%Hj. by apply Hu.
  - intros i j m m' k k' Hm%Hj Hm'%Hj Hne E Hk Hk'.
    destruct (Hf i m Hm) as (k1 & Hk1 & _). destruct (Hf j m' Hm') as (k2 & Hk2 & _).
    rewrite (located_fun _ _ _ _ Hk (Hl _ _ _ Hm Hk1)), (located_fun _ _ _ _ Hk' (Hl _ _ _ Hm' Hk2)).
    exact (Ht i j m m' _ _ Hm Hm' Hne E Hk1 Hk2).
Qed.

Lemma groups_ok_kept db db' :
  groups_ok db → same_groups db db' →
  (∀ i m k, joined db i m → located db (m_finding_id m) k → located db' (m_finding_id m) k) →
  groups_ok db'.
Proof.
  intros (Hm & Hl & He) (Ec & Em & Ee) Hk. split_and!.
  - eapply members_ok_ext; [exact Hm|done|by rewrite Ec|exact Hk].
  - intros g c. rewrite Ec. intros Hc Ha. destruct (Hl g c Hc Ha) as [H1 H2]. unfold led. by rewrite Em.
  - unfold events_ok. by rewrite Ec, Ee.
Qed.

Lemma located_insert db db' id f f' :
  t_findings db !! id = Some f → f_scope f' = f_scope f → t_findings db' = <[id := f']> (t_findings db) →
  located_kept db db'.
Proof.
  intros Hf Es E j k (g & Hg & <-). unfold located. rewrite E, lookup_insert.
  destruct (decide (id = j)) as [<-|]; [|eauto]. simplify_eq. eauto.
Qed.

Lemma applyPatch_groups ws id actor action p env n db sd db' n' :
  applyFindingDecisionPatch ws id actor action p env n db = mkOut (Ok sd) db' n' → groups_ok db → groups_ok db'.
Proof.
  intros (f & t & d & Hf & _ & _ & _ & _ & _ & _ & approvals & eid & at_ & _ & _ & ->)%applyPatch_inv Hok.
  eapply groups_ok_kept; [exact Hok|done|]. intros _ m k _. revert k. generalize (m_finding_id m).
  eapply located_insert; [exact Hf| |reflexivity]; done.
Qed.

Lemma addNote_groups ws author id text : Steps (preserves groups_ok) (addNote ws author id text).
Proof.
  unfold addNote. steps.
  - apply steps_stmt; [apply _|]. intros t db r db' Hrun Hok. destruct (inWorkspace _ _ _); [|by simplify_eq].
    destruct (isSome _); [|done]. unfold insertRow in Hrun. destruct (t_notes db !! _); [done|]. simplify_eq.
    by eapply groups_ok_kept.
  - apply steps_exec; [apply _|]. intros t db Hok. eapply groups_ok_kept; [exact Hok|done|].
    intros _ m k _ (f & Hf & <-). unfold located. simpl. rewrite lookup_updateRows, Hf. simpl.
    eexists. split; [done|]. by destruct (_ && _).
Qed.

Lemma human_groups db db' : human_kept db db' → groups_ok db → groups_ok db'.
Proof.
  intros (_ & Hs & Hf & _) Hok. eapply groups_ok_kept; [exact Hok|done|].
  intros _ m k _ (f & Hm & <-). destruct (Hf _ _ Hm) as (f' & ? & ? & _). by exists f'.
Qed.

Lemma cascade_groups ws id db : correlated ws id db = false → groups_ok db → groups_ok (cascade ws id db).
Proof.
  intros Hc Hok. eapply groups_ok_kept; [exact Hok|done|]. intros i m k Hm (f & Hf & <-).
  destruct (mb_finding _ (proj1 Hok) i m Hm) as (k & Hk & Hw).
  rewrite <-(located_fun _ _ _ _ (ex_intro _ f (conj Hf eq_refl)) Hk) in Hw.
  apply orb_false_iff in Hc as [_ Hc]. destruct Hm as [Hm _].
  pose proof (proj1 (anyRow_false _ _) Hc i m Hm) as Hg. simpl in Hg.
  assert (finding_ok db (m_workspace_id m) (m_finding_id m)) as Hok' by (exists f; done).
  destruct (finding_ok_cascade ws id db _ _ Hok' Hg) as (f' & Hf' & _). exists f'. split; [done|].
  simpl in Hf'. apply lookup_deleteRows_Some in Hf' as [Hf' _]. by simplify_eq.
Qed.

Lemma decided_located ws actor rat id rev d f db db' :
  decided ws actor rat id rev d f db db' → located_kept db db' ∧ same_groups db db'.
Proof.
  intros (Hf & _ & _ & approvals & _ & ->). split; [|done]. eapply located_insert; [exact Hf| |reflexivity]; done.
Qed.

(** ** Merging *)

(** [insertMember] succeeded. *)
Definition inserted (i : string) (m : MemberRow) (db db' : DB) : Prop :=
  t_members db !! i = None ∧
  (∀ j b, joined db j b → m_workspace_id b = m_workspace_id m → m_finding_id b ≠ m_finding_id m) ∧
  db' = with_members (<[i := m]> (t_members db)) db.

Lemma insertMember_inv i m env n db x db' n' :
  insertMember i m env n db = mkOut (Ok x) db' n' → inserted i m db db'.
Proof.
  unfold insertMember. intros (Hc & Hn & ->)%insertInto_inv. destruct (negb _) in Hc; [done|].
  destruct (anyRow _ _) eqn:Ea in Hc; [done|]. split_and!; [done| |done]. intros j b [Hb Hr] Ew Ef.
  pose proof (proj1 (anyRow_false _ _) Ea j b Hb) as Hf. simpl in Hf.
  rewrite Ew, Ef, Hr, (bool_decide_true (m_workspace_id m = _)), (bool_decide_true (m_finding_id m = _)) in Hf by done.
  simpl in Hf. by rewrite orb_true_r in Hf.
Qed.

Lemma together_sym k k' : together k k' → together k' k.
Proof. intros []. split; congruence. Qed.

Lemma joined_inserted i m db db' j b :
  m_released m = None → inserted i m db db' → joined db' j b ↔ (j = i ∧ b = m) ∨ joined db j b.
Proof.
  intros Hr (Hn & _ & ->). unfold joined. simpl. rewrite lookup_insert_Some. split.
  - intros [[[-> ->]|[? ?]] ?]; auto.
  - intros [[-> ->]|[Hj ?]]; [auto|]. split; [|done]. right. split; [congruence|done].
Qed.

Lemma members_ok_insert i m k db db' :
  members_ok db → m_released m = None → inserted i m db db' →
  is_Some (groupOf db m) → located db (m_finding_id m) k → k_workspace_id k = m_workspace_id m →
  (∀ j b k', joined db j b → m_correlation_id b = m_correlation_id m → located db (m_finding_id b) k' → together k k') →
  members_ok db'.
Proof.
  intros [Hg Hf Hu Ht] Hr Hins Hgm Hk Hw Htog.
  pose proof (λ j b, joined_inserted i m db db' j b Hr Hins) as Hj. destruct Hins as (Hn & Hfree & ->).
  assert (∀ id k, located (with_members (<[i:=m]> (t_members db)) db) id k = located db id k) as El by done.
  split.
  - by intros j b [[-> ->]|Hb]%Hj; [|eapply Hg].
  - intros j b [[-> ->]|Hb]%Hj; [exists k; done|]. destruct (Hf j b Hb) as (k' & ? & ?). exists k'. done.
  - intros j j' b b' [[-> ->]|Hb]%Hj [[-> ->]|Hb']%Hj Ew Ef; [done| | |by eapply Hu].
    + destruct (Hfree j' b' Hb'); congruence.
    + destruct (Hfree j b Hb); congruence.
  - intros j j' b b' k1 k2 [[-> ->]|Hb]%Hj [[-> ->]|Hb']%Hj Hne Ec H1 H2; rewrite El in *; [done| | |by eapply (Ht j j')].
    + rewrite (located_fun _ _ _ _ H1 Hk). by eapply Htog.
    + rewrite (located_fun _ _ _ _ H2 Hk). apply together_sym. by eapply Htog.
Qed.

Lemma led_mono db db' g c : t_members db ⊆ t_members db' → led db g c → led db' g c.
Proof.
  intros Hs [(i & m & Hm & ?) (j & m' & Hm' & ?)].
  split; [exists i, m|exists j, m']; (split; [by eapply lookup_weaken|done]).
Qed.

Lemma activeGroup_Some ws finding db g c :
  activeGroup ws finding db = Some (g, c) →
  ∃ i m, joined db i m ∧ m_workspace_id m = ws ∧ m_finding_id m = finding ∧ m_correlation_id m = g ∧
    t_correlations db !! g = Some c ∧ g_workspace_id c = ws ∧ g_active c = true.
Proof.
  unfold activeGroup. destruct (findRow _ _) as [[i m]|] eqn:E; [|done].
  apply findRow_Some in E as [Hm Hp]. apply andb_true_iff in Hp as [Ha _]. unfold activeMember in Ha.
  rewrite !andb_true_iff, !bool_decide_eq_true, negb_true_iff in Ha. destruct Ha as [[Hw Hf] Hr].
  unfold groupOf. destruct (t_correlations db !! m_correlation_id m) as [c'|] eqn:Ec; [|done].
  destruct (_ && _) eqn:Eg; [|done]. intros [= <- <-]. breflect_in Eg. destruct Eg as [Eg Ea].
  exists i, m. split; [split; [done|by destruct (m_released m)]|]. split_and!; congruence.
Qed.

(** What creating a group does: a group, its primary, its other member. *)
Lemma createGroup_run ws actor p o d i at_ env n db r db' n' :
  createGroup ws actor p o d i at_ env n db = mkOut (Ok r) db' n' →
  ∃ gid c id0 id1 dbc db0,
    t_correlations db !! gid = None ∧ g_workspace_id c = ws ∧ g_primary_finding_id c = cfID p ∧ g_active c = true ∧
    dbc = with_correlations (<[gid := c]> (t_correlations db)) db ∧
    inserted id0 (newMember ws gid 0 at_ actor p) dbc db0 ∧
    inserted id1 (newMember ws gid 1 at_ actor o) db0 db'.
Proof.
  unfold createGroup. intros (? & ? & ? & [_ ->]%guard_inv & H)%bind_inv.
  apply bind_inv in H as (gid & ? & ? & [_ ->]%newID_inv & H).
  apply bind_inv in H as (? & dbc & ? & Hc & H). unfold insertCorrelation in Hc.
  apply insertInto_inv in Hc as (_ & Hn & Hdbc).
  apply bind_inv in H as (? & ? & ? & [_ ->]%guard_inv & H).
  apply bind_inv in H as (id0 & ? & ? & [_ ->]%newID_inv & H).
  apply bind_inv in H as (? & db0 & ? & H0%insertMember_inv & H).
  apply bind_inv in H as (? & ? & ? & [_ ->]%guard_inv & H).
  apply bind_inv in H as (id1 & ? & ? & [_ ->]%newID_inv & H).
  apply bind_inv in H as (? & db1 & ? & H1%insertMember_inv & H). apply ret_inv in H as [_ ->].
  eexists gid, _, id0, id1, dbc, db0. split; [exact Hn|].
  split; [|split; [|split; [|split; [exact Hdbc|by split]]]]; done.
Qed.

(** Extending one: the checks against its members, one more member, the row. *)
Lemma extendGroup_run ws actor g p o d i at_ env n db r db' n' :
  extendGroup ws actor g p o d i at_ env n db = mkOut (Ok r) db' n' →
  ∃ ordinal id1 db0 c c',
    occupied (cfID o) (k_source_id (cfScope o)) (loadMembers ws g db) = false ∧
    inserted id1 (newMember ws g ordinal at_ actor o) db db0 ∧
    t_correlations db !! g = Some c ∧ g_workspace_id c' = g_workspace_id c ∧
    g_primary_finding_id c' = g_primary_finding_id c ∧ g_active c' = true ∧
    db' = with_correlations (<[g := c']> (t_correlations db)) db0.
Proof.
  unfold extendGroup. intros (revision & ? & ? & [_ ->]%query_inv & H)%bind_inv.
  apply bind_inv in H as (? & ? & ? & [_ ->]%guard_inv & H).
  apply bind_inv in H as (cur & ? & ? & (-> & Hcur & _)%loadCorrelation_inv & H).
  apply bind_inv in H as (? & ? & ? & [Hocc ->]%guard_inv & H). cbv zeta in H.
  apply bind_inv in H as (? & ? & ? & [_ ->]%guard_inv & H).
  apply bind_inv in H as (? & ? & ? & [_ ->]%guard_inv & H).
  apply bind_inv in H as (id1 & ? & ? & [_ ->]%newID_inv & H).
  apply bind_inv in H as (? & db0 & ? & H1%insertMember_inv & H).
  apply bind_inv in H as (affected & db1 & ? & Hadv & H).
  apply bind_inv in H as (? & ? & ? & [Ha ->]%guard_inv & H). apply Z.eqb_eq in Ha.
  apply ret_inv in H as [_ ->]. apply advanceGroup_inv in Hadv as (c & Hc & _ & _ & _ & ->); [|done].
  rewrite Hcur in Hocc. apply negb_true_iff in Hocc.
  eexists _, id1, db0, c, _. split; [exact Hocc|]. split; [exact H1|].
  destruct H1 as (_ & _ & ->). simpl in Hc.
  split; [done|]. split; [|split; [|split; [|reflexivity]]]; done.
Qed.

(** Groups may be added, and rows of groups may advance. *)
Lemma members_ok_groups db db' :
  members_ok db → t_members db' = t_members db → t_findings db' = t_findings db →
  (∀ g c, t_correlations db !! g = Some c → ∃ c', t_correlations db' !! g = Some c' ∧
     g_workspace_id c' = g_workspace_id c ∧ (g_active c = true → g_active c' = true)) →
  members_ok db'.
Proof.
  intros [Hg Hf Hu Ht] Em Ef Hc.
  assert (∀ i m, joined db' i m ↔ joined db i m) as Hj by (intros; unfold joined; by rewrite Em).
  assert (∀ id k, located db' id k ↔ located db id k) as Hl by (intros; unfold located; by rewrite Ef).
  split.
  - intros i m Hm%Hj. destruct (Hg i m Hm) as [c E]. unfold groupOf in *.
    destruct (t_correlations db !! m_correlation_id m) as [c0|] eqn:E0; [|done].
    destruct (Hc _ _ E0) as (c' & -> & -> & Ha). destruct (_ ==? _); [|done]. simpl in *.
    destruct (g_active c0); [|done]. rewrite Ha by done. eauto.
  - intros i m Hm%Hj. destruct (Hf i m Hm) as (k & Hk%Hl & ?). eauto.
  - intros i j m m' Hm%Hj Hm'%Hj. by apply Hu.
  - intros i j m m' k k' Hm%Hj Hm'%Hj Hne E Hk%Hl Hk'%Hl. exact (Ht i j m m' k k' Hm Hm' Hne E Hk Hk').
Qed.

(** An unreleased member is among the members a group is loaded with. *)
Lemma loadMembers_joined ws g db j b k :
  joined db j b → m_workspace_id b = ws → m_correlation_id b = g →
  located db (m_finding_id b) k → k_workspace_id k = ws →
  ∃ x, x ∈ loadMembers ws g db ∧ mFindingID x = m_finding_id b ∧ mActive x = true ∧ mSourceID x = k_source_id k.
Proof.
  intros [Hb Hr] Hw Hg (f & Hf & <-) Hk.
  exists (memberOf db (m_finding_id b) f (m_original_decision b) true). split; [|done].
  unfold loadMembers. apply list_elem_of_omap. exists (j, b). split.
  - unfold groupMembers, rowsBy. rewrite merge_sort_Permutation, elem_of_rowsWhere. split; [done|].
    by rewrite !bool_decide_true.
  - simpl. rewrite Hf, bool_decide_true by done. by rewrite Hr.
Qed.

Lemma occupied_false other source ms x :
  occupied other source ms = false → x ∈ ms →
  mFindingID x ≠ other ∧ (mActive x = true → mSourceID x ≠ source).
Proof.
  intros Ho Hx. unfold occupied in Ho.
  assert ((mFindingID x ==? other) || mActive x && (mSourceID x ==? source) = false) as Hf.
  { destruct (_ || _) eqn:E; [|done].
    assert (existsb (λ m, (mFindingID m ==? other) || mActive m && (mSourceID m ==? source)) ms = true); [|congruence].
    apply existsb_exists. exists x. split; [by apply list_elem_of_In|done]. }
  apply orb_false_iff in Hf as [H1 H2]. breflect_in H1. split; [done|]. intros Ha.
  rewrite Ha in H2. simpl in H2. by apply bool_decide_eq_false in H2.
Qed.

(** Members and groups moved on together; nothing else did. *)
Definition regrouped (db db' : DB) : Prop :=
  members_ok db' ∧ groups_led db' ∧ t_findings db' = t_findings db ∧
  t_correlationEvents db' = t_correlationEvents db ∧
  (∀ g c, t_correlations db !! g = Some c →
     ∃ c', t_correlations db' !! g = Some c' ∧ g_workspace_id c' = g_workspace_id c).

Section merging.
Context (ws actor : string) (p o : correlationFinding) (kp ko : ScopeKey) (db : DB).
Context (Hmem : members_ok db) (Hled : groups_led db).
Context (Hp : located db (cfID p) kp) (Hwp : k_workspace_id kp = ws).
Context (Ho : located db (cfID o) ko) (Hwo : k_workspace_id ko = ws).
Context (Htog : together kp ko) (Hne : cfID o ≠ cfID p).

Lemma createGroup_ok d i at_ env n r db' n' :
  createGroup ws actor p o d i at_ env n db = mkOut (Ok r) db' n' →
  regrouped db db'.
Proof.
  intros (gid & c & id0 & id1 & dbc & db0 & Hn & Hcw & Hcp & Hca & Edbc & H0 & H1)%createGroup_run.
  assert (∀ j b, joined db j b → m_correlation_id b ≠ gid) as Hold.
  { intros j b Hb E. destruct (mb_group _ Hmem j b Hb) as [x Hx]. unfold groupOf in Hx. by rewrite E, Hn in Hx. }
  assert (members_ok dbc) as Mc.
  { subst dbc. apply (members_ok_groups db); [done..|]. intros g x Hx. exists x. split; [|done].
    simpl. by rewrite lookup_insert_ne by congruence. }
  assert (t_correlations dbc !! gid = Some c) as Hgid by (subst dbc; apply lookup_insert_eq).
  assert (t_members dbc = t_members db ∧ t_findings dbc = t_findings db) as [Em Ef] by (by subst dbc).
  assert (members_ok db0) as M0.
  { apply (members_ok_insert id0 (newMember ws gid 0 at_ actor p) kp dbc); [exact Mc|done|exact H0| |unfold located; by rewrite Ef|done|].
    - unfold groupOf. simpl. rewrite Hgid, bool_decide_true, Hca by done. eauto.
    - intros j b k' Hb E _. destruct (Hold j b); [|done]. unfold joined in *. by rewrite <-Em. }
  pose proof (λ j b, joined_inserted id0 (newMember ws gid 0 at_ actor p) dbc db0 j b eq_refl H0) as Hj0.
  destruct H0 as (Hn0 & _ & E0). destruct H1 as (Hn1 & Hf1 & E1).
  assert (members_ok db') as M1.
  { apply (members_ok_insert id1 (newMember ws gid 1 at_ actor o) ko db0); [exact M0|reflexivity|by split_and!| | |done|].
    - subst db0. unfold groupOf. simpl. rewrite Hgid, bool_decide_true, Hca by done. eauto.
    - subst db0. unfold located. simpl. by rewrite Ef.
    - intros j b k' [[-> ->]|Hb]%Hj0 E Hk'.
      + subst db0. unfold located in *. simpl in Hk'. rewrite Ef in Hk'.
        rewrite (located_fun _ _ _ _ Hk' Hp). by apply together_sym.
      + destruct (Hold j b); [|done]. unfold joined in *. by rewrite <-Em. }
  assert (t_members db' = <[id1 := newMember ws gid 1 at_ actor o]> (<[id0 := newMember ws gid 0 at_ actor p]> (t_members db))) as Emem.
  { subst db' db0. simpl. by rewrite Em. }
  assert (t_correlations db' = <[gid := c]> (t_correlations db)) as Ecor by (by subst).
  rewrite Em in Hn0. split; [done|]. split; [|split; [by subst|split; [by subst|]]].
  - intros g x. rewrite Ecor. intros [[<- <-]|[Hneg Hx]]%lookup_insert_Some Ha.
    + split.
      * exists id0, (newMember ws gid 0 at_ actor p). rewrite Emem. split_and!; [|by apply inGroup_true|done].
        rewrite lookup_insert_ne; [apply lookup_insert_eq|]. intros ->. subst db0. simpl in Hn1. by rewrite lookup_insert_eq in Hn1.
      * exists id1, (newMember ws gid 1 at_ actor o). rewrite Emem, Hcp. split_and!; [apply lookup_insert_eq|by apply inGroup_true|done].
    + apply (led_mono db); [|by apply Hled]. rewrite Emem. subst db0. simpl in Hn1. rewrite Em in Hn1.
      trans (<[id0 := newMember ws gid 0 at_ actor p]> (t_members db)); by apply insert_subseteq.
  - intros g x Hx. exists x. split; [|done]. rewrite Ecor, lookup_insert_ne by congruence. done.
Qed.

Lemma extendGroup_ok g d i at_ env n r db' n' :
  cfScope o = ko →
  (∃ i0 m0, joined db i0 m0 ∧ m_workspace_id m0 = ws ∧ m_finding_id m0 = cfID p ∧ m_correlation_id m0 = g) →
  (∃ c, t_correlations db !! g = Some c ∧ g_workspace_id c = ws ∧ g_active c = true) →
  extendGroup ws actor g p o d i at_ env n db = mkOut (Ok r) db' n' →
  regrouped db db'.
Proof.
  intros Hko (i0 & m0 & Hm0 & Hw0 & Hf0 & Hg0) (c & Hc & Hcw & Hca).
  intros (ordinal & id1 & db0 & c0 & c' & Hocc & Hins & Hc0 & Ew & Ep & Ha & ->)%extendGroup_run.
  rewrite Hc in Hc0. injection Hc0 as <-.
  assert (members_ok db0) as M0.
  { apply (members_ok_insert id1 (newMember ws g ordinal at_ actor o) ko db); [done|done|done| |done|done|].
    - unfold groupOf. simpl. rewrite Hc, bool_decide_true, Hca by done. eauto.
    - intros j b k' Hb E Hk'. simpl in E. apply together_sym. 
      destruct (mb_group _ Hmem j b Hb) as [x Hx]. unfold groupOf in Hx. rewrite E, Hc in Hx.
      destruct (_ && _) eqn:Eb in Hx; [|done]. breflect_in Eb. destruct Eb as [Eb _].
      destruct (mb_finding _ Hmem j b Hb) as (k1 & Hk1 & Hw1). pose proof (located_fun _ _ _ _ Hk' Hk1) as ->.
      destruct (loadMembers_joined ws g db j b k1) as (y & Hy & _ & Hact & Hsrc); [done|congruence|done..|congruence|].
      apply (occupied_false _ _ _ _ Hocc) in Hy as [_ Hy]. specialize (Hy Hact). rewrite Hko, Hsrc in Hy.
      split; [|done]. transitivity (k_asset_id kp); [|apply Htog].
      destruct (decide (j = i0)) as [->|Hji].
      + unfold joined in *. destruct Hb as [Hb _], Hm0 as [Hm0 _]. simplify_eq.
        f_equal. eapply located_fun; [exact Hk1|]. by rewrite Hf0.
      + eapply (mb_together _ Hmem j i0 b m0); [done..|congruence|done|by rewrite Hf0]. }
  assert (t_members db ⊆ t_members db0 ∧ t_correlations db0 = t_correlations db ∧ t_findings db0 = t_findings db ∧
    t_correlationEvents db0 = t_correlationEvents db) as (Sm & Ec & Ef & Ee).
  { destruct Hins as (Hn & _ & ->). split_and!; [|done..]. by apply insert_subseteq. }
  split; [|split; [|split; [done|split; [done|]]]].
  - apply (members_ok_groups db0); [done..|]. intros x cx. simpl. rewrite Ec. intros Hx. rewrite lookup_insert.
    destruct (decide (g = x)) as [<-|]; [|eauto]. simplify_eq. exists c'. by split_and!.
  - intros x cx. simpl. intros [[<- <-]|[Hx Hcx]]%lookup_insert_Some Hax.
    + apply (led_mono db); [done|]. destruct (Hled g c Hc Hca) as [H1 H2]. unfold led. by rewrite Ew, Ep.
    + apply (led_mono db); [done|]. by apply Hled.
  - intros x cx Hx. simpl. rewrite lookup_insert. destruct (decide (g = x)) as [<-|]; [|eauto]. simplify_eq. eauto.
Qed.
End merging.

Lemma events_ok_regrouped db db' : regrouped db db' → events_ok db → events_ok db'.
Proof.
  intros (_ & _ & _ & Ee & Hg) [H1 H2]. unfold events_ok. rewrite Ee. split; [|done]. intros i e He.
  destruct (H1 i e He) as (c & Hc & Hw). destruct (Hg _ _ Hc) as (c' & ? & ?). exists c'. split; congruence.
Qed.

Lemma keyedEvent_true ws key e : keyedEvent ws key e = true ↔ x_workspace_id e = ws ∧ x_idempotency_key e = key.
Proof. unfold keyedEvent. by rewrite andb_true_iff, !bool_decide_eq_true. Qed.

Lemma leaves_event_ok ws key ty digest db db' :
  leaves_event ws key ty digest db db' → groups_ok db → groups_ok db'.
Proof.
  intros (eid & e & Hn & (Ew & Ek & _) & Hg & Hfree & ->) (Hm & Hl & H1 & H2). split; [|split; [|split]].
  - eapply members_ok_ext; [exact Hm|done..].
  - exact Hl.
  - intros i x. simpl. intros [[<- <-]|[_ Hx]]%lookup_insert_Some; [|eauto].
    unfold groupIn in Hg. destruct (t_correlations db !! x_correlation_id e) as [c|]; [|done]. breflect_in Hg.
    exists c. split; congruence.
  - intros i j x y. simpl. intros [[<- <-]|[_ Hx]]%lookup_insert_Some [[<- <-]|[_ Hy]]%lookup_insert_Some Exw Exk;
      [done| | |by eapply H2].
    + assert (keyedEvent ws key y = true) by (apply keyedEvent_true; split; congruence). by rewrite (Hfree j y Hy) in *.
    + assert (keyedEvent ws key x = true) by (apply keyedEvent_true; split; congruence). by rewrite (Hfree i x Hx) in *.
Qed.

Lemma decided_groups_ok ws actor rat id rev d f db db' :
  decided ws actor rat id rev d f db db' → groups_ok db → groups_ok db'.
Proof.
  intros [Hl Hs]%decided_located Hok. eapply groups_ok_kept; [exact Hok|done|]. intros _ m k _. apply Hl.
Qed.

Lemma merges_groups ws actor id i d digest env db db' :
  OtherFindingID i ≠ id → merges ws actor id i d digest env db db' → groups_ok db → groups_ok db'.
Proof.
  intros Hne (fp & fo & db1 & dbg & gid & seq & bs & at_ & n1 & n2 & Hp & Hwp & Ho & Hwo & Ha & Hs & Hfo & Hled & Hd & Hrun & He) Hok.
  pose proof (decided_groups_ok _ _ _ _ _ _ _ _ _ Hd Hok) as (M1 & L1 & E1).
  destruct (decided_located _ _ _ _ _ _ _ _ _ Hd) as [Hl (Ec & Em & _)].
  eapply leaves_event_ok; [exact He|].
  assert (regrouped db1 dbg) as Hr; [|destruct (Hr) as (? & ? & _); split_and!; [done..|by eapply events_ok_regrouped]].
  assert (together (f_scope fp) (f_scope fo)) as Ht by done.
  assert (located db1 id (f_scope fp)) as Lp by (apply Hl; by exists fp).
  assert (located db1 (OtherFindingID i) (f_scope fo)) as Lo by (apply Hl; by exists fo).
  destruct (activeGroup ws id db) as [[g c]|] eqn:Eg.
  - apply activeGroup_Some in Eg as (i0 & m0 & Hj & ? & ? & ? & ? & ? & ?).
    eapply (extendGroup_ok ws actor (scanCorrelationFinding db id fp) (scanCorrelationFinding db (OtherFindingID i) fo));
      [exact M1|exact L1|exact Lp|exact Hwp|exact Lo|exact Hwo|exact Ht|done| |exists c; by rewrite Ec|exact Hrun].
    exists i0, m0. unfold joined in *. by rewrite Em.
  - eapply (createGroup_ok ws actor (scanCorrelationFinding db id fp) (scanCorrelationFinding db (OtherFindingID i) fo));
      [exact M1|exact L1|exact Lp|exact Hwp|exact Lo|exact Hwo|exact Ht|exact Hne|exact Hrun].
Qed.

(** ** Splitting *)

Lemma countRows_third {V} (P : string → V → bool) (m : gmap string V) i j :
  2 < countRows P m → ∃ k v, m !! k = Some v ∧ P k v = true ∧ k ≠ i ∧ k ≠ j.
Proof.
  intros Hc. destruct (decide (Exists (λ r : string * V, r.1 ≠ i ∧ r.1 ≠ j) (rowsWhere P m))) as [Hx|Hx].
  - apply Exists_exists in Hx as ([k v] & [? ?]%elem_of_rowsWhere & ? & ?). eauto 10.
  - exfalso. assert (NoDup (fst <$> rowsWhere P m)) as Hn.
    { apply NoDup_fmap_2_strong; [|apply NoDup_filter, NoDup_map_to_list].
      intros [k v] [k' v'] [Hv _]%elem_of_rowsWhere [Hv' _]%elem_of_rowsWhere E. simpl in *. by simplify_eq. }
    assert (fst <$> rowsWhere P m ⊆+ [i; j]) as Hs%submseteq_length.
    { apply NoDup_submseteq; [done|]. intros k ([k' v] & -> & Hk)%list_elem_of_fmap. simpl.
      destruct (decide (k' = i)) as [->|]; [set_solver|]. destruct (decide (k' = j)) as [->|]; [set_solver|].
      destruct Hx. apply Exists_exists. by exists (k', v). }
    rewrite length_fmap in Hs. unfold countRows in Hc. simpl in Hs. lia.
Qed.

Section splitting.
Context (ws gid primary leaver actor : string) (at_ : Z) (c c' : CorrelationRow) (db db' : DB).
Let terminal := countRows (λ _ m, inGroup ws gid m) (t_members db) =? 2.
Let leaving m := inGroup ws gid m && (terminal || (m_finding_id m ==? leaver)).
Context (Hok : groups_ok db) (Hc : t_correlations db !! gid = Some c) (Hw : g_workspace_id c = ws)
  (Hprimary : g_primary_finding_id c = primary) (Hactive : g_active c = true) (Hne : leaver ≠ primary)
  (Htwo : 2 ≤ countRows (λ _ m, inGroup ws gid m) (t_members db))
  (Hpresent : anyRow (λ _ m, inGroup ws gid m && (m_finding_id m ==? leaver)) (t_members db) = true)
  (Hw' : g_workspace_id c' = ws) (Hprimary' : g_primary_finding_id c' = primary) (Hactive' : g_active c' = negb terminal)
  (Hdb' : db' = with_correlations (<[gid := c']> (t_correlations db))
            (with_members (updateRows (λ _ m, leaving m) (releaseMember at_ actor) (t_members db)) db)).

Lemma stays i m : t_members db !! i = Some m → leaving m = false → t_members db' !! i = Some m.
Proof. intros Hm Hl. rewrite Hdb'. simpl. rewrite lookup_updateRows, Hm. simpl. by rewrite Hl. Qed.

Lemma joined_split i m : joined db' i m ↔ joined db i m ∧ leaving m = false.
Proof.
  split.
  - intros [Hm Hr]. rewrite Hdb' in Hm. simpl in Hm. rewrite lookup_updateRows in Hm.
    destruct (t_members db !! i) as [m0|] eqn:E; [|done]. simpl in Hm. destruct (leaving m0) eqn:El; by simplify_eq/=.
  - intros [[Hm Hr] Hl]. split; [by apply stays|done].
Qed.

(** A member of the group that stays is in a group that goes on. *)
Lemma split_members : members_ok db'.
Proof.
  destruct Hok as ([Hg Hf Hu Ht] & _). assert (∀ id k, located db' id k ↔ located db id k) as Hl by (intros; by rewrite Hdb').
  split.
  - intros i m [Hm Hs]%joined_split. destruct (Hg i m Hm) as [x Hx]. unfold groupOf in *. rewrite Hdb'. simpl.
    destruct (decide (m_correlation_id m = gid)) as [E|E].
    + rewrite E, lookup_insert_eq, Hw', Hactive'. rewrite E, Hc, Hw in Hx.
      destruct (bool_decide_reflect (ws = m_workspace_id m)) as [Ew|]; [|done]. simpl.
      destruct terminal eqn:Et; [|eauto]. exfalso. unfold leaving in Hs.
      rewrite (proj2 (inGroup_true ws gid m)) in Hs; [done|]. destruct Hm. by split_and!.
    + rewrite lookup_insert_ne by done. eauto.
  - intros i m [Hm _]%joined_split. destruct (Hf i m Hm) as (k & ? & ?). exists k. by rewrite Hl.
  - intros i j m m' [Hm _]%joined_split [Hm' _]%joined_split. by apply Hu.
  - intros i j m m' k k' [Hm _]%joined_split [Hm' _]%joined_split Hij E Hk%Hl Hk'%Hl.
    exact (Ht i j m m' k k' Hm Hm' Hij E Hk Hk').
Qed.

(** A group that goes on keeps its primary and, of three or more, another. *)
Lemma split_led : groups_led db'.
Proof.
  destruct Hok as (Hm & Hled & _). intros g x Hx Ha. rewrite Hdb' in Hx. simpl in Hx.
  apply lookup_insert_Some in Hx as [[<- <-]|[Hg Hx]].
  - rewrite Hactive' in Ha. apply negb_true_iff in Ha. destruct (Hled gid c Hc Hactive) as [(i & m & Hi & Hin & Hf) _].
    unfold led. rewrite Hw', Hprimary'. rewrite Hw in Hin. rewrite Hprimary in Hf. split.
    + exists i, m. split_and!; [|done..]. apply stays; [done|]. unfold leaving. rewrite Hin, Ha, Hf. simpl.
      by apply bool_decide_eq_false.
    + apply anyRow_true in Hpresent as (j & mj & Hj & Hp). apply andb_true_iff in Hp as [Hpin Hpf]. breflect_in Hpf.
      destruct (countRows_third (λ _ m, inGroup ws gid m) (t_members db) i j) as (k & mk & Hk & Hkin & Hki & Hkj).
      { unfold terminal in Ha. apply Z.eqb_neq in Ha. lia. }
      apply inGroup_true in Hin as (W1 & _ & R1), Hpin as (W2 & _ & R2). pose proof (proj1 (inGroup_true _ _ _) Hkin) as (W3 & _ & R3).
      assert (m_finding_id mk ≠ primary).
      { intros E. apply Hki. eapply (mb_unique _ Hm k i mk m); [done..|congruence|congruence]. }
      assert (m_finding_id mk ≠ leaver).
      { intros E. apply Hkj. eapply (mb_unique _ Hm k j mk mj); [done..|congruence|congruence]. }
      exists k, mk. split_and!; [|done..]. apply stays; [done|]. unfold leaving. rewrite Hkin, Ha. simpl.
      by apply bool_decide_eq_false.
  - assert (∀ i m, t_members db !! i = Some m → inGroup (g_workspace_id x) g m = true → t_members db' !! i = Some m) as Hst.
    { intros i m Hi (_ & Eg & _)%inGroup_true. apply stays; [done|]. unfold leaving, inGroup.
      rewrite (bool_decide_false (m_correlation_id m = gid)) by congruence. by rewrite andb_false_r. }
    destruct (Hled g x Hx Ha) as [(i & m & ? & ? & ?) (j & m' & ? & ? & ?)].
    split; [exists i, m|exists j, m']; auto.
Qed.

Lemma split_ok : groups_ok db'.
Proof.
  split; [apply split_members|]. split; [apply split_led|]. destruct Hok as (_ & _ & H1 & H2). split.
  - intros i e. rewrite Hdb'. simpl. intros He. destruct (H1 i e He) as (x & Hx & Ew). rewrite lookup_insert.
    destruct (decide (gid = x_correlation_id e)) as [E|]; [|eauto]. exists c'. rewrite <-E in Hx. split; congruence.
  - rewrite Hdb'. exact H2.
Qed.
End splitting.

Lemma splits_groups ws actor id i pd md digest db db' :
  MemberFindingID i ≠ id → splits ws actor id i pd md digest db db' → groups_ok db → groups_ok db'.
Proof.
  intros Hne (fp & fm & fm' & db1 & db2 & gid & c & at_ & _ & _ & Hc & Hw & Hp & Ha & Htwo & Hpres & Hd1 & Hd2 & He) Hok.
  pose proof (decided_groups_ok _ _ _ _ _ _ _ _ _ Hd2 (decided_groups_ok _ _ _ _ _ _ _ _ _ Hd1 Hok)) as Hok2.
  destruct (decided_groups _ _ _ _ _ _ _ _ _ Hd1) as (M1 & G1 & _).
  destruct (decided_groups _ _ _ _ _ _ _ _ _ Hd2) as (M2 & G2 & _). rewrite M1 in M2. rewrite G1 in G2.
  eapply leaves_event_ok; [exact He|]. clear He. rewrite <-G2. rewrite <-M2 in *. rewrite <-G2 in Hc.
  eapply (split_ok ws gid id (MemberFindingID i) actor at_ c _ db2);
    [exact Hok2|exact Hc|exact Hw|exact Hp|exact Ha|exact Hne|exact Htwo|exact Hpres| | | |reflexivity]; done.
Qed.

(** ** Every request keeps the groups *)

Lemma decision_step_groups db db' : decision_step db db' → groups_ok db → groups_ok db'.
Proof.
  destruct (patches_steps groups_ok) as [Hpatch Hbulk]; [intros ws id actor action p; apply applyPatch_groups|].
  intros []; [apply Hpatch|apply Hbulk|apply addNote_groups|apply mergeFindings_steps; [apply _|]|
    apply splitFinding_steps; [apply _|]| |].
  - intros d digest e k s r s' k' Hne Hd H Hok. apply mergeTx_run in H as [(-> & _)|[_ Hm]]; [done| |done].
    exact (merges_groups _ _ _ _ _ _ _ _ _ Hne Hm Hok).
  - intros pd md digest e k s r s' k' Hne Hp Hm H Hok. apply splitTx_run in H as [(-> & _)|[_ Hs]]; [done| |done].
    exact (splits_groups _ _ _ _ _ _ _ _ _ Hne Hs Hok).
  - by apply human_groups, processImport_human.
  - apply deleteAsset_steps; [apply _|]. intros ? ? _ _ Hc. by apply cascade_groups.
Qed.

Lemma joined_visible db i m f :
  members_ok db → joined db i m → t_findings db !! m_finding_id m = Some f →
  ∃ c, t_correlations db !! m_correlation_id m = Some c ∧ g_workspace_id c = m_workspace_id m ∧ g_active c = true ∧
    workVisible db (m_finding_id m) f = bool_decide (g_primary_finding_id c = m_finding_id m).
Proof.
  intros Hok Hm Hf. destruct (mb_group _ Hok i m Hm) as [c0 Hc]. unfold groupOf in Hc.
  destruct (t_correlations db !! m_correlation_id m) as [c|] eqn:Ec; [|done].
  destruct (_ && _) eqn:Eb in Hc; [|done]. breflect_in Eb. destruct Eb as [Ew Ea].
  destruct (mb_finding _ Hok i m Hm) as (k & (f' & Hf' & <-) & Hk). rewrite Hf in Hf'. injection Hf' as <-. exists c. split_and!; [done..|].
  unfold workVisible. apply eq_bool_prop_intro. rewrite !Is_true_true, negb_true_iff, bool_decide_eq_true, anyRow_false.
  destruct Hm as [Hm Hr]. unfold f_workspace_id. rewrite Hk. split.
  - intros Hall. specialize (Hall i m Hm). rewrite !(bool_decide_true (_ = _)), Hr, Ec in Hall by done. simpl in Hall.
    rewrite Ew, Ea, (bool_decide_true (m_workspace_id m = _)) in Hall by done. simpl in Hall.
    destruct (bool_decide_reflect (g_primary_finding_id c = m_finding_id m)); done.
  - intros Ep j b Hb. destruct (_ && _ && _) eqn:E; [|done]. exfalso.
    rewrite !andb_true_iff, !bool_decide_eq_true, negb_true_iff in E. destruct E as [[[E1 E2] E3] E4].
    assert (j = i) as ->.
    { apply (mb_unique _ Hok j i b m); [split; [done|]|by split|done|done]. by destruct (m_released b). }
    rewrite Hm in Hb. injection Hb as <-. by rewrite Ec, (bool_decide_true (g_primary_finding_id c = _)), andb_false_r in E4.
Qed.

(** The finding is a member, other than the primary, of an active group. *)
Definition absorbed (db : DB) (id : string) (f : FindingRow) : Prop :=
  ∃ i m c, joined db i m ∧ m_workspace_id m = f_workspace_id f ∧ m_finding_id m = id ∧
    t_correlations db !! m_correlation_id m = Some c ∧ g_workspace_id c = f_workspace_id f ∧ g_active c = true ∧
    g_primary_finding_id c ≠ id.

Lemma workVisible_absorbed db id f : workVisible db id f = false ↔ absorbed db id f.
Proof.
  unfold workVisible. rewrite negb_false_iff, anyRow_true. split.
  - intros (i & m & Hm & H). rewrite !andb_true_iff, !bool_decide_eq_true, negb_true_iff in H.
    destruct H as [[[E1 E2] E3] E4]. destruct (t_correlations db !! m_correlation_id m) as [c|] eqn:Ec; [|done].
    rewrite !andb_true_iff, bool_decide_eq_true, negb_true_iff, bool_decide_eq_false in E4. destruct E4 as [[E4 E5] E6].
    exists i, m, c. split; [split; [done|by destruct (m_released m)]|]. split_and!; congruence.
  - intros (i & m & c & [Hm Hr] & E1 & E2 & Ec & E3 & E4 & E5). exists i, m. split; [done|].
    rewrite Ec, Hr, E1, E2, E3, E4, !(bool_decide_true (_ = _)), (bool_decide_false (_ = id)) by done. done.
Qed.

(** C3: whatever sequence of patches, bulk patches, notes, merges, splits, report runs and asset deletions is run, in worlds where any statement or commit may fail: a finding belongs to at most one group at a time; each active group has its primary and at least one other member, all of one asset and of pairwise different sources; and it shows as exactly one work item, the primary: the primary is listed, every other member is not, and no finding is hidden for any other reason. *)
Theorem one_work_item_per_group db db' :
  groups_ok db → rtc decision_step db db' →
  groups_ok db' ∧
  (∀ g c, t_correlations db' !! g = Some c → g_active c = true →
     (∃ f, t_findings db' !! g_primary_finding_id c = Some f ∧ workVisible db' (g_primary_finding_id c) f = true) ∧
     (∃ i m, t_members db' !! i = Some m ∧ inGroup (g_workspace_id c) g m = true ∧ m_finding_id m ≠ g_primary_finding_id c) ∧
     (∀ i m, t_members db' !! i = Some m → inGroup (g_workspace_id c) g m = true → m_finding_id m ≠ g_primary_finding_id c →
        ∃ f, t_findings db' !! m_finding_id m = Some f ∧ workVisible db' (m_finding_id m) f = false)) ∧
  (∀ id f, workVisible db' id f = false ↔ absorbed db' id f).
Proof.
  intros Hok Hst. assert (groups_ok db') as Hok'.
  { induction Hst; [done|]. eauto using decision_step_groups. }
  split; [done|]. split; [|intros; apply workVisible_absorbed]. destruct Hok' as (Hm & Hl & _).
  assert (∀ g c i m, t_correlations db' !! g = Some c → t_members db' !! i = Some m → inGroup (g_workspace_id c) g m = true →
    ∃ f, t_findings db' !! m_finding_id m = Some f ∧
      workVisible db' (m_finding_id m) f = bool_decide (g_primary_finding_id c = m_finding_id m)) as Hv.
  { intros g c i m Hc Hi (Ew & Eg & Er)%inGroup_true. assert (joined db' i m) as Hj by done.
    destruct (mb_finding _ Hm i m Hj) as (k & (f & Hf & _) & _).
    destruct (joined_visible db' i m f Hm Hj Hf) as (c0 & Hc0 & _ & _ & Hvis). rewrite Eg, Hc in Hc0. injection Hc0 as <-. eauto. }
  intros g c Hc Ha. destruct (Hl g c Hc Ha) as [(i & m & Hi & Hin & Hp) H2]. split_and!; [|done|].
  - destruct (Hv g c i m Hc Hi Hin) as (f & Hf & E). rewrite Hp in *. exists f. split; [done|]. by rewrite E, bool_decide_true.
  - intros j b Hb Hbin Hne. destruct (Hv g c j b Hc Hb Hbin) as (f & Hf & E). exists f. split; [done|].
    by rewrite E, bool_decide_false.
Qed.

(** ** Witness *)

Definition scannedBy (source : string) : FindingRow :=
  let f := exampleFinding "a" in
  {| f_scope := {| k_workspace_id := "ws"; k_asset_id := "a"; k_source_id := source; k_scope := k_scope (f_scope f) |};
     f_identity_key := f_identity_key f; f_first_observed_at := f_first_observed_at f; f_projection := f_projection f;
     f_candidate_uri := f_candidate_uri f; f_candidate_line := f_candidate_line f; f_change := f_change f;
     f_source_freshness_at := f_source_freshness_at f; f_decision := f_decision f; f_evidence_revision := 1 |}.
Definition mergeDB : DB :=
  with_memberships {[("ws", "u") := "analyst"]} (with_sessions (t_sessions viewDB)
    (with_findings {[findingHex := scannedBy "sast"; otherHex := scannedBy "dast"]} decisionDB)).

Lemma mergeDB_ok : groups_ok mergeDB.
Proof.
  split; [|split].
  - split; unfold joined; simpl; intros; rewrite lookup_empty in *; naive_solver.
  - intros g c H. simpl in H. by rewrite lookup_empty in H.
  - split; simpl; intros; by rewrite lookup_empty in *.
Qed.

Definition asIs : findingDecisionInput :=
  {| inOwnerID := field None; inWorkflowState := "open"; inDisposition := "none"; inAcceptedRiskExpiresAt := field None;
     inDispositionScope := ""; inSuppressionExpiresAt := absentField; inDispositionRationale := "" |}.
Definition mergeBoth : mergeInput :=
  {| OtherFindingID := otherHex; mgCorrelationRevision := 0; mgPrimaryDecisionRevision := 1;
     mgPrimaryEvidenceRevision := 1; OtherDecisionRevision := 1; OtherEvidenceRevision := 1;
     mgDecision := asIs; mgRationale := "same weakness"; mgIdempotencyKey := "key-1" |}.
Definition mergeRun : Out DB (Z * FindingCorrelation) :=
  mergeFindings "ws" viewSession findingHex mergeBoth calm 0%nat mergeDB.

Lemma one_work_item_per_group_witness :
  countRows (λ _ c, g_active c) (t_correlations (out_db mergeRun)) = 1 ∧
  ∀ id f, workVisible (out_db mergeRun) id f = false ↔ absorbed (out_db mergeRun) id f.
Proof.
  split; [vm_compute; reflexivity|].
  refine (proj2 (proj2 (one_work_item_per_group mergeDB (out_db mergeRun) mergeDB_ok _))).
  apply rtc_once, ds_merge.
Defined.
