(* ===== verification/ReplayProps.v ===== *)
(** * Merges and splits are carried out once

    An idempotency key, once an event was written under it, answers for the
    request it was bound to and refuses every other one, whatever happens in
    between. *)
From S2P Require Import Prelude GoLib Encoding Tx ReportAdapter Schema Auth Intake Reconcile ImportWorker Paging Assets WorkViews Work Decisions DecisionProps Correlations CorrelationProps GroupProps.
Local Open Scope Z_scope.

(** ** Requests *)

Inductive correlationRequest :=
  | MergeRequest (primaryID : string) (i : mergeInput)
  | SplitRequest (primaryID : string) (i : splitInput).

Definition carryOut (workspace : string) (session : authenticatedSession) (q : correlationRequest) : M DB (Z * FindingCorrelation) :=
  match q with
  | MergeRequest id i => mergeFindings workspace session id i
  | SplitRequest id i => splitFinding workspace session id i
  end.

Definition requestKey (q : correlationRequest) : string :=
  match q with MergeRequest _ i => mgIdempotencyKey i | SplitRequest _ i => slIdempotencyKey i end.
Definition requestType (q : correlationRequest) : string :=
  match q with MergeRequest _ _ => "merge" | SplitRequest _ _ => "split" end.

(** The digest a well-formed request is bound to. *)
Definition requestDigest (workspace : string) (session : authenticatedSession) (q : correlationRequest) : option (list N) :=
  let actor := UserID (SessUser session) in
  let digest v := match correlationDigest v with Ok d => Some d | Err _ => None end in
  match q with
  | MergeRequest id i =>
      d ← decision (mgDecision i);
      if validMerge id i then digest (mergeBinding workspace actor id i d) else None
  | SplitRequest id i =>
      pd ← decision (slPrimaryDecision i); md ← decision (slMemberDecision i);
      if validSplit id i then digest (splitBinding workspace actor id i pd md) else None
  end.

(** The transaction of a well-formed request: it looks its key up first. *)
Definition replayFirst (workspace : string) (q : correlationRequest) (digest : list N)
    (k : M DB (Z * FindingCorrelation)) : M DB (Z * FindingCorrelation) :=
  bind (correlationReplay workspace (requestKey q) (requestType q) digest)
    (λ replay, match replay with
               | Some gid => bind (loadCorrelation workspace gid) (λ c, ret (200, c))
               | None => k
               end).

Lemma leaves_event_replayed ws key ty digest db db' :
  leaves_event ws key ty digest db db' → replayed ws key ty digest db'.
Proof. intros (eid & e & _ & Hr & _ & _ & ->). exists eid, e. split; [apply lookup_insert_eq|done]. Qed.

(** A request is refused before anything is read, or is one transaction that
    either finds its key or leaves an event under it. *)
Lemma carryOut_shape workspace session q :
  (requestDigest workspace session q = None ∧
   ∀ env n db, ∃ e, carryOut workspace session q env n db = mkOut (Err e) db n) ∨
  (∃ digest k, requestDigest workspace session q = Some digest ∧
   carryOut workspace session q = transaction (replayFirst workspace q digest k) ∧
   (∀ env n db r db' n', replayFirst workspace q digest k env n db = mkOut (Ok r) db' n' →
      replayed workspace (requestKey q) (requestType q) digest db')).
Proof.
  destruct q as [id i|id i]; cbn [carryOut requestDigest requestKey requestType].
  - unfold mergeFindings. destruct (decision _) as [d|] eqn:Ed; simpl; [|left; split; [done|by eexists]].
    destruct (validMerge id i) eqn:Ev; [|left; split; [done|by eexists]].
    destruct (correlationDigest _) as [digest|e] eqn:Eg; [|left; split; [done|by eexists]].
    right. eexists digest, _. split; [done|]. split; [reflexivity|]. intros env n db r db' n' H.
    apply (mergeTx_run workspace session id i d) in H as [(-> & _ & ?)|[_ Hm]]; [done| |by apply validMerge_distinct].
    destruct Hm as (? & ? & ? & ? & ? & ? & ? & ? & ? & ? & Hm). repeat (destruct Hm as [_ Hm]).
    by eapply leaves_event_replayed.
  - unfold splitFinding. destruct (decision (slPrimaryDecision i)) as [pd|] eqn:Ep; simpl; [|left; split; [done|by eexists]].
    destruct (decision (slMemberDecision i)) as [md|] eqn:Em; simpl; [|left; split; [done|by eexists]].
    destruct (validSplit id i) eqn:Ev; [|left; split; [done|by eexists]].
    destruct (correlationDigest _) as [digest|e] eqn:Eg; [|left; split; [done|by eexists]].
    right. eexists digest, _. split; [done|]. split; [reflexivity|]. intros env n db r db' n' H.
    apply (splitTx_run workspace session id i pd md) in H as [(-> & _ & ?)|[_ Hm]]; [done| |by apply validSplit_distinct].
    destruct Hm as (? & ? & ? & ? & ? & ? & ? & ? & Hm). cbv zeta in Hm. repeat (destruct Hm as [_ Hm]).
    by eapply leaves_event_replayed.
Qed.

(** ** What the key answers once it was used *)

Section replay.
Context (ws key ty : string) (digest : list N) (db : DB) (Hok : groups_ok db).
Context (Hrep : replayed ws key ty digest db).

Lemma replay_found : ∃ eid e, findRow (λ _ e, keyedEvent ws key e) (t_correlationEvents db) = Some (eid, e) ∧
  x_event_type e = ty ∧ x_binding_digest e = digest ∧
  ∃ c, t_correlations db !! x_correlation_id e = Some c ∧ g_workspace_id c = ws.
Proof.
  destruct Hrep as (eid & e & He & Ew & Ek & Et & Ed). destruct Hok as (_ & _ & Hg & Hu).
  destruct (findRow _ _) as [[i x]|] eqn:Ef.
  - apply findRow_Some in Ef as [Hx [Hxw Hxk]%keyedEvent_true].
    assert (i = eid) as -> by (apply (Hu i eid x e); congruence). assert (x = e) as -> by congruence.
    destruct (Hg eid e He) as (c & Hc & Hcw). exists eid, e. split_and!; [done..|]. exists c. split; congruence.
  - assert (keyedEvent ws key e = false) as Hf by (by apply (findRow_None _ _ _ _ Ef He)).
    rewrite (proj2 (keyedEvent_true ws key e)) in Hf; [done|]. by split.
Qed.

Lemma replay_run ty' digest' env n :
  out_db (correlationReplay ws key ty' digest' env n db) = db ∧
  (∀ r, out_res (correlationReplay ws key ty' digest' env n db) = Ok r →
     ty' = ty ∧ digest' = digest ∧ ∃ gid c, r = Some gid ∧ t_correlations db !! gid = Some c ∧ g_workspace_id c = ws) ∧
  (faultless env → ty' ≠ ty ∨ digest' ≠ digest →
     out_res (correlationReplay ws key ty' digest' env n db) = Err errConflict) ∧
  (faultless env → ty' = ty → digest' = digest → is_ok (out_res (correlationReplay ws key ty' digest' env n db)) = true).
Proof.
  destruct replay_found as (eid & e & Hf & Et & Ed & c & Hc & Hcw). unfold correlationReplay. split; [|split; [|split]].
  - unfold query, stmt. destruct (_ || _); [done|]. rewrite Hf. by destruct (_ || _).
  - intros r Hr. unfold query, stmt in Hr. destruct (_ || _) in Hr; [done|]. rewrite Hf in Hr.
    destruct (_ || _) eqn:E in Hr; [done|]. simpl in Hr. injection Hr as <-. apply orb_false_iff in E as [E1 E2].
    breflect_in E1. breflect_in E2. split_and!; [congruence..|]. exists (x_correlation_id e), c. done.
  - intros Hfl Hne. rewrite run_query, Hf by done. simpl. rewrite Et, Ed.
    destruct (bool_decide_reflect (ty = ty')), (bool_decide_reflect (digest = digest')); simpl; try done. naive_solver.
  - intros Hfl -> ->. rewrite run_query, Hf by done. simpl. by rewrite Et, Ed, !bool_decide_true.
Qed.
End replay.

Lemma loadCorrelation_pure ws id env n db : out_db (loadCorrelation ws id env n db) = db.
Proof.
  destruct (loadCorrelation ws id env n db) as [r db' n'] eqn:E.
  by rewrite <-(run_steps eq _ _ _ _ _ _ _ (steps_loadCorrelation eq ws id) E).
Qed.

Lemma loadCorrelation_total ws id env n db c :
  faultless env → t_correlations db !! id = Some c → g_workspace_id c = ws →
  is_ok (out_res (loadCorrelation ws id env n db)) = true.
Proof.
  intros Hf Hc Hw. unfold loadCorrelation. unfold bind at 1. rewrite run_query by done. rewrite Hc, bool_decide_true by done.
  unfold bind at 1. rewrite run_query by done. unfold bind at 1. by rewrite run_query by done.
Qed.

(** The transaction of a request whose key is taken. *)
Lemma replayFirst_run ws q ty digest digest' k db env n :
  groups_ok db → replayed ws (requestKey q) ty digest db →
  out_db (replayFirst ws q digest' k env n db) = db ∧
  (∀ r, out_res (replayFirst ws q digest' k env n db) = Ok r → r.1 = 200 ∧ requestType q = ty ∧ digest' = digest) ∧
  (faultless env → requestType q ≠ ty ∨ digest' ≠ digest →
     out_res (replayFirst ws q digest' k env n db) = Err errConflict) ∧
  (faultless env → requestType q = ty → digest' = digest →
     ∃ c, out_res (replayFirst ws q digest' k env n db) = Ok (200, c)).
Proof.
  intros Hok Hrep. destruct (replay_run ws (requestKey q) ty digest db Hok Hrep (requestType q) digest' env n)
    as (Hdb & Hres & Hconf & Hfound). unfold replayFirst, bind at 1 3 5 7.
  destruct (correlationReplay _ _ _ _ env n db) as [[r|e] s m]; simpl in *; subst s.
  - destruct (Hres r eq_refl) as (Et & Ed & gid & c & -> & Hc & Hw).
    pose proof (loadCorrelation_pure ws gid env m db) as Hpure. pose proof (λ Hf, loadCorrelation_total ws gid env m db c Hf Hc Hw) as Htot.
    unfold bind. destruct (loadCorrelation ws gid env m db) as [[cor|e] s' m']; simpl in *; subst s'.
    + split_and!; [done| |naive_solver|eauto]. by intros ? [= <-].
    + split_and!; [done|done|naive_solver|]. intros Hf _ _. by specialize (Htot Hf).
  - split_and!; [done|done| |].
    + intros Hf Hne. specialize (Hconf Hf Hne). congruence.
    + intros Hf Et Ed. by specialize (Hfound Hf Et Ed).
Qed.

(** ** Events are kept *)

Definition events_grow (db db' : DB) : Prop := t_correlationEvents db ⊆ t_correlationEvents db'.
#[local] Instance events_grow_preorder : PreOrder events_grow.
Proof. split; unfold events_grow; [by intros d|]. intros d1 d2 d3 ? ?. by etransitivity. Qed.

Lemma events_same db db' : t_correlationEvents db' = t_correlationEvents db → events_grow db db'.
Proof. unfold events_grow. by intros ->. Qed.

Lemma leaves_event_grows ws key ty digest db db' : leaves_event ws key ty digest db db' → events_grow db db'.
Proof. intros (eid & e & Hn & _ & _ & _ & ->). by apply insert_subseteq. Qed.

Lemma decision_step_events db db' : decision_step db db' → events_grow db db'.
Proof.
  assert (t_correlationEvents db ⊆ t_correlationEvents db) as Hdb by done.
  destruct (patches_steps (λ s, t_correlationEvents db ⊆ t_correlationEvents s)) as [Hpatch Hbulk].
  { intros ws id actor action p env n s sd s' n' (f & t & d & _ & _ & _ & _ & _ & _ & _ & ? & ? & ? & _ & _ & ->)%applyPatch_inv. done. }
  intros []; [exact (Hpatch ws actor id p env n db Hdb)|exact (Hbulk ws actor i env n db Hdb)| |apply mergeFindings_steps; [apply _|]|apply splitFinding_steps; [apply _|]| |].
  - revert env n db Hdb Hpatch Hbulk. intros env n db _ _ _. revert env n db.
    change (Steps events_grow (addNote ws author id text)). unfold addNote. steps.
    + apply steps_stmt; [apply _|]. intros t s r s' Hrun. destruct (inWorkspace _ _ _); [|simplify_eq; reflexivity].
      destruct (isSome _); [|done]. unfold insertRow in Hrun. destruct (t_notes s !! _); [done|].
      injection Hrun as _ <-. by apply events_same.
    + apply steps_exec; [apply _|]. intros t s. by apply events_same.
  - intros d digest e k s r s' k' Hne Hd H. apply mergeTx_run in H as [(-> & _)|[_ Hm]]; [reflexivity| |done].
    destruct Hm as (? & ? & db1 & dbg & ? & ? & ? & ? & ? & ? & _ & _ & _ & _ & _ & _ & _ & _ & H1 & H2 & H3).
    apply decided_groups in H1 as (_ & _ & E1). apply leaves_event_grows in H3. trans dbg; [|done].
    trans db1; [by apply events_same|]. eapply (regroup_run events_grow); [| |exact H2]; intros; by apply events_same.
  - intros pd md digest e k s r s' k' Hne Hp Hm H. apply splitTx_run in H as [(-> & _)|[_ Hs]]; [reflexivity| |done].
    destruct Hs as (? & ? & ? & db1 & db2 & ? & ? & ? & _ & _ & _ & _ & _ & _ & _ & _ & H1 & H2 & H3).
    apply decided_groups in H1 as (_ & _ & E1), H2 as (_ & _ & E2). apply leaves_event_grows in H3.
    unfold events_grow in *. simpl in H3. by rewrite E2, E1 in H3.
  - destruct (processImport_human others registry read ticks record ltac:(done) env n db) as (_ & (_ & _ & E) & _).
    by apply events_same.
  - apply deleteAsset_steps; [apply _|]. intros. by apply events_same.
Qed.

Lemma replayed_grows ws key ty digest db db' : events_grow db db' → replayed ws key ty digest db → replayed ws key ty digest db'.
Proof. intros Hg (eid & e & He & Hr). exists eid, e. split; [by eapply lookup_weaken|done]. Qed.

(** A request that had an effect, or was acknowledged, has an event. *)
Lemma carryOut_replayed ws session q env n db r db1 n1 :
  carryOut ws session q env n db = mkOut r db1 n1 → is_ok r = true ∨ db1 ≠ db →
  ∃ digest, requestDigest ws session q = Some digest ∧ replayed ws (requestKey q) (requestType q) digest db1.
Proof.
  intros H Hor. destruct (carryOut_shape ws session q) as [[_ Hno]|(digest & k & Hd & E & Hrep)].
  - destruct (Hno env n db) as [e He]. rewrite He in H. injection H as <- <- _. by destruct Hor.
  - rewrite E in H. unfold transaction in H. destruct (replayFirst _ _ _ _ env n db) as [[a|e] s m] eqn:Er.
    + apply Hrep in Er. destruct (env_commit env m); injection H as <- <- _; [eauto|by destruct Hor|eauto].
    + injection H as <- <- _. by destruct Hor.
Qed.

Lemma transaction_same {A} (m : M DB A) env n db :
  out_db (m env n db) = db →
  out_db (transaction m env n db) = db ∧
  (∀ a, out_res (transaction m env n db) = Ok a → out_res (m env n db) = Ok a) ∧
  (faultless env → out_res (transaction m env n db) = out_res (m env n db)).
Proof.
  intros E. split; [|split].
  - unfold transaction. destruct (m env n db) as [[a|e] s k]; simpl in *; subst; [|done]. by destruct (env_commit env k).
  - unfold transaction. destruct (m env n db) as [[a|e] s k]; simpl in *; [|done]. by destruct (env_commit env k).
  - intros Hf. rewrite run_transaction by done. by destruct (m env n db) as [[a|e] s k].
Qed.

(** C29: a merge or split is carried out at most once. Once it was acknowledged, or took effect although its acknowledgement was lost, then after any further patches, bulk patches, notes, merges, splits, report runs and asset deletions a retry changes nothing and is answered 200 (as opposed to 201), and when nothing fails it is answered; and any other request under the same idempotency key, of the other type or bound to another digest, changes nothing and is refused, with a conflict when nothing fails and it is well formed. *)
Theorem request_carried_out_once ws session q env n db r db1 n1 db2 :
  groups_ok db → carryOut ws session q env n db = mkOut r db1 n1 → is_ok r = true ∨ db1 ≠ db →
  rtc decision_step db1 db2 →
  ∀ env' n',
    (let again := carryOut ws session q env' n' db2 in
     out_db again = db2 ∧ (∀ a, out_res again = Ok a → a.1 = 200) ∧
     (faultless env' → ∃ c, out_res again = Ok (200, c))) ∧
    (∀ session' q', requestKey q' = requestKey q →
       requestType q' ≠ requestType q ∨ requestDigest ws session' q' ≠ requestDigest ws session q →
       let other := carryOut ws session' q' env' n' db2 in
       out_db other = db2 ∧ is_ok (out_res other) = false ∧
       (faultless env' → is_Some (requestDigest ws session' q') → out_res other = Err errConflict)).
Proof.
  intros Hok H Hor Hst env' n'. destruct (carryOut_replayed _ _ _ _ _ _ _ _ _ H Hor) as (digest & Hd & Hrep).
  assert (decision_step db db1) as Hstep.
  { assert (out_db (carryOut ws session q env n db) = db1) as <- by (by rewrite H). destruct q; constructor. }
  assert (groups_ok db2 ∧ replayed ws (requestKey q) (requestType q) digest db2) as [Hok2 Hrep2].
  { apply (decision_step_groups _ _ Hstep) in Hok. clear H Hor Hstep. induction Hst as [|? ? ? Hs]; [done|].
    apply IHHst; [by eapply decision_step_groups|]. by eapply replayed_grows, Hrep; apply decision_step_events. }
  rewrite Hd. split.
  - destruct (carryOut_shape ws session q) as [[? _]|(digest' & k & Hd' & E & _)]; [congruence|]. rewrite E.
    assert (digest' = digest) as -> by congruence.
    destruct (replayFirst_run ws q (requestType q) digest digest k db2 env' n' Hok2 Hrep2) as (R1 & R2 & _ & R4).
    destruct (transaction_same _ _ _ _ R1) as (T1 & T2 & T3). split_and!; [done| |].
    + intros a Ha. by apply T2, R2 in Ha as [? _].
    + intros Hf. rewrite T3 by done. by apply R4.
  - intros session' q' Hk Hne. destruct (carryOut_shape ws session' q') as [[Hn Hno]|(digest' & k & Hd' & E & _)].
    { destruct (Hno env' n' db2) as [e ->]. split_and!; [done..|]. rewrite Hn. by intros _ []. }
    rewrite E, Hd' in *. rewrite <-Hk in Hrep2.
    assert (requestType q' ≠ requestType q ∨ digest' ≠ digest) as Hne' by (destruct Hne; [by left|right; congruence]).
    destruct (replayFirst_run ws q' (requestType q) digest digest' k db2 env' n' Hok2 Hrep2) as (R1 & R2 & R3 & _).
    destruct (transaction_same _ _ _ _ R1) as (T1 & T2 & T3). split_and!; [done| |].
    + destruct (out_res (transaction _ env' n' db2)) as [a|] eqn:Ea; [|done].
      destruct (R2 a (T2 a eq_refl)) as (_ & ? & ?). naive_solver.
    + intros Hf _. rewrite T3 by done. by apply R3.
Qed.

(** ** Witness *)

Lemma request_carried_out_once_witness :
  ∃ c, out_res (carryOut "ws" viewSession (MergeRequest findingHex mergeBoth) calm 100%nat (out_db mergeRun)) = Ok (200, c).
Proof.
  assert (is_ok (out_res mergeRun) = true) as Hok by (vm_compute; reflexivity).
  assert (carryOut "ws" viewSession (MergeRequest findingHex mergeBoth) calm 0%nat mergeDB =
    mkOut (out_res mergeRun) (out_db mergeRun) (out_tick mergeRun)) as E.
  { change (mergeRun = mkOut (out_res mergeRun) (out_db mergeRun) (out_tick mergeRun)). by destruct mergeRun. }
  refine (proj2 (proj2 (proj1 (request_carried_out_once "ws" viewSession (MergeRequest findingHex mergeBoth) calm 0%nat
    mergeDB _ _ _ (out_db mergeRun) mergeDB_ok E (or_introl Hok) (rtc_refl _ _) calm 100%nat))) calm_faultless).
Defined.
