(* ===== verification/Reports.v ===== *)
(** * internal/app: posture reports

    [reports.go] and [report_finding_metrics.go]: the posture overview and the
    drill-downs behind its numbers.  url.ParseQuery's answer is the [urlQuery]
    argument; a time header is the list of its values, each parsed or not.
    Instants of requests and reports are nanoseconds; [micros] is what a SQL
    parameter keeps of them.  The statement timeouts are faults of the world. *)
From stdpp Require Import pretty.
From S2P Require Import Prelude GoLib Encoding Tx ReportAdapter Schema Auth Intake Paging Assets WorkViews Work Decisions.
Local Open Scope Z_scope.

Definition micros (t : Z) : Z := t / 1000.
Definition daysNanos (days : Z) : Z := days * (24 * 3600 * 1000000000).

Definition defaultFreshnessDays : Z := 7.
Definition defaultTrendDays : Z := 30.
Definition coverageDrilldownVerificationReason : string :=
  "Coverage drill-down reflects successful complete full-scan intake; it is not verification of asset safety.".
Definition findingMetricVerificationReason : string :=
  "Finding metric drill-down reflects current canonical finding state; it does not verify safety or historical membership.".
Definition postureVerificationReason : string :=
  "Independent verified-resolution results are not integrated with canonical findings.".

(** ** Parameters *)

Definition validFreshnessDays (days : Z) : bool := (1 <=? days) && (days <=? 365).

Definition strictReportInteger (value : string) (minimum maximum : Z) : Res Z :=
  if (value ==? "") || (len (pretty maximum) <? len value) then Err errInvalid
  else if negb (forallb isDigit (bytes value)) then Err errInvalid
  else match ParseInt value with
       | Some n => if (n <? minimum) || (maximum <? n) then Err errInvalid else Ok n
       | None => Err errInvalid
       end.

(** [overviewFreshnessDays] and [historicalTrendDays]. *)
Definition daysParameter (name : string) (default_ : Z) (query : urlQuery) : Res Z :=
  if q_malformed query then Err errInvalid
  else if negb (forallb (λ r : string * list string, r.1 ==? name) (map_to_list (q_values query))) then Err errInvalid
  else match q_values query !! name with
       | None => Ok default_
       | Some [v] =>
           if (v ==? "") || (3 <? len v) || negb (forallb isDigit (bytes v)) then Err errInvalid
           else match ParseInt v with
                | Some n => if validFreshnessDays n then Ok n else Err errInvalid
                | None => Err errInvalid
                end
       | Some _ => Err errInvalid
       end.
Definition overviewFreshnessDays : urlQuery → Res Z := daysParameter "freshnessDays" defaultFreshnessDays.
Definition historicalTrendDays : urlQuery → Res Z := daysParameter "days" defaultTrendDays.

(** Only these keys, each once. *)
Definition onlyKeys (allowed : list string) (query : urlQuery) : bool :=
  negb (q_malformed query) &&
  forallb (λ r : string * list string, bool_decide (r.1 ∈ allowed) && (length r.2 =? 1)%nat) (map_to_list (q_values query)).

(** The [limit] and [cursor] of a drill-down. *)
Definition drilldownPage (query : urlQuery) : Res (nat * string) :=
  match (if isSome (q_values query !! "limit") then strictReportInteger (queryGet query "limit") 1 100 else Ok 100) with
  | Err e => Err e
  | Ok limit =>
      if isSome (q_values query !! "cursor") && negb (validID (queryGet query "cursor")) then Err errInvalid
      else Ok (Z.to_nat limit, queryGet query "cursor")
  end.

Definition findingMetricNames : list string :=
  ["findings"; "open-findings"; "accepted-risk"; "expired-accepted-risk"; "suppressed"; "expired-suppression";
   "false-positive"; "inferred-resolved"; "critical"; "high"; "medium"; "low"; "info"].

Definition findingMetricParameters (query : urlQuery) : Res (string * (nat * string)) :=
  if negb (onlyKeys ["metric"; "limit"; "cursor"] query) then Err errInvalid
  else if negb (bool_decide (queryGet query "metric" ∈ findingMetricNames)) then Err errInvalid
  else match drilldownPage query with Ok p => Ok (queryGet query "metric", p) | Err e => Err e end.

Definition coverageStates : list string := ["scanned"; "unscanned"; "stale"; "unknown-freshness"].

Definition coverageAssetParameters (query : urlQuery) : Res (string * Z * (nat * string)) :=
  if negb (onlyKeys ["state"; "freshnessDays"; "limit"; "cursor"] query) then Err errInvalid
  else if negb (isSome (q_values query !! "state") && isSome (q_values query !! "freshnessDays")) then Err errInvalid
  else if negb (bool_decide (queryGet query "state" ∈ coverageStates)) then Err errInvalid
  else match strictReportInteger (queryGet query "freshnessDays") 1 365 with
       | Err e => Err e
       | Ok days => match drilldownPage query with
                    | Ok p => Ok (queryGet query "state", days, p)
                    | Err e => Err e
                    end
       end.

(** ** Coverage *)

(** [max(...)] of a nullable column. *)
Definition later (a b : option Z) : option Z :=
  match a, b with Some x, Some y => Some (Z.max x y) | Some x, None => Some x | None, b => b end.
Definition maxTime (l : list (option Z)) : option Z := foldr later None l.

(** [reportCoverageCTE]: the complete full scans of an asset up to [to]. *)
Definition fullScan (workspace asset : string) (to : Z) (r : ImportRow) : bool :=
  let m := i_meta r in
  (i_workspace_id m ==? workspace) && (i_asset_id m ==? asset) && (i_state (i_job r) ==? ISucceeded) &&
  (i_source_status m ==? "succeeded") && (i_scan_kind m ==? "full") && (i_completeness m ==? "complete") &&
  match i_source_scan_at m with None => true | Some t => t <=? to end.

Definition fullScans (workspace asset : string) (to : Z) (db : DB) : list ImportMeta :=
  (λ r, i_meta r.2) <$> rowsWhere (λ _ r, fullScan workspace asset to r) (t_imports db).

(** Per source and scope, the latest scan time known. *)
Definition sourceScopes (scans : list ImportMeta) : list (option Z) :=
  (λ k, maxTime (i_source_scan_at <$> filter (λ m, importKey m = k) scans)) <$> remove_dups (importKey <$> scans).

Record assessedAsset := { asStale : bool; asUnknownFreshness : bool; asLatestSourceScanAt : option Z }.

Definition assessed (workspace : string) (to from : Z) (db : DB) (asset : string) : option assessedAsset :=
  match sourceScopes (fullScans workspace asset to db) with
  | [] => None
  | scopes => Some {|
      asStale := existsb (λ s, match s with Some t => t <? from | None => false end) scopes;
      asUnknownFreshness := existsb (λ s, s ==? None) scopes;
      asLatestSourceScanAt := maxTime scopes |}
  end.

Definition coverageAssetPredicate (state : string) (a : option assessedAsset) : Res bool :=
  if state ==? "scanned" then Ok (isSome a)
  else if state ==? "unscanned" then Ok (negb (isSome a))
  else if state ==? "stale" then Ok (match a with Some x => asStale x | None => false end)
  else if state ==? "unknown-freshness" then Ok (match a with Some x => asUnknownFreshness x | None => false end)
  else Err errInvalid.

Record CoverageAssetItem := { covAsset : Asset; covScanned : bool; covAssessed : option assessedAsset }.
Record CoverageAssetDrilldown := {
  cdWorkspaceID : string; cdState : string; cdWindow : FreshnessWindow; cdItems : list CoverageAssetItem;
  cdTotal : Z; cdNextCursor : option string; cdVerification : string * string }.

Definition freshnessWindow (asOf days : Z) : FreshnessWindow :=
  {| WindowFrom := asOf - daysNanos days; WindowTo := asOf; WindowDays := days |}.

Definition coverageFilter (workspace state : string) (w : FreshnessWindow) (db : DB) (id : string) (a : AssetRow) : bool :=
  (a_workspace_id a ==? workspace) &&
  match coverageAssetPredicate state (assessed workspace (micros (WindowTo w)) (micros (WindowFrom w)) db id) with
  | Ok b => b
  | Err _ => false
  end.

Definition reportCoverageAssets (query_ : urlQuery) (workspace : string) : M DB CoverageAssetDrilldown :=
  p <- fromRes (coverageAssetParameters query_) ;;
  let '(state, days, (limit, cursor)) := p in
  transaction (
    asOf <- nowNanos ;;
    let window := freshnessWindow asOf days in
    fromRes (coverageAssetPredicate state None) ;;;
    total <- query (λ _ db, Ok (countRows (coverageFilter workspace state window db) (t_assets db))) ;;
    items <- query (λ _ db, Ok (take (limit + 1) ((λ r,
      let s := assessed workspace (micros (WindowTo window)) (micros (WindowFrom window)) db r.1 in
      {| covAsset := scanAsset r.1 r.2; covScanned := isSome s; covAssessed := s |}) <$>
      rowsAfter (coverageFilter workspace state window db) (t_assets db) cursor))) ;;
    let page := cutPage (λ i, AssetID (covAsset i)) limit items in
    ret {| cdWorkspaceID := workspace; cdState := state; cdWindow := window; cdItems := fst page; cdTotal := total;
           cdNextCursor := snd page; cdVerification := ("not-run", coverageDrilldownVerificationReason) |}).

(** ** Findings behind a number *)

(** The rows of [findingMetricFrom] that the work list shows: of the
    workspace, joined with their asset, not secondary in a group. *)
Definition countedFinding (workspace : string) (db : DB) (id : string) (f : FindingRow) : bool :=
  (f_workspace_id f ==? workspace) && isSome (assetName db f) && workVisible db id f.

(** [approval.expires_at] of the lateral join, NULL without an approval. *)
Definition approvalExpires (db : DB) (id : string) (f : FindingRow) : option Z :=
  let d := f_decision f in
  a ← currentApproval (f_workspace_id f) id (d_disposition d) (d_decision_revision d) db; ap_expires_at a.

(** [t IS NOT NULL AND t<=$2]; [t<=$2] alone counts as false for NULL. *)
Definition expiredBy (asOf : Z) (t : option Z) : bool :=
  match t with Some t => t <=? asOf | None => false end.

Definition findingMetricPredicate (metric : string) (asOf : Z) (db : DB) (id : string) (f : FindingRow) : Res bool :=
  let d := f_decision f in let p := f_projection f in
  if metric ==? "findings" then Ok true
  else if metric ==? "open-findings" then Ok (d_workflow_state d !=? "resolved")
  else if metric ==? "accepted-risk" then Ok (d_disposition d ==? "accepted-risk")
  else if metric ==? "expired-accepted-risk"
    then Ok ((d_disposition d ==? "accepted-risk") && expiredBy asOf (d_accepted_risk_expires_at d))
  else if metric ==? "suppressed" then Ok (d_disposition d ==? "suppressed")
  else if metric ==? "expired-suppression"
    then Ok ((d_disposition d ==? "suppressed") && expiredBy asOf (approvalExpires db id f))
  else if metric ==? "false-positive" then Ok (d_disposition d ==? "false-positive")
  else if metric ==? "inferred-resolved" then Ok (p_source_state p ==? "inferred-resolved")
  else if bool_decide (metric ∈ ["critical"; "high"; "medium"; "low"; "info"]) then Ok (p_severity p ==? metric)
  else Err errInvalid.

Definition metricFilter (workspace metric : string) (asOf : Z) (db : DB) (id : string) (f : FindingRow) : bool :=
  countedFinding workspace db id f &&
  match findingMetricPredicate metric asOf db id f with Ok b => b | Err _ => false end.

(** The header X-ASPM-Report-As-Of: absent, or its values, [None] where
    time.Parse refuses one. *)
Definition findingMetricAsOf (header : option (list (option Z))) (now : Z) : Res Z :=
  match header with
  | None => Ok now
  | Some [Some asOf] => if now <? asOf then Err errInvalid else Ok asOf
  | Some _ => Err errInvalid
  end.

Record FindingMetricItem := {
  fmFindingID : string; fmTitle : string; fmAssetID : string; fmAssetName : string; fmSeverity : string;
  fmOwnerID : option string; fmOwnerName : option string; fmWorkflowState : string; fmDisposition : string;
  fmAcceptedRiskExpiresAt : option Z; fmRiskAcceptanceExpired : bool; fmSourceState : string;
  fmSourceFreshnessAt : option Z }.

Definition findingMetricItem (asOf : Z) (db : DB) (r : string * FindingRow) : FindingMetricItem :=
  let '(id, f) := r in
  let d := f_decision f in let p := f_projection f in
  {| fmFindingID := id; fmTitle := p_title p; fmAssetID := f_asset_id f;
     fmAssetName := default "" (assetName db f); fmSeverity := p_severity p;
     fmOwnerID := d_owner_id d; fmOwnerName := ownerName db f; fmWorkflowState := d_workflow_state d;
     fmDisposition := d_disposition d; fmAcceptedRiskExpiresAt := d_accepted_risk_expires_at d;
     fmRiskAcceptanceExpired :=
       (d_disposition d ==? "accepted-risk") && expiredBy asOf (d_accepted_risk_expires_at d);
     fmSourceState := p_source_state p; fmSourceFreshnessAt := f_source_freshness_at f |}.

Record FindingMetricDrilldown := {
  fdWorkspaceID : string; fdMetric : string; fdAsOf : Z; fdItems : list FindingMetricItem;
  fdTotal : Z; fdNextCursor : option string; fdVerification : string * string }.

Definition reportFindingMetrics (query_ : urlQuery) (header : option (list (option Z))) (workspace : string)
    : M DB FindingMetricDrilldown :=
  p <- fromRes (findingMetricParameters query_) ;;
  let '(metric, (limit, cursor)) := p in
  transaction (
    t <- nowNanos ;;
    asOf <- fromRes (findingMetricAsOf header t) ;;
    let at_ := micros asOf in
    guard (bool_decide (metric ∈ findingMetricNames)) errInvalid ;;;
    total <- query (λ _ db, Ok (countRows (metricFilter workspace metric at_ db) (t_findings db))) ;;
    items <- query (λ _ db, Ok (take (limit + 1) (findingMetricItem at_ db <$>
      rowsAfter (metricFilter workspace metric at_ db) (t_findings db) cursor))) ;;
    let page := cutPage fmFindingID limit items in
    ret {| fdWorkspaceID := workspace; fdMetric := metric; fdAsOf := asOf; fdItems := fst page;
           fdTotal := total; fdNextCursor := snd page;
           fdVerification := ("not-run", findingMetricVerificationReason) |}).

(** ** The posture overview *)

(** [asset_totals]: [count( * ) FILTER (WHERE cond)] over the assets of the
    workspace, left-joined with their assessment. *)
Definition countAssets (workspace : string) (w : FreshnessWindow) (db : DB) (cond : option assessedAsset → bool) : Z :=
  countRows (λ id a, (a_workspace_id a ==? workspace) &&
    cond (assessed workspace (micros (WindowTo w)) (micros (WindowFrom w)) db id)) (t_assets db).

(** [finding_totals]: the same over the counted findings. *)
Definition countFindings (workspace : string) (db : DB) (cond : string → FindingRow → bool) : Z :=
  countRows (λ id f, countedFinding workspace db id f && cond id f) (t_findings db).

Definition postureTotals (workspace : string) (w : FreshnessWindow) (asOf : Z) (db : DB) : PostureTotals :=
  let disposition s f := d_disposition (f_decision f) ==? s in
  {| TotalAssets := countAssets workspace w db (λ _, true);
     TotalFindings := countFindings workspace db (λ _ _, true);
     OpenFindings := countFindings workspace db (λ _ f, d_workflow_state (f_decision f) !=? "resolved");
     AcceptedRisk := countFindings workspace db (λ _ f, disposition "accepted-risk" f);
     ExpiredAcceptedRisk := countFindings workspace db (λ _ f, disposition "accepted-risk" f &&
       expiredBy asOf (d_accepted_risk_expires_at (f_decision f)));
     Suppressed := countFindings workspace db (λ _ f, disposition "suppressed" f);
     ExpiredSuppression := countFindings workspace db (λ id f, disposition "suppressed" f &&
       expiredBy asOf (approvalExpires db id f));
     FalsePositive := countFindings workspace db (λ _ f, disposition "false-positive" f);
     InferredResolved := countFindings workspace db (λ _ f, p_source_state (f_projection f) ==? "inferred-resolved");
     VerifiedResolved := 0 |}.

Definition postureSeverities (workspace : string) (db : DB) : SeverityCounts :=
  let severity s := countFindings workspace db (λ _ f, p_severity (f_projection f) ==? s) in
  {| Critical := severity "critical"; High := severity "high"; Medium := severity "medium";
     Low := severity "low"; Info := severity "info" |}.

(** [FILTER (WHERE assessed.stale)] is false for an asset without assessment. *)
Definition postureCoverage (workspace : string) (w : FreshnessWindow) (db : DB) : PostureCoverage :=
  {| ScannedAssets := countAssets workspace w db isSome;
     UnscannedAssets := countAssets workspace w db (λ a, negb (isSome a));
     StaleAssets := countAssets workspace w db (λ a, match a with Some x => asStale x | None => false end);
     UnknownFreshnessAssets := countAssets workspace w db (λ a,
       match a with Some x => asUnknownFreshness x | None => false end);
     FreshnessWindowDays := WindowDays w |}.

Definition posture (workspace : string) (days asOf : Z) (db : DB) : PostureReport :=
  let w := freshnessWindow asOf days in
  {| ReportWorkspaceID := workspace; ReportAsOf := asOf;
     ReportTotals := postureTotals workspace w (micros asOf) db;
     ReportBySeverity := postureSeverities workspace db; ReportCoverage := postureCoverage workspace w db;
     ReportWindow := w; ReportVerification := ("not-run", postureVerificationReason) |}.

Definition readPosture (workspace : string) (days asOf : Z) : M DB PostureReport :=
  guard (validFreshnessDays days) errInvalid ;;;
  query (λ _ db, Ok (posture workspace days asOf db)).

Definition reportOverview (query_ : urlQuery) (workspace : string) : M DB PostureReport :=
  days <- fromRes (overviewFreshnessDays query_) ;;
  transaction (asOf <- nowNanos ;; readPosture workspace days asOf).
