(* ===== verification/ReportSLA.v ===== *)
(** * internal/app/report_sla.go: remediation targets

    The per-workspace policy of target days by severity, kept with all its
    revisions, and the deadlines of the open work under it.  A group of
    correlated findings is due from the oldest of its members.  Database
    sessions run in UTC, so [interval '1 day'] is 86400 seconds. *)
From S2P Require Import Prelude GoLib Encoding Tx ReportAdapter Schema Auth Paging WorkViews Work Reports.
Local Open Scope Z_scope.

Definition dayMicros : Z := 24 * 3600 * 1000000.
Definition remediationSLAVerificationReason : string :=
  "Remediation SLA status is a time-to-workflow target; it does not verify safety, resolution, or risk acceptance.".

(** ** The policy *)

Definition ReportSLAPolicy : Type := string * SLAPolicyRow.

Definition validSLATargets (critical high medium low info : Z) : bool :=
  (1 <=? critical) && (info <=? 3650) &&
  (critical <=? high) && (high <=? medium) && (medium <=? low) && (low <=? info).

Definition readReportSLAPolicy (workspace : string) : M DB ReportSLAPolicy :=
  query (λ _ db, match t_slaPolicies db !! workspace with
                 | Some p => Ok (workspace, p)
                 | None => Err ErrNoRows
                 end).

Definition getReportSLAPolicy (rawQuery workspace : string) : M DB ReportSLAPolicy :=
  guard (rawQuery ==? "") errInvalid ;;;
  readReportSLAPolicy workspace.

Record slaInput := {
  inRevision : Z; inCriticalDays : Z; inHighDays : Z; inMediumDays : Z; inLowDays : Z; inInfoDays : Z;
  inRationale : string }.

Definition sameTargets (p : SLAPolicyRow) (i : slaInput) : bool :=
  (sla_critical_days p =? inCriticalDays i) && (sla_high_days p =? inHighDays i) &&
  (sla_medium_days p =? inMediumDays i) && (sla_low_days p =? inLowDays i) &&
  (sla_info_days p =? inInfoDays i) && (sla_rationale p ==? inRationale i).

Definition nextPolicy (current : SLAPolicyRow) (i : slaInput) (actor : User) (at_ : Z) : SLAPolicyRow :=
  {| sla_critical_days := inCriticalDays i; sla_high_days := inHighDays i; sla_medium_days := inMediumDays i;
     sla_low_days := inLowDays i; sla_info_days := inInfoDays i; sla_revision := sla_revision current + 1;
     sla_approved_by := Some (UserID actor, UserName actor); sla_rationale := inRationale i;
     sla_created_at := sla_created_at current; sla_updated_at := at_ |}.

(** The row of report_sla_policy_revisions, created when the policy was updated. *)
Definition revisionRow (p : SLAPolicyRow) : SLAPolicyRow :=
  {| sla_critical_days := sla_critical_days p; sla_high_days := sla_high_days p;
     sla_medium_days := sla_medium_days p; sla_low_days := sla_low_days p; sla_info_days := sla_info_days p;
     sla_revision := sla_revision p; sla_approved_by := sla_approved_by p; sla_rationale := sla_rationale p;
     sla_created_at := sla_updated_at p; sla_updated_at := sla_updated_at p |}.

Definition updatePolicyTx (workspace : string) (session : authenticatedSession) (input : slaInput)
    : M DB ReportSLAPolicy :=
  role <- sessionRole session workspace ;;
  guard (role ==? "admin") errForbidden ;;;
  current <- readReportSLAPolicy workspace ;;
  guard (sla_revision (snd current) =? inRevision input) errConflict ;;;
  guard (negb (sameTargets (snd current) input)) errConflict ;;;
  at_ <- now ;;
  let next := nextPolicy (snd current) input (SessUser session) at_ in
  updated <- stmt (λ _ db,
    match t_slaPolicies db !! workspace with
    | Some p =>
        if sla_revision p =? sla_revision (snd current) then
          if isSome (t_users db !! UserID (SessUser session))
          then Ok (true, with_slaPolicies (<[workspace := next]> (t_slaPolicies db)) db)
          else Err ErrConstraint
        else Ok (false, db)
    | None => Ok (false, db)
    end) ;;
  guard updated errConflict ;;;
  insertInto t_slaRevisions with_slaRevisions noCheck (workspace, sla_revision next) (revisionRow next) ;;;
  ret (workspace, next).

Definition updateReportSLAPolicy (rawQuery workspace : string) (session : authenticatedSession) (input : slaInput)
    : M DB ReportSLAPolicy :=
  guard (rawQuery ==? "") errInvalid ;;;
  guard ((1 <=? inRevision input) &&
    validSLATargets (inCriticalDays input) (inHighDays input) (inMediumDays input) (inLowDays input) (inInfoDays input) &&
    validText (inRationale input) 8192) errInvalid ;;;
  transaction (updatePolicyTx workspace session input).

(** ** Deadlines: [remediationSLARowsCTE] *)

(** [active_members]: the primary and the member of each active group. *)
Definition activeMember (workspace : string) (db : DB) (m : MemberRow) : option (string * string) :=
  match t_correlations db !! m_correlation_id m with
  | Some c =>
      if (g_workspace_id c ==? workspace) && (m_workspace_id m ==? g_workspace_id c) && g_active c &&
         negb (isSome (m_released m))
      then Some (g_primary_finding_id c, m_finding_id m) else None
  | None => None
  end.
Definition activeMembers (workspace : string) (db : DB) : list (string * string) :=
  omap (λ r, activeMember workspace db r.2) (map_to_list (t_members db)).

(** [min(...)] of a column, NULL over no rows. *)
Definition earlier (a : Z) (b : option Z) : option Z :=
  match b with Some y => Some (Z.min a y) | None => Some a end.
Definition minTime (l : list Z) : option Z := foldr earlier None l.

(** [effective_ages], and the age of a finding that leads no group. *)
Definition memberAge (workspace : string) (db : DB) (id : string) : option Z :=
  match t_findings db !! id with
  | Some f => if f_workspace_id f ==? workspace then Some (f_first_observed_at f) else None
  | None => None
  end.
Definition effectiveAge (workspace : string) (db : DB) (id : string) : option Z :=
  minTime (omap (λ am : string * string, if am.1 ==? id then memberAge workspace db am.2 else None)
    (activeMembers workspace db)).
Definition effectiveFirstObservedAt (workspace : string) (db : DB) (id : string) (f : FindingRow) : Z :=
  default (f_first_observed_at f) (effectiveAge workspace db id).

Definition hiddenMember (workspace : string) (db : DB) (id : string) : bool :=
  existsb (λ am : string * string, (am.2 ==? id) && (am.1 !=? id)) (activeMembers workspace db).

Definition visibleSLA (workspace : string) (db : DB) (id : string) (f : FindingRow) : bool :=
  (f_workspace_id f ==? workspace) && (d_workflow_state (f_decision f) !=? "resolved") &&
  negb (hiddenMember workspace db id).

Definition targetDays (p : SLAPolicyRow) (severity : string) : Z :=
  if severity ==? "critical" then sla_critical_days p
  else if severity ==? "high" then sla_high_days p
  else if severity ==? "medium" then sla_medium_days p
  else if severity ==? "low" then sla_low_days p
  else sla_info_days p.

(** The deadline of a finding; [None] when it is not one of the rows. *)
Definition dueAt (workspace : string) (db : DB) (id : string) (f : FindingRow) : option Z :=
  if visibleSLA workspace db id f && isSome (assetName db f) then
    (λ p, effectiveFirstObservedAt workspace db id f + targetDays p (p_severity (f_projection f)) * dayMicros)
      <$> t_slaPolicies db !! workspace
  else None.

Definition slaStatus (at_ due : Z) : string := if due <? at_ then "breached" else "within-target".
Definition overdueSeconds (at_ due : Z) : Z := Z.max 0 (at_ - due) / 1000000.

(** [count( * ) FILTER (WHERE cond)] over [sla_rows]. *)
Definition slaFilter (workspace : string) (db : DB) (cond : FindingRow → Z → bool) (id : string) (f : FindingRow) : bool :=
  match dueAt workspace db id f with Some due => cond f due | None => false end.
Definition countSLA (workspace : string) (db : DB) (cond : FindingRow → Z → bool) : Z :=
  countRows (slaFilter workspace db cond) (t_findings db).

(** ** The summary *)

Record SLACounts := { SevTracked : Z; SevBreached : Z }.
Record SLATotals := { Tracked : Z; WithinTarget : Z; Breached : Z }.
Record SLASeverities := {
  SLACritical : SLACounts; SLAHigh : SLACounts; SLAMedium : SLACounts; SLALow : SLACounts; SLAInfo : SLACounts }.
Record RemediationSLASummary := {
  SumWorkspaceID : string; SumAsOf : Z; SumPolicy : ReportSLAPolicy; SumTotals : SLATotals;
  SumBySeverity : SLASeverities; SumVerification : string * string }.

Definition severityCounts (workspace : string) (at_ : Z) (db : DB) (severity : string) : SLACounts :=
  {| SevTracked := countSLA workspace db (λ f _, p_severity (f_projection f) ==? severity);
     SevBreached := countSLA workspace db (λ f due,
       (p_severity (f_projection f) ==? severity) && (slaStatus at_ due ==? "breached")) |}.

Definition slaTotals (workspace : string) (at_ : Z) (db : DB) : SLATotals * SLASeverities :=
  ({| Tracked := countSLA workspace db (λ _ _, true);
      WithinTarget := countSLA workspace db (λ _ due, slaStatus at_ due ==? "within-target");
      Breached := countSLA workspace db (λ _ due, slaStatus at_ due ==? "breached") |},
   {| SLACritical := severityCounts workspace at_ db "critical"; SLAHigh := severityCounts workspace at_ db "high";
      SLAMedium := severityCounts workspace at_ db "medium"; SLALow := severityCounts workspace at_ db "low";
      SLAInfo := severityCounts workspace at_ db "info" |}).

Definition reportSLA (rawQuery workspace : string) : M DB RemediationSLASummary :=
  guard (rawQuery ==? "") errInvalid ;;;
  transaction (
    t <- nowNanos ;;
    policy <- readReportSLAPolicy workspace ;;
    totals <- query (λ _ db, Ok (slaTotals workspace (micros t) db)) ;;
    ret {| SumWorkspaceID := workspace; SumAsOf := t; SumPolicy := policy; SumTotals := fst totals;
           SumBySeverity := snd totals; SumVerification := ("not-run", remediationSLAVerificationReason) |}).

(** ** The findings behind it *)

Record RemediationSLAFinding := {
  slFindingID : string; slTitle : string; slAssetID : string; slAssetName : string; slSeverity : string;
  slOwnerID : option string; slOwnerName : option string; slWorkflowState : string; slDisposition : string;
  slSourceState : string; slFirstObservedAt : Z; slDueAt : Z; slTargetDays : Z; slStatus : string;
  slOverdueSeconds : Z }.

Definition slaRow (workspace : string) (at_ : Z) (db : DB) (r : string * FindingRow) : RemediationSLAFinding :=
  let '(id, f) := r in
  let d := f_decision f in let p := f_projection f in
  let due := default 0 (dueAt workspace db id f) in
  {| slFindingID := id; slTitle := p_title p; slAssetID := f_asset_id f;
     slAssetName := default "" (assetName db f); slSeverity := p_severity p; slOwnerID := d_owner_id d;
     slOwnerName := ownerName db f; slWorkflowState := d_workflow_state d; slDisposition := d_disposition d;
     slSourceState := p_source_state p; slFirstObservedAt := effectiveFirstObservedAt workspace db id f;
     slDueAt := due;
     slTargetDays := default 0 ((λ q, targetDays q (p_severity p)) <$> t_slaPolicies db !! workspace);
     slStatus := slaStatus at_ due; slOverdueSeconds := overdueSeconds at_ due |}.

Definition remediationSLAFindingParameters (query : urlQuery) : Res (string * (nat * string)) :=
  if negb (onlyKeys ["status"; "limit"; "cursor"] query) then Err errInvalid
  else let status := queryGet query "status" in
       if (status !=? "breached") && (status !=? "within-target") then Err errInvalid
       else match drilldownPage query with Ok p => Ok (status, p) | Err e => Err e end.

(** The headers X-ASPM-SLA-As-Of ([None] when empty, [Some None] when
    time.Parse refuses it) and X-ASPM-SLA-Policy-Revision. *)
Definition remediationSLAEvaluationTime (rawTime : option (option Z)) (rawRevision workspace : string) (now : Z)
    : M DB Z :=
  match rawTime with
  | None => guard (rawRevision ==? "") errInvalid ;;; ret now
  | Some parsed =>
      guard (rawRevision !=? "") errInvalid ;;;
      match parsed, ParseInt rawRevision with
      | Some asOf, Some revision =>
          guard (negb (now <? asOf) && negb (revision <? 1)) errInvalid ;;;
          current <- query (λ _ db, match t_slaPolicies db !! workspace with
                                    | Some p => Ok (sla_revision p)
                                    | None => Err ErrNoRows
                                    end) ;;
          guard (current =? revision) errConflict ;;;
          ret asOf
      | _, _ => throw errInvalid
      end
  end.

Definition reportSLAFindingPage (query_ : urlQuery) (rawTime : option (option Z)) (rawRevision workspace : string)
    : M DB (list RemediationSLAFinding * Z * option string) :=
  p <- fromRes (remediationSLAFindingParameters query_) ;;
  let '(status, (limit, cursor)) := p in
  transaction (
    t <- nowNanos ;;
    asOf <- remediationSLAEvaluationTime rawTime rawRevision workspace t ;;
    let at_ := micros asOf in
    total <- query (λ _ db, Ok (countSLA workspace db (λ _ due, slaStatus at_ due ==? status))) ;;
    items <- query (λ _ db, Ok (take (limit + 1) (slaRow workspace at_ db <$>
      rowsAfter (slaFilter workspace db (λ _ due, slaStatus at_ due ==? status)) (t_findings db) cursor))) ;;
    let page := cutPage slFindingID limit items in
    ret (fst page, total, snd page)).
