(* ===== verification/ReportQueue.v ===== *)
(** * The report queues of internal/app

    report_snapshots and report_exports are two queues with the same columns
    and the same lease and fence protocol (report_worker.go, report_exports.go):
    a claim takes the first available row, or one whose lease ran out, and
    raises its fence; whoever finishes the row must still hold that fence and a
    running lease.  What the queues share is stated once, over the type of the
    request [A] and of the result [R]. *)
From S2P Require Import Prelude GoLib Encoding Tx ReportAdapter Schema.
Local Open Scope Z_scope.

Definition reportLease : Z := 90 * 1000000000.
Definition reportAttempts : Z := 3.
Definition oneSecond : Z := 1000000.

(** What a worker knows of the row it claimed. *)
Record claim := { claimID : string; claimWorker : string; claimFence : Z }.

Section queue.
Context {A R : Type}.
Implicit Types (r : QueueRow A R) (j : QueueJob R) (m : gmap string (QueueRow A R)).

Definition setQueueJob r j : QueueRow A R := {| q_meta := q_meta r; q_job := j |}.

(** ** Claiming *)

(** [ORDER BY available_at,id]. *)
Definition queueLe (a b : string * QueueRow A R) : bool :=
  (q_available_at (q_job a.2) <? q_available_at (q_job b.2)) ||
  (q_available_at (q_job a.2) =? q_available_at (q_job b.2)) && strLe a.1 b.1.
Definition queueOrder (a b : string * QueueRow A R) : Prop := queueLe a b = true.
#[export] Instance queueOrder_dec a b : Decision (queueOrder a b).
Proof. unfold queueOrder. apply _. Defined.

Definition leaseOver (t : Z) j : bool :=
  match q_lease_until j with Some x => x <=? t | None => false end.
Definition leaseRuns (t : Z) j : bool :=
  match q_lease_until j with Some x => t <? x | None => false end.

Definition exhausted (t : Z) r : bool :=
  let j := q_job r in
  (reportAttempts <=? q_attempts j) &&
  ((q_state j ==? IQueued) || (q_state j ==? IProcessing) && leaseOver t j).

(** At most 100 exhausted rows are failed by one claim. *)
Definition exhaustedRows (locked : string → bool) (t : Z) m : list (string * QueueRow A R) :=
  take 100 (merge_sort queueOrder (rowsWhere (λ id r, exhausted t r && negb (locked id)) m)).

Definition claimable (t : Z) r : bool :=
  let j := q_job r in
  (q_attempts j <? reportAttempts) &&
  ((q_state j ==? IQueued) && (q_available_at j <=? t) || (q_state j ==? IProcessing) && leaseOver t j).

Definition candidate (locked : string → bool) (t : Z) m : option (string * QueueRow A R) :=
  argmin queueLe (rowsWhere (λ id r, claimable t r && negb (locked id)) m).

Definition claimRow r (worker : string) (until : Z) : QueueRow A R :=
  let j := q_job r in
  setQueueJob r (mkQueueJob IProcessing (q_result j) (q_completed_at j) (q_failure j) (Some worker)
    (q_fence j + 1) (q_attempts j + 1) (Some until) (q_available_at j)).

(** ** Ending a lease *)

(** [worker_id=$2 AND fence=$3 AND state='processing']. *)
Definition owns (c : claim) r : bool :=
  let j := q_job r in
  (q_worker_id j ==? Some (claimWorker c)) && (q_fence j =? claimFence c) && (q_state j ==? IProcessing).

(** ... [AND lease_until>clock_timestamp()]. *)
Definition holds (t : Z) (c : claim) r : bool := owns c r && leaseRuns t (q_job r).

Definition endRow r (st : istate) (result : option R) (completed : option Z)
    (failure : option (string * string)) (available : Z) : QueueRow A R :=
  setQueueJob r (mkQueueJob st result completed failure None (q_fence (q_job r)) (q_attempts (q_job r))
    None available).

(** [UPDATE ... WHERE id=$1 AND cond]: whether a row matched, and the table. *)
Definition updateOne (id : string) (cond : QueueRow A R → bool) (f : QueueRow A R → QueueRow A R) m
    : bool * gmap string (QueueRow A R) :=
  match m !! id with
  | Some r => if cond r then (true, <[id := f r]> m) else (false, m)
  | None => (false, m)
  end.

Definition waiting r : bool := (q_state (q_job r) ==? IQueued) || (q_state (q_job r) ==? IProcessing).

Definition queuedRow (a : A) (available : Z) : QueueRow A R :=
  {| q_meta := a; q_job := mkQueueJob IQueued None None None None 0 0 None available |}.
End queue.

(** ** The life of a row

    [G r x t] says that [x], finished at [t], is a proper result for row [r]. *)
Section lifecycle.
Context {A R : Type} (G : QueueRow A R → R → Z → Prop).
Implicit Types (r : QueueRow A R) (m : gmap string (QueueRow A R)).

Inductive qstep r : QueueRow A R → Prop :=
  | qs_claim w x : waiting r = true → q_attempts (q_job r) < reportAttempts → qstep r (claimRow r w x)
  | qs_exhaust completed failure :
      waiting r = true → reportAttempts ≤ q_attempts (q_job r) →
      qstep r (endRow r IFailed (q_result (q_job r)) completed (Some failure) (q_available_at (q_job r)))
  | qs_release st completed failure available :
      q_state (q_job r) = IProcessing → (st = IQueued ∨ st = IFailed ∧ is_Some failure) →
      qstep r (endRow r st (q_result (q_job r)) completed failure available)
  | qs_succeed x t :
      q_state (q_job r) = IProcessing → G r x t →
      qstep r (endRow r ISucceeded (Some x) (Some t) None (q_available_at (q_job r))).

(** What holds of every row of a queue. *)
Definition queue_ok r : Prop :=
  let j := q_job r in
  0 ≤ q_attempts j ≤ reportAttempts ∧ q_attempts j ≤ q_fence j ∧
  match q_state j with
  | IQueued => q_worker_id j = None ∧ q_lease_until j = None ∧ q_result j = None
  | IProcessing => is_Some (q_worker_id j) ∧ is_Some (q_lease_until j) ∧ q_result j = None ∧ 1 ≤ q_attempts j
  | ISucceeded => q_worker_id j = None ∧ q_lease_until j = None ∧ q_failure j = None ∧ 1 ≤ q_attempts j ∧
                  ∃ x t, q_result j = Some x ∧ q_completed_at j = Some t ∧ G r x t
  | IFailed => q_worker_id j = None ∧ q_lease_until j = None ∧ q_result j = None ∧ is_Some (q_failure j)
  end.

(** [G] may look at the request of a row, not at its queue entry. *)
Context (G_meta : ∀ r r' x t, q_meta r' = q_meta r → G r x t → G r' x t).

Lemma qstep_meta r r' : qstep r r' → q_meta r' = q_meta r.
Proof. by intros []. Qed.

Lemma qsteps_stable r r' :
  rtc qstep r r' → q_meta r' = q_meta r ∧ q_fence (q_job r) ≤ q_fence (q_job r') ∧
    q_attempts (q_job r) ≤ q_attempts (q_job r').
Proof.
  induction 1 as [|r1 r2 r3 Hs _ (IH1 & IH2 & IH3)]; [auto with lia|].
  rewrite IH1. destruct Hs; simpl in *; auto with lia.
Qed.

(** A finished row stays as it is. *)
Lemma qstep_waiting r r' : qstep r r' → waiting r = true.
Proof. unfold waiting. by intros [| |? ? ? ? ->|? ? ->]. Qed.

Lemma qsteps_final r r' : waiting r = false → rtc qstep r r' → r' = r.
Proof. intros Hw Hs. destruct Hs as [|r1 r2 r3 Hs _]; [done|]. apply qstep_waiting in Hs. congruence. Qed.

Lemma queue_ok_step r r' : qstep r r' → queue_ok r → queue_ok r'.
Proof.
  unfold queue_ok, reportAttempts. intros Hs (Ha & Hf & Hj).
  destruct Hs as [w x Hw Hlt|completed failure Hw Hle|st completed failure av Hp Hst|x t Hp HG]; simpl in *;
    unfold waiting, reportAttempts in *.
  - split_and!; eauto; try lia. destruct (q_state (q_job r)); naive_solver.
  - split_and!; eauto; try lia. destruct (q_state (q_job r)); naive_solver.
  - rewrite Hp in Hj. destruct Hst as [->|[-> ?]]; naive_solver lia.
  - rewrite Hp in Hj. assert (1 ≤ q_attempts (q_job r)) by naive_solver.
    split_and!; try (done || lia). exists x, t. split_and!; [done..|]. by apply (G_meta r).
Qed.

Lemma queue_ok_steps r r' : rtc qstep r r' → queue_ok r → queue_ok r'.
Proof. induction 1; eauto using queue_ok_step. Qed.

Lemma queue_ok_new a t : queue_ok (queuedRow a t).
Proof. unfold queue_ok, reportAttempts. simpl. split_and!; done || lia. Qed.

(** ** A queue over time: rows are added as queued and only take steps *)

Definition queue_evolves m m' : Prop :=
  (∀ i r, m !! i = Some r → ∃ r', m' !! i = Some r' ∧ rtc qstep r r') ∧
  (∀ i r', m !! i = None → m' !! i = Some r' → ∃ a t, rtc qstep (queuedRow a t) r').

Lemma queue_refl m : queue_evolves m m.
Proof. split; [eauto using rtc_refl | intros; congruence]. Qed.

Lemma queue_trans m1 m2 m3 : queue_evolves m1 m2 → queue_evolves m2 m3 → queue_evolves m1 m3.
Proof.
  intros [H1 N1] [H2 N2]. split.
  - intros i r Hr. apply H1 in Hr as (r2 & Hr2 & ?). apply H2 in Hr2 as (r3 & ? & ?). eauto using rtc_trans.
  - intros i r3 Hn Hr3. destruct (m2 !! i) as [r2|] eqn:E2; [|eauto].
    destruct (N1 i r2 Hn E2) as (a & t & ?). destruct (H2 i r2 E2) as (r3' & ? & ?). simplify_eq.
    eauto using rtc_trans.
Qed.

Lemma queue_update m i r r' : m !! i = Some r → qstep r r' → queue_evolves m (<[i := r']> m).
Proof.
  intros Hr Hs. split.
  - intros k rk Hk. destruct (decide (k = i)) as [->|Hne].
    + simplify_eq. rewrite lookup_insert_eq. eauto using rtc_once.
    + rewrite lookup_insert_ne by done. eauto using rtc_refl.
  - intros k rk Hn Hk. destruct (decide (k = i)) as [->|Hne]; [congruence|].
    rewrite lookup_insert_ne in Hk by done. congruence.
Qed.

Lemma queue_insert m i a t : m !! i = None → queue_evolves m (<[i := queuedRow a t]> m).
Proof.
  intros Hn. split.
  - intros k rk Hk. rewrite lookup_insert_ne by congruence. eauto using rtc_refl.
  - intros k rk Hk Hrk. destruct (decide (k = i)) as [->|Hne].
    + rewrite lookup_insert_eq in Hrk. simplify_eq. eauto using rtc_refl.
    + rewrite lookup_insert_ne in Hrk by done. congruence.
Qed.

Lemma queue_updateRows m P f :
  (∀ i r, m !! i = Some r → P i r = true → qstep r (f r)) → queue_evolves m (updateRows P f m).
Proof.
  intros Hf. split.
  - intros i r Hr. rewrite lookup_updateRows, Hr. simpl. eexists. split; [done|].
    destruct (P i r) eqn:E; [eauto using rtc_once|apply rtc_refl].
  - intros i r' Hn. by rewrite lookup_updateRows, Hn.
Qed.

Lemma updateOne_evolves m i cond f :
  (∀ r, m !! i = Some r → cond r = true → qstep r (f r)) → queue_evolves m (snd (updateOne i cond f m)).
Proof.
  intros Hf. unfold updateOne. destruct (m !! i) as [r|] eqn:E; [|apply queue_refl].
  destruct (cond r) eqn:Ec; [|apply queue_refl]. apply (queue_update _ _ r); auto.
Qed.

Lemma queue_evolves_ok m m' :
  queue_evolves m m' → (∀ i r, m !! i = Some r → queue_ok r) → ∀ i r, m' !! i = Some r → queue_ok r.
Proof.
  intros [H N] Hok i r' Hr'. destruct (m !! i) as [r|] eqn:E.
  - destruct (H i r E) as (r1 & ? & ?). simplify_eq. eauto using queue_ok_steps.
  - destruct (N i r' E Hr') as (a & t & ?). eauto using queue_ok_steps, queue_ok_new.
Qed.

(** ** The statements of the workers *)

Lemma owns_processing c r : owns c r = true → q_state (q_job r) = IProcessing.
Proof. unfold owns. intros [_ H]%andb_true_iff. by breflect_in H. Qed.
Lemma holds_processing t c r : holds t c r = true → q_state (q_job r) = IProcessing.
Proof. unfold holds. intros [H _]%andb_true_iff. by apply owns_processing in H. Qed.

Lemma exhausted_waiting t r : exhausted t r = true → waiting r = true ∧ reportAttempts ≤ q_attempts (q_job r).
Proof.
  unfold exhausted, waiting. intros H. breflect_in H. destruct H as [? H].
  split; [|lia]. breflect. naive_solver.
Qed.

Lemma claimable_waiting t r : claimable t r = true → waiting r = true ∧ q_attempts (q_job r) < reportAttempts.
Proof.
  unfold claimable, waiting. intros H. breflect_in H. destruct H as [? H].
  split; [|lia]. breflect. naive_solver.
Qed.

Lemma exhaustedRows_lookup locked t m i r :
  (i, r) ∈ exhaustedRows locked t m → m !! i = Some r ∧ exhausted t r = true.
Proof.
  unfold exhaustedRows. intros H%elem_of_take. destruct H as (k & H & _). apply list_elem_of_lookup_2 in H.
  rewrite merge_sort_Permutation, elem_of_rowsWhere, andb_true_iff in H. naive_solver.
Qed.

Lemma exhaust_evolves locked t m failure completed :
  queue_evolves m (updateRows (λ id _, bool_decide (id ∈ fst <$> exhaustedRows locked t m))
    (λ r, endRow r IFailed (q_result (q_job r)) (completed r) (Some failure) (q_available_at (q_job r))) m).
Proof.
  apply queue_updateRows. intros i r Hr Hin. apply bool_decide_eq_true in Hin.
  apply list_elem_of_fmap in Hin as ([k rk] & -> & [Hk He]%exhaustedRows_lookup). simpl in *. simplify_eq.
  apply exhausted_waiting in He as [? ?]. by constructor.
Qed.

Lemma candidate_lookup locked t m i r :
  candidate locked t m = Some (i, r) → m !! i = Some r ∧ claimable t r = true.
Proof.
  unfold candidate. intros H%argmin_elem. rewrite elem_of_rowsWhere, andb_true_iff in H. naive_solver.
Qed.

Lemma claim_evolves locked t m i r w x :
  candidate locked t m = Some (i, r) → queue_evolves m (<[i := claimRow r w x]> m).
Proof.
  intros [Hr [? ?]%claimable_waiting]%candidate_lookup. apply (queue_update _ _ r); [done|]. by constructor.
Qed.

(** ** Fencing: once a row moved past a claim, the claim never holds again *)

Lemma superseded c m m' r :
  queue_evolves m m' → m !! claimID c = Some r → claimFence c < q_fence (q_job r) ∨ waiting r = false →
  ∃ r', m' !! claimID c = Some r' ∧ owns c r' = false.
Proof.
  intros [H _] Hr Hc. apply H in Hr as (r' & Hr' & Hs). exists r'. split; [done|].
  destruct (owns c r') eqn:E; [|done]. exfalso.
  assert (q_fence (q_job r') = claimFence c) as Hf by (unfold owns in E; breflect_in E; naive_solver).
  destruct Hc as [Hc|Hc].
  - apply qsteps_stable in Hs as (_ & ? & _). lia.
  - apply (qsteps_final _ _ Hc) in Hs. subst. apply owns_processing in E. unfold waiting in Hc.
    by rewrite E in Hc.
Qed.

Lemma finished_stays m m' i r :
  queue_evolves m m' → m !! i = Some r → waiting r = false → m' !! i = Some r.
Proof. intros [H _] Hr Hw. apply H in Hr as (r' & Hr' & Hs). by apply (qsteps_final _ _ Hw) in Hs as ->. Qed.
End lifecycle.

Lemma holds_owns {A R} t c (r : QueueRow A R) : owns c r = false → holds t c r = false.
Proof. unfold holds. by intros ->. Qed.
