(* ===== verification/ReportSnapshots.v ===== *)
(** * internal/app: saved posture reports

    [report_snapshots.go], the snapshot half of [report_worker.go] and
    [reportTrends] of [reports.go].  The report column keeps the JSON form of
    the report, whose times have nanoseconds; completed_at is a timestamptz and
    keeps microseconds of the same instant. *)
From stdpp Require Import pretty.
From S2P Require Import Prelude GoLib Encoding Tx ReportAdapter Schema Auth Intake Paging Assets WorkViews Work Reports ReportQueue.
Local Open Scope Z_scope.

(** ** The JSON form of a report *)

(** [t.UTC().Format(time.RFC3339Nano)] of an instant in nanoseconds. *)
Definition formatNanos (t : Z) : string :=
  let secs := t / 1000000000 in
  let '(y, m, d) := civil (secs / 86400) in
  let sod := secs mod 86400 in
  let frac := rev (dropZeros (rev (digitsN 9 (t mod 1000000000)))) in
  of_bytes (formatYear y ++ bytes "-" ++ digitsN 2 m ++ bytes "-" ++ digitsN 2 d ++ bytes "T" ++
    digitsN 2 (sod / 3600) ++ bytes ":" ++ digitsN 2 (sod / 60 mod 60) ++ bytes ":" ++
    digitsN 2 (sod mod 60) ++ (if bool_decide (frac = []) then [] else bytes "." ++ frac) ++ bytes "Z").

(** time.Time's MarshalJSON, which refuses years outside 0..9999. *)
Definition nanosJSON (t : Z) : option JSON :=
  let '(y, _, _) := civil (t / 1000000000 / 86400) in
  if (y <? 0) || (9999 <? y) then None else Some (JString (formatNanos t)).

Definition totalsJSON (t : PostureTotals) : JSON := JObject [
  ("assets", JInt (TotalAssets t)); ("findings", JInt (TotalFindings t));
  ("openFindings", JInt (OpenFindings t)); ("acceptedRisk", JInt (AcceptedRisk t));
  ("expiredAcceptedRisk", JInt (ExpiredAcceptedRisk t)); ("suppressed", JInt (Suppressed t));
  ("expiredSuppression", JInt (ExpiredSuppression t)); ("falsePositive", JInt (FalsePositive t));
  ("inferredResolved", JInt (InferredResolved t)); ("verifiedResolved", JInt (VerifiedResolved t))].
Definition severitiesJSON (s : SeverityCounts) : JSON := JObject [
  ("critical", JInt (Critical s)); ("high", JInt (High s)); ("medium", JInt (Medium s));
  ("low", JInt (Low s)); ("info", JInt (Info s))].
Definition coverageJSON (c : PostureCoverage) : JSON := JObject [
  ("scannedAssets", JInt (ScannedAssets c)); ("unscannedAssets", JInt (UnscannedAssets c));
  ("staleAssets", JInt (StaleAssets c)); ("unknownFreshnessAssets", JInt (UnknownFreshnessAssets c));
  ("freshnessWindowDays", JInt (FreshnessWindowDays c))].

Definition reportJSON (r : PostureReport) : option JSON :=
  asOf ← nanosJSON (ReportAsOf r);
  from ← nanosJSON (WindowFrom (ReportWindow r));
  to ← nanosJSON (WindowTo (ReportWindow r));
  Some (JObject [
    ("workspaceId", JString (ReportWorkspaceID r)); ("asOf", asOf); ("totals", totalsJSON (ReportTotals r));
    ("bySeverity", severitiesJSON (ReportBySeverity r)); ("coverage", coverageJSON (ReportCoverage r));
    ("freshnessWindow", JObject [("from", from); ("to", to); ("days", JInt (WindowDays (ReportWindow r)))]);
    ("verification", JObject [("state", JString (fst (ReportVerification r)));
                              ("reason", JString (snd (ReportVerification r)))])]).

Example formatNanos_2024 : formatNanos 1709164800123456780 = "2024-02-29T00:00:00.12345678Z".
Proof. vm_compute. reflexivity. Qed.

(** ** Requests *)

Record Failure := { FailureCode : string; FailureMessage : string; Retryable : bool }.
Record ReportSnapshotSummary := {
  SnapID : string; SnapMeta : SnapshotMeta; SnapState : istate; SnapCompletedAt : option Z;
  SnapFailure : option Failure }.
Record ReportSnapshot := { SnapSummary : ReportSnapshotSummary; SnapReport : option PostureReport }.
Record reportJob := { jobSnapshot : ReportSnapshot; jobWorkerID : string; jobFence : Z }.

Definition scanReportSnapshot (id : string) (r : SnapshotRow) : reportJob :=
  let j := q_job r in
  {| jobSnapshot := {|
       SnapSummary := {| SnapID := id; SnapMeta := q_meta r; SnapState := q_state j;
         SnapCompletedAt := q_completed_at j;
         SnapFailure := (λ f, {| FailureCode := fst f; FailureMessage := snd f;
                                 Retryable := q_state j ==? IQueued |}) <$> q_failure j |};
       SnapReport := q_result j |};
     jobWorkerID := default "" (q_worker_id j); jobFence := q_fence j |}.

Definition createReportSnapshot (workspace userID name : string) (freshnessDays : optional Z) : M DB ReportSnapshot :=
  days <- fromRes (if IsSet freshnessDays
                   then match Value freshnessDays with Some d => Ok d | None => Err errInvalid end
                   else Ok defaultFreshnessDays) ;;
  guard (validText name 256 && validFreshnessDays days) errInvalid ;;;
  id <- newID ;;
  at_ <- now ;;
  stmt (λ t db,
    let row := queuedRow {| rs_workspace_id := workspace; rs_name := name; rs_requested_by := userID;
                            rs_freshness_days := days; rs_created_at := at_ |} t in
    if negb (isSome (t_workspaces db !! workspace) && isSome (t_memberships db !! (workspace, userID)))
    then Err ErrConstraint
    else match insertRow id row (t_snapshots db) with
         | Ok m => Ok (jobSnapshot (scanReportSnapshot id row), with_snapshots m db)
         | Err e => Err e
         end).

Definition ofWorkspace (workspace : string) (r : SnapshotRow) : bool := rs_workspace_id (q_meta r) ==? workspace.

Definition getReportSnapshot (workspace id : string) : M DB ReportSnapshot :=
  query (λ _ db, match t_snapshots db !! id with
                 | Some r => if ofWorkspace workspace r then Ok (jobSnapshot (scanReportSnapshot id r)) else Err ErrNoRows
                 | None => Err ErrNoRows
                 end).

Definition listReportSnapshots (limit cursor workspace : string)
    : M DB (list ReportSnapshotSummary * Z * option string) :=
  p <- fromRes (pageParameters limit cursor) ;;
  transaction (
    total <- query (λ _ db, Ok (countRows (λ _ r, ofWorkspace workspace r) (t_snapshots db))) ;;
    items <- query (λ _ db, Ok (take (fst p + 1)
      ((λ r, SnapSummary (jobSnapshot (scanReportSnapshot r.1 r.2))) <$>
       rowsAfter (λ _ r, ofWorkspace workspace r) (t_snapshots db) (snd p)))) ;;
    let page := cutPage SnapID (fst p) items in
    ret (fst page, total, snd page)).

(** ** The worker *)

Definition claimReport (worker : string) : M DB reportJob :=
  locked <- skipLocked ;;
  exec (λ t db,
    let ids := fst <$> exhaustedRows locked t (t_snapshots db) in
    (tt, with_snapshots (updateRows (λ id _, bool_decide (id ∈ ids))
       (λ r, endRow r IFailed (q_result (q_job r)) (q_completed_at (q_job r))
          (Some ("attempt-limit", "Snapshot could not complete within its permitted attempts"))
          (q_available_at (q_job r)))
       (t_snapshots db)) db)) ;;;
  locked <- skipLocked ;;
  span <- intervalOf reportLease ;;
  stmt (λ t db,
    match candidate locked t (t_snapshots db) with
    | None => Err ErrNoRows
    | Some (id, r) =>
        let r' := claimRow r worker (t + span) in
        Ok (scanReportSnapshot id r', with_snapshots (<[id := r']> (t_snapshots db)) db)
    end).

Definition jobClaim (job : reportJob) : claim :=
  {| claimID := SnapID (SnapSummary (jobSnapshot job)); claimWorker := jobWorkerID job; claimFence := jobFence job |}.
Definition jobMeta (job : reportJob) : SnapshotMeta := SnapMeta (SnapSummary (jobSnapshot job)).

(** The transaction of [completeReport]. *)
Definition completeTx (job : reportJob) : M DB unit :=
  let c := jobClaim job in
  active <- query (λ t db, match t_snapshots db !! claimID c with
                           | Some r => Ok (holds t c r)
                           | None => Err ErrNoRows
                           end) ;;
  guard active errReportLeaseLost ;;;
  asOf <- nowNanos ;;
  report <- readPosture (rs_workspace_id (jobMeta job)) (rs_freshness_days (jobMeta job)) asOf ;;
  guard (isSome (reportJSON report)) errReportWork ;;;
  updated <- exec (λ t db,
    let '(ok, m) := updateOne (claimID c) (holds t c)
      (λ r, endRow r ISucceeded (Some report) (Some (micros (ReportAsOf report))) None (q_available_at (q_job r)))
      (t_snapshots db) in (ok, with_snapshots m db)) ;;
  guard updated errReportLeaseLost.
Definition completeReport (job : reportJob) : M DB unit := transaction (completeTx job).

Definition releaseReport (job : reportJob) (db : DB) : DB :=
  with_snapshots (snd (updateOne (claimID (jobClaim job)) (owns (jobClaim job))
    (λ r, let j := q_job r in endRow r IQueued (q_result j) (q_completed_at j) (q_failure j) (q_available_at j))
    (t_snapshots db))) db.

Definition retryReport (t : Z) (r : SnapshotRow) : SnapshotRow :=
  let j := q_job r in
  endRow r (if q_attempts j <? reportAttempts then IQueued else IFailed) (q_result j) (q_completed_at j)
    (Some ("report-generation-failed", "Snapshot generation could not be committed"))
    (t + oneSecond * q_attempts j).

Definition processReport (job : reportJob) : M DB unit :=
  handle (completeReport job) (λ r,
  match r with
  | Ok _ => ret tt
  | Err e =>
      if decide (e = errReportLeaseLost) then throw e
      else
        done <- ctxErr ;;
        if (done : bool) then
          detached (λ _ db, releaseReport job db) ;;;
          throw ErrContext
        else
          handle (exec (λ t db,
            let '(ok, m) := updateOne (claimID (jobClaim job)) (holds t (jobClaim job)) (retryReport t)
              (t_snapshots db) in (ok, with_snapshots m db))) (λ u,
          match u with
          | Err _ => throw errReportWork
          | Ok updated => guard updated errReportLeaseLost
          end)
  end).

(** ** Trends *)

Definition reportTrendLimit : nat := 100.
Definition historicalTrendVerificationReason : string :=
  "Historical snapshot trends are not an SLA, forecast, or independent verification.".

Record HistoricalTrendPoint := {
  PointID : string; PointName : string; PointCompletedAt : Z; PointAsOf : Z; PointTotals : PostureTotals;
  PointBySeverity : SeverityCounts; PointCoverage : PostureCoverage }.

Record HistoricalTrendDelta := {
  DeltaFindings : Z; DeltaOpenFindings : Z; DeltaAcceptedRisk : Z; DeltaSuppressed : Z; DeltaFalsePositive : Z;
  DeltaCritical : Z; DeltaHigh : Z; DeltaMedium : Z; DeltaLow : Z; DeltaInfo : Z;
  DeltaScannedAssets : Z; DeltaUnscannedAssets : Z; DeltaStaleAssets : Z; DeltaUnknownFreshnessAssets : Z }.

Record HistoricalTrend := {
  TrendWorkspaceID : string; TrendFrom : Z; TrendTo : Z; TrendDays : Z; TrendPoints : list HistoricalTrendPoint;
  TrendDelta : option HistoricalTrendDelta; TrendVerification : string * string }.

(** Differences of counts, which are not negative: int64 does not overflow. *)
Definition historicalDelta (first last : HistoricalTrendPoint) : HistoricalTrendDelta :=
  let t := PointTotals last in let t0 := PointTotals first in
  let s := PointBySeverity last in let s0 := PointBySeverity first in
  let c := PointCoverage last in let c0 := PointCoverage first in
  {| DeltaFindings := TotalFindings t - TotalFindings t0; DeltaOpenFindings := OpenFindings t - OpenFindings t0;
     DeltaAcceptedRisk := AcceptedRisk t - AcceptedRisk t0; DeltaSuppressed := Suppressed t - Suppressed t0;
     DeltaFalsePositive := FalsePositive t - FalsePositive t0; DeltaCritical := Critical s - Critical s0;
     DeltaHigh := High s - High s0; DeltaMedium := Medium s - Medium s0; DeltaLow := Low s - Low s0;
     DeltaInfo := Info s - Info s0; DeltaScannedAssets := ScannedAssets c - ScannedAssets c0;
     DeltaUnscannedAssets := UnscannedAssets c - UnscannedAssets c0; DeltaStaleAssets := StaleAssets c - StaleAssets c0;
     DeltaUnknownFreshnessAssets := UnknownFreshnessAssets c - UnknownFreshnessAssets c0 |}.

(** [ORDER BY completed_at,id]. *)
Definition completedLe (a b : string * SnapshotRow) : bool :=
  let x := default 0 (q_completed_at (q_job a.2)) in let y := default 0 (q_completed_at (q_job b.2)) in
  (x <? y) || (x =? y) && strLe a.1 b.1.
Definition completedOrder (a b : string * SnapshotRow) : Prop := completedLe a b = true.
#[export] Instance completedOrder_dec a b : Decision (completedOrder a b).
Proof. unfold completedOrder. apply _. Defined.

Definition trendRow (workspace : string) (from to : Z) (r : SnapshotRow) : bool :=
  let j := q_job r in
  ofWorkspace workspace r && (q_state j ==? ISucceeded) && isSome (q_result j) &&
  match q_completed_at j with Some t => (from <=? t) && (t <=? to) | None => false end.

(** One row of the loop; completed_at is compared as an instant with the
    report's own time. *)
Definition trendPoint (r : string * SnapshotRow) : Res HistoricalTrendPoint :=
  match q_result (q_job r.2), q_completed_at (q_job r.2) with
  | Some report, Some completed =>
      if ReportAsOf report =? completed * 1000 then
        Ok {| PointID := r.1; PointName := rs_name (q_meta r.2); PointCompletedAt := completed * 1000;
              PointAsOf := ReportAsOf report; PointTotals := ReportTotals report;
              PointBySeverity := ReportBySeverity report; PointCoverage := ReportCoverage report |}
      else Err errInvalid
  | _, _ => Err ErrDecode
  end.

Fixpoint trendPoints (l : list (string * SnapshotRow)) : Res (list HistoricalTrendPoint) :=
  match l with
  | [] => Ok []
  | r :: l' => match trendPoint r with
               | Err e => Err e
               | Ok p => match trendPoints l' with Err e => Err e | Ok ps => Ok (p :: ps) end
               end
  end.

Definition reportTrends (query_ : urlQuery) (workspace : string) : M DB HistoricalTrend :=
  days <- fromRes (historicalTrendDays query_) ;;
  transaction (
    to <- nowNanos ;;
    let from := to - daysNanos days in
    rows <- query (λ _ db, Ok (take (reportTrendLimit + 1) (merge_sort completedOrder
      (rowsWhere (λ _ r, trendRow workspace (micros from) (micros to) r) (t_snapshots db))))) ;;
    points <- fromRes (trendPoints rows) ;;
    guard (length points <=? reportTrendLimit)%nat errTooLarge ;;;
    ret {| TrendWorkspaceID := workspace; TrendFrom := from; TrendTo := to; TrendDays := days;
           TrendPoints := points;
           TrendDelta := match points with
                         | p :: _ :: _ => historicalDelta p <$> last points
                         | _ => None
                         end;
           TrendVerification := ("not-run", historicalTrendVerificationReason) |}).
