(* ===== verification/ReportExports.v ===== *)
(** * internal/app: report exports and the report worker

    [report_exports.go]: files in JSON or CSV made from a saved snapshot,
    requested once per idempotency key, produced by the worker and served with
    their digest; [ProcessReports] of [report_worker.go], which drains both
    report queues.  A saved report is read back from its JSON form as the value
    that was saved, so the tests of its object shape succeed; the tests of its
    contents are modelled. *)
From stdpp Require Import pretty.
From S2P Require Import Prelude GoLib Encoding Tx ReportAdapter Schema Auth Intake Paging Assets WorkViews Work Reports ReportQueue ReportSnapshots.
Local Open Scope Z_scope.

Definition reportExportContentLimit : Z := 256 * 1024.
Definition reportExportFailure : string * string :=
  ("report-export-generation-failed", "Report export generation could not be committed").

(** ** Requests *)

Record ReportExport := {
  ExportID : string; ExportWorkspaceID : string; ExportSnapshotID : string; ExportSnapshotName : string;
  ExportRequestedBy : string; ExportFormat : string; ExportState : istate; ExportCreatedAt : Z;
  ExportCompletedAt : option Z; ExportFailure : option Failure; ExportDigest : option string;
  ExportSizeBytes : option Z; ExportFilename : option string }.

Definition exportFilename (snapshot format : string) : string := "aspm-report-" +:+ snapshot +:+ "." +:+ format.

Definition scanReportExport (id name : string) (r : ExportRow) : ReportExport :=
  let m := q_meta r in let j := q_job r in
  let artifact := if q_state j ==? ISucceeded then q_result j else None in
  {| ExportID := id; ExportWorkspaceID := re_workspace_id m; ExportSnapshotID := re_snapshot_id m;
     ExportSnapshotName := name; ExportRequestedBy := re_requested_by m; ExportFormat := re_format m;
     ExportState := q_state j; ExportCreatedAt := re_created_at m; ExportCompletedAt := q_completed_at j;
     ExportFailure := if q_state j ==? IFailed
       then (λ f, {| FailureCode := fst f; FailureMessage := snd f; Retryable := false |}) <$> q_failure j
       else None;
     ExportDigest := re_content_digest <$> artifact; ExportSizeBytes := re_content_size <$> artifact;
     ExportFilename := (λ _, exportFilename (re_snapshot_id m) (re_format m)) <$> artifact |}.

Definition reportExportStatus (state : istate) : Z :=
  if (state ==? ISucceeded) || (state ==? IFailed) then 200 else 202.

Definition validReportExportFormat (value : string) : bool := (value ==? "json") || (value ==? "csv").

(** The joined snapshot: its name. *)
Definition snapshotName (db : DB) (r : ExportRow) : option string :=
  match t_snapshots db !! re_snapshot_id (q_meta r) with
  | Some s => if ofWorkspace (re_workspace_id (q_meta r)) s then Some (rs_name (q_meta s)) else None
  | None => None
  end.

Definition keyed (workspace key : string) (r : ExportRow) : bool :=
  (re_workspace_id (q_meta r) ==? workspace) && (re_idempotency_key (q_meta r) ==? key).

(** [INSERT ... ON CONFLICT(workspace_id,idempotency_key) DO NOTHING]. *)
Definition insertExport (id : string) (m : ExportMeta) : M DB unit :=
  stmt (λ t db,
    if anyRow (λ _ r, keyed (re_workspace_id m) (re_idempotency_key m) r) (t_reportExports db) then Ok (tt, db)
    else if negb (isSome (t_workspaces db !! re_workspace_id m) &&
                  isSome (t_memberships db !! (re_workspace_id m, re_requested_by m)) &&
                  match t_snapshots db !! re_snapshot_id m with
                  | Some s => ofWorkspace (re_workspace_id m) s
                  | None => false
                  end) then Err ErrConstraint
    else match insertRow id (queuedRow m t) (t_reportExports db) with
         | Ok x => Ok (tt, with_reportExports x db)
         | Err e => Err e
         end).

Definition createExportTx (workspace userID snapshotID format key : string) : M DB ReportExport :=
  ready <- query (λ _ db, match t_snapshots db !! snapshotID with
    | Some s => if ofWorkspace workspace s
                then Ok ((q_state (q_job s) ==? ISucceeded) && isSome (q_result (q_job s)) &&
                         isSome (q_completed_at (q_job s)))
                else Err ErrNoRows
    | None => Err ErrNoRows
    end) ;;
  guard ready errConflict ;;;
  id <- newID ;;
  at_ <- now ;;
  insertExport id {| re_workspace_id := workspace; re_snapshot_id := snapshotID; re_requested_by := userID;
    re_format := format; re_idempotency_key := key; re_created_at := at_ |} ;;;
  result <- query (λ _ db,
    match findRow (λ _ r, keyed workspace key r && isSome (snapshotName db r)) (t_reportExports db) with
    | Some (i, r) => Ok (scanReportExport i (default "" (snapshotName db r)) r)
    | None => Err ErrNoRows
    end) ;;
  guard ((ExportSnapshotID result ==? snapshotID) && (ExportFormat result ==? format)) errConflict ;;;
  ret result.

Definition createReportExport (workspace userID snapshotID format key : string) : M DB (ReportExport * Z) :=
  guard (validID snapshotID && validReportExportFormat format && validText key 256) errInvalid ;;;
  result <- transaction (createExportTx workspace userID snapshotID format key) ;;
  ret (result, reportExportStatus (ExportState result)).

Definition reportExportPageParameters (query : urlQuery) : Res (nat * string) :=
  if negb (onlyKeys ["limit"; "cursor"] query) then Err errInvalid
  else match (if isSome (q_values query !! "limit")
              then match ParseInt (queryGet query "limit") with
                   | Some n => if (n <? 1) || (100 <? n) then Err errInvalid else Ok n
                   | None => Err errInvalid
                   end
              else Ok 100) with
       | Err e => Err e
       | Ok limit =>
           if isSome (q_values query !! "cursor") && negb (validID (queryGet query "cursor")) then Err errInvalid
           else Ok (Z.to_nat limit, queryGet query "cursor")
       end.

Definition exportOf (workspace : string) (r : ExportRow) : bool := re_workspace_id (q_meta r) ==? workspace.

Definition listReportExports (query_ : urlQuery) (workspace : string) : M DB (list ReportExport * Z * option string) :=
  p <- fromRes (reportExportPageParameters query_) ;;
  transaction (
    total <- query (λ _ db, Ok (countRows (λ _ r, exportOf workspace r) (t_reportExports db))) ;;
    items <- query (λ _ db, Ok (take (fst p + 1)
      ((λ r, scanReportExport r.1 (default "" (snapshotName db r.2)) r.2) <$>
       rowsAfter (λ _ r, exportOf workspace r && isSome (snapshotName db r)) (t_reportExports db) (snd p)))) ;;
    let page := cutPage ExportID (fst p) items in
    ret (fst page, total, snd page)).

Definition getReportExport (workspace id : string) : M DB ReportExport :=
  query (λ _ db, match t_reportExports db !! id with
    | Some r => match (if exportOf workspace r then snapshotName db r else None) with
                | Some name => Ok (scanReportExport id name r)
                | None => Err ErrNoRows
                end
    | None => Err ErrNoRows
    end).

(** The body of the response and its Content-Type, file name, digest and length. *)
Record ExportContent := {
  ContentBody : list N; ContentType : string; ContentFilename : string; ContentDigest : string; ContentLength : Z }.

Definition getReportExportContent (workspace id : string) : M DB ExportContent :=
  row <- query (λ _ db, match t_reportExports db !! id with
    | Some r => if exportOf workspace r then Ok r else Err ErrNoRows
    | None => Err ErrNoRows
    end) ;;
  guard (q_state (q_job row) ==? ISucceeded) errConflict ;;;
  match q_result (q_job row) with
  | None => throw errEvidenceCorrupt
  | Some a =>
      guard ((re_content_size a =? Z.of_nat (length (re_content a))) &&
             (re_content_digest a ==? reportDigest (re_content a))) errEvidenceCorrupt ;;;
      ret {| ContentBody := re_content a;
             ContentType := if re_format (q_meta row) ==? "csv" then "text/csv; charset=utf-8"
                            else "application/json; charset=utf-8";
             ContentFilename := exportFilename (re_snapshot_id (q_meta row)) (re_format (q_meta row));
             ContentDigest := re_content_digest a; ContentLength := re_content_size a |}
  end.

(** ** The content *)

(** What [decodeSavedPostureReport] requires of a saved report; instants are
    nanoseconds, [completed] comes from the timestamptz column. *)
Definition savedCounts (r : PostureReport) : list Z :=
  let t := ReportTotals r in let s := ReportBySeverity r in let c := ReportCoverage r in
  [TotalAssets t; TotalFindings t; OpenFindings t; AcceptedRisk t; ExpiredAcceptedRisk t; Suppressed t;
   ExpiredSuppression t; FalsePositive t; InferredResolved t; VerifiedResolved t;
   Critical s; High s; Medium s; Low s; Info s;
   ScannedAssets c; UnscannedAssets c; StaleAssets c; UnknownFreshnessAssets c].

Definition decodeSavedPostureReport (r : PostureReport) (workspace : string) (completed : Z) : Res PostureReport :=
  let w := ReportWindow r in
  if existsb (λ n, n <? 0) (savedCounts r) then Err errReportWork
  else if (ReportWorkspaceID r !=? workspace) || (1000 <=? Z.abs (ReportAsOf r - completed * 1000)) ||
          negb (validFreshnessDays (FreshnessWindowDays (ReportCoverage r))) ||
          negb (WindowDays w =? FreshnessWindowDays (ReportCoverage r)) ||
          negb (WindowTo w =? ReportAsOf r) || negb (WindowFrom w =? ReportAsOf r - daysNanos (WindowDays w)) ||
          negb (validText (fst (ReportVerification r)) 128) || negb (validText (snd (ReportVerification r)) 4096)
  then Err errReportWork
  else Ok r.

(** encoding/csv: which fields are quoted, and how. *)
Definition fieldNeedsQuotes (field : string) : bool :=
  if field ==? "" then false
  else if field ==? "\." then true
  else existsb (λ b, ((b =? 10) || (b =? 13) || (b =? 34) || (b =? 44))%N) (bytes field) ||
       negb (length (trimLeft (bytes field)) =? length (bytes field))%nat.
Definition csvField (field : string) : list N :=
  if fieldNeedsQuotes field
  then 34%N :: (bytes field ≫= (λ b, if (b =? 34)%N then [34; 34]%N else [b])) ++ [34%N]
  else bytes field.
Fixpoint csvLine (row : list string) : list N :=
  match row with
  | [] => []
  | [f] => csvField f
  | f :: row' => csvField f ++ 44%N :: csvLine row'
  end.

Definition reportRows (snapshotID name : string) (completedAt : Z) (r : PostureReport) : list (list string) :=
  let t := ReportTotals r in let s := ReportBySeverity r in let c := ReportCoverage r in
  let w := ReportWindow r in
  [["section"; "metric"; "value"];
   ["snapshot"; "id"; snapshotID]; ["snapshot"; "name"; csvText name];
   ["snapshot"; "completedAt"; formatNanos completedAt];
   ["report"; "workspaceId"; ReportWorkspaceID r]; ["report"; "asOf"; formatNanos (ReportAsOf r)];
   ["totals"; "assets"; pretty (TotalAssets t)]; ["totals"; "findings"; pretty (TotalFindings t)];
   ["totals"; "openFindings"; pretty (OpenFindings t)]; ["totals"; "acceptedRisk"; pretty (AcceptedRisk t)];
   ["totals"; "expiredAcceptedRisk"; pretty (ExpiredAcceptedRisk t)];
   ["totals"; "suppressed"; pretty (Suppressed t)];
   ["totals"; "expiredSuppression"; pretty (ExpiredSuppression t)];
   ["totals"; "falsePositive"; pretty (FalsePositive t)];
   ["totals"; "inferredResolved"; pretty (InferredResolved t)];
   ["totals"; "verifiedResolved"; pretty (VerifiedResolved t)];
   ["severity"; "critical"; pretty (Critical s)]; ["severity"; "high"; pretty (High s)];
   ["severity"; "medium"; pretty (Medium s)]; ["severity"; "low"; pretty (Low s)];
   ["severity"; "info"; pretty (Info s)];
   ["coverage"; "scannedAssets"; pretty (ScannedAssets c)];
   ["coverage"; "unscannedAssets"; pretty (UnscannedAssets c)];
   ["coverage"; "staleAssets"; pretty (StaleAssets c)];
   ["coverage"; "unknownFreshnessAssets"; pretty (UnknownFreshnessAssets c)];
   ["coverage"; "freshnessWindowDays"; pretty (FreshnessWindowDays c)];
   ["freshnessWindow"; "from"; formatNanos (WindowFrom w)]; ["freshnessWindow"; "to"; formatNanos (WindowTo w)];
   ["freshnessWindow"; "days"; pretty (WindowDays w)];
   ["verification"; "state"; fst (ReportVerification r)];
   ["verification"; "reason"; snd (ReportVerification r)]].

Definition encodeReportExportCSV (snapshotID name : string) (completedAt : Z) (r : PostureReport) : list N :=
  reportRows snapshotID name completedAt r ≫= (λ row, csvLine row ++ [13; 10]%N).

(** [None] where json.Marshal refuses an instant. *)
Definition encodeReportExport (format snapshotID name : string) (completedAt : Z) (r : PostureReport) : option (list N) :=
  if format ==? "csv" then Some (encodeReportExportCSV snapshotID name completedAt r)
  else
    report ← reportJSON r;
    completed ← nanosJSON completedAt;
    Some (bytes (marshal (JObject [
      ("apiVersion", JString "aspm/v1alpha1");
      ("export", JObject [("snapshotId", JString snapshotID); ("name", JString name);
                          ("completedAt", completed); ("report", report)])])) ++ [10%N]).

(** ** The worker *)

Record reportExportJob := {
  ejID : string; ejWorkspaceID : string; ejSnapshotID : string; ejFormat : string; ejWorkerID : string;
  ejFence : Z; ejAttempts : Z }.
Definition exportClaim (job : reportExportJob) : claim :=
  {| claimID := ejID job; claimWorker := ejWorkerID job; claimFence := ejFence job |}.

(** CHECK(completed_at IS NULL OR completed_at>=created_at). *)
Definition timestampsCheck (r : ExportRow) : bool :=
  match q_completed_at (q_job r) with Some t => re_created_at (q_meta r) <=? t | None => true end.

Definition exhaustExport (at_ : Z) (r : ExportRow) : ExportRow :=
  endRow r IFailed (q_result (q_job r)) (Some at_) (Some reportExportFailure) (q_available_at (q_job r)).

Definition claimReportExport (worker : string) : M DB reportExportJob :=
  at_ <- now ;;
  locked <- skipLocked ;;
  stmt (λ t db,
    let rows := exhaustedRows locked t (t_reportExports db) in
    if forallb (λ r, timestampsCheck (exhaustExport at_ r.2)) rows
    then Ok (tt, with_reportExports (updateRows (λ id _, bool_decide (id ∈ fst <$> rows)) (exhaustExport at_)
                                       (t_reportExports db)) db)
    else Err ErrConstraint) ;;;
  locked <- skipLocked ;;
  span <- intervalOf reportLease ;;
  stmt (λ t db,
    match candidate locked t (t_reportExports db) with
    | None => Err ErrNoRows
    | Some (id, r) =>
        let r' := claimRow r worker (t + span) in
        Ok ({| ejID := id; ejWorkspaceID := re_workspace_id (q_meta r); ejSnapshotID := re_snapshot_id (q_meta r);
               ejFormat := re_format (q_meta r); ejWorkerID := worker; ejFence := q_fence (q_job r');
               ejAttempts := q_attempts (q_job r') |},
            with_reportExports (<[id := r']> (t_reportExports db)) db)
    end).

(** [UPDATE report_exports SET f WHERE id AND the fence and the lease hold],
    under the table's CHECK. *)
Definition updateHeld (c : claim) (f : Z → ExportRow → ExportRow) : M DB bool :=
  stmt (λ t db, match t_reportExports db !! claimID c with
    | Some r => if holds t c r
                then if timestampsCheck (f t r)
                     then Ok (true, with_reportExports (<[claimID c := f t r]> (t_reportExports db)) db)
                     else Err ErrConstraint
                else Ok (false, db)
    | None => Ok (false, db)
    end).

Definition completeExportTx (job : reportExportJob) : M DB unit :=
  let c := exportClaim job in
  active <- query (λ t db, match t_reportExports db !! claimID c with
                           | Some r => Ok (holds t c r)
                           | None => Err ErrNoRows
                           end) ;;
  guard active errReportLeaseLost ;;;
  saved <- query (λ _ db, match t_snapshots db !! ejSnapshotID job with
    | Some s =>
        match ofWorkspace (ejWorkspaceID job) s && (q_state (q_job s) ==? ISucceeded),
              q_result (q_job s), q_completed_at (q_job s) with
        | true, Some report, Some completed => Ok (rs_name (q_meta s), report, completed)
        | _, _, _ => Err ErrNoRows
        end
    | None => Err ErrNoRows
    end) ;;
  let '(name, raw, completed) := saved in
  report <- fromRes (decodeSavedPostureReport raw (ejWorkspaceID job) completed) ;;
  content <- fromRes (match encodeReportExport (ejFormat job) (ejSnapshotID job) name (ReportAsOf report) report with
                      | Some content => Ok content
                      | None => Err errReportWork
                      end) ;;
  guard (Z.of_nat (length content) <=? reportExportContentLimit) errReportWork ;;;
  at_ <- now ;;
  updated <- updateHeld c (λ _ r, endRow r ISucceeded
    (Some {| re_content := content; re_content_digest := reportDigest content;
             re_content_size := Z.of_nat (length content) |}) (Some at_) None (q_available_at (q_job r))) ;;
  guard updated errReportLeaseLost.
Definition completeReportExport (job : reportExportJob) : M DB unit := transaction (completeExportTx job).

Definition releaseExport (job : reportExportJob) (t : Z) (db : DB) : DB :=
  with_reportExports (snd (updateOne (ejID job) (owns (exportClaim job))
    (λ r, let j := q_job r in endRow r IQueued (q_result j) (q_completed_at j) (q_failure j) t)
    (t_reportExports db))) db.

Definition retryExport (at_ t : Z) (r : ExportRow) : ExportRow :=
  let j := q_job r in
  let again := q_attempts j <? reportAttempts in
  endRow r (if again then IQueued else IFailed) (q_result j) (if again then None else Some at_)
    (if again then None else Some reportExportFailure) (t + oneSecond * q_attempts j).

Definition processReportExport (job : reportExportJob) : M DB unit :=
  handle (completeReportExport job) (λ r,
  match r with
  | Ok _ => ret tt
  | Err e =>
      if decide (e = errReportLeaseLost) then throw e
      else
        done <- ctxErr ;;
        if (done : bool) then
          detached (releaseExport job) ;;;
          throw ErrContext
        else
          at_ <- now ;;
          handle (updateHeld (exportClaim job) (retryExport at_)) (λ u,
          match u with
          | Err _ => throw errReportWork
          | Ok updated => guard updated errReportLeaseLost
          end)
  end).

(** Work claimed from one queue: [Some] the outcome of processing it, [None]
    when the queue had none; another error of the claim ends the worker. *)
Definition tryQueue {J} (claim_ : M DB J) (process : J → M DB unit) : M DB (option (Res unit)) :=
  handle claim_ (λ c,
  match c with
  | Ok job => handle (process job) (λ r, ret (Some r))
  | Err e => if decide (e = ErrNoRows) then ret None else throw errReportWork
  end).

(** [err != nil && !errors.Is(err, errReportLeaseLost)] ends the worker. *)
Definition survives (r : Res unit) : M DB unit :=
  match r with
  | Ok _ => ret tt
  | Err e => if decide (e = errReportLeaseLost) then ret tt else throw e
  end.

(** The loop of [ProcessReports], taking exports and snapshots in turn; [fuel]
    bounds its iterations and [true] means that both queues were drained. *)
Fixpoint drainReports (fuel : nat) (worker : string) (preferExport : bool) : M DB bool :=
  match fuel with
  | O => ret false
  | S fuel' =>
      done <- ctxErr ;;
      guard (negb done) ErrContext ;;;
      first <- (if preferExport then tryQueue (claimReportExport worker) processReportExport else ret None) ;;
      match first with
      | Some r => survives r ;;; drainReports fuel' worker false
      | None =>
          second <- tryQueue (claimReport worker) processReport ;;
          match second with
          | Some r => survives r ;;; drainReports fuel' worker true
          | None =>
              third <- (if preferExport then ret None
                        else tryQueue (claimReportExport worker) processReportExport) ;;
              match third with
              | Some r => survives r ;;; drainReports fuel' worker false
              | None =>
                  pending <- query (λ _ db, Ok (anyRow (λ _ r, waiting r) (t_snapshots db) ||
                                                anyRow (λ _ r, waiting r) (t_reportExports db))) ;;
                  if negb pending then ret true else drainReports fuel' worker preferExport
              end
          end
      end
  end.

Definition ProcessReports (fuel : nat) : M DB bool :=
  worker <- newID ;;
  drainReports fuel worker true.
