(* ===== verification/ReportQueueProps.v ===== *)
(** * Properties of the report queues

    Interleavings of requests and workers over report_snapshots and
    report_exports: what is saved is what was computed, finished rows stay, a
    superseded worker publishes nothing, and the file that is served is the one
    made from its snapshot. *)
From S2P Require Import Prelude GoLib Encoding Tx ReportAdapter Schema Auth Intake Paging Assets WorkViews Work Reports ReportQueue ReportSnapshots ReportExports.
Local Open Scope Z_scope.

(** A snapshot holds the posture, at some instant, of the workspace and over
    the freshness window it was requested for. *)
Definition good_snapshot (r : SnapshotRow) (x : PostureReport) (t : Z) : Prop :=
  ∃ db asOf, x = posture (rs_workspace_id (q_meta r)) (rs_freshness_days (q_meta r)) asOf db ∧
    t = micros asOf ∧ validFreshnessDays (rs_freshness_days (q_meta r)) = true.

(** An export holds the encoding, in its format, of its finished snapshot. *)
Definition good_export (db : DB) (r : ExportRow) (x : ExportArtifact) (t : Z) : Prop :=
  let m := q_meta r in
  re_created_at m ≤ t ∧ re_content_digest x = reportDigest (re_content x) ∧
  re_content_size x = Z.of_nat (length (re_content x)) ∧ re_content_size x ≤ reportExportContentLimit ∧
  ∃ s report, t_snapshots db !! re_snapshot_id m = Some s ∧ rs_workspace_id (q_meta s) = re_workspace_id m ∧
    q_state (q_job s) = ISucceeded ∧ q_result (q_job s) = Some report ∧
    encodeReportExport (re_format m) (re_snapshot_id m) (rs_name (q_meta s)) (ReportAsOf report) report
      = Some (re_content x).

Lemma good_snapshot_meta r r' x t : q_meta r' = q_meta r → good_snapshot r x t → good_snapshot r' x t.
Proof. unfold good_snapshot. by intros ->. Qed.
Lemma good_export_meta db r r' x t : q_meta r' = q_meta r → good_export db r x t → good_export db r' x t.
Proof. unfold good_export. by intros ->. Qed.

(** UNIQUE(workspace_id,idempotency_key). *)
Definition unique_keys (m : gmap string ExportRow) : Prop :=
  ∀ i j r r', m !! i = Some r → m !! j = Some r' → re_workspace_id (q_meta r) = re_workspace_id (q_meta r') →
    re_idempotency_key (q_meta r) = re_idempotency_key (q_meta r') → i = j.

Definition reports_evolve (db db' : DB) : Prop :=
  queue_evolves good_snapshot (t_snapshots db) (t_snapshots db') ∧
  queue_evolves (good_export db') (t_reportExports db) (t_reportExports db') ∧
  (unique_keys (t_reportExports db) → unique_keys (t_reportExports db')).

(** A finished snapshot is there for good. *)
Lemma good_export_later db db' r x t :
  queue_evolves good_snapshot (t_snapshots db) (t_snapshots db') → good_export db r x t → good_export db' r x t.
Proof.
  intros [H _] (? & ? & ? & ? & s & report & Hs & Hw & Hst & Hr & He). split_and!; [done..|].
  apply H in Hs as (s' & Hs' & Hq). apply qsteps_final in Hq as ->; [by exists s, report|].
  unfold waiting. by rewrite Hst.
Qed.

Lemma queue_evolves_mono {A R} (G G' : QueueRow A R → R → Z → Prop) m m' :
  (∀ r x t, G r x t → G' r x t) → queue_evolves G m m' → queue_evolves G' m m'.
Proof.
  intros HG. assert (∀ r r', rtc (qstep G) r r' → rtc (qstep G') r r') as Hs.
  { intros r r'. apply rtc_subrel. intros ? ? []; constructor; auto. }
  intros [H N]. split; [intros i r Hr; destruct (H i r Hr) as (? & ? & ?); eauto|].
  intros i r Hn Hr. destruct (N i r Hn Hr) as (? & ? & ?); eauto.
Qed.

#[export] Instance reports_evolve_preorder : PreOrder reports_evolve.
Proof.
  split.
  - intros db. split_and!; [apply queue_refl..|done].
  - intros d1 d2 d3 (S1 & E1 & U1) (S2 & E2 & U2). split_and!; [by eapply queue_trans| |auto].
    eapply queue_trans; [|done]. eapply queue_evolves_mono; [|done]. intros r x t. by apply good_export_later.
Qed.

Lemma snapshots_evolve db m :
  queue_evolves good_snapshot (t_snapshots db) m → reports_evolve db (with_snapshots m db).
Proof. intros H. split_and!; [done|apply queue_refl|done]. Qed.

(** Steps that add no export keep the keys unique. *)
Lemma exports_evolve db m :
  queue_evolves (good_export db) (t_reportExports db) m →
  (∀ i r, m !! i = Some r → is_Some (t_reportExports db !! i)) →
  reports_evolve db (with_reportExports m db).
Proof.
  intros H Hd. split_and!; [apply queue_refl|eapply queue_evolves_mono; [|done]; done|].
  simpl. intros Hu i j r r' Hr Hr'. destruct (Hd i r Hr) as [r0 H0], (Hd j r' Hr') as [r0' H0'].
  destruct (proj1 H i r0 H0) as (? & ? & (E & _)%qsteps_stable).
  destruct (proj1 H j r0' H0') as (? & ? & (E' & _)%qsteps_stable). simplify_eq. rewrite E, E'.
  by apply Hu.
Qed.

Lemma export_update db i r r' :
  t_reportExports db !! i = Some r → qstep (good_export db) r r' →
  reports_evolve db (with_reportExports (<[i := r']> (t_reportExports db)) db).
Proof.
  intros Hr Hs. apply exports_evolve; [by apply (queue_update _ _ _ r)|]. intros k rk.
  rewrite lookup_insert. destruct (decide (i = k)) as [->|]; eauto.
Qed.

(** ** Requests *)

Lemma createReportSnapshot_evolves ws u name d : Steps reports_evolve (createReportSnapshot ws u name d).
Proof.
  unfold createReportSnapshot. steps. apply steps_stmt; [apply _|]. intros t db x db' Hi. cbv zeta in Hi.
  destruct (negb _); [done|]. unfold insertRow in Hi.
  match type of Hi with context [t_snapshots db !! ?i] => destruct (t_snapshots db !! i) eqn:E end; [done|].
  injection Hi as _ <-. by apply snapshots_evolve, queue_insert.
Qed.

Lemma insertExport_evolves id m : Steps reports_evolve (insertExport id m).
Proof.
  apply steps_stmt; [apply _|]. intros t db x db' H. destruct (anyRow _ _) eqn:Ea; [by simplify_eq|].
  destruct (negb _); [done|]. unfold insertRow in H. destruct (t_reportExports db !! id) eqn:E; [done|].
  injection H as _ <-. split_and!; [apply queue_refl|by apply queue_insert|]. simpl.
  intros Hu i j r r' Hr Hr' Hw Hk.
  assert (∀ k rk, t_reportExports db !! k = Some rk → re_workspace_id (q_meta rk) = re_workspace_id m →
    re_idempotency_key (q_meta rk) = re_idempotency_key m → False) as Hno.
  { intros k rk Hrk E1 E2. rewrite anyRow_false in Ea. apply Ea in Hrk. unfold keyed in Hrk.
    rewrite !bool_decide_true in Hrk by done. done. }
  rewrite lookup_insert in Hr, Hr'.
  destruct (decide (id = i)) as [<-|], (decide (id = j)) as [<-|]; simplify_eq/=; eauto; exfalso; eauto.
Qed.

Lemma createReportExport_evolves ws u sid f key : Steps reports_evolve (createReportExport ws u sid f key).
Proof. unfold createReportExport, createExportTx. steps; apply insertExport_evolves. Qed.

(** ** Workers *)

Lemma claimReport_evolves w : Steps reports_evolve (claimReport w).
Proof.
  unfold claimReport. steps.
  - apply steps_exec; [apply _|]. intros t db. apply snapshots_evolve, exhaust_evolves.
  - apply steps_stmt; [apply _|]. intros t db x db' H.
    destruct (candidate _ _ _) as [[i r]|] eqn:E; [|done]. injection H as _ <-.
    by eapply snapshots_evolve, claim_evolves.
Qed.

Lemma claimReportExport_evolves w : Steps reports_evolve (claimReportExport w).
Proof.
  unfold claimReportExport. steps.
  - apply steps_stmt; [apply _|]. intros t db x db' H. cbv zeta in H. destruct (forallb _ _); [|done].
    injection H as _ <-. apply exports_evolve; [apply (exhaust_evolves _ _ _ _ _ (λ _, Some _))|].
    intros i r. rewrite lookup_updateRows. destruct (t_reportExports db !! i); [eauto|done].
  - apply steps_stmt; [apply _|]. intros t db x db' H.
    destruct (candidate _ _ _) as [[i r]|] eqn:E; [|done]. injection H as _ <-.
    apply candidate_lookup in E as [? [? ?]%claimable_waiting]. apply (export_update _ _ r); [done|]. by constructor.
Qed.

(** [under I R]: from a state where [I] holds, an [R] step after which [I] holds. *)
Definition under {S} (I : S → Prop) (R : S → S → Prop) (s s' : S) : Prop := I s → R s s' ∧ I s'.
#[local] Instance under_preorder {S} (I : S → Prop) R `{!PreOrder R} : PreOrder (under I R).
Proof.
  split; [by intros s ?|]. intros s1 s2 s3 H1 H2 Hi. destruct (H1 Hi) as [? Hi2].
  destruct (H2 Hi2). split; [by etransitivity|done].
Qed.

(** The row a worker claimed is the one its job describes. *)
Definition job_fits (job : reportJob) (db : DB) : Prop :=
  ∃ r, t_snapshots db !! claimID (jobClaim job) = Some r ∧ q_meta r = jobMeta job.
Definition export_fits (job : reportExportJob) (db : DB) : Prop :=
  ∃ r, t_reportExports db !! ejID job = Some r ∧ re_workspace_id (q_meta r) = ejWorkspaceID job ∧
    re_snapshot_id (q_meta r) = ejSnapshotID job ∧ re_format (q_meta r) = ejFormat job.

Lemma job_fits_later job db db' : reports_evolve db db' → job_fits job db → job_fits job db'.
Proof.
  intros [[H _] _] (r & Hr & Hm). apply H in Hr as (r' & ? & (E & _)%qsteps_stable).
  exists r'. by rewrite E.
Qed.
Lemma export_fits_later job db db' : reports_evolve db db' → export_fits job db → export_fits job db'.
Proof.
  intros (_ & [H _] & _) (r & Hr & Hm). apply H in Hr as (r' & ? & (E & _)%qsteps_stable).
  exists r'. by rewrite E.
Qed.
Lemma under_job job db db' :
  (job_fits job db → reports_evolve db db') → under (job_fits job) reports_evolve db db'.
Proof. intros H Hf. split; [auto|]. eapply job_fits_later; eauto. Qed.
Lemma under_export job db db' :
  (export_fits job db → reports_evolve db db') → under (export_fits job) reports_evolve db db'.
Proof. intros H Hf. split; [auto|]. eapply export_fits_later; eauto. Qed.

#[local] Instance under_job_preorder job : PreOrder (under (job_fits job) reports_evolve).
Proof. apply _. Qed.
#[local] Instance under_export_preorder job : PreOrder (under (export_fits job) reports_evolve).
Proof. apply _. Qed.

(** What a successful [completeReport] did. *)
Lemma completeTx_inv job env n db x db' n' :
  completeTx job env n db = mkOut (Ok x) db' n' →
  ∃ r t asOf, let m := jobMeta job in
    t_snapshots db !! claimID (jobClaim job) = Some r ∧ holds t (jobClaim job) r = true ∧
    validFreshnessDays (rs_freshness_days m) = true ∧
    db' = with_snapshots (<[claimID (jobClaim job) :=
            endRow r ISucceeded (Some (posture (rs_workspace_id m) (rs_freshness_days m) asOf db))
              (Some (micros asOf)) None (q_available_at (q_job r))]> (t_snapshots db)) db.
Proof.
  unfold completeTx. intros (active & ? & ? & [_ ->]%query_inv & H)%bind_inv.
  apply bind_inv in H as (? & ? & ? & [_ ->]%guard_inv & H).
  apply bind_inv in H as (asOf & ? & ? & [Has ->]%nowNanos_inv & H).
  apply bind_inv in H as (report & ? & ? & Hp & H).
  apply bind_inv in Hp as (? & ? & ? & [Hd ->]%guard_inv & [Hp ->]%query_inv). injection Hp as <-.
  apply bind_inv in H as (? & ? & ? & [_ ->]%guard_inv & H).
  apply bind_inv in H as (updated & db2 & ? & He%exec_inv & H).
  apply guard_inv in H as [-> ->]. unfold updateOne in He.
  destruct (t_snapshots db !! claimID (jobClaim job)) as [r|] eqn:Hr; [|done].
  destruct (holds _ _ r) eqn:Hh; [|done]. injection He as <-. exists r. eauto 10.
Qed.

Lemma completeReport_evolves job : Steps (under (job_fits job) reports_evolve) (completeReport job).
Proof.
  unfold completeReport. apply steps_transaction_ok; [apply _|]. intros env n db x db' n' H. apply under_job.
  apply completeTx_inv in H as (r & t & asOf & Hr & Hh & Hd & ->). intros (r' & Hr' & Hm). assert (r' = r) as -> by congruence.
  apply snapshots_evolve, (queue_update _ _ _ r); [done|]. apply qs_succeed; [by eapply holds_processing|].
  exists db, asOf. by rewrite Hm.
Qed.

Lemma processReport_evolves job : Steps (under (job_fits job) reports_evolve) (processReport job).
Proof.
  unfold processReport. apply steps_handle; [apply _|apply completeReport_evolves|]. intros [x|e]; [apply steps_ret; apply _|]. steps.
  - apply steps_detached; [apply _|]. intros t db. apply under_job. intros _.
    apply snapshots_evolve, updateOne_evolves. intros r _ Hr%owns_processing. apply qs_release; auto.
  - apply steps_exec; [apply _|]. intros t db. apply under_job. intros _.
    destruct (updateOne _ _ _ _) as [ok m] eqn:E. simpl. apply (f_equal snd) in E. simpl in E. subst m.
    apply snapshots_evolve, updateOne_evolves. intros r _ Hr%holds_processing.
    apply (qs_release _ _ _ (q_completed_at (q_job r)) (Some _)); [done|]. destruct (_ <? _); eauto.
Qed.

Lemma updateHeld_inv c f env n db ok db' n' :
  updateHeld c f env n db = mkOut (Ok ok) db' n' →
  (ok = false ∧ db' = db) ∨
  ∃ r t, t_reportExports db !! claimID c = Some r ∧ holds t c r = true ∧ timestampsCheck (f t r) = true ∧
    ok = true ∧ db' = with_reportExports (<[claimID c := f t r]> (t_reportExports db)) db.
Proof.
  intros H%stmt_inv. destruct (t_reportExports db !! claimID c) as [r|] eqn:Hr; [|left; by simplify_eq].
  destruct (holds _ _ r) eqn:Hh; [|left; by simplify_eq]. destruct (timestampsCheck _) eqn:Ht; [|done].
  injection H as <- <-. right. eauto 10.
Qed.

Lemma completeExport_evolves job : Steps (under (export_fits job) reports_evolve) (completeReportExport job).
Proof.
  unfold completeReportExport. apply steps_transaction_ok; [apply _|]. intros env n db x db' n' H.
  apply under_export. intros (re & Hre & Hw & Hs & Hf). unfold completeExportTx in H.
  apply bind_inv in H as (active & ? & ? & [_ ->]%query_inv & H).
  apply bind_inv in H as (? & ? & ? & [_ ->]%guard_inv & H).
  apply bind_inv in H as ([[name raw] completed] & ? & ? & [Hsaved ->]%query_inv & H).
  apply bind_inv in H as (report & ? & ? & [Hdec ->]%fromRes_inv & H).
  apply bind_inv in H as (content & ? & ? & [Henc ->]%fromRes_inv & H).
  apply bind_inv in H as (? & ? & ? & [Hlen ->]%guard_inv & H).
  apply bind_inv in H as (at_ & ? & ? & [Hat ->]%now_inv & H).
  apply bind_inv in H as (updated & db2 & ? & Hu%updateHeld_inv & [-> ->]%guard_inv).
  destruct Hu as [[? _]|(r & t & Hr & Hh & Ht & _ & ->)]; [done|]. change (claimID _) with (ejID job) in Hr.
  assert (re = r) as -> by congruence. apply (export_update _ _ r); [done|].
  apply qs_succeed; [by eapply holds_processing|].
  destruct (t_snapshots db !! ejSnapshotID job) as [s|] eqn:Es; [|done].
  destruct (_ && _) eqn:Eo in Hsaved; [|done]. destruct (q_result (q_job s)) as [raw'|] eqn:Er; [|done].
  destruct (q_completed_at (q_job s)); [|done]. injection Hsaved as <- <- <-. unfold ofWorkspace in Eo. breflect_in Eo.
  assert (report = raw') as ->.
  { unfold decodeSavedPostureReport in Hdec. destruct (existsb _ _); [done|]. destruct (_ || _); [done|].
    by injection Hdec. }
  destruct (encodeReportExport _ _ _ _ _) as [content'|] eqn:Ee; [|done]. injection Henc as <-.
  unfold timestampsCheck in Ht. simpl in Ht. breflect_in Ht. breflect_in Hlen.
  split_and!; simpl; [done..|]. exists s, raw'. rewrite Hs, Hw, Hf. naive_solver.
Qed.

Lemma processReportExport_evolves job : Steps (under (export_fits job) reports_evolve) (processReportExport job).
Proof.
  unfold processReportExport. apply steps_handle; [apply _|apply completeExport_evolves|]. intros [x|e]; [apply steps_ret; apply _|]. steps.
  - apply steps_detached; [apply _|]. intros t db. apply under_export. intros _.
    unfold releaseExport, updateOne. destruct (t_reportExports db !! ejID job) as [r|] eqn:Hr;
      [destruct (owns _ r) eqn:Ho|]; [|destruct db; reflexivity..].
    apply (export_update _ _ r); [done|]. apply owns_processing in Ho. apply qs_release; auto.
  - apply steps_stmt; [apply _|]. intros t db ok db' H. apply under_export. intros _.
    destruct (t_reportExports db !! claimID (exportClaim job)) as [r|] eqn:Hr; [|simplify_eq; reflexivity].
    destruct (holds _ _ r) eqn:Hh; [|simplify_eq; reflexivity]. destruct (timestampsCheck _); [|done].
    injection H as _ <-. apply (export_update _ _ r); [done|].
    apply (qs_release _ _ _ _ _ _); [by eapply holds_processing|]. destruct (_ <? _); eauto.
Qed.

(** ** The system: the database and the jobs workers hold *)

Record system := { sysDB : DB; snapshotJobs : list reportJob; exportJobs : list reportExportJob }.

Definition gained {J} (r : Res J) (held : list J) : list J :=
  match r with Ok job => job :: held | Err _ => held end.

(** One operation by anybody, in any world.  A job once claimed may be
    processed at any later time, and again after that. *)
Inductive report_step (s : system) : system → Prop :=
  | rp_snapshot ws u name d env n :
      report_step s {| sysDB := out_db (createReportSnapshot ws u name d env n (sysDB s));
                       snapshotJobs := snapshotJobs s; exportJobs := exportJobs s |}
  | rp_export ws u sid f key env n :
      report_step s {| sysDB := out_db (createReportExport ws u sid f key env n (sysDB s));
                       snapshotJobs := snapshotJobs s; exportJobs := exportJobs s |}
  | rp_claim w env n :
      let o := claimReport w env n (sysDB s) in
      report_step s {| sysDB := out_db o; snapshotJobs := gained (out_res o) (snapshotJobs s);
                       exportJobs := exportJobs s |}
  | rp_claim_export w env n :
      let o := claimReportExport w env n (sysDB s) in
      report_step s {| sysDB := out_db o; snapshotJobs := snapshotJobs s;
                       exportJobs := gained (out_res o) (exportJobs s) |}
  | rp_process job env n :
      job ∈ snapshotJobs s →
      report_step s {| sysDB := out_db (processReport job env n (sysDB s));
                       snapshotJobs := snapshotJobs s; exportJobs := exportJobs s |}
  | rp_process_export job env n :
      job ∈ exportJobs s →
      report_step s {| sysDB := out_db (processReportExport job env n (sysDB s));
                       snapshotJobs := snapshotJobs s; exportJobs := exportJobs s |}
  (* everything else the application does leaves the two tables alone *)
  | rp_other db :
      t_snapshots db = t_snapshots (sysDB s) → t_reportExports db = t_reportExports (sysDB s) →
      report_step s {| sysDB := db; snapshotJobs := snapshotJobs s; exportJobs := exportJobs s |}.

Definition jobs_fit (s : system) : Prop :=
  (∀ job, job ∈ snapshotJobs s → job_fits job (sysDB s)) ∧
  (∀ job, job ∈ exportJobs s → export_fits job (sysDB s)).

Lemma claimReport_fits w env n db job :
  out_res (claimReport w env n db) = Ok job → job_fits job (out_db (claimReport w env n db)).
Proof.
  destruct (claimReport w env n db) as [res db' n'] eqn:H. simpl. intros ->. unfold claimReport in H.
  apply bind_inv in H as (? & ? & ? & _ & H). apply bind_inv in H as (? & ? & ? & _ & H).
  apply bind_inv in H as (? & ? & ? & _ & H). apply bind_inv in H as (span & s & ? & _ & H%stmt_inv).
  destruct (candidate _ _ _) as [[i r]|]; [|done]. injection H as <- <-.
  eexists. simpl. by rewrite lookup_insert_eq.
Qed.

Lemma claimReportExport_fits w env n db job :
  out_res (claimReportExport w env n db) = Ok job → export_fits job (out_db (claimReportExport w env n db)).
Proof.
  destruct (claimReportExport w env n db) as [res db' n'] eqn:H. simpl. intros ->. unfold claimReportExport in H.
  apply bind_inv in H as (? & ? & ? & _ & H). apply bind_inv in H as (? & ? & ? & _ & H).
  apply bind_inv in H as (? & ? & ? & _ & H).
  apply bind_inv in H as (? & ? & ? & _ & H). apply bind_inv in H as (span & s & ? & _ & H%stmt_inv).
  destruct (candidate _ _ _) as [[i r]|]; [|done]. injection H as <- <-.
  eexists. simpl. by rewrite lookup_insert_eq.
Qed.

Lemma report_step_evolves s s' :
  report_step s s' → jobs_fit s → reports_evolve (sysDB s) (sysDB s') ∧ jobs_fit s'.
Proof.
  intros Hs [HJ HE].
  assert (reports_evolve (sysDB s) (sysDB s')) as Hev.
  { destruct Hs; simpl.
    - apply createReportSnapshot_evolves.
    - apply createReportExport_evolves.
    - apply claimReport_evolves.
    - apply claimReportExport_evolves.
    - by apply processReport_evolves, HJ.
    - by apply processReportExport_evolves, HE.
    - unfold reports_evolve. repeat match goal with H : _ = _ |- _ => rewrite H; clear H end.
      split_and!; [apply queue_refl..|done]. }
  split; [done|]. destruct Hs; split; intros j Hj; simpl in Hj;
    try (by eapply job_fits_later; [|apply HJ]); try (by eapply export_fits_later; [|apply HE]).
  - unfold gained in Hj. destruct (out_res _) eqn:E in Hj; [apply elem_of_cons in Hj as [->|Hj]|].
    + by apply claimReport_fits.
    + by eapply job_fits_later; [|apply HJ].
    + by eapply job_fits_later; [|apply HJ].
  - unfold gained in Hj. destruct (out_res _) eqn:E in Hj; [apply elem_of_cons in Hj as [->|Hj]|].
    + by apply claimReportExport_fits.
    + by eapply export_fits_later; [|apply HE].
    + by eapply export_fits_later; [|apply HE].
Qed.

Lemma report_steps_evolve s s' :
  rtc report_step s s' → jobs_fit s → reports_evolve (sysDB s) (sysDB s') ∧ jobs_fit s'.
Proof.
  induction 1 as [|s1 s2 s3 H _ IH]; [by split|]. intros Hf.
  destruct (report_step_evolves _ _ H Hf) as [? Hf2]. destruct (IH Hf2). split; [by etransitivity|done].
Qed.

(** A deployment begins with empty report queues and idle workers. *)
Definition fresh_reports (s : system) : Prop :=
  t_snapshots (sysDB s) = ∅ ∧ t_reportExports (sysDB s) = ∅ ∧ snapshotJobs s = [] ∧ exportJobs s = [].

Lemma fresh_jobs_fit s : fresh_reports s → jobs_fit s.
Proof. intros (_ & _ & E1 & E2). split; rewrite ?E1, ?E2; set_solver. Qed.

Definition queues_ok (db : DB) : Prop :=
  (∀ i r, t_snapshots db !! i = Some r → queue_ok good_snapshot r) ∧
  (∀ i r, t_reportExports db !! i = Some r → queue_ok (good_export db) r) ∧
  unique_keys (t_reportExports db).

Lemma queues_ok_reached s s' : fresh_reports s → rtc report_step s s' → queues_ok (sysDB s').
Proof.
  intros Hf Hs. destruct (report_steps_evolve _ _ Hs (fresh_jobs_fit _ Hf)) as [(S & E & U) _].
  destruct Hf as (F1 & F2 & _). rewrite F1 in S. rewrite F2 in E, U. split_and!.
  - eapply queue_evolves_ok; [apply good_snapshot_meta|done|]. intros i r. by rewrite lookup_empty.
  - eapply queue_evolves_ok; [apply good_export_meta|done|]. intros i r. by rewrite lookup_empty.
  - apply U. intros i j r r'. by rewrite lookup_empty.
Qed.

(** C8: in every state that snapshot and export requests, claims, processing by any number of workers under any failures and retries reach from empty report queues: a row has at most three attempts and no more than its fence; a queued or processing row has no result, only a processing row has a worker and a lease; a failed row names its failure and has no result; a succeeded snapshot holds the posture of exactly its workspace and freshness window, completed at that report's time; a succeeded export holds, with its digest and size, the encoding of its own finished snapshot; and no two exports of a workspace share an idempotency key. *)
Theorem report_queues_invariant s s' :
  fresh_reports s → rtc report_step s s' → queues_ok (sysDB s').
Proof. apply queues_ok_reached. Qed.

(** C31: a download of an export never reports corruption, and what it serves is the encoding, in the requested format, of the report its snapshot holds, under the digest and length of that very content. *)
Theorem served_export_is_snapshot s s' ws id env n :
  fresh_reports s → rtc report_step s s' →
  match out_res (getReportExportContent ws id env n (sysDB s')) with
  | Err e => e ≠ errEvidenceCorrupt
  | Ok c => ∃ r snap report,
      t_reportExports (sysDB s') !! id = Some r ∧ re_workspace_id (q_meta r) = ws ∧
      t_snapshots (sysDB s') !! re_snapshot_id (q_meta r) = Some snap ∧
      q_result (q_job snap) = Some report ∧
      encodeReportExport (re_format (q_meta r)) (re_snapshot_id (q_meta r)) (rs_name (q_meta snap))
        (ReportAsOf report) report = Some (ContentBody c) ∧
      ContentDigest c = reportDigest (ContentBody c) ∧
      ContentLength c = Z.of_nat (length (ContentBody c)) ∧ ContentLength c ≤ reportExportContentLimit
  end.
Proof.
  intros Hf Hs. destruct (queues_ok_reached _ _ Hf Hs) as (_ & HE & _).
  unfold getReportExportContent, bind at 1, query, stmt. destruct (_ || _); [by destruct (env_done _ _)|].
  destruct (t_reportExports (sysDB s') !! id) as [r|] eqn:Hr; [|done].
  destruct (exportOf ws r) eqn:Hw; [|done]. unfold exportOf in Hw. breflect_in Hw.
  specialize (HE _ _ Hr) as (_ & _ & Hj). unfold bind at 1, guard at 1.
  destruct (q_state (q_job r)) eqn:Hst; simpl; [done..| |done].
  destruct Hj as (_ & _ & _ & _ & x & t & Hx & _ & Hg). rewrite Hx.
  destruct Hg as (_ & Hd & Hz & Hl & snap & report & Hsn & _ & _ & Hrep & Henc).
  rewrite Hd, Hz, bool_decide_true, Z.eqb_refl by done. simpl.
  exists r, snap, report. split_and!; try done. by rewrite <-Hz.
Qed.

(** ** Fencing *)

Definition snapshot_lost (c : claim) (db : DB) : Prop :=
  ∃ r, t_snapshots db !! claimID c = Some r ∧ owns c r = false.
Definition export_lost (c : claim) (db : DB) : Prop :=
  ∃ r, t_reportExports db !! claimID c = Some r ∧ owns c r = false.

Lemma updateOne_lost {A R} (m : gmap string (QueueRow A R)) i (cond : QueueRow A R → bool) f r :
  m !! i = Some r → cond r = false → updateOne i cond f m = (false, m).
Proof. unfold updateOne. by intros -> ->. Qed.

Lemma completeReport_lost job env n db :
  snapshot_lost (jobClaim job) db →
  is_ok (out_res (completeReport job env n db)) = false ∧ out_db (completeReport job env n db) = db.
Proof.
  intros (r & Hr & Ho). unfold completeReport, transaction.
  destruct (completeTx job env n db) as [[x|e] db' n'] eqn:H; [exfalso|done].
  apply completeTx_inv in H as (r' & t & ? & Hr' & Hh & _). simplify_eq. by rewrite (holds_owns t) in Hh.
Qed.

Lemma processReport_lost job env n db :
  snapshot_lost (jobClaim job) db →
  is_ok (out_res (processReport job env n db)) = false ∧ out_db (processReport job env n db) = db.
Proof.
  intros Hl. destruct (completeReport_lost job env n db Hl) as [Hf Hd]. destruct Hl as (r & Hr & Ho).
  unfold processReport, handle, bind. destruct (completeReport job env n db) as [[x|e] db' n']; [done|].
  simpl in Hd. subst db'. destruct (decide (e = errReportLeaseLost)); [by split|]. unfold ctxErr. destruct (env_done _ _).
  - unfold detached. simpl. split; [done|]. unfold releaseReport.
    rewrite (updateOne_lost _ _ _ _ r) by done. destruct (env_fault _ _); [done|]. by destruct db.
  - unfold exec, stmt. destruct (_ || _); [by split|].
    rewrite (updateOne_lost _ _ _ _ r) by (done || by apply holds_owns). simpl. split; [done|]. by destruct db.
Qed.

Lemma completeExport_lost job env n db :
  export_lost (exportClaim job) db →
  is_ok (out_res (completeReportExport job env n db)) = false ∧ out_db (completeReportExport job env n db) = db.
Proof.
  intros (r & Hr & Ho). unfold completeReportExport, transaction.
  destruct (completeExportTx job env n db) as [[x|e] db' n'] eqn:H; [exfalso|done]. unfold completeExportTx in H.
  apply bind_inv in H as (active & ? & ? & [Ha ->]%query_inv & H). rewrite Hr in Ha. injection Ha as <-.
  apply bind_inv in H as (? & ? & ? & [Hh _]%guard_inv & _). by rewrite holds_owns in Hh.
Qed.

Lemma processReportExport_lost job env n db :
  export_lost (exportClaim job) db →
  is_ok (out_res (processReportExport job env n db)) = false ∧ out_db (processReportExport job env n db) = db.
Proof.
  intros Hl. destruct (completeExport_lost job env n db Hl) as [Hf Hd]. destruct Hl as (r & Hr & Ho).
  unfold processReportExport, handle, bind.
  destruct (completeReportExport job env n db) as [[x|e] db' n']; [done|].
  simpl in Hd. subst db'. destruct (decide (e = errReportLeaseLost)); [by split|]. unfold ctxErr. destruct (env_done _ _).
  - unfold detached. simpl. split; [done|]. unfold releaseExport.
    rewrite (updateOne_lost _ _ _ _ r) by done. destruct (env_fault _ _); [done|]. by destruct db.
  - unfold now, updateHeld, stmt. destruct (_ || _); [by split|].
    rewrite Hr, holds_owns by done. by split.
Qed.

(** Once a snapshot or an export succeeded or failed its row never changes again, whatever requests and workers do; and a worker whose claim was superseded by a later fence, or whose row is finished, gets an error and changes nothing when it processes its job, at any later time. *)
Theorem report_workers_fenced s0 s s' :
  fresh_reports s0 → rtc report_step s0 s → rtc report_step s s' →
  (∀ i r, t_snapshots (sysDB s) !! i = Some r → waiting r = false → t_snapshots (sysDB s') !! i = Some r) ∧
  (∀ i r, t_reportExports (sysDB s) !! i = Some r → waiting r = false → t_reportExports (sysDB s') !! i = Some r) ∧
  (∀ job r env n, t_snapshots (sysDB s) !! claimID (jobClaim job) = Some r →
     jobFence job < q_fence (q_job r) ∨ waiting r = false →
     is_ok (out_res (processReport job env n (sysDB s'))) = false ∧
     out_db (processReport job env n (sysDB s')) = sysDB s') ∧
  (∀ job r env n, t_reportExports (sysDB s) !! ejID job = Some r →
     ejFence job < q_fence (q_job r) ∨ waiting r = false →
     is_ok (out_res (processReportExport job env n (sysDB s'))) = false ∧
     out_db (processReportExport job env n (sysDB s')) = sysDB s').
Proof.
  intros Hf H1 H2. destruct (report_steps_evolve _ _ H1 (fresh_jobs_fit _ Hf)) as [_ Hj].
  destruct (report_steps_evolve _ _ H2 Hj) as [(S & E & _) _]. split_and!.
  - intros i r. by apply (finished_stays _ _ _ _ _ S).
  - intros i r. by apply (finished_stays _ _ _ _ _ E).
  - intros job r env n Hr Hc. apply processReport_lost. by eapply (superseded _ (jobClaim job)).
  - intros job r env n Hr Hc. apply processReportExport_lost. by eapply (superseded _ (exportClaim job)).
Qed.

(** ** Trends *)

Lemma trendPoints_ok l :
  is_ok (trendPoints l) = true ↔ Forall (λ r, is_ok (trendPoint r) = true) l.
Proof.
  induction l as [|r l IH]; simpl; [by split|]. rewrite Forall_cons, <-IH.
  destruct (trendPoint r), (trendPoints l); simpl; naive_solver.
Qed.
Lemma trendPoints_length l ps : trendPoints l = Ok ps → length ps = length l.
Proof.
  revert ps. induction l as [|r l IH]; intros ps; simpl; [by intros [= <-]|].
  destruct (trendPoint r); [|done]. destruct (trendPoints l) as [ps'|]; [|done]. intros [= <-]. simpl. by rewrite (IH ps').
Qed.

(** The finished snapshots of a workspace in a window, by completion. *)
Definition trendRows (workspace : string) (from to : Z) (db : DB) : list (string * SnapshotRow) :=
  merge_sort completedOrder (rowsWhere (λ _ r, trendRow workspace (micros from) (micros to) r) (t_snapshots db)).

(** Whether the report's time has no nanoseconds below the microsecond. *)
Definition whole_micros (r : string * SnapshotRow) : Prop :=
  ∀ report, q_result (q_job r.2) = Some report → ReportAsOf report mod 1000 = 0.

Lemma trendPoint_ok db ws from to r :
  queues_ok db → r ∈ trendRows ws from to db → is_ok (trendPoint r) = true ↔ whole_micros r.
Proof.
  intros (HS & _) Hin. destruct r as [i r]. unfold trendRows in Hin.
  rewrite merge_sort_Permutation, elem_of_rowsWhere in Hin. destruct Hin as [Hr Ht].
  unfold trendRow in Ht. rewrite !andb_true_iff, bool_decide_eq_true in Ht. destruct Ht as (((_ & Hst) & _) & _).
  specialize (HS _ _ Hr) as (_ & _ & Hj). rewrite Hst in Hj.
  destruct Hj as (_ & _ & _ & _ & x & t & Hx & Ht & (db0 & asOf & -> & -> & _)).
  unfold trendPoint, whole_micros. simpl. rewrite Hx, Ht. simpl. unfold micros.
  pose proof (Z.div_mod asOf 1000). destruct (asOf =? _) eqn:E; simpl; breflect_in E; split; try done.
  - intros _ report [= <-]. simpl. lia.
  - intros H1. specialize (H1 _ eq_refl). simpl in H1. lia.
Qed.

(** Without infrastructure failures, the trend of a workspace over a valid window is answered exactly when the window holds at most one hundred finished snapshots and each of them was completed at an instant whose nanoseconds are a whole number of microseconds: one snapshot completed at any other instant, as the clock of the report worker gives, makes every request whose window contains it fail. *)
Theorem trends_answered_iff s s' query days ws env n :
  fresh_reports s → rtc report_step s s' → faultless env → historicalTrendDays query = Ok days →
  let to := env_now env n * 1000 + env_nanos env n in
  let rows := trendRows ws (to - daysNanos days) to (sysDB s') in
  is_ok (out_res (reportTrends query ws env n (sysDB s'))) = true ↔
  (length rows ≤ reportTrendLimit)%nat ∧ Forall whole_micros rows.
Proof.
  intros Hf Hs Hok Hd. cbv zeta. pose proof (queues_ok_reached _ _ Hf Hs) as HQ.
  set (rows := trendRows _ _ _ _).
  unfold reportTrends. rewrite Hd. unfold bind at 1, fromRes at 1, ret at 1.
  rewrite run_transaction by done. unfold bind at 1, nowNanos. unfold bind at 1. rewrite run_query by done.
  unfold bind. simpl out_db. fold rows. unfold trendRows in rows. fold rows.
  assert (∀ r, r ∈ rows → is_ok (trendPoint r) = true ↔ whole_micros r) as Hp
    by (intros r Hr; by eapply trendPoint_ok).
  destruct (trendPoints (take (reportTrendLimit + 1) rows)) as [ps|e] eqn:E; simpl.
  - pose proof (trendPoints_length _ _ E) as Hlen. rewrite length_take in Hlen.
    assert (Forall (λ r, is_ok (trendPoint r) = true) (take (reportTrendLimit + 1) rows)) as HF
      by (apply trendPoints_ok; by rewrite E).
    unfold guard. destruct (length ps <=? reportTrendLimit)%nat eqn:Eg; simpl.
    + apply Nat.leb_le in Eg. split; [|done]. intros _. split; [lia|].
      rewrite take_ge in HF by lia. rewrite Forall_forall in HF |- *. intros r Hr. by apply Hp, HF.
    + apply Nat.leb_gt in Eg. split; [done|]. lia.
  - split; [done|]. intros [Hlen HF]. exfalso. rewrite take_ge in E by lia.
    assert (is_ok (trendPoints rows) = true) as Hc; [|by rewrite E in Hc].
    apply trendPoints_ok. rewrite Forall_forall in HF |- *. intros r Hr. by apply Hp, HF.
Qed.

(** ** Idempotent requests *)

Definition export_row (ws key : string) (x : ReportExport) (r : ExportRow) : Prop :=
  re_workspace_id (q_meta r) = ws ∧ re_idempotency_key (q_meta r) = key ∧
  re_snapshot_id (q_meta r) = ExportSnapshotID x ∧ re_format (q_meta r) = ExportFormat x.

Lemma createReportExport_row ws u sid f key env n db x status db' n' :
  createReportExport ws u sid f key env n db = mkOut (Ok (x, status)) db' n' →
  ExportSnapshotID x = sid ∧ ExportFormat x = f ∧
  ∃ r, t_reportExports db' !! ExportID x = Some r ∧ export_row ws key x r.
Proof.
  unfold createReportExport. intros (? & ? & ? & [_ ->]%guard_inv & H)%bind_inv.
  apply bind_inv in H as (x' & ? & ? & Ht & [Hx ->]%ret_inv). injection Hx as <- _.
  apply transaction_inv in Ht as [? Ht]. unfold createExportTx in Ht.
  apply bind_inv in Ht as (? & ? & ? & [_ ->]%query_inv & Ht).
  apply bind_inv in Ht as (? & ? & ? & [_ ->]%guard_inv & Ht).
  apply bind_inv in Ht as (? & ? & ? & [_ ->]%newID_inv & Ht).
  apply bind_inv in Ht as (? & ? & ? & [_ ->]%now_inv & Ht).
  apply bind_inv in Ht as (? & db1 & ? & _ & Ht).
  apply bind_inv in Ht as (x'' & ? & ? & [Hq ->]%query_inv & Ht).
  apply bind_inv in Ht as (? & ? & ? & [Hg ->]%guard_inv & [-> ->]%ret_inv).
  destruct (findRow _ _) as [[i r]|] eqn:Hr; [|done]. injection Hq as <-.
  apply findRow_Some in Hr as [Hr Hk]. unfold keyed in Hk. breflect_in Hk. breflect_in Hg.
  destruct Hg, Hk as [[? ?] _]. split_and!; [done..|]. exists r. by split_and!.
Qed.

(** Two export requests of a workspace under the same idempotency key that both succeed, with anything in between, concern one export: they return the same id, and the same snapshot and format. *)
Theorem export_requested_once s0 s s' ws u sid f key env n x status u' sid' f' env' n' x' status' :
  fresh_reports s0 → rtc report_step s0 s →
  out_res (createReportExport ws u sid f key env n (sysDB s)) = Ok (x, status) →
  rtc report_step {| sysDB := out_db (createReportExport ws u sid f key env n (sysDB s));
                     snapshotJobs := snapshotJobs s; exportJobs := exportJobs s |} s' →
  out_res (createReportExport ws u' sid' f' key env' n' (sysDB s')) = Ok (x', status') →
  ExportID x' = ExportID x ∧ sid' = sid ∧ f' = f.
Proof.
  intros Hf H1 Hx H2 Hx'.
  set (s1 := {| sysDB := _ |}) in H2. assert (rtc report_step s0 s1) as H01
    by (eapply rtc_r; [done|]; apply rp_export).
  set (s2 := {| sysDB := out_db (createReportExport ws u' sid' f' key env' n' (sysDB s'));
                snapshotJobs := snapshotJobs s'; exportJobs := exportJobs s' |}).
  assert (rtc report_step s1 s2) as H12 by (eapply rtc_r; [done|]; apply rp_export).
  destruct (queues_ok_reached s0 s2) as (_ & _ & HU); [done|by etransitivity|].
  destruct (report_steps_evolve _ _ H01 (fresh_jobs_fit _ Hf)) as [_ Hj].
  destruct (report_steps_evolve _ _ H12 Hj) as [(_ & [HE _] & _) _].
  apply res_eta, createReportExport_row in Hx as (Es & Ef & r & Hr & Hw & Hk & Hrs & Hrf).
  apply res_eta, createReportExport_row in Hx' as (Es' & Ef' & r' & Hr' & Hw' & Hk' & Hrs' & Hrf').
  apply HE in Hr as (r1 & Hr1 & (Hm & _)%qsteps_stable). rewrite <-Hm in Hw, Hk, Hrs, Hrf.
  assert (ExportID x' = ExportID x) as Hid by (eapply HU; [exact Hr'|exact Hr1|congruence..]).
  split; [done|]. simpl in Hr'. simpl in Hr1. rewrite Hid in Hr'.
  assert (r' = r1) as -> by congruence. split; congruence.
Qed.

(** ** Examples *)

(** A world in 2024 whose identifiers are 32 digits; the worker's clock shows
    [nanos] nanoseconds past the microsecond. *)
Definition reportWorld (nanos : Z) : Env := {|
  env_clock := λ n, 1709164800000000 + Z.of_nat n * 1000; env_now := λ n, 1709164800000000 + Z.of_nat n * 1000;
  env_nanos := λ _, nanos; env_fault := λ _, false; env_commit := λ _, Committed; env_done := λ _, false;
  env_fresh := λ n, of_bytes (digitsN 32 (Z.of_nat n)); env_locked := λ _ _, false;
  env_interval := λ d, d / 1000 |}.
Lemma reportWorld_faultless nanos : faultless (reportWorld nanos).
Proof. by split_and!. Qed.

Definition reportDB : DB :=
  with_memberships {[("w", "u") := "admin"]}
    (with_workspaces {["w" := {| w_name := "W"; w_created_at := 0; w_notification_policy_epoch := 0 |}]} emptyDB).
Definition sys0 : system := {| sysDB := reportDB; snapshotJobs := []; exportJobs := [] |}.

Section scenario.
Context (nanos : Z).
Definition sys1 : system := {|
  sysDB := out_db (createReportSnapshot "w" "u" "weekly" absentField (reportWorld nanos) 1%nat reportDB);
  snapshotJobs := []; exportJobs := [] |}.
Definition sys2 : system :=
  let o := claimReport "worker" (reportWorld nanos) 10%nat (sysDB sys1) in
  {| sysDB := out_db o; snapshotJobs := gained (out_res o) []; exportJobs := [] |}.
Definition snapJob : reportJob :=
  match snapshotJobs sys2 with
  | job :: _ => job
  | [] => scanReportSnapshot "" (queuedRow {| rs_workspace_id := ""; rs_name := ""; rs_requested_by := "";
            rs_freshness_days := 1; rs_created_at := 0 |} 0)
  end.
Definition sys3 : system := {|
  sysDB := out_db (processReport snapJob (reportWorld nanos) 20%nat (sysDB sys2));
  snapshotJobs := snapshotJobs sys2; exportJobs := [] |}.
Definition snapID : string := of_bytes (digitsN 32 1).
Definition sys4 : system := {|
  sysDB := out_db (createReportExport "w" "u" snapID "csv" "key-1" (reportWorld nanos) 30%nat (sysDB sys3));
  snapshotJobs := snapshotJobs sys2; exportJobs := [] |}.
Definition sys5 : system :=
  let o := claimReportExport "worker" (reportWorld nanos) 50%nat (sysDB sys4) in
  {| sysDB := out_db o; snapshotJobs := snapshotJobs sys2; exportJobs := gained (out_res o) [] |}.
Definition exportJob : reportExportJob :=
  match exportJobs sys5 with
  | job :: _ => job
  | [] => {| ejID := ""; ejWorkspaceID := ""; ejSnapshotID := ""; ejFormat := ""; ejWorkerID := "";
             ejFence := 0; ejAttempts := 0 |}
  end.
Definition sys6 : system := {|
  sysDB := out_db (processReportExport exportJob (reportWorld nanos) 60%nat (sysDB sys5));
  snapshotJobs := snapshotJobs sys2; exportJobs := exportJobs sys5 |}.
End scenario.

Lemma sys0_fresh : fresh_reports sys0.
Proof. by split_and!. Qed.
Lemma sys3_reached nanos : snapshotJobs (sys2 nanos) ≠ [] → rtc report_step sys0 (sys3 nanos).
Proof.
  intros Hj. eapply (rtc_l _ _ (sys1 nanos)); [exact (rp_snapshot sys0 _ _ _ _ _ _)|].
  eapply (rtc_l _ _ (sys2 nanos)); [exact (rp_claim (sys1 nanos) "worker" (reportWorld nanos) 10)|].
  apply rtc_once, (rp_process (sys2 nanos) (snapJob nanos) (reportWorld nanos) 20). unfold snapJob. destruct (snapshotJobs _); [done|set_solver].
Qed.
Lemma sys56_reached nanos : exportJobs (sys5 nanos) ≠ [] → rtc report_step (sys5 nanos) (sys6 nanos).
Proof.
  intros Hj. apply rtc_once, (rp_process_export (sys5 nanos) (exportJob nanos) (reportWorld nanos) 60).
  unfold exportJob. destruct (exportJobs _); [done|set_solver].
Qed.
Lemma sys6_reached nanos : exportJobs (sys5 nanos) ≠ [] → rtc report_step (sys3 nanos) (sys6 nanos).
Proof.
  intros Hj. eapply (rtc_l _ _ (sys4 nanos)); [exact (rp_export (sys3 nanos) _ _ _ _ _ _ _)|].
  eapply (rtc_l _ _ (sys5 nanos)); [exact (rp_claim_export (sys4 nanos) "worker" (reportWorld nanos) 50)|].
  by apply sys56_reached.
Qed.

Lemma report_queues_invariant_witness : queues_ok (sysDB (sys6 7)).
Proof.
  apply (report_queues_invariant sys0); [apply sys0_fresh|].
  transitivity (sys3 7); [apply sys3_reached; vm_compute; discriminate|].
  apply sys6_reached. vm_compute. discriminate.
Defined.

Lemma served_export_is_snapshot_witness :
  match out_res (getReportExportContent "w" (of_bytes (digitsN 32 31)) (reportWorld 7) 70%nat (sysDB (sys6 7))) with
  | Err e => e ≠ errEvidenceCorrupt
  | Ok c => ContentDigest c = reportDigest (ContentBody c)
  end.
Proof.
  assert (rtc report_step sys0 (sys6 7)) as Hs.
  { transitivity (sys3 7); [apply sys3_reached; vm_compute; discriminate|].
    apply sys6_reached. vm_compute. discriminate. }
  pose proof (served_export_is_snapshot sys0 (sys6 7) "w" (of_bytes (digitsN 32 31)) (reportWorld 7) 70%nat
    sys0_fresh Hs) as H.
  revert H. destruct (out_res _) as [c|e]; [|done]. intros (r & snap & report & _ & _ & _ & _ & _ & Hd & _). exact Hd.
Defined.

Lemma report_workers_fenced_witness :
  is_ok (out_res (processReport (snapJob 7) (reportWorld 7) 80%nat (sysDB (sys6 7)))) = false.
Proof.
  assert (∃ r, t_snapshots (sysDB (sys3 7)) !! claimID (jobClaim (snapJob 7)) = Some r ∧ waiting r = false)
    as (r & Hr & Hw).
  { eexists. split; [vm_compute; reflexivity|reflexivity]. }
  destruct (report_workers_fenced sys0 (sys3 7) (sys6 7)) as (_ & _ & H & _);
    [apply sys0_fresh|apply sys3_reached; vm_compute; discriminate|apply sys6_reached; vm_compute; discriminate|].
  apply (H (snapJob 7) r); [exact Hr|]. right. exact Hw.
Defined.

Definition noQuery : urlQuery := {| q_malformed := false; q_keys := []; q_values := ∅ |}.

Lemma trends_answered_iff_witness :
  is_ok (out_res (reportTrends noQuery "w" (reportWorld 7) 90%nat (sysDB (sys3 7)))) = false.
Proof.
  destruct (is_ok (out_res (reportTrends noQuery "w" (reportWorld 7) 90%nat (sysDB (sys3 7))))) eqn:E; [|reflexivity].
  apply (trends_answered_iff sys0 (sys3 7) noQuery 30) in E as [_ E];
    [|apply sys0_fresh|apply sys3_reached; vm_compute; discriminate|apply reportWorld_faultless|reflexivity].
  exfalso. revert E. match goal with |- Forall _ ?rows → _ => destruct rows as [|[i r] l] eqn:El end.
  - vm_compute in El. discriminate El.
  - intros [Hw _]%Forall_cons. unfold whole_micros in Hw. vm_compute in El. injection El as <- <- <-.
    specialize (Hw _ eq_refl). vm_compute in Hw. discriminate Hw.
Defined.

Lemma export_requested_once_witness :
  let o := createReportExport "w" "u" snapID "csv" "key-1" (reportWorld 7) 100%nat (sysDB (sys6 7)) in
  match out_res o with Ok (x, _) => ExportID x = of_bytes (digitsN 32 31) | Err _ => False end.
Proof.
  cbv zeta. destruct (out_res (createReportExport "w" "u" snapID "csv" "key-1" (reportWorld 7) 100%nat (sysDB (sys6 7))))
    as [[x' status']|e] eqn:E'; [|vm_compute in E'; discriminate E'].
  destruct (out_res (createReportExport "w" "u" snapID "csv" "key-1" (reportWorld 7) 30%nat (sysDB (sys3 7))))
    as [[x status]|e] eqn:E; [|vm_compute in E; discriminate E].
  destruct (export_requested_once sys0 (sys3 7) (sys6 7) "w" "u" snapID "csv" "key-1" (reportWorld 7) 30 x status
    "u" snapID "csv" (reportWorld 7) 100 x' status') as [H _].
  - apply sys0_fresh.
  - apply sys3_reached. vm_compute. discriminate.
  - exact E.
  - eapply (rtc_l _ _ (sys5 7)); [exact (rp_claim_export (sys4 7) "worker" (reportWorld 7) 50)|].
    apply sys56_reached. vm_compute. discriminate.
  - exact E'.
  - rewrite H. vm_compute in E. injection E as <- <-. reflexivity.
Defined.
