(* ===== verification/ReportSLAProps.v ===== *)
(** * Properties of posture reports and remediation targets

    Every number of the overview, of the coverage and of the remediation
    summary is the total of the list behind it, and the pages of that list
    partition it; the SLA rows are the open work of the overview, although the
    two are computed by different queries.  The summary counts the open work of the overview; deadlines count from the
    oldest member of a group; the policy of a workspace is valid, numbered and
    kept with its whole history. *)
From S2P Require Import Prelude GoLib Encoding Tx ReportAdapter Schema Auth AuthProps Intake Paging Assets WorkViews Work Decisions Reports ReportSLA.
Local Open Scope Z_scope.

(** ** Counting rows *)
Section counting.
Context {K V : Type} `{Countable K}.
Implicit Types (P Q : K → V → bool) (m : gmap K V).

Lemma rowsWhere_ext P Q m :
  (∀ k v, m !! k = Some v → P k v = Q k v) → rowsWhere P m = rowsWhere Q m.
Proof.
  intros Hp. unfold rowsWhere.
  assert (∀ k v, (k, v) ∈ map_to_list m → P k v = Q k v) as Hl
    by (intros k v Hin%elem_of_map_to_list; auto).
  clear Hp. induction (map_to_list m) as [|[k v] l IH]; [done|]. rewrite !filter_cons. simpl.
  rewrite (Hl k v) by set_solver. rewrite IH by set_solver. done.
Qed.

Lemma countRows_ext P Q m :
  (∀ k v, m !! k = Some v → P k v = Q k v) → countRows P m = countRows Q m.
Proof. intros Hp. unfold countRows. by rewrite (rowsWhere_ext P Q). Qed.

(** A condition splits a count in two. *)
Lemma countRows_split P (c : K → V → bool) m :
  countRows (λ k v, P k v && c k v) m + countRows (λ k v, P k v && negb (c k v)) m = countRows P m.
Proof.
  unfold countRows, rowsWhere. induction (map_to_list m) as [|[k v] l IH]; [done|].
  rewrite !filter_cons. simpl.
  destruct (P k v), (c k v); simpl; rewrite ?decide_True, ?decide_False by done; simpl length; lia.
Qed.

Lemma countRows_nonneg P m : 0 ≤ countRows P m.
Proof. unfold countRows. lia. Qed.

Lemma countRows_le P Q m :
  (∀ k v, m !! k = Some v → P k v = true → Q k v = true) → countRows P m ≤ countRows Q m.
Proof.
  intros Hp. rewrite <-(countRows_split Q P).
  rewrite (countRows_ext P (λ k v, Q k v && P k v)).
  - unfold countRows at 3. lia.
  - intros k v Hm. specialize (Hp k v Hm). destruct (P k v), (Q k v); naive_solver.
Qed.

Lemma countRows_narrow P (c c' : K → V → bool) m :
  (∀ k v, m !! k = Some v → c k v = true → c' k v = true) →
  countRows (λ k v, P k v && c k v) m ≤ countRows (λ k v, P k v && c' k v) m.
Proof. intros Hc. apply countRows_le. intros k v Hm. rewrite !andb_true_iff. naive_solver. Qed.

(** Conditions that exclude each other count disjoint parts. *)
Lemma countRows_disjoint P (c c' : K → V → bool) m :
  (∀ k v, m !! k = Some v → c k v = true → c' k v = true → False) →
  countRows (λ k v, P k v && c k v) m + countRows (λ k v, P k v && c' k v) m =
  countRows (λ k v, P k v && (c k v || c' k v)) m.
Proof.
  intros Hc. rewrite <-(countRows_split (λ k v, P k v && (c k v || c' k v)) c). f_equal; apply countRows_ext;
    intros k v Hm; specialize (Hc k v Hm); destruct (P k v), (c k v), (c' k v); naive_solver.
Qed.
End counting.

(** ** Pages *)

Lemma strictReportInteger_range value lo hi n : strictReportInteger value lo hi = Ok n → lo ≤ n ≤ hi.
Proof.
  unfold strictReportInteger. destruct (_ || _); [done|]. destruct (negb _); [done|].
  destruct (ParseInt value) as [k|]; [|done]. destruct (_ || _) eqn:E; [done|]. intros [= <-].
  breflect_in E. lia.
Qed.

Lemma drilldownPage_limit query limit cursor :
  drilldownPage query = Ok (limit, cursor) → (1 ≤ limit ≤ 100)%nat.
Proof.
  unfold drilldownPage. destruct (isSome (q_values query !! "limit")).
  - destruct (strictReportInteger _ _ _) as [n|] eqn:E; [|done]. apply strictReportInteger_range in E.
    destruct (_ && _); [done|]. intros [= <- <-]. lia.
  - destruct (_ && _); [done|]. intros [= <- <-]. lia.
Qed.

(** A page of a listing: the rows after the cursor it was asked for start with
    its items, the rest follows its next cursor. *)
Definition pageOf {V B} (P : string → V → bool) (m : gmap string V) (g : string * V → B) (limit : nat)
    (cursor : string) (items : list B) (next : option string) : Prop :=
  ∃ l1 l2, rowsAfter P m cursor = l1 ++ l2 ∧ items = g <$> l1 ∧
    match next with
    | None => l2 = []
    | Some k => length l1 = limit ∧ fst <$> last l1 = Some k ∧ rowsAfter P m k = l2 ∧ l2 ≠ []
    end.

Lemma cutPage_pageOf {V B} (P : string → V → bool) m (key : B → string) (g : string * V → B) limit cursor :
  (1 ≤ limit)%nat → (∀ r, key (g r) = r.1) →
  let p := cutPage key limit (take (limit + 1) (g <$> rowsAfter P m cursor)) in
  pageOf P m g limit cursor (fst p) (snd p).
Proof.
  intros Hl Hk. cbv zeta. destruct (page_spec P m key g limit cursor Hl Hk) as (l1 & l2 & Hs & -> & Hn).
  exists l1, l2. split_and!; [done..|]. simpl. destruct l2 as [|r l2]; [done|].
  destruct Hn as [Hlen Hk2]; [done|]. destruct (last l1) as [x|] eqn:El; simpl.
  - split_and!; [done|done|by apply Hk2|done].
  - apply last_None in El. rewrite El in Hlen. simpl in Hlen. lia.
Qed.

(** No row is stored under the empty id, so a listing starts before all. *)
Lemma rowsAfter_all {V} (P : string → V → bool) m :
  m !! "" = None → Z.of_nat (length (rowsAfter P m "")) = countRows P m.
Proof.
  intros Hn. unfold rowsAfter, rowsById, countRows. rewrite merge_sort_Permutation. do 2 f_equal.
  apply rowsWhere_ext. intros k v Hm. replace (strLt "" k) with true; [by rewrite andb_true_r|].
  symmetry. unfold strLt. apply andb_true_iff. split; [by destruct k|]. breflect. by intros <-; congruence.
Qed.

(** ** Findings *)

(** The number of the overview that a metric names. *)
Definition metricOf (metric : string) (r : PostureReport) : option Z :=
  let t := ReportTotals r in let s := ReportBySeverity r in
  list_to_map (M := gmap string Z) (zip findingMetricNames
    [TotalFindings t; OpenFindings t; AcceptedRisk t; ExpiredAcceptedRisk t; Suppressed t; ExpiredSuppression t;
     FalsePositive t; InferredResolved t; Critical s; High s; Medium s; Low s; Info s]) !! metric.

Lemma metricOf_count metric ws days asOf db :
  metric ∈ findingMetricNames →
  metricOf metric (posture ws days asOf db) =
    Some (countRows (metricFilter ws metric (micros asOf) db) (t_findings db)).
Proof.
  intros Hm. unfold findingMetricNames in Hm.
  repeat (apply elem_of_cons in Hm as [->|Hm]; [reflexivity|]). by apply elem_of_nil in Hm.
Qed.

Lemma readPosture_inv ws days asOf env n db report db' n' :
  readPosture ws days asOf env n db = mkOut (Ok report) db' n' →
  validFreshnessDays days = true ∧ report = posture ws days asOf db ∧ db' = db.
Proof.
  unfold readPosture. intros (? & ? & ? & [Hd ->]%guard_inv & [[= <-] ->]%query_inv)%bind_inv. done.
Qed.

Lemma reportOverview_inv query ws env n db report db' n' :
  reportOverview query ws env n db = mkOut (Ok report) db' n' →
  ∃ days, overviewFreshnessDays query = Ok days ∧ report = posture ws days (ReportAsOf report) db ∧ db' = db.
Proof.
  unfold reportOverview. intros (days & ? & ? & [Hd ->]%fromRes_inv & [? H]%transaction_inv)%bind_inv.
  apply bind_inv in H as (asOf & ? & ? & [_ ->]%nowNanos_inv & (_ & -> & ->)%readPosture_inv).
  by exists days.
Qed.

Lemma findingMetricParameters_inv query metric limit cursor :
  findingMetricParameters query = Ok (metric, (limit, cursor)) →
  metric ∈ findingMetricNames ∧ (1 ≤ limit ≤ 100)%nat.
Proof.
  unfold findingMetricParameters. destruct (negb _); [done|]. destruct (negb _) eqn:E; [done|].
  breflect_in E. destruct (drilldownPage query) as [[l c]|] eqn:Ed; [|done]. intros [= <- <- <-].
  apply drilldownPage_limit in Ed. done.
Qed.

(** For each of the thirteen finding metrics, the list a client opens at the time of an overview (the As-Of header) is the list behind the number the overview shows: the total it reports is that number, the pages reached through its cursors partition exactly that many findings in id order without repetition, and the page returned is the one that follows the cursor sent. *)
Theorem finding_metrics_drill_down query ws env n db report db1 n1 q metric limit cursor env' n' d db2 n2 :
  t_findings db !! "" = None →
  reportOverview query ws env n db = mkOut (Ok report) db1 n1 →
  findingMetricParameters q = Ok (metric, (limit, cursor)) →
  reportFindingMetrics q (Some [Some (ReportAsOf report)]) ws env' n' db = mkOut (Ok d) db2 n2 →
  let at_ := micros (ReportAsOf report) in
  let P := metricFilter ws metric at_ db in
  metricOf metric report = Some (fdTotal d) ∧ fdAsOf d = ReportAsOf report ∧
  Z.of_nat (length (rowsAfter P (t_findings db) "")) = fdTotal d ∧ NoDup (rowsAfter P (t_findings db) "") ∧
  pageOf P (t_findings db) (findingMetricItem at_ db) limit cursor (fdItems d) (fdNextCursor d).
Proof.
  intros Hne (days & _ & Hrep & _)%reportOverview_inv Hq H. cbv zeta.
  pose proof (findingMetricParameters_inv _ _ _ _ Hq) as [Hm Hl].
  unfold reportFindingMetrics in H. apply bind_inv in H as (p & ? & ? & [Hp ->]%fromRes_inv & H).
  assert (p = (metric, (limit, cursor))) as -> by congruence.
  apply transaction_inv in H as [? H].
  apply bind_inv in H as (t & ? & ? & [_ ->]%nowNanos_inv & H).
  apply bind_inv in H as (asOf & ? & ? & [Ha ->]%fromRes_inv & H). simpl in Ha.
  destruct (t <? _); [done|]. injection Ha as <-.
  apply bind_inv in H as (? & ? & ? & [_ ->]%guard_inv & H).
  apply bind_inv in H as (total & ? & ? & [[= <-] ->]%query_inv & H).
  apply bind_inv in H as (items & ? & ? & [[= <-] ->]%query_inv & [<- ->]%ret_inv). simpl.
  split_and!; [|done|by apply rowsAfter_all|apply rowsAfter_NoDup|].
  - rewrite Hrep. simpl. by apply metricOf_count.
  - apply cutPage_pageOf; [lia|by intros []].
Qed.

(** ** Coverage *)

(** The number of the overview that a coverage state names. *)
Definition coverageOf (state : string) (c : PostureCoverage) : option Z :=
  list_to_map (M := gmap string Z) (zip coverageStates
    [ScannedAssets c; UnscannedAssets c; StaleAssets c; UnknownFreshnessAssets c]) !! state.

Lemma coverageOf_count state ws w db :
  state ∈ coverageStates →
  coverageOf state (postureCoverage ws w db) = Some (countRows (coverageFilter ws state w db) (t_assets db)).
Proof.
  intros Hm. unfold coverageStates in Hm.
  repeat (apply elem_of_cons in Hm as [->|Hm]; [reflexivity|]). by apply elem_of_nil in Hm.
Qed.

Lemma coverageAssetParameters_inv query state days limit cursor :
  coverageAssetParameters query = Ok (state, days, (limit, cursor)) →
  state ∈ coverageStates ∧ 1 ≤ days ≤ 365 ∧ (1 ≤ limit ≤ 100)%nat.
Proof.
  unfold coverageAssetParameters. destruct (negb _); [done|]. destruct (negb _); [done|].
  destruct (negb _) eqn:E; [done|]. breflect_in E.
  destruct (strictReportInteger _ _ _) as [k|] eqn:Ek; [|done]. apply strictReportInteger_range in Ek.
  destruct (drilldownPage query) as [[l c]|] eqn:Ed; [|done]. intros [= <- <- <- <-].
  apply drilldownPage_limit in Ed. done.
Qed.

(** For each coverage state, the asset list opened with the same freshness window at the same instant as an overview reports the total the overview shows, lists exactly that many assets, and returns the page that follows the cursor sent. *)
Theorem coverage_drills_down query ws env n db report db1 n1 q state days limit cursor env' n' d db2 n2 :
  t_assets db !! "" = None →
  reportOverview query ws env n db = mkOut (Ok report) db1 n1 →
  coverageAssetParameters q = Ok (state, days, (limit, cursor)) →
  reportCoverageAssets q ws env' n' db = mkOut (Ok d) db2 n2 → cdWindow d = ReportWindow report →
  let P := coverageFilter ws state (cdWindow d) db in
  coverageOf state (ReportCoverage report) = Some (cdTotal d) ∧
  Z.of_nat (length (rowsAfter P (t_assets db) "")) = cdTotal d ∧ NoDup (rowsAfter P (t_assets db) "") ∧
  ∃ g, pageOf P (t_assets db) g limit cursor (cdItems d) (cdNextCursor d) ∧
    ∀ id a, covAsset (g (id, a)) = scanAsset id a ∧
      covAssessed (g (id, a)) = assessed ws (micros (WindowTo (cdWindow d))) (micros (WindowFrom (cdWindow d))) db id.
Proof.
  intros Hne (days' & _ & Hrep & _)%reportOverview_inv Hq H Hw. cbv zeta.
  pose proof (coverageAssetParameters_inv _ _ _ _ _ Hq) as (Hm & _ & Hl).
  unfold reportCoverageAssets in H. apply bind_inv in H as (p & ? & ? & [Hp ->]%fromRes_inv & H).
  assert (p = (state, days, (limit, cursor))) as -> by congruence.
  apply transaction_inv in H as [? H].
  apply bind_inv in H as (asOf & ? & ? & [_ ->]%nowNanos_inv & H).
  apply bind_inv in H as (? & ? & ? & [_ ->]%fromRes_inv & H).
  apply bind_inv in H as (total & ? & ? & [[= <-] ->]%query_inv & H).
  apply bind_inv in H as (items & ? & ? & [[= <-] ->]%query_inv & [<- ->]%ret_inv).
  cbn [cdWindow cdTotal cdItems cdNextCursor] in *.
  split_and!; [|by apply rowsAfter_all|apply rowsAfter_NoDup|].
  - rewrite Hw, Hrep. by apply coverageOf_count.
  - eexists. split; [apply cutPage_pageOf; [lia|]|]; done.
Qed.

(** Every overview is internally consistent: the scanned and the unscanned assets add up to all assets, stale assets and assets of unknown freshness are scanned ones, expired acceptances and suppressions are among the acceptances and suppressions, open findings among the findings, no finding is counted as independently verified. *)
Theorem overview_consistent query ws env n db report db' n' :
  reportOverview query ws env n db = mkOut (Ok report) db' n' →
  let t := ReportTotals report in let c := ReportCoverage report in
  ScannedAssets c + UnscannedAssets c = TotalAssets t ∧
  0 ≤ StaleAssets c ≤ ScannedAssets c ∧ 0 ≤ UnknownFreshnessAssets c ≤ ScannedAssets c ∧
  0 ≤ OpenFindings t ≤ TotalFindings t ∧ 0 ≤ ExpiredAcceptedRisk t ≤ AcceptedRisk t ∧
  0 ≤ ExpiredSuppression t ≤ Suppressed t ∧
  AcceptedRisk t + Suppressed t + FalsePositive t ≤ TotalFindings t ∧ VerifiedResolved t = 0 ∧
  WindowFrom (ReportWindow report) + daysNanos (FreshnessWindowDays c) = ReportAsOf report.
Proof.
  intros (days & _ & Hrep & _)%reportOverview_inv. set (asOf := ReportAsOf report) in Hrep. clearbody asOf.
  subst report. cbv zeta. cbn. unfold countAssets, countFindings.
  pose proof (countRows_nonneg (K:=string) (V:=AssetRow)). pose proof (countRows_nonneg (K:=string) (V:=FindingRow)).
  split_and!; auto.
  - rewrite (countRows_split (λ _ a, a_workspace_id a ==? ws)).
    apply countRows_ext. intros k v _. by rewrite andb_true_r.
  - apply countRows_narrow. intros k v _. by destruct (assessed _ _ _ _ _).
  - apply countRows_narrow. intros k v _. by destruct (assessed _ _ _ _ _).
  - by apply countRows_narrow.
  - apply countRows_narrow. by intros k v _ [? _]%andb_true_iff.
  - apply countRows_narrow. by intros k v _ [? _]%andb_true_iff.
  - rewrite !countRows_disjoint; [by apply countRows_narrow|..];
      intros k v _ H1 H2; breflect_in H1; breflect_in H2; naive_solver congruence.
  - lia.
Qed.

(** ** Witnesses *)

(** The example workspace at a fixed instant: two open findings on an asset
    that was never scanned, a third without asset. *)
Definition fixedWorld (t : Z) : Env := {|
  env_clock := λ _, t; env_now := λ _, t; env_nanos := λ _, 5; env_fault := λ _, false;
  env_commit := λ _, Committed; env_done := λ _, false; env_fresh := env_fresh calm;
  env_locked := λ _ _, false; env_interval := λ d, d / 1000 |}.
Definition queryOf (values : list (string * string)) : urlQuery :=
  {| q_malformed := false; q_keys := fst <$> values; q_values := list_to_map ((λ v, (v.1, [v.2])) <$> values) |}.
Definition metricQuery : urlQuery := queryOf [("metric", "open-findings"); ("limit", "1")].
Definition coverageQuery : urlQuery := queryOf [("state", "unscanned"); ("freshnessDays", "7")].
Definition overviewRun : Out DB PostureReport := reportOverview (queryOf []) "ws" (fixedWorld 100) 0%nat workDB.
Definition metricRun : Out DB FindingMetricDrilldown :=
  reportFindingMetrics metricQuery (Some [Some 100005]) "ws" (fixedWorld 200) 0%nat workDB.
Definition coverageRun : Out DB CoverageAssetDrilldown :=
  reportCoverageAssets coverageQuery "ws" (fixedWorld 100) 0%nat workDB.

Lemma finding_metrics_drill_down_witness :
  ∃ report d, out_res overviewRun = Ok report ∧ out_res metricRun = Ok d ∧
    metricOf "open-findings" report = Some (fdTotal d) ∧ fdTotal d = 2 ∧ fdNextCursor d = Some "f1".
Proof.
  eexists _, _. split; [vm_compute; reflexivity|]. split; [vm_compute; reflexivity|].
  split; [|by split].
  eapply (proj1 (finding_metrics_drill_down (queryOf []) "ws" (fixedWorld 100) 0 workDB _ _ _ metricQuery
    "open-findings" 1 "" (fixedWorld 200) 0 _ _ _ ltac:(reflexivity) ltac:(vm_compute; reflexivity)
    ltac:(vm_compute; reflexivity) ltac:(vm_compute; reflexivity))).
Defined.

Lemma coverage_drills_down_witness :
  ∃ report d, out_res overviewRun = Ok report ∧ out_res coverageRun = Ok d ∧
    coverageOf "unscanned" (ReportCoverage report) = Some (cdTotal d) ∧ cdTotal d = 1.
Proof.
  eexists _, _. split; [vm_compute; reflexivity|]. split; [vm_compute; reflexivity|].
  split; [|done].
  eapply (proj1 (coverage_drills_down (queryOf []) "ws" (fixedWorld 100) 0 workDB _ _ _ coverageQuery
    "unscanned" 7 100 "" (fixedWorld 100) 0 _ _ _ ltac:(reflexivity) ltac:(vm_compute; reflexivity)
    ltac:(vm_compute; reflexivity) ltac:(vm_compute; reflexivity) ltac:(reflexivity))).
Defined.

Lemma overview_consistent_witness :
  ∃ report, out_res overviewRun = Ok report ∧
    ScannedAssets (ReportCoverage report) + UnscannedAssets (ReportCoverage report) = TotalAssets (ReportTotals report).
Proof.
  eexists. split; [vm_compute; reflexivity|].
  eapply (proj1 (overview_consistent (queryOf []) "ws" (fixedWorld 100) 0 workDB _ _ _ ltac:(vm_compute; reflexivity))).
Defined.

(** ** Remediation targets *)

(** ** Two formulations of the same rows *)

Lemma elem_of_activeMembers ws db p id :
  (p, id) ∈ activeMembers ws db ↔
  ∃ i m c, t_members db !! i = Some m ∧ t_correlations db !! m_correlation_id m = Some c ∧
    g_workspace_id c = ws ∧ m_workspace_id m = ws ∧ g_active c = true ∧ m_released m = None ∧
    g_primary_finding_id c = p ∧ m_finding_id m = id.
Proof.
  unfold activeMembers. rewrite list_elem_of_omap. split.
  - intros ([i m] & Hm%elem_of_map_to_list & Ha). unfold activeMember in Ha. simpl in Ha.
    destruct (t_correlations db !! _) as [c|] eqn:Ec; [|done]. destruct (_ && _) eqn:E; [|done].
    injection Ha as <- <-. breflect_in E. destruct E as [[[? ?] ?] ?].
    destruct (m_released m) eqn:?; [done|]. exists i, m, c. split_and!; congruence.
  - intros (i & m & c & Hm & Hc & Hw & Hmw & Ha & Hr & Hp & Hf). exists (i, m).
    split; [by apply elem_of_map_to_list|]. unfold activeMember. simpl. rewrite Hc, Ha, Hr.
    rewrite (bool_decide_true (g_workspace_id c = ws)) by done.
    rewrite (bool_decide_true (m_workspace_id m = _)) by congruence. simpl. by rewrite Hp, Hf.
Qed.

(** The SLA hides exactly what the work list hides. *)
Lemma hidden_not_visible ws db id f :
  f_workspace_id f = ws → hiddenMember ws db id = negb (workVisible db id f).
Proof.
  intros Hw. unfold workVisible. rewrite negb_involutive.
  apply eq_true_iff_eq. unfold hiddenMember. rewrite existsb_Exists, anyRow_true. split.
  - intros ([p i] & Hin & Hb). simpl in Hb. breflect_in Hb. destruct Hb as [-> Hp].
    apply elem_of_activeMembers in Hin as (k & m & c & Hm & Hc & Hcw & Hmw & Ha & Hr & <- & Hf).
    exists k, m. split; [done|]. rewrite Hc, Ha, Hr. breflect. simpl. split_and!; congruence || done.
  - intros (k & m & Hm & Hb). breflect_in Hb. destruct Hb as [[[Hmw Hf] Hr] Hc].
    destruct (t_correlations db !! _) as [c|] eqn:Ec; [|done]. breflect_in Hc. destruct Hc as [[Hcw Ha] Hp].
    exists (g_primary_finding_id c, id). split; [|breflect; done].
    apply elem_of_activeMembers. destruct (m_released m) eqn:?; [done|]. exists k, m, c. split_and!; congruence.
Qed.

Lemma dueAt_open ws db id f p :
  t_slaPolicies db !! ws = Some p →
  isSome (dueAt ws db id f) = countedFinding ws db id f && (d_workflow_state (f_decision f) !=? "resolved").
Proof.
  intros Hp. unfold dueAt, visibleSLA, countedFinding. rewrite Hp.
  destruct (bool_decide_reflect (f_workspace_id f = ws)) as [Hw|]; [|done].
  rewrite (hidden_not_visible ws db id f Hw), negb_involutive.
  destruct (_ ==? "resolved"), (workVisible db id f), (isSome (assetName db f)); done.
Qed.

Lemma countSLA_open ws db p :
  t_slaPolicies db !! ws = Some p →
  countSLA ws db (λ _ _, true) =
    countFindings ws db (λ _ f, d_workflow_state (f_decision f) !=? "resolved").
Proof.
  intros Hp. apply countRows_ext. intros id f _. rewrite <-(dueAt_open ws db id f p) by done.
  unfold slaFilter. by destruct (dueAt ws db id f).
Qed.

Lemma countSLA_status ws db at_ :
  countSLA ws db (λ _ due, slaStatus at_ due ==? "within-target") +
  countSLA ws db (λ _ due, slaStatus at_ due ==? "breached") = countSLA ws db (λ _ _, true).
Proof.
  unfold countSLA. rewrite <-(countRows_split (slaFilter ws db (λ _ _, true))
    (λ id f, match dueAt ws db id f with Some due => negb (due <? at_) | None => true end)).
  f_equal; apply countRows_ext; intros id f _; unfold slaFilter, slaStatus;
    destruct (dueAt ws db id f) as [due|]; try done; by destruct (due <? at_).
Qed.

Lemma readReportSLAPolicy_inv ws env n db p db' n' :
  readReportSLAPolicy ws env n db = mkOut (Ok p) db' n' →
  t_slaPolicies db !! ws = Some (snd p) ∧ fst p = ws ∧ db' = db.
Proof.
  unfold readReportSLAPolicy. intros [H ->]%query_inv. destruct (t_slaPolicies db !! ws); [|done].
  by injection H as <-.
Qed.

(** The number of the summary that a status names. *)
Definition statusOf (status : string) (t : SLATotals) : Z :=
  if status ==? "breached" then Breached t else WithinTarget t.

Lemma remediationSLAFindingParameters_inv query status limit cursor :
  remediationSLAFindingParameters query = Ok (status, (limit, cursor)) →
  (status = "breached" ∨ status = "within-target") ∧ (1 ≤ limit ≤ 100)%nat.
Proof.
  unfold remediationSLAFindingParameters. destruct (negb _); [done|]. cbv zeta. destruct (_ && _) eqn:E; [done|].
  destruct (drilldownPage query) as [[l c]|] eqn:Ed; [|done]. intros [= <- <- <-].
  apply drilldownPage_limit in Ed. split; [|done]. breflect_in E. destruct E as [E|E]; auto.
Qed.

Lemma reportSLA_inv rawQuery ws env n db summary db' n' :
  reportSLA rawQuery ws env n db = mkOut (Ok summary) db' n' →
  t_slaPolicies db !! ws = Some (snd (SumPolicy summary)) ∧ db' = db ∧
  (SumTotals summary, SumBySeverity summary) = slaTotals ws (micros (SumAsOf summary)) db.
Proof.
  unfold reportSLA. intros (? & ? & ? & [_ ->]%guard_inv & [? H]%transaction_inv)%bind_inv.
  apply bind_inv in H as (t & ? & ? & [_ ->]%nowNanos_inv & H).
  apply bind_inv in H as (p & ? & ? & (Hp & _ & ->)%readReportSLAPolicy_inv & H).
  apply bind_inv in H as (totals & ? & ? & [Ht ->]%query_inv & [<- ->]%ret_inv). injection Ht as <-. done.
Qed.

(** The instant a page is evaluated at: now, or the one of the header under
    the policy revision the client saw. *)
Lemma evaluationTime_inv rawTime rawRevision ws t env n db at_ db' n' :
  remediationSLAEvaluationTime rawTime rawRevision ws t env n db = mkOut (Ok at_) db' n' →
  db' = db ∧ at_ = match rawTime with Some (Some asOf) => asOf | _ => t end.
Proof.
  unfold remediationSLAEvaluationTime. destruct rawTime as [[asOf|]|].
  - intros (? & ? & ? & [_ ->]%guard_inv & H)%bind_inv. destruct (ParseInt _); [|done].
    apply bind_inv in H as (? & ? & ? & [_ ->]%guard_inv & H).
    apply bind_inv in H as (? & ? & ? & [_ ->]%query_inv & H).
    by apply bind_inv in H as (? & ? & ? & [_ ->]%guard_inv & [<- ->]%ret_inv).
  - intros (? & ? & ? & [_ ->]%guard_inv & H)%bind_inv. done.
  - by intros (? & ? & ? & [_ ->]%guard_inv & [<- ->]%ret_inv)%bind_inv.
Qed.

Lemma slaPage_inv q rawTime rawRevision ws status limit cursor env n db items total next db' n' :
  remediationSLAFindingParameters q = Ok (status, (limit, cursor)) →
  reportSLAFindingPage q rawTime rawRevision ws env n db = mkOut (Ok (items, total, next)) db' n' →
  ∃ asOf, let P := slaFilter ws db (λ _ due, slaStatus (micros asOf) due ==? status) in
    (∀ x, rawTime = Some (Some x) → asOf = x) ∧ total = countRows P (t_findings db) ∧
    pageOf P (t_findings db) (slaRow ws (micros asOf) db) limit cursor items next.
Proof.
  intros Hq H. pose proof (remediationSLAFindingParameters_inv _ _ _ _ Hq) as [_ Hl].
  unfold reportSLAFindingPage in H. apply bind_inv in H as (p & ? & ? & [Hp ->]%fromRes_inv & H).
  assert (p = (status, (limit, cursor))) as -> by congruence. apply transaction_inv in H as [? H].
  apply bind_inv in H as (t & ? & ? & [_ ->]%nowNanos_inv & H).
  apply bind_inv in H as (asOf & ? & ? & [-> Has]%evaluationTime_inv & H).
  apply bind_inv in H as (total' & ? & ? & [[= <-] ->]%query_inv & H).
  apply bind_inv in H as (items' & ? & ? & [[= <-] ->]%query_inv & [Hr ->]%ret_inv).
  injection Hr as <- <- <-. exists asOf. split_and!.
  - intros y ->. done.
  - done.
  - apply cutPage_pageOf; [lia|by intros []].
Qed.

(** C30: the remediation summary of a workspace tracks exactly the open findings the posture overview of the same database counts, each of them within target or breached; and the list of either status, opened at the summary's time, has the total the summary shows, lists exactly that many findings and returns the page that follows the cursor sent. *)
Theorem sla_tracks_open_work rawQuery ws env n db summary db1 n1 query env2 n2 report db2 n2'
    q status limit cursor rawRevision env3 n3 items total next db3 n3' :
  t_findings db !! "" = None →
  reportSLA rawQuery ws env n db = mkOut (Ok summary) db1 n1 →
  reportOverview query ws env2 n2 db = mkOut (Ok report) db2 n2' →
  remediationSLAFindingParameters q = Ok (status, (limit, cursor)) →
  reportSLAFindingPage q (Some (Some (SumAsOf summary))) rawRevision ws env3 n3 db = mkOut (Ok (items, total, next)) db3 n3' →
  let t := SumTotals summary in
  let P := slaFilter ws db (λ _ due, slaStatus (micros (SumAsOf summary)) due ==? status) in
  Tracked t = OpenFindings (ReportTotals report) ∧ WithinTarget t + Breached t = Tracked t ∧
  total = statusOf status t ∧ Z.of_nat (length (rowsAfter P (t_findings db) "")) = total ∧
  pageOf P (t_findings db) (slaRow ws (micros (SumAsOf summary)) db) limit cursor items next.
Proof.
  intros Hne (Hp & _ & Hs)%reportSLA_inv (days & _ & -> & _)%reportOverview_inv Hq H. cbv zeta.
  unfold slaTotals in Hs. injection Hs as Ht _.
  pose proof (remediationSLAFindingParameters_inv _ _ _ _ Hq) as [Hst _].
  destruct (slaPage_inv _ _ _ _ _ _ _ _ _ _ _ _ _ _ _ Hq H) as (asOf & Ha & -> & Hpage).
  specialize (Ha _ eq_refl) as ->. rewrite Ht. split_and!.
  - simpl. by eapply countSLA_open.
  - apply countSLA_status.
  - destruct Hst as [-> | ->]; reflexivity.
  - by apply rowsAfter_all.
  - done.
Qed.

(** ** Deadlines *)

Lemma minTime_spec l :
  match minTime l with
  | None => l = []
  | Some t => t ∈ l ∧ ∀ x, x ∈ l → t ≤ x
  end.
Proof.
  induction l as [|a l IH]; simpl; [done|]. unfold minTime in *. simpl.
  destruct (foldr earlier None l) as [t|]; simpl.
  - destruct IH as [Hin Hle]. split.
    + destruct (Z.min_spec a t) as [[_ ->]|[_ ->]]; set_solver.
    + intros x [->|Hx]%elem_of_cons; [lia|]. specialize (Hle x Hx). lia.
  - subst l. split; [set_solver|]. intros x Hx. apply list_elem_of_singleton in Hx. lia.
Qed.

Lemma effectiveAge_member ws db p id f :
  (p, id) ∈ activeMembers ws db → t_findings db !! id = Some f → f_workspace_id f = ws →
  ∃ t, effectiveAge ws db p = Some t ∧ t ≤ f_first_observed_at f.
Proof.
  intros Hin Hf Hw. unfold effectiveAge.
  set (ages := omap _ _). assert (f_first_observed_at f ∈ ages) as Hel.
  { apply list_elem_of_omap. exists (p, id). split; [done|]. simpl. rewrite bool_decide_true by done.
    unfold memberAge. rewrite Hf. by rewrite bool_decide_true. }
  pose proof (minTime_spec ages) as Hs. destruct (minTime ages) as [t|]; [|rewrite Hs in Hel; by apply elem_of_nil in Hel].
  exists t. split; [done|]. by apply Hs.
Qed.

(** Each finding on a page of the remediation list is open work of the workspace; its due time is its target of days under the current policy after its first observation, which for the primary of a correlated group is no later than that of any active member; it is listed as breached exactly when the evaluation time is past the due time, and then overdue by the whole seconds between. *)
Theorem sla_page_deadlines q rawTime rawRevision ws status limit cursor env n db items total next db' n' item :
  remediationSLAFindingParameters q = Ok (status, (limit, cursor)) →
  reportSLAFindingPage q rawTime rawRevision ws env n db = mkOut (Ok (items, total, next)) db' n' →
  item ∈ items →
  ∃ f p asOf, t_findings db !! slFindingID item = Some f ∧ t_slaPolicies db !! ws = Some p ∧
    countedFinding ws db (slFindingID item) f = true ∧ d_workflow_state (f_decision f) ≠ "resolved" ∧
    slTargetDays item = targetDays p (p_severity (f_projection f)) ∧
    slDueAt item = slFirstObservedAt item + slTargetDays item * dayMicros ∧
    (∀ id m, (slFindingID item, id) ∈ activeMembers ws db → t_findings db !! id = Some m →
       f_workspace_id m = ws → slFirstObservedAt item ≤ f_first_observed_at m) ∧
    slStatus item = status ∧ (status = "breached" ↔ slDueAt item < micros asOf) ∧
    0 ≤ slOverdueSeconds item ∧
    (slDueAt item < micros asOf →
       slDueAt item + slOverdueSeconds item * 1000000 ≤ micros asOf < slDueAt item + (slOverdueSeconds item + 1) * 1000000).
Proof.
  intros Hq H Hitem. destruct (slaPage_inv _ _ _ _ _ _ _ _ _ _ _ _ _ _ _ Hq H) as (asOf & _ & _ & Hpage).
  pose proof (remediationSLAFindingParameters_inv _ _ _ _ Hq) as [Hst _].
  destruct Hpage as (l1 & l2 & Hrows & -> & _). apply list_elem_of_fmap in Hitem as ([id f] & -> & Hin).
  assert ((id, f) ∈ rowsAfter (slaFilter ws db (λ _ due, slaStatus (micros asOf) due ==? status)) (t_findings db) cursor)
    as Hel by (rewrite Hrows; set_solver).
  apply elem_of_rowsAfter in Hel as (Hf & HP & _). unfold slaFilter in HP.
  destruct (dueAt ws db id f) as [due|] eqn:Hdue; [|done]. breflect_in HP.
  destruct (t_slaPolicies db !! ws) as [p|] eqn:Hp.
  2: { unfold dueAt in Hdue. rewrite Hp in Hdue. by destruct (_ && _). }
  pose proof (dueAt_open ws db id f p Hp) as Hopen. rewrite Hdue in Hopen. symmetry in Hopen.
  apply andb_true_iff in Hopen as [Hc Hr]. breflect_in Hr.
  assert (due = effectiveFirstObservedAt ws db id f + targetDays p (p_severity (f_projection f)) * dayMicros) as Hd.
  { unfold dueAt in Hdue. rewrite Hp in Hdue. destruct (_ && _); [|done]. by injection Hdue. }
  exists f, p, asOf. simpl. rewrite Hdue, Hp. simpl. split_and!; try done.
  - intros m fm Hm Hfm Hw. unfold effectiveFirstObservedAt.
    destruct (effectiveAge_member ws db id m fm Hm Hfm Hw) as (t & -> & ?). done.
  - unfold slaStatus in HP. rewrite <-HP. destruct (due <? micros asOf) eqn:E; breflect_in E; split; done || lia.
  - unfold overdueSeconds. apply Z.div_pos; lia.
  - intros Hlt. unfold overdueSeconds. rewrite Z.max_r by lia.
    pose proof (Z.div_mod (micros asOf - due) 1000000). pose proof (Z.mod_pos_bound (micros asOf - due) 1000000). lia.
Qed.

(** ** The policy and its history *)

Definition targets_ok (p : SLAPolicyRow) : Prop :=
  1 ≤ sla_critical_days p ∧ sla_critical_days p ≤ sla_high_days p ∧ sla_high_days p ≤ sla_medium_days p ∧
  sla_medium_days p ≤ sla_low_days p ∧ sla_low_days p ≤ sla_info_days p ∧ sla_info_days p ≤ 3650.

(** A workspace has a policy exactly when it has a history; the history is
    numbered from 1 without gaps and ends with the policy in force. *)
Definition policies_ok (db : DB) : Prop :=
  (∀ ws n r, t_slaRevisions db !! (ws, n) = Some r → targets_ok r ∧ sla_revision r = n ∧
     ∃ p, t_slaPolicies db !! ws = Some p ∧ 1 ≤ n ≤ sla_revision p) ∧
  (∀ ws p, t_slaPolicies db !! ws = Some p → targets_ok p ∧ 1 ≤ sla_revision p ∧
     t_slaRevisions db !! (ws, sla_revision p) = Some (revisionRow p) ∧
     ∀ n, 1 ≤ n ≤ sla_revision p → is_Some (t_slaRevisions db !! (ws, n))).

(** Revisions are never changed or removed. *)
Definition policy_evolves (db db' : DB) : Prop :=
  policies_ok db → policies_ok db' ∧ t_slaRevisions db ⊆ t_slaRevisions db'.
#[export] Instance policy_evolves_preorder : PreOrder policy_evolves.
Proof.
  split; [by intros d H|]. intros d1 d2 d3 H1 H2 H. destruct (H1 H) as [Ha ?]. destruct (H2 Ha).
  split; [done|]. by etransitivity.
Qed.

Lemma policy_same db db' :
  t_slaPolicies db' = t_slaPolicies db → t_slaRevisions db' = t_slaRevisions db → policy_evolves db db'.
Proof. intros E1 E2 H. unfold policies_ok. by rewrite E1, E2. Qed.

(** A policy takes the number after the last one of its history. *)
Lemma policy_put db db' ws p n :
  t_slaPolicies db' = <[ws := p]> (t_slaPolicies db) →
  t_slaRevisions db' = <[(ws, n + 1) := revisionRow p]> (t_slaRevisions db) →
  sla_revision p = n + 1 → 0 ≤ n → targets_ok p →
  match t_slaPolicies db !! ws with Some q => sla_revision q = n | None => n = 0 end →
  policy_evolves db db'.
Proof.
  intros EP ER Hrev Hn Ht Hq [HR HP].
  assert (t_slaRevisions db !! (ws, n + 1) = None) as Hfresh.
  { destruct (t_slaRevisions db !! (ws, n + 1)) as [r|] eqn:E; [|done].
    apply HR in E as (_ & _ & q & E & ?). rewrite E in Hq. lia. }
  split; [split|].
  - intros w k r. rewrite EP, ER, !lookup_insert. destruct (decide ((ws, n + 1) = (w, k))) as [[= <- <-]|Hne].
    + intros [= <-]. split; [done|]. simpl. split; [done|]. rewrite decide_True by done. exists p. split; [done|lia].
    + intros Hr. apply HR in Hr as (? & ? & q & Hw & ?). split; [done|]. split; [done|].
      destruct (decide (ws = w)) as [<-|]; [|by exists q]. rewrite Hw in Hq. exists p. split; [done|lia].
  - intros w r. rewrite EP, ER, lookup_insert. destruct (decide (ws = w)) as [<-|Hne].
    + intros [= <-]. split_and!; [done|lia|by rewrite Hrev, lookup_insert_eq|].
      intros k Hk. rewrite lookup_insert. destruct (decide ((ws, n + 1) = (ws, k))) as [|Hk']; [eauto|].
      destruct (t_slaPolicies db !! ws) as [q|] eqn:E.
      * apply HP in E as (_ & _ & _ & Hall). apply Hall. assert (k ≠ n + 1) by congruence. lia.
      * assert (k ≠ n + 1) by congruence. lia.
    + intros Hr. apply HP in Hr as (? & ? & Hl & Hall). split_and!; [done..| |].
      * rewrite lookup_insert_ne by congruence. done.
      * intros k Hk. rewrite lookup_insert_ne by congruence. by apply Hall.
  - rewrite ER. by apply insert_subseteq.
Qed.

Lemma initialSLA_ok user at_ : targets_ok (initialSLA user at_).
Proof. unfold targets_ok. simpl. lia. Qed.

Lemma createWorkspace_policy name user : Steps policy_evolves (createWorkspace name user).
Proof.
  unfold createWorkspace, insertInitialWorkspaceSLAPolicy, insertMembership,
    insertRetentionPolicy, insertWorkspace. steps_ok. db_inv.
  eapply (policy_put _ _ _ _ 0); [done|done|done|done|apply initialSLA_ok|].
  simpl in *. repeat match goal with H : _ !! _ = None |- _ => rewrite H; clear H end. done.
Qed.

Lemma bootstrap_policy IDKey ParseAddress ToLower enabled hash token wname name email password :
  Steps policy_evolves (bootstrap IDKey ParseAddress ToLower enabled hash token wname name email password).
Proof.
  unfold Auth.bootstrap, insertInitialWorkspaceSLAPolicy, insertMembership,
    insertRetentionPolicy, insertWorkspace, insertUser, enrolledQuery. steps_ok. db_inv.
  eapply (policy_put _ _ _ _ 0); [done|done|done|done|apply initialSLA_ok|].
  simpl in *. match goal with H : t_slaPolicies _ !! _ = None |- _ => by rewrite H end.
Qed.

(** What an acknowledged update did. *)
Lemma updatePolicyTx_inv ws session input env n db x db' n' :
  updatePolicyTx ws session input env n db = mkOut (Ok x) db' n' →
  ∃ p at_, let q := nextPolicy p input (SessUser session) at_ in
    t_memberships db !! (ws, UserID (SessUser session)) = Some "admin" ∧
    t_slaPolicies db !! ws = Some p ∧ sla_revision p = inRevision input ∧ x = (ws, q) ∧
    db' = with_slaRevisions (<[(ws, sla_revision p + 1) := revisionRow q]> (t_slaRevisions db))
            (with_slaPolicies (<[ws := q]> (t_slaPolicies db)) db).
Proof.
  unfold updatePolicyTx. intros (role & ? & ? & Hrole & H)%bind_inv.
  apply sessionRole_inv in Hrole as (-> & Hrole).
  apply bind_inv in H as (? & ? & ? & [Hadmin ->]%guard_inv & H). breflect_in Hadmin. subst role.
  apply bind_inv in H as (current & ? & ? & (Hp & _ & ->)%readReportSLAPolicy_inv & H).
  apply bind_inv in H as (? & ? & ? & [Hrev ->]%guard_inv & H). breflect_in Hrev.
  apply bind_inv in H as (? & ? & ? & [_ ->]%guard_inv & H).
  apply bind_inv in H as (at_ & ? & ? & [_ ->]%now_inv & H).
  apply bind_inv in H as (updated & db1 & ? & Hu%stmt_inv & H).
  apply bind_inv in H as (? & ? & ? & [-> ->]%guard_inv & H).
  apply bind_inv in H as (? & ? & ? & (_ & _ & ->)%insertInto_inv & [<- ->]%ret_inv).
  rewrite Hp, Z.eqb_refl in Hu. destruct (isSome _); [|done]. injection Hu as <-.
  exists (snd current), at_. cbn. destruct current as [w p]. simpl in *. split_and!; done.
Qed.

Lemma validSLATargets_ok i :
  validSLATargets (inCriticalDays i) (inHighDays i) (inMediumDays i) (inLowDays i) (inInfoDays i) = true →
  ∀ p actor at_, targets_ok (nextPolicy p i actor at_).
Proof. unfold validSLATargets. intros H p actor at_. breflect_in H. unfold targets_ok. simpl. lia. Qed.

Lemma updateReportSLAPolicy_policy rawQuery ws session input :
  Steps policy_evolves (updateReportSLAPolicy rawQuery ws session input).
Proof.
  unfold updateReportSLAPolicy. apply steps_bind; [apply _|apply steps_guard; apply _|]. intros _.
  apply steps_guarded; [apply _|]. intros Hv. rewrite !andb_true_iff in Hv. destruct Hv as [[_ Hv] _].
  apply steps_transaction_ok; [apply _|]. intros env n db x db' n' H.
  apply updatePolicyTx_inv in H as (p & at_ & _ & Hp & _ & _ & ->). intros Hok.
  pose proof (proj2 Hok _ _ Hp) as (_ & Hrev & _).
  revert Hok. eapply (policy_put _ _ _ _ (sla_revision p)); [done..|lia|by apply validSLATargets_ok|].
  by rewrite Hp.
Qed.

(** Enrolment, new workspaces and policy updates by anybody, and whatever
    leaves the two policy tables alone. *)
Inductive policy_step (db : DB) : DB → Prop :=
  | pl_bootstrap IDKey ParseAddress ToLower enabled hash token wname name email password env n :
      policy_step db (out_db (bootstrap IDKey ParseAddress ToLower enabled hash token wname name email password env n db))
  | pl_workspace name user env n : policy_step db (out_db (createWorkspace name user env n db))
  | pl_update rawQuery ws session input env n :
      policy_step db (out_db (updateReportSLAPolicy rawQuery ws session input env n db))
  | pl_other db' :
      t_slaPolicies db' = t_slaPolicies db → t_slaRevisions db' = t_slaRevisions db → policy_step db db'.

Lemma policy_steps_evolve db db' : rtc policy_step db db' → policy_evolves db db'.
Proof.
  induction 1 as [|d1 d2 d3 H _ IH]; [reflexivity|]. etransitivity; [|done]. destruct H.
  - apply bootstrap_policy.
  - apply createWorkspace_policy.
  - apply updateReportSLAPolicy_policy.
  - by apply policy_same.
Qed.

(** Whatever enrolment, workspace creation and policy updates do, under any failures, to an installation that began without policies: the targets of every workspace, now and in every recorded revision, are ordered from critical to info between one day and ten years; the recorded revisions are numbered from 1 without gaps up to the policy in force and the last one is that policy; no recorded revision ever changes or disappears; and an acknowledged update was made by an admin against the revision it names and puts the next one in force. *)
Theorem sla_policy_history db0 db db' :
  t_slaPolicies db0 = ∅ → t_slaRevisions db0 = ∅ → rtc policy_step db0 db → rtc policy_step db db' →
  policies_ok db' ∧ t_slaRevisions db ⊆ t_slaRevisions db' ∧
  ∀ rawQuery ws session input env n x db'' n',
    updateReportSLAPolicy rawQuery ws session input env n db' = mkOut (Ok x) db'' n' →
    ∃ p, t_slaPolicies db' !! ws = Some p ∧ sla_revision p = inRevision input ∧
      t_memberships db' !! (ws, UserID (SessUser session)) = Some "admin" ∧
      t_slaPolicies db'' !! ws = Some (snd x) ∧ sla_revision (snd x) = inRevision input + 1 ∧
      t_slaRevisions db'' !! (ws, inRevision input + 1) = Some (revisionRow (snd x)).
Proof.
  intros E1 E2 H1%policy_steps_evolve H2%policy_steps_evolve.
  destruct H1 as [Hok _]. { unfold policies_ok. rewrite E1, E2. split; intros *; by rewrite lookup_empty. }
  destruct (H2 Hok) as [Hok' Hsub]. split_and!; [done..|].
  intros rawQuery ws session input env n x db'' n' H. unfold updateReportSLAPolicy in H.
  apply bind_inv in H as (? & ? & ? & [_ ->]%guard_inv & H).
  apply bind_inv in H as (? & ? & ? & [_ ->]%guard_inv & [? H]%transaction_inv).
  apply updatePolicyTx_inv in H as (p & at_ & Hm & Hp & Hrev & -> & ->). exists p. cbn.
  rewrite <-Hrev, !lookup_insert_eq. by split_and!.
Qed.

(** ** Witnesses *)

(** A workspace with its initial policy, the admin's session, and the
    findings of the example, observed at the epoch and looked at 31 days later:
    past the 30 days of high severity. *)
Definition slaAdmin : User := {| UserID := "u"; UserName := "U"; UserEmail := "u@x" |}.
Definition slaDB : DB :=
  with_users (t_users viewDB) (with_sessions (t_sessions viewDB) (with_memberships {[("ws", "u") := "admin"]}
  (with_slaPolicies {["ws" := initialSLA slaAdmin 0]}
  (with_slaRevisions {[("ws", 1) := initialSLA slaAdmin 0]} workDB)))).
Definition slaWorld : Env := fixedWorld (31 * dayMicros).
Definition breachedQuery : urlQuery := queryOf [("status", "breached"); ("limit", "1")].
Definition slaRun : Out DB RemediationSLASummary := reportSLA "" "ws" slaWorld 0%nat slaDB.
Definition slaAsOf : Z := 31 * dayMicros * 1000 + 5.
Definition slaPageRun := reportSLAFindingPage breachedQuery (Some (Some slaAsOf)) "1" "ws" slaWorld 0%nat slaDB.

Lemma sla_tracks_open_work_witness :
  ∃ summary report, out_res slaRun = Ok summary ∧
    out_res (reportOverview (queryOf []) "ws" slaWorld 0%nat slaDB) = Ok report ∧
    Tracked (SumTotals summary) = OpenFindings (ReportTotals report) ∧ Breached (SumTotals summary) = 2.
Proof.
  eexists _, _. split; [vm_compute; reflexivity|]. split; [vm_compute; reflexivity|]. split; [|done].
  eapply (proj1 (sla_tracks_open_work "" "ws" slaWorld 0 slaDB _ _ _ (queryOf []) slaWorld 0 _ _ _
    breachedQuery "breached" 1 "" "1" slaWorld 0 _ _ _ _ _ ltac:(reflexivity) ltac:(vm_compute; reflexivity)
    ltac:(vm_compute; reflexivity) ltac:(vm_compute; reflexivity) ltac:(vm_compute; reflexivity))).
Defined.

Lemma sla_page_deadlines_witness :
  ∃ item items total next, out_res slaPageRun = Ok (item :: items, total, next) ∧ slStatus item = "breached" ∧
    slOverdueSeconds item = 86400 ∧ ∃ f, t_findings slaDB !! slFindingID item = Some f.
Proof.
  do 4 eexists. split; [vm_compute; reflexivity|]. split; [reflexivity|]. split; [reflexivity|].
  destruct (sla_page_deadlines breachedQuery (Some (Some slaAsOf)) "1" "ws" "breached" 1 "" slaWorld 0 slaDB
    _ _ _ _ _ _ ltac:(vm_compute; reflexivity) ltac:(vm_compute; reflexivity) (list_elem_of_here _ _))
    as (f & p & asOf & Hf & _).
  exists f. exact Hf.
Defined.

Definition tighter : slaInput :=
  {| inRevision := 1; inCriticalDays := 3; inHighDays := 14; inMediumDays := 60; inLowDays := 90;
     inInfoDays := 180; inRationale := "audit" |}.
Definition policyDB0 : DB :=
  with_users (t_users viewDB) (with_sessions (t_sessions viewDB) emptyDB).
Definition policyDB1 : DB := out_db (createWorkspace "Team" slaAdmin calm 1%nat policyDB0).
Definition policyRun : Out DB ReportSLAPolicy :=
  updateReportSLAPolicy "" "id-1" viewSession tighter calm 20%nat policyDB1.

Lemma sla_policy_history_witness :
  policies_ok (out_db policyRun) ∧ is_ok (out_res policyRun) = true ∧ t_slaRevisions policyDB1 ⊆ t_slaRevisions (out_db policyRun).
Proof.
  destruct (sla_policy_history policyDB0 policyDB1 (out_db policyRun)) as (H1 & H2 & _).
  - reflexivity.
  - reflexivity.
  - apply rtc_once. exact (pl_workspace policyDB0 "Team" slaAdmin calm 1).
  - apply rtc_once. exact (pl_update policyDB1 "" "id-1" viewSession tighter calm 20).
  - split; [exact H1|]. split; [vm_compute; reflexivity|exact H2].
Defined.
