(* ===== verification/Connections.v ===== *)
(** * Integration connections (remediation_connections.go, remediation_credentials.go,
      remediation_jira.go, remediation_teams.go, remediation_webhook.go)

    Where notifications go: the targets of the four delivery profiles and
    their checks, the sealing of their credentials, and the operations on the
    integration_connections table.  net/url, case mapping and the AEAD cipher
    are the parameter [Gateway]. *)
From stdpp Require Import pretty.
From S2P Require Import Prelude GoLib Encoding Tx ReportAdapter Schema Auth Paging Assets WorkViews Work.
Local Open Scope Z_scope.

(** The parts of a [*url.URL] the checks look at. *)
Record URL := {
  Scheme : string; Opaque : string; HasUser : bool; Host : string; Hostname : string; Port : string;
  URLPath : string; RawPath : string; EscapedPath : string; RawQuery : string; ForceQuery : bool;
  Fragment : string }.

Class Gateway := {
  urlParse : string → option URL;                              (** url.Parse *)
  urlParseQuery : string → option (gmap string (list string)); (** url.ParseQuery *)
  toLower : string → string;                                   (** strings.ToLower *)
  aeadSeal : list N → list N → list N → list N;                (** nonce, plaintext, associated data *)
  aeadOpen : list N → list N → list N → option (list N) }.     (** nonce, ciphertext, associated data *)

(** cipher.AEAD: what was sealed opens under the same nonce and data, and
    sealing adds [Overhead()] bytes. *)
Class AEADLaws `{!Gateway} : Prop := {
  aeadOpen_seal nonce plain aad : aeadOpen nonce (aeadSeal nonce plain aad) aad = Some plain;
  length_aeadSeal nonce plain aad : length (aeadSeal nonce plain aad) = (length plain + 16)%nat }.

(** connectors/types.go: the delivery profiles. *)
Definition SlackWorkspaceBot : string := "slack-workspace-bot".
Definition JiraCloudV3 : string := "jira-cloud-v3".
Definition TeamsWorkflows : string := "teams-workflows-channel".
Definition GenericWebhookV1 : string := "generic-webhook-v1".

(** ** Text checks

    [containsControl], [containsSpace]: strings.ContainsFunc with
    unicode.IsControl and unicode.IsSpace, on the encoded bytes. *)
Fixpoint containsControl (l : list N) : bool :=
  match l with
  | [] => false
  | b :: l' => (b <? 32)%N || (b =? 127)%N ||
      match l' with c :: _ => (b =? 194)%N && (128 <=? c)%N && (c <=? 159)%N | [] => false end ||
      containsControl l'
  end.
Fixpoint containsSpace (l : list N) : bool :=
  match l with
  | [] => false
  | b :: l' => asciiSpace b ||
      match l' with c :: _ => space2 b c | [] => false end ||
      match l' with c :: d :: _ => space3 b c d | _ => false end ||
      containsSpace l'
  end.
(** [strings.ContainsAny]. *)
Definition containsAny (s chars : string) : bool := existsb (λ b, existsb (N.eqb b) (bytes chars)) (bytes s).

(** [^first rest{lo,hi}$]. *)
Definition pattern (first rest : N → bool) (lo hi : nat) (s : string) : bool :=
  match bytes s with
  | [] => false
  | b :: l => first b && forallb rest l && (lo <=? length l)%nat && (length l <=? hi)%nat
  end.
Definition upper (b : N) : bool := ((65 <=? b) && (b <=? 90))%N.
Definition lowerLetter (b : N) : bool := ((97 <=? b) && (b <=? 122))%N.
(** [^[CG][A-Z0-9]{2,127}$] *)
Definition integrationChannel : string → bool :=
  pattern (λ b, (b =? 67) || (b =? 71))%N (λ b, upper b || isDigit b) 2 127.
(** [^[A-Z][A-Z0-9_]{0,254}$] *)
Definition jiraProject : string → bool := pattern upper (λ b, upper b || isDigit b || (b =? 95)%N) 0 254.
(** [^[1-9][0-9]{0,19}$] *)
Definition jiraIssueType : string → bool := pattern (λ b, ((49 <=? b) && (b <=? 57))%N) isDigit 0 19.
(** [^[a-f0-9]{8}-[a-f0-9]{4}-[a-f0-9]{4}-[a-f0-9]{4}-[a-f0-9]{12}$] *)
Definition jiraCloudID (s : string) : bool :=
  let groups := splitBytes dash (bytes s) in
  bool_decide (length <$> groups = [8; 4; 4; 4; 12]%nat) && forallb (forallb lowerHexDigit) groups.
(** [^customfield_[0-9]+$] *)
Definition jiraCustomField (s : string) : bool :=
  let digits := drop 12 (bytes s) in
  HasPrefix s "customfield_" && (1 <=? length digits)%nat && forallb isDigit digits.

(** ** Targets *)
Section gateway.
Context `{!Gateway}.

Definition dots (path : string) : bool := existsb (λ s, (s ==? ".") || (s ==? "..")) (Split path slash).
Definition escapesSlash (u : URL) : bool :=
  let escaped := toLower (EscapedPath u) in Contains escaped "%2f" || Contains escaped "%5c".

(** remediation_worker.go [ValidateDeliveryGateway]: the base, [None] for an error. *)
Definition ValidateDeliveryGateway (value : string) : option string :=
  if value ==? "" then Some "https://slack.com"
  else match urlParse value with
  | None => None
  | Some u =>
      if (16384 <? len value) || (Scheme u !=? "https") || (Hostname u ==? "") || HasUser u ||
         (Opaque u !=? "") || (Fragment u !=? "") || (RawQuery u !=? "") || ForceQuery u ||
         containsControl (bytes value) || containsAny (URLPath u) "\%?#" || Contains (URLPath u) "//"
      then None
      else if dots (URLPath u) || escapesSlash u then None
      else if Port u ==? "" then Some value
      else match ParseInt (Port u) with
           | Some number => if (number <? 1) || (65535 <? number) then None else Some value
           | None => None
           end
  end.

Definition validJiraURL (value path : string) : bool :=
  isSome (ValidateDeliveryGateway value) &&
  match urlParse value with
  | Some u => (URLPath u ==? path) && (RawPath u ==? "") && (Host u ==? toLower (Host u)) &&
              (value ==? "https://" +:+ Host u +:+ path)
  | None => false
  end.

Definition jiraSource (source : string) : bool :=
  (source ==? "finding.id") || (source ==? "finding.title") || (source ==? "finding.severity") ||
  (source ==? "asset.name") || (source ==? "finding.deepLink").

Definition validJiraTarget (target : option JiraTarget) : bool :=
  match target with
  | None => false
  | Some t =>
      (CredentialType t ==? "oauth2-bearer") && jiraCloudID (CloudID t) && jiraProject (Project t) &&
      jiraIssueType (IssueType t) && validJiraURL (APIBase t) ("/ex/jira/" +:+ CloudID t) &&
      validJiraURL (SiteOrigin t) "" &&
      match FieldMappings t with
      | None => false
      | Some mappings =>
          (length (map_to_list mappings) <=? 16)%nat &&
          forallb (λ p : string * string, (len p.1 <=? 128) && jiraCustomField p.1 && jiraSource p.2)
            (map_to_list mappings)
      end
  end.

Definition validIntegrationToken (token : string) : bool :=
  (token !=? "") && (len token <=? 16384) && (TrimSpace token ==? token) && negb (containsControl (bytes token)).

Definition validTeamsOrigin (origin : string) : bool :=
  match urlParse origin with
  | None => false
  | Some u =>
      (Scheme u ==? "https") && (Hostname u !=? "") && (Host u ==? toLower (Host u)) &&
      negb (HasSuffix (Hostname u) ".") && (origin ==? "https://" +:+ Host u) &&
      isSome (ValidateDeliveryGateway origin) &&
      ((Port u ==? "") ||
       match ParseInt (Port u) with
       | Some number => (number !=? 443) && (pretty number ==? Port u)
       | None => false
       end)
  end.

(** The origin of a Teams workflow URL, [None] when it is not one. *)
Definition teamsWorkflowOrigin (value : string) : option string :=
  match urlParse value with
  | None => None
  | Some u =>
      if negb (validIntegrationToken value) || (Scheme u !=? "https") || HasUser u || (Opaque u !=? "") ||
         (Fragment u !=? "") || (URLPath u ==? "") || (URLPath u ==? "/") || (4096 <? len (URLPath u)) ||
         containsAny (URLPath u) "\%?#" || containsControl (bytes (URLPath u)) || Contains (URLPath u) "//"
      then None else
      let origin := "https://" +:+ Host u in
      if negb (validTeamsOrigin origin) || negb (HasPrefix value (origin +:+ "/")) then None else
      if dots (URLPath u) || escapesSlash u then None else
      match urlParseQuery (RawQuery u) with
      | None => None
      | Some query =>
          match query !! "sig" with
          | Some [sig] =>
              if (sig ==? "") || containsSpace (bytes sig) then None
              else if existsb (λ p : string * list string, containsControl (bytes p.1) ||
                        existsb (λ v, containsControl (bytes v)) p.2) (map_to_list query) then None
              else Some origin
          | _ => None
          end
      end
  end.

Record teamsConfiguration := { ConfigChannelType : string; ConfigOwnershipAcknowledged : bool }.
Definition validTeamsConfiguration (config : option teamsConfiguration) : bool :=
  match config with
  | Some c => (ConfigChannelType c ==? "standard") && ConfigOwnershipAcknowledged c
  | None => false
  end.
Definition validTeamsMetadata (target : option TeamsMetadata) : bool :=
  match target with
  | Some t => validTeamsOrigin (WorkflowOrigin t) && (ChannelType t ==? "standard") && OwnershipAcknowledged t
  | None => false
  end.
Definition validTeamsDestination (target : option TeamsDestination) : bool :=
  match target with
  | Some d => validText (DestinationName d) 256 && validTeamsMetadata (Some (DestinationTeams d))
  | None => false
  end.

(** The origin and the host:port it stands for. *)
Definition canonicalWebhookOrigin (value : string) : option (string * string) :=
  if (len value =? 0) || (16384 <? len value) || negb (HasPrefix value "https://") ||
     containsAny (of_bytes (drop 8 (bytes value))) "/?#%@\*" ||
     existsb (λ b, (b <=? 32) || (127 <=? b))%N (bytes value)
  then None
  else match urlParse value with
  | None => None
  | Some u =>
      if (Scheme u !=? "https") || (Host u ==? "") || HasUser u || (URLPath u !=? "") || (RawPath u !=? "") ||
         (RawQuery u !=? "") || (Fragment u !=? "") || (Opaque u !=? "") || (Host u !=? toLower (Host u))
      then None
      else if Port u ==? "" then Some (value, toLower (Hostname u) +:+ ":443")
      else match ParseInt (Port u) with
           | Some number =>
               if (number <? 1) || (65535 <? number) || (pretty number !=? Port u) then None
               else Some (value, toLower (Hostname u) +:+ ":" +:+ Port u)
           | None => None
           end
  end.

(** The loop of [ValidateWebhookOrigins] over the two sets of what was seen. *)
Fixpoint originsUnique (seen effective : gset string) (values : list string) : bool :=
  match values with
  | [] => true
  | value :: rest =>
      match canonicalWebhookOrigin value with
      | None => false
      | Some (origin, address) =>
          negb (bool_decide (origin ∈ seen)) && negb (bool_decide (address ∈ effective)) &&
          originsUnique ({[origin]} ∪ seen) ({[address]} ∪ effective) rest
      end
  end.
Definition ValidateWebhookOrigins (values : list string) : bool :=
  (length values <=? 16)%nat && originsUnique ∅ ∅ values.

Definition webhookOriginAllowed (origin : string) (allowed : list string) : bool :=
  existsb (λ value, value ==? origin) allowed.

Definition parseWebhookTarget (value : string) (allowed : list string) : option WebhookTarget :=
  if (len value =? 0) || (16384 <? len value) || (length allowed =? 0)%nat then None
  else match urlParse value with
  | None => None
  | Some u =>
      if (Scheme u !=? "https") || (Host u ==? "") || HasUser u || (Opaque u !=? "") || (RawQuery u !=? "") ||
         (Fragment u !=? "") || (URLPath u ==? "") || (URLPath u ==? "/") || (RawPath u !=? "") ||
         containsAny (URLPath u) "\?#" || containsControl (bytes (URLPath u))
      then None else
      let origin := "https://" +:+ Host u in
      if negb match canonicalWebhookOrigin origin with Some (c, _) => c ==? origin | None => false end ||
         negb (webhookOriginAllowed origin allowed) then None else
      if dots (URLPath u) || escapesSlash u then None else
      Some {| Origin := origin; WebhookPath := URLPath u; Signature := "hmac-sha256" |}
  end.

Definition validWebhookTarget (target : option WebhookTarget) : bool :=
  match target with
  | None => false
  | Some t => (Signature t ==? "hmac-sha256") &&
      (parseWebhookTarget (Origin t +:+ WebhookPath t) [Origin t] ==? Some t)
  end.
Definition validWebhookSecret (value : string) : bool :=
  (32 <=? len value) && (len value <=? 4096) && (TrimSpace value ==? value) && negb (containsControl (bytes value)).
Definition webhookEndpoint (target : option WebhookTarget) : string :=
  match target with
  | Some t => if validWebhookTarget target then Origin t +:+ WebhookPath t else ""
  | None => ""
  end.

(** ** Credentials *)

Definition validConnectionToken (profile token : string) : bool :=
  if profile ==? TeamsWorkflows then isSome (teamsWorkflowOrigin token)
  else if profile ==? GenericWebhookV1 then validWebhookSecret token
  else validIntegrationToken token && ((profile !=? JiraCloudV3) || negb (containsSpace (bytes token))).

Definition credentialAAD (kind workspace connection : string) : list N :=
  bytes ("aspm/" +:+ kind +:+ "/v1") ++ 0%N :: bytes workspace ++ 0%N :: bytes connection.
Definition connectionCredentialAAD (profile workspace connection : string) : Res (list N) :=
  if profile ==? SlackWorkspaceBot then Ok (credentialAAD "slack-credential" workspace connection)
  else if profile ==? JiraCloudV3 then Ok (credentialAAD "jira-credential" workspace connection)
  else if profile ==? TeamsWorkflows then Ok (credentialAAD "teams-workflow-credential" workspace connection)
  else if profile ==? GenericWebhookV1 then Ok (credentialAAD "generic-webhook-credential" workspace connection)
  else Err errUnavailable.

(** The envelope is a version byte, the 12-byte nonce and the sealed text;
    [keyed] tells whether an encryption key is configured. *)
Definition sealCredential (keyed : bool) (nonce aad : list N) (token : string) : Res (list N) :=
  if negb keyed then Err errUnavailable
  else Ok (1%N :: nonce ++ aeadSeal nonce (bytes token) aad).
Definition openCredential (keyed : bool) (aad envelope : list N) : Res string :=
  let n := Z.of_nat (length envelope) in
  if negb keyed || (n <? 1 + 12 + 16 + 1) || (1 + 12 + 16 + 16384 <? n) ||
     negb (match envelope with 1%N :: _ => true | _ => false end)
  then Err errUnavailable
  else match aeadOpen (take 12 (drop 1 envelope)) (drop 13 envelope) aad with
       | None => Err errUnavailable
       | Some plain => if validIntegrationToken (of_bytes plain) then Ok (of_bytes plain) else Err errUnavailable
       end.
Definition sealConnectionToken (keyed : bool) (nonce : list N) (profile workspace connection token : string)
    : Res (list N) :=
  match connectionCredentialAAD profile workspace connection with
  | Ok aad => sealCredential keyed nonce aad token
  | Err e => Err e
  end.
Definition openConnectionToken (keyed : bool) (profile workspace connection : string) (envelope : list N)
    : Res string :=
  match connectionCredentialAAD profile workspace connection with
  | Err e => Err e
  | Ok aad => match openCredential keyed aad envelope with
              | Ok plain => if validConnectionToken profile plain then Ok plain else Err errUnavailable
              | Err e => Err e
              end
  end.
End gateway.

(** ** Operations *)

(** The configuration the handlers read. *)
Record connectionConfig := {
  PublicOrigin : string; WebhookOrigins : list string; Keyed : bool (** an integration key is configured *) }.

Record IntegrationConnection := {
  ConnID : string; ConnRow : ConnectionRow; PermissionState : string; CredentialConfigured : bool }.
Definition scanIntegrationConnection (id : string) (r : ConnectionRow) : IntegrationConnection :=
  {| ConnID := id; ConnRow := r;
     PermissionState := if (cn_profile r ==? JiraCloudV3) || (cn_profile r ==? TeamsWorkflows) ||
                           (cn_profile r ==? GenericWebhookV1) then "not-verified" else "";
     CredentialConfigured := (0 <? length (cn_ciphertext r))%nat |}.

(** [SELECT ... WHERE workspace_id=$1 AND id=$2]. *)
Definition connectionOf (workspace id : string) (db : DB) : option ConnectionRow :=
  match t_connections db !! id with
  | Some r => if cn_workspace_id r ==? workspace then Some r else None
  | None => None
  end.
Definition readConnection (workspace id : string) : M DB ConnectionRow :=
  query (λ _ db, match connectionOf workspace id db with Some r => Ok r | None => Err ErrNoRows end).

(** [SELECT id FROM workspaces WHERE id=$1 FOR KEY SHARE]. *)
Definition lockWorkspace (workspace : string) : M DB unit :=
  query (λ _ db, if isSome (t_workspaces db !! workspace) then Ok tt else Err ErrNoRows).

(** The CHECKs of the table (remediation_schema.go, generic_webhook_schema.go). *)
Definition targetCheck (profile channel : string) (jira : option JiraTarget) (teams : option TeamsMetadata)
    (webhook : option WebhookTarget) : bool :=
  (profile ==? SlackWorkspaceBot) && negb (isSome jira) && negb (isSome teams) && negb (isSome webhook) &&
    integrationChannel channel ||
  (profile ==? JiraCloudV3) && isSome jira && negb (isSome teams) && negb (isSome webhook) && (channel ==? "") ||
  (profile ==? TeamsWorkflows) && negb (isSome jira) && isSome teams && negb (isSome webhook) && (channel ==? "") ||
  (profile ==? GenericWebhookV1) && negb (isSome jira) && negb (isSome teams) && isSome webhook && (channel ==? "").
Definition connectionCheck (r : ConnectionRow) : bool :=
  targetCheck (cn_profile r) (cn_channel r) (cn_jira r) (cn_teams r) (cn_webhook r) &&
  (30 <=? Z.of_nat (length (cn_ciphertext r))) && (Z.of_nat (length (cn_ciphertext r)) <=? 16413).

Record connectionInput := {
  inProfile : string; inName : string; inChannel : optional string; inToken : optional string;
  inEnabled : option bool; inJira : optional JiraTarget; inWorkflowURL : optional string;
  inTeams : optional teamsConfiguration; inWebhookURL : optional string; inSecret : optional string }.

Section operations.
Context `{!Gateway} (config : connectionConfig).

(** The switch over the profile: channel, credential, and the target of the
    Teams and webhook profiles. *)
Definition connectionTarget (i : connectionInput)
    : Res (string * string * option TeamsMetadata * option WebhookTarget) :=
  if inProfile i ==? SlackWorkspaceBot then
    match Value (inChannel i) with
    | Some channel =>
        if negb (integrationChannel channel) || IsSet (inJira i) || IsSet (inWorkflowURL i) || IsSet (inTeams i) ||
           IsSet (inWebhookURL i) || IsSet (inSecret i) then Err errInvalid
        else match Value (inToken i) with
             | Some token => if validConnectionToken (inProfile i) token then Ok (channel, token, None, None)
                             else Err errInvalid
             | None => Err errInvalid
             end
    | None => Err errInvalid
    end
  else if inProfile i ==? JiraCloudV3 then
    if IsSet (inChannel i) || negb (validJiraTarget (Value (inJira i))) || IsSet (inWorkflowURL i) ||
       IsSet (inTeams i) || IsSet (inWebhookURL i) || IsSet (inSecret i) then Err errInvalid
    else match Value (inToken i) with
         | Some token => if validConnectionToken (inProfile i) token then Ok ("", token, None, None) else Err errInvalid
         | None => Err errInvalid
         end
  else if inProfile i ==? TeamsWorkflows then
    if IsSet (inChannel i) || IsSet (inToken i) || IsSet (inJira i) || negb (validTeamsConfiguration (Value (inTeams i))) ||
       IsSet (inWebhookURL i) || IsSet (inSecret i) then Err errInvalid
    else match Value (inWorkflowURL i), Value (inTeams i) with
         | Some url, Some teams =>
             match teamsWorkflowOrigin url with
             | Some origin => Ok ("", url, Some {| WorkflowOrigin := origin; ChannelType := ConfigChannelType teams;
                 OwnershipAcknowledged := ConfigOwnershipAcknowledged teams |}, None)
             | None => Err errInvalid
             end
         | _, _ => Err errInvalid
         end
  else if inProfile i ==? GenericWebhookV1 then
    if IsSet (inChannel i) || IsSet (inToken i) || IsSet (inJira i) || IsSet (inWorkflowURL i) || IsSet (inTeams i)
    then Err errInvalid
    else match Value (inWebhookURL i), Value (inSecret i) with
         | Some url, Some secret =>
             if negb (validWebhookSecret secret) then Err errInvalid
             else match parseWebhookTarget url (WebhookOrigins config) with
                  | Some webhook => Ok ("", secret, None, Some webhook)
                  | None => Err errInvalid
                  end
         | _, _ => Err errInvalid
         end
  else Err errInvalid.

Definition createConnectionTx (nonce : list N) (workspace : string) (session : authenticatedSession) (i : connectionInput)
    (enabled : bool) (target : string * string * option TeamsMetadata * option WebhookTarget) : M DB IntegrationConnection :=
  let '(channel, credential, teams, webhook) := target in
  lockWorkspace workspace ;;;
  role <- sessionRole session workspace ;;
  guard (role ==? "admin") errForbidden ;;;
  id <- newID ;;
  ciphertext <- fromRes (sealConnectionToken (Keyed config) nonce (inProfile i) workspace id credential) ;;
  at_ <- now ;;
  let row := {| cn_workspace_id := workspace; cn_profile := inProfile i; cn_name := inName i; cn_channel := channel;
    cn_ciphertext := ciphertext; cn_enabled := enabled; cn_revision := 1; cn_created_at := at_; cn_updated_at := at_;
    cn_jira := Value (inJira i); cn_teams := teams; cn_webhook := webhook |} in
  insertInto t_connections with_connections
    (requires (λ db, connectionCheck row && isSome (t_workspaces db !! workspace)) ErrConstraint) id row ;;;
  ret (scanIntegrationConnection id row).

Definition createIntegrationConnection (nonce : list N) (workspace : string) (session : authenticatedSession)
    (i : connectionInput) : M DB IntegrationConnection :=
  enabled <- fromRes (match inEnabled i with
                      | Some b => if validText (inName i) 256 then Ok b else Err errInvalid
                      | None => Err errInvalid
                      end) ;;
  target <- fromRes (connectionTarget i) ;;
  guard (Keyed config) errUnavailable ;;;
  transaction (createConnectionTx nonce workspace session i enabled target).

Record connectionPatch := {
  cpName : optional string; cpChannel : optional string; cpToken : optional string; cpEnabled : optional bool;
  cpJira : optional JiraTarget; cpWorkflowURL : optional string; cpTeams : optional teamsConfiguration;
  cpWebhookURL : optional string; cpSecret : optional string }.

(** A set field must carry a value that passes [ok]. *)
Definition setAndValid {A} (o : optional A) (ok : A → bool) : bool :=
  negb (IsSet o) || match Value o with Some v => ok v | None => false end.

Definition validPatch (p : connectionPatch) : bool :=
  setAndValid (cpName p) (λ v, validText v 256) && setAndValid (cpChannel p) integrationChannel &&
  setAndValid (cpToken p) validIntegrationToken && setAndValid (cpEnabled p) (λ _, true) &&
  setAndValid (cpJira p) (λ v, validJiraTarget (Some v)) &&
  setAndValid (cpWorkflowURL p) (validConnectionToken TeamsWorkflows) &&
  setAndValid (cpTeams p) (λ v, validTeamsConfiguration (Some v)) &&
  setAndValid (cpWebhookURL p) (λ _, true) && setAndValid (cpSecret p) validWebhookSecret.

(** The fields that are set belong to the connection's profile. *)
Definition patchFits (profile : string) (p : connectionPatch) : bool :=
  negb ((profile ==? JiraCloudV3) && IsSet (cpChannel p) ||
        (profile ==? SlackWorkspaceBot) && IsSet (cpJira p) ||
        (profile !=? TeamsWorkflows) && (IsSet (cpWorkflowURL p) || IsSet (cpTeams p)) ||
        (profile ==? TeamsWorkflows) && (IsSet (cpToken p) || IsSet (cpChannel p) || IsSet (cpJira p)) ||
        (profile !=? GenericWebhookV1) && (IsSet (cpWebhookURL p) || IsSet (cpSecret p)) ||
        (profile ==? GenericWebhookV1) && (IsSet (cpToken p) || IsSet (cpChannel p) || IsSet (cpJira p) ||
           IsSet (cpWorkflowURL p) || IsSet (cpTeams p)) ||
        negb (setAndValid (cpToken p) (validConnectionToken profile))).

(** [if field.Set && record.F != *field.Value { record.F, changed = ..., true }]. *)
Definition patchedField {A} `{EqDecision A} (o : optional A) (old : A) : A * bool :=
  match (if IsSet o then Value o else None) with
  | Some v => (v, v !=? old)
  | None => (old, false)
  end.
Definition patchedTeams (o : optional teamsConfiguration) (old : option TeamsMetadata)
    : Res (option TeamsMetadata * bool) :=
  match (if IsSet o then Value o else None), old with
  | None, _ => Ok (old, false)
  | Some c, Some t =>
      if validTeamsMetadata old then
        let next := {| WorkflowOrigin := WorkflowOrigin t; ChannelType := ConfigChannelType c;
                       OwnershipAcknowledged := ConfigOwnershipAcknowledged c |} in
        Ok (Some next, Some next !=? old)
      else Err errUnavailable
  | Some _, None => Err errUnavailable
  end.
Definition patchedWebhook (o : optional string) (old : option WebhookTarget) : Res (option WebhookTarget * bool) :=
  match (if IsSet o then Value o else None) with
  | None => Ok (old, false)
  | Some url => match parseWebhookTarget url (WebhookOrigins config) with
                | Some next => Ok (Some next, Some next !=? old)
                | None => Err errInvalid
                end
  end.
(** The credential that is set, the last of token, workflow URL and secret. *)
Definition patchCredential (p : connectionPatch) : option string :=
  if IsSet (cpSecret p) then Value (cpSecret p)
  else if IsSet (cpWorkflowURL p) then Value (cpWorkflowURL p)
  else if IsSet (cpToken p) then Value (cpToken p) else None.
Definition patchedCipher (nonce : list N) (workspace id : string) (p : connectionPatch) (r : ConnectionRow)
    : Res (list N * bool) :=
  match patchCredential p with
  | None => Ok (cn_ciphertext r, false)
  | Some credential =>
      match openConnectionToken (Keyed config) (cn_profile r) workspace id (cn_ciphertext r) with
      | Err e => Err e
      | Ok prior =>
          if prior ==? credential then Ok (cn_ciphertext r, false)
          else match sealConnectionToken (Keyed config) nonce (cn_profile r) workspace id credential with
               | Ok c => Ok (c, true)
               | Err e => Err e
               end
      end
  end.

Definition updateConnectionTx (nonce : list N) (workspace : string) (session : authenticatedSession)
    (id : string) (p : connectionPatch) : M DB IntegrationConnection :=
  role <- sessionRole session workspace ;;
  guard (role ==? "admin") errForbidden ;;;
  r <- readConnection workspace id ;;
  guard (patchFits (cn_profile r) p) errInvalid ;;;
  let '(name, c1) := patchedField (cpName p) (cn_name r) in
  let '(channel, c2) := patchedField (cpChannel p) (cn_channel r) in
  let '(enabled, c3) := patchedField (cpEnabled p) (cn_enabled r) in
  let '(jira, c4) := patchedField {| IsSet := IsSet (cpJira p); Value := Some <$> Value (cpJira p) |} (cn_jira r) in
  teams <- fromRes (patchedTeams (cpTeams p) (cn_teams r)) ;;
  let '(teams, c5) := teams in
  webhook <- fromRes (patchedWebhook (cpWebhookURL p) (cn_webhook r)) ;;
  let '(webhook, c6) := webhook in
  let teams := match (if IsSet (cpWorkflowURL p) then Value (cpWorkflowURL p) else None) with
               | Some url => Some {| WorkflowOrigin := default "" (teamsWorkflowOrigin url);
                   ChannelType := "standard"; OwnershipAcknowledged := true |}
               | None => teams
               end in
  cipher <- fromRes (patchedCipher nonce workspace id p r) ;;
  let '(ciphertext, c7) := cipher in
  if c1 || c2 || c3 || c4 || c5 || c6 || c7 then
    at_ <- now ;;
    next <- stmt (λ _ db,
      match connectionOf workspace id db with
      | None => Err ErrNoRows
      | Some old =>
          let next := {| cn_workspace_id := cn_workspace_id old; cn_profile := cn_profile old; cn_name := name;
            cn_channel := channel; cn_ciphertext := ciphertext; cn_enabled := enabled;
            cn_revision := cn_revision old + 1; cn_created_at := cn_created_at old; cn_updated_at := at_;
            cn_jira := jira; cn_teams := teams; cn_webhook := webhook |} in
          if connectionCheck next then Ok (next, with_connections (<[id := next]> (t_connections db)) db)
          else Err ErrConstraint
      end) ;;
    ret (scanIntegrationConnection id next)
  else ret (scanIntegrationConnection id
         {| cn_workspace_id := cn_workspace_id r; cn_profile := cn_profile r; cn_name := name; cn_channel := channel;
            cn_ciphertext := ciphertext; cn_enabled := enabled; cn_revision := cn_revision r;
            cn_created_at := cn_created_at r; cn_updated_at := cn_updated_at r; cn_jira := jira; cn_teams := teams;
            cn_webhook := webhook |}).

Definition updateIntegrationConnection (nonce : list N) (workspace : string) (session : authenticatedSession)
    (id : string) (p : connectionPatch) : M DB IntegrationConnection :=
  guard (validPatch p) errInvalid ;;;
  transaction (updateConnectionTx nonce workspace session id p).
End operations.

Definition getIntegrationConnection (workspace id : string) : M DB IntegrationConnection :=
  r <- readConnection workspace id ;; ret (scanIntegrationConnection id r).

(** [deliveryProfile]: the profile a list is about. *)
Definition deliveryProfile (query : urlQuery) : Res string :=
  match q_values query !! "profile" with
  | None => Ok SlackWorkspaceBot
  | Some [v] => if (v ==? SlackWorkspaceBot) || (v ==? JiraCloudV3) || (v ==? TeamsWorkflows) || (v ==? GenericWebhookV1)
                then Ok v else Err errInvalid
  | Some _ => Err errInvalid
  end.

Definition listIntegrationConnections (query_ : urlQuery) (workspace : string)
    : M DB (list IntegrationConnection * Z * option string) :=
  profile <- fromRes (deliveryProfile query_) ;;
  p <- fromRes (pageParameters (queryGet query_ "limit") (queryGet query_ "cursor")) ;;
  transaction (
    total <- query (λ _ db, Ok (countRows (λ _ r, (cn_workspace_id r ==? workspace) && (cn_profile r ==? profile))
                                  (t_connections db))) ;;
    items <- query (λ _ db, Ok (take (fst p + 1) ((λ r : string * ConnectionRow, scanIntegrationConnection r.1 r.2) <$>
      rowsAfter (λ _ r, (cn_workspace_id r ==? workspace) && (cn_profile r ==? profile)) (t_connections db) (snd p)))) ;;
    ret (fst (cutPage ConnID (fst p) items), total, snd (cutPage ConnID (fst p) items))).
