(* ===== verification/Deliveries.v ===== *)
(** * Deliveries of findings (remediation_deliveries.go, the request side of
      remediation_jira.go and connectors.TeamsWorkflowPayload)

    A delivery is queued with a digest that binds everything it will send:
    where, on whose behalf, which payload.  The worker (file DeliveryWorker)
    recomputes the digest before it sends anything. *)
From stdpp Require Import pretty.
From S2P Require Import Prelude GoLib Encoding Tx ReportAdapter Schema Auth Paging Assets WorkViews Work Connections.
Local Open Scope Z_scope.

(** ** What is sent *)

(** url.QueryEscape. *)
Definition unreserved (b : N) : bool :=
  upper b || lowerLetter b || isDigit b || ((b =? 45) || (b =? 95) || (b =? 46) || (b =? 126))%N.
Definition upperHexDigit (d : N) : N := (if d <? 10 then 48 + d else 55 + d)%N.
Definition QueryEscape (s : string) : string :=
  of_bytes (flat_map (λ b, if unreserved b then [b] else if (b =? 32)%N then [43%N]
    else [37; upperHexDigit (b / 16); upperHexDigit (b mod 16)]%N) (bytes s)).

Definition deepLink (origin finding : string) : string :=
  origin +:+ "/#/work?finding=" +:+ QueryEscape finding.

(** The custom fields of a Jira issue, from the connection's mappings. *)
Definition jiraFields (finding title severity asset link : string) (mappings : gmap string string) : gmap string string :=
  omap (λ source,
    if source ==? "finding.id" then Some finding
    else if source ==? "finding.title" then Some title
    else if source ==? "finding.severity" then Some severity
    else if source ==? "asset.name" then Some asset
    else if source ==? "finding.deepLink" then Some link else None) mappings.

(** connectors.TeamsWorkflowPayload: the adaptive card, at most 28 KiB. *)
Definition teamsCard (p : FindingNotification) : JSON :=
  JObject [("type", JString "message"); ("attachments", JArray [JObject [
    ("contentType", JString "application/vnd.microsoft.card.adaptive"); ("contentUrl", JNull);
    ("content", JObject [("type", JString "AdaptiveCard"); ("version", JString "1.4");
      ("body", JArray [
        JObject [("type", JString "TextBlock"); ("text", JString (PayloadTitle p)); ("wrap", JBool true); ("weight", JString "Bolder")];
        JObject [("type", JString "TextBlock"); ("text", JString (PayloadBody p)); ("wrap", JBool true)]]);
      ("actions", JArray [JObject [("type", JString "Action.OpenUrl"); ("title", JString "View finding");
        ("url", JString (DeepLink p))]])])]])].
Definition TeamsWorkflowPayload (p : FindingNotification) : option string :=
  let body := marshal (teamsCard p) in
  if 28 * 1024 <? len body then None else Some body.
Definition teamsPayloadValid (p : FindingNotification) : bool :=
  isSome (TeamsWorkflowPayload p) && (TrimSpace (PayloadTitle p) !=? "") && negb (isSome (PayloadFields p)).

(** ** The binding digest *)

Definition stringMapJSON (m : gmap string string) : JSON :=
  JObject (sortKeys ((λ p : string * string, (p.1, JString p.2)) <$> map_to_list m)).
Definition payloadJSON (p : FindingNotification) : JSON :=
  JObject ([("title", JString (PayloadTitle p)); ("body", JString (PayloadBody p)); ("deepLink", JString (DeepLink p))] ++
    match PayloadFields p with Some m => [("fields", stringMapJSON m)] | None => [] end).
Definition optJSON {A} (f : A → JSON) (x : option A) : JSON := match x with Some v => f v | None => JNull end.
Definition jiraJSON (t : JiraTarget) : JSON := JObject [
  ("credentialType", JString (CredentialType t)); ("cloudId", JString (CloudID t)); ("apiBase", JString (APIBase t));
  ("siteOrigin", JString (SiteOrigin t)); ("project", JString (Project t)); ("issueType", JString (IssueType t));
  ("fieldMappings", optJSON stringMapJSON (FieldMappings t))].
Definition destinationJSON (d : TeamsDestination) : JSON := JObject [
  ("name", JString (DestinationName d)); ("workflowOrigin", JString (WorkflowOrigin (DestinationTeams d)));
  ("channelType", JString (ChannelType (DestinationTeams d)));
  ("ownershipAcknowledged", JBool (OwnershipAcknowledged (DestinationTeams d)))].
Definition webhookJSON (t : WebhookTarget) : JSON := JObject [
  ("origin", JString (Origin t)); ("path", JString (WebhookPath t)); ("signature", JString (Signature t))].

Definition guarded (profile : string) : bool :=
  (profile ==? JiraCloudV3) || (profile ==? TeamsWorkflows) || (profile ==? GenericWebhookV1).

Definition bindingJSON (d : DeliveryIntent) : JSON :=
  let value := JObject [
    ("Workspace", JString (dl_workspace_id d)); ("Finding", JString (dl_finding_id d));
    ("Connection", JString (dl_connection_id d)); ("Actor", JString (dl_requested_by d));
    ("Profile", JString (dl_profile d)); ("Channel", JString (dl_channel d));
    ("Revision", JInt (dl_connection_revision d)); ("Payload", payloadJSON (dl_payload d))] in
  let binding :=
    if dl_profile d ==? JiraCloudV3 then JObject [("Binding", value); ("Jira", optJSON jiraJSON (dl_jira d))]
    else if dl_profile d ==? TeamsWorkflows then
      JObject [("Binding", value); ("Destination", optJSON destinationJSON (dl_destination d))]
    else if dl_profile d ==? GenericWebhookV1 then
      JObject [("Binding", value); ("Webhook", optJSON webhookJSON (dl_webhook d))]
    else value in
  if dl_trigger_kind d ==? "notification-policy" then
    JObject [("Binding", binding); ("TriggerKind", JString (dl_trigger_kind d));
      ("PolicyID", optJSON JString (dl_policy_id d)); ("PolicyRevision", optJSON JInt (dl_policy_revision d));
      ("FindingChangeRevision", optJSON JInt (dl_finding_change_revision d))]
  else binding.
Definition deliveryBinding (d : DeliveryIntent) : list N := Sum256 (bytes (marshal (bindingJSON d))).

(** A []byte in JSON: base64 with padding, here of a 32-byte digest. *)
Definition digestJSON (digest : list N) : JSON := JString (RawStd digest +:+ "=").
Definition deliveryIntentBinding (d : DeliveryIntent) (key : string) : list N :=
  let binding := deliveryBinding d in
  if guarded (dl_profile d)
  then Sum256 (bytes (marshal (JObject [("Binding", digestJSON binding); ("IdempotencyKey", JString key)])))
  else binding.

Definition remediationRef (workspace id : string) : string := "aspm:remediation:" +:+ workspace +:+ ":" +:+ id.
Definition policyRef (workspace policy : string) (revision : Z) : string :=
  "aspm:notification-policy:" +:+ workspace +:+ ":" +:+ policy +:+ ":" +:+ pretty revision.
Definition policyKey (policy finding : string) (change : Z) : string :=
  "notification-policy:" +:+ policy +:+ ":" +:+ finding +:+ ":" +:+ pretty change.

(** A stored delivery with its id ([findingDeliveryRecord]). *)
Record deliveryRecord := { DlID : string; DlRow : DeliveryRow }.
Definition recIntent (r : deliveryRecord) : DeliveryIntent := dl_intent (dl_meta (DlRow r)).

Section binding.
Context `{!Gateway}.

(** The trigger columns agree with the key and the approval reference. *)
Definition validTrigger (id : string) (m : DeliveryMeta) : bool :=
  let d := dl_intent m in
  if dl_trigger_kind d ==? "manual" then
    negb (isSome (dl_policy_id d)) && negb (isSome (dl_policy_revision d)) &&
    negb (isSome (dl_finding_change_revision d)) &&
    (dl_approval_ref m ==? remediationRef (dl_workspace_id d) id)
  else if dl_trigger_kind d ==? "notification-policy" then
    match dl_policy_id d, dl_policy_revision d, dl_finding_change_revision d with
    | Some policy, Some revision, Some change =>
        validID policy && (1 <=? revision) && (1 <=? change) &&
        (dl_idempotency_key m ==? policyKey policy (dl_finding_id d) change) &&
        (dl_approval_ref m ==? policyRef (dl_workspace_id d) policy revision)
    | _, _, _ => false
    end
  else false.

(** The target fits the profile. *)
Definition validTarget (d : DeliveryIntent) : bool :=
  ((dl_profile d !=? JiraCloudV3) ||
   validJiraTarget (dl_jira d) && (dl_channel d ==? "") && isSome (PayloadFields (dl_payload d)) &&
   negb (isSome (dl_destination d))) &&
  ((dl_profile d !=? SlackWorkspaceBot) ||
   negb (isSome (dl_jira d)) && negb (isSome (PayloadFields (dl_payload d))) && negb (isSome (dl_destination d))) &&
  ((dl_profile d !=? TeamsWorkflows) ||
   negb (isSome (dl_jira d)) && (dl_channel d ==? "") && validTeamsDestination (dl_destination d) &&
   teamsPayloadValid (dl_payload d)) &&
  ((dl_profile d !=? GenericWebhookV1) ||
   negb (isSome (dl_jira d)) && negb (isSome (dl_destination d)) && (dl_channel d ==? "") &&
   negb (isSome (PayloadFields (dl_payload d))) && validWebhookTarget (dl_webhook d)).

Definition validDeliveryBinding (id : string) (m : DeliveryMeta) : bool :=
  validText (dl_idempotency_key m) 256 && validTrigger id m && validTarget (dl_intent m) &&
  (deliveryIntentBinding (dl_intent m) (dl_idempotency_key m) ==? dl_binding_digest m).

(** ** Requests *)

(** [pg_advisory_xact_lock]. *)
Definition lockDeliveryKey : M DB unit := query (λ _ _, Ok tt).

Definition queuedDelivery : DeliveryJob := {|
  dl_state := DQueued; dl_dispatch_started_at := None; dl_completed_at := None; dl_worker_id := None;
  dl_fence := 0; dl_lease_until := None; dl_receipt := None; dl_failure := None; dl_create_attempted_at := None |}.

(** The CHECKs of finding_deliveries on a new row. *)
Definition deliveryCheck (m : DeliveryMeta) : bool :=
  let d := dl_intent m in
  (0 <? dl_connection_revision d) && (length (dl_binding_digest m) =? 32)%nat &&
  targetCheck (dl_profile d) (dl_channel d) (dl_jira d) (DestinationTeams <$> dl_destination d) (dl_webhook d) &&
  ((dl_trigger_kind d ==? "manual") && negb (isSome (dl_policy_id d)) && negb (isSome (dl_policy_revision d)) &&
     negb (isSome (dl_finding_change_revision d)) ||
   (dl_trigger_kind d ==? "notification-policy") && isSome (dl_policy_id d) &&
     match dl_policy_revision d, dl_finding_change_revision d with
     | Some r, Some c => (0 <? r) && (0 <? c)
     | _, _ => false
     end).
(** Its foreign keys. *)
Definition deliveryRefs (m : DeliveryMeta) (db : DB) : bool :=
  let d := dl_intent m in
  isSome (t_workspaces db !! dl_workspace_id d) && isSome (connectionOf (dl_workspace_id d) (dl_connection_id d) db) &&
  isSome (t_users db !! dl_requested_by d).
(** UNIQUE(workspace_id,idempotency_key). *)
Definition sameKey (workspace key : string) (r : DeliveryRow) : bool :=
  (dl_workspace_id (dl_intent (dl_meta r)) ==? workspace) && (dl_idempotency_key (dl_meta r) ==? key).
(** The unique index on a policy's deliveries. *)
Definition samePolicyEffect (d e : DeliveryIntent) : bool :=
  (dl_trigger_kind d ==? "notification-policy") && (dl_trigger_kind e ==? "notification-policy") &&
  (dl_workspace_id d ==? dl_workspace_id e) && (dl_policy_id d ==? dl_policy_id e) &&
  (dl_finding_id d ==? dl_finding_id e) && (dl_finding_change_revision d ==? dl_finding_change_revision e).

Definition insertFindingDelivery (id : string) (m : DeliveryMeta) : M DB deliveryRecord :=
  let row := {| dl_meta := m; dl_job := queuedDelivery |} in
  insertInto t_deliveries with_deliveries
    (λ db, if negb (deliveryCheck m && deliveryRefs m db) then Some ErrConstraint
           else if anyRow (λ _ r, sameKey (dl_workspace_id (dl_intent m)) (dl_idempotency_key m) r ||
                             samePolicyEffect (dl_intent m) (dl_intent (dl_meta r))) (t_deliveries db)
           then Some ErrUnique else None) id row ;;;
  ret {| DlID := id; DlRow := row |}.

(** jira_finding_effects reserves one ticket per connection and finding. *)
Definition jiraFindingEffect (workspace connection finding : string) : M DB (option string) :=
  query (λ _ db, Ok (fst <$> t_jiraEffects db !! (workspace, connection, finding))).
Definition insertJiraFindingEffect (id : string) (m : DeliveryMeta) : M DB unit :=
  let d := dl_intent m in
  insertInto t_jiraEffects with_jiraEffects
    (λ db, if negb (isSome (connectionOf (dl_workspace_id d) (dl_connection_id d) db) &&
                    match t_findings db !! dl_finding_id d with
                    | Some f => f_workspace_id f ==? dl_workspace_id d | None => false end &&
                    match t_deliveries db !! id with
                    | Some r => dl_workspace_id (dl_intent (dl_meta r)) ==? dl_workspace_id d | None => false end)
           then Some ErrConstraint
           else if anyRow (λ k e, (k.1.1 ==? dl_workspace_id d) && (fst e ==? id)) (t_jiraEffects db)
           then Some ErrUnique else None)
    (dl_workspace_id d, dl_connection_id d, dl_finding_id d) (id, dl_created_at m).

Context (config : connectionConfig).

(** The delivery of a finding to a connection, checked against both. *)
Definition completeIntent (conn : ConnectionRow) (finding title severity asset : string) (d : DeliveryIntent)
    : Res DeliveryIntent :=
  let with_payload (p : FindingNotification) (dest : option TeamsDestination) :=
    {| dl_workspace_id := dl_workspace_id d; dl_finding_id := dl_finding_id d; dl_connection_id := dl_connection_id d;
       dl_connection_revision := dl_connection_revision d; dl_profile := dl_profile d; dl_channel := dl_channel d;
       dl_requested_by := dl_requested_by d; dl_payload := p; dl_jira := dl_jira d; dl_destination := dest;
       dl_webhook := dl_webhook d; dl_trigger_kind := dl_trigger_kind d; dl_policy_id := dl_policy_id d;
       dl_policy_revision := dl_policy_revision d; dl_finding_change_revision := dl_finding_change_revision d |} in
  let p := dl_payload d in
  if dl_profile d ==? JiraCloudV3 then
    if negb (validJiraTarget (dl_jira d)) then Err errConflict
    else if (255 <? runeCount title) || (TrimSpace title ==? "") then Err errInvalid
    else let mappings := default ∅ (t ← dl_jira d; FieldMappings t) in
      Ok (with_payload {| PayloadTitle := PayloadTitle p; PayloadBody := PayloadBody p; DeepLink := DeepLink p;
        PayloadFields := Some (jiraFields finding title severity asset (DeepLink p) mappings) |} None)
  else if dl_profile d ==? TeamsWorkflows then
    match cn_teams conn with
    | Some teams =>
        if negb (validTeamsMetadata (Some teams)) || isSome (cn_jira conn) || (cn_channel conn !=? "") then Err errConflict
        else if negb (teamsPayloadValid p) then Err errInvalid
        else Ok (with_payload p (Some {| DestinationName := cn_name conn; DestinationTeams := teams |}))
    | None => Err errConflict
    end
  else if dl_profile d ==? GenericWebhookV1 then
    if negb (validWebhookTarget (dl_webhook d)) ||
       negb match dl_webhook d with Some t => webhookOriginAllowed (Origin t) (WebhookOrigins config) | None => false end ||
       isSome (cn_jira conn) || isSome (cn_teams conn) || (cn_channel conn !=? "") then Err errConflict
    else Ok d
  else Ok d.

Definition selectedFindingDelivery (workspace : string) (session : authenticatedSession) (findingID connectionID : string)
    : M DB DeliveryIntent :=
  lockWorkspace workspace ;;;
  role <- sessionRole session workspace ;;
  guard ((role ==? "admin") || (role ==? "analyst")) errForbidden ;;;
  v <- query (λ _ db,
    match t_findings db !! findingID with
    | Some f => if (f_workspace_id f ==? workspace) && isSome (assetName db f) && workVisible db findingID f
                then Ok (workRow db (findingID, f)) else Err ErrNoRows
    | None => Err ErrNoRows
    end) ;;
  at_ <- now ;;
  let finding := scanWork at_ v in
  conn <- readConnection workspace connectionID ;;
  guard (cn_enabled conn) errConflict ;;;
  fromRes (completeIntent conn (WorkID finding) (WorkTitle finding) (WorkSeverity finding) (WorkAssetName finding)
    {| dl_workspace_id := workspace; dl_finding_id := findingID; dl_connection_id := connectionID;
       dl_connection_revision := cn_revision conn; dl_profile := cn_profile conn; dl_channel := cn_channel conn;
       dl_requested_by := UserID (SessUser session);
       dl_payload := {| PayloadTitle := WorkTitle finding;
         PayloadBody := "Severity: " +:+ WorkSeverity finding +:+ "
Asset: " +:+ WorkAssetName finding;
         DeepLink := deepLink (PublicOrigin config) (WorkID finding); PayloadFields := None |};
       dl_jira := cn_jira conn; dl_destination := None; dl_webhook := cn_webhook conn; dl_trigger_kind := "";
       dl_policy_id := None; dl_policy_revision := None; dl_finding_change_revision := None |}).

Definition previewText (digest : list N) : string := "sha256:" +:+ hex digest.

Definition previewFindingDelivery (workspace : string) (session : authenticatedSession) (findingID connectionID : string)
    : M DB (DeliveryIntent * string) :=
  guard (validID connectionID) errInvalid ;;;
  guard (PublicOrigin config !=? "") errUnavailable ;;;
  transaction (
    d <- selectedFindingDelivery workspace session findingID connectionID ;;
    guard (guarded (dl_profile d)) errInvalid ;;;
    ret (d, previewText (deliveryBinding d))).

Record enqueueInput := {
  eqConnectionID : string; eqIdempotencyKey : string; eqPreviewDigest : optional string; eqConfirm : optional bool }.

(** The consent a guarded profile needs: the digest of exactly this delivery. *)
Definition previewConsent (i : enqueueInput) (d : DeliveryIntent) : Res unit :=
  if guarded (dl_profile d) then
    match Value (eqConfirm i), Value (eqPreviewDigest i) with
    | Some true, Some digest =>
        if len digest !=? 71 then Err errInvalid
        else if ((dl_profile d ==? TeamsWorkflows) || (dl_profile d ==? GenericWebhookV1)) &&
                negb (HasPrefix digest "sha256:" && forallb lowerHexDigit (drop 7 (bytes digest))) then Err errInvalid
        else if digest !=? previewText (deliveryBinding d) then Err errConflict else Ok tt
    | _, _ => Err errInvalid
    end
  else if IsSet (eqConfirm i) || IsSet (eqPreviewDigest i) then Err errInvalid else Ok tt.

Definition withTrigger (kind : string) (d : DeliveryIntent) : DeliveryIntent := {|
  dl_workspace_id := dl_workspace_id d; dl_finding_id := dl_finding_id d; dl_connection_id := dl_connection_id d;
  dl_connection_revision := dl_connection_revision d; dl_profile := dl_profile d; dl_channel := dl_channel d;
  dl_requested_by := dl_requested_by d; dl_payload := dl_payload d; dl_jira := dl_jira d;
  dl_destination := dl_destination d; dl_webhook := dl_webhook d; dl_trigger_kind := kind;
  dl_policy_id := dl_policy_id d; dl_policy_revision := dl_policy_revision d;
  dl_finding_change_revision := dl_finding_change_revision d |}.

Definition enqueueTx (workspace : string) (session : authenticatedSession) (findingID : string) (i : enqueueInput)
    : M DB (Z * deliveryRecord) :=
  selected <- selectedFindingDelivery workspace session findingID (eqConnectionID i) ;;
  fromRes (previewConsent i selected) ;;;
  id <- newID ;;
  at_ <- now ;;
  let d := withTrigger "manual" selected in
  let digest := deliveryIntentBinding d (eqIdempotencyKey i) in
  lockDeliveryKey ;;;
  found <- query (λ _ db, Ok (findRow (λ _ r, sameKey workspace (eqIdempotencyKey i) r) (t_deliveries db))) ;;
  match found with
  | Some (rid, r) =>
      guard ((dl_binding_digest (dl_meta r) ==? digest) && validDeliveryBinding rid (dl_meta r)) errConflict ;;;
      ret (200, {| DlID := rid; DlRow := r |})
  | None =>
      (if dl_profile d ==? JiraCloudV3 then
         lockDeliveryKey ;;;
         effect <- jiraFindingEffect workspace (dl_connection_id d) findingID ;;
         guard (negb (isSome effect)) errConflict
       else ret tt) ;;;
      let m := {| dl_intent := d; dl_idempotency_key := eqIdempotencyKey i; dl_binding_digest := digest;
                  dl_approval_ref := remediationRef workspace id; dl_created_at := at_ |} in
      record <- insertFindingDelivery id m ;;
      (if dl_profile d ==? JiraCloudV3 then insertJiraFindingEffect id m else ret tt) ;;;
      ret (202, record)
  end.

Definition enqueueFindingDelivery (workspace : string) (session : authenticatedSession) (findingID : string)
    (i : enqueueInput) : M DB (Z * deliveryRecord) :=
  guard (validID (eqConnectionID i) && validText (eqIdempotencyKey i) 256) errInvalid ;;;
  guard (PublicOrigin config !=? "") errUnavailable ;;;
  transaction (enqueueTx workspace session findingID i).
End binding.

Definition getFindingDelivery (workspace id : string) : M DB deliveryRecord :=
  query (λ _ db, match t_deliveries db !! id with
    | Some r => if dl_workspace_id (dl_intent (dl_meta r)) ==? workspace then Ok {| DlID := id; DlRow := r |}
                else Err ErrNoRows
    | None => Err ErrNoRows
    end).

Definition listFindingDeliveries (query_ : urlQuery) (workspace findingID : string)
    : M DB (list deliveryRecord * Z * option string) :=
  profile <- fromRes (deliveryProfile query_) ;;
  p <- fromRes (pageParameters (queryGet query_ "limit") (queryGet query_ "cursor")) ;;
  let P (r : DeliveryRow) := let d := dl_intent (dl_meta r) in
    (dl_workspace_id d ==? workspace) && (dl_finding_id d ==? findingID) && (dl_profile d ==? profile) in
  transaction (
    query (λ _ db, match t_findings db !! findingID with
      | Some f => if f_workspace_id f ==? workspace then Ok tt else Err ErrNoRows
      | None => Err ErrNoRows
      end) ;;;
    total <- query (λ _ db, Ok (countRows (λ _ r, P r) (t_deliveries db))) ;;
    items <- query (λ _ db, Ok (take (fst p + 1) ((λ r : string * DeliveryRow, {| DlID := r.1; DlRow := r.2 |}) <$>
      rowsAfter (λ _ r, P r) (t_deliveries db) (snd p)))) ;;
    ret (fst (cutPage DlID (fst p) items), total, snd (cutPage DlID (fst p) items))).
