(* ===== verification/DeliveryWorker.v ===== *)
(** * The delivery worker (remediation_worker.go, remediation_jira_worker.go,
      remediation_teams_worker.go)

    The worker claims one queued delivery under a lease, checks its binding,
    the requester's role and the connection, commits the dispatch, sends, and
    records the outcome.  Jira, Teams and webhook deliveries are guarded: the
    attempt is committed before the request leaves, and a watcher withdraws
    the authority to send while the request is under way.

    The connector behind a profile is an interface ([DeliveryAdapter]) over
    HTTP; its answers, and the cause the watcher or the caller cancelled with,
    come from the record [native].  The state of the worker's programs is the
    database with the list of requests that left ([Net]). *)
From stdpp Require Import pretty.
From S2P Require Import Prelude GoLib Encoding Tx ReportAdapter Schema Auth Paging Assets WorkViews Work Connections Deliveries.
Local Open Scope Z_scope.

(** connectors.DeliveryConfig and connectors.Action, as the worker fills them. *)
Record deliveryConfig := {
  dcProfile : string; dcEndpoint : string; dcWorkspaceID : string; dcChannel : string; dcToken : string;
  dcProject : string; dcIssueType : string; dcAllowedOrigins : list string }.
Record Action := {
  ActWorkspaceID : string; ActIntentID : string; ActApprovalRef : string; ActFindingID : string;
  ActTitle : string; ActBody : string; ActDeepLink : string; ActFields : option (gmap string string);
  ActTrigger : string * option string * option Z * option Z }.
(** connectors.Delivery and an error of an adapter: whether it is ErrScope or
    ErrRateLimited, and the code, native code, HTTP status and retry delay (in
    nanoseconds) of a connectors.Error. *)
Record nativeDelivery := {
  ndState : string; ndRemoteID : string; ndRemoteURL : string; ndMissingFields : list string }.
Record nativeError := {
  neScope : bool; neRateLimited : bool; neDetail : option (string * string * Z * Z) }.

Record native := {
  nv_client : string → bool;                             (** sourceNativeClient succeeds *)
  nv_open : deliveryConfig → bool;                       (** connectors.OpenDelivery succeeds *)
  nv_preview : nat → option (list string * nativeError); (** the error of Preview, with missing fields *)
  nv_send : nat → nativeDelivery * option nativeError;   (** the answer of Send *)
  nv_cause : nat → option error }.                       (** context.Cause of the native context *)

Record workerConfig := {
  wID : string; wLease : Z; wEndpoint : string; wPublicOrigin : string; wWebhookOrigins : list string;
  wKeyed : bool }.
(** [w.lease.Milliseconds()*interval '1 millisecond'] in microseconds. *)
Definition leaseMicros (w : workerConfig) : Z := wLease w / 1000000 * 1000.

(** ** Outcomes *)

Definition failureOf (code : string) : FindingDeliveryFailure := {|
  DeliveryCode := code; NativeCode := ""; HTTPStatus := 0; RetryAfterSeconds := 0; DeliveryRetryable := false;
  Stage := ""; MissingFields := [] |}.
Definition withCode (code : string) (f : FindingDeliveryFailure) : FindingDeliveryFailure := {|
  DeliveryCode := code; NativeCode := NativeCode f; HTTPStatus := HTTPStatus f; RetryAfterSeconds := RetryAfterSeconds f;
  DeliveryRetryable := DeliveryRetryable f; Stage := Stage f; MissingFields := MissingFields f |}.
Definition withStage (stage : string) (missing : list string) (f : FindingDeliveryFailure) : FindingDeliveryFailure := {|
  DeliveryCode := DeliveryCode f; NativeCode := NativeCode f; HTTPStatus := HTTPStatus f;
  RetryAfterSeconds := RetryAfterSeconds f; DeliveryRetryable := DeliveryRetryable f; Stage := stage;
  MissingFields := missing |}.

Definition failedState (state : string) : option dstate :=
  if state ==? "blocked" then Some DBlocked else if state ==? "failed" then Some DFailed
  else if state ==? "rate-limited" then Some DRateLimited else if state ==? "uncertain" then Some DUncertain else None.

Definition deliveryOutcome (done : bool) (result : nativeDelivery) (nativeErr : option nativeError) (token : string)
    : dstate * option FindingDeliveryReceipt * option FindingDeliveryFailure :=
  if negb (isSome nativeErr) && ((ndState result ==? "confirmed") || (ndState result ==? "accepted")) then
    (if ndState result ==? "confirmed" then DConfirmed else DAccepted,
     Some {| RemoteID := ndRemoteID result; RemoteURL := ndRemoteURL result |}, None)
  else
    let failure := match (e ← nativeErr; neDetail e) with
      | Some (code, nativeCode, status, retry) =>
          {| DeliveryCode := code; HTTPStatus := status;
             NativeCode := if (token !=? "") && Contains nativeCode token then "" else nativeCode;
             RetryAfterSeconds := Z.max 0 (retry ÷ 1000000000); DeliveryRetryable := false; Stage := "";
             MissingFields := [] |}
      | None => failureOf "uncertain"
      end in
    match failedState (ndState result), done with
    | Some state, false => (state, None, Some failure)
    | _, _ => (DUncertain, None, Some (withCode "uncertain" failure))
    end.

(** Without a receipt: the profiles that only acknowledge. *)
Definition acceptedDeliveryOutcome (done : bool) (result : nativeDelivery) (nativeErr : option nativeError)
    : dstate * option FindingDeliveryFailure :=
  if negb (isSome nativeErr) && (ndState result ==? "accepted") && negb done then (DAccepted, None)
  else
    let cause := Some (default {| neScope := false; neRateLimited := false; neDetail := None |} nativeErr) in
    let '(state, _, failure) := deliveryOutcome done result cause "" in
    match failure with
    | Some f => (state, Some {| DeliveryCode := DeliveryCode f; NativeCode := ""; HTTPStatus := HTTPStatus f;
        RetryAfterSeconds := RetryAfterSeconds f; DeliveryRetryable := DeliveryRetryable f; Stage := "";
        MissingFields := [] |})
    | None => (DUncertain, Some (failureOf "uncertain"))
    end.

(** [^[A-Za-z][A-Za-z0-9_]{0,127}$] *)
Definition jiraDiagnosticField : string → bool :=
  pattern (λ b, upper b || lowerLetter b) (λ b, upper b || lowerLetter b || isDigit b || (b =? 95)%N) 0 127.
Definition strOrder (a b : string) : Prop := strLe a b = true.
#[export] Instance strOrder_dec a b : Decision (strOrder a b).
Proof. unfold strOrder. apply _. Defined.
(** slices.Compact. *)
Fixpoint compact (l : list string) : list string :=
  match l with
  | x :: (y :: _) as l' => if x ==? y then compact l' else x :: compact l'
  | _ => l
  end.
Definition jiraMissingFields (fields : list string) (token : string) : list string :=
  compact (merge_sort strOrder
    (filter (λ f, jiraDiagnosticField f && ((token ==? "") || negb (Contains f token)) = true) fields)).

(** What interrupted a guarded delivery: before the attempt was recorded it is
    blocked, after that nobody knows. *)
Definition causeCode (cause : error) : string :=
  match cause with deliveryDenial code => code | ErrContext => "canceled" | _ => "unavailable" end.
Definition jiraInterruptedOutcome (cause : error) (attempted : bool) : dstate * FindingDeliveryFailure :=
  if attempted then (DUncertain, withStage "create" [] (failureOf "uncertain"))
  else (DBlocked, withStage "metadata" [] (failureOf (causeCode cause))).
Definition guardedDeliveryInterruptedOutcome (profile : string) (cause : error) (attempted : bool)
    : dstate * FindingDeliveryFailure :=
  let '(state, failure) := jiraInterruptedOutcome cause attempted in
  (state, if (profile ==? TeamsWorkflows) || (profile ==? GenericWebhookV1)
          then withStage "" (MissingFields failure) failure else failure).
Definition jiraMetadataOutcome (missing : list string) (nativeErr : nativeError) (token : string)
    : dstate * option FindingDeliveryFailure :=
  let state := if neScope nativeErr then "blocked" else if neRateLimited nativeErr then "rate-limited" else "failed" in
  let '(st, _, failure) := deliveryOutcome false
    {| ndState := state; ndRemoteID := ""; ndRemoteURL := ""; ndMissingFields := [] |} (Some nativeErr) token in
  (st, withStage "metadata" (jiraMissingFields missing token) <$> failure).

(** ** Claims *)

(** [deliveryInfrastructureError]: what nothing inspects, unless the context is done. *)
Definition infraErr {S A} : M S A := done <- ctxErr ;; throw (if (done : bool) then ErrContext else errDeliveryWork).
Definition infra {S A} (m : M S A) : M S A := handle m (λ r, match r with Ok a => ret a | Err _ => infraErr end).

Definition setDelivery (r : DeliveryRow) (j : DeliveryJob) : DeliveryRow := {| dl_meta := dl_meta r; dl_job := j |}.
Definition deliveryOver (t : Z) (j : DeliveryJob) : bool :=
  match dl_lease_until j with Some u => u <=? t | None => false end.
Definition deliveryLive (t : Z) (j : DeliveryJob) : bool :=
  match dl_lease_until j with Some u => t <? u | None => false end.
Definition deliverable (t : Z) (r : DeliveryRow) : bool :=
  let j := dl_job r in (dl_state j ==? DQueued) || (dl_state j ==? DDispatching) && deliveryOver t j.
Definition createdLe (a b : string * DeliveryRow) : bool :=
  let ta := dl_created_at (dl_meta a.2) in let tb := dl_created_at (dl_meta b.2) in
  (ta <? tb) || (ta =? tb) && strLe a.1 b.1.
(** [ORDER BY created_at,id LIMIT 1 FOR UPDATE SKIP LOCKED]. *)
Definition nextDelivery (locked : string → bool) (t : Z) (m : gmap string DeliveryRow) : option (string * DeliveryRow) :=
  argmin createdLe (rowsWhere (λ id r, deliverable t r && negb (locked id)) m).

(** [UPDATE finding_deliveries SET f WHERE workspace_id=$1 AND id=$2 AND P]. *)
Definition updateDelivery (workspace id : string) (P : DeliveryRow → bool) (f : DeliveryRow → DeliveryRow) (db : DB)
    : option DeliveryRow * DB :=
  match t_deliveries db !! id with
  | Some r => if (dl_workspace_id (dl_intent (dl_meta r)) ==? workspace) && P r
              then (Some (f r), with_deliveries (<[id := f r]> (t_deliveries db)) db) else (None, db)
  | None => (None, db)
  end.

Definition settled (worker : string) (state : dstate) (code : string) (t : Z) (r : DeliveryRow) : DeliveryRow :=
  let j := dl_job r in
  setDelivery r {| dl_state := state; dl_dispatch_started_at := dl_dispatch_started_at j; dl_completed_at := Some t;
    dl_worker_id := Some worker; dl_fence := dl_fence j + 1; dl_lease_until := None; dl_receipt := None;
    dl_failure := Some (failureOf code); dl_create_attempted_at := dl_create_attempted_at j |}.
Definition settleClaim (w : workerConfig) (record : deliveryRecord) (state : dstate) (code : string) : M DB unit :=
  exec (λ t db, (tt, snd (updateDelivery (dl_workspace_id (recIntent record)) (DlID record) (λ _, true)
                            (settled (wID w) state code t) db))).

(** An expired dispatch may have been sent: it ends, it is never sent again. *)
Definition expiredOutcome (r : DeliveryRow) : dstate * string :=
  if guarded (dl_profile (dl_intent (dl_meta r))) && negb (isSome (dl_create_attempted_at (dl_job r)))
  then (DBlocked, "lease-expired") else (DUncertain, "uncertain").

Definition dispatched (w : workerConfig) (t : Z) (r : DeliveryRow) : DeliveryRow :=
  let j := dl_job r in
  setDelivery r {| dl_state := DDispatching; dl_dispatch_started_at := Some t; dl_completed_at := dl_completed_at j;
    dl_worker_id := Some (wID w); dl_fence := dl_fence j + 1; dl_lease_until := Some (t + leaseMicros w);
    dl_receipt := dl_receipt j; dl_failure := dl_failure j; dl_create_attempted_at := dl_create_attempted_at j |}.

Record deliveryDispatch := { dsRecord : deliveryRecord; dsToken : string; dsCredential : list N }.

Section worker.
Context `{!Gateway} (nv : native) (w : workerConfig).

(** Whether the connection is still the one the delivery was made for. *)
Definition targetCurrent (d : DeliveryIntent) (c : ConnectionRow) : bool :=
  ((dl_profile d !=? TeamsWorkflows) ||
   match cn_teams c with
   | Some teams => validTeamsMetadata (Some teams) &&
       (Some {| DestinationName := cn_name c; DestinationTeams := teams |} ==? dl_destination d)
   | None => false
   end) &&
  ((dl_profile d !=? GenericWebhookV1) ||
   match cn_webhook c with
   | Some hook => validWebhookTarget (Some hook) && (Some hook ==? dl_webhook d) &&
       webhookOriginAllowed (Origin hook) (wWebhookOrigins w)
   | None => false
   end).
Definition connectionReason (d : DeliveryIntent) (conn : option ConnectionRow) : string :=
  match conn with
  | None => "connection-changed"
  | Some c =>
      if negb (cn_enabled c) then "connection-disabled"
      else if (cn_revision c !=? dl_connection_revision d) || (cn_profile c !=? dl_profile d) ||
              (cn_channel c !=? dl_channel d) then "connection-changed"
      else if cn_jira c !=? dl_jira d then "connection-changed"
      else if negb (targetCurrent d c) then "connection-changed" else ""
  end.

(** The configuration of the adapter and why it cannot be opened.  A failed
    native client is reported as an unavailable credential: [err] still holds
    its error when the code tests it for OpenDelivery. *)
Definition dispatchConfig (d : DeliveryIntent) (token : string) : deliveryConfig := {|
  dcProfile := dl_profile d; dcWorkspaceID := dl_workspace_id d; dcChannel := dl_channel d;
  dcEndpoint := if dl_profile d ==? JiraCloudV3 then default "" (APIBase <$> dl_jira d)
                else if dl_profile d ==? TeamsWorkflows then token
                else if dl_profile d ==? GenericWebhookV1 then webhookEndpoint (dl_webhook d) else wEndpoint w;
  dcToken := if dl_profile d ==? TeamsWorkflows then "" else token;
  dcProject := if dl_profile d ==? JiraCloudV3 then default "" (Project <$> dl_jira d) else "";
  dcIssueType := if dl_profile d ==? JiraCloudV3 then default "" (IssueType <$> dl_jira d) else "";
  dcAllowedOrigins := if dl_profile d ==? GenericWebhookV1 then wWebhookOrigins w else [] |}.
Definition clientReason (d : DeliveryIntent) (c : ConnectionRow) (token : string) : string :=
  if dl_profile d ==? JiraCloudV3 then
    if nv_client nv (default "" (APIBase <$> dl_jira d)) then "" else "credential-unavailable"
  else if dl_profile d ==? TeamsWorkflows then
    match teamsWorkflowOrigin token, cn_teams c with
    | Some origin, Some teams =>
        if origin ==? WorkflowOrigin teams then if nv_client nv origin then "" else "credential-unavailable"
        else "credential-unavailable"
    | _, _ => "credential-unavailable"
    end
  else "".
Definition openReason (d : DeliveryIntent) (c : ConnectionRow) (token : string) : string :=
  let reason := clientReason d c token in
  if reason !=? "" then reason else if nv_open nv (dispatchConfig d token) then "" else "credential-unavailable".

(** What a queued delivery is held up by, and the token when by nothing. *)
Definition admitDelivery (record : deliveryRecord) : M DB (string * string * list N) :=
  let d := recIntent record in
  role <- infra (query (λ _ db, Ok (t_memberships db !! (dl_workspace_id d, dl_requested_by d)))) ;;
  let reason := match role with
    | Some role => if (role ==? "admin") || (role ==? "analyst")
                   then if validDeliveryBinding (DlID record) (dl_meta (DlRow record)) then "" else "binding-changed"
                   else "authorization-revoked"
    | None => "authorization-revoked"
    end in
  if reason !=? "" then ret (reason, "", [])
  else
    conn <- infra (query (λ _ db, Ok (connectionOf (dl_workspace_id d) (dl_connection_id d) db))) ;;
    let reason := connectionReason d conn in
    match conn with
    | Some c =>
        if reason !=? "" then ret (reason, "", [])
        else match openConnectionToken (wKeyed w) (dl_profile d) (dl_workspace_id d) (dl_connection_id d) (cn_ciphertext c) with
             | Err _ => ret ("credential-unavailable", "", [])
             | Ok token =>
                 done <- ctxErr ;;
                 guard (negb done) ErrContext ;;;
                 ret (openReason d c token, token, cn_ciphertext c)
             end
    | None => ret (reason, "", [])
    end.

Definition claimTx : M DB (option deliveryDispatch) :=
  locked <- skipLocked ;;
  found <- infra (query (λ t db, Ok (nextDelivery locked t (t_deliveries db)))) ;;
  match found with
  | None => throw ErrNoRows
  | Some (id, r) =>
      let record := {| DlID := id; DlRow := r |} in
      if dl_state (dl_job r) ==? DDispatching then
        let '(state, code) := expiredOutcome r in
        infra (settleClaim w record state code) ;;; ret None
      else
        admitted <- admitDelivery record ;;
        let '(reason, token, credential) := admitted in
        if reason !=? "" then infra (settleClaim w record DBlocked reason) ;;; ret None
        else
          started <- infra (stmt (λ t db,
            match updateDelivery (dl_workspace_id (recIntent record)) id (λ _, true) (dispatched w t) db with
            | (Some r', db') => Ok (r', db')
            | (None, _) => Err ErrNoRows
            end)) ;;
          ret (Some {| dsRecord := {| DlID := id; DlRow := started |}; dsToken := token; dsCredential := credential |})
  end.

(** The dispatch to carry out, and whether a delivery was worked on. *)
Definition claimDelivery : M DB (option deliveryDispatch * bool) :=
  handle (transaction claimTx) (λ r,
    match r with
    | Ok d => ret (d, true)
    | Err ErrNoRows => ret (None, false)
    | Err ErrDatabase => infraErr
    | Err e => throw e
    end).

(** ** Finishing *)

Definition heldBy (fence t : Z) (r : DeliveryRow) : bool :=
  let j := dl_job r in
  (dl_worker_id j ==? Some (wID w)) && (dl_fence j =? fence) && (dl_state j ==? DDispatching) && deliveryLive t j.
Definition dsFence (ds : deliveryDispatch) : Z := dl_fence (dl_job (DlRow (dsRecord ds))).
Definition dsIntent (ds : deliveryDispatch) : DeliveryIntent := recIntent (dsRecord ds).

Definition finished (state : dstate) (receipt : option FindingDeliveryReceipt) (failure : option FindingDeliveryFailure)
    (t : Z) (r : DeliveryRow) : DeliveryRow :=
  let j := dl_job r in
  setDelivery r {| dl_state := state; dl_dispatch_started_at := dl_dispatch_started_at j; dl_completed_at := Some t;
    dl_worker_id := dl_worker_id j; dl_fence := dl_fence j; dl_lease_until := None; dl_receipt := receipt;
    dl_failure := failure; dl_create_attempted_at := dl_create_attempted_at j |}.
(** The guarded UPDATE, and whether it hit the row. *)
Definition finishRow (ds : deliveryDispatch) (state : dstate) (receipt : option FindingDeliveryReceipt)
    (failure : option FindingDeliveryFailure) : M DB bool :=
  exec (λ t db, let '(hit, db') := updateDelivery (dl_workspace_id (dsIntent ds)) (DlID (dsRecord ds))
                   (heldBy (dsFence ds) t) (finished state receipt failure t) db in (isSome hit, db')).

Definition finishDelivery (ds : deliveryDispatch) (state : dstate) (receipt : option FindingDeliveryReceipt)
    (failure : option FindingDeliveryFailure) : M DB unit :=
  handle (finishRow ds state receipt failure) (λ r,
    match r with Ok true => ret tt | _ => throw errDeliveryWork end).

(** The record read, [None] when there is none, and why it may not be sent.
    Nothing is thrown: the callers look at both. *)
Definition deliveryDispatchAuthority (ds : deliveryDispatch) : M DB (option deliveryRecord * option error) :=
  let prior := dsIntent ds in
  handle (query (λ t db, Ok (
    match t_deliveries db !! DlID (dsRecord ds) with
    | Some r => if (dl_workspace_id (dl_intent (dl_meta r)) ==? dl_workspace_id prior) && heldBy (dsFence ds) t r
                then Some r else None
    | None => None
    end))) (λ found,
  match found with
  | Err e => ret (None, Some e)
  | Ok None => ret (None, Some (deliveryDenial "lease-lost"))
  | Ok (Some r) =>
      let current := {| DlID := DlID (dsRecord ds); DlRow := r |} in
      let deny code := ret (Some current, Some (deliveryDenial code)) in
      if negb (validDeliveryBinding (DlID current) (dl_meta r)) ||
         (dl_binding_digest (dl_meta r) !=? dl_binding_digest (dl_meta (DlRow (dsRecord ds)))) then deny "binding-changed"
      else handle (query (λ _ db, Ok (t_memberships db !! (dl_workspace_id prior, dl_requested_by prior)))) (λ role,
        match role with
        | Err e => ret (Some current, Some e)
        | Ok None => deny "authorization-revoked"
        | Ok (Some role) =>
            if negb ((role ==? "admin") || (role ==? "analyst")) then deny "authorization-revoked"
            else handle (query (λ _ db, Ok (connectionOf (dl_workspace_id prior) (dl_connection_id prior) db))) (λ conn,
              match conn with
              | Err e => ret (Some current, Some e)
              | Ok None => deny "connection-changed"
              | Ok (Some c) =>
                  if negb (cn_enabled c) then deny "connection-disabled"
                  else if (cn_revision c !=? dl_connection_revision prior) || (cn_profile c !=? dl_profile prior) ||
                          (cn_channel c !=? dl_channel prior) ||
                          (marshal (optJSON jiraJSON (cn_jira c)) !=? marshal (optJSON jiraJSON (dl_jira prior))) ||
                          (cn_ciphertext c !=? dsCredential ds) then deny "connection-changed"
                  else if negb (targetCurrent prior c) then deny "connection-changed"
                  else ret (Some current, None)
              end)
        end)
  end).

(** [watchDeliveryAuthority]: the first error within [ticks] probes of the row. *)
Fixpoint watchDeliveryAuthority (ticks : nat) (ds : deliveryDispatch) : M DB (option error) :=
  match ticks with
  | O => ret None
  | S ticks' =>
      probe <- deliveryDispatchAuthority ds ;;
      match snd probe with Some e => ret (Some e) | None => watchDeliveryAuthority ticks' ds end
  end.

(** A transaction whose function returns a value next to its error. *)
Definition transactionVal {A} (m : M DB (A * option error)) : M DB (A * option error) := λ env n s,
  match m env n s with
  | mkOut (Ok (a, None)) s' n' =>
      match env_commit env n' with
      | Committed => mkOut (Ok (a, None)) s' (n' + 1)%nat
      | Aborted => mkOut (Ok (a, Some ErrDatabase)) s (n' + 1)%nat
      | AckLost => mkOut (Ok (a, Some ErrDatabase)) s' (n' + 1)%nat
      end
  | mkOut (Ok (a, Some e)) _ n' => mkOut (Ok (a, Some e)) s n'
  | mkOut (Err e) _ n' => mkOut (Err e) s n'
  end.

Definition attempted (t : Z) (r : DeliveryRow) : DeliveryRow :=
  let j := dl_job r in
  setDelivery r {| dl_state := dl_state j; dl_dispatch_started_at := dl_dispatch_started_at j;
    dl_completed_at := dl_completed_at j; dl_worker_id := dl_worker_id j; dl_fence := dl_fence j;
    dl_lease_until := dl_lease_until j; dl_receipt := dl_receipt j; dl_failure := dl_failure j;
    dl_create_attempted_at := Some t |}.
Definition hasAttempt (r : option deliveryRecord) : bool :=
  match r with Some r => isSome (dl_create_attempted_at (dl_job (DlRow r))) | None => false end.

Definition markTx (ds : deliveryDispatch) : M DB (option deliveryRecord * option error) :=
  handle (lockWorkspace (dl_workspace_id (dsIntent ds))) (λ locked,
  match locked with
  | Err e => ret (Some (dsRecord ds), Some e)
  | Ok _ =>
      authority <- deliveryDispatchAuthority ds ;;
      match authority with
      | (current, Some e) => ret (current, Some e)
      | (current, None) =>
          if hasAttempt current then ret (current, Some (deliveryDenial "create-already-attempted"))
          else handle (exec (λ t db, updateDelivery (dl_workspace_id (dsIntent ds)) (DlID (dsRecord ds))
                 (λ r, heldBy (dsFence ds) t r && negb (isSome (dl_create_attempted_at (dl_job r)))) (attempted t) db))
               (λ marked,
                 match marked with
                 | Ok (Some r) => ret (Some {| DlID := DlID (dsRecord ds); DlRow := r |}, None)
                 | Ok None => ret (None, Some (deliveryDenial "lease-lost"))
                 | Err e => ret (None, Some e)
                 end)
      end
  end).
Definition markDeliveryAttempt (ds : deliveryDispatch) : M DB (option deliveryRecord * option error) :=
  transactionVal (markTx ds).

(** The outcome to record: what happened, unless the authority was withdrawn;
    [None] when the row is not this worker's any more. *)
Definition guardedOutcome (profile : string) (current : option deliveryRecord) (denied : option error)
    (outcome : dstate * option FindingDeliveryReceipt * option FindingDeliveryFailure)
    : option (dstate * option FindingDeliveryReceipt * option FindingDeliveryFailure) :=
  match denied with
  | None => Some outcome
  | Some (deliveryDenial code) =>
      if code ==? "lease-lost" then None
      else let '(state, failure) := guardedDeliveryInterruptedOutcome profile (deliveryDenial code) (hasAttempt current) in
           Some (state, None, Some failure)
  | Some _ => None
  end.

Definition finishGuardedTx (ds : deliveryDispatch) (state : dstate) (receipt : option FindingDeliveryReceipt)
    (failure : option FindingDeliveryFailure) : M DB unit :=
  handle (lockWorkspace (dl_workspace_id (dsIntent ds))) (λ locked,
    match locked with Ok _ => ret tt | Err _ => throw errDeliveryWork end) ;;;
  authority <- deliveryDispatchAuthority ds ;;
  match guardedOutcome (dl_profile (dsIntent ds)) (fst authority) (snd authority) (state, receipt, failure) with
  | None => infraErr
  | Some (state, receipt, failure) =>
      handle (finishRow ds state receipt failure) (λ r,
        match r with
        | Ok true => ret tt
        | Ok false => throw (deliveryDenial "lease-lost")
        | Err _ => throw errDeliveryWork
        end)
  end.
Definition finishGuardedDelivery (ds : deliveryDispatch) (state : dstate) (receipt : option FindingDeliveryReceipt)
    (failure : option FindingDeliveryFailure) : M DB unit :=
  handle (transaction (finishGuardedTx ds state receipt failure))
    (λ r, match r with Ok _ => ret tt | Err ErrDatabase => throw errDeliveryWork | Err e => throw e end).

(** ** Sending *)

Definition deliveryTrigger (d : DeliveryIntent) : string * option string * option Z * option Z :=
  (dl_trigger_kind d, dl_policy_id d, dl_policy_revision d, dl_finding_change_revision d).
Definition actionOf (ds : deliveryDispatch) : Action :=
  let d := dsIntent ds in let p := dl_payload d in
  {| ActWorkspaceID := dl_workspace_id d; ActIntentID := DlID (dsRecord ds);
     ActApprovalRef := dl_approval_ref (dl_meta (DlRow (dsRecord ds))); ActFindingID := dl_finding_id d;
     ActTitle := PayloadTitle p; ActBody := PayloadBody p; ActDeepLink := DeepLink p;
     ActFields := if dl_profile d ==? JiraCloudV3 then PayloadFields p else None; ActTrigger := deliveryTrigger d |}.

(** A request that left: the delivery and what it said. *)
Record Net := mkNet { net_db : DB; net_sent : list Action }.
Definition lift {A} (m : M DB A) : M Net A := λ env n s,
  match m env n (net_db s) with mkOut r db n' => mkOut r (mkNet db (net_sent s)) n' end.
Definition send (ds : deliveryDispatch) : M Net (nativeDelivery * option nativeError) := λ env n s,
  mkOut (Ok (nv_send nv n)) (mkNet (net_db s) (actionOf ds :: net_sent s)) (n + 1)%nat.
Definition preview (ds : deliveryDispatch) : M Net (option (list string * nativeError)) := λ env n s,
  mkOut (Ok (nv_preview nv n)) s (n + 1)%nat.
Definition cause : M Net (option error) := λ env n s, mkOut (Ok (nv_cause nv n)) s (n + 1)%nat.

(** A Jira receipt names an issue of the project; its link is built from the
    approved site. *)
Definition jiraReceipt (d : DeliveryIntent)
    (outcome : dstate * option FindingDeliveryReceipt * option FindingDeliveryFailure)
    : dstate * option FindingDeliveryReceipt * option FindingDeliveryFailure :=
  match outcome with
  | (state, Some receipt, failure) =>
      let project := default "" (Project <$> dl_jira d) +:+ "-" in
      if HasPrefix (RemoteID receipt) project &&
         jiraIssueType (of_bytes (drop (String.length project) (bytes (RemoteID receipt))))
      then (state, Some {| RemoteID := RemoteID receipt;
              RemoteURL := default "" (SiteOrigin <$> dl_jira d) +:+ "/browse/" +:+ RemoteID receipt |}, failure)
      else (DUncertain, None, Some (failureOf "uncertain"))
  | _ => outcome
  end.

(** Recording why the attempt could not be marked. *)
Definition interruptedMark (ds : deliveryDispatch) (record : option deliveryRecord) (e : error) : M Net unit :=
  interrupted <- cause ;;
  let '(state, failure) := guardedDeliveryInterruptedOutcome (dl_profile (dsIntent ds))
                             (default e interrupted) (hasAttempt record) in
  lift (finishGuardedDelivery ds state None (Some failure)).

Definition processJiraDelivery (ds : deliveryDispatch) : M Net unit :=
  previewed <- preview ds ;;
  match previewed with
  | Some (missing, err) =>
      interrupted <- cause ;;
      let '(state, failure) := match interrupted with
        | Some c => let '(st, f) := jiraInterruptedOutcome c false in (st, Some f)
        | None => jiraMetadataOutcome missing err (dsToken ds)
        end in
      lift (finishGuardedDelivery ds state None failure)
  | None =>
      marked <- lift (markDeliveryAttempt ds) ;;
      match marked with
      | (record, Some e) => interruptedMark ds record e
      | (_, None) =>
          answer <- send ds ;;
          done <- ctxErr ;;
          let '(result, nativeErr) := answer in
          let '(state, receipt, failure) :=
            jiraReceipt (dsIntent ds) (deliveryOutcome done result nativeErr (dsToken ds)) in
          let failure := withStage "create" (jiraMissingFields (ndMissingFields result) (dsToken ds)) <$> failure in
          interrupted <- cause ;;
          match interrupted with
          | Some c => let '(st, f) := jiraInterruptedOutcome c true in
              lift (finishGuardedDelivery ds st None (Some f))
          | None => lift (finishGuardedDelivery ds state receipt failure)
          end
      end
  end.

Definition processAcceptedDelivery (ds : deliveryDispatch) : M Net unit :=
  marked <- lift (markDeliveryAttempt ds) ;;
  match marked with
  | (record, Some e) => interruptedMark ds record e
  | (_, None) =>
      answer <- send ds ;;
      done <- ctxErr ;;
      let '(state, failure) := acceptedDeliveryOutcome done (fst answer) (snd answer) in
      interrupted <- cause ;;
      match interrupted with
      | Some c => let '(st, f) := guardedDeliveryInterruptedOutcome (dl_profile (dsIntent ds)) c true in
          lift (finishGuardedDelivery ds st None (Some f))
      | None => lift (finishGuardedDelivery ds state None failure)
      end
  end.

Definition processSlackDelivery (ds : deliveryDispatch) : M Net unit :=
  answer <- send ds ;;
  done <- ctxErr ;;
  let '(state, receipt, failure) := deliveryOutcome done (fst answer) (snd answer) (dsToken ds) in
  lift (finishDelivery ds state receipt failure) ;;;
  done <- ctxErr ;;
  guard (negb done) ErrContext.

Definition processDispatch (ds : deliveryDispatch) : M Net unit :=
  let profile := dl_profile (dsIntent ds) in
  if profile ==? JiraCloudV3 then processJiraDelivery ds
  else if (profile ==? TeamsWorkflows) || (profile ==? GenericWebhookV1) then processAcceptedDelivery ds
  else processSlackDelivery ds.
End worker.
