(* ===== verification/Notifications.v ===== *)
(** * Notification policies (notification_policies.go, notification_policy_worker.go)

    A policy sends every change of a finding that matches its terms to a
    connection.  Each change of a policy takes the next epoch of the workspace
    and is kept as a revision; reconciliation stamps change events with the
    epoch it saw, and the worker evaluates an event against the revisions in
    force at that epoch, however late it runs. *)
From stdpp Require Import pretty.
From S2P Require Import Prelude GoLib Encoding Tx ReportAdapter Schema Auth Intake Reconcile Paging Assets WorkViews Work Reports Connections Deliveries DeliveryWorker.
Local Open Scope Z_scope.

Definition maxNotificationPolicies : Z := 32.

Record NotificationPolicy := {
  PolicyID : string; PolicyData : PolicyRow; ApprovedByName : string;
  PolicyConnection : string * ConnectionRow; ConnectionCurrent : bool }.

Definition validNotificationConnectionProfile (profile : string) : bool :=
  (profile ==? SlackWorkspaceBot) || (profile ==? TeamsWorkflows) || (profile ==? JiraCloudV3) ||
  (profile ==? GenericWebhookV1).
Definition validNotificationSeverity (value : string) : bool :=
  (value ==? "critical") || (value ==? "high") || (value ==? "medium") || (value ==? "low") || (value ==? "info").

(** The loop over the values fills a set; the result lists it in the fixed order. *)
Fixpoint selectKinds (selected : gset string) (values : list string) : option (gset string) :=
  match values with
  | [] => Some selected
  | v :: rest => if bool_decide (v ∈ selected) || negb (bool_decide (v ∈ notificationChangeKinds)) then None
                 else selectKinds ({[v]} ∪ selected) rest
  end.
Definition normalizeNotificationChangeKinds (values : list string) : option (list string) :=
  if (length values =? 0)%nat || (length notificationChangeKinds <? length values)%nat then None
  else selected ← selectKinds ∅ values; Some (filter (λ v, v ∈ selected) notificationChangeKinds).

(** ** Operations *)

Definition lockNotificationPolicyEpoch (workspace : string) : M DB Z :=
  stmt (λ _ db,
    match t_workspaces db !! workspace with
    | Some r =>
        let epoch := w_notification_policy_epoch r + 1 in
        Ok (epoch, with_workspaces (<[workspace := {| w_name := w_name r; w_created_at := w_created_at r;
                     w_notification_policy_epoch := epoch |}]> (t_workspaces db)) db)
    | None => Err ErrNoRows
    end).

Definition notificationPolicyConnection (workspace id : string) : M DB ConnectionRow :=
  r <- readConnection workspace id ;;
  guard (validNotificationConnectionProfile (cn_profile r)) errInvalid ;;;
  ret r.

(** The CHECKs that notification_policies and its revisions share. *)
Definition termsCheck (t : PolicyTerms) : bool :=
  (1 <=? len (pt_name t)) && (len (pt_name t) <=? 256) && validNotificationConnectionProfile (pt_connection_profile t) &&
  (0 <? pt_connection_revision t) && (1 <=? length (pt_change_kinds t))%nat && (length (pt_change_kinds t) <=? 3)%nat &&
  forallb (λ k, bool_decide (k ∈ notificationChangeKinds)) (pt_change_kinds t) &&
  validNotificationSeverity (pt_minimum_severity t) && (0 <? pt_revision t) && (0 <? pt_epoch t) &&
  (1 <=? len (pt_rationale t)) && (len (pt_rationale t) <=? 8192).
Definition policyRefs (workspace : string) (t : PolicyTerms) (db : DB) : bool :=
  isSome (connectionOf workspace (pt_connection_id t) db) && isSome (t_memberships db !! (workspace, pt_approved_by t)).

Definition insertNotificationPolicyRevision (workspace policy : string) (t : PolicyTerms) (actorName : string) : M DB unit :=
  id <- newID ;;
  insertInto t_policyRevisions with_policyRevisions
    (λ db, if negb (termsCheck t && (1 <=? len actorName) && (len actorName <=? 256) &&
                    match t_policies db !! policy with Some p => np_workspace_id p ==? workspace | None => false end &&
                    isSome (t_memberships db !! (workspace, pt_approved_by t))) then Some ErrConstraint
           else if anyRow (λ _ r, (nr_workspace_id r ==? workspace) &&
                      ((nr_policy_id r ==? policy) && (pt_revision (nr_terms r) =? pt_revision t) ||
                       (pt_epoch (nr_terms r) =? pt_epoch t))) (t_policyRevisions db) then Some ErrUnique else None)
    id {| nr_workspace_id := workspace; nr_policy_id := policy; nr_terms := t; nr_actor_name := actorName;
    nr_detail := freshDetail |}.

Record policyInput := {
  piName : string; piConnectionID : string; piEnabled : option bool; piChangeKinds : list string;
  piMinimumSeverity : string; piRationale : string }.

Definition createNotificationPolicyTx (workspace : string) (user : User) (i : policyInput) (enabled : bool) (kinds : list string)
    : M DB NotificationPolicy :=
  epoch <- lockNotificationPolicyEpoch workspace ;;
  count <- query (λ _ db, Ok (countRows (λ _ p, np_workspace_id p ==? workspace) (t_policies db))) ;;
  guard (count <? maxNotificationPolicies) errConflict ;;;
  conn <- notificationPolicyConnection workspace (piConnectionID i) ;;
  at_ <- now ;;
  id <- newID ;;
  let terms := {| pt_name := piName i; pt_connection_id := piConnectionID i; pt_connection_profile := cn_profile conn;
    pt_connection_revision := cn_revision conn; pt_enabled := enabled; pt_change_kinds := kinds;
    pt_minimum_severity := piMinimumSeverity i; pt_revision := 1; pt_epoch := epoch; pt_approved_by := UserID user;
    pt_rationale := piRationale i; pt_updated_at := at_ |} in
  let row := {| np_workspace_id := workspace; np_terms := terms; np_created_at := at_ |} in
  insertInto t_policies with_policies (requires (λ db, termsCheck terms && policyRefs workspace terms db) ErrConstraint)
    id row ;;;
  insertNotificationPolicyRevision workspace id terms (UserName user) ;;;
  ret {| PolicyID := id; PolicyData := row; ApprovedByName := UserName user;
         PolicyConnection := (piConnectionID i, conn); ConnectionCurrent := true |}.

Definition createNotificationPolicy (workspace : string) (session : authenticatedSession) (i : policyInput)
    : M DB NotificationPolicy :=
  match piEnabled i, normalizeNotificationChangeKinds (piChangeKinds i) with
  | Some enabled, Some kinds =>
      guard (validText (piName i) 256 && validID (piConnectionID i) && validNotificationSeverity (piMinimumSeverity i) &&
             validText (piRationale i) 8192) errInvalid ;;;
      transaction (createNotificationPolicyTx workspace (SessUser session) i enabled kinds)
  | _, _ => throw errInvalid
  end.

(** The joins of [notificationPolicyFrom]: the revision in force and the connection. *)
Definition joinPolicy (db : DB) (p : string * PolicyRow) : option NotificationPolicy :=
  let t := np_terms p.2 in
  r ← findRow (λ _ r, (nr_workspace_id r ==? np_workspace_id p.2) && (nr_policy_id r ==? p.1) &&
                 (pt_revision (nr_terms r) =? pt_revision t)) (t_policyRevisions db);
  c ← connectionOf (np_workspace_id p.2) (pt_connection_id t) db;
  Some {| PolicyID := p.1; PolicyData := p.2; ApprovedByName := nr_actor_name r.2;
    PolicyConnection := (pt_connection_id t, c);
    ConnectionCurrent := (cn_profile c ==? pt_connection_profile t) && (cn_revision c =? pt_connection_revision t) |}.
Definition readNotificationPolicy (workspace id : string) : M DB NotificationPolicy :=
  query (λ _ db,
    match (p ← t_policies db !! id; if np_workspace_id p ==? workspace then joinPolicy db (id, p) else None) with
    | Some v => Ok v
    | None => Err ErrNoRows
    end).
Definition getNotificationPolicy (workspace id : string) : M DB NotificationPolicy := readNotificationPolicy workspace id.

Definition listNotificationPolicies (rawQuery workspace : string) : M DB (list NotificationPolicy * Z) :=
  guard (rawQuery ==? "") errInvalid ;;;
  transaction (
    total <- query (λ _ db, Ok (countRows (λ _ p, np_workspace_id p ==? workspace) (t_policies db))) ;;
    items <- query (λ _ db, Ok (omap (joinPolicy db) (rowsById (λ _ p, np_workspace_id p ==? workspace) (t_policies db)))) ;;
    ret (items, total)).

Record policyPatch := {
  ppName : optional string; ppConnectionID : optional string; ppEnabled : optional bool;
  ppChangeKinds : optional (list string); ppMinimumSeverity : optional string; ppRationale : string }.

Definition validPolicyPatch (p : policyPatch) : bool :=
  validText (ppRationale p) 8192 &&
  (IsSet (ppName p) || IsSet (ppConnectionID p) || IsSet (ppEnabled p) || IsSet (ppChangeKinds p) ||
   IsSet (ppMinimumSeverity p)) &&
  setAndValid (ppName p) (λ v, validText v 256) && setAndValid (ppConnectionID p) validID &&
  setAndValid (ppEnabled p) (λ _, true) && setAndValid (ppMinimumSeverity p) validNotificationSeverity &&
  setAndValid (ppChangeKinds p) (λ v, isSome (normalizeNotificationChangeKinds v)).
(** A set field replaces the old value. *)
Definition replaced {A} (o : optional A) (old : A) : A := default old (if IsSet o then Value o else None).

Definition updateNotificationPolicyTx (workspace : string) (user : User) (id : string) (p : policyPatch) : M DB NotificationPolicy :=
  epoch <- lockNotificationPolicyEpoch workspace ;;
  current <- readNotificationPolicy workspace id ;;
  let t := np_terms (PolicyData current) in
  let kinds := match (if IsSet (ppChangeKinds p) then Value (ppChangeKinds p) else None) with
               | Some v => default [] (normalizeNotificationChangeKinds v)
               | None => pt_change_kinds t
               end in
  selected <- (match (if IsSet (ppConnectionID p) then Value (ppConnectionID p) else None) with
               | Some c => conn <- notificationPolicyConnection workspace c ;;
                           ret (c, cn_profile conn, cn_revision conn, (c, conn), true)
               | None => ret (pt_connection_id t, pt_connection_profile t, pt_connection_revision t,
                              PolicyConnection current, ConnectionCurrent current)
               end) ;;
  let '(connection, profile, revision, joined, fresh) := selected in
  let name := replaced (ppName p) (pt_name t) in
  let enabled := replaced (ppEnabled p) (pt_enabled t) in
  let severity := replaced (ppMinimumSeverity p) (pt_minimum_severity t) in
  guard (negb ((name ==? pt_name t) && (connection ==? pt_connection_id t) && Bool.eqb enabled (pt_enabled t) &&
               (kinds ==? pt_change_kinds t) && (severity ==? pt_minimum_severity t))) errConflict ;;;
  at_ <- now ;;
  let next := {| pt_name := name; pt_connection_id := connection; pt_connection_profile := profile;
    pt_connection_revision := revision; pt_enabled := enabled; pt_change_kinds := kinds; pt_minimum_severity := severity;
    pt_revision := pt_revision t + 1; pt_epoch := epoch; pt_approved_by := UserID user; pt_rationale := ppRationale p;
    pt_updated_at := at_ |} in
  let row := {| np_workspace_id := workspace; np_terms := next; np_created_at := np_created_at (PolicyData current) |} in
  stmt (λ _ db,
    match t_policies db !! id with
    | Some old =>
        if np_workspace_id old ==? workspace then
          if termsCheck next && policyRefs workspace next db
          then Ok (tt, with_policies (<[id := row]> (t_policies db)) db) else Err ErrConstraint
        else Ok (tt, db)
    | None => Ok (tt, db)
    end) ;;;
  insertNotificationPolicyRevision workspace id next (UserName user) ;;;
  ret {| PolicyID := id; PolicyData := row; ApprovedByName := UserName user; PolicyConnection := joined;
         ConnectionCurrent := fresh |}.

Definition updateNotificationPolicy (workspace : string) (session : authenticatedSession) (id : string) (p : policyPatch)
    : M DB NotificationPolicy :=
  guard (validPolicyPatch p) errInvalid ;;;
  transaction (updateNotificationPolicyTx workspace (SessUser session) id p).

(** ** Outcomes of a policy *)

Definition notificationPolicyEventParameters (query : urlQuery) : Res (nat * string) :=
  if negb (onlyKeys ["limit"; "cursor"] query) then Err errInvalid
  else match (if isSome (q_values query !! "limit")
              then match ParseInt (queryGet query "limit") with
                   | Some n => if (n <? 1) || (100 <? n) then Err errInvalid else Ok n
                   | None => Err errInvalid
                   end
              else Ok 100) with
       | Err e => Err e
       | Ok limit =>
           if isSome (q_values query !! "cursor") && negb (validID (queryGet query "cursor")) then Err errInvalid
           else Ok (Z.to_nat limit, queryGet query "cursor")
       end.

Definition listNotificationPolicyEvents (query_ : urlQuery) (workspace policyID : string)
    : M DB (list (string * PolicyEventRow) * Z * option string) :=
  p <- fromRes (notificationPolicyEventParameters query_) ;;
  let P (e : PolicyEventRow) := (pe_workspace_id e ==? workspace) && (pe_policy_id e ==? policyID) in
  transaction (
    exists_ <- query (λ _ db, Ok match t_policies db !! policyID with
                               | Some q => np_workspace_id q ==? workspace | None => false end) ;;
    guard exists_ ErrNoRows ;;;
    total <- query (λ _ db, Ok (countRows (λ _ e, P e) (t_policyEvents db))) ;;
    items <- query (λ _ db, Ok (take (fst p + 1) (rowsAfter (λ _ e, P e) (t_policyEvents db) (snd p)))) ;;
    ret (fst (cutPage fst (fst p) items), total, snd (cutPage fst (fst p) items))).

(** ** The worker *)

Definition setChange (e : ChangeEventRow) (j : ChangeJob) : ChangeEventRow := {|
  ce_workspace_id := ce_workspace_id e; ce_finding_id := ce_finding_id e; ce_policy_epoch := ce_policy_epoch e;
  ce_title := ce_title e; ce_severity := ce_severity e; ce_asset_name := ce_asset_name e;
  ce_change_kind := ce_change_kind e; ce_change_revision := ce_change_revision e; ce_change_at := ce_change_at e;
  ce_job := j; ce_detail := ce_detail e |}.
Definition evaluable (t : Z) (e : ChangeEventRow) : bool :=
  let j := ce_job e in
  (ce_state j ==? CPending) ||
  (ce_state j ==? CProcessing) && match ce_lease_until j with Some u => u <=? t | None => false end.
Definition changeLe (a b : string * ChangeEventRow) : bool :=
  (ce_change_at a.2 <? ce_change_at b.2) || (ce_change_at a.2 =? ce_change_at b.2) && strLe a.1 b.1.
Definition nextChange (locked : string → bool) (t : Z) (m : gmap string ChangeEventRow) : option (string * ChangeEventRow) :=
  argmin changeLe (rowsWhere (λ id e, evaluable t e && negb (locked id)) m).

Section evaluation.
Context `{!Gateway} (nv : native) (w : workerConfig).

Definition claimFindingChangeEvent : M DB (option (string * ChangeEventRow)) :=
  locked <- skipLocked ;;
  infra (exec (λ t db,
    match nextChange locked t (t_changeEvents db) with
    | Some (id, e) =>
        let e' := setChange e {| ce_state := CProcessing; ce_worker_id := Some (wID w);
          ce_fence := ce_fence (ce_job e) + 1; ce_lease_until := Some (t + leaseMicros w) |} in
        (Some (id, e'), with_changeEvents (<[id := e']> (t_changeEvents db)) db)
    | None => (None, db)
    end)).

Definition notificationSeverityRank (value : string) : Z :=
  if value ==? "critical" then 5 else if value ==? "high" then 4 else if value ==? "medium" then 3
  else if value ==? "low" then 2 else if value ==? "info" then 1 else 0.
Definition notificationPolicyMatches (t : PolicyTerms) (e : ChangeEventRow) : bool :=
  pt_enabled t && bool_decide (ce_change_kind e ∈ pt_change_kinds t) &&
  (notificationSeverityRank (pt_minimum_severity t) <=? notificationSeverityRank (ce_severity e)).

(** The delivery a policy makes of an event, [None] when it cannot be sent. *)
Definition policyFindingDelivery (e : ChangeEventRow) (policy : string) (t : PolicyTerms) (conn : ConnectionRow)
    : option DeliveryIntent :=
  if (wPublicOrigin w ==? "") || negb (validText (ce_title e) 1024) || negb (validText (ce_asset_name e) 256) ||
     negb (validNotificationSeverity (ce_severity e)) || negb (bool_decide (ce_change_kind e ∈ notificationChangeKinds))
  then None else
  let link := deepLink (wPublicOrigin w) (ce_finding_id e) in
  let intent (fields : option (gmap string string)) (dest : option TeamsDestination) : DeliveryIntent := {|
    dl_workspace_id := ce_workspace_id e; dl_finding_id := ce_finding_id e; dl_connection_id := pt_connection_id t;
    dl_connection_revision := cn_revision conn; dl_profile := cn_profile conn; dl_channel := cn_channel conn;
    dl_requested_by := pt_approved_by t;
    dl_payload := {| PayloadTitle := ce_title e;
      PayloadBody := "Severity: " +:+ ce_severity e +:+ "
Asset: " +:+ ce_asset_name e +:+ "
Change: " +:+ ce_change_kind e;
      DeepLink := link; PayloadFields := fields |};
    dl_jira := cn_jira conn; dl_destination := dest; dl_webhook := cn_webhook conn;
    dl_trigger_kind := "notification-policy"; dl_policy_id := Some policy; dl_policy_revision := Some (pt_revision t);
    dl_finding_change_revision := Some (ce_change_revision e) |} in
  let plain := intent None None in
  if cn_profile conn ==? SlackWorkspaceBot then
    if negb (integrationChannel (cn_channel conn)) || isSome (cn_jira conn) || isSome (cn_teams conn) then None
    else Some plain
  else if cn_profile conn ==? JiraCloudV3 then
    if negb (validJiraTarget (cn_jira conn)) || (cn_channel conn !=? "") || (255 <? runeCount (ce_title e)) then None
    else Some (intent (Some (jiraFields (ce_finding_id e) (ce_title e) (ce_severity e) (ce_asset_name e) link
                 (default ∅ (t ← cn_jira conn; FieldMappings t)))) None)
  else if cn_profile conn ==? TeamsWorkflows then
    match cn_teams conn with
    | Some teams =>
        if isSome (cn_jira conn) || (cn_channel conn !=? "") || negb (validTeamsMetadata (Some teams)) then None
        else if teamsPayloadValid (dl_payload plain)
        then Some (intent None (Some {| DestinationName := cn_name conn; DestinationTeams := teams |})) else None
    | None => None
    end
  else if cn_profile conn ==? GenericWebhookV1 then
    if isSome (cn_jira conn) || isSome (cn_teams conn) || (cn_channel conn !=? "") ||
       negb (validWebhookTarget (cn_webhook conn)) ||
       negb match cn_webhook conn with Some t => webhookOriginAllowed (Origin t) (wWebhookOrigins w) | None => false end
    then None else Some plain
  else None.

Definition insertNotificationPolicyEvent (e : ChangeEventRow) (policy : string) (t : PolicyTerms) (outcome : string)
    (delivery : option string) : M DB unit :=
  id <- newID ;;
  at_ <- now ;;
  let row := {| pe_workspace_id := ce_workspace_id e; pe_policy_id := policy; pe_policy_revision := pt_revision t;
    pe_finding_id := ce_finding_id e; pe_finding_change_revision := ce_change_revision e; pe_outcome := outcome;
    pe_delivery_id := delivery; pe_created_at := at_; pe_detail := freshDetail |} in
  insertInto t_policyEvents with_policyEvents
    (λ db, if negb ((0 <? pt_revision t) && (0 <? ce_change_revision e) &&
                    match t_policies db !! policy with Some p => np_workspace_id p ==? ce_workspace_id e | None => false end &&
                    match t_findings db !! ce_finding_id e with
                    | Some f => f_workspace_id f ==? ce_workspace_id e | None => false end &&
                    match delivery with
                    | Some d => match t_deliveries db !! d with
                                | Some r => dl_workspace_id (dl_intent (dl_meta r)) ==? ce_workspace_id e | None => false end
                    | None => true
                    end) then Some ErrConstraint
           else if anyRow (λ _ x, (pe_workspace_id x ==? ce_workspace_id e) && (pe_policy_id x ==? policy) &&
                             (pe_finding_id x ==? ce_finding_id e) &&
                             (pe_finding_change_revision x =? ce_change_revision e)) (t_policyEvents db)
           then Some ErrUnique else None)
    id row.

(** [SELECT DISTINCT ON (policy_id) ... WHERE epoch<=$2 ORDER BY policy_id,epoch DESC]:
    the latest revision of each policy at an epoch, in the order of the policies. *)
Definition latestAt (workspace : string) (epoch : Z) (db : DB) (policy : string) : option PolicyTerms :=
  snd <$> argmin (λ a b : string * PolicyTerms, pt_epoch b.2 <=? pt_epoch a.2)
    ((λ r : string * PolicyRevisionRow, (r.1, nr_terms r.2)) <$>
     rowsById (λ _ r, (nr_workspace_id r ==? workspace) && (nr_policy_id r ==? policy) && (pt_epoch (nr_terms r) <=? epoch))
       (t_policyRevisions db)).
Definition revisionsAt (workspace : string) (epoch : Z) (db : DB) : list (string * PolicyTerms) :=
  omap (λ policy, pair policy <$> latestAt workspace epoch db policy)
    (merge_sort strOrder (elements (list_to_set (C := gset string)
      ((λ r : string * PolicyRevisionRow, nr_policy_id r.2) <$> rowsWhere (λ _ r, nr_workspace_id r ==? workspace) (t_policyRevisions db))))).

(** The connection can no longer be used as the policy's revision saw it. *)
Definition connectionStale (t : PolicyTerms) (conn : option ConnectionRow) : bool :=
  match conn with
  | None => true
  | Some c =>
      negb (cn_enabled c) || (cn_profile c !=? pt_connection_profile t) || (cn_revision c !=? pt_connection_revision t) ||
      (cn_profile c ==? GenericWebhookV1) &&
      (negb (validWebhookTarget (cn_webhook c)) ||
       negb match cn_webhook c with Some t => webhookOriginAllowed (Origin t) (wWebhookOrigins w) | None => false end)
  end.

Definition queuePolicyDelivery (e : ChangeEventRow) (policy : string) (t : PolicyTerms) (conn : ConnectionRow) : M DB unit :=
  match policyFindingDelivery e policy t conn with
  | None => infra (insertNotificationPolicyEvent e policy t "invalid-payload" None)
  | Some d =>
      id <- newID ;;
      at_ <- now ;;
      let key := policyKey policy (ce_finding_id e) (ce_change_revision e) in
      let m := {| dl_intent := d; dl_idempotency_key := key; dl_binding_digest := deliveryIntentBinding d key;
                  dl_approval_ref := policyRef (ce_workspace_id e) policy (pt_revision t); dl_created_at := at_ |} in
      record <- infra (insertFindingDelivery id m) ;;
      (if dl_profile d ==? JiraCloudV3 then infra (insertJiraFindingEffect id m) else ret tt) ;;;
      infra (insertNotificationPolicyEvent e policy t "queued" (Some (DlID record)))
  end.

Definition evaluateRevision (e : ChangeEventRow) (p : string * PolicyTerms) : M DB unit :=
  let '(policy, t) := p in
  if negb (notificationPolicyMatches t e) then ret tt
  else
    conn <- infra (query (λ _ db, Ok (connectionOf (ce_workspace_id e) (pt_connection_id t) db))) ;;
    if connectionStale t conn then infra (insertNotificationPolicyEvent e policy t "connection-stale" None)
    else match conn with
    | None => ret tt
    | Some c =>
        if cn_profile c ==? JiraCloudV3 then
          infra lockDeliveryKey ;;;
          effect <- infra (jiraFindingEffect (ce_workspace_id e) (pt_connection_id t) (ce_finding_id e)) ;;
          match effect with
          | Some existing => infra (insertNotificationPolicyEvent e policy t "duplicate-ticket" (Some existing))
          | None => queuePolicyDelivery e policy t c
          end
        else queuePolicyDelivery e policy t c
    end.

Definition changeHeld (workspace : string) (fence t : Z) (e : ChangeEventRow) : bool :=
  let j := ce_job e in
  (ce_workspace_id e ==? workspace) && (ce_state j ==? CProcessing) && (ce_worker_id j ==? Some (wID w)) &&
  (ce_fence j =? fence) && match ce_lease_until j with Some u => t <? u | None => false end.

Definition evaluateTx (id : string) (claimed : ChangeEventRow) : M DB unit :=
  let workspace := ce_workspace_id claimed in let fence := ce_fence (ce_job claimed) in
  found <- infra (query (λ t db, Ok (e ← t_changeEvents db !! id; if changeHeld workspace fence t e then Some e else None))) ;;
  match found with
  | None => throw (deliveryDenial "lease-lost")
  | Some e =>
      revisions <- infra (query (λ _ db, Ok (revisionsAt (ce_workspace_id e) (ce_policy_epoch e) db))) ;;
      foldM (λ _ p, evaluateRevision e p) revisions tt ;;;
      hit <- infra (exec (λ t db,
        match t_changeEvents db !! id with
        | Some x => if changeHeld workspace fence t x
                    then (true, with_changeEvents (<[id := setChange x {| ce_state := CEvaluated; ce_worker_id := None;
                                  ce_fence := ce_fence (ce_job x); ce_lease_until := None |}]> (t_changeEvents db)) db)
                    else (false, db)
        | None => (false, db)
        end)) ;;
      guard hit (deliveryDenial "lease-lost")
  end.

Definition evaluateFindingChangeEvent (id : string) (claimed : ChangeEventRow) : M DB unit :=
  handle (transaction (evaluateTx id claimed)) (λ r,
    match r with Ok _ => ret tt | Err ErrDatabase => infraErr | Err e => throw e end).

Definition processNextFindingChangeEvent : M DB bool :=
  claimed <- claimFindingChangeEvent ;;
  match claimed with
  | None => ret false
  | Some (id, e) => evaluateFindingChangeEvent id e ;;; ret true
  end.

(** One turn of the worker: a delivery if there is one, else a change event. *)
Definition ProcessNext : M Net bool :=
  claimed <- lift (claimDelivery nv w) ;;
  match claimed with
  | (None, true) => ret true
  | (None, false) => lift processNextFindingChangeEvent
  | (Some ds, _) => processDispatch nv w ds ;;; ret true
  end.
End evaluation.
