(* ===== verification/DeliveryExample.v ===== *)
(** * A concrete world for the properties of deliveries and notifications

    A gateway with a parser for plain https URLs and a transparent cipher, and
    a database with one finding and a Slack, a webhook and a Jira connection. *)
From S2P Require Import Prelude GoLib Encoding Tx ReportAdapter Schema Auth Intake Reconcile Paging Assets WorkViews Work Reports Connections Deliveries DeliveryWorker Notifications.
Local Open Scope Z_scope.

(** [https://host/path] without user, port, query or fragment. *)
Definition plainURL (s : string) : option URL :=
  if negb (HasPrefix s "https://") then None else
  let rest := drop 8 (bytes s) in
  let host := of_bytes (default [] (head (splitBytes slash rest))) in
  let path := of_bytes (drop (length (bytes host)) rest) in
  Some {| Scheme := "https"; Opaque := ""; HasUser := false; Host := host; Hostname := host; Port := "";
          URLPath := path; RawPath := ""; EscapedPath := path; RawQuery := ""; ForceQuery := false; Fragment := "" |}.

#[export] Instance exampleGateway : Gateway := {|
  urlParse := plainURL; urlParseQuery := λ _, Some ∅; toLower := λ s, s;
  aeadSeal := λ nonce plain aad, plain ++ replicate 16 7%N;
  aeadOpen := λ nonce text aad, Some (take (length text - 16) text) |}.
#[export] Instance exampleLaws : AEADLaws.
Proof.
  split; simpl; intros nonce plain aad.
  - rewrite length_app. simpl. by rewrite Nat.add_sub, take_app_length.
  - by rewrite length_app.
Qed.

Definition hexID (suffix : string) : string := "0000000000000000000000000000000" +:+ suffix.
Definition exampleNonce : list N := replicate 12 5%N.
Definition sealedFor (profile id token : string) : list N :=
  match sealConnectionToken true exampleNonce profile "ws" id token with Ok c => c | Err _ => [] end.

Definition exampleHook : WebhookTarget :=
  {| Origin := "https://hooks.example"; WebhookPath := "/in"; Signature := "hmac-sha256" |}.
Definition exampleJira : JiraTarget := {|
  CredentialType := "oauth2-bearer"; CloudID := "11111111-2222-3333-4444-555555555555";
  APIBase := "https://api.example/ex/jira/11111111-2222-3333-4444-555555555555"; SiteOrigin := "https://site.example";
  Project := "SEC"; IssueType := "10001"; FieldMappings := Some {["customfield_1" := "finding.severity"]} |}.
Definition exampleSecret : string := "0123456789abcdef0123456789abcdef".

Definition exampleConnection (id profile channel token : string) (jira : option JiraTarget) (hook : option WebhookTarget)
    : ConnectionRow := {|
  cn_workspace_id := "ws"; cn_profile := profile; cn_name := "Target"; cn_channel := channel;
  cn_ciphertext := sealedFor profile id token; cn_enabled := true; cn_revision := 1; cn_created_at := 0;
  cn_updated_at := 0; cn_jira := jira; cn_teams := None; cn_webhook := hook |}.

Definition slackID : string := hexID "a".
Definition hookID : string := hexID "b".
Definition jiraID : string := hexID "c".
Definition findingID : string := hexID "f".

Definition deliveryDB : DB :=
  with_connections {[ slackID := exampleConnection slackID SlackWorkspaceBot "C0123" "xoxb-token" None None;
                      hookID := exampleConnection hookID GenericWebhookV1 "" exampleSecret None (Some exampleHook);
                      jiraID := exampleConnection jiraID JiraCloudV3 "" "jira-token" (Some exampleJira) None ]}
  (with_workspaces {["ws" := {| w_name := "W"; w_created_at := 0; w_notification_policy_epoch := 0 |}]}
  (with_users {["u" := {| u_name := "Ada"; u_email := "ada@example"; u_password_hash := None; u_auth_method := "local";
                          u_created_at := 0 |}]}
  (with_memberships {[("ws", "u") := "admin"]}
  (with_sessions {["t" := {| s_user_id := "u"; s_created_at := 0; s_expires_at := 10 ^ 12; s_revoked_at := None |}]}
  (with_assets {["a" := {| a_workspace_id := "ws"; a_name := "api"; a_kind := "repo"; a_environment := "";
      a_criticality := "medium"; a_tags := []; a_owner_id := None; a_created_at := 0 |}]}
  (with_findings {[findingID := exampleFinding "a"]} emptyDB)))))).

Definition exampleConfig : connectionConfig :=
  {| PublicOrigin := "https://aspm.example"; WebhookOrigins := ["https://hooks.example"]; Keyed := true |}.
Definition deliverySession : authenticatedSession :=
  {| SessUser := {| UserID := "u"; UserName := "Ada"; UserEmail := "ada@example" |}; SessExpiresAt := 10 ^ 12;
     SessTokenHash := "t" |}.
Definition exampleWorker : workerConfig := {|
  wID := "worker-1"; wLease := 60 * 1000000000; wEndpoint := "https://slack.com"; wPublicOrigin := "https://aspm.example";
  wWebhookOrigins := ["https://hooks.example"]; wKeyed := true |}.
(** Adapters open and accept every request. *)
Definition exampleNative : native := {|
  nv_client := λ _, true; nv_open := λ _, true; nv_preview := λ _, None;
  nv_send := λ _, ({| ndState := "accepted"; ndRemoteID := "1"; ndRemoteURL := ""; ndMissingFields := [] |}, None);
  nv_cause := λ _, None |}.

Definition previewOf (connection : string) : option string :=
  match out_res (previewFindingDelivery exampleConfig "ws" deliverySession findingID connection calm 0%nat deliveryDB) with
  | Ok (_, digest) => Some digest
  | Err _ => None
  end.
Definition enqueueSlack (key : string) : enqueueInput :=
  {| eqConnectionID := slackID; eqIdempotencyKey := key; eqPreviewDigest := absentField; eqConfirm := absentField |}.
Definition enqueueHook (key : string) : enqueueInput :=
  {| eqConnectionID := hookID; eqIdempotencyKey := key; eqPreviewDigest := field (previewOf hookID);
     eqConfirm := field (Some true) |}.

(** The request and the worker's turn go through. *)
Definition queuedNet (i : enqueueInput) : Net :=
  mkNet (out_db (enqueueFindingDelivery exampleConfig "ws" deliverySession findingID i calm 0%nat deliveryDB)) [].
Example hook_delivered :
  let o := ProcessNext exampleNative exampleWorker calm 50%nat (queuedNet (enqueueHook "k")) in
  out_res o = Ok true ∧ length (net_sent (out_db o)) = 1%nat ∧
  (dl_state ∘ dl_job ∘ snd <$> map_to_list (t_deliveries (net_db (out_db o)))) = [DAccepted].
Proof. by vm_compute. Qed.
