(* ===== verification/ConnectionProps.v ===== *)
(** * Stored credentials

    What a connection stores opens again to the credential it was given, for
    its own profile, workspace and connection, as long as the cipher is an
    AEAD; and the associated data tells all three apart. *)
From S2P Require Import Prelude GoLib Encoding Tx ReportAdapter Schema Auth Paging Assets WorkViews Work Connections DeliveryWorker Notifications DeliveryExample.
Local Open Scope Z_scope.

Section credentials.
Context {GW : Gateway} {Laws : AEADLaws}.

Lemma token_length token : validIntegrationToken token = true → 1 ≤ Z.of_nat (length (bytes token)) ≤ 16384.
Proof.
  unfold validIntegrationToken. intros H. breflect_in H. destruct H as [[[Hn Hl] _] _]. unfold len in Hl.
  rewrite length_bytes. destruct token; [done|]. simpl in *. lia.
Qed.
(** Every credential a profile takes is an integration token. *)
Lemma connectionToken_valid profile token : validConnectionToken profile token = true → validIntegrationToken token = true.
Proof.
  unfold validConnectionToken, teamsWorkflowOrigin. intros H. case_if_in H; [|case_if_in H].
  - destruct (urlParse token) as [u|]; [|done]. case_if_in H; [done|].
    repeat match goal with E : _ ∧ _ |- _ => destruct E as [E _] end. done.
  - unfold validWebhookSecret in H. unfold validIntegrationToken. breflect_in H. destruct H as [[[H1 H2] H3] H4].
    breflect. split_and!; [|unfold len in *; lia|done..]. intros ->. simpl in H1. unfold len in H1. simpl in H1. lia.
  - by apply andb_true_iff in H as [? _].
Qed.

Lemma open_seal nonce aad token : length nonce = 12%nat → validIntegrationToken token = true →
  openCredential true aad (1%N :: nonce ++ aeadSeal nonce (bytes token) aad) = Ok token.
Proof.
  intros Hn Ht. pose proof (token_length token Ht) as Hl. unfold openCredential.
  assert (Z.of_nat (length (1%N :: nonce ++ aeadSeal nonce (bytes token) aad)) = 29 + Z.of_nat (length (bytes token))) as ->.
  { simpl. rewrite length_app, length_aeadSeal, Hn. lia. }
  rewrite (proj2 (Z.ltb_ge _ _)), (proj2 (Z.ltb_ge _ _)) by lia. cbn [negb orb].
  set (text := aeadSeal _ _ _). change (take 12 (drop 1 _)) with (take 12 (nonce ++ text)).
  change (drop 13 _) with (drop 12 (nonce ++ text)). rewrite <-Hn, take_app_length, drop_app_length. unfold text.
  by rewrite aeadOpen_seal, of_bytes_bytes, Ht.
Qed.

Lemma openToken_seal keyed nonce profile ws id token c : length nonce = 12%nat → validConnectionToken profile token = true →
  sealConnectionToken keyed nonce profile ws id token = Ok c → keyed = true ∧ openConnectionToken keyed profile ws id c = Ok token.
Proof.
  intros Hn Ht. unfold sealConnectionToken, openConnectionToken, sealCredential.
  destruct (connectionCredentialAAD profile ws id) as [aad|]; [|done]. destruct keyed; [|done]. intros [= <-]. split; [done|].
  rewrite open_seal by eauto using connectionToken_valid. by rewrite Ht.
Qed.

(** The credential of the new connection fits its profile. *)
Lemma connectionTarget_token cfg i channel credential teams webhook :
  connectionTarget cfg i = Ok (channel, credential, teams, webhook) → validConnectionToken (inProfile i) credential = true.
Proof.
  unfold connectionTarget. intros H. case_if_in H; [|case_if_in H; [|case_if_in H; [|case_if_in H; [|done]]]].
  - destruct (Value (inChannel i)); [|done]. case_if_in H; [done|]. destruct (Value (inToken i)); [|done].
    destruct (validConnectionToken _ _) eqn:Ev in H; [|done]. by injection H as _ <- _ _.
  - case_if_in H; [done|]. destruct (Value (inToken i)); [|done].
    destruct (validConnectionToken _ _) eqn:Ev in H; [|done]. by injection H as _ <- _ _.
  - case_if_in H; [done|]. destruct (Value (inWorkflowURL i)) as [url|]; [|done]. destruct (Value (inTeams i)); [|done].
    destruct (teamsWorkflowOrigin url) eqn:Eo; [|done]. injection H as _ <- _ _. unfold validConnectionToken.
    by rewrite bool_decide_true, Eo.
  - case_if_in H; [done|]. destruct (Value (inWebhookURL i)); [|done]. destruct (Value (inSecret i)); [|done].
    case_if_in H; [done|]. destruct (parseWebhookTarget _ _); [|done]. injection H as _ <- _ _. unfold validConnectionToken.
    rewrite bool_decide_false, bool_decide_true; [done..|]. by rewrite E2.
Qed.
(** ... and so does the one a patch sets. *)
Lemma patchCredential_token p profile credential : validPatch p = true → patchFits profile p = true →
  patchCredential p = Some credential → validConnectionToken profile credential = true.
Proof.
  unfold validPatch, patchFits, patchCredential. intros Hv Hf Hc. rewrite negb_true_iff, !orb_false_iff in Hf.
  rewrite !andb_true_iff in Hv. destruct Hv as [[[[_ Hu] _] _] Hs], Hf as [[[[[_ Ht] _] Hw] _] Htok].
  unfold setAndValid in *. case_if_in Hc; [|case_if_in Hc; [|case_if_in Hc; [|done]]].
  - rewrite Hc in Hs. rewrite orb_true_r, andb_true_r in Hw. breflect_in Hw. subst profile. exact Hs.
  - rewrite Hc in Hu. simpl in Ht. rewrite andb_true_r in Ht. breflect_in Ht. subst profile. exact Hu.
  - rewrite Hc in Htok. by apply negb_false_iff in Htok.
Qed.

(** ** Connections *)

(** The worker can open what the connection stores. *)
Definition opens (id : string) (r : ConnectionRow) : Prop :=
  ∃ token, openConnectionToken true (cn_profile r) (cn_workspace_id r) id (cn_ciphertext r) = Ok token.
Definition all_open (db : DB) : Prop := ∀ id r, t_connections db !! id = Some r → opens id r.
Definition keeps_open (db db' : DB) : Prop := all_open db → all_open db'.
#[export] Instance keeps_open_preorder : PreOrder keeps_open.
Proof. split; [by intros ? ?|]. intros a b c H1 H2 H. auto. Qed.

Lemma all_open_insert db id r : all_open db → opens id r → all_open (with_connections (<[id := r]> (t_connections db)) db).
Proof. intros Ha Ho i x. simpl. rewrite lookup_insert. destruct (decide (id = i)) as [<-|]; [by intros [= <-]|apply Ha]. Qed.

Lemma createConnectionTx_inv cfg nonce ws session i enabled channel credential teams webhook env n db c db' n' : length nonce = 12%nat →
  validConnectionToken (inProfile i) credential = true →
  createConnectionTx cfg nonce ws session i enabled (channel, credential, teams, webhook) env n db = mkOut (Ok c) db' n' →
    t_connections db !! ConnID c = None ∧ db' = with_connections (<[ConnID c := ConnRow c]> (t_connections db)) db ∧
    cn_profile (ConnRow c) = inProfile i ∧ cn_workspace_id (ConnRow c) = ws ∧
    openConnectionToken true (inProfile i) ws (ConnID c) (cn_ciphertext (ConnRow c)) = Ok credential.
Proof.
  intros Hn Ht H. unfold createConnectionTx in H.
  apply bind_inv in H as (? & ? & ? & [_ ->]%query_inv & H). apply bind_inv in H as (role & dbx & ? & Hr & H).
  assert (dbx = db) as ->. { unfold sessionRole in Hr. by run_inv. } clear Hr.
  apply bind_inv in H as (? & ? & ? & [_ ->]%guard_inv & H). apply bind_inv in H as (id & ? & ? & [_ ->]%newID_inv & H).
  apply bind_inv in H as (cipher & ? & ? & [Hs ->]%fromRes_inv & H). apply bind_inv in H as (at_ & ? & ? & [_ ->]%now_inv & H).
  cbv zeta in H. apply bind_inv in H as (? & ? & ? & (_ & Hf & ->)%insertInto_inv & [<- ->]%ret_inv).
  simpl. do 4 (split; [done|]). apply openToken_seal in Hs as [Hk Ho]; [|done|done]. by rewrite Hk in Ho.
Qed.

Lemma steps_fromRes_bind {A B} (R : DB → DB → Prop) `{!PreOrder R} (r : Res A) (k : A → M DB B) :
  (∀ a, r = Ok a → Steps R (k a)) → Steps R (bind (fromRes r) k).
Proof. destruct r as [a|]; intros H env n db; [by apply H|simpl; reflexivity]. Qed.

Lemma create_open cfg nonce ws session i : length nonce = 12%nat → Steps keeps_open (createIntegrationConnection cfg nonce ws session i).
Proof.
  intros Hn. unfold createIntegrationConnection. apply steps_bind; [apply _|steps|]. intros enabled.
  apply steps_fromRes_bind; [apply _|]. intros [[[channel credential] teams] webhook] Et%connectionTarget_token.
  apply steps_bind; [apply _|steps|]. intros _. apply steps_transaction_ok; [apply _|].
  intros env n db c db' n' (_ & -> & Hp & Hw & Ho)%createConnectionTx_inv Ha; [|done..].
  apply all_open_insert; [done|]. exists credential. by rewrite Hp, Hw.
Qed.

Lemma updateConnectionTx_inv cfg nonce ws session id p env n db c db' n' : length nonce = 12%nat → validPatch p = true →
  updateConnectionTx cfg nonce ws session id p env n db = mkOut (Ok c) db' n' → keeps_open db db'.
Proof.
  intros Hn Hv H. unfold updateConnectionTx in H. apply bind_inv in H as (role & dbx & ? & Hr & H).
  assert (dbx = db) as ->. { unfold sessionRole in Hr. by run_inv. } clear Hr.
  apply bind_inv in H as (? & ? & ? & [_ ->]%guard_inv & H). apply bind_inv in H as (r & ? & ? & [Hc ->]%query_inv & H).
  apply bind_inv in H as (? & ? & ? & [Hf ->]%guard_inv & H). repeat (destruct (patchedField _ _) in H).
  apply bind_inv in H as ([? ?] & ? & ? & [_ ->]%fromRes_inv & H). apply bind_inv in H as ([? ?] & ? & ? & [_ ->]%fromRes_inv & H).
  cbv zeta in H. apply bind_inv in H as ([cipher changed] & ? & ? & [Hp ->]%fromRes_inv & H).
  case_if_in H; [|by apply ret_inv in H as [_ ->]]. apply bind_inv in H as (at_ & ? & ? & [_ ->]%now_inv & H).
  apply bind_inv in H as (next & ? & ? & Hs%stmt_inv & [_ ->]%ret_inv).
  destruct (connectionOf ws id db) as [old|] eqn:Ec; [|done]. injection Hc as ->. case_if_in Hs; [|done]. injection Hs as _ <-.
  intros Ha. apply all_open_insert; [done|]. unfold connectionOf in Ec. destruct (t_connections db !! id) as [r0|] eqn:Er; [|done].
  case_if_in Ec; [|done]. injection Ec as ->. unfold opens. simpl. rewrite E1.
  destruct (Ha id r Er) as [token Ho]. rewrite E1 in Ho. unfold patchedCipher in Hp. destruct (patchCredential p) as [credential|] eqn:Ep.
  2: { injection Hp as <- _. eauto. }
  destruct (openConnectionToken _ _ _ _ _) as [prior|] eqn:Eo in Hp; [|done]. case_if_in Hp; [injection Hp as <- _; eauto|].
  destruct (sealConnectionToken _ _ _ _ _ _) as [cc|] eqn:Es in Hp; [|done]. injection Hp as <- _.
  apply openToken_seal in Es as [Hk Hop]; [|done|by eapply patchCredential_token]. rewrite Hk in Hop. eauto.
Qed.

Lemma update_open cfg nonce ws session id p : length nonce = 12%nat → Steps keeps_open (updateIntegrationConnection cfg nonce ws session id p).
Proof.
  intros Hn. apply steps_guarded; [apply _|]. intros Hv. apply steps_transaction_ok; [apply _|].
  intros env n db c db' n' H. by eapply updateConnectionTx_inv.
Qed.
End credentials.

(** ** The associated data *)

Lemma cut_unique (l1 l2 r1 r2 : list N) :
  0%N ∉ l1 → 0%N ∉ l2 → l1 ++ 0%N :: r1 = l2 ++ 0%N :: r2 → l1 = l2 ∧ r1 = r2.
Proof.
  revert l2. induction l1 as [|x l1 IH]; intros [|y l2] H1 H2 H; injection H.
  - by intros ->.
  - intros _ <-. set_solver.
  - intros _ ->. set_solver.
  - intros H' ->. apply IH in H' as [-> ->]; [done|set_solver..].
Qed.
Lemma credentialAAD_inj kind kind' ws ws' c c' : 0%N ∉ bytes ("aspm/" +:+ kind +:+ "/v1") → 0%N ∉ bytes ("aspm/" +:+ kind' +:+ "/v1") →
  containsNUL ws = false → containsNUL ws' = false →
  credentialAAD kind ws c = credentialAAD kind' ws' c' → kind = kind' ∧ ws = ws' ∧ c = c'.
Proof.
  intros Hk Hk' Hw Hw' H. apply cut_unique in H as [H1 H]; [|done..].
  assert (∀ s, containsNUL s = false → 0%N ∉ bytes s) as Hnul.
  { intros s Hs Hin. unfold containsNUL in Hs. assert (existsb (N.eqb 0) (bytes s) = true); [|congruence].
    apply existsb_Exists. by exists 0%N. }
  apply cut_unique in H as [H2 H3]; [|by apply Hnul..]. split_and!.
  - apply bytes_inj in H1. injection H1 as H1. apply (f_equal bytes) in H1. rewrite !bytes_app in H1.
    by apply bytes_inj, (app_inv_tail (bytes "/v1")).
  - by apply bytes_inj.
  - by apply bytes_inj.
Qed.
(** The kinds of credential differ, and hold no NUL. *)
Definition kindOf (profile : string) : option string :=
  if profile ==? SlackWorkspaceBot then Some "slack-credential" else if profile ==? JiraCloudV3 then Some "jira-credential"
  else if profile ==? TeamsWorkflows then Some "teams-workflow-credential"
  else if profile ==? GenericWebhookV1 then Some "generic-webhook-credential" else None.
Lemma connectionAAD_kind profile ws c aad : connectionCredentialAAD profile ws c = Ok aad →
  ∃ kind, kindOf profile = Some kind ∧ aad = credentialAAD kind ws c.
Proof. unfold connectionCredentialAAD, kindOf. repeat case_if; intros [= <-]; eauto. Qed.
Lemma kindOf_inj profile profile' kind : kindOf profile = Some kind → kindOf profile' = Some kind → profile = profile'.
Proof. unfold kindOf. repeat case_if; intros [= <-] [=]; congruence. Qed.
Lemma kindOf_plain profile kind : kindOf profile = Some kind → 0%N ∉ bytes ("aspm/" +:+ kind +:+ "/v1").
Proof. unfold kindOf. repeat case_if; intros [= <-] H; apply (bool_decide_eq_true_2 _) in H; vm_compute in H; discriminate H. Qed.

Lemma connectionAAD_inj profile profile' ws ws' c c' aad : containsNUL ws = false → containsNUL ws' = false →
  connectionCredentialAAD profile ws c = Ok aad → connectionCredentialAAD profile' ws' c' = Ok aad →
  profile = profile' ∧ ws = ws' ∧ c = c'.
Proof.
  intros Hw Hw' (k & Hk & ->)%connectionAAD_kind (k' & Hk' & Heq)%connectionAAD_kind.
  apply credentialAAD_inj in Heq as (<- & <- & <-); [|by eapply kindOf_plain|by eapply kindOf_plain|done..].
  split; [by eapply kindOf_inj|done].
Qed.

(** ** The theorem *)

(** C35: What a connection stores opens to what it was given. With a cipher
    that opens what it sealed, the credential of a connection that was created
    opens, for its own profile, workspace and identifier, to exactly the
    token, workflow URL or secret of the request; creating and updating
    connections keep every stored credential openable, whatever fails; and no
    two profiles, workspaces or connections share the data a credential is
    bound to. *)
Theorem stored_credentials_open {GW : Gateway} {Laws : AEADLaws} cfg nonce ws session :
  length nonce = 12%nat →
  (∀ i env n db c db' n', createIntegrationConnection cfg nonce ws session i env n db = mkOut (Ok c) db' n' →
    ∃ channel credential teams webhook, connectionTarget cfg i = Ok (channel, credential, teams, webhook) ∧
      t_connections db' !! ConnID c = Some (ConnRow c) ∧
      openConnectionToken true (inProfile i) ws (ConnID c) (cn_ciphertext (ConnRow c)) = Ok credential) ∧
  (∀ i env n db, all_open db → all_open (out_db (createIntegrationConnection cfg nonce ws session i env n db))) ∧
  (∀ id p env n db, all_open db → all_open (out_db (updateIntegrationConnection cfg nonce ws session id p env n db))) ∧
  (∀ profile profile' ws' c c' aad, containsNUL ws = false → containsNUL ws' = false →
    connectionCredentialAAD profile ws c = Ok aad → connectionCredentialAAD profile' ws' c' = Ok aad →
    profile = profile' ∧ ws = ws' ∧ c = c').
Proof.
  intros Hn. split_and!.
  - intros i env n db c db' n' H. unfold createIntegrationConnection in H.
    apply bind_inv in H as (enabled & ? & ? & [_ ->]%fromRes_inv & H).
    apply bind_inv in H as ([[[channel credential] teams] webhook] & ? & ? & [Ht ->]%fromRes_inv & H).
    apply bind_inv in H as (? & ? & ? & [_ ->]%guard_inv & H). apply transaction_inv in H as [? H].
    apply createConnectionTx_inv in H as (_ & -> & _ & _ & Ho); [|done|by eapply connectionTarget_token].
    exists channel, credential, teams, webhook. split; [done|]. split; [apply lookup_insert_eq|done].
  - intros i env n db. by apply create_open.
  - intros id p env n db. by apply update_open.
  - intros. by eapply connectionAAD_inj.
Qed.

Definition newHook : connectionInput := {|
  inProfile := GenericWebhookV1; inName := "Hook"; inChannel := absentField; inToken := absentField; inEnabled := Some true;
  inJira := absentField; inWorkflowURL := absentField; inTeams := absentField;
  inWebhookURL := field (Some "https://hooks.example/in"); inSecret := field (Some exampleSecret) |}.
Lemma stored_credentials_open_witness :
  ∃ c db' n', createIntegrationConnection exampleConfig exampleNonce "ws" deliverySession newHook calm 0%nat deliveryDB = mkOut (Ok c) db' n' ∧
    openConnectionToken true GenericWebhookV1 "ws" (ConnID c) (cn_ciphertext (ConnRow c)) = Ok exampleSecret.
Proof.
  destruct (createIntegrationConnection exampleConfig exampleNonce "ws" deliverySession newHook calm 0%nat deliveryDB) as [[c|e] db' n'] eqn:E.
  2: { vm_compute in E. discriminate E. }
  exists c, db', n'. split; [done|].
  destruct (proj1 (stored_credentials_open exampleConfig exampleNonce "ws" deliverySession eq_refl) newHook calm 0%nat deliveryDB c db' n' E)
    as (channel & credential & teams & webhook & Ht & _ & Ho).
  vm_compute in Ht. injection Ht as _ <- _ _. exact Ho.
Defined.
