(* ===== verification/DeliveryProps.v ===== *)
(** * Properties of deliveries

    Interleavings of requests, policy evaluations and any number of workers
    over finding_deliveries, with the list of requests that left: rows move
    along their lifecycle, nothing is sent twice, what is sent is what was
    bound, and the worker's program is one of the interleavings. *)
From S2P Require Import Prelude GoLib Encoding Tx ReportAdapter Schema Auth Intake Reconcile Paging Assets WorkViews Work Reports Connections Deliveries DeliveryWorker Notifications.
Local Open Scope Z_scope.

(** ** The life of a row *)

Definition terminal (s : dstate) : bool := negb ((s ==? DQueued) || (s ==? DDispatching)).
Definition succeeded (s : dstate) : bool := (s ==? DConfirmed) || (s ==? DAccepted).

(** What is recorded at the end: a failure unless it succeeded, a receipt only
    if it succeeded. *)
Definition outcome_ok (s : dstate) (receipt : option FindingDeliveryReceipt) (failure : option FindingDeliveryFailure) : Prop :=
  terminal s = true ∧ (succeeded s = true ↔ failure = None) ∧ (is_Some receipt → succeeded s = true).

Inductive dstep (r : DeliveryRow) : DeliveryRow → Prop :=
  | ds_dispatch w t : dl_state (dl_job r) = DQueued → dstep r (dispatched w t r)
  | ds_settle w s code t : terminal (dl_state (dl_job r)) = false → terminal s = true → succeeded s = false →
      dstep r (settled w s code t r)
  | ds_attempt t : dl_state (dl_job r) = DDispatching → dl_create_attempted_at (dl_job r) = None → dstep r (attempted t r)
  | ds_finish s receipt failure t : dl_state (dl_job r) = DDispatching → outcome_ok s receipt failure →
      dstep r (finished s receipt failure t r).

(** Each state has its columns, and a delivery is dispatched at most once: the
    fence counts the dispatch and at most one settlement. *)
Definition delivery_ok (r : DeliveryRow) : Prop :=
  let j := dl_job r in
  match dl_state j with
  | DQueued => j = queuedDelivery
  | DDispatching => is_Some (dl_worker_id j) ∧ dl_fence j = 1 ∧ is_Some (dl_lease_until j) ∧
      is_Some (dl_dispatch_started_at j) ∧ dl_completed_at j = None ∧ dl_receipt j = None ∧ dl_failure j = None
  | s => is_Some (dl_completed_at j) ∧ 1 ≤ dl_fence j ≤ 2 ∧ dl_lease_until j = None ∧
      (succeeded s = true → is_Some (dl_dispatch_started_at j)) ∧
      (succeeded s = true ↔ dl_failure j = None) ∧ (is_Some (dl_receipt j) → succeeded s = true)
  end ∧
  (is_Some (dl_create_attempted_at j) → is_Some (dl_dispatch_started_at j)).

Lemma delivery_ok_terminal r : terminal (dl_state (dl_job r)) = true →
  delivery_ok r ↔ let j := dl_job r in
    (is_Some (dl_completed_at j) ∧ 1 ≤ dl_fence j ≤ 2 ∧ dl_lease_until j = None ∧
     (succeeded (dl_state j) = true → is_Some (dl_dispatch_started_at j)) ∧
     (succeeded (dl_state j) = true ↔ dl_failure j = None) ∧ (is_Some (dl_receipt j) → succeeded (dl_state j) = true)) ∧
    (is_Some (dl_create_attempted_at j) → is_Some (dl_dispatch_started_at j)).
Proof. unfold delivery_ok. by destruct (dl_state (dl_job r)). Qed.

Lemma waiting_fence r : delivery_ok r → terminal (dl_state (dl_job r)) = false →
  0 ≤ dl_fence (dl_job r) ≤ 1 ∧ dl_receipt (dl_job r) = None ∧ dl_failure (dl_job r) = None ∧
  (is_Some (dl_create_attempted_at (dl_job r)) → is_Some (dl_dispatch_started_at (dl_job r))).
Proof.
  unfold delivery_ok. destruct (dl_state (dl_job r)) eqn:E; try done; intros [H Ha] _.
  - rewrite H in *. simpl in *. by split_and!.
  - destruct H as (? & -> & ? & ? & ? & ? & ?). by split_and!.
Qed.

Lemma dstep_ok r r' : dstep r r' → delivery_ok r → delivery_ok r'.
Proof.
  intros H Hok. destruct H as [w t Hs|w s code t Ht Hs Hf|t Hs Ha|s receipt failure t Hs (Ht & Hfa & Hre)].
  - unfold delivery_ok in *. rewrite Hs in Hok. destruct Hok as [Hq _]. simpl. rewrite Hq. simpl. split_and!; eauto.
  - apply waiting_fence in Hok as (? & ? & ? & Ha); [|done]. apply delivery_ok_terminal; [done|]. simpl. rewrite Hf.
    split_and!; done || lia.
  - unfold delivery_ok in *. rewrite Hs in Hok. destruct Hok as [(? & ? & ? & ? & ? & ? & ?) _]. simpl. rewrite Hs.
    split_and!; eauto.
  - apply delivery_ok_terminal; [done|]. unfold delivery_ok in Hok. rewrite Hs in Hok.
    destruct Hok as [(? & Hfe & ? & ? & _) Ha]. simpl. rewrite Hfe. split_and!; done || lia.
Qed.

Lemma dstep_meta r r' : dstep r r' → dl_meta r' = dl_meta r.
Proof. by destruct 1. Qed.
Lemma dsteps_meta r r' : rtc dstep r r' → dl_meta r' = dl_meta r.
Proof. induction 1 as [|? ? ? H%dstep_meta]; congruence. Qed.

(** A row that left the queue is never queued again, one that ended stays. *)
Lemma dsteps_not_queued r r' : rtc dstep r r' → dl_state (dl_job r) ≠ DQueued → dl_state (dl_job r') ≠ DQueued.
Proof.
  induction 1 as [|x y z H]; [done|]. intros Hx. apply IHrtc. clear IHrtc H0.
  destruct H as [| ? s ? ? ? Ht| |s ? ? ? ? [Ht _]]; simpl; [done| |done|]; by destruct s.
Qed.
Lemma dsteps_terminal r r' : rtc dstep r r' → terminal (dl_state (dl_job r)) = true → r' = r.
Proof.
  inversion 1 as [|? y ? H1]; [done|]. intros Ht.
  destruct H1 as [? ? Hs|? ? ? ? Hn|? Hs|? ? ? ? Hs]; [by rewrite Hs in Ht|congruence|by rewrite Hs in Ht..].
Qed.

(** ** The table *)

Definition deliveries_evolve (m m' : gmap string DeliveryRow) : Prop :=
  (∀ i r, m !! i = Some r → ∃ r', m' !! i = Some r' ∧ rtc dstep r r') ∧
  (∀ i r', m !! i = None → m' !! i = Some r' → ∃ r, dl_job r = queuedDelivery ∧ rtc dstep r r').
#[export] Instance deliveries_evolve_preorder : PreOrder deliveries_evolve.
Proof.
  split.
  - intros m. split; [intros i r Hr; exists r; split; [done|apply rtc_refl]|congruence].
  - intros m1 m2 m3 [H12 N12] [H23 N23]. split.
    + intros i r Hr. destruct (H12 i r Hr) as (r2 & Hr2 & ?). destruct (H23 i r2 Hr2) as (r3 & ? & ?).
      exists r3. split; [done|]. by etransitivity.
    + intros i r3 Hn Hr3. destruct (m2 !! i) as [r2|] eqn:E.
      * destruct (N12 i r2 Hn E) as (r0 & ? & ?). destruct (H23 i r2 E) as (r3' & ? & ?). simplify_eq.
        exists r0. split; [done|]. by etransitivity.
      * eauto.
Qed.

Lemma evolve_update m i r r' : m !! i = Some r → dstep r r' → deliveries_evolve m (<[i := r']> m).
Proof.
  intros Hr Hs. split; intros k x.
  - intros Hx. rewrite lookup_insert. destruct (decide (i = k)) as [->|]; [|exists x; split; [done|apply rtc_refl]].
    simplify_eq. exists r'. split; [done|]. by apply rtc_once.
  - intros Hn. rewrite lookup_insert. destruct (decide (i = k)) as [->|]; congruence.
Qed.
Lemma evolve_insert m i (x : DeliveryMeta) :
  m !! i = None → deliveries_evolve m (<[i := {| dl_meta := x; dl_job := queuedDelivery |}]> m).
Proof.
  intros Hn. split; intros k r.
  - intros Hk. rewrite lookup_insert_ne by congruence. exists r. split; [done|apply rtc_refl].
  - intros Hk. rewrite lookup_insert. destruct (decide (i = k)) as [->|]; [|congruence].
    intros [= <-]. eexists. split; [|apply rtc_refl]. done.
Qed.

(** The operations on the database: deliveries only evolve. *)
Definition evolves (db db' : DB) : Prop := deliveries_evolve (t_deliveries db) (t_deliveries db').
#[export] Instance evolves_preorder : PreOrder evolves.
Proof. split; unfold evolves; [intros ?; reflexivity|intros ? ? ? H1 H2; by etransitivity]. Qed.

Lemma updateDelivery_evolves ws i P f db :
  (∀ r, P r = true → t_deliveries db !! i = Some r → dstep r (f r)) → evolves db (snd (updateDelivery ws i P f db)).
Proof.
  intros Hf. unfold updateDelivery. destruct (t_deliveries db !! i) as [r|] eqn:Hr; [|reflexivity].
  destruct (_ && _) eqn:E; [|reflexivity]. apply andb_true_iff in E as [_ E]. simpl. by apply (evolve_update _ _ r); auto.
Qed.

(** ** Requests *)

Lemma insertDelivery_evolves id m : Steps evolves (insertFindingDelivery id m).
Proof.
  unfold insertFindingDelivery. steps. apply steps_insertInto; [apply _|]. intros db _ Hn. by apply evolve_insert.
Qed.
Lemma insertEffect_evolves id m : Steps evolves (insertJiraFindingEffect id m).
Proof. apply steps_insertInto; [apply _|]. intros db _ _. unfold evolves. reflexivity. Qed.

Lemma sessionRole_evolves session ws : Steps evolves (sessionRole session ws).
Proof. unfold sessionRole. steps. Qed.
Lemma selected_evolves `{!Gateway} cfg ws session f c : Steps evolves (selectedFindingDelivery cfg ws session f c).
Proof. unfold selectedFindingDelivery, lockWorkspace, readConnection. steps; apply sessionRole_evolves. Qed.

#[local] Hint Resolve insertDelivery_evolves insertEffect_evolves selected_evolves sessionRole_evolves : steps.

Lemma enqueue_evolves `{!Gateway} cfg ws session f i : Steps evolves (enqueueFindingDelivery cfg ws session f i).
Proof. unfold enqueueFindingDelivery, enqueueTx, lockDeliveryKey, jiraFindingEffect. steps. Qed.

(** ** Policy evaluation *)

Lemma infra_steps {S A} (R : S → S → Prop) `{!PreOrder R} (m : M S A) : Steps R m → Steps R (infra m).
Proof. intros Hm. unfold infra, infraErr. apply steps_handle; [apply _|done|]. steps. Qed.

Lemma insertPolicyEvent_evolves e p t o d : Steps evolves (insertNotificationPolicyEvent e p t o d).
Proof.
  unfold insertNotificationPolicyEvent. steps. apply steps_insertInto; [apply _|]. intros db _ _. unfold evolves. reflexivity.
Qed.
#[local] Hint Resolve insertPolicyEvent_evolves infra_steps : steps.

Lemma evaluateRevision_evolves `{!Gateway} w e p : Steps evolves (evaluateRevision w e p).
Proof.
  unfold evaluateRevision, queuePolicyDelivery, jiraFindingEffect, lockDeliveryKey. steps.
Qed.
#[local] Hint Resolve evaluateRevision_evolves : steps.
Lemma evaluate_evolves `{!Gateway} w id e : Steps evolves (evaluateFindingChangeEvent w id e).
Proof.
  unfold evaluateFindingChangeEvent, evaluateTx, infraErr. steps.
  apply steps_exec; [apply _|]. intros t db.
  destruct (t_changeEvents db !! id); [|reflexivity]. case_if; unfold evolves; reflexivity.
Qed.

(** ** The worker *)

Lemma deliverable_waiting t r : deliverable t r = true → terminal (dl_state (dl_job r)) = false.
Proof. unfold deliverable. intros H. breflect_in H. unfold terminal. destruct H as [->|[-> _]]; done. Qed.
Lemma nextDelivery_lookup locked t m i r :
  nextDelivery locked t m = Some (i, r) → m !! i = Some r ∧ deliverable t r = true.
Proof.
  unfold nextDelivery. intros H%argmin_elem%elem_of_rowsWhere. destruct H as [? H]. split; [done|].
  by apply andb_true_iff in H as [? _].
Qed.
Lemma expiredOutcome_terminal r : let '(s, _) := expiredOutcome r in terminal s = true ∧ succeeded s = false.
Proof. unfold expiredOutcome. by case_if. Qed.

Lemma settleClaim_inv w rec s code env n db x db' n' :
  settleClaim w rec s code env n db = mkOut (Ok x) db' n' →
  ∃ t, db' = snd (updateDelivery (dl_workspace_id (recIntent rec)) (DlID rec) (λ _, true) (settled (wID w) s code t) db).
Proof. intros H%exec_inv. injection H as _ <-. eauto. Qed.
Lemma infra_inv {S A} (m : M S A) env n s a s' n' :
  infra m env n s = mkOut (Ok a) s' n' → m env n s = mkOut (Ok a) s' n'.
Proof.
  unfold infra, handle. destruct (m env n s) as [[b|e] s1 n1]; [done|]. unfold infraErr, bind, ctxErr, throw. done.
Qed.

(** A loop whose successful turns are steps is a step. *)
Lemma foldM_steps {S A} (R : S → S → Prop) `{!PreOrder R} (f : unit → A → M S unit) (l : list A) env n s b x s' n' :
  (∀ a env n s b x s' n', a ∈ l → f b a env n s = mkOut (Ok x) s' n' → R s s') →
  foldM f l b env n s = mkOut (Ok x) s' n' → R s s'.
Proof.
  revert n s b. induction l as [|a l IH]; intros n s b Hf H; [by apply ret_inv in H as [_ ->]|].
  simpl in H. apply bind_inv in H as (b1 & s1 & n1 & H1 & H). etransitivity.
  - eapply Hf; [|exact H1]. by left.
  - eapply IH; [|exact H]. intros. eapply Hf; [by right|done].
Qed.

Section claims.
Context {GW : Gateway} (nv : native) (w : workerConfig).

Lemma admit_db rec env n db x db' n' : admitDelivery nv w rec env n db = mkOut (Ok x) db' n' → db' = db.
Proof.
  unfold admitDelivery. intros (role & ? & ? & [_ ->]%infra_inv%query_inv & H)%bind_inv.
  case_if_in H; [by apply ret_inv in H as [_ ->]|].
  apply bind_inv in H as (conn & ? & ? & [_ ->]%infra_inv%query_inv & H). destruct conn as [c|]; [|by apply ret_inv in H as [_ ->]].
  case_if_in H; [by apply ret_inv in H as [_ ->]|]. destruct (openConnectionToken _ _ _ _ _); [|by apply ret_inv in H as [_ ->]].
  apply bind_inv in H as (? & ? & ? & [_ ->]%ctxErr_inv & H). apply bind_inv in H as (? & ? & ? & [_ ->]%guard_inv & H).
  by apply ret_inv in H as [_ ->].
Qed.

(** What a successful claim did: it ended a delivery, or dispatched one that
    was queued, with the committed row as the dispatch's record. *)
Lemma claimTx_inv env n db x db' n' :
  claimTx nv w env n db = mkOut (Ok x) db' n' →
  ∃ i r, t_deliveries db !! i = Some r ∧ terminal (dl_state (dl_job r)) = false ∧
  match x with
  | None => ∃ s code t, terminal s = true ∧ succeeded s = false ∧
      db' = with_deliveries (<[i := settled (wID w) s code t r]> (t_deliveries db)) db
  | Some ds => ∃ t, dl_state (dl_job r) = DQueued ∧ dsRecord ds = {| DlID := i; DlRow := dispatched w t r |} ∧
      db' = with_deliveries (<[i := dispatched w t r]> (t_deliveries db)) db
  end.
Proof.
  unfold claimTx. intros (locked & ? & ? & [_ ->]%skipLocked_inv & H)%bind_inv.
  apply bind_inv in H as (found & ? & ? & [Hn ->]%infra_inv%query_inv & H). injection Hn as Hn.
  destruct found as [[i r]|]; [|done]. apply nextDelivery_lookup in Hn as [Hr Hd%deliverable_waiting].
  exists i, r. split; [done|]. split; [done|].
  assert (∀ s code n1 (x1 : unit) db1 n2,
    settleClaim w {| DlID := i; DlRow := r |} s code env n1 db = mkOut (Ok x1) db1 n2 →
    ∃ t, db1 = with_deliveries (<[i := settled (wID w) s code t r]> (t_deliveries db)) db) as Hsettle.
  { intros * [t ->]%settleClaim_inv. exists t. unfold updateDelivery. simpl. rewrite Hr, bool_decide_true; done. }
  case_if_in H.
  - pose proof (expiredOutcome_terminal r) as Ho. destruct (expiredOutcome r) as [s code]. destruct Ho.
    apply bind_inv in H as (? & ? & ? & [t ->]%infra_inv%Hsettle & [<- ->]%ret_inv). by exists s, code, t.
  - apply bind_inv in H as ([[reason token] cred] & ? & ? & ->%admit_db & H). case_if_in H.
    + apply bind_inv in H as (? & ? & ? & [t ->]%infra_inv%Hsettle & [<- ->]%ret_inv). by exists DBlocked, reason, t.
    + apply bind_inv in H as (started & ? & n3 & Hs%infra_inv%stmt_inv & [<- ->]%ret_inv).
      unfold updateDelivery in Hs. simpl in Hs. rewrite Hr, bool_decide_true in Hs by done. simpl in Hs.
      injection Hs as <- <-. eexists. split; [|done]. unfold terminal in Hd. by destruct (dl_state (dl_job r)).
Qed.

Lemma claimTx_evolves env n db x db' n' : claimTx nv w env n db = mkOut (Ok x) db' n' → evolves db db'.
Proof.
  intros (i & r & Hr & Hw & H)%claimTx_inv. destruct x.
  - destruct H as (t & Hq & _ & ->). apply (evolve_update _ _ r); [done|]. by constructor.
  - destruct H as (s & code & t & ? & ? & ->). apply (evolve_update _ _ r); [done|]. by constructor.
Qed.
Lemma claimDelivery_evolves : Steps evolves (claimDelivery nv w).
Proof.
  unfold claimDelivery. apply steps_handle; [apply _| |].
  - apply steps_transaction_ok; [apply _|]. intros * H. by eapply claimTx_evolves.
  - unfold infraErr. steps.
Qed.

Lemma heldBy_dispatching fence t r : heldBy w fence t r = true → dl_state (dl_job r) = DDispatching.
Proof. unfold heldBy. intros H. breflect_in H. tauto. Qed.

Lemma finishRow_evolves ds s receipt failure : outcome_ok s receipt failure → Steps evolves (finishRow w ds s receipt failure).
Proof.
  intros Ho. unfold finishRow. apply steps_exec; [apply _|]. intros t db.
  pose proof (updateDelivery_evolves (dl_workspace_id (dsIntent ds)) (DlID (dsRecord ds)) (heldBy w (dsFence ds) t)
    (finished s receipt failure t) db) as H.
  destruct (updateDelivery _ _ _ _ _). apply H. intros r Hh _. constructor; [by eapply heldBy_dispatching|done].
Qed.
Lemma finishDelivery_evolves ds s receipt failure :
  outcome_ok s receipt failure → Steps evolves (finishDelivery w ds s receipt failure).
Proof. intros Ho. unfold finishDelivery. apply steps_handle; [apply _|by apply finishRow_evolves|]. steps. Qed.

Lemma authority_evolves ds : Steps evolves (deliveryDispatchAuthority w ds).
Proof. unfold deliveryDispatchAuthority. steps. Qed.

Lemma interrupted_ok profile c a s f :
  guardedDeliveryInterruptedOutcome profile c a = (s, f) → outcome_ok s None (Some f).
Proof.
  unfold guardedDeliveryInterruptedOutcome, jiraInterruptedOutcome. destruct a; intros [= <- <-];
    (split_and!; [done|done|by intros [? ?]]).
Qed.

Lemma guardedOutcome_ok profile current denied s receipt failure s' receipt' failure' :
  guardedOutcome profile current denied (s, receipt, failure) = Some (s', receipt', failure') →
  outcome_ok s receipt failure → outcome_ok s' receipt' failure'.
Proof.
  unfold guardedOutcome. destruct denied as [e|]; [|by intros [= <- <- <-]]. destruct e; try done. case_if; [done|].
  destruct (guardedDeliveryInterruptedOutcome _ _ _) eqn:Eo. intros [= <- <- <-] _. by eapply interrupted_ok.
Qed.

Lemma finishGuarded_evolves ds s receipt failure :
  outcome_ok s receipt failure → Steps evolves (finishGuardedDelivery w ds s receipt failure).
Proof.
  intros Ho. unfold finishGuardedDelivery, finishGuardedTx, lockWorkspace, infraErr.
  apply steps_handle; [apply _| |steps]. apply steps_transaction; [apply _|].
  apply steps_bind; [apply _|steps|]. intros _. apply steps_bind; [apply _|apply authority_evolves|].
  intros [current denied]. destruct (guardedOutcome _ _ _ _) as [[[s' receipt'] failure']|] eqn:E; [|steps].
  apply steps_handle; [apply _| |steps]. apply finishRow_evolves. by eapply guardedOutcome_ok.
Qed.
Lemma steps_transactionVal {A} (R : DB → DB → Prop) `{!PreOrder R} (m : M DB (A * option error)) :
  (∀ env n db a db' n', m env n db = mkOut (Ok (a, None)) db' n' → R db db') → Steps R (transactionVal m).
Proof.
  intros Hm env n db. unfold transactionVal. destruct (m env n db) as [[[a [e|]]|e] db' n'] eqn:E; simpl; try reflexivity.
  apply Hm in E. destruct (env_commit env n'); simpl; done || reflexivity.
Qed.

(** What a marked attempt rests on. *)
Lemma authority_inv ds env n db cur db' n' :
  deliveryDispatchAuthority w ds env n db = mkOut (Ok (Some cur, None)) db' n' →
  db' = db ∧ DlID cur = DlID (dsRecord ds) ∧ t_deliveries db !! DlID cur = Some (DlRow cur) ∧
  (∃ t, heldBy w (dsFence ds) t (DlRow cur) = true) ∧
  validDeliveryBinding (DlID cur) (dl_meta (DlRow cur)) = true ∧
  dl_binding_digest (dl_meta (DlRow cur)) = dl_binding_digest (dl_meta (DlRow (dsRecord ds))) ∧
  (∃ role, t_memberships db !! (dl_workspace_id (dsIntent ds), dl_requested_by (dsIntent ds)) = Some role ∧
    (role = "admin" ∨ role = "analyst")) ∧
  (∃ c, connectionOf (dl_workspace_id (dsIntent ds)) (dl_connection_id (dsIntent ds)) db = Some c ∧
    cn_enabled c = true ∧ cn_revision c = dl_connection_revision (dsIntent ds) ∧ cn_profile c = dl_profile (dsIntent ds) ∧
    cn_channel c = dl_channel (dsIntent ds) ∧ cn_ciphertext c = dsCredential ds ∧ targetCurrent w (dsIntent ds) c = true).
Proof.
  unfold deliveryDispatchAuthority. intros (found & db1 & ? & Hq & H)%handle_inv. destruct found as [[r|]|e]; [|done..].
  apply query_inv in Hq as [Hf ->]. injection Hf as Hf.
  destruct (t_deliveries db !! DlID (dsRecord ds)) as [r0|] eqn:Hr; [|done]. destruct (_ && _) eqn:Eh in Hf; [|done].
  injection Hf as ->. apply andb_true_iff in Eh as [_ Eh]. case_if_in H; [done|].
  apply handle_inv in H as (role & ? & ? & Hrole & H). destruct role as [[role|]|e]; [|done..].
  apply query_inv in Hrole as [[= Hrole] ->]. case_if_in H; [done|].
  apply handle_inv in H as (conn & ? & ? & Hc & H). destruct conn as [[c|]|e]; [|done..].
  apply query_inv in Hc as [[= Hc] ->]. repeat (case_if_in H; [done|]). apply ret_inv in H as [[= <-] ->]. simpl.
  destruct E as [? ?], E2 as [[[[? ?] ?] ?] ?]. split_and!; eauto 10.
Qed.

Lemma authority_some ds env n db db' n' :
  deliveryDispatchAuthority w ds env n db ≠ mkOut (Ok (None, None)) db' n'.
Proof.
  unfold deliveryDispatchAuthority. intros (found & ? & ? & _ & H)%handle_inv. destruct found as [[r|]|]; [|done..].
  case_if_in H; [done|]. apply handle_inv in H as (role & ? & ? & _ & H). destruct role as [[role|]|]; [|done..].
  case_if_in H; [done|]. apply handle_inv in H as (conn & ? & ? & _ & H). destruct conn as [[c|]|]; [|done..].
  by repeat (case_if_in H; [done|]).
Qed.

Lemma markTx_inv ds env n db cur db' n' :
  markTx w ds env n db = mkOut (Ok (cur, None)) db' n' →
  ∃ r t, t_deliveries db !! DlID (dsRecord ds) = Some r ∧ heldBy w (dsFence ds) t r = true ∧
    dl_create_attempted_at (dl_job r) = None ∧
    db' = with_deliveries (<[DlID (dsRecord ds) := attempted t r]> (t_deliveries db)) db ∧
    ∃ n1 n2, deliveryDispatchAuthority w ds env n1 db = mkOut (Ok (Some {| DlID := DlID (dsRecord ds); DlRow := r |}, None)) db n2.
Proof.
  unfold markTx. intros (locked & db2 & ? & Hl & H)%handle_inv. destruct locked; [|done].
  apply query_inv in Hl as [_ ->]. apply bind_inv in H as ([cur0 [e|]] & db3 & ? & Ha & H); [done|].
  case_if_in H; [done|]. apply handle_inv in H as (marked & db4 & ? & Hm & H). destruct marked as [[r'|]|]; [|done..].
  apply ret_inv in H as [[= <-] ->]. apply exec_inv in Hm. destruct cur0 as [c|]; [|by apply authority_some in Ha].
  pose proof Ha as Ha'. apply authority_inv in Ha' as (-> & Hid & Hrow & _). rewrite Hid in Hrow.
  unfold updateDelivery in Hm. rewrite Hrow in Hm. destruct (_ && _) eqn:Ep in Hm; [|done].
  apply andb_true_iff in Ep as [_ Ep]. apply andb_true_iff in Ep as [Eh En]. injection Hm as _ <-.
  exists (DlRow c). eexists. split; [done|]. split; [done|]. split; [by destruct (dl_create_attempted_at _)|].
  split; [done|]. destruct c as [cid crow]. simpl in *. subst cid. eauto.
Qed.

Lemma mark_evolves ds : Steps evolves (markDeliveryAttempt w ds).
Proof.
  apply steps_transactionVal; [apply _|]. intros env n db cur db' n' H.
  apply markTx_inv in H as (r & t & Hr & Hh & Ha & -> & _). apply (evolve_update _ _ r); [done|].
  constructor; [by eapply heldBy_dispatching|done].
Qed.

Lemma mark_inv ds env n db cur db' n' :
  markDeliveryAttempt w ds env n db = mkOut (Ok (cur, None)) db' n' → ∃ n1, markTx w ds env n db = mkOut (Ok (cur, None)) db' n1.
Proof.
  unfold markDeliveryAttempt, transactionVal. destruct (markTx w ds env n db) as [[[a [e|]]|e] db1 n1]; [done| |done].
  destruct (env_commit env n1); [|done..]. intros [= -> -> _]. eauto.
Qed.
End claims.

(** ** The system

    The network, and what workers hold: dispatches they committed and have
    not sent, and attempts they marked and have not sent. *)
Record dsys := { sysNet : Net; sysClaimed : list deliveryDispatch; sysMarked : list deliveryDispatch }.

Definition sysDB (s : dsys) : DB := net_db (sysNet s).
Definition withDB (db : DB) (s : dsys) : dsys :=
  {| sysNet := mkNet db (net_sent (sysNet s)); sysClaimed := sysClaimed s; sysMarked := sysMarked s |}.
Definition gainedDispatch (r : Res (option deliveryDispatch * bool)) (held : list deliveryDispatch) : list deliveryDispatch :=
  match r with Ok (Some ds, _) => ds :: held | _ => held end.
Definition marks (r : Res (option deliveryRecord * option error)) : bool :=
  match r with Ok (_, None) => true | _ => false end.
Definition guardedDispatch (ds : deliveryDispatch) : bool := guarded (dl_profile (dsIntent ds)).

(** One step of anybody, in any world.  A dispatch is used up by marking it or
    by sending it, a marked attempt by sending it; a worker may stop at any
    point and forget what it holds. *)
Inductive delivery_step `{!Gateway} (s : dsys) : dsys → Prop :=
  | dv_enqueue cfg ws session f i env n :
      delivery_step s (withDB (out_db (enqueueFindingDelivery cfg ws session f i env n (sysDB s))) s)
  | dv_evaluate w id e env n :
      delivery_step s (withDB (out_db (evaluateFindingChangeEvent w id e env n (sysDB s))) s)
  | dv_claim nv w env n :
      let o := claimDelivery nv w env n (sysDB s) in
      delivery_step s {| sysNet := mkNet (out_db o) (net_sent (sysNet s));
        sysClaimed := gainedDispatch (out_res o) (sysClaimed s); sysMarked := sysMarked s |}
  | dv_mark w ds l l' env n :
      sysClaimed s = l ++ ds :: l' → guardedDispatch ds = true →
      let o := markDeliveryAttempt w ds env n (sysDB s) in
      delivery_step s {| sysNet := mkNet (out_db o) (net_sent (sysNet s)); sysClaimed := l ++ l';
        sysMarked := if marks (out_res o) then ds :: sysMarked s else sysMarked s |}
  | dv_send ds l l' :
      sysClaimed s = l ++ ds :: l' → guardedDispatch ds = false →
      delivery_step s {| sysNet := mkNet (sysDB s) (actionOf ds :: net_sent (sysNet s)); sysClaimed := l ++ l';
        sysMarked := sysMarked s |}
  | dv_send_marked ds l l' :
      sysMarked s = l ++ ds :: l' →
      delivery_step s {| sysNet := mkNet (sysDB s) (actionOf ds :: net_sent (sysNet s)); sysClaimed := sysClaimed s;
        sysMarked := l ++ l' |}
  | dv_finish w ds st receipt failure env n :
      outcome_ok st receipt failure →
      delivery_step s (withDB (out_db (finishDelivery w ds st receipt failure env n (sysDB s))) s)
  | dv_finish_guarded w ds st receipt failure env n :
      outcome_ok st receipt failure →
      delivery_step s (withDB (out_db (finishGuardedDelivery w ds st receipt failure env n (sysDB s))) s)
  | dv_stop claimed marked :
      claimed ⊆+ sysClaimed s → marked ⊆+ sysMarked s →
      delivery_step s {| sysNet := sysNet s; sysClaimed := claimed; sysMarked := marked |}
  (* everything else the application does leaves the deliveries alone *)
  | dv_other db :
      t_deliveries db = t_deliveries (sysDB s) → delivery_step s (withDB db s).

Lemma step_evolves `{!Gateway} s s' : delivery_step s s' → evolves (sysDB s) (sysDB s').
Proof.
  destruct 1; unfold sysDB; simpl; try reflexivity.
  - apply enqueue_evolves.
  - apply evaluate_evolves.
  - apply claimDelivery_evolves.
  - apply mark_evolves.
  - by apply finishDelivery_evolves.
  - by apply finishGuarded_evolves.
  - unfold evolves, sysDB in *. by rewrite H0.
Qed.

(** ** At most one request per delivery *)

Definition dispatchOf (i : string) (r : DeliveryRow) : deliveryDispatch :=
  {| dsRecord := {| DlID := i; DlRow := r |}; dsToken := ""; dsCredential := [] |}.
Definition dsID (ds : deliveryDispatch) : string := DlID (dsRecord ds).

(** The row [i] has these columns, left the queue, and, if [att], its attempt is recorded. *)
Definition row_fact (i : string) (m : DeliveryMeta) (att : bool) (db : DB) : Prop :=
  ∃ r, t_deliveries db !! i = Some r ∧ dl_meta r = m ∧ dl_state (dl_job r) ≠ DQueued ∧
    (att = true → is_Some (dl_create_attempted_at (dl_job r))).

Lemma dsteps_attempted r r' : rtc dstep r r' → is_Some (dl_create_attempted_at (dl_job r)) →
  is_Some (dl_create_attempted_at (dl_job r')).
Proof. induction 1 as [|? ? ? []]; eauto. Qed.
Lemma row_fact_evolves i m att db db' : evolves db db' → row_fact i m att db → row_fact i m att db'.
Proof.
  intros [He _] (r & Hr & Hm & Hq & Ha). destruct (He i r Hr) as (r' & Hr' & Hs). exists r'. split; [done|].
  split; [by rewrite (dsteps_meta _ _ Hs)|]. split; [by eapply dsteps_not_queued|].
  intros H. by eapply dsteps_attempted; [|apply Ha].
Qed.

Definition heldIDs (s : dsys) : list string :=
  (dsID <$> sysClaimed s) ++ (dsID <$> sysMarked s) ++ (ActIntentID <$> net_sent (sysNet s)).

Record sent_inv (s : dsys) : Prop := {
  si_once : NoDup (heldIDs s);
  si_claimed ds : ds ∈ sysClaimed s → row_fact (dsID ds) (dl_meta (DlRow (dsRecord ds))) false (sysDB s);
  si_marked ds : ds ∈ sysMarked s → row_fact (dsID ds) (dl_meta (DlRow (dsRecord ds))) true (sysDB s);
  si_sent a : a ∈ net_sent (sysNet s) → ∃ ds, a = actionOf ds ∧
    row_fact (dsID ds) (dl_meta (DlRow (dsRecord ds))) (guardedDispatch ds) (sysDB s) }.

Lemma held_left s i : sent_inv s → i ∈ heldIDs s →
  ∃ r, t_deliveries (sysDB s) !! i = Some r ∧ dl_state (dl_job r) ≠ DQueued.
Proof.
  intros [_ Hc Hm Hs]. unfold heldIDs. rewrite !elem_of_app, !list_elem_of_fmap.
  intros [(ds & -> & Hd)|[(ds & -> & Hd)|(a & -> & Ha)]].
  - destruct (Hc ds Hd) as (r & ? & ? & ? & ?). eauto.
  - destruct (Hm ds Hd) as (r & ? & ? & ? & ?). eauto.
  - destruct (Hs a Ha) as (ds & -> & r & ? & ? & ? & ?). eauto.
Qed.

Lemma NoDup_sub {A} (l k : list A) : l ⊆+ k → NoDup k → NoDup l.
Proof. intros (k' & ->)%submseteq_Permutation. by intros [? _]%NoDup_app. Qed.

(** Steps that keep what is held and sent. *)
Lemma sent_inv_db s db : sent_inv s → evolves (sysDB s) db → sent_inv (withDB db s).
Proof.
  intros [Ho Hc Hm Hs] He. split; [done|simpl; intros; eapply row_fact_evolves; eauto..|].
  intros a Ha. destruct (Hs a Ha) as (ds & ? & ?). exists ds. split; [done|]. by eapply row_fact_evolves.
Qed.
(** ... or hold less. *)
Lemma sent_inv_forget s c m :
  sent_inv s → c ⊆+ sysClaimed s → m ⊆+ sysMarked s →
  sent_inv {| sysNet := sysNet s; sysClaimed := c; sysMarked := m |}.
Proof.
  intros [Ho Hc Hm Hs] Hsc Hsm. split; simpl.
  - eapply NoDup_sub; [|exact Ho]. unfold heldIDs. simpl.
    apply submseteq_app; [by apply fmap_submseteq|]. apply submseteq_app; [by apply fmap_submseteq|done].
  - intros ds Hd. apply Hc. by eapply elem_of_submseteq.
  - intros ds Hd. apply Hm. by eapply elem_of_submseteq.
  - exact Hs.
Qed.

Lemma claim_sent_inv `{GW : Gateway} nv w env n s :
  sent_inv s →
  let o := claimDelivery nv w env n (sysDB s) in
  sent_inv {| sysNet := mkNet (out_db o) (net_sent (sysNet s)); sysClaimed := gainedDispatch (out_res o) (sysClaimed s);
              sysMarked := sysMarked s |}.
Proof.
  intros Hs o. pose proof (sent_inv_db s (out_db o) Hs (claimDelivery_evolves nv w env n (sysDB s))) as Hs'.
  destruct (out_res o) as [[[ds|] b]|e] eqn:E; [|exact Hs'..].
  assert (∃ r, t_deliveries (sysDB s) !! dsID ds = Some r ∧ dl_state (dl_job r) = DQueued ∧
    row_fact (dsID ds) (dl_meta (DlRow (dsRecord ds))) false (out_db o)) as (r & Hr & Hq & Hf).
  { subst o. destruct (claimDelivery nv w env n (sysDB s)) as [res db' n'] eqn:Hc. simpl in *. subst res.
    unfold claimDelivery in Hc. apply handle_inv in Hc as (res & db1 & n1 & Ht & Hc). destruct res as [d|e].
    - apply ret_inv in Hc as [[= -> <-] ->]. apply transaction_inv in Ht as [n2 Ht].
      apply claimTx_inv in Ht as (i & r & Hr & _ & t & Hq & Hds & ->). unfold dsID. rewrite Hds. simpl.
      exists r. split; [done|]. split; [done|]. exists (dispatched w t r). simpl. by rewrite lookup_insert_eq.
    - by destruct e. }
  destruct Hs' as [Ho Hc Hm Hse]. split; simpl in *.
  - unfold heldIDs in *. simpl in *. apply NoDup_cons. split; [|done]. intros Hin.
    destruct (held_left s (dsID ds) Hs) as (r' & Hr' & Hn); [done|]. congruence.
  - intros d [->|Hd]%elem_of_cons; [done|by apply Hc].
  - exact Hm.
  - exact Hse.
Qed.

Lemma mark_sent_inv `{GW : Gateway} w ds l l' env n s :
  sent_inv s → sysClaimed s = l ++ ds :: l' → guardedDispatch ds = true →
  let o := markDeliveryAttempt w ds env n (sysDB s) in
  sent_inv {| sysNet := mkNet (out_db o) (net_sent (sysNet s)); sysClaimed := l ++ l';
              sysMarked := if marks (out_res o) then ds :: sysMarked s else sysMarked s |}.
Proof.
  intros Hs Hl Hg o. pose proof (sent_inv_db s (out_db o) Hs (mark_evolves w ds env n (sysDB s))) as Hs'.
  assert (l ++ l' ⊆+ sysClaimed s) as Hsub.
  { rewrite Hl. apply submseteq_app; [done|]. by apply submseteq_cons_r; left. }
  destruct (marks (out_res o)) eqn:E; [|by apply (sent_inv_forget (withDB (out_db o) s))].
  assert (ds ∈ sysClaimed s) as Hin by (rewrite Hl; set_solver).
  destruct Hs' as [Ho Hc Hm Hse]. split; simpl in *.
  - eapply NoDup_sub; [apply Permutation_submseteq|exact Ho]. unfold heldIDs. simpl. rewrite Hl, !fmap_app, !fmap_cons. solve_Permutation.
  - intros d Hd. apply Hc. rewrite Hl. set_solver.
  - intros d [->|Hd]%elem_of_cons; [|by apply Hm]. destruct (Hc ds Hin) as (r' & Hr' & Hm' & Hq' & _).
    subst o. destruct (markDeliveryAttempt w ds env n (sysDB s)) as [[[cur [e|]]|e] db' n'] eqn:Hk; try discriminate E.
    apply mark_inv in Hk as [n1 Hk]. apply markTx_inv in Hk as (r & t & Hr & _ & _ & -> & _). simpl in *.
    unfold dsID in Hr'. rewrite lookup_insert_eq in Hr'. injection Hr' as <-.
    exists (attempted t r). simpl. unfold dsID. rewrite lookup_insert_eq. by split_and!; eauto.
  - exact Hse.
Qed.

Lemma send_sent_inv s ds c m :
  sent_inv s → heldIDs s ≡ₚ dsID ds :: (dsID <$> c) ++ (dsID <$> m) ++ (ActIntentID <$> net_sent (sysNet s)) →
  c ⊆+ sysClaimed s → m ⊆+ sysMarked s →
  row_fact (dsID ds) (dl_meta (DlRow (dsRecord ds))) (guardedDispatch ds) (sysDB s) →
  sent_inv {| sysNet := mkNet (sysDB s) (actionOf ds :: net_sent (sysNet s)); sysClaimed := c; sysMarked := m |}.
Proof.
  intros [Ho Hc Hm Hse] Hp Hsc Hsm Hf. split; simpl in *.
  - eapply NoDup_sub; [apply Permutation_submseteq|exact Ho]. rewrite Hp. unfold heldIDs. simpl. solve_Permutation.
  - intros d Hd. apply Hc. by eapply elem_of_submseteq.
  - intros d Hd. apply Hm. by eapply elem_of_submseteq.
  - intros a [->|Ha]%elem_of_cons; [by exists ds|]. by apply Hse.
Qed.

Lemma step_sent_inv `{GW : Gateway} s s' : delivery_step s s' → sent_inv s → sent_inv s'.
Proof.
  intros H Hs. pose proof (step_evolves _ _ H) as He. destruct H; try (by apply sent_inv_db).
  - by apply claim_sent_inv.
  - by apply mark_sent_inv.
  - apply send_sent_inv; try done.
    + unfold heldIDs. rewrite H, !fmap_app, !fmap_cons. solve_Permutation.
    + rewrite H. apply submseteq_app; [done|]. by apply submseteq_cons_r; left.
    + rewrite H0. apply (si_claimed s Hs). rewrite H. set_solver.
  - apply send_sent_inv; try done.
    + unfold heldIDs. rewrite H, !fmap_app, !fmap_cons. solve_Permutation.
    + rewrite H. apply submseteq_app; [done|]. by apply submseteq_cons_r; left.
    + destruct (si_marked s Hs ds) as (r & ? & ? & ? & ?); [rewrite H; set_solver|]. exists r. split_and!; auto.
  - by apply (sent_inv_forget s).
Qed.
