(* ===== verification/DeliveryRuns.v ===== *)
(** * Runs of the delivery worker

    The worker's program [ProcessNext] is one of the interleavings of
    DeliveryProps, so what holds of them holds of it: the theorems about
    deliveries, with their witnesses. *)
From S2P Require Import Prelude GoLib Encoding Tx ReportAdapter Schema Auth Intake Reconcile Paging Assets WorkViews Work Reports Connections Deliveries DeliveryWorker Notifications DeliveryExample DeliveryProps.
Local Open Scope Z_scope.

(** ** The worker's program is one of the interleavings *)

Lemma deliveryOutcome_ok done_ result err token s receipt failure :
  deliveryOutcome done_ result err token = (s, receipt, failure) → outcome_ok s receipt failure.
Proof.
  unfold deliveryOutcome. case_if.
  - intros [= <- <- <-]. split_and!; try done; by case_if.
  - match goal with |- context [(DUncertain, None, Some (withCode _ ?f))] => generalize f end. intros f.
    unfold failedState. repeat case_if; try destruct done_; intros [= <- <- <-]; split_and!; done || by intros [? ?].
Qed.
Lemma accepted_ok done_ result err s failure :
  acceptedDeliveryOutcome done_ result err = (s, failure) → outcome_ok s None failure.
Proof.
  unfold acceptedDeliveryOutcome. case_if; [intros [= <- <-]; split_and!; (done || by intros [? ?])|].
  destruct (deliveryOutcome _ _ _ _) as [[s' r'] f'] eqn:Ed. apply deliveryOutcome_ok in Ed as Hok.
  destruct f' as [f'|]; intros [= <- <-]; [|split_and!; (done || by intros [? ?])].
  destruct Hok as (? & [Hf _] & _). split_and!; [done| |by intros [? ?]]. split; [intros Hs; by apply Hf in Hs|done].
Qed.
Lemma stage_ok s receipt failure stage missing :
  outcome_ok s receipt failure → outcome_ok s receipt (withStage stage missing <$> failure).
Proof.
  intros (? & Hf & ?). split_and!; [done| |done]. destruct failure; [|done]. split; [by intros ?%Hf|done].
Qed.
Lemma metadata_ok missing err token s failure :
  jiraMetadataOutcome missing err token = (s, failure) → outcome_ok s None failure.
Proof.
  unfold jiraMetadataOutcome. destruct (deliveryOutcome _ _ _ _) as [[s' r'] f'] eqn:Ed. intros [= <- <-].
  apply deliveryOutcome_ok, (stage_ok _ _ _ "metadata" (jiraMissingFields missing token)) in Ed as (? & ? & _).
  split_and!; [done..|]. by intros [? ?].
Qed.
Lemma jiraInterrupted_ok c a s f : jiraInterruptedOutcome c a = (s, f) → outcome_ok s None (Some f).
Proof. intros H. apply (interrupted_ok JiraCloudV3 c a). unfold guardedDeliveryInterruptedOutcome. by rewrite H. Qed.
Lemma receipt_ok d s receipt failure s' receipt' failure' :
  jiraReceipt d (s, receipt, failure) = (s', receipt', failure') → outcome_ok s receipt failure → outcome_ok s' receipt' failure'.
Proof.
  unfold jiraReceipt. destruct receipt as [r|]; [|by intros [= <- <- <-]]. intros H (? & Hf & Hr). case_if_in H.
  - injection H as <- <- <-. split_and!; [done..|]. eauto.
  - injection H as <- <- <-. split_and!; (done || by intros [? ?]).
Qed.

Section simulation.
Context {GW : Gateway} (nv : native) (w : workerConfig).

Definition sys (net : Net) (c m : list deliveryDispatch) : dsys := {| sysNet := net; sysClaimed := c; sysMarked := m |}.
(** From [net], whatever is held, steps lead to [net']. *)
Definition reaches (net net' : Net) : Prop :=
  ∀ c m, ∃ c' m', rtc delivery_step (sys net c m) (sys net' c' m').
#[local] Instance reaches_preorder : PreOrder reaches.
Proof.
  split; [intros net c m; exists c, m; apply rtc_refl|]. intros n1 n2 n3 H12 H23 c m.
  destruct (H12 c m) as (c2 & m2 & ?). destruct (H23 c2 m2) as (c3 & m3 & ?). exists c3, m3. by etransitivity.
Qed.

Lemma lift_reaches {A} (m : M DB A) :
  (∀ env n s, delivery_step s (withDB (out_db (m env n (sysDB s))) s)) → Steps reaches (lift m).
Proof.
  intros Hm env n net c mk. exists c, mk. apply rtc_once. specialize (Hm env n (sys net c mk)).
  unfold lift. unfold sysDB in Hm. simpl in Hm. by destruct (m env n (net_db net)).
Qed.
Lemma finish_reaches ds s receipt failure :
  outcome_ok s receipt failure → Steps reaches (lift (finishDelivery w ds s receipt failure)).
Proof. intros Ho. apply lift_reaches. intros. by constructor. Qed.
Lemma finishGuarded_reaches ds s receipt failure :
  outcome_ok s receipt failure → Steps reaches (lift (finishGuardedDelivery w ds s receipt failure)).
Proof. intros Ho. apply lift_reaches. intros. by constructor. Qed.
Lemma cause_reaches : Steps reaches (cause nv).
Proof. intros env n net. reflexivity. Qed.
#[local] Hint Resolve cause_reaches : steps.

Lemma interruptedMark_reaches ds rec e : Steps reaches (interruptedMark nv w ds rec e).
Proof.
  unfold interruptedMark. apply steps_bind; [apply _|apply cause_reaches|]. intros c.
  destruct (guardedDeliveryInterruptedOutcome _ _ _) eqn:E. apply finishGuarded_reaches. by eapply interrupted_ok.
Qed.

(** Sending a marked attempt and recording its outcome. *)
Definition afterMark {A} (m : M Net A) (ds : deliveryDispatch) : Prop :=
  ∀ env n net c mk, ∃ c' mk', rtc delivery_step (sys net c (ds :: mk)) (sys (out_db (m env n net)) c' mk').
Lemma afterMark_send {A} ds (k : nativeDelivery * option nativeError → M Net A) :
  (∀ a, Steps reaches (k a)) → afterMark (bind (send nv ds) k) ds.
Proof.
  intros Hk env n net c mk. unfold bind, send. simpl.
  destruct (Hk (nv_send nv n) env (n + 1)%nat (mkNet (net_db net) (actionOf ds :: net_sent net)) c mk) as (c' & mk' & H).
  exists c', mk'. eapply rtc_l; [|exact H]. exact (dv_send_marked (sys net c (ds :: mk)) ds [] mk eq_refl).
Qed.

(** Marking a claimed dispatch, then sending it or recording why not. *)
Lemma mark_reaches {A} ds (k : option deliveryRecord * option error → M Net A) env n net c mk :
  guardedDispatch ds = true → (∀ r e, Steps reaches (k (r, Some e))) → (∀ r, afterMark (k (r, None)) ds) →
  ∃ c' mk', rtc delivery_step (sys net (ds :: c) mk) (sys (out_db (bind (lift (markDeliveryAttempt w ds)) k env n net)) c' mk').
Proof.
  intros Hg He Hm. unfold bind, lift.
  pose proof (dv_mark (sys net (ds :: c) mk) w ds [] c env n eq_refl Hg) as Hs. unfold sysDB in Hs. simpl in Hs.
  destruct (markDeliveryAttempt w ds env n (net_db net)) as [[[r [e|]]|e] db' n'] eqn:Ek; simpl in *.
  - destruct (He r e env n' (mkNet db' (net_sent net)) c mk) as (c' & mk' & H). exists c', mk'. by eapply rtc_l.
  - destruct (Hm r env n' (mkNet db' (net_sent net)) c mk) as (c' & mk' & H). exists c', mk'. by eapply rtc_l.
  - exists c, mk. by apply rtc_once.
Qed.

Lemma accepted_reaches ds env n net c mk : guardedDispatch ds = true →
  ∃ c' mk', rtc delivery_step (sys net (ds :: c) mk) (sys (out_db (processAcceptedDelivery nv w ds env n net)) c' mk').
Proof.
  intros Hg. apply mark_reaches; [done|intros; apply interruptedMark_reaches|]. intros r. apply afterMark_send.
  intros a. apply steps_bind; [apply _|steps|]. intros d. destruct (acceptedDeliveryOutcome _ _ _) eqn:E.
  apply steps_bind; [apply _|apply cause_reaches|]. intros [ca|].
  - destruct (guardedDeliveryInterruptedOutcome _ _ _) eqn:Ei. apply finishGuarded_reaches. by eapply interrupted_ok.
  - apply finishGuarded_reaches. by eapply accepted_ok.
Qed.

Lemma jira_reaches ds env n net c mk : guardedDispatch ds = true →
  ∃ c' mk', rtc delivery_step (sys net (ds :: c) mk) (sys (out_db (processJiraDelivery nv w ds env n net)) c' mk').
Proof.
  intros Hg. unfold processJiraDelivery. unfold bind at 1. unfold preview. simpl. destruct (nv_preview nv n) as [[missing err]|].
  - match goal with |- ∃ _ _, rtc _ _ (sys (out_db (?m env ?n1 net)) _ _) => enough (Steps reaches m) as H by (destruct (H env n1 net (ds :: c) mk) as (c' & mk' & ?); eauto) end.
    apply steps_bind; [apply _|apply cause_reaches|]. intros [ca|].
    + apply finishGuarded_reaches. by apply (jiraInterrupted_ok ca false).
    + destruct (jiraMetadataOutcome _ _ _) eqn:E. apply finishGuarded_reaches. by eapply metadata_ok.
  - apply mark_reaches; [done|intros; apply interruptedMark_reaches|]. intros r. apply afterMark_send.
    intros [result err]. apply steps_bind; [apply _|steps|]. intros d.
    destruct (deliveryOutcome d result err (dsToken ds)) as [[s0 rc0] f0] eqn:Eo.
    destruct (jiraReceipt _ _) as [[s rc] f] eqn:Er. apply deliveryOutcome_ok in Eo. eapply receipt_ok in Er; [|done].
    apply steps_bind; [apply _|apply cause_reaches|]. intros [ca|].
    + apply finishGuarded_reaches. by apply (jiraInterrupted_ok ca true).
    + by apply finishGuarded_reaches, stage_ok.
Qed.

Lemma slack_reaches ds env n net c mk : guardedDispatch ds = false →
  ∃ c' mk', rtc delivery_step (sys net (ds :: c) mk) (sys (out_db (processSlackDelivery nv w ds env n net)) c' mk').
Proof.
  intros Hg. unfold processSlackDelivery. unfold bind at 1. unfold send. simpl.
  match goal with |- ∃ _ _, rtc _ _ (sys (out_db (?m env ?n1 ?net1)) _ _) =>
    enough (Steps reaches m) as H; [destruct (H env n1 net1 c mk) as (c' & mk' & Hr)|] end.
  - exists c', mk'. eapply rtc_l; [|exact Hr]. exact (dv_send (sys net (ds :: c) mk) ds [] c eq_refl Hg).
  - apply steps_bind; [apply _|steps|]. intros d. destruct (deliveryOutcome _ _ _ _) as [[s rc] f] eqn:E.
    apply steps_bind; [apply _|apply finish_reaches; by eapply deliveryOutcome_ok|]. steps.
Qed.

Lemma process_reaches ds env n net c mk :
  ∃ c' mk', rtc delivery_step (sys net (ds :: c) mk) (sys (out_db (processDispatch nv w ds env n net)) c' mk').
Proof.
  unfold processDispatch. case_if; [|case_if].
  - apply jira_reaches. unfold guardedDispatch, guarded. by rewrite bool_decide_true.
  - apply accepted_reaches. unfold guardedDispatch, guarded. apply orb_true_iff in E0 || idtac.
    destruct E0 as [E0|E0]; rewrite E0; done.
  - apply slack_reaches. unfold guardedDispatch, guarded. destruct E0. by rewrite !bool_decide_false.
Qed.

Definition keepsDeliveries (db db' : DB) : Prop := t_deliveries db' = t_deliveries db.
#[local] Instance keepsDeliveries_preorder : PreOrder keepsDeliveries.
Proof. split; unfold keepsDeliveries; [done|]. intros d1 d2 d3 -> ->. done. Qed.

Lemma changeEvent_reaches : Steps reaches (lift (processNextFindingChangeEvent w)).
Proof.
  intros env n net c mk. exists c, mk. unfold lift, processNextFindingChangeEvent, bind.
  destruct (claimFindingChangeEvent w env n (net_db net)) as [res db1 n1] eqn:Ec.
  assert (delivery_step (sys net c mk) (sys (mkNet db1 (net_sent net)) c mk)) as H1.
  { apply (dv_other (sys net c mk) db1). unfold sysDB. simpl.
    change db1 with (out_db (mkOut res db1 n1)). rewrite <-Ec.
    enough (Steps keepsDeliveries (claimFindingChangeEvent w)) as Hst by apply Hst.
    unfold claimFindingChangeEvent. apply steps_bind; [apply _|steps|]. intros locked.
    apply infra_steps; [apply _|]. apply steps_exec; [apply _|]. intros t db.
    by destruct (nextChange _ _ _) as [[? ?]|]. }
  destruct res as [[[id e]|]|e]; simpl; [|by apply rtc_once..]. eapply rtc_l; [exact H1|].
  pose proof (dv_evaluate (sys (mkNet db1 (net_sent net)) c mk) w id e env n1) as H2. unfold sysDB in H2. simpl in H2.
  destruct (evaluateFindingChangeEvent w id e env n1 db1) as [[u|e2] db2 n2]; by apply rtc_once.
Qed.

Lemma ProcessNext_reaches : Steps reaches (ProcessNext nv w).
Proof.
  intros env n net c mk. unfold ProcessNext, bind, lift.
  pose proof (dv_claim (sys net c mk) nv w env n) as H1. unfold sysDB in H1. simpl in H1.
  destruct (claimDelivery nv w env n (net_db net)) as [res db1 n1] eqn:Ec. simpl in *.
  destruct res as [[[ds|] b]|e]; simpl in *.
  - destruct (process_reaches ds env n1 (mkNet db1 (net_sent net)) c mk) as (c' & mk' & H2).
    exists c', mk'. destruct (processDispatch _ _ _ _ _ _) as [[?|?] ? ?]; simpl in *; by eapply rtc_l.
  - destruct b; [exists c, mk; by apply rtc_once|].
    destruct (changeEvent_reaches env n1 (mkNet db1 (net_sent net)) c mk) as (c' & mk' & H2). exists c', mk'.
    eapply rtc_l; [exact H1|exact H2].
  - exists c, mk. by apply rtc_once.
Qed.
End simulation.

(** ** Theorems *)

(** Nobody holds a delivery and nothing was sent. *)
Definition fresh_start (s : dsys) : Prop := sysClaimed s = [] ∧ sysMarked s = [] ∧ net_sent (sysNet s) = [].
Lemma fresh_sent_inv s : fresh_start s → sent_inv s.
Proof.
  intros (Hc & Hm & Hs). split; unfold heldIDs; rewrite ?Hc, ?Hm, ?Hs; [constructor|intros ? []%elem_of_nil..].
Qed.

Lemma steps_sent_inv `{GW : Gateway} s s' : rtc delivery_step s s' → sent_inv s → sent_inv s'.
Proof. induction 1; [done|]. eauto using step_sent_inv. Qed.
Lemma steps_evolve `{GW : Gateway} s s' : rtc delivery_step s s' → evolves (sysDB s) (sysDB s').
Proof. induction 1 as [|? ? ? H]; [reflexivity|]. etransitivity; [by apply step_evolves|done]. Qed.

(** C5: Under any interleaving of requests, policy evaluations and workers
    that crash, lose their lease or lose a commit acknowledgement, at most one
    request ever leaves for a delivery; what it says is what the stored row
    was bound to say, the row is no longer queued, and for a Jira, Teams or
    webhook delivery the attempt was committed before. *)
Theorem requests_sent_once `{GW : Gateway} s s' :
  fresh_start s → rtc delivery_step s s' →
  NoDup (ActIntentID <$> net_sent (sysNet s')) ∧
  ∀ a, a ∈ net_sent (sysNet s') → ∃ r, t_deliveries (sysDB s') !! ActIntentID a = Some r ∧
    a = actionOf (dispatchOf (ActIntentID a) r) ∧ dl_state (dl_job r) ≠ DQueued ∧
    (guarded (dl_profile (dl_intent (dl_meta r))) = true → is_Some (dl_create_attempted_at (dl_job r))).
Proof.
  intros H0%fresh_sent_inv Hs. destruct (steps_sent_inv _ _ Hs H0) as [Ho _ _ Ha]. split.
  - unfold heldIDs in Ho. by apply NoDup_app in Ho as (_ & _ & [_ [_ ?]]%NoDup_app).
  - intros a (ds & -> & r & Hr & Hm & Hq & Hg)%Ha. exists r. simpl. split; [done|].
    unfold guardedDispatch, dsIntent, recIntent, dispatchOf, actionOf in *. simpl.
    unfold dsIntent, recIntent. simpl. by rewrite Hm.
Qed.

Definition queuedSystem (i : enqueueInput) : dsys := {|
  sysNet := mkNet (out_db (enqueueFindingDelivery exampleConfig "ws" deliverySession findingID i calm 0%nat deliveryDB)) [];
  sysClaimed := []; sysMarked := [] |}.

Lemma requests_sent_once_witness :
  fresh_start (queuedSystem (enqueueHook "k")) ∧
  let net := out_db (ProcessNext exampleNative exampleWorker calm 50%nat (sysNet (queuedSystem (enqueueHook "k")))) in
  length (net_sent net) = 1%nat ∧ NoDup (ActIntentID <$> net_sent net).
Proof.
  split; [by split_and!|]. split; [vm_compute; reflexivity|].
  destruct (ProcessNext_reaches exampleNative exampleWorker calm 50%nat (sysNet (queuedSystem (enqueueHook "k"))) [] [])
    as (c & m & Hs).
  exact (proj1 (requests_sent_once (queuedSystem (enqueueHook "k")) _ ltac:(by split_and!) Hs)).
Defined.

(** C20: A turn of the delivery worker, in any world and with any answers of
    the connector, is a sequence of the steps above, whatever other workers
    hold; so every theorem about the interleavings is about the worker's code. *)
Theorem worker_runs_are_interleavings `{GW : Gateway} nv w env n s :
  ∃ c m, rtc delivery_step s
    {| sysNet := out_db (ProcessNext nv w env n (sysNet s)); sysClaimed := c; sysMarked := m |}.
Proof. destruct s as [net c m]. exact (ProcessNext_reaches nv w env n net c m). Qed.

(** The life of a delivery: in any interleaving what was bound never
    changes, a delivery that left the queue is never queued again, one that
    ended stays exactly as it ended, and every state keeps the columns that
    belong to it (a dispatch has a worker and a lease; an end has a failure or
    a success, a receipt only for a success). *)
Theorem delivery_lifecycle `{GW : Gateway} s s' :
  rtc delivery_step s s' →
  (∀ i r, t_deliveries (sysDB s) !! i = Some r → delivery_ok r) →
  (∀ i r, t_deliveries (sysDB s') !! i = Some r → delivery_ok r) ∧
  (∀ i r, t_deliveries (sysDB s) !! i = Some r → ∃ r', t_deliveries (sysDB s') !! i = Some r' ∧
    dl_meta r' = dl_meta r ∧ (dl_state (dl_job r) ≠ DQueued → dl_state (dl_job r') ≠ DQueued) ∧
    (terminal (dl_state (dl_job r)) = true → r' = r)).
Proof.
  intros Hs Hok. apply steps_evolve in Hs as [He Hn].
  assert (∀ r r', rtc dstep r r' → delivery_ok r → delivery_ok r') as Hd.
  { induction 1; eauto using dstep_ok. }
  split.
  - intros i r' Hr'. destruct (t_deliveries (sysDB s) !! i) as [r|] eqn:Hr.
    + destruct (He i r Hr) as (r2 & ? & ?). simplify_eq. eauto.
    + destruct (Hn i r' Hr Hr') as (r & Hq & Hst). apply (Hd r); [done|]. unfold delivery_ok. rewrite Hq. simpl.
      split; [done|]. by intros [? ?].
  - intros i r Hr. destruct (He i r Hr) as (r' & Hr' & Hst). exists r'.
    split; [done|]. split; [by apply dsteps_meta|]. split; [by apply dsteps_not_queued|by apply dsteps_terminal].
Qed.

Lemma delivery_lifecycle_witness :
  (dl_state ∘ dl_job <$> t_deliveries (sysDB (queuedSystem (enqueueSlack "k"))) !! "id-8") = Some DQueued ∧
  ∀ i r, t_deliveries (net_db (out_db (ProcessNext exampleNative exampleWorker calm 50%nat
    (sysNet (queuedSystem (enqueueSlack "k")))))) !! i = Some r → delivery_ok r.
Proof.
  split; [vm_compute; reflexivity|].
  destruct (ProcessNext_reaches exampleNative exampleWorker calm 50%nat (sysNet (queuedSystem (enqueueSlack "k"))) [] [])
    as (c & m & Hs).
  exact (proj1 (delivery_lifecycle (queuedSystem (enqueueSlack "k")) _ Hs
    ltac:(intros i r Hr; apply elem_of_map_to_list in Hr; vm_compute in Hr; apply list_elem_of_singleton in Hr;
          injection Hr as -> ->; split; [done|by intros [? ?]]))).
Defined.

(** A request of a guarded profile leaves only with authority: marking the
    attempt succeeds only while the worker holds the unexpired dispatch, no
    attempt was recorded, the row still matches its digest and the digest the
    worker claimed, the requester can write in the workspace, and the
    connection is enabled and unchanged down to its credential. *)
Theorem attempt_needs_authority `{GW : Gateway} w ds env n db cur db' n' :
  markDeliveryAttempt w ds env n db = mkOut (Ok (cur, None)) db' n' →
  ∃ r t role c, t_deliveries db !! dsID ds = Some r ∧ heldBy w (dsFence ds) t r = true ∧
    dl_create_attempted_at (dl_job r) = None ∧ t_deliveries db' !! dsID ds = Some (attempted t r) ∧
    validDeliveryBinding (dsID ds) (dl_meta r) = true ∧
    dl_binding_digest (dl_meta r) = dl_binding_digest (dl_meta (DlRow (dsRecord ds))) ∧
    t_memberships db !! (dl_workspace_id (dsIntent ds), dl_requested_by (dsIntent ds)) = Some role ∧
    (role = "admin" ∨ role = "analyst") ∧
    connectionOf (dl_workspace_id (dsIntent ds)) (dl_connection_id (dsIntent ds)) db = Some c ∧
    cn_enabled c = true ∧ cn_revision c = dl_connection_revision (dsIntent ds) ∧
    cn_profile c = dl_profile (dsIntent ds) ∧ cn_ciphertext c = dsCredential ds ∧
    targetCurrent w (dsIntent ds) c = true.
Proof.
  intros [n1 H]%mark_inv. apply markTx_inv in H as (r & t & Hr & Hh & Ha & -> & n2 & n3 & Hau).
  apply authority_inv in Hau as (_ & _ & _ & _ & Hv & Hd & (role & Hrole & Hw) & c & Hc & He & Hre & Hp & _ & Hci & Ht).
  exists r, t, role, c. simpl in *. unfold dsID. rewrite lookup_insert_eq. by split_and!.
Qed.

Definition hookDispatch : option deliveryDispatch :=
  match out_res (claimDelivery exampleNative exampleWorker calm 50%nat (sysDB (queuedSystem (enqueueHook "k")))) with
  | Ok (d, _) => d | Err _ => None end.
Definition hookClaimed : DB :=
  out_db (claimDelivery exampleNative exampleWorker calm 50%nat (sysDB (queuedSystem (enqueueHook "k")))).
Lemma attempt_needs_authority_witness :
  ∃ ds cur db' n', hookDispatch = Some ds ∧
    markDeliveryAttempt exampleWorker ds calm 60%nat hookClaimed = mkOut (Ok (cur, None)) db' n' ∧
    ∃ r t, t_deliveries hookClaimed !! dsID ds = Some r ∧ t_deliveries db' !! dsID ds = Some (attempted t r).
Proof.
  destruct hookDispatch as [ds|] eqn:Eds; [|vm_compute in Eds; discriminate Eds].
  destruct (markDeliveryAttempt exampleWorker ds calm 60%nat hookClaimed) as [res db' n'] eqn:E.
  assert (marks res = true) as Hm.
  { change res with (out_res (mkOut res db' n')). rewrite <-E. vm_compute in Eds. injection Eds as <-. vm_compute. reflexivity. }
  destruct res as [[cur [e|]]|e]; [discriminate Hm| |discriminate Hm].
  exists ds, cur, db', n'. split; [done|]. split; [exact E|].
  destruct (attempt_needs_authority exampleWorker ds calm 60%nat hookClaimed cur db' n' E) as (r & t & _ & _ & Hr & _ & _ & Hr' & _).
  exists r, t. exact (conj Hr Hr').
Defined.
