(* ===== verification/DeliveryBindings.v ===== *)
(** * What is queued passes the worker's check

    The digest a delivery is queued with, by a person or by a policy, is the
    one the worker recomputes: a row the system itself wrote is never refused
    as changed. *)
From stdpp Require Import pretty.
From S2P Require Import Prelude GoLib Encoding Tx ReportAdapter Schema Auth Intake Reconcile Paging Assets WorkViews Work Reports Connections Deliveries DeliveryWorker Notifications DeliveryExample DeliveryProps.
Local Open Scope Z_scope.

(** ** Keys are valid text *)

Definition plainByte (b : N) : Prop := (33 ≤ b ≤ 126)%N.

Lemma pretty_go_plain x s : Forall plainByte (bytes s) → Forall plainByte (bytes (pretty_N_go x s)).
Proof.
  revert s. induction (N.lt_wf_0 x) as [x _ IH]. intros s Hs.
  destruct (decide (0 < x)%N) as [Hx|Hx].
  - rewrite pretty_N_go_step by done. apply IH; [apply N.div_lt; lia|].
    unfold bytes in *. simpl. constructor; [|done].
    unfold pretty_N_char. repeat case_match; unfold plainByte; vm_compute; split; discriminate.
  - assert (x = 0)%N as -> by lia. by rewrite pretty_N_go_0.
Qed.
Lemma pretty_go_length k x s : (x < 10 ^ N.of_nat k)%N → (String.length (pretty_N_go x s) ≤ k + String.length s)%nat.
Proof.
  revert x s. induction k as [|k IH]; intros x s Hx.
  - assert (x = 0)%N as -> by (simpl in Hx; lia). rewrite pretty_N_go_0. lia.
  - destruct (decide (0 < x)%N) as [H0|H0].
    + rewrite pretty_N_go_step by done. etransitivity; [apply IH|simpl; lia].
      apply N.Div0.div_lt_upper_bound. rewrite Nat2N.inj_succ, N.pow_succ_r' in Hx. lia.
    + assert (x = 0)%N as -> by lia. rewrite pretty_N_go_0. lia.
Qed.
Lemma pretty_positive z : 0 < z < 10 ^ 19 →
  Forall plainByte (bytes (pretty z)) ∧ len (pretty z) ≤ 19.
Proof.
  intros [H1 H2]. destruct z as [|p|p]; try lia. change (pretty (Z.pos p)) with (pretty (N.pos p)).
  unfold pretty, pretty_N. rewrite decide_False by done. split; [by apply pretty_go_plain|].
  unfold len. pose proof (pretty_go_length 19 (N.pos p) "") as H. simpl String.length in H. lia.
Qed.

(** A plain byte is no part of the encoding of a space. *)
Ltac plain_byte b := unfold plainByte in *;
  repeat match goal with
  | |- context [(b =? ?k)%N] => rewrite (proj2 (N.eqb_neq b k)) by lia
  | |- context [(?k <=? b)%N] => rewrite (proj2 (N.leb_gt k b)) by lia
  end; rewrite ?andb_false_r; simpl; rewrite ?andb_false_r.
Lemma plain_not_space b : plainByte b → asciiSpace b = false.
Proof.
  intros H. unfold asciiSpace, plainByte in *. rewrite (proj2 (N.leb_gt b 13)), (proj2 (N.eqb_neq b 32)) by lia.
  by rewrite andb_false_r.
Qed.
Lemma plain_spaces b c d : plainByte b →
  space2 b c = false ∧ space2 c b = false ∧ space3 b c d = false ∧ space3 d c b = false.
Proof. intros H. unfold space2, space3. split_and!; by plain_byte b. Qed.

Lemma trimLeft_plain b l : plainByte b → trimLeft (b :: l) = b :: l.
Proof.
  intros H. simpl. rewrite plain_not_space by done. destruct l as [|c l]; [done|].
  destruct (plain_spaces b c 0 H) as [-> _]. destruct l as [|d l]; [done|]. by destruct (plain_spaces b c d H) as (_ & _ & -> & _).
Qed.
Lemma trimRightRev_plain b l : plainByte b → trimRightRev (b :: l) = b :: l.
Proof.
  intros H. simpl. rewrite plain_not_space by done. destruct l as [|c l]; [done|].
  destruct (plain_spaces b c 0 H) as (_ & -> & _). destruct l as [|d l]; [done|]. by destruct (plain_spaces b c d H) as (_ & _ & _ & ->).
Qed.
Lemma validText_plain s n : Forall plainByte (bytes s) → 0 < len s ≤ n → validText s n = true.
Proof.
  intros Hs [H0 Hn]. unfold validText. rewrite !andb_true_iff. split_and!.
  - rewrite negb_true_iff, bool_decide_eq_false. intros He%(f_equal bytes). unfold TrimSpace in He.
    destruct (bytes s) as [|b l] eqn:Eb; [unfold len in H0; rewrite <-length_bytes, Eb in H0; simpl in H0; lia|].
    apply Forall_cons in Hs as [Hb Hl]. unfold TrimSpaceBytes in He. rewrite trimLeft_plain in He by done.
    destruct (rev (b :: l)) as [|c k] eqn:Er; [by apply (f_equal length) in Er; rewrite length_rev in Er|].
    assert (plainByte c) as Hc.
    { assert (Forall plainByte (rev (b :: l))) as Hr by (apply Forall_rev; by constructor). rewrite Er in Hr. by apply Forall_cons in Hr as [? _]. }
    rewrite trimRightRev_plain, <-Er, rev_involutive in He by done.
    rewrite <-Eb, of_bytes_bytes in He. rewrite Eb in He. done.
  - by apply Z.leb_le.
  - rewrite negb_true_iff. unfold containsNUL. destruct (existsb _ _) eqn:E; [|done].
    apply existsb_Exists in E as (x & Hx & E%N.eqb_eq). rewrite Forall_forall in Hs. apply Hs in Hx. unfold plainByte in Hx. lia.
Qed.

Lemma hex_plain id : validID id = true → Forall plainByte (bytes id) ∧ len id = 32.
Proof.
  unfold validID. destruct (negb _) eqn:E; [done|]. breflect_in E. intros H%forallb_Forall. split; [|done].
  eapply Forall_impl; [exact H|]. simpl. intros b. unfold lowerHexDigit, plainByte. rewrite negb_true_iff, andb_false_iff, !orb_false_iff, !N.ltb_ge. lia.
Qed.
Lemma len_app a b : len (a +:+ b) = len a + len b.
Proof. unfold len. rewrite <-!length_bytes, bytes_app, length_app. lia. Qed.

Lemma policyKey_valid policy finding change :
  validID policy = true → validID finding = true → 0 < change < 10 ^ 19 →
  validText (policyKey policy finding change) 256 = true.
Proof.
  intros [Hp Lp]%hex_plain [Hf Lf]%hex_plain [Hc Lc]%pretty_positive. apply validText_plain; unfold policyKey.
  - rewrite !bytes_app, !Forall_app. split_and!; try done;
      repeat (constructor; [vm_compute; split; discriminate|]); constructor.
  - rewrite !len_app, Lp, Lf. change (len "notification-policy:") with 20. change (len ":") with 1.
    assert (0 ≤ len (pretty change)) by (unfold len; lia). lia.
Qed.

(** ** Intents that are made pass the checks *)
Section bindings.
Context {GW : Gateway}.

Lemma manual_valid id m :
  validText (dl_idempotency_key m) 256 = true → dl_trigger_kind (dl_intent m) = "manual" →
  dl_policy_id (dl_intent m) = None → dl_policy_revision (dl_intent m) = None →
  dl_finding_change_revision (dl_intent m) = None → dl_approval_ref m = remediationRef (dl_workspace_id (dl_intent m)) id →
  validTarget (dl_intent m) = true → dl_binding_digest m = deliveryIntentBinding (dl_intent m) (dl_idempotency_key m) →
  validDeliveryBinding id m = true.
Proof.
  intros Hk Ht Hp Hr Hc Ha Hv Hd. unfold validDeliveryBinding, validTrigger. rewrite Hk, Ht, Hp, Hr, Hc, Ha, Hv, Hd.
  by rewrite !bool_decide_true.
Qed.

Lemma policyTarget_valid w e policy t conn d :
  policyFindingDelivery w e policy t conn = Some d → validText (cn_name conn) 256 = true → validTarget d = true.
Proof.
  unfold policyFindingDelivery. intros H Hn. case_if_in H; [done|]. clear E. cbv zeta in H. unfold validTarget.
  case_if_in H; [|case_if_in H; [|case_if_in H; [|case_if_in H; [|done]]]].
  - case_if_in H; [done|]. injection H as <-. simpl. rewrite E. destruct E0 as [[_ E0] _]. by rewrite E0.
  - case_if_in H; [done|]. injection H as <-. simpl. rewrite E0. destruct E1 as [[E1 E2] _]. by rewrite E1, E2.
  - destruct (cn_teams conn) as [teams|]; [|done]. case_if_in H; [done|].
    destruct (teamsPayloadValid _) eqn:Ep in H; [|done]. injection H as <-. simpl. rewrite E1.
    destruct E2 as [[E2 E3] E4]. simpl in E4, Ep. rewrite E2, E3, Hn, Ep. simpl. by rewrite E4.
  - case_if_in H; [done|]. injection H as <-. simpl. rewrite E2. destruct E3 as [[[[E3 _] E5] E6] _]. by rewrite E3, E5, E6.
Qed.

Lemma policy_valid w e policy t conn d id at_ :
  policyFindingDelivery w e policy t conn = Some d → validText (cn_name conn) 256 = true →
  validID policy = true → validID (ce_finding_id e) = true → 1 ≤ pt_revision t → 0 < ce_change_revision e < 10 ^ 19 →
  let key := policyKey policy (ce_finding_id e) (ce_change_revision e) in
  validDeliveryBinding id {| dl_intent := d; dl_idempotency_key := key; dl_binding_digest := deliveryIntentBinding d key;
    dl_approval_ref := policyRef (ce_workspace_id e) policy (pt_revision t); dl_created_at := at_ |} = true.
Proof.
  intros H Hn Hp Hf Hr Hc key. unfold validDeliveryBinding. cbn [dl_intent dl_idempotency_key dl_binding_digest].
  rewrite !andb_true_iff, bool_decide_eq_true. split; [split; [split|]|reflexivity].
  - by apply policyKey_valid.
  - unfold validTrigger. cbn [dl_intent dl_idempotency_key dl_approval_ref].
    assert (dl_trigger_kind d = "notification-policy" ∧ dl_policy_id d = Some policy ∧ dl_policy_revision d = Some (pt_revision t) ∧
      dl_finding_change_revision d = Some (ce_change_revision e) ∧ dl_finding_id d = ce_finding_id e ∧
      dl_workspace_id d = ce_workspace_id e) as (-> & -> & -> & -> & -> & ->).
    { unfold policyFindingDelivery in H. cbv zeta in H. case_if_in H; [done|].
      repeat first [case_if_in H; try discriminate H | destruct (cn_teams conn); [|discriminate H]];
        injection H as <-; split_and!; reflexivity. }
    change (if "notification-policy" ==? "manual" then ?x else ?y) with y. change (if "notification-policy" ==? "notification-policy" then ?x else ?y) with x.
    cbv iota. rewrite Hp, (proj2 (Z.leb_le 1 (pt_revision t)) Hr), (proj2 (Z.leb_le 1 (ce_change_revision e))) by lia.
    rewrite !bool_decide_true by reflexivity. reflexivity.
  - by eapply policyTarget_valid.
Qed.

(** What the table's CHECK leaves for each profile. *)
Lemma targetCheck_inv profile channel jira teams webhook : targetCheck profile channel jira teams webhook = true →
  profile = SlackWorkspaceBot ∧ jira = None ∧ teams = None ∨
  profile = JiraCloudV3 ∧ teams = None ∧ channel = "" ∨
  profile = TeamsWorkflows ∧ jira = None ∧ channel = "" ∨
  profile = GenericWebhookV1 ∧ jira = None ∧ teams = None ∧ channel = "".
Proof.
  unfold targetCheck. intros H. breflect_in H. destruct jira, teams; simpl in H; naive_solver.
Qed.

Lemma complete_valid cfg conn f t s a d d' :
  completeIntent cfg conn f t s a d = Ok d' → dl_destination d = None →
  PayloadFields (dl_payload d) = None → validText (cn_name conn) 256 = true →
  targetCheck (dl_profile d') (dl_channel d') (dl_jira d') (DestinationTeams <$> dl_destination d') (dl_webhook d') = true →
  validTarget d' = true.
Proof.
  unfold completeIntent. intros H Hde Hpf Hn Ht%targetCheck_inv. cbv zeta in H. unfold validTarget.
  case_if_in H; [|case_if_in H; [|case_if_in H]].
  - repeat case_if_in H; try discriminate H. injection H as <-. simpl in *. rewrite E in *.
    destruct Ht as [[? _]|[(_ & _ & ->)|[[? _]|[? _]]]]; [done| |done..]. by rewrite E0.
  - destruct (cn_teams conn) as [teams|]; [|discriminate H]. repeat case_if_in H; try discriminate H. injection H as <-.
    simpl in *. rewrite E0 in *. destruct Ht as [[? _]|[[? _]|[(_ & -> & ->)|[? _]]]]; [done..| |done].
    destruct E1 as [[E1 _] _]. rewrite Hn, E1, E2. done.
  - case_if_in H; [discriminate H|]. injection H as <-. rewrite E1, Hde, Hpf in *. destruct E2 as [[[[E2 _] _] _] _].
    destruct Ht as [[? _]|[[? _]|[[? _]|(_ & -> & _ & ->)]]]; [done..|]. by rewrite E2.
  - injection H as <-. rewrite Hde, Hpf in *. destruct Ht as [(-> & -> & _)|[[? _]|[[? _]|[? _]]]]; done.
Qed.

Lemma complete_keeps cfg conn f t s a d d' : completeIntent cfg conn f t s a d = Ok d' →
  dl_workspace_id d' = dl_workspace_id d ∧ dl_policy_id d' = dl_policy_id d ∧ dl_policy_revision d' = dl_policy_revision d ∧
  dl_finding_change_revision d' = dl_finding_change_revision d ∧ dl_connection_id d' = dl_connection_id d ∧
  dl_finding_id d' = dl_finding_id d ∧ dl_trigger_kind d' = dl_trigger_kind d.
Proof.
  unfold completeIntent. cbv zeta. intros H.
  repeat first [case_if_in H; try discriminate H | destruct (cn_teams conn); [|discriminate H]]; injection H as <-; done.
Qed.

(** What [selectedFindingDelivery] answers: the finding's delivery to a
    connection that is enabled. *)
Lemma sessionRole_db session ws env n db x db' n' : sessionRole session ws env n db = mkOut (Ok x) db' n' → db' = db.
Proof. unfold sessionRole. intros. by run_inv. Qed.

Lemma selected_inv cfg ws session f cid env n db d db' n' :
  selectedFindingDelivery cfg ws session f cid env n db = mkOut (Ok d) db' n' →
  db' = db ∧ ∃ conn fi ti se an d0, connectionOf ws cid db = Some conn ∧ completeIntent cfg conn fi ti se an d0 = Ok d ∧
    dl_workspace_id d0 = ws ∧ dl_finding_id d0 = f ∧ dl_connection_id d0 = cid ∧ dl_destination d0 = None ∧
    PayloadFields (dl_payload d0) = None ∧
    dl_policy_id d0 = None ∧ dl_policy_revision d0 = None ∧ dl_finding_change_revision d0 = None ∧ dl_trigger_kind d0 = "".
Proof.
  unfold selectedFindingDelivery. intros (? & ? & ? & [_ ->]%query_inv & H)%bind_inv.
  apply bind_inv in H as (role & ? & ? & ->%sessionRole_db & H).
  apply bind_inv in H as (? & ? & ? & [_ ->]%guard_inv & H). apply bind_inv in H as (v & ? & ? & [_ ->]%query_inv & H).
  apply bind_inv in H as (at_ & ? & ? & [_ ->]%now_inv & H).
  apply bind_inv in H as (conn & ? & ? & [Hc ->]%query_inv & H). apply bind_inv in H as (? & ? & ? & [_ ->]%guard_inv & H).
  apply fromRes_inv in H as [H ->]. destruct (connectionOf ws cid db) as [c|]; [|done]. injection Hc as ->.
  split; [done|]. by repeat eexists; try exact H.
Qed.

(** The tables a queued delivery leaves as they are. *)
Definition sources_kept (db db' : DB) : Prop :=
  t_connections db' = t_connections db ∧ t_policyRevisions db' = t_policyRevisions db ∧ t_changeEvents db' = t_changeEvents db.

Lemma insertDelivery_inv id m env n db rec db' n' :
  insertFindingDelivery id m env n db = mkOut (Ok rec) db' n' →
  deliveryCheck m = true ∧ t_deliveries db !! id = None ∧ rec = {| DlID := id; DlRow := {| dl_meta := m; dl_job := queuedDelivery |} |} ∧
  t_deliveries db' = <[id := {| dl_meta := m; dl_job := queuedDelivery |}]> (t_deliveries db) ∧ sources_kept db db'.
Proof.
  unfold insertFindingDelivery. intros (? & ? & ? & (Hcheck & Hfresh & ->)%insertInto_inv & [<- ->]%ret_inv)%bind_inv.
  destruct (negb _) eqn:Ec in Hcheck; [discriminate Hcheck|]. by apply negb_false_iff, andb_true_iff in Ec as [-> _].
Qed.
Lemma effect_inv (b : bool) id m env n db x db' n' :
  (if b then insertJiraFindingEffect id m else ret tt) env n db = mkOut (Ok x) db' n' →
  t_deliveries db' = t_deliveries db ∧ sources_kept db db'.
Proof. destruct b; [by intros (_ & _ & ->)%insertInto_inv|by intros [_ ->]%ret_inv]. Qed.

(** A new manual delivery. *)
Lemma enqueue_inv cfg ws session f i env n db status rec db' n' :
  validText (eqIdempotencyKey i) 256 = true → enqueueTx cfg ws session f i env n db = mkOut (Ok (status, rec)) db' n' →
  (∀ c, connectionOf ws (eqConnectionID i) db = Some c → validText (cn_name c) 256 = true) →
  status = 200 ∧ db' = db ∨
  status = 202 ∧ t_deliveries db !! DlID rec = None ∧ t_deliveries db' = <[DlID rec := DlRow rec]> (t_deliveries db) ∧
    validDeliveryBinding (DlID rec) (dl_meta (DlRow rec)) = true ∧ sources_kept db db'.
Proof.
  intros Hk H Hname. unfold enqueueTx in H.
  apply bind_inv in H as (d & ? & ? & [-> (conn & fi & ti & se & an & d0 & Hc & Hd & Hws & Hf & Hci & Hde & Hpf & Hp & Hr & Hch & _)]%selected_inv & H).
  apply bind_inv in H as (? & ? & ? & [_ ->]%fromRes_inv & H). apply bind_inv in H as (id & ? & ? & [_ ->]%newID_inv & H).
  apply bind_inv in H as (at_ & ? & ? & [_ ->]%now_inv & H). cbv zeta in H.
  apply bind_inv in H as (? & ? & ? & [_ ->]%query_inv & H). apply bind_inv in H as (found & ? & ? & [_ ->]%query_inv & H).
  destruct found as [[rid r]|].
  { left. apply bind_inv in H as (? & ? & ? & [_ ->]%guard_inv & [[= <- _] ->]%ret_inv). done. }
  right. apply bind_inv in H as (? & dbx & ? & Hg & H).
  assert (dbx = db) as ->. { case_if_in Hg; [unfold lockDeliveryKey, jiraFindingEffect in Hg|]; by run_inv. }
  clear Hg. apply bind_inv in H as (? & db1 & ? & (Hcheck & Hfresh & -> & Hdel & Hk1)%insertDelivery_inv & H).
  apply bind_inv in H as (? & db2 & ? & [Hdel2 Hk2]%effect_inv & [[= <- <-] ->]%ret_inv).
  destruct Hk1 as (? & ? & ?), Hk2 as (? & ? & ?). unfold sources_kept. split_and!; try (done || congruence); [by rewrite Hdel2|]. simpl.
  unfold deliveryCheck in Hcheck. rewrite !andb_true_iff in Hcheck.
  destruct Hcheck as [[_ Ec] _]. destruct (complete_keeps _ _ _ _ _ _ _ _ Hd) as (? & ? & ? & ? & ? & ? & _).
  assert (validTarget d = true) as Hv by (eapply complete_valid; eauto).
  apply manual_valid; cbn [dl_intent dl_idempotency_key dl_approval_ref dl_binding_digest]; try (reflexivity || assumption);
    cbn; congruence.
Qed.

(** ** Queueing keeps the table verifiable *)

(** What the rows a delivery is made from look like: connections have valid
    names, policies and findings identifiers of their own, and counters that
    fit their columns. *)
Definition queue_sources (db : DB) : Prop :=
  (∀ id c, t_connections db !! id = Some c → validText (cn_name c) 256 = true) ∧
  (∀ id r, t_policyRevisions db !! id = Some r → validID (nr_policy_id r) = true ∧ 1 ≤ pt_revision (nr_terms r)) ∧
  (∀ id e, t_changeEvents db !! id = Some e → validID (ce_finding_id e) = true ∧ 0 < ce_change_revision e < 2 ^ 63).

Definition verified (db : DB) : Prop :=
  ∀ id r, t_deliveries db !! id = Some r → validDeliveryBinding id (dl_meta r) = true.

Definition keeps_verified (db db' : DB) : Prop :=
  queue_sources db → verified db → queue_sources db' ∧ verified db'.
#[export] Instance keeps_verified_preorder : PreOrder keeps_verified.
Proof. split; [done|]. intros a b c H1 H2 Hs Hv. destruct (H1 Hs Hv). auto. Qed.

Lemma connection_name ws id c db : queue_sources db → connectionOf ws id db = Some c → validText (cn_name c) 256 = true.
Proof.
  intros (Hn & _) Hc. unfold connectionOf in Hc. destruct (t_connections db !! id) eqn:E; [|done].
  case_if_in Hc; [|done]. injection Hc as <-. eauto.
Qed.
Lemma sources_kept_ok db db' : sources_kept db db' → queue_sources db → queue_sources db'.
Proof. intros (Hc & Hp & He). unfold queue_sources. by rewrite Hc, Hp, He. Qed.
Lemma verified_insert db db' id r : verified db → t_deliveries db' = <[id := r]> (t_deliveries db) →
  validDeliveryBinding id (dl_meta r) = true → verified db'.
Proof.
  intros Hv Hd Hr k x. rewrite Hd, lookup_insert. destruct (decide (id = k)) as [->|]; [by intros [= <-]|apply Hv].
Qed.

Lemma enqueue_keeps cfg ws session f i : Steps keeps_verified (enqueueFindingDelivery cfg ws session f i).
Proof.
  intros env n db. unfold enqueueFindingDelivery. unfold bind at 1.
  destruct (guard _ _ _ _ _) as [[?|e] db1 n1] eqn:Hg; simpl; [|by destruct (_ && _); injection Hg as _ <- _].
  apply guard_inv in Hg as [[_ Hk]%andb_true_iff ->]. apply steps_bind; [apply _|steps|]. intros _.
  apply steps_transaction_ok; [apply _|]. intros env' m s [status rec] s' n' H Hs Hv.
  apply enqueue_inv in H; [|done|intros c; by apply connection_name].
  destruct H as [(_ & ->)|(_ & Hfresh & Hd & Hb & Hk')]; [done|].
  split; [by eapply sources_kept_ok|by eapply verified_insert].
Qed.

Lemma policyEvent_keeps e p t o d : Steps keeps_verified (insertNotificationPolicyEvent e p t o d).
Proof.
  unfold insertNotificationPolicyEvent. steps. apply steps_insertInto; [apply _|]. intros db _ _ Hs Hv. done.
Qed.

(** The steps of one evaluation are taken with a policy of the table. *)
Definition terms_ok (p : string * PolicyTerms) : Prop := validID p.1 = true ∧ 1 ≤ pt_revision p.2.

Lemma ok_keeps {A} (m : M DB A) env n db a db' n' :
  Steps keeps_verified m → m env n db = mkOut (Ok a) db' n' → keeps_verified db db'.
Proof. intros Hm Hr. specialize (Hm env n db). by rewrite Hr in Hm. Qed.

Lemma queuePolicy_keeps w e policy t conn env n db x db' n' :
  queuePolicyDelivery w e policy t conn env n db = mkOut (Ok x) db' n' → terms_ok (policy, t) →
  validID (ce_finding_id e) = true → 0 < ce_change_revision e < 2 ^ 63 → validText (cn_name conn) 256 = true →
  keeps_verified db db'.
Proof.
  unfold queuePolicyDelivery. intros H [Hp Hr] Hf Hc Hn.
  destruct (policyFindingDelivery w e policy t conn) as [d|] eqn:Hd.
  2: { apply infra_inv in H. eapply ok_keeps; [apply policyEvent_keeps|exact H]. }
  apply bind_inv in H as (id & ? & ? & [_ ->]%newID_inv & H). apply bind_inv in H as (at_ & ? & ? & [_ ->]%now_inv & H).
  cbv zeta in H. apply bind_inv in H as (? & db1 & ? & (_ & Hfresh & -> & Hdel & Hk1)%infra_inv%insertDelivery_inv & H).
  apply bind_inv in H as (? & db2 & ? & Hj & H).
  assert (t_deliveries db2 = t_deliveries db1 ∧ sources_kept db1 db2) as [Hdel2 Hk2].
  { case_if_in Hj; [apply infra_inv in Hj; by apply (effect_inv true) in Hj|by apply ret_inv in Hj as [_ ->]]. }
  apply infra_inv in H. intros Hs Hv. rewrite <-Hdel2 in Hdel.
  eapply (ok_keeps _ _ _ _ _ _ _ (policyEvent_keeps _ _ _ _ _) H); [exact (sources_kept_ok _ _ Hk2 (sources_kept_ok _ _ Hk1 Hs))|].
  eapply verified_insert; [done|exact Hdel|]. cbn [dl_meta]. eapply policy_valid; eauto. simpl in Hc. lia.
Qed.

Lemma evaluateRevision_keeps w e p env n db x db' n' :
  evaluateRevision w e p env n db = mkOut (Ok x) db' n' → terms_ok p →
  validID (ce_finding_id e) = true → 0 < ce_change_revision e < 2 ^ 63 → keeps_verified db db'.
Proof.
  intros H Hp Hf Hc. unfold evaluateRevision in H. destruct p as [policy t].
  case_if_in H; [by apply ret_inv in H as [_ ->]|].
  apply bind_inv in H as (conn & ? & ? & [[= Hq] ->]%infra_inv%query_inv & H).
  case_if_in H; [apply infra_inv in H; eapply ok_keeps; [apply policyEvent_keeps|exact H]|].
  destruct conn as [c|]; [|by apply ret_inv in H as [_ ->]]. 
  assert (∀ n, queuePolicyDelivery w e policy t c env n db = mkOut (Ok x) db' n' → keeps_verified db db') as Hqueue.
  { intros n2 Hq2 Hs. eapply queuePolicy_keeps; eauto. by eapply connection_name. }
  case_if_in H; [|by eapply Hqueue].
  apply bind_inv in H as (? & ? & ? & [_ ->]%infra_inv%query_inv & H).
  apply bind_inv in H as ([existing|] & ? & ? & [_ ->]%infra_inv%query_inv & H); [|by eapply Hqueue].
  apply infra_inv in H. eapply ok_keeps; [apply policyEvent_keeps|exact H].
Qed.

(** A policy in force is a revision of the table. *)
Lemma latestAt_row ws epoch db policy t : latestAt ws epoch db policy = Some t →
  ∃ id r, t_policyRevisions db !! id = Some r ∧ nr_terms r = t ∧ nr_policy_id r = policy ∧ nr_workspace_id r = ws ∧ pt_epoch t ≤ epoch.
Proof.
  unfold latestAt. destruct (argmin _ _) as [[id t']|] eqn:E; [|done]. intros [= <-].
  apply argmin_elem, list_elem_of_fmap in E as ([id' r] & [= -> ->] & Hin).
  unfold rowsById in Hin. rewrite merge_sort_Permutation, elem_of_rowsWhere in Hin. destruct Hin as [Hr Hb]. breflect_in Hb. destruct Hb as [[? ?] ?]. exists id', r. by split_and!.
Qed.
Lemma revisionsAt_row ws epoch db policy t : (policy, t) ∈ revisionsAt ws epoch db → latestAt ws epoch db policy = Some t.
Proof.
  unfold revisionsAt. intros (p & _ & H)%list_elem_of_omap. destruct (latestAt ws epoch db p) eqn:E; [|done]. by injection H as <- <-.
Qed.

Lemma evaluate_keeps w id claimed : Steps keeps_verified (evaluateFindingChangeEvent w id claimed).
Proof.
  unfold evaluateFindingChangeEvent. apply steps_handle; [apply _| |unfold infraErr; steps].
  apply steps_transaction_ok; [apply _|]. unfold evaluateTx. cbv zeta. intros env n db x db' n' H Hs Hv.
  apply bind_inv in H as (found & ? & ? & [[= Hq] ->]%infra_inv%query_inv & H). destruct found as [e|]; [|done].
  destruct (t_changeEvents db !! id) as [e0|] eqn:He; [|done]. simpl in Hq. case_if_in Hq; [|done]. injection Hq as ->.
  apply bind_inv in H as (revs & ? & ? & [[= Hrevs] ->]%infra_inv%query_inv & H).
  apply bind_inv in H as ([] & db1 & ? & Hfold & H).
  destruct Hs as (Hn & Hr & Hc). destruct (Hc id e He) as [Hf Hch].
  assert (keeps_verified db db1) as Hk.
  { eapply foldM_steps; [apply _| |exact Hfold]. intros [policy t] env0 n0 db0 b0 y0 db2 n2 Hin H1. eapply evaluateRevision_keeps; [exact H1| |done|done].
    rewrite <-Hrevs in Hin. apply revisionsAt_row, latestAt_row in Hin as (i & r & Hi & <- & <- & _). by apply Hr in Hi. }
  destruct Hk as [Hs1 Hv1]; [by split_and!|done|].
  apply bind_inv in H as (hit & db2 & ? & Hx%infra_inv%exec_inv & H). apply guard_inv in H as [_ ->].
  pose proof Hs1 as (Hn1 & Hr1 & Hc1). destruct (t_changeEvents db1 !! id) as [e1|] eqn:Hx1; [|injection Hx as _ <-; exact (conj Hs1 Hv1)]. case_if_in Hx; [|injection Hx as _ <-; exact (conj Hs1 Hv1)].
  injection Hx as _ <-. split; [|done]. split_and!; [done..|]. simpl.
  intros i y. rewrite lookup_insert. destruct (decide (id = i)) as [<-|]; [|apply Hc1]. intros [= <-]. by apply Hc1 in Hx1.
Qed.
End bindings.

(** ** The theorem *)

(** Steps between databases whose sources are as the handlers leave them. *)
Definition sourced_step `{!Gateway} (s s' : dsys) : Prop := delivery_step s s' ∧ queue_sources (sysDB s').

Lemma evolves_verified `{GW : Gateway} db db' : evolves db db' → verified db →
  (∀ i, is_Some (t_deliveries db' !! i) → is_Some (t_deliveries db !! i)) → verified db'.
Proof.
  intros [He _] Hv Hnew i r' Hr'. destruct (Hnew i) as [r Hr]; [by eexists|].
  destruct (He i r Hr) as (r2 & Hr2 & Hs%dsteps_meta). simplify_eq. rewrite Hs. by apply Hv.
Qed.

(** The worker's own steps add no row. *)
Definition no_new (db db' : DB) : Prop := ∀ i, is_Some (t_deliveries db' !! i) → is_Some (t_deliveries db !! i).
#[export] Instance no_new_preorder : PreOrder no_new.
Proof. split; [by intros a i|]. intros a b c H1 H2 i Hi. by apply H1, H2. Qed.
Lemma no_new_update db i r : is_Some (t_deliveries db !! i) → no_new db (with_deliveries (<[i := r]> (t_deliveries db)) db).
Proof. intros H k. simpl. rewrite lookup_insert. by destruct (decide (i = k)) as [->|]. Qed.
Lemma updateDelivery_no_new ws i P f db : no_new db (snd (updateDelivery ws i P f db)).
Proof.
  unfold updateDelivery. destruct (t_deliveries db !! i) eqn:E; [|done]. case_if; [|done]. by apply no_new_update; rewrite E.
Qed.
Lemma finishRow_no_new w ds s receipt failure : Steps no_new (finishRow w ds s receipt failure).
Proof.
  unfold finishRow. apply steps_exec; [apply _|]. intros t db.
  pose proof (updateDelivery_no_new (dl_workspace_id (dsIntent ds)) (DlID (dsRecord ds)) (heldBy w (dsFence ds) t)
    (finished s receipt failure t) db) as H. by destruct (updateDelivery _ _ _ _ _).
Qed.
#[local] Hint Resolve finishRow_no_new : steps.

(** Only requests and evaluations queue. *)
Lemma step_cases `{GW : Gateway} s s' : delivery_step s s' →
  (∃ cfg ws session f i env n, sysDB s' = out_db (enqueueFindingDelivery cfg ws session f i env n (sysDB s))) ∨
  (∃ w id e env n, sysDB s' = out_db (evaluateFindingChangeEvent w id e env n (sysDB s))) ∨
  no_new (sysDB s) (sysDB s').
Proof.
  destruct 1; [left; by repeat eexists|right; left; by repeat eexists|right; right; unfold sysDB; simpl; try done..].
  - subst o. enough (Steps no_new (claimDelivery nv w)) as H by apply H. unfold claimDelivery.
    apply steps_handle; [apply _| |unfold infraErr; steps]. apply steps_transaction_ok; [apply _|].
    intros ? ? db x db' ? (i & r & Hr & _ & H)%claimTx_inv.
    destruct x; [destruct H as (t & _ & _ & ->)|destruct H as (? & ? & ? & _ & _ & ->)]; apply no_new_update; by rewrite Hr.
  - subst o. enough (Steps no_new (markDeliveryAttempt w ds)) as Hm by apply Hm. apply steps_transactionVal; [apply _|].
    intros ? ? db cur db' ? (r & t & Hr & _ & _ & -> & _)%markTx_inv. apply no_new_update. by rewrite Hr.
  - enough (Steps no_new (finishDelivery w ds st receipt failure)) as Hm by apply Hm. unfold finishDelivery. steps.
  - enough (Steps no_new (finishGuardedDelivery w ds st receipt failure)) as Hm by apply Hm.
    unfold finishGuardedDelivery, finishGuardedTx, deliveryDispatchAuthority, lockWorkspace, infraErr. steps.
  - unfold no_new, sysDB in *. by rewrite H.
Qed.

Lemma step_verified `{GW : Gateway} s s' : sourced_step s s' → queue_sources (sysDB s) → verified (sysDB s) → verified (sysDB s').
Proof.
  intros [Hs _] Hq Hv. destruct (step_cases s s' Hs) as [(? & ? & ? & ? & ? & ? & ? & ->)|[(? & ? & ? & ? & ? & ->)|Hn]].
  - by eapply enqueue_keeps.
  - by eapply evaluate_keeps.
  - eapply evolves_verified; [by apply step_evolves|done..].
Qed.

Lemma admit_reason `{GW : Gateway} nv w rec env n db reason token cred db' n' :
  admitDelivery nv w rec env n db = mkOut (Ok (reason, token, cred)) db' n' →
  validDeliveryBinding (DlID rec) (dl_meta (DlRow rec)) = true → reason ≠ "binding-changed".
Proof.
  unfold admitDelivery. intros H Hv. rewrite Hv in H.
  apply bind_inv in H as (role & ? & ? & [_ ->]%infra_inv%query_inv & H). cbv zeta in H.
  assert (∀ d c, connectionReason w d c ≠ "binding-changed") as Hc.
  { intros d c. unfold connectionReason. destruct c; [|done]. by repeat case_if. }
  assert (∀ d c t, openReason nv w d c t ≠ "binding-changed") as Ho.
  { intros d c t. unfold openReason, clientReason. by repeat (case_if || case_match). }
  case_if_in H; [apply ret_inv in H as [[= <- _ _] _]; destruct role; by repeat case_if|].
  apply bind_inv in H as (conn & ? & ? & [_ ->]%infra_inv%query_inv & H).
  destruct conn as [c|]; [|by apply ret_inv in H as [[= <- _ _] _]]. case_if_in H; [apply ret_inv in H as [[= <- _ _] _]; exact (Hc (recIntent rec) (Some c))|].
  destruct (openConnectionToken _ _ _ _ _); [|by apply ret_inv in H as [[= <- _ _] _]].
  apply bind_inv in H as (? & ? & ? & _ & H). apply bind_inv in H as (? & ? & ? & _ & H).
  apply ret_inv in H as [[= <- _ _] _]. apply Ho.
Qed.

(** C17: What the system queues passes the worker's check. Under any
    interleaving of requests, policy evaluations and workers, with any
    failures, through databases whose connections, policy revisions and change
    events have the form the handlers write ([queue_sources]), every row of the table recomputes to the digest it is stored
    with, has a target that fits its profile and a key and an approval that
    fit its trigger; so the worker never blocks a delivery as changed since it
    was bound. *)
Theorem queued_deliveries_verify `{GW : Gateway} s s' :
  rtc sourced_step s s' → queue_sources (sysDB s) → verified (sysDB s) →
  verified (sysDB s') ∧
  ∀ nv w id r env n reason token cred db n', t_deliveries (sysDB s') !! id = Some r →
    admitDelivery nv w {| DlID := id; DlRow := r |} env n (sysDB s') = mkOut (Ok (reason, token, cred)) db n' →
    reason ≠ "binding-changed".
Proof.
  intros Hs Hq Hv. enough (verified (sysDB s')) as Hv' by (split; [done|]; intros * Hr Ha; eapply admit_reason; eauto).
  revert Hq Hv. induction Hs as [|s1 s2 s3 H12]; [done|]. intros Hq Hv.
  apply IHHs; [apply H12|]. by eapply step_verified.
Qed.

(** A queued policy delivery and a manual one, as the example's tables make them. *)
Lemma queued_deliveries_verify_witness :
  let s := {| sysNet := mkNet deliveryDB []; sysClaimed := []; sysMarked := [] |} in
  let s' := withDB (out_db (enqueueFindingDelivery exampleConfig "ws" deliverySession findingID (enqueueHook "k") calm 0%nat deliveryDB)) s in
  (∃ r, t_deliveries (sysDB s') !! "id-8" = Some r) ∧ verified (sysDB s').
Proof.
  intros s s'. split; [eexists; vm_compute; reflexivity|].
  assert (queue_sources deliveryDB) as Hq.
  { split_and!; intros id x Hx; [|done..]. apply elem_of_map_to_list in Hx. vm_compute in Hx.
    repeat (apply elem_of_cons in Hx as [Hx|Hx]; [injection Hx as -> ->; vm_compute; reflexivity|]). by apply elem_of_nil in Hx. }
  assert (verified deliveryDB) as Hv by done.
  refine (proj1 (queued_deliveries_verify s s' _ Hq Hv)). apply rtc_once. split.
  - exact (dv_enqueue s exampleConfig "ws" deliverySession findingID (enqueueHook "k") calm 0%nat).
  - exact (proj1 (enqueue_keeps exampleConfig "ws" deliverySession findingID (enqueueHook "k") calm 0%nat deliveryDB Hq Hv)).
Defined.
