(* ===== verification/DeliveryTickets.v ===== *)
(** * One Jira ticket per finding and connection

    A person and any number of policies may ask for a ticket; the table
    jira_finding_effects lets only the first of them through. *)
From S2P Require Import Prelude GoLib Encoding Tx ReportAdapter Schema Auth Intake Reconcile Paging Assets WorkViews Work Reports Connections Deliveries DeliveryWorker Notifications DeliveryExample DeliveryProps DeliveryBindings.
Local Open Scope Z_scope.

Definition ticket (r : DeliveryRow) : string * string * string :=
  let d := dl_intent (dl_meta r) in (dl_workspace_id d, dl_connection_id d, dl_finding_id d).
Definition isTicket (r : DeliveryRow) : Prop := dl_profile (dl_intent (dl_meta r)) = JiraCloudV3.

(** While the finding exists its ticket is reserved, and it has no second one. *)
Record tickets_ok (db : DB) : Prop := {
  tk_reserved i r : t_deliveries db !! i = Some r → isTicket r → is_Some (t_findings db !! (ticket r).2) →
    ∃ at_, t_jiraEffects db !! ticket r = Some (i, at_);
  tk_once i r i' r' : t_deliveries db !! i = Some r → t_deliveries db !! i' = Some r' → isTicket r → isTicket r' →
    ticket r = ticket r' → i = i' }.

(** Reservations of findings that exist stay, and no finding appears under the
    identifier of one that was delivered. *)
Record tickets_kept (db db' : DB) : Prop := {
  tp_effects k x : t_jiraEffects db !! k = Some x → is_Some (t_findings db' !! k.2) → t_jiraEffects db' !! k = Some x;
  tp_findings i r : t_deliveries db !! i = Some r → is_Some (t_findings db' !! (ticket r).2) →
    is_Some (t_findings db !! (ticket r).2) }.

(** Without a new delivery nothing can go wrong. *)
Lemma tickets_evolve db db' : evolves db db' → no_new db db' → tickets_kept db db' → tickets_ok db → tickets_ok db'.
Proof.
  intros [He _] Hn [Hk Hf] [Hr Ho].
  assert (∀ i r', t_deliveries db' !! i = Some r' → ∃ r, t_deliveries db !! i = Some r ∧ dl_meta r' = dl_meta r) as Hback.
  { intros i r' Hr'. destruct (Hn i) as [r Hi]; [by eexists|]. exists r. split; [done|].
    destruct (He i r Hi) as (r2 & ? & ?%dsteps_meta). by simplify_eq. }
  assert (∀ r r', dl_meta r' = dl_meta r → ticket r' = ticket r ∧ (isTicket r' ↔ isTicket r)) as Hsame.
  { intros r r' Hm. unfold ticket, isTicket. by rewrite Hm. }
  split.
  - intros i r' Hr' Ht Hfi. destruct (Hback i r' Hr') as (r & Hi & [Htk Hti]%Hsame). rewrite Htk in *.
    destruct (Hr i r Hi) as [at_ Ha]; [by apply Hti|by eapply Hf|]. exists at_. by apply Hk.
  - intros i r' i' r2' Hi Hi' Ht Ht' Heq.
    destruct (Hback i r' Hi) as (r & Hri & [Htk Hti]%Hsame), (Hback i' r2' Hi') as (r2 & Hri2 & [Htk2 Hti2]%Hsame).
    eapply (Ho i r i' r2); [done..|by apply Hti|by apply Hti2|congruence].
Qed.

(** A queued delivery with its reservation. *)
Lemma queue_tickets id m env n db rec db1 n1 x env' n' db2 n2 (b : bool) :
  b = bool_decide (dl_profile (dl_intent m) = JiraCloudV3) →
  insertFindingDelivery id m env n db = mkOut (Ok rec) db1 n1 →
  (if b then insertJiraFindingEffect id m else ret tt) env' n' db1 = mkOut (Ok x) db2 n2 →
  tickets_ok db → tickets_ok db2.
Proof.
  intros Hb Hi Hj [Hr Ho]. unfold insertFindingDelivery in Hi.
  apply bind_inv in Hi as (? & ? & ? & (_ & Hfresh & ->)%insertInto_inv & [_ ->]%ret_inv).
  set (row := {| dl_meta := m; dl_job := queuedDelivery |}) in *.
  destruct b; symmetry in Hb; [apply bool_decide_eq_true in Hb|apply bool_decide_eq_false in Hb].
  - unfold insertJiraFindingEffect in Hj. apply insertInto_inv in Hj as (Hc & Hn & ->).
    change (t_jiraEffects db !! ticket row = None) in Hn.
    assert (is_Some (t_findings db !! (ticket row).2)) as Hfi.
    { destruct (negb _) eqn:En in Hc; [discriminate Hc|]. apply negb_false_iff in En. rewrite !andb_true_iff in En.
      destruct En as [[_ En] _]. change (t_findings db !! (ticket row).2) with (t_findings db !! dl_finding_id (dl_intent m)).
      simpl in En. by destruct (t_findings db !! dl_finding_id (dl_intent m)). }
    assert (∀ i r, t_deliveries db !! i = Some r → isTicket r → ticket r ≠ ticket row) as Hnone.
    { intros i r Hi Ht Heq. destruct (Hr i r Hi Ht) as [at_ Ha]; [by rewrite Heq|]. rewrite Heq in Ha. congruence. }
    split; simpl.
    + intros i r. rewrite lookup_insert. destruct (decide (id = i)) as [<-|].
      * intros [= <-] _ _. eexists. apply lookup_insert_eq.
      * intros Hi Ht Hf. destruct (Hr i r Hi Ht Hf) as [at_ Ha]. exists at_. rewrite lookup_insert_ne; [done|].
        intros Heq. apply (Hnone i r Hi Ht). by rewrite <-Heq.
    + intros i r i' r'. rewrite !lookup_insert. destruct (decide (id = i)) as [<-|], (decide (id = i')) as [<-|]; [done| | |].
      * intros [= <-] Hi' _ Ht' Heq. by destruct (Hnone i' r' Hi' Ht').
      * intros Hi [= <-] Ht _ Heq. by destruct (Hnone i r Hi Ht).
      * apply Ho.
  - apply ret_inv in Hj as [_ ->]. split; simpl.
    + intros i r. rewrite lookup_insert. destruct (decide (id = i)) as [<-|]; [by intros [= <-]|apply Hr].
    + intros i r i' r'. rewrite !lookup_insert.
      destruct (decide (id = i)) as [<-|], (decide (id = i')) as [<-|]; [done|by intros [= <-]|by intros ? [= <-]|apply Ho].
Qed.

Definition keeps_tickets (db db' : DB) : Prop := tickets_ok db → tickets_ok db'.
#[export] Instance keeps_tickets_preorder : PreOrder keeps_tickets.
Proof. split; [by intros ? ?|]. intros a b c H1 H2 H. auto. Qed.

Section system.
Context {GW : Gateway}.

Lemma enqueue_tickets cfg ws session f i : Steps keeps_tickets (enqueueFindingDelivery cfg ws session f i).
Proof.
  unfold enqueueFindingDelivery. apply steps_bind; [apply _|steps|]. intros _. apply steps_bind; [apply _|steps|]. intros _.
  apply steps_transaction_ok; [apply _|]. intros env n db [status rec] db' n' H. unfold enqueueTx in H.
  apply bind_inv in H as (d & ? & ? & [-> _]%selected_inv & H).
  apply bind_inv in H as (? & ? & ? & [_ ->]%fromRes_inv & H). apply bind_inv in H as (id & ? & ? & [_ ->]%newID_inv & H).
  apply bind_inv in H as (at_ & ? & ? & [_ ->]%now_inv & H). cbv zeta in H.
  apply bind_inv in H as (? & ? & ? & [_ ->]%query_inv & H). apply bind_inv in H as (found & ? & ? & [_ ->]%query_inv & H).
  destruct found as [[rid r]|].
  { apply bind_inv in H as (? & ? & ? & [_ ->]%guard_inv & [_ ->]%ret_inv). by intros ?. }
  apply bind_inv in H as (? & dbx & ? & Hg & H).
  assert (dbx = db) as ->. { case_if_in Hg; [unfold lockDeliveryKey, jiraFindingEffect in Hg|]; by run_inv. }
  apply bind_inv in H as (? & db1 & ? & Hi & H). apply bind_inv in H as (? & db2 & ? & Hj & [_ ->]%ret_inv).
  exact (queue_tickets _ _ _ _ _ _ _ _ _ _ _ _ _ _ eq_refl Hi Hj).
Qed.

Lemma policyEvent_tickets e p t o d env n db x db' n' :
  insertNotificationPolicyEvent e p t o d env n db = mkOut (Ok x) db' n' → keeps_tickets db db'.
Proof.
  unfold insertNotificationPolicyEvent. intros H. apply bind_inv in H as (id & ? & ? & [_ ->]%newID_inv & H).
  apply bind_inv in H as (at_ & ? & ? & [_ ->]%now_inv & H). cbv zeta in H. apply insertInto_inv in H as (_ & _ & ->).
  intros [Hr Ho]. by split.
Qed.

Lemma queuePolicy_tickets w e policy t conn env n db x db' n' :
  queuePolicyDelivery w e policy t conn env n db = mkOut (Ok x) db' n' → keeps_tickets db db'.
Proof.
  unfold queuePolicyDelivery. intros H. destruct (policyFindingDelivery w e policy t conn) as [d|].
  2: { apply infra_inv in H. by eapply policyEvent_tickets. }
  apply bind_inv in H as (id & ? & ? & [_ ->]%newID_inv & H). apply bind_inv in H as (at_ & ? & ? & [_ ->]%now_inv & H).
  cbv zeta in H. apply bind_inv in H as (? & db1 & ? & Hi%infra_inv & H). apply bind_inv in H as (? & db2 & n2 & Hj & H).
  apply infra_inv in H. etransitivity; [|by eapply policyEvent_tickets].
  intros Hok. eapply (queue_tickets id _ _ _ _ _ _ _ _ env _ _ n2 _ eq_refl Hi); [|exact Hok]. cbn [dl_intent].
  revert Hj. destruct (bool_decide _); [|intros Hj; exact Hj]. apply infra_inv.
Qed.

Lemma evaluateRevision_tickets w e p env n db x db' n' :
  evaluateRevision w e p env n db = mkOut (Ok x) db' n' → keeps_tickets db db'.
Proof.
  intros H. unfold evaluateRevision in H. destruct p as [policy t].
  case_if_in H; [by apply ret_inv in H as [_ ->]|].
  apply bind_inv in H as (conn & ? & ? & [[= Hq] ->]%infra_inv%query_inv & H).
  case_if_in H; [apply infra_inv in H; by eapply policyEvent_tickets|].
  destruct conn as [c|]; [|by apply ret_inv in H as [_ ->]].
  case_if_in H; [|by eapply queuePolicy_tickets].
  apply bind_inv in H as (? & ? & ? & [_ ->]%infra_inv%query_inv & H).
  apply bind_inv in H as ([existing|] & ? & ? & [_ ->]%infra_inv%query_inv & H); [|by eapply queuePolicy_tickets].
  apply infra_inv in H. by eapply policyEvent_tickets.
Qed.

Lemma evaluate_tickets w id claimed : Steps keeps_tickets (evaluateFindingChangeEvent w id claimed).
Proof.
  unfold evaluateFindingChangeEvent. apply steps_handle; [apply _| |unfold infraErr; steps].
  apply steps_transaction_ok; [apply _|]. unfold evaluateTx. cbv zeta. intros env n db x db' n' H.
  apply bind_inv in H as (found & ? & ? & [_ ->]%infra_inv%query_inv & H). destruct found as [e|]; [|done].
  apply bind_inv in H as (revs & ? & ? & [_ ->]%infra_inv%query_inv & H).
  apply bind_inv in H as ([] & db1 & ? & Hfold & H). apply bind_inv in H as (hit & db2 & ? & Hx%infra_inv%exec_inv & [_ ->]%guard_inv).
  etransitivity.
  - eapply foldM_steps; [apply _| |exact Hfold]. intros p env0 n0 db0 b0 y0 db2' n2 _ H1. exact (evaluateRevision_tickets _ _ _ _ _ _ _ _ _ H1).
  - destruct (t_changeEvents db1 !! id) as [e1|]; [|injection Hx as _ <-; reflexivity]. case_if_in Hx; injection Hx as _ <-; [|reflexivity].
    intros [Hr Ho]. by split.
Qed.

(** ** The theorem *)

(** Steps under which findings are not given the identifiers of others. *)
Definition ticket_step (s s' : dsys) : Prop := delivery_step s s' ∧ tickets_kept (sysDB s) (sysDB s').

Lemma step_tickets s s' : ticket_step s s' → tickets_ok (sysDB s) → tickets_ok (sysDB s').
Proof.
  intros [Hs Hk]. destruct (step_cases s s' Hs) as [(? & ? & ? & ? & ? & ? & ? & ->)|[(? & ? & ? & ? & ? & ->)|Hn]].
  - apply enqueue_tickets.
  - apply evaluate_tickets.
  - apply tickets_evolve; [by apply step_evolves|done..].
Qed.
End system.

(** Deleting an asset is such a step: it keeps the reservations of the
    findings that stay. *)
Lemma deleteAsset_tickets blocked ws id env n db : tickets_kept db (out_db (deleteAsset blocked ws id env n db)).
Proof.
  enough (∀ db', out_db (deleteAsset blocked ws id env n db) = db' → db' = db ∨ db' = cascade ws id db) as H.
  { destruct (H _ eq_refl) as [->| ->]; [split; auto|]. split; simpl.
    - intros k x Hk [f Hf]. rewrite lookup_deleteRows in Hf. rewrite lookup_deleteRows, Hk. simpl.
      destruct (t_findings db !! k.2) as [f0|] eqn:Ef; [|discriminate Hf]. simpl in Hf. unfold findingGone. rewrite Ef.
      destruct (findingOf ws id f0); [discriminate Hf|reflexivity].
    - intros i r _ [f Hf]. rewrite lookup_deleteRows in Hf. destruct (t_findings db !! _); [by eexists|discriminate Hf]. }
  intros db' <-. unfold deleteAsset, bind, stmt, guard. case_if; [by left|].
  destruct (t_assets db !! id) as [a|]; simpl; [|by left]. repeat case_if; simpl; auto.
Qed.

(** C16: At most one ticket. However people and policies ask, and whatever
    fails in between, no two Jira deliveries are ever queued for the same
    finding through the same connection of a workspace, and while the finding
    exists its one delivery holds the reservation; the deletion of an asset
    keeps the reservations of the findings that stay. *)
Theorem one_ticket_per_finding `{GW : Gateway} s s' :
  rtc ticket_step s s' → tickets_ok (sysDB s) →
  tickets_ok (sysDB s') ∧
  ∀ blocked ws id env n, tickets_kept (sysDB s') (out_db (deleteAsset blocked ws id env n (sysDB s'))).
Proof.
  intros Hs Hok. split; [|intros; apply deleteAsset_tickets]. induction Hs; eauto using step_tickets.
Qed.

(** Two requests for the same ticket: the second is refused as a conflict. *)
Definition enqueueJira (key : string) : enqueueInput :=
  {| eqConnectionID := jiraID; eqIdempotencyKey := key; eqPreviewDigest := field (previewOf jiraID);
     eqConfirm := field (Some true) |}.
Definition ticketDB : DB := out_db (enqueueFindingDelivery exampleConfig "ws" deliverySession findingID (enqueueJira "k") calm 0%nat deliveryDB).
(** Without deliveries and reservations there is nothing to keep. *)
Lemma no_tickets db db' : t_deliveries db = ∅ → t_jiraEffects db = ∅ → tickets_ok db ∧ tickets_kept db db'.
Proof. intros Hd He. split; split; rewrite ?Hd, ?He; intros *; by rewrite lookup_empty. Qed.

Lemma one_ticket_per_finding_witness :
  length (map_to_list (t_deliveries ticketDB)) = 1%nat ∧
  out_res (enqueueFindingDelivery exampleConfig "ws" deliverySession findingID (enqueueJira "other") calm 50%nat ticketDB) = Err errConflict ∧
  tickets_ok ticketDB.
Proof.
  split; [vm_compute; reflexivity|]. split; [vm_compute; reflexivity|].
  set (s := {| sysNet := mkNet deliveryDB []; sysClaimed := []; sysMarked := [] |}).
  destruct (no_tickets deliveryDB ticketDB eq_refl eq_refl) as [Hok Hk].
  exact (proj1 (one_ticket_per_finding s (withDB ticketDB s)
    (rtc_once _ _ (conj (dv_enqueue s exampleConfig "ws" deliverySession findingID (enqueueJira "k") calm 0%nat) Hk)) Hok)).
Defined.

(** ** Consent *)

(** Nothing leaves that was not agreed to. A request for a delivery is
    answered either with the delivery that the workspace already has under the
    key, bound to the same digest and still matching it, and then nothing is
    written; or with one new queued delivery, of this finding to this
    connection on behalf of the caller, and then, for a Jira, Teams or webhook
    connection, the caller confirmed the digest of exactly what was queued. *)
Theorem delivery_consent {GW : Gateway} cfg ws session f i env n db status rec db' n' :
  enqueueFindingDelivery cfg ws session f i env n db = mkOut (Ok (status, rec)) db' n' →
  let m := dl_meta (DlRow rec) in
  dl_workspace_id (dl_intent m) = ws ∧ dl_idempotency_key m = eqIdempotencyKey i ∧
  t_deliveries db' !! DlID rec = Some (DlRow rec) ∧
  (guarded (dl_profile (dl_intent m)) = true → status = 202 →
     Value (eqConfirm i) = Some true ∧ Value (eqPreviewDigest i) = Some (previewText (deliveryBinding (dl_intent m)))) ∧
  (status = 200 ∧ db' = db ∧ validDeliveryBinding (DlID rec) m = true ∨
   status = 202 ∧ t_deliveries db !! DlID rec = None ∧ t_deliveries db' = <[DlID rec := DlRow rec]> (t_deliveries db) ∧
     dl_job (DlRow rec) = queuedDelivery ∧ dl_finding_id (dl_intent m) = f ∧ dl_connection_id (dl_intent m) = eqConnectionID i ∧
     dl_trigger_kind (dl_intent m) = "manual" ∧ ∃ c, connectionOf ws (eqConnectionID i) db = Some c).
Proof.
  unfold enqueueFindingDelivery. intros H. apply bind_inv in H as (? & ? & ? & [_ ->]%guard_inv & H).
  apply bind_inv in H as (? & ? & ? & [_ ->]%guard_inv & H). apply transaction_inv in H as [? H]. unfold enqueueTx in H.
  apply bind_inv in H as (d & ? & ? & [-> (conn & fi & ti & se & an & d0 & Hc & Hd & Hws & Hf & Hci & _ & _ & _ & _ & _ & Htr)]%selected_inv & H).
  apply complete_keeps in Hd as (Hw1 & _ & _ & _ & Hc1 & Hf1 & Ht1).
  apply bind_inv in H as (? & ? & ? & [Hp ->]%fromRes_inv & H). apply bind_inv in H as (id & ? & ? & [_ ->]%newID_inv & H).
  apply bind_inv in H as (at_ & ? & ? & [_ ->]%now_inv & H). cbv zeta in H.
  apply bind_inv in H as (? & ? & ? & [_ ->]%query_inv & H). apply bind_inv in H as (found & ? & ? & [[= Hq] ->]%query_inv & H).
  destruct found as [[rid r]|].
  - apply bind_inv in H as (? & ? & ? & [Hg ->]%guard_inv & [[= <- <-] ->]%ret_inv). apply andb_true_iff in Hg as [_ Hg].
    apply findRow_Some in Hq as [Hr Hk]. unfold sameKey in Hk. breflect_in Hk. destruct Hk. simpl. split_and!; try done. auto.
  - apply bind_inv in H as (? & dbx & ? & He & H).
    assert (dbx = db) as ->. { case_if_in He; [unfold lockDeliveryKey, jiraFindingEffect in He|]; by run_inv. } clear He.
    apply bind_inv in H as (? & db1 & ? & (_ & Hfresh & -> & Hdel & _)%insertDelivery_inv & H).
    apply bind_inv in H as (? & db2 & ? & [Hdel2 _]%effect_inv & [[= <- <-] ->]%ret_inv). rewrite Hdel2, Hdel.
    cbn [DlID DlRow dl_meta dl_intent dl_idempotency_key dl_job]. split_and!.
    + cbn. congruence.
    + reflexivity.
    + apply lookup_insert_eq.
    + intros Hg _. unfold previewConsent in Hp. change (guarded (dl_profile d) = true) in Hg. rewrite Hg in Hp.
      destruct (Value (eqConfirm i)) as [[]|]; [|done..]. destruct (Value (eqPreviewDigest i)) as [digest|]; [|done].
      repeat (case_if_in Hp; [discriminate Hp|]). split; [done|]. f_equal.
      assert (deliveryBinding (withTrigger "manual" d) = deliveryBinding d) as ->.
      { unfold deliveryBinding. do 3 f_equal. unfold bindingJSON. simpl. by rewrite Ht1, Htr. }
      naive_solver.
    + right. split_and!; try done; try (cbn; congruence). by exists conn.
Qed.

Lemma delivery_consent_witness :
  ∃ rec db' n', enqueueFindingDelivery exampleConfig "ws" deliverySession findingID (enqueueHook "k") calm 0%nat deliveryDB =
      mkOut (Ok (202, rec)) db' n' ∧
    Value (eqPreviewDigest (enqueueHook "k")) = Some (previewText (deliveryBinding (dl_intent (dl_meta (DlRow rec))))).
Proof.
  assert (match out_res (enqueueFindingDelivery exampleConfig "ws" deliverySession findingID (enqueueHook "k") calm 0%nat deliveryDB) with
    | Ok (status, rec) => (status =? 202) && guarded (dl_profile (dl_intent (dl_meta (DlRow rec)))) | Err _ => false end = true) as Hg
    by (vm_compute; reflexivity).
  destruct (enqueueFindingDelivery exampleConfig "ws" deliverySession findingID (enqueueHook "k") calm 0%nat deliveryDB)
    as [[[status rec]|e] db' n'] eqn:E; [|discriminate Hg]. cbn [out_res] in Hg. apply andb_true_iff in Hg as [->%Z.eqb_eq Hg].
  exists rec, db', n'. split; [done|].
  destruct (delivery_consent exampleConfig "ws" deliverySession findingID (enqueueHook "k") calm 0%nat deliveryDB 202 rec db' n' E)
    as (_ & _ & _ & Hc & _).
  exact (proj2 (Hc Hg eq_refl)).
Defined.
