(* ===== verification/NotificationProps.v ===== *)
(** * Properties of notification policies

    Policies keep their history: every change takes the next epoch of the
    workspace and the next revision of the policy, and nothing recorded is
    rewritten.  So a change event that carries an epoch is evaluated against
    the policies of the moment it was recorded, however late the worker runs,
    and the evaluation answers for each of them exactly once. *)
From S2P Require Import Prelude GoLib Encoding Tx ReportAdapter Schema Auth Intake Reconcile Paging Assets WorkViews Work Reports Connections Deliveries DeliveryWorker Notifications DeliveryExample DeliveryProps.
Local Open Scope Z_scope.

(** ** What a change of a policy does *)

Definition bumped (w : WorkspaceRow) : WorkspaceRow := {|
  w_name := w_name w; w_created_at := w_created_at w; w_notification_policy_epoch := w_notification_policy_epoch w + 1 |}.

(** [policy] takes [row]'s terms under the next epoch of its workspace, as a
    first revision or as the one after the terms it had. *)
Record published (policy : string) (row : PolicyRow) (db db' : DB) : Prop := {
  pb_workspace : ∃ w, t_workspaces db !! np_workspace_id row = Some w ∧
    t_workspaces db' = <[np_workspace_id row := bumped w]> (t_workspaces db) ∧
    pt_epoch (np_terms row) = w_notification_policy_epoch w + 1;
  pb_policies : t_policies db' = <[policy := row]> (t_policies db);
  pb_revision : ∃ rid actor, t_policyRevisions db !! rid = None ∧
    t_policyRevisions db' = <[rid := {| nr_workspace_id := np_workspace_id row; nr_policy_id := policy;
      nr_terms := np_terms row; nr_actor_name := actor; nr_detail := freshDetail |}]> (t_policyRevisions db);
  pb_next : t_policies db !! policy = None ∧ pt_revision (np_terms row) = 1 ∨
    ∃ old, t_policies db !! policy = Some old ∧ np_workspace_id old = np_workspace_id row ∧
      pt_revision (np_terms row) = pt_revision (np_terms old) + 1 }.

Lemma lockEpoch_inv ws env n db epoch db' n' :
  lockNotificationPolicyEpoch ws env n db = mkOut (Ok epoch) db' n' →
  ∃ w, t_workspaces db !! ws = Some w ∧ epoch = w_notification_policy_epoch w + 1 ∧
    db' = with_workspaces (<[ws := bumped w]> (t_workspaces db)) db.
Proof.
  intros H%stmt_inv. destruct (t_workspaces db !! ws) as [w|]; [|done]. injection H as <- <-. by exists w.
Qed.

Lemma insertRevision_inv ws policy t actor env n db x db' n' :
  insertNotificationPolicyRevision ws policy t actor env n db = mkOut (Ok x) db' n' →
  ∃ rid, t_policyRevisions db !! rid = None ∧
    db' = with_policyRevisions (<[rid := {| nr_workspace_id := ws; nr_policy_id := policy; nr_terms := t;
      nr_actor_name := actor; nr_detail := freshDetail |}]> (t_policyRevisions db)) db.
Proof.
  unfold insertNotificationPolicyRevision. intros (rid & ? & ? & [_ ->]%newID_inv & H)%bind_inv.
  apply insertInto_inv in H as (_ & ? & ->). eauto.
Qed.

Lemma createNotificationPolicyTx_inv ws user i enabled kinds env n db p db' n' :
  createNotificationPolicyTx ws user i enabled kinds env n db = mkOut (Ok p) db' n' →
  published (PolicyID p) (PolicyData p) db db' ∧ np_workspace_id (PolicyData p) = ws.
Proof.
  unfold createNotificationPolicyTx. intros (epoch & ? & ? & (w & Hw & -> & ->)%lockEpoch_inv & H)%bind_inv.
  apply bind_inv in H as (count & ? & ? & [_ ->]%query_inv & H). apply bind_inv in H as (? & ? & ? & [_ ->]%guard_inv & H).
  apply bind_inv in H as (conn & dbx & ? & Hc & H). assert (dbx = with_workspaces (<[ws := bumped w]> (t_workspaces db)) db) as ->.
  { unfold notificationPolicyConnection, readConnection in Hc. by run_inv. } clear Hc.
  apply bind_inv in H as (at_ & ? & ? & [_ ->]%now_inv & H). apply bind_inv in H as (id & ? & ? & [_ ->]%newID_inv & H).
  cbv zeta in H. apply bind_inv in H as (? & ? & ? & (_ & Hfresh & ->)%insertInto_inv & H).
  apply bind_inv in H as (? & ? & ? & (rid & Hrid & ->)%insertRevision_inv & [<- ->]%ret_inv).
  split; [|done]. split; simpl in *; eauto 10.
Qed.

Lemma readPolicy_inv ws id env n db p db' n' :
  readNotificationPolicy ws id env n db = mkOut (Ok p) db' n' →
  db' = db ∧ t_policies db !! id = Some (PolicyData p) ∧ np_workspace_id (PolicyData p) = ws.
Proof.
  intros [H ->]%query_inv. split; [done|]. destruct (t_policies db !! id) as [row|] eqn:Er; [|done]. simpl in H.
  destruct (_ ==? ws) eqn:Ew in H; [|done]. breflect_in Ew. unfold joinPolicy in H. simpl in H.
  destruct (findRow _ _); [|done]. simpl in H. destruct (connectionOf _ _ _); [|done]. by injection H as <-.
Qed.

Lemma updateNotificationPolicyTx_inv ws user id patch env n db p db' n' :
  updateNotificationPolicyTx ws user id patch env n db = mkOut (Ok p) db' n' →
  published id (PolicyData p) db db' ∧ np_workspace_id (PolicyData p) = ws.
Proof.
  unfold updateNotificationPolicyTx. intros (epoch & ? & ? & (w & Hw & -> & ->)%lockEpoch_inv & H)%bind_inv.
  apply bind_inv in H as (current & ? & ? & (-> & Hcur & Hws)%readPolicy_inv & H). cbv zeta in H.
  apply bind_inv in H as ([[[[connection profile] revision] joined] fresh] & dbx & ? & Hc & H).
  assert (dbx = with_workspaces (<[ws := bumped w]> (t_workspaces db)) db) as ->.
  { destruct (if IsSet (ppConnectionID patch) then _ else _); [|by apply ret_inv in Hc as [_ ->]].
    unfold notificationPolicyConnection, readConnection in Hc. by run_inv. } clear Hc.
  apply bind_inv in H as (? & ? & ? & [_ ->]%guard_inv & H). apply bind_inv in H as (at_ & ? & ? & [_ ->]%now_inv & H).
  simpl in Hcur. apply bind_inv in H as (? & dbx & ? & Hs%stmt_inv & H). simpl in Hs. rewrite Hcur, bool_decide_true in Hs by done.
  case_if_in Hs; [|done]. injection Hs as _ <-.
  apply bind_inv in H as (? & ? & ? & (rid & Hrid & ->)%insertRevision_inv & [<- ->]%ret_inv).
  split; [|done]. split; simpl in *; [eauto..|]. right. eauto.
Qed.

(** ** The history *)

(** The revisions tell the whole history of every policy. *)
Record history_ok (db : DB) : Prop := {
  ho_current p row : t_policies db !! p = Some row → ∃ id r, t_policyRevisions db !! id = Some r ∧
    nr_workspace_id r = np_workspace_id row ∧ nr_policy_id r = p ∧ nr_terms r = np_terms row;
  ho_row id r : t_policyRevisions db !! id = Some r → ∃ row w, t_policies db !! nr_policy_id r = Some row ∧
    np_workspace_id row = nr_workspace_id r ∧ t_workspaces db !! nr_workspace_id r = Some w ∧
    1 ≤ pt_revision (nr_terms r) ≤ pt_revision (np_terms row) ∧
    pt_epoch (nr_terms r) ≤ pt_epoch (np_terms row) ≤ w_notification_policy_epoch w;
  ho_epoch id r id' r' : t_policyRevisions db !! id = Some r → t_policyRevisions db !! id' = Some r' →
    nr_workspace_id r = nr_workspace_id r' → pt_epoch (nr_terms r) = pt_epoch (nr_terms r') → id = id';
  ho_order id r id' r' : t_policyRevisions db !! id = Some r → t_policyRevisions db !! id' = Some r' →
    nr_policy_id r = nr_policy_id r' →
    pt_revision (nr_terms r) < pt_revision (nr_terms r') ↔ pt_epoch (nr_terms r) < pt_epoch (nr_terms r');
  ho_gapless p row k : t_policies db !! p = Some row → 1 ≤ k ≤ pt_revision (np_terms row) →
    ∃ id r, t_policyRevisions db !! id = Some r ∧ nr_policy_id r = p ∧ pt_revision (nr_terms r) = k }.

(** Nothing recorded changes, and what is added comes after every epoch that
    was handed out. *)
Record history_grows (db db' : DB) : Prop := {
  hg_kept id r : t_policyRevisions db !! id = Some r → t_policyRevisions db' !! id = Some r;
  hg_later id r w : t_policyRevisions db !! id = None → t_policyRevisions db' !! id = Some r →
    t_workspaces db !! nr_workspace_id r = Some w → w_notification_policy_epoch w < pt_epoch (nr_terms r);
  hg_epoch ws w : t_workspaces db !! ws = Some w → ∃ w', t_workspaces db' !! ws = Some w' ∧
    w_notification_policy_epoch w ≤ w_notification_policy_epoch w' }.
#[export] Instance history_grows_preorder : PreOrder history_grows.
Proof.
  split.
  - intros db. split; [done|congruence|]. intros ws w Hw. exists w. split; [done|lia].
  - intros a b c [K1 L1 E1] [K2 L2 E2]. split.
    + eauto.
    + intros id r w Hn Hr Hw. destruct (t_policyRevisions b !! id) as [rb|] eqn:Eb.
      * apply K2 in Eb as Ec. simplify_eq. eauto.
      * destruct (E1 _ _ Hw) as (wb & Hwb & ?). pose proof (L2 id r wb Eb Hr Hwb). lia.
    + intros ws w Hw. destruct (E1 _ _ Hw) as (wb & Hwb & ?). destruct (E2 _ _ Hwb) as (wc & ? & ?).
      exists wc. split; [done|lia].
Qed.

Lemma published_grows p row db db' : published p row db db' → history_grows db db'.
Proof.
  intros [(w & Hw & Hws & He) Hp (rid & actor & Hn & Hr) _]. split.
  - intros id r Hid. rewrite Hr, lookup_insert_ne by congruence. done.
  - intros id r w' Hid Hid' Hw'. rewrite Hr, lookup_insert in Hid'. destruct (decide (rid = id)); [|congruence].
    injection Hid' as <-. simpl in *. simplify_eq. lia.
  - intros ws w' Hw'. rewrite Hws, lookup_insert. destruct (decide (np_workspace_id row = ws)) as [<-|].
    + simplify_eq. eexists. split; [done|]. simpl. lia.
    + exists w'. split; [done|lia].
Qed.

Section publish.
Context (p : string) (row : PolicyRow) (db db' : DB) (Hp : published p row db db') (Hok : history_ok db).

(** The new revision, or one of the old ones. *)
Lemma published_rows : ∃ rid new, t_policyRevisions db !! rid = None ∧
  nr_workspace_id new = np_workspace_id row ∧ nr_policy_id new = p ∧ nr_terms new = np_terms row ∧
  t_policyRevisions db' !! rid = Some new ∧
  (∀ id r, t_policyRevisions db' !! id = Some r → id = rid ∧ r = new ∨ id ≠ rid ∧ t_policyRevisions db !! id = Some r).
Proof.
  destruct Hp as [_ _ (rid & actor & Hn & Hr) _]. rewrite Hr. eexists rid, _. split; [done|].
  rewrite lookup_insert_eq. split_and!; cycle 3; [reflexivity| |reflexivity..]. intros id r. rewrite lookup_insert.
  destruct (decide (rid = id)) as [<-|]; [intros [= <-]; auto|]. auto.
Qed.

(** Every old revision of the workspace is before the new epoch, and every old
    revision of the policy before the new revision. *)
Lemma published_after id r : t_policyRevisions db !! id = Some r →
  (nr_workspace_id r = np_workspace_id row → pt_epoch (nr_terms r) < pt_epoch (np_terms row)) ∧
  (nr_policy_id r = p → nr_workspace_id r = np_workspace_id row ∧ pt_revision (nr_terms r) < pt_revision (np_terms row)).
Proof.
  intros Hr. destruct (ho_row _ Hok id r Hr) as (old & w & Hold & Hws & Hw & Hrev & Hep).
  destruct Hp as [(w' & Hw' & _ & He) _ _ Hnext]. split.
  - intros Heq. rewrite Heq in Hw. simplify_eq. lia.
  - intros <-. destruct Hnext as [[Hn _]|(old' & Hold' & Hsame & Hrn)]; [congruence|]. simplify_eq. split; [congruence|lia].
Qed.

Lemma published_policy q row' : t_policies db' !! q = Some row' →
  q = p ∧ row' = row ∨ q ≠ p ∧ t_policies db !! q = Some row'.
Proof.
  destruct Hp as [_ -> _ _]. rewrite lookup_insert. destruct (decide (p = q)) as [<-|]; [intros [= <-]; auto|]. auto.
Qed.

Lemma published_ok : history_ok db'.
Proof using Hp Hok.
  pose proof published_rows as (rid & new & Hrid & Hnw & Hnp & Hnt & Hnew & Hrows).
  pose proof (published_grows _ _ _ _ Hp) as [Hkept _ Hgrow].
  pose proof published_after as Hafter. pose proof Hp as [(w & Hw & Hws & He) Hpol _ Hnext].
  assert (1 ≤ pt_revision (np_terms row)) as H1.
  { destruct Hnext as [[_ ->]|(old & Hold & _ & ->)]; [lia|]. destruct (ho_current _ Hok p old Hold) as (i & r & Hr & _ & <- & Ht).
    apply (ho_row _ Hok) in Hr as (? & ? & _ & _ & _ & ? & _). rewrite Ht in *. lia. }
  split.
  - intros q row' [[-> ->]|[Hq Hq']]%published_policy; [by exists rid, new|].
    destruct (ho_current _ Hok q row' Hq') as (i & r & Hr & ?). eauto.
  - intros id r [[-> ->]|[Hid Hr]]%Hrows.
    + exists row, (bumped w). rewrite Hpol, Hws, Hnp, Hnw, Hnt, !lookup_insert_eq. simpl. split_and!; done || lia.
    + destruct (ho_row _ Hok id r Hr) as (old & w' & Hold & Hsame & Hw' & Hrev & Hep).
      destruct (Hgrow _ _ Hw') as (w2 & Hw2 & Hle). destruct (decide (nr_policy_id r = p)) as [Heq|Hne].
      * destruct (Hafter id r Hr) as [Ha Hb]. destruct (Hb Heq) as [Hsw Hlt]. specialize (Ha Hsw).
        exists row, w2. rewrite Hpol, Heq, lookup_insert_eq. split_and!; try done; try lia. rewrite Hsw, Hws, lookup_insert_eq in Hw2.
        injection Hw2 as <-. simpl. lia.
      * exists old, w2. rewrite Hpol, lookup_insert_ne by done. split_and!; done || lia.
  - intros id r id' r' [[-> ->]|[Hid Hr]]%Hrows [[-> ->]|[Hid' Hr']]%Hrows Hsw Hse; [done| | |by eapply ho_epoch].
    + destruct (Hafter id' r' Hr') as [Ha _]. rewrite Hnt in Hse. specialize (Ha ltac:(congruence)). lia.
    + destruct (Hafter id r Hr) as [Ha _]. rewrite Hnt in Hse. specialize (Ha ltac:(congruence)). lia.
  - intros id r id' r' [[-> ->]|[Hid Hr]]%Hrows [[-> ->]|[Hid' Hr']]%Hrows Hsp; [lia| | |by eapply ho_order].
    + destruct (Hafter id' r' Hr') as [Ha Hb]. destruct Hb as [Hb Hc]; [congruence|]. specialize (Ha Hb). rewrite Hnt. lia.
    + destruct (Hafter id r Hr) as [Ha Hb]. destruct Hb as [Hb Hc]; [congruence|]. specialize (Ha Hb). rewrite Hnt. lia.
  - intros q row' k [[-> ->]|[Hq Hq']]%published_policy Hk.
    + destruct (decide (k = pt_revision (np_terms row))) as [->|Hne]; [exists rid, new; by rewrite Hnt|].
      destruct Hnext as [[_ Hone]|(old & Hold & _ & Hrn)]; [lia|].
      destruct (ho_gapless _ Hok p old k Hold) as (i & r & Hr & ?); [lia|]. eauto.
    + destruct (ho_gapless _ Hok q row' k Hq') as (i & r & Hr & ?); [lia|]. eauto.
Qed.
End publish.

(** ** Looking back *)

(** The revision of a policy at an epoch: its latest one up to there. *)
Lemma latestAt_spec ws epoch db policy t : history_ok db →
  latestAt ws epoch db policy = Some t ↔
  ∃ id r, t_policyRevisions db !! id = Some r ∧ nr_workspace_id r = ws ∧ nr_policy_id r = policy ∧ nr_terms r = t ∧
    pt_epoch t ≤ epoch ∧ ∀ id' r', t_policyRevisions db !! id' = Some r' → nr_workspace_id r' = ws →
      nr_policy_id r' = policy → pt_epoch (nr_terms r') ≤ epoch → pt_epoch (nr_terms r') ≤ pt_epoch t.
Proof.
  intros Hok. unfold latestAt. set (le := λ a b : string * PolicyTerms, _). set (l := _ <$> rowsById _ _).
  assert (∀ i x, (i, x) ∈ l ↔ ∃ r, t_policyRevisions db !! i = Some r ∧ nr_workspace_id r = ws ∧ nr_policy_id r = policy ∧
    nr_terms r = x ∧ pt_epoch x ≤ epoch) as Hl.
  { intros i x. unfold l, rowsById. rewrite list_elem_of_fmap. split.
    - intros ([j r] & [= -> ->] & Hin). rewrite merge_sort_Permutation, elem_of_rowsWhere in Hin. destruct Hin as [Hr Hb].
      breflect_in Hb. destruct Hb as [[? ?] ?]. by exists r.
    - intros (r & Hr & ? & ? & <- & ?). exists (i, r). split; [done|]. rewrite merge_sort_Permutation, elem_of_rowsWhere.
      split; [done|]. breflect. auto. }
  assert (∀ w v, argmin le l = Some w → v ∈ l → le w v = true) as Hmin.
  { intros w v. apply argmin_least; unfold le; intros *; rewrite ?Z.leb_le, ?Z.leb_gt; lia. }
  destruct (argmin le l) as [[i x]|] eqn:E; simpl.
  - pose proof (argmin_elem _ _ _ E) as Hin. apply Hl in Hin as (r & Hr & Hw & Hp & Ht & He). split.
    + intros [= <-]. exists i, r. split_and!; try done. intros i' r' Hr' Hw' Hp' He'.
      specialize (Hmin (i, x) (i', nr_terms r') eq_refl). rewrite Hl in Hmin. unfold le in Hmin. simpl in Hmin.
      rewrite Z.leb_le in Hmin. apply Hmin. by exists r'.
    + intros (i' & r' & Hr' & Hw' & Hp' & Ht' & He' & Hmax).
      specialize (Hmin (i, x) (i', t) eq_refl). rewrite Hl in Hmin. unfold le in Hmin. simpl in Hmin.
      rewrite Z.leb_le in Hmin. assert (pt_epoch t ≤ pt_epoch x) by (apply Hmin; by exists r').
      assert (pt_epoch x ≤ pt_epoch t) by (rewrite <-Ht; eapply Hmax; eauto; by rewrite Ht).
      assert (i = i') as <- by (eapply (ho_epoch _ Hok); [done..|congruence|rewrite Ht, Ht'; lia]). by simplify_eq.
  - apply argmin_None in E. split; [done|]. intros (i & r & Hr & Hw & Hp & Ht & He & _).
    assert ((i, t) ∈ l) as Hin by (apply Hl; by exists r). rewrite E in Hin. by apply elem_of_nil in Hin.
Qed.

(** At the epoch of the moment, the revision in force is the policy itself. *)
Lemma latestAt_now ws w db policy t : history_ok db → t_workspaces db !! ws = Some w →
  latestAt ws (w_notification_policy_epoch w) db policy = Some t ↔
  ∃ row, t_policies db !! policy = Some row ∧ np_workspace_id row = ws ∧ np_terms row = t.
Proof.
  intros Hok Hw. rewrite latestAt_spec by done. split.
  - intros (id & r & Hr & Hrw & Hrp & Ht & _ & Hmax). destruct (ho_row _ Hok id r Hr) as (row & w' & Hrow & Hws & _ & _ & He).
    rewrite Hrp in Hrow. exists row. split; [done|]. split; [congruence|].
    destruct (ho_current _ Hok policy row Hrow) as (id' & r' & Hr' & Hw' & Hp' & Ht'). rewrite <-Ht', <-Ht.
    destruct (ho_row _ Hok id' r' Hr') as (row2 & w2 & Hrow2 & _ & Hw2 & _ & He2). assert (nr_workspace_id r' = ws) as Hw'' by congruence.
    rewrite Hw'' in Hw2. assert (w2 = w) as -> by congruence. assert (row2 = row) as -> by congruence.
    assert (pt_epoch (nr_terms r') ≤ pt_epoch t) by (apply (Hmax id' r'); [done..|lia]).
    assert (id = id') as <-; [|by simplify_eq]. eapply (ho_epoch _ Hok); [done..|congruence|]. rewrite Ht', Ht in *. lia.
  - intros (row & Hrow & Hws & Ht). destruct (ho_current _ Hok policy row Hrow) as (id & r & Hr & Hrw & Hrp & Hrt).
    exists id, r. destruct (ho_row _ Hok id r Hr) as (row2 & w2 & Hrow2 & _ & Hw2 & _ & He2).
    assert (nr_workspace_id r = ws) as Hw'' by congruence. rewrite Hw'' in Hw2. assert (w2 = w) as -> by congruence.
    rewrite Hrp in Hrow2. assert (row2 = row) as -> by congruence. subst t.
    split_and!; try done; [lia|].
    intros id' r' Hr' Hw' Hp' He'. destruct (ho_row _ Hok id' r' Hr') as (row3 & w3 & Hrow3 & _ & _ & _ & He3).
    rewrite Hp' in Hrow3. assert (row3 = row) as -> by congruence. lia.
Qed.

(** Later changes do not show at an earlier epoch. *)
Lemma latestAt_grows ws w epoch db db' policy t : history_ok db → history_ok db' → history_grows db db' →
  t_workspaces db !! ws = Some w → epoch ≤ w_notification_policy_epoch w →
  latestAt ws epoch db' policy = Some t ↔ latestAt ws epoch db policy = Some t.
Proof.
  intros Hok Hok' [Hkept Hlater _] Hw He. rewrite !latestAt_spec by done.
  assert (∀ id r, t_policyRevisions db' !! id = Some r → nr_workspace_id r = ws → pt_epoch (nr_terms r) ≤ epoch →
    t_policyRevisions db !! id = Some r) as Hback.
  { intros id r Hr Hrw Hre. destruct (t_policyRevisions db !! id) as [r0|] eqn:E.
    - apply Hkept in E as E'. congruence.
    - subst ws. pose proof (Hlater id r w E Hr Hw). lia. }
  split; intros (id & r & Hr & Hrw & Hrp & Ht & Hre & Hmax); exists id, r; subst t.
  - split_and!; eauto.
  - by split_and!; eauto.
Qed.

Lemma elem_of_revisionsAt ws epoch db policy t :
  (policy, t) ∈ revisionsAt ws epoch db ↔ latestAt ws epoch db policy = Some t.
Proof.
  unfold revisionsAt. rewrite list_elem_of_omap. split.
  - intros (p & _ & H). destruct (latestAt ws epoch db p) eqn:E; [|done]. by injection H as <- <-.
  - intros H. exists policy. rewrite H. split; [|done].
    rewrite merge_sort_Permutation, elem_of_elements, elem_of_list_to_set, list_elem_of_fmap.
    unfold latestAt in H. destruct (argmin _ _) as [[i x]|] eqn:E; [|done].
    apply argmin_elem, list_elem_of_fmap in E as ([j r] & _ & Hin). exists (j, r).
    unfold rowsById in Hin. rewrite merge_sort_Permutation, elem_of_rowsWhere in Hin. destruct Hin as [Hr Hb].
    breflect_in Hb. destruct Hb as [[? ?] ?]. split; [done|]. rewrite elem_of_rowsWhere. split; [done|]. by breflect.
Qed.
Lemma revisionsAt_NoDup ws epoch db : NoDup (revisionsAt ws epoch db).*1.
Proof.
  unfold revisionsAt. set (l := merge_sort _ _). assert (NoDup l) as Hl.
  { unfold l. rewrite merge_sort_Permutation. apply NoDup_elements. }
  clearbody l. induction Hl as [|p l Hp Hl IH]; simpl; [constructor|].
  destruct (latestAt ws epoch db p) eqn:E; simpl; [|done]. constructor; [|done].
  intros ([q t] & -> & Hin)%list_elem_of_fmap. apply list_elem_of_omap in Hin as (q' & Hq & H).
  destruct (latestAt ws epoch db q'); [|done]. injection H as -> _. done.
Qed.

(** ** The history as a system *)

(** Changes of policies by anybody, with any failures, among everything else,
    which leaves policies, revisions and epochs alone. *)
Inductive notification_step (db : DB) : DB → Prop :=
  | ps_create ws session i env n : notification_step db (out_db (createNotificationPolicy ws session i env n db))
  | ps_update ws session id patch env n : notification_step db (out_db (updateNotificationPolicy ws session id patch env n db))
  | ps_other db' : t_policies db' = t_policies db → t_policyRevisions db' = t_policyRevisions db →
      (∀ ws w, t_workspaces db !! ws = Some w → ∃ w', t_workspaces db' !! ws = Some w' ∧
        w_notification_policy_epoch w' = w_notification_policy_epoch w) → notification_step db db'.

Definition history_step (db db' : DB) : Prop := history_grows db db' ∧ (history_ok db → history_ok db').
#[export] Instance history_step_preorder : PreOrder history_step.
Proof. split; [by split|]. intros a b c [H1 K1] [H2 K2]. split; [by etransitivity|auto]. Qed.

Lemma published_step p row db db' : published p row db db' → history_step db db'.
Proof. intros H. split; [by eapply published_grows|by eapply published_ok]. Qed.
Lemma notification_step_history db db' : notification_step db db' → history_step db db'.
Proof.
  intros [ws session i env n|ws session id patch env n|db1 Hp Hr Hw].
  - enough (Steps history_step (createNotificationPolicy ws session i)) as H by apply H.
    unfold createNotificationPolicy. destruct (piEnabled i); [|steps]. destruct (normalizeNotificationChangeKinds _); [|steps].
    apply steps_bind; [apply _|steps|]. intros _. apply steps_transaction_ok; [apply _|].
    intros * [H _]%createNotificationPolicyTx_inv. by eapply published_step.
  - enough (Steps history_step (updateNotificationPolicy ws session id patch)) as H by apply H.
    apply steps_bind; [apply _|steps|]. intros _. apply steps_transaction_ok; [apply _|].
    intros * [H _]%updateNotificationPolicyTx_inv. by eapply published_step.
  - split.
    + split; [by rewrite Hr|congruence|]. intros ws w (w' & ? & ?)%Hw. exists w'. split; [done|lia].
    + intros [H1 H2 H3 H4 H5]. split; rewrite ?Hp, ?Hr; try done. intros id r Hid.
      destruct (H2 id r Hid) as (row & w & ? & ? & (w' & Hw' & He)%Hw & ? & ?). exists row, w'. split_and!; done || lia.
Qed.
Lemma notification_steps_history db db' : rtc notification_step db db' → history_step db db'.
Proof. induction 1 as [|? ? ? H%notification_step_history]; [reflexivity|]. by etransitivity. Qed.

(** Policies keep a complete history. However policies are created and
    changed, and whatever fails, revisions are never rewritten; every policy's
    terms are its last revision, its revisions are numbered from one without a
    gap, a later revision has a later epoch, and no two changes of a workspace
    share one. *)
Theorem policy_history db db' : history_ok db → rtc notification_step db db' →
  history_ok db' ∧ ∀ id r, t_policyRevisions db !! id = Some r → t_policyRevisions db' !! id = Some r.
Proof. intros Hok [[Hk _ _] Ho]%notification_steps_history. auto. Qed.

Definition examplePolicy : policyInput := {|
  piName := "Criticals"; piConnectionID := slackID; piEnabled := Some true; piChangeKinds := ["new"; "reopened"];
  piMinimumSeverity := "high"; piRationale := "Tell the team" |}.
Definition disablePolicy : policyPatch := {|
  ppName := absentField; ppConnectionID := absentField; ppEnabled := field (Some false); ppChangeKinds := absentField;
  ppMinimumSeverity := absentField; ppRationale := "Too loud" |}.
(** One policy, and the same disabled later. *)
Definition policyDB : DB := out_db (createNotificationPolicy "ws" deliverySession examplePolicy calm 0%nat deliveryDB).
Definition policyName : string := default "" (head (fst <$> map_to_list (t_policies policyDB))).
Definition disabledDB : DB := out_db (updateNotificationPolicy "ws" deliverySession policyName disablePolicy calm 20%nat policyDB).
Lemma no_policies_ok db : t_policies db = ∅ → t_policyRevisions db = ∅ → history_ok db.
Proof. intros Hp Hr. split; rewrite ?Hp, ?Hr; intros *; by rewrite ?lookup_empty. Qed.

Lemma policy_history_witness :
  length (map_to_list (t_policyRevisions disabledDB)) = 2%nat ∧ history_ok disabledDB.
Proof.
  split; [vm_compute; reflexivity|].
  refine (proj1 (policy_history deliveryDB disabledDB _ _)); [by apply no_policies_ok|].
  eapply rtc_l; [exact (ps_create deliveryDB "ws" deliverySession examplePolicy calm 0%nat)|].
  apply rtc_once. exact (ps_update policyDB "ws" deliverySession policyName disablePolicy calm 20%nat).
Defined.

(** C15: A change event is evaluated against the policies as they were when it
    was recorded. Whatever is created, changed, enabled or disabled between
    the moment an event was stamped with the workspace's epoch and its
    evaluation, the revisions the worker looks up for that epoch are the terms
    the workspace's policies had at that moment, each once. *)
Theorem policies_as_recorded db db' ws w :
  history_ok db → rtc notification_step db db' → t_workspaces db !! ws = Some w →
  NoDup (revisionsAt ws (w_notification_policy_epoch w) db').*1 ∧
  ∀ policy t, (policy, t) ∈ revisionsAt ws (w_notification_policy_epoch w) db' ↔
    ∃ row, t_policies db !! policy = Some row ∧ np_workspace_id row = ws ∧ np_terms row = t.
Proof.
  intros Hok [Hg Hok']%notification_steps_history Hw. split; [apply revisionsAt_NoDup|]. intros policy t.
  rewrite elem_of_revisionsAt, (latestAt_grows ws w _ db db') by (auto || lia). by apply latestAt_now.
Qed.

Lemma policies_as_recorded_witness :
  (pt_enabled ∘ np_terms <$> t_policies disabledDB !! policyName) = Some false ∧
  ∃ w t, t_workspaces policyDB !! "ws" = Some w ∧ pt_enabled t = true ∧
    (policyName, t) ∈ revisionsAt "ws" (w_notification_policy_epoch w) disabledDB.
Proof.
  split; [vm_compute; reflexivity|].
  destruct (t_workspaces policyDB !! "ws") as [w|] eqn:Ew; [|vm_compute in Ew; discriminate Ew].
  destruct (t_policies policyDB !! policyName) as [row|] eqn:Er; [|vm_compute in Er; discriminate Er].
  exists w, (np_terms row). split; [done|]. split; [vm_compute in Er; injection Er as <-; reflexivity|].
  assert (history_ok policyDB) as Hok.
  { eapply notification_steps_history; [apply rtc_once; exact (ps_create deliveryDB "ws" deliverySession examplePolicy calm 0%nat)|].
    by apply no_policies_ok. }
  apply (proj2 (policies_as_recorded policyDB disabledDB "ws" w Hok
    (rtc_once _ _ (ps_update policyDB "ws" deliverySession policyName disablePolicy calm 20%nat)) Ew)).
  exists row. split; [done|]. split; [vm_compute in Er; injection Er as <-; reflexivity|done].
Defined.
