(* ===== verification/NotificationRuns.v ===== *)
(** * Evaluation of change events

    A completed evaluation answered for every policy in force that the change
    matches, once and for no other, queued exactly the deliveries it says it
    queued, and closed the event. *)
From S2P Require Import Prelude GoLib Encoding Tx ReportAdapter Schema Auth Intake Reconcile Paging Assets WorkViews Work Reports Connections Deliveries DeliveryWorker Notifications DeliveryExample DeliveryProps NotificationProps.
Local Open Scope Z_scope.

Section evaluation.
Context {GW : Gateway} (w : workerConfig) (e : ChangeEventRow).

(** What is unchanged while an event is evaluated, and what is only added to. *)
Record evaluating (db db' : DB) : Prop := {
  ev_connections : t_connections db' = t_connections db;
  ev_policies : t_policies db' = t_policies db;
  ev_revisions : t_policyRevisions db' = t_policyRevisions db;
  ev_changes : t_changeEvents db' = t_changeEvents db;
  ev_deliveries d r : t_deliveries db !! d = Some r → t_deliveries db' !! d = Some r;
  ev_effects k x : t_jiraEffects db !! k = Some x → t_jiraEffects db' !! k = Some x }.
#[export] Instance evaluating_preorder : PreOrder evaluating.
Proof. split; [by split|]. intros a b c [] []. split; eauto; congruence. Qed.

(** The recorded outcome of a policy tells what happened. *)
Inductive outcome (db db' : DB) (policy : string) (t : PolicyTerms) : string → option string → Prop :=
  | oc_stale : connectionStale w t (connectionOf (ce_workspace_id e) (pt_connection_id t) db) = true →
      outcome db db' policy t "connection-stale" None
  | oc_duplicate c d at_ : connectionOf (ce_workspace_id e) (pt_connection_id t) db = Some c → connectionStale w t (Some c) = false →
      cn_profile c = JiraCloudV3 →
      t_jiraEffects db' !! (ce_workspace_id e, pt_connection_id t, ce_finding_id e) = Some (d, at_) →
      outcome db db' policy t "duplicate-ticket" (Some d)
  | oc_invalid c : connectionOf (ce_workspace_id e) (pt_connection_id t) db = Some c → connectionStale w t (Some c) = false →
      policyFindingDelivery w e policy t c = None → outcome db db' policy t "invalid-payload" None
  | oc_queued c d i r : connectionOf (ce_workspace_id e) (pt_connection_id t) db = Some c → connectionStale w t (Some c) = false →
      policyFindingDelivery w e policy t c = Some i →
      t_deliveries db !! d = None → t_deliveries db' !! d = Some r → dl_intent (dl_meta r) = i →
      dl_idempotency_key (dl_meta r) = policyKey policy (ce_finding_id e) (ce_change_revision e) →
      dl_job r = queuedDelivery →
      outcome db db' policy t "queued" (Some d).

Definition answered (db db' : DB) (p : string * PolicyTerms) (v : PolicyEventRow) : Prop :=
  pe_workspace_id v = ce_workspace_id e ∧ pe_policy_id v = p.1 ∧ pe_policy_revision v = pt_revision p.2 ∧
  pe_finding_id v = ce_finding_id e ∧ pe_finding_change_revision v = ce_change_revision e ∧
  outcome db db' p.1 p.2 (pe_outcome v) (pe_delivery_id v).

Lemma answered_mono db0 db1 db db' p v :
  evaluating db0 db1 → evaluating db db' → (∀ d, t_deliveries db1 !! d = None → t_deliveries db0 !! d = None) →
  answered db1 db p v → answered db0 db' p v.
Proof.
  intros [Hc _ _ _ _ _] [_ _ _ _ Hd He] Hn (? & ? & ? & ? & ? & Ho). do 5 (split; [done|]).
  assert (∀ i, connectionOf (ce_workspace_id e) i db1 = connectionOf (ce_workspace_id e) i db0) as Hco.
  { intros i. unfold connectionOf. by rewrite Hc. }
  destruct Ho; rewrite Hco in *; [by apply oc_stale|by eapply oc_duplicate; eauto|by eapply oc_invalid|by eapply oc_queued; eauto].
Qed.

(** What evaluating a list of revisions did: [rows] are the recorded answers. *)
Record ran (db db' : DB) (l : list (string * PolicyTerms)) (rows : list (string * PolicyEventRow)) : Prop := {
  rn_tables : evaluating db db';
  rn_events k v : t_policyEvents db' !! k = Some v ↔ (k, v) ∈ rows ∨ t_policyEvents db !! k = Some v;
  rn_fresh k v : (k, v) ∈ rows → t_policyEvents db !! k = None;
  rn_once : NoDup rows.*1;
  rn_new d r : t_deliveries db' !! d = Some r → t_deliveries db !! d = Some r ∨
    ∃ k v, (k, v) ∈ rows ∧ pe_outcome v = "queued" ∧ pe_delivery_id v = Some d;
  rn_answers : Forall2 (answered db db') (filter (λ p, notificationPolicyMatches p.2 e = true) l) rows.*2 }.

Lemma ran_nil db : ran db db [] [].
Proof.
  split; [reflexivity| |by intros ? ? ?%elem_of_nil|constructor|auto|constructor].
  intros k v. rewrite elem_of_nil. tauto.
Qed.

Lemma ran_cons db db1 db' p l rows1 rows2 :
  ran db db1 [p] rows1 → ran db1 db' l rows2 → ran db db' (p :: l) (rows1 ++ rows2).
Proof.
  intros [T1 E1 F1 O1 N1 A1] [T2 E2 F2 O2 N2 A2].
  assert (∀ d, t_deliveries db1 !! d = None → t_deliveries db !! d = None) as Hback.
  { intros d Hd. destruct (t_deliveries db !! d) eqn:Ed; [|done]. apply (ev_deliveries _ _ T1) in Ed. congruence. }
  split.
  - by etransitivity.
  - intros k v. rewrite E2, E1, elem_of_app. tauto.
  - intros k v [Hk|Hk]%elem_of_app; [eauto|]. apply F2 in Hk. destruct (t_policyEvents db !! k) as [x|] eqn:Ek; [|done].
    assert (t_policyEvents db1 !! k = Some x) by (apply E1; auto). congruence.
  - rewrite fmap_app, NoDup_app. split_and!; [done| |done]. intros k ([k1 v1] & -> & H1)%list_elem_of_fmap ([k2 v2] & Hk & H2)%list_elem_of_fmap.
    simpl in Hk. subst k2. apply F2 in H2. assert (t_policyEvents db1 !! k1 = Some v1) by (apply E1; auto). congruence.
  - intros d r Hr. destruct (N2 d r Hr) as [H1|(k & v & Hk & ?)].
    + destruct (N1 d r H1) as [?|(k & v & Hk & ?)]; [auto|]. right. exists k, v. rewrite elem_of_app. auto.
    + right. exists k, v. rewrite elem_of_app. auto.
  - rewrite (filter_app _ [p] l). rewrite fmap_app. apply Forall2_app.
    + eapply Forall2_impl; [exact A1|]. intros q v. apply answered_mono; [reflexivity|done|auto].
    + eapply Forall2_impl; [exact A2|]. intros q v. apply answered_mono; [done|reflexivity|auto].
Qed.

(** One recorded answer. *)
Lemma policyEvent_ran policy t o d db0 db env n x db' n' :
  insertNotificationPolicyEvent e policy t o d env n db = mkOut (Ok x) db' n' →
  notificationPolicyMatches t e = true → evaluating db0 db → t_policyEvents db = t_policyEvents db0 →
  (∀ i r, t_deliveries db !! i = Some r → t_deliveries db0 !! i = Some r ∨ o = "queued" ∧ d = Some i) →
  outcome db0 db policy t o d → ∃ rows, ran db0 db' [(policy, t)] rows.
Proof.
  unfold insertNotificationPolicyEvent. intros H Hm Ht He Hd Ho.
  apply bind_inv in H as (id & ? & ? & [_ ->]%newID_inv & H). apply bind_inv in H as (at_ & ? & ? & [_ ->]%now_inv & H).
  cbv zeta in H. apply insertInto_inv in H as (_ & Hn & ->). rewrite He in Hn.
  eexists [(id, _)]. split; simpl.
  - etransitivity; [exact Ht|]. by split.
  - intros k v. rewrite He, lookup_insert, list_elem_of_singleton. destruct (decide (id = k)) as [<-|Hne]; [|naive_solver].
    rewrite Hn. naive_solver.
  - by intros k v [= -> ->]%list_elem_of_singleton.
  - apply NoDup_singleton.
  - intros i r Hi. destruct (Hd i r Hi) as [?|[-> ->]]; [auto|]. right. eexists _, _. rewrite list_elem_of_singleton. by split_and!.
  - rewrite (filter_cons_True _ (policy, t)) by done. rewrite filter_nil. constructor; [|constructor]. split_and!; try done. simpl.
    destruct Ho; [by apply oc_stale|by eapply oc_duplicate|by eapply oc_invalid|by eapply oc_queued].
Qed.

Lemma queuePolicy_ran policy t c env n db x db' n' :
  queuePolicyDelivery w e policy t c env n db = mkOut (Ok x) db' n' →
  notificationPolicyMatches t e = true → connectionOf (ce_workspace_id e) (pt_connection_id t) db = Some c →
  connectionStale w t (Some c) = false → ∃ rows, ran db db' [(policy, t)] rows.
Proof.
  intros H Hm Hc Hs. unfold queuePolicyDelivery in H. destruct (policyFindingDelivery w e policy t c) as [d|] eqn:Hd.
  2: { apply infra_inv in H. eapply policyEvent_ran; [exact H|done|reflexivity|done|auto|]. by eapply oc_invalid. }
  apply bind_inv in H as (id & ? & ? & [_ ->]%newID_inv & H). apply bind_inv in H as (at_ & ? & ? & [_ ->]%now_inv & H).
  cbv zeta in H. apply bind_inv in H as (? & db1 & ? & Hi%infra_inv & H). unfold insertFindingDelivery in Hi.
  apply bind_inv in Hi as (? & ? & ? & (_ & Hfresh & ->)%insertInto_inv & [<- ->]%ret_inv).
  apply bind_inv in H as (? & db2 & ? & Hj & H). apply infra_inv in H. set (db1 := with_deliveries _ db) in *.
  assert (evaluating db1 db2 ∧ t_policyEvents db2 = t_policyEvents db1 ∧ t_deliveries db2 = t_deliveries db1) as (Ht & Hp & Hdl).
  { case_if_in Hj; [|apply ret_inv in Hj as [_ ->]; by split].
    apply infra_inv in Hj. apply insertInto_inv in Hj as (_ & Hn & ->). split; [|done]. split; try done.
    intros k v Hk. simpl. rewrite lookup_insert_ne; [done|]. intros <-. discriminate (eq_trans (eq_sym Hk) Hn). }
  assert (evaluating db db1) as Ht1.
  { split; try done. intros k v Hk. simpl. rewrite lookup_insert_ne; [done|]. intros <-. congruence. }
  eapply policyEvent_ran; [exact H|done|by etransitivity|by rewrite Hp| |].
  - intros i r Hr. rewrite Hdl in Hr. simpl in Hr. rewrite lookup_insert in Hr. destruct (decide (id = i)) as [<-|]; auto.
  - eapply oc_queued; [exact Hc|done|exact Hd|exact Hfresh|rewrite Hdl; apply lookup_insert_eq|reflexivity..].
Qed.

Lemma revision_ran p env n db x db' n' :
  evaluateRevision w e p env n db = mkOut (Ok x) db' n' → ∃ rows, ran db db' [p] rows.
Proof.
  intros H. unfold evaluateRevision in H. destruct p as [policy t]. case_if_in H.
  - apply ret_inv in H as [_ ->]. exists []. destruct (ran_nil db) as [T Ev F O N _]. split; try done.
    rewrite filter_cons_False by (simpl; by rewrite E). constructor.
  - apply bind_inv in H as (conn & ? & ? & [[= Hq] ->]%infra_inv%query_inv & H).
    destruct (connectionStale w t conn) eqn:Es.
    + apply infra_inv in H. eapply policyEvent_ran; [exact H|done|reflexivity|done|auto|]. apply oc_stale. by rewrite Hq.
    + destruct conn as [c|]; [|done]. case_if_in H; [|by eapply queuePolicy_ran].
      apply bind_inv in H as (? & ? & ? & [_ ->]%infra_inv%query_inv & H).
      apply bind_inv in H as ([existing|] & ? & ? & [[= He] ->]%infra_inv%query_inv & H); [|by eapply queuePolicy_ran].
      destruct (t_jiraEffects db !! _) as [[d at_]|] eqn:Ee; [|done]. injection He as ->.
      apply infra_inv in H. eapply policyEvent_ran; [exact H|done|reflexivity|done|auto|]. by eapply oc_duplicate.
Qed.

Lemma revisions_ran l b env n db x db' n' :
  foldM (λ _ p, evaluateRevision w e p) l b env n db = mkOut (Ok x) db' n' → ∃ rows, ran db db' l rows.
Proof.
  revert b n db. induction l as [|p l IH]; intros b n db H.
  { unfold foldM, ret in H. injection H as _ <- _. exists []. apply ran_nil. }
  simpl in H. apply bind_inv in H as (b1 & db1 & n1 & H1 & H2).
  apply revision_ran in H1 as [rows1 H1]. apply IH in H2 as [rows2 H2]. exists (rows1 ++ rows2). by eapply ran_cons.
Qed.
End evaluation.

Definition evaluated (e : ChangeEventRow) : ChangeEventRow :=
  setChange e {| ce_state := CEvaluated; ce_worker_id := None; ce_fence := ce_fence (ce_job e); ce_lease_until := None |}.

(** C6: A completed evaluation is complete and exact. The event was held by
    the worker and is now closed; for every policy revision in force at the
    event's epoch that the change matches, one outcome was recorded, and none
    for any other; each outcome tells what happened (a stale connection, a
    payload that cannot be sent, a ticket that exists already, or a queued
    delivery made of this event, this policy and its connection), and no
    delivery was added that is not one of those queued. *)
Theorem evaluation_complete `{GW : Gateway} w id claimed env n db x db' n' :
  evaluateFindingChangeEvent w id claimed env n db = mkOut (Ok x) db' n' →
  ∃ e t rows, t_changeEvents db !! id = Some e ∧
    changeHeld w (ce_workspace_id claimed) (ce_fence (ce_job claimed)) t e = true ∧
    t_changeEvents db' = <[id := evaluated e]> (t_changeEvents db) ∧
    NoDup rows.*1 ∧ (∀ k v, (k, v) ∈ rows → t_policyEvents db !! k = None) ∧
    (∀ k v, t_policyEvents db' !! k = Some v ↔ (k, v) ∈ rows ∨ t_policyEvents db !! k = Some v) ∧
    Forall2 (answered w e db db')
      (filter (λ p, notificationPolicyMatches p.2 e = true) (revisionsAt (ce_workspace_id e) (ce_policy_epoch e) db)) rows.*2 ∧
    (∀ d r, t_deliveries db !! d = Some r → t_deliveries db' !! d = Some r) ∧
    (∀ d r, t_deliveries db' !! d = Some r → t_deliveries db !! d = Some r ∨
      ∃ k v, (k, v) ∈ rows ∧ pe_outcome v = "queued" ∧ pe_delivery_id v = Some d).
Proof.
  unfold evaluateFindingChangeEvent. intros (r & db1 & ? & Ht & H)%handle_inv.
  destruct r as [u|er]; [apply ret_inv in H as [_ ->]|by destruct er].
  apply transaction_inv in Ht as [n1 Ht]. unfold evaluateTx in Ht. cbv zeta in Ht.
  apply bind_inv in Ht as (found & ? & ? & [[= Hq] ->]%infra_inv%query_inv & Ht). destruct found as [e|]; [|done].
  destruct (t_changeEvents db !! id) as [e0|] eqn:He; [|done]. simpl in Hq. case_if_in Hq; [|done]. injection Hq as ->.
  apply bind_inv in Ht as (revs & ? & ? & [[= Hrevs] ->]%infra_inv%query_inv & Ht).
  apply bind_inv in Ht as ([] & db2 & ? & [rows Hran]%revisions_ran & Ht).
  apply bind_inv in Ht as (hit & db3 & ? & Hx%infra_inv%exec_inv & [Hhit ->]%guard_inv). subst hit.
  rewrite (ev_changes _ _ (rn_tables _ _ _ _ _ _ Hran)), He in Hx. case_if_in Hx; [|done]. injection Hx as <-.
  destruct Hran as [[_ _ _ Hch Hd _] Hev Hf Ho Hn Ha]. eexists e, _, rows. rewrite Hrevs. simpl.
  split_and!; try done. eapply Forall2_impl; [exact Ha|]. intros p v (? & ? & ? & ? & ? & Hoc). do 5 (split; [done|]).
  destruct Hoc; [by apply oc_stale|by eapply oc_duplicate|by eapply oc_invalid|by eapply oc_queued].
Qed.

(** A new critical finding, recorded while the policy was enabled. *)
Definition exampleChange : ChangeEventRow := {|
  ce_workspace_id := "ws"; ce_finding_id := findingID; ce_policy_epoch := 1; ce_title := "SQL injection";
  ce_severity := "critical"; ce_asset_name := "api"; ce_change_kind := "new"; ce_change_revision := 1;
  ce_change_at := 0; ce_job := pendingChange; ce_detail := freshDetail |}.
Definition changedDB : DB := with_changeEvents {["change" := exampleChange]} disabledDB.
Definition claimedChange : ChangeEventRow :=
  match out_res (claimFindingChangeEvent exampleWorker calm 30%nat changedDB) with
  | Ok (Some (_, e)) => e | _ => exampleChange end.
Definition claimedDB : DB := out_db (claimFindingChangeEvent exampleWorker calm 30%nat changedDB).
Definition evaluatedDB : DB := out_db (evaluateFindingChangeEvent exampleWorker "change" claimedChange calm 40%nat claimedDB).

Lemma evaluation_complete_witness :
  (pe_outcome ∘ snd <$> map_to_list (t_policyEvents evaluatedDB)) = ["queued"] ∧
  length (map_to_list (t_deliveries evaluatedDB)) = 1%nat ∧
  ∃ rows : list (string * PolicyEventRow), NoDup rows.*1 ∧
    (∀ k v, t_policyEvents evaluatedDB !! k = Some v ↔ (k, v) ∈ rows ∨ t_policyEvents claimedDB !! k = Some v).
Proof.
  split; [vm_compute; reflexivity|]. split; [vm_compute; reflexivity|].
  destruct (evaluation_complete exampleWorker "change" claimedChange calm 40%nat claimedDB tt evaluatedDB
    (out_tick (evaluateFindingChangeEvent exampleWorker "change" claimedChange calm 40%nat claimedDB))
    (ok_eta (evaluateFindingChangeEvent exampleWorker "change" claimedChange calm 40%nat claimedDB) ltac:(vm_compute; reflexivity)))
    as (e & t & rows & _ & _ & _ & Hn & _ & Hr & _).
  exists rows. exact (conj Hn Hr).
Defined.

(** ** A key that is taken *)

Section taken.
Context {GW : Gateway} (w : workerConfig) (e : ChangeEventRow) (policy : string) (t : PolicyTerms).

(** Some delivery of the workspace has the key the policy's would have. *)
Definition key_taken (db : DB) : Prop := ∃ i r, t_deliveries db !! i = Some r ∧
  sameKey (ce_workspace_id e) (policyKey policy (ce_finding_id e) (ce_change_revision e)) r = true.
(** The policy would send this event. *)
Definition would_send (db : DB) : Prop := notificationPolicyMatches t e = true ∧
  ∃ c d, connectionOf (ce_workspace_id e) (pt_connection_id t) db = Some c ∧ connectionStale w t (Some c) = false ∧
    cn_profile c ≠ JiraCloudV3 ∧ policyFindingDelivery w e policy t c = Some d ∧ dl_workspace_id d = ce_workspace_id e.

Lemma taken_blocks env n db x db' n' : key_taken db → would_send db →
  evaluateRevision w e (policy, t) env n db ≠ mkOut (Ok x) db' n'.
Proof.
  intros (i & r & Hr & Hk) (Hm & c & d & Hc & Hs & Hj & Hd & Hw) H. unfold evaluateRevision in H. rewrite Hm in H. simpl in H.
  apply bind_inv in H as (conn & ? & ? & [[= Hq] ->]%infra_inv%query_inv & H). rewrite Hc in Hq. subst conn. rewrite Hs in H.
  rewrite bool_decide_false in H by done. unfold queuePolicyDelivery in H. rewrite Hd in H.
  apply bind_inv in H as (id & ? & ? & [_ ->]%newID_inv & H). apply bind_inv in H as (at_ & ? & ? & [_ ->]%now_inv & H).
  cbv zeta in H. apply bind_inv in H as (? & db1 & ? & Hi%infra_inv & _). unfold insertFindingDelivery in Hi.
  apply bind_inv in Hi as (? & ? & ? & (Hch & _)%insertInto_inv & _). destruct (negb _) in Hch; [discriminate Hch|].
  destruct (anyRow _ _) eqn:Ea in Hch; [discriminate Hch|]. rewrite anyRow_false in Ea. specialize (Ea i r Hr).
  cbn [dl_intent dl_idempotency_key] in Ea. rewrite Hw, Hk in Ea. discriminate Ea.
Qed.

Lemma taken_blocks_all l b env n db x db' n' : key_taken db → would_send db → (policy, t) ∈ l →
  foldM (λ _ p, evaluateRevision w e p) l b env n db ≠ mkOut (Ok x) db' n'.
Proof.
  revert b n db. induction l as [|p l IH]; intros b n db Hk Hs; [by intros ?%elem_of_nil|]. intros Hin H. simpl in H.
  apply bind_inv in H as (b1 & db1 & n1 & H1 & H2). apply elem_of_cons in Hin as [<-|Hin]; [by eapply taken_blocks in H1|].
  apply revision_ran in H1 as [rows [[Hc _ _ _ Hd _] _ _ _ _ _]].
  eapply (IH b1 n1 db1); [| |done|exact H2].
  - destruct Hk as (i & r & Hr & Hk). exists i, r. auto.
  - destruct Hs as (Hm & c & d & Hco & Hrest). split; [done|]. exists c, d. unfold connectionOf in *. by rewrite Hc.
Qed.
End taken.

(** A manual delivery can take a policy's key, and then the change event
    is never evaluated. If a delivery of the workspace carries the key
    reserved for a policy, a finding and a change, then as long as the policy
    in force would send that change no evaluation of the event completes, in
    any world, and it leaves the database as it was, so no other policy is
    told either; and a person's request with such a key is accepted. *)
Theorem reserved_key_blocks_evaluation `{GW : Gateway} w id e policy t claimed env n db :
  t_changeEvents db !! id = Some e → (policy, t) ∈ revisionsAt (ce_workspace_id e) (ce_policy_epoch e) db →
  key_taken e policy db → would_send w e policy t db →
  let o := evaluateFindingChangeEvent w id claimed env n db in is_ok (out_res o) = false ∧ out_db o = db.
Proof.
  intros He Hin Hk Hs. simpl. unfold evaluateFindingChangeEvent, handle, transaction.
  destruct (evaluateTx w id claimed env n db) as [[u|er] db1 n1] eqn:E.
  2: { destruct er; split; reflexivity. }
  exfalso. unfold evaluateTx in E. cbv zeta in E.
  apply bind_inv in E as (found & ? & ? & [[= Hq] ->]%infra_inv%query_inv & E). destruct found as [e0|]; [|done].
  rewrite He in Hq. simpl in Hq. case_if_in Hq; [|done]. injection Hq as <-.
  apply bind_inv in E as (revs & ? & ? & [[= Hrevs] ->]%infra_inv%query_inv & E). subst revs.
  apply bind_inv in E as (y & db2 & ? & Hf & _). by eapply taken_blocks_all in Hf.
Qed.

(** The request that takes the key is answered 202. *)
Definition takenDB : DB := out_db (enqueueFindingDelivery exampleConfig "ws" deliverySession findingID
  (enqueueSlack (policyKey policyName findingID 1)) calm 60%nat claimedDB).
Lemma reserved_key_blocks_evaluation_witness :
  (fst <$> match out_res (enqueueFindingDelivery exampleConfig "ws" deliverySession findingID
     (enqueueSlack (policyKey policyName findingID 1)) calm 60%nat claimedDB) with Ok a => Some a | Err _ => None end) = Some 202 ∧
  ∀ env n, out_db (evaluateFindingChangeEvent exampleWorker "change" claimedChange env n takenDB) = takenDB.
Proof.
  split; [vm_compute; reflexivity|]. intros env n.
  destruct (revisionsAt "ws" 1 takenDB) as [|[policy t] l] eqn:Er; [vm_compute in Er; discriminate Er|].
  assert (policy = policyName) as -> by (vm_compute in Er; injection Er as <- _ _; vm_compute; reflexivity).
  refine (proj2 (reserved_key_blocks_evaluation exampleWorker "change" claimedChange policyName t claimedChange env n takenDB _ _ _ _)).
  - vm_compute. reflexivity.
  - change (ce_workspace_id claimedChange) with "ws". change (ce_policy_epoch claimedChange) with 1. rewrite Er. by left.
  - eexists "id-68", _. split; vm_compute; reflexivity.
  - vm_compute in Er. injection Er as <- _. split; [vm_compute; reflexivity|].
    eexists _, _. split_and!; [vm_compute; reflexivity|vm_compute; reflexivity|intros H; vm_compute in H; discriminate H|vm_compute; reflexivity|vm_compute; reflexivity].
Defined.
