(* ===== verification/Fixture.v ===== *)
(** * Decoding a verification fixture (encoding/json)

    [json.Decoder] with DisallowUnknownFields on the fixture struct of
    internal/verification: two strings and a [*bool].  A byte-at-a-time lexer
    in the shape of Go's scanner yields the tokens; a member whose value is a
    number, an array or an object is an error for every field of the struct,
    so the parser below stops there.  Names match exactly or under Unicode
    simple folding (U+017F folds to [s], U+212A to [k]); a repeated name
    overwrites; [null] leaves a string and clears the pointer. *)
From S2P Require Import Prelude GoLib Encoding.
Local Open Scope N_scope.

Inductive token :=
  | TOpen | TClose | TComma | TColon | TStr (s : list N) | TBool (b : bool) | TNull.

Definition hexValue (b : N) : option N :=
  if (48 <=? b) && (b <=? 57) then Some (b - 48)
  else if (97 <=? b) && (b <=? 102) then Some (b - 87)
  else if (65 <=? b) && (b <=? 70) then Some (b - 55) else None.

(** utf8.EncodeRune; a surrogate is U+FFFD. *)
Definition encodeRune (r : N) : list N :=
  if r <? 128 then [r]
  else if r <? 2048 then [192 + r / 64; 128 + r mod 64]
  else if (55296 <=? r) && (r <=? 57343) then [239; 191; 189]
  else if r <? 65536 then [224 + r / 4096; 128 + r / 64 mod 64; 128 + r mod 64]
  else [240 + r / 262144; 128 + r / 4096 mod 64; 128 + r / 64 mod 64; 128 + r mod 64].
(** utf16.DecodeRune of a pair, when it is one. *)
Definition surrogatePair (hi lo : N) : option N :=
  if (55296 <=? hi) && (hi <? 56320) && (56320 <=? lo) && (lo <=? 57343)
  then Some ((hi - 55296) * 1024 + (lo - 56320) + 65536) else None.

Definition simpleEscape (c : N) : option N :=
  if (c =? 34) || (c =? 92) || (c =? 47) then Some c
  else if c =? 98 then Some 8 else if c =? 102 then Some 12 else if c =? 110 then Some 10
  else if c =? 114 then Some 13 else if c =? 116 then Some 9 else None.

Definition jsonSpace (b : N) : bool := (b =? 32) || (b =? 9) || (b =? 10) || (b =? 13).

(** The state of the scanner: between tokens, inside a literal (what must still
    follow), inside a string (its bytes reversed and a high surrogate that may
    still find its pair), after a backslash, inside the digits of [\u]. *)
Inductive mode :=
  | MOut | MLit (rest : list N) (t : token)
  | MStr (acc : list N) (hi : option N) | MEsc (acc : list N) (hi : option N)
  | MHex (acc : list N) (hi : option N) (digits : nat) (v : N).

(** A high surrogate without its pair is U+FFFD. *)
Definition flush (hi : option N) (acc : list N) : list N :=
  match hi with Some _ => 189 :: 191 :: 239 :: acc | None => acc end.

Definition endRune (acc : list N) (hi : option N) (r : N) : mode :=
  match (h ← hi; surrogatePair h r) with
  | Some p => MStr (rev_append (encodeRune p) acc) None
  | None => if (55296 <=? r) && (r <? 56320) then MStr (flush hi acc) (Some r)
            else MStr (rev_append (encodeRune r) (flush hi acc)) None
  end.

(** One byte.  Invalid UTF-8 in a finished string becomes U+FFFD byte by byte;
    escapes decode to whole runes, so they never complete a broken sequence. *)
Definition lexByte (m : mode) (b : N) : option (mode * list token) :=
  match m with
  | MOut =>
      if b =? 123 then Some (MOut, [TOpen]) else if b =? 125 then Some (MOut, [TClose])
      else if b =? 44 then Some (MOut, [TComma]) else if b =? 58 then Some (MOut, [TColon])
      else if b =? 34 then Some (MStr [] None, [])
      else if b =? 116 then Some (MLit (bytes "rue") (TBool true), [])
      else if b =? 102 then Some (MLit (bytes "alse") (TBool false), [])
      else if b =? 110 then Some (MLit (bytes "ull") TNull, [])
      else if jsonSpace b then Some (MOut, []) else None
  | MLit rest t =>
      match rest with
      | c :: rest' => if b =? c then match rest' with [] => Some (MOut, [t]) | _ => Some (MLit rest' t, []) end else None
      | [] => None
      end
  | MStr acc hi =>
      if b =? 34 then Some (MOut, [TStr (jsonCoerceBytes (rev (flush hi acc)))])
      else if b =? 92 then Some (MEsc acc hi, [])
      else if b <? 32 then None else Some (MStr (b :: flush hi acc) None, [])
  | MEsc acc hi =>
      if b =? 117 then Some (MHex acc hi 0 0, [])
      else c ← simpleEscape b; Some (MStr (c :: flush hi acc) None, [])
  | MHex acc hi digits v =>
      d ← hexValue b;
      let v' := v * 16 + d in
      Some (if (digits <? 3)%nat then MHex acc hi (S digits) v' else endRune acc hi v', [])
  end.

Fixpoint lex (m : mode) (l : list N) : option (list token) :=
  match l with
  | [] => match m with MOut => Some [] | _ => None end
  | b :: l' =>
      match lexByte m b with
      | Some (m', ts) => app ts <$> lex m' l'
      | None => None
      end
  end.

(** foldName: the letters the field names are made of, under simple folding. *)
Fixpoint foldName (l : list N) : list N :=
  match l with
  | [] => []
  | b :: l1 =>
      let other := (if (65 <=? b) && (b <=? 90) then b + 32 else b) :: foldName l1 in
      match l1 with
      | c :: l2 =>
          if (b =? 197) && (c =? 191) then 115 :: foldName l2 else
          match l2 with
          | d :: l3 => if (b =? 226) && (c =? 132) && (d =? 170) then 107 :: foldName l3 else other
          | [] => other
          end
      | [] => other
      end
  end.

Record fixture := { fxSchema : list N; fxEnvironmentID : list N; fxCondition : option bool }.
Definition noFixture : fixture := {| fxSchema := []; fxEnvironmentID := []; fxCondition := None |}.

(** One member of the object into the struct; [None] is an error of Decode. *)
Definition setField (key : list N) (value : token) (f : fixture) : option fixture :=
  let name := foldName key in
  if bool_decide (name = bytes "schema") then
    match value with
    | TStr s => Some {| fxSchema := s; fxEnvironmentID := fxEnvironmentID f; fxCondition := fxCondition f |}
    | TNull => Some f
    | _ => None
    end
  else if bool_decide (name = bytes "environmentid") then
    match value with
    | TStr s => Some {| fxSchema := fxSchema f; fxEnvironmentID := s; fxCondition := fxCondition f |}
    | TNull => Some f
    | _ => None
    end
  else if bool_decide (name = bytes "condition") then
    match value with
    | TBool b => Some {| fxSchema := fxSchema f; fxEnvironmentID := fxEnvironmentID f; fxCondition := Some b |}
    | TNull => Some {| fxSchema := fxSchema f; fxEnvironmentID := fxEnvironmentID f; fxCondition := None |}
    | _ => None
    end
  else None.

Fixpoint members (l : list token) (f : fixture) : option fixture :=
  match l with
  | TStr key :: TColon :: value :: l1 =>
      match setField key value f, l1 with
      | Some f', TComma :: l2 => members l2 f'
      | Some f', [TClose] => Some f'
      | _, _ => None
      end
  | _ => None
  end.

(** Decode followed by a Decode that must find the end of the input. *)
Definition decodeFixture (data : list N) : option fixture :=
  match lex MOut data with
  | Some [TNull] | Some [TOpen; TClose] => Some noFixture
  | Some (TOpen :: l) => members l noFixture
  | _ => None
  end.

(** ** What json.Marshal writes is read back *)

Lemma hexValue_hexDigit d : d < 16 → hexValue (hexDigit d) = Some d.
Proof.
  intros Hd. unfold hexValue, hexDigit. destruct (N.ltb_spec d 10).
  - rewrite (proj2 (N.leb_le _ _)), (proj2 (N.leb_le _ _)) by lia. simpl. f_equal. lia.
  - rewrite (proj2 (N.leb_gt (87 + d) 57)), andb_false_r by lia.
    rewrite (proj2 (N.leb_le 97 _)), (proj2 (N.leb_le _ 102)) by lia. simpl. f_equal. lia.
Qed.

(** The string being read after some more input. *)
Definition reads (l acc acc' : list N) : Prop :=
  ∀ rest, lex (MStr acc None) (l ++ rest) = lex (MStr acc' None) rest.

Lemma lex_quiet m b m' l : lexByte m b = Some (m', []) → lex m (b :: l) = lex m' l.
Proof. intros Hb. simpl. rewrite Hb. by destruct (lex m' l). Qed.

Lemma reads_app l1 l2 acc1 acc2 acc3 : reads l1 acc1 acc2 → reads l2 acc2 acc3 → reads (l1 ++ l2) acc1 acc3.
Proof. intros H1 H2 rest. by rewrite <- (assoc_L (++)), H1, H2. Qed.

(** An escape that is no surrogate stands for its rune. *)
Lemma reads_unicode acc h1 h2 h3 h4 d1 d2 d3 d4 :
  hexValue h1 = Some d1 → hexValue h2 = Some d2 → hexValue h3 = Some d3 → hexValue h4 = Some d4 →
  let r := ((d1 * 16 + d2) * 16 + d3) * 16 + d4 in
  r < 55296 → reads [92; 117; h1; h2; h3; h4] acc (rev_append (encodeRune r) acc).
Proof.
  intros H1 H2 H3 H4 r Hr rest. cbn [app]. rewrite (lex_quiet _ _ (MEsc acc None)) by done.
  rewrite (lex_quiet _ _ (MHex acc None 0 0)) by done.
  rewrite (lex_quiet _ _ (MHex acc None 1 d1)) by (unfold lexByte; by rewrite H1).
  rewrite (lex_quiet _ _ (MHex acc None 2 (d1 * 16 + d2))) by (unfold lexByte; by rewrite H2).
  rewrite (lex_quiet _ _ (MHex acc None 3 ((d1 * 16 + d2) * 16 + d3))) by (unfold lexByte; by rewrite H3).
  apply lex_quiet. unfold lexByte. rewrite H4. cbn. unfold endRune. cbn. fold r.
  by rewrite (proj2 (N.leb_gt 55296 r)).
Qed.

Lemma reads_plain acc b : 32 <= b → b <> 34 → b <> 92 → reads [b] acc (b :: acc).
Proof.
  intros H1 H2 H3 rest. apply lex_quiet. unfold lexByte.
  by rewrite (proj2 (N.eqb_neq b 34)), (proj2 (N.eqb_neq b 92)), (proj2 (N.ltb_ge b 32)).
Qed.

Lemma reads_escape acc c b : simpleEscape c = Some b → c <> 117 → reads [92; c] acc (b :: acc).
Proof.
  intros Hc Hu rest. cbn [app]. rewrite (lex_quiet _ _ (MEsc acc None)) by done. apply lex_quiet.
  unfold lexByte. rewrite (proj2 (N.eqb_neq c 117)) by done. by rewrite Hc.
Qed.

Lemma reads_quoteByte acc b : b < 128 → reads (quoteByte b) acc (b :: acc).
Proof.
  intros Hb. unfold quoteByte. 
  do 7 (match goal with |- context [if b =? ?c then _ else _] => destruct (N.eqb_spec b c) as [->|?]; [by apply reads_escape|] end).
  destruct ((b <? 32) || (b =? 60) || (b =? 62) || (b =? 38)) eqn:E.
  - assert (N.shiftr b 4 = b / 16) as -> by (apply N.shiftr_div_pow2).
    assert (N.land b 15 = b mod 16) as -> by (apply (N.land_ones b 4)).
    pose proof (N.mod_lt b 16 ltac:(lia)). assert (b / 16 < 16) by (apply N.Div0.div_lt_upper_bound; lia).
    pose proof (N.div_mod b 16 ltac:(lia)). assert (b = ((0 * 16 + 0) * 16 + b / 16) * 16 + b mod 16) as Hr by lia.
    pose proof (reads_unicode acc 48 48 (hexDigit (b / 16)) (hexDigit (b mod 16)) 0 0 (b / 16) (b mod 16)) as Hu.
    rewrite !hexValue_hexDigit, <- Hr in Hu by done. unfold encodeRune in Hu.
    rewrite (proj2 (N.ltb_lt b 128)) in Hu by done. apply Hu; done || lia.
  - apply orb_false_iff in E as [[[E%N.ltb_ge _]%orb_false_iff _]%orb_false_iff _]. by apply reads_plain.
Qed.

Lemma reads_wide acc l : Forall (λ b, 128 <= b) l → reads l acc (rev_append l acc).
Proof.
  intros Hl. revert acc. induction Hl as [|b l Hb _ IH]; intros acc; [done|].
  apply (reads_app [b] l _ (b :: acc)); [apply reads_plain; lia|apply IH].
Qed.

Lemma utf8_wide b0 b1 b2 b3 :
  (utf8two b0 b1 = true → 128 <= b1) ∧ (utf8three b0 b1 b2 = true → 128 <= b1 ∧ 128 <= b2) ∧
  (utf8four b0 b1 b2 b3 = true → 128 <= b1 ∧ 128 <= b2 ∧ 128 <= b3).
Proof.
  unfold utf8two, utf8three, utf8four, cont.
  rewrite !andb_true_iff, !orb_true_iff, !andb_true_iff, !N.leb_le, !N.eqb_eq. intuition lia.
Qed.

Lemma reads_quoteBytes l acc : utf8Valid l = true → reads (quoteBytes l) acc (rev_append l acc).
Proof.
  remember (length l) as n eqn:Hn. revert l Hn acc.
  induction n as [n IH] using lt_wf_ind; intros l -> acc.
  destruct l as [|b0 l1]; [done|]. cbn [utf8Valid quoteBytes].
  assert (∀ q k l', (length l' < length (b0 :: l1))%nat → reads q acc (rev_append k acc) → utf8Valid l' = true →
    reads (q ++ quoteBytes l') acc (rev_append (k ++ l') acc)) as Hq.
  { intros q k l' Hl Hk Hv. eapply reads_app; [done|]. rewrite !rev_append_rev, rev_app_distr, <- (assoc_L (++)).
    rewrite <- !rev_append_rev. by apply (IH (length l')). }
  destruct (N.ltb_spec b0 128) as [Hb|Hb].
  { apply (Hq _ [b0]); [simpl; lia|by apply reads_quoteByte]. }
  destruct l1 as [|b1 l2]; [done|]. destruct (utf8two b0 b1) eqn:E2.
  { apply (Hq [b0; b1] [b0; b1]); [simpl; lia|]. apply reads_wide. apply (utf8_wide b0 b1 0 0) in E2.
    by repeat constructor. }
  destruct l2 as [|b2 l3]; [done|]. destruct (utf8three b0 b1 b2) eqn:E3.
  { destruct ((b0 =? 226) && (b1 =? 128) && (b2 =? 168)) eqn:E28.
    { rewrite !andb_true_iff, !N.eqb_eq in E28. destruct E28 as [[-> ->] ->].
      apply (Hq _ [226; 128; 168]); [simpl; lia|]. by apply (reads_unicode acc 50 48 50 56 2 0 2 8). }
    destruct ((b0 =? 226) && (b1 =? 128) && (b2 =? 169)) eqn:E29.
    { rewrite !andb_true_iff, !N.eqb_eq in E29. destruct E29 as [[-> ->] ->].
      apply (Hq _ [226; 128; 169]); [simpl; lia|]. by apply (reads_unicode acc 50 48 50 57 2 0 2 9). }
    apply (Hq [b0; b1; b2] [b0; b1; b2]); [simpl; lia|]. apply reads_wide.
    apply (utf8_wide b0 b1 b2 0) in E3 as [? ?]. by repeat constructor. }
  destruct l3 as [|b3 l4]; [done|]. destruct (utf8four b0 b1 b2 b3) eqn:E4; [|done].
  apply (Hq [b0; b1; b2; b3] [b0; b1; b2; b3]); [simpl; lia|]. apply reads_wide.
  apply utf8_wide in E4 as (? & ? & ?). by repeat constructor.
Qed.

Lemma quoteByte_small b : b < 128 → Forall (λ x, x < 256) (quoteByte b).
Proof.
  intros Hb. assert (∀ d, d < 16 → hexDigit d < 256) as Hd.
  { intros d Hd. unfold hexDigit. destruct (d <? 10); lia. }
  unfold quoteByte. assert (N.shiftr b 4 = b / 16) as -> by (apply N.shiftr_div_pow2).
  assert (N.land b 15 = b mod 16) as -> by (apply (N.land_ones b 4)).
  repeat case_match; repeat constructor; try lia; apply Hd; [apply N.Div0.div_lt_upper_bound; lia|].
  by apply N.mod_lt.
Qed.

Lemma quoteBytes_small l : Forall (λ x, x < 256) l → Forall (λ x, x < 256) (quoteBytes l).
Proof.
  remember (length l) as n eqn:Hn. revert l Hn.
  induction n as [n IH] using lt_wf_ind; intros l ->.
  destruct l as [|b0 l1]; [done|]. intros [H0 H1]%Forall_cons. cbn [quoteBytes].
  assert (∀ l', (length l' < length (b0 :: l1))%nat → Forall (λ x, x < 256) l' → Forall (λ x, x < 256) (quoteBytes l')) as Hq
    by (intros; by apply (IH (length l'))).
  assert (∀ s l', (length l' < length (b0 :: l1))%nat → Forall (λ x, x < 256) l' →
    Forall (λ x, x < 256) (bytes s ++ quoteBytes l')) as Hs
    by (intros; apply Forall_app; split; [apply bytes_small|by apply Hq]).
  destruct (N.ltb_spec b0 128); [apply Forall_app; split; [by apply quoteByte_small|by apply Hq; [simpl; lia|]]|].
  repeat (case_match; subst; rewrite ?Forall_cons in *; destruct_and?; try (apply Hs; simpl; [lia|by rewrite ?Forall_cons]));
    rewrite ?Forall_cons; split_and?; try done; apply Hq; simpl; try lia; done.
Qed.

(** A quoted string is one token. *)
Lemma lex_quote s rest :
  ValidString s = true → lex MOut (bytes (quote s) ++ rest) = cons (TStr (bytes s)) <$> lex MOut rest.
Proof.
  intros Hv. unfold quote. rewrite bytes_of_bytes by (apply Forall_app; split; [constructor; [lia|apply quoteBytes_small, bytes_small]|by repeat constructor]).
  rewrite <- (assoc_L (++)). cbn [app]. rewrite (lex_quiet _ _ (MStr [] None)) by done.
  rewrite reads_quoteBytes by done. rewrite rev_append_rev, app_nil_r. simpl. rewrite rev_involutive.
  rewrite jsonCoerceBytes_valid by done. by destruct (lex MOut rest).
Qed.

(** The document createVerificationEvidence stores. *)
Definition verificationFixtureSchema : string := "aspm.synthetic-fixture/v1".
Definition fixtureDocument (environmentID : string) (condition : bool) : string :=
  marshal (JObject [("schema", JString verificationFixtureSchema); ("environmentId", JString environmentID);
                    ("condition", JBool condition)]).

Lemma lex_token c t r : lexByte MOut c = Some (MOut, [t]) → lex MOut ([c] ++ r) = cons t <$> lex MOut r.
Proof. intros Hc. cbn [app lex]. rewrite Hc. by destruct (lex MOut r). Qed.

Lemma decode_document environmentID condition :
  ValidString environmentID = true →
  decodeFixture (bytes (fixtureDocument environmentID condition)) =
  Some {| fxSchema := bytes verificationFixtureSchema; fxEnvironmentID := bytes environmentID;
          fxCondition := Some condition |}.
Proof.
  intros Hv. unfold decodeFixture, fixtureDocument. cbn [marshal joinComma]. rewrite !bytes_app, <- !(assoc_L (++)).
  rewrite (lex_token 123 TOpen), lex_quote, (lex_token 58 TColon), lex_quote, (lex_token 44 TComma) by done.
  rewrite lex_quote, (lex_token 58 TColon), lex_quote, (lex_token 44 TComma) by done.
  rewrite lex_quote, (lex_token 58 TColon) by done. by destruct condition.
Qed.
