(* ===== verification/Verifier.v ===== *)
(** * The deterministic verifier (internal/verification/verifier.go)

    [Verify] checks that a request is covered by a current approval, reads the
    evidence through a reader that asks for the approval again before every
    read, and evaluates the fixture.  The approvals and the evidence come
    through two interfaces of the package (LookupApproval and EvidenceReader),
    here two programs over the caller's state.

    The derived context [access] is cancelled by the caller's context, by the
    reader that was denied, or by the goroutine and timer of [guard]: when the
    latter fire is outside the program, [revoked n] says that they have fired
    before the n-th step.  Errors joined with errors.Join are a list. *)
From S2P Require Import Prelude GoLib Encoding Tx ReportAdapter Schema Fixture.
Local Open Scope Z_scope.


Record Approval := {
  apID : string; apWorkspaceID : string; apFindingID : string; apMethod : string;
  apScopeRevision : string; apEnvironmentID : string; apEvidenceSHA256 : string; apApproved : bool;
  apExpiresAt : Z }.

Record verifyRequest := {
  rqWorkspaceID : string; rqFindingID : string; rqRunID : string; rqApprovalRef : string;
  rqMethod : string; rqScopeRevision : string; rqEnvironmentID : string; rqEvidence : evidenceRef }.

Record verifyResult := {
  vrWorkspaceID : string; vrFindingID : string; vrRunID : string; vrEnvironmentID : string;
  vrScopeRevision : string; vrOutcome : string; vrArtifacts : list evidenceRef;
  vrCloseFinding : bool; vrFalsePositive : bool }.

(** An opened reader: what its successive reads return, how they end (None is
    io.EOF) and what Close returns. *)
Record evidenceReader := {
  rdChunks : list (list N); rdError : option error; rdClose : option error }.

(** verification.Open: the authorization interval in nanoseconds. *)
Definition OpenVerifier (maxBytes interval : Z) : Res Z :=
  if (maxBytes <? 1) || (16 * 2 ^ 20 <? maxBytes) then Err VerifyErrLimit
  else let interval := if interval =? 0 then 100000000 else interval in
       if (interval <? 10000000) || (1000000000 <? interval) then Err VerifyErrPolicy else Ok interval.

Definition contextError (e : error) : bool := e ==? ErrContext.
(** errors.Is on a list of joined errors. *)
Definition isError (e : error) (errs : list error) : bool := bool_decide (e ∈ errs).

Definition boundaryOutcome (errs : list error) : string :=
  if isError ErrContext errs then "cancelled" else if isError EvidenceErrScope errs then "blocked" else "error".

Definition approvalMatches (now : Z) (a : Approval) (r : verifyRequest) : bool :=
  apApproved a && (now <? apExpiresAt a) && (apID a ==? rqApprovalRef r) && (apWorkspaceID a ==? rqWorkspaceID r) &&
  (apFindingID a ==? rqFindingID r) && (apMethod a ==? rqMethod r) && (apScopeRevision a ==? rqScopeRevision r) &&
  (apEnvironmentID a ==? rqEnvironmentID r) && (erWorkspaceID (rqEvidence r) ==? rqWorkspaceID r) &&
  (apEvidenceSHA256 a ==? erSHA256 (rqEvidence r)).

(** What the fixture says, [None] when it is not a fixture for [environmentID]. *)
Definition fixtureCondition (environmentID : string) (data : list N) : option bool :=
  f ← decodeFixture data;
  if (fxSchema f ==? bytes verificationFixtureSchema) && (fxEnvironmentID f ==? bytes environmentID)
  then fxCondition f else None.

Section verifier.
Context {St : Type} (openEvidence : string → evidenceRef → M St (option evidenceReader))
  (lookupApproval : string → M St Approval) (maxBytes : Z) (revoked : nat → bool).

(** context.Cause(access), given the cause it was cancelled with so far. *)
Definition accessCause (cause : option error) : M St (option error) := λ env n s,
  mkOut (Ok (match cause with
             | Some e => Some e
             | None => if env_done env n then Some ErrContext else if revoked n then Some VerifyErrPolicy else None
             end)) s (n + 1)%nat.
(** [cancelAccess(err)]: the first cause stays. *)
Definition cancelAccess (cause : option error) (e : error) : M St (option error) :=
  c <- accessCause cause ;; ret (Some (default e c)).

(** [current]: why the request is not covered, and the cause seen so far. *)
Definition current (cause : option error) (r : verifyRequest) : M St (option error * option error) :=
  c <- accessCause cause ;;
  match c with
  | Some e => ret (Some e, Some e)
  | None =>
      handle (lookupApproval (rqApprovalRef r)) (λ found,
        c <- accessCause None ;;
        match c with
        | Some e => ret (Some e, Some e)
        | None =>
            match found with
            | Err _ => ret (Some VerifyErrPolicy, None)
            | Ok a => t <- now ;; ret (if approvalMatches t a r then None else Some VerifyErrPolicy, None)
            end
        end)
  end.

(** io.ReadAll over the gated reader, limited to [limit] bytes: what was read,
    why reading stopped early, and the cause. *)
Fixpoint readAll (r : verifyRequest) (chunks : list (list N)) (readError : option error) (limit : nat)
    (acc : list N) (cause : option error) : M St (list N * option error * option error) :=
  match limit with
  | O => ret (acc, None, cause)
  | _ =>
      checked <- current cause r ;;
      match checked with
      | (Some e, cause) => cause <- cancelAccess cause e ;; ret (acc, Some e, cause)
      | (None, cause) =>
          match chunks with
          | [] => ret (acc, readError, cause)
          | chunk :: rest => readAll r rest readError (limit - length chunk) (acc ++ take limit chunk) cause
          end
      end
  end.

(** [accessFailure]: the outcome and the errors it is reported with. *)
Definition accessFailure (cause : option error) (errs : list error) : M St (string * list error) :=
  done <- ctxErr ;;
  if (done : bool) then ret ("cancelled", [ErrContext]) else
  policy <- accessCause cause ;;
  if (policy ==? Some VerifyErrPolicy) || isError VerifyErrPolicy errs then ret ("blocked", [VerifyErrPolicy]) else
  limit <- accessCause cause ;;
  if (limit ==? Some VerifyErrLimit) || isError VerifyErrLimit errs then ret ("blocked", [VerifyErrLimit]) else
  other <- accessCause cause ;;
  match other with
  | Some e => ret (boundaryOutcome [e], e :: errs)
  | None => ret (boundaryOutcome errs, errs)
  end.

Definition resultOf (r : verifyRequest) (outcome : string) (artifacts : list evidenceRef) : verifyResult := {|
  vrWorkspaceID := rqWorkspaceID r; vrFindingID := rqFindingID r; vrRunID := rqRunID r;
  vrEnvironmentID := rqEnvironmentID r; vrScopeRevision := rqScopeRevision r; vrOutcome := outcome;
  vrArtifacts := artifacts; vrCloseFinding := false; vrFalsePositive := false |}.
Definition stopped (r : verifyRequest) (o : string * list error) : verifyResult * list error :=
  (resultOf r (fst o) [], snd o).
Definition denied (r : verifyRequest) (cause : option error) (errs : list error) : M St (verifyResult * list error) :=
  o <- accessFailure cause errs ;; ret (stopped r o).

(** The bytes read, judged. *)
Definition evaluateFixture (r : verifyRequest) (data : list N) (cause : option error)
    : M St (verifyResult * list error) :=
  checked <- current cause r ;;
  match checked with
  | (Some e, cause) => denied r cause [e]
  | (None, cause) =>
      if maxBytes <? Z.of_nat (length data) then ret (stopped r ("blocked", [VerifyErrLimit]))
      else if negb ((Z.of_nat (length data) =? erSizeBytes (rqEvidence r)) &&
                    ("sha256:" +:+ hex (Sum256 data) ==? erSHA256 (rqEvidence r)))
      then ret (stopped r ("error", [EvidenceErrIntegrity]))
      else match fixtureCondition (rqEnvironmentID r) data with
           | None => ret (stopped r ("error", [VerifyErrFormat]))
           | Some condition =>
               done <- ctxErr ;;
               if (done : bool) then ret (stopped r ("cancelled", [ErrContext])) else
               checked <- current cause r ;;
               match checked with
               | (Some e, cause) => denied r cause [e]
               | (None, _) =>
                   ret (resultOf r (if condition : bool then "reproduced" else "not-reproduced") [rqEvidence r], [])
               end
           end
  end.

(** Reading the evidence once the approval matched. *)
Definition readEvidence (r : verifyRequest) : M St (verifyResult * list error) :=
  handle (openEvidence (rqWorkspaceID r) (rqEvidence r)) (λ opened,
  match opened with
  | Err e => denied r None [e]
  | Ok None => ret (stopped r ("error", [errReaderUnavailable]))
  | Ok (Some rd) =>
      read <- readAll r (rdChunks rd) (rdError rd) (Z.to_nat (maxBytes + 1)) [] None ;;
      let '(data, readErr, cause) := read in
      cause <- match readErr with
               | Some e => cancelAccess cause e
               | None => if maxBytes <? Z.of_nat (length data) then cancelAccess cause VerifyErrLimit else ret cause
               end ;;
      done <- ctxErr ;;
      if (done : bool) then ret (stopped r ("cancelled", [ErrContext])) else
      match option_list readErr ++ option_list (rdClose rd) with
      | [] => evaluateFixture r data cause
      | errs => denied r cause errs
      end
  end).

Definition Verify (r : verifyRequest) : M St (verifyResult * list error) :=
  done <- ctxErr ;;
  if (done : bool) then ret (stopped r ("cancelled", [ErrContext])) else
  if (rqMethod r !=? "deterministic-evidence") || (rqApprovalRef r ==? "") || (rqWorkspaceID r ==? "") ||
     (rqFindingID r ==? "") || (rqRunID r ==? "") || (rqEnvironmentID r ==? "") || (rqScopeRevision r ==? "")
  then ret (stopped r ("blocked", [VerifyErrPolicy])) else
  if (erSizeBytes (rqEvidence r) <? 0) || (maxBytes <? erSizeBytes (rqEvidence r))
  then ret (stopped r ("blocked", [VerifyErrLimit])) else
  handle (lookupApproval (rqApprovalRef r)) (λ found,
    done <- ctxErr ;;
    if (done : bool) then ret (stopped r ("cancelled", [ErrContext])) else
    match found with
    | Err e => ret (stopped r (if contextError e then ("cancelled", [e]) else ("blocked", [VerifyErrPolicy])))
    | Ok a =>
        t <- now ;;
        if negb (approvalMatches t a r) then ret (stopped r ("blocked", [VerifyErrPolicy])) else
        done <- ctxErr ;;
        if (done : bool) then ret (stopped r ("cancelled", [ErrContext])) else readEvidence r
    end).
End verifier.

(** ** What a successful verification says

    The verifier is proved against its two interfaces: whatever programs answer
    its lookups and its reads, and whatever happens to the state in between,
    a verification without error judged bytes with the approved digest.  Over a
    reader and a registry that answer, it reaches its verdict. *)

(** The bytes behind a digest say [o] about an environment. *)
Definition judged (digest environmentID : string) (o : bool) : Prop :=
  ∃ data, "sha256:" +:+ hex (Sum256 data) = digest ∧ fixtureCondition environmentID data = Some o.

Section soundness.
Context {St : Type} (openEvidence : string → evidenceRef → M St (option evidenceReader))
  (lookupApproval : string → M St Approval) (maxBytes : Z) (revoked : nat → bool).

(** An approval that matched the request when it was looked up in [s]. *)
Definition matchedAt (env : Env) (r : verifyRequest) (s : St) : Prop :=
  ∃ n a t, out_res (lookupApproval (rqApprovalRef r) env n s) = Ok a ∧ approvalMatches t a r = true.

Lemma current_ok cause r env n s c s' n' :
  current lookupApproval revoked cause r env n s = mkOut (Ok (None, c)) s' n' → matchedAt env r s.
Proof.
  unfold current. intros H. apply bind_inv in H as (c1 & s1 & n1 & Hc & H). injection Hc as <- <- <-.
  destruct (match cause with Some e => Some e | None => _ end); [by apply ret_inv in H as [? _]|].
  apply handle_inv in H as (found & s2 & n2 & Hf & H).
  apply bind_inv in H as (c2 & s3 & n3 & Hc & H). injection Hc as <- <- <-.
  destruct (if env_done env n2 then _ else _); [by apply ret_inv in H as [? _]|].
  destruct found as [a|]; [|by apply ret_inv in H as [? _]].
  apply bind_inv in H as (t & s4 & n4 & [-> ->]%now_inv & H). apply ret_inv in H as [[= Hm] _].
  destruct (approvalMatches _ a r) eqn:E; [|done]. eexists _, a, _. by rewrite Hf.
Qed.

Lemma accessFailure_errs cause errs env n (s : St) o s' n' :
  errs ≠ [] → accessFailure revoked cause errs env n s = mkOut (Ok o) s' n' → snd o ≠ [].
Proof.
  intros Hne. unfold accessFailure. intros H. apply bind_inv in H as (d & ? & ? & _ & H).
  destruct d; [by apply ret_inv in H as [<- _]|].
  apply bind_inv in H as (p & ? & ? & _ & H). case_match; [by apply ret_inv in H as [<- _]|].
  apply bind_inv in H as (l & ? & ? & _ & H). case_match; [by apply ret_inv in H as [<- _]|].
  apply bind_inv in H as (o' & ? & ? & _ & H). destruct o'; by apply ret_inv in H as [<- _].
Qed.

Lemma denied_errs r cause errs env n (s : St) o s' n' :
  errs ≠ [] → denied revoked r cause errs env n s = mkOut (Ok o) s' n' → snd o ≠ [].
Proof.
  intros Hne H. apply bind_inv in H as (x & ? & ? & Hx & H). apply ret_inv in H as [<- _].
  by eapply accessFailure_errs.
Qed.

Definition verdict (r : verifyRequest) (res : verifyResult) (s : St) (env : Env) : Prop :=
  ∃ o, vrOutcome res = (if o : bool then "reproduced" else "not-reproduced") ∧
    judged (erSHA256 (rqEvidence r)) (rqEnvironmentID r) o ∧ erSizeBytes (rqEvidence r) <= maxBytes ∧
    vrArtifacts res = [rqEvidence r] ∧ vrCloseFinding res = false ∧ vrFalsePositive res = false ∧
    matchedAt env r s.

Lemma evaluateFixture_sound r data cause env n s res s' n' :
  evaluateFixture lookupApproval maxBytes revoked r data cause env n s = mkOut (Ok (res, [])) s' n' →
  ∃ s1, verdict r res s1 env.
Proof.
  unfold evaluateFixture. intros H. apply bind_inv in H as ([[e|] c] & s1 & n1 & Hc & H).
  { by apply denied_errs in H. }
  destruct (Z.ltb_spec maxBytes (Z.of_nat (length data))); [by apply ret_inv in H as [? _]|].
  destruct (_ && _) eqn:Hd; simpl in H; [|by apply ret_inv in H as [? _]]. breflect_in Hd. destruct Hd as [Hl Hd].
  destruct (fixtureCondition _ data) as [o|] eqn:Hf; [|by apply ret_inv in H as [? _]].
  apply bind_inv in H as (d & s2 & n2 & Hd2 & H). destruct d; [by apply ret_inv in H as [? _]|].
  apply bind_inv in H as ([[e|] c2] & s3 & n3 & Hc2 & H); [by apply denied_errs in H|].
  apply ret_inv in H as [[= <-] _]. exists s2, o. split; [done|]. split; [by exists data|].
  split; [lia|]. repeat (split; [done|]). by eapply current_ok.
Qed.

(** A verification without error judged bytes with the requested digest, under
    an approval that matched at its end. *)
Lemma Verify_sound r env n s res s' n' :
  Verify openEvidence lookupApproval maxBytes revoked r env n s = mkOut (Ok (res, [])) s' n' →
  ∃ s1, verdict r res s1 env.
Proof.
  unfold Verify. intros H. apply bind_inv in H as (d & s1 & n1 & _ & H).
  destruct d; [by apply ret_inv in H as [? _]|]. case_match; [by apply ret_inv in H as [? _]|].
  case_match; [by apply ret_inv in H as [? _]|].
  apply handle_inv in H as (found & s2 & n2 & _ & H).
  apply bind_inv in H as (d & s3 & n3 & _ & H). destruct d; [by apply ret_inv in H as [? _]|].
  destruct found as [a|e]; [|apply ret_inv in H as [H _]; by destruct (contextError e)].
  apply bind_inv in H as (t & s4 & n4 & _ & H). case_match; [by apply ret_inv in H as [? _]|].
  apply bind_inv in H as (d & s5 & n5 & _ & H). destruct d; [by apply ret_inv in H as [? _]|].
  unfold readEvidence in H. apply handle_inv in H as (opened & s6 & n6 & _ & H).
  destruct opened as [[rd|]|e]; [|by apply ret_inv in H as [? _]|by apply denied_errs in H].
  apply bind_inv in H as ([[data readErr] cause] & s7 & n7 & _ & H).
  apply bind_inv in H as (cause' & s8 & n8 & _ & H).
  apply bind_inv in H as (d & s9 & n9 & _ & H). destruct d; [by apply ret_inv in H as [? _]|].
  destruct (option_list readErr ++ option_list (rdClose rd)) eqn:E; [by eapply evaluateFixture_sound|].
  by apply denied_errs in H.
Qed.
End soundness.

(** ** Reaching a verdict *)
Section completeness.
Context {St : Type} (openEvidence : string → evidenceRef → M St (option evidenceReader))
  (lookupApproval : string → M St Approval) (maxBytes : Z) (revoked : nat → bool).
Context (env : Env) (s : St) (r : verifyRequest) (a : Approval) (rd : evidenceReader) (o : bool).

(** Nothing fails or is withdrawn while the request is verified ... *)
Context (Henv : faultless env) (Hrevoked : ∀ n, revoked n = false)
  (Hlookup : ∀ n, ∃ n', lookupApproval (rqApprovalRef r) env n s = mkOut (Ok a) s n')
  (Hmatches : ∀ n, approvalMatches (env_now env n) a r = true)
  (Hopen : ∀ n, ∃ n', openEvidence (rqWorkspaceID r) (rqEvidence r) env n s = mkOut (Ok (Some rd)) s n').
(** ... and the reader delivers bytes of the announced size and digest. *)
Context (Hread : rdError rd = None) (Hclose : rdClose rd = None)
  (Hsize : Z.of_nat (length (concat (rdChunks rd))) = erSizeBytes (rqEvidence r))
  (Hmax : erSizeBytes (rqEvidence r) <= maxBytes)
  (Hdigest : "sha256:" +:+ hex (Sum256 (concat (rdChunks rd))) = erSHA256 (rqEvidence r))
  (Hfixture : fixtureCondition (rqEnvironmentID r) (concat (rdChunks rd)) = Some o).

Lemma bind_run {S A B} (m : M S A) (k : A → M S B) e n x y v n' :
  m e n x = mkOut (Ok v) y n' → bind m k e n x = k v e n' y.
Proof. unfold bind. by intros ->. Qed.
Lemma handle_run {S A B} (m : M S A) (k : Res A → M S B) e n x y v n' :
  m e n x = mkOut v y n' → handle m k e n x = k v e n' y.
Proof. unfold handle. by intros ->. Qed.

Lemma accessCause_runs n : accessCause revoked None env n s = mkOut (Ok None) s (n + 1)%nat.
Proof. destruct Henv as (_ & _ & Hd). unfold accessCause. by rewrite Hd, Hrevoked. Qed.

Lemma current_runs n : ∃ n', current lookupApproval revoked None r env n s = mkOut (Ok (None, None)) s n'.
Proof.
  unfold current. rewrite (bind_run _ _ _ _ _ _ _ _ (accessCause_runs n)). destruct (Hlookup (n + 1)) as [n1 H1].
  rewrite (handle_run _ _ _ _ _ _ _ _ H1), (bind_run _ _ _ _ _ _ _ _ (accessCause_runs n1)).
  eexists. rewrite (bind_run _ _ _ _ s s _ _ eq_refl). by rewrite Hmatches.
Qed.

Lemma readAll_runs chunks limit acc n :
  (length (concat chunks) < limit)%nat →
  ∃ n', readAll lookupApproval revoked r chunks None limit acc None env n s =
        mkOut (Ok (acc ++ concat chunks, None, None)) s n'.
Proof.
  revert limit acc n. induction chunks as [|c chunks IH]; intros limit acc n Hl; destruct limit as [|limit]; [simpl in Hl; lia| |simpl in Hl; lia|].
  - cbn [readAll]. destruct (current_runs n) as [n1 H1]. rewrite (bind_run _ _ _ _ _ _ _ _ H1). simpl.
    rewrite app_nil_r. by eexists.
  - cbn [readAll]. destruct (current_runs n) as [n1 H1]. rewrite (bind_run _ _ _ _ _ _ _ _ H1).
    simpl in Hl. rewrite length_app in Hl. destruct (IH (S limit - length c)%nat (acc ++ take (S limit) c) n1) as [n2 H2]; [lia|].
    exists n2. rewrite H2. simpl. by rewrite take_ge, (assoc_L (++)) by lia.
Qed.

Definition namedRequest : bool :=
  (rqMethod r ==? "deterministic-evidence") && (rqApprovalRef r !=? "") && (rqWorkspaceID r !=? "") &&
  (rqFindingID r !=? "") && (rqRunID r !=? "") && (rqEnvironmentID r !=? "") && (rqScopeRevision r !=? "").

Lemma ctxErr_runs n : ctxErr env n s = mkOut (Ok false) s (n + 1)%nat.
Proof. destruct Henv as (_ & _ & Hd). unfold ctxErr. by rewrite Hd. Qed.

Lemma evaluateFixture_runs n :
  ∃ n', evaluateFixture lookupApproval maxBytes revoked r (concat (rdChunks rd)) None env n s =
        mkOut (Ok (resultOf r (if o then "reproduced" else "not-reproduced") [rqEvidence r], [])) s n'.
Proof.
  unfold evaluateFixture. destruct (current_runs n) as [n1 H1]. rewrite (bind_run _ _ _ _ _ _ _ _ H1).
  rewrite (proj2 (Z.ltb_ge maxBytes _)) by lia. rewrite Hsize, Z.eqb_refl, Hdigest, bool_decide_true by done. simpl.
  rewrite Hfixture, (bind_run _ _ _ _ _ _ _ _ (ctxErr_runs n1)). destruct (current_runs (n1 + 1)) as [n2 H2].
  rewrite (bind_run _ _ _ _ _ _ _ _ H2). by eexists.
Qed.

Lemma Verify_runs n :
  namedRequest = true →
  ∃ n', Verify openEvidence lookupApproval maxBytes revoked r env n s =
        mkOut (Ok (resultOf r (if o then "reproduced" else "not-reproduced") [rqEvidence r], [])) s n'.
Proof.
  intros Hn. unfold Verify. rewrite (bind_run _ _ _ _ _ _ _ _ (ctxErr_runs n)). unfold namedRequest in Hn.
  breflect_in Hn. destruct Hn as ((((((Hn1 & Hn2) & Hn3) & Hn4) & Hn5) & Hn6) & Hn7).
  rewrite (bool_decide_true _ Hn1), !bool_decide_false by done. simpl.
  rewrite (proj2 (Z.ltb_ge _ _)), (proj2 (Z.ltb_ge maxBytes _)) by lia. simpl.
  destruct (Hlookup (n + 1)) as [n1 H1]. rewrite (handle_run _ _ _ _ _ _ _ _ H1).
  rewrite (bind_run _ _ _ _ _ _ _ _ (ctxErr_runs n1)), (bind_run _ _ _ _ s s _ _ eq_refl), Hmatches. simpl.
  rewrite (bind_run _ _ _ _ _ _ _ _ (ctxErr_runs _)). unfold readEvidence.
  destruct (Hopen (n1 + 1 + 1 + 1)) as [n2 H2]. rewrite (handle_run _ _ _ _ _ _ _ _ H2), Hread.
  destruct (readAll_runs (rdChunks rd) (Z.to_nat (maxBytes + 1)) [] n2) as [n3 H3]; [lia|].
  rewrite (bind_run _ _ _ _ _ _ _ _ H3). simpl. rewrite (proj2 (Z.ltb_ge maxBytes _)) by lia.
  rewrite (bind_run _ _ _ _ s s _ _ eq_refl), (bind_run _ _ _ _ _ _ _ _ (ctxErr_runs _)), Hclose. simpl.
  apply evaluateFixture_runs.
Qed.
End completeness.
