(* ===== verification/Verification.v ===== *)
(** * Verification evidence, approvals and jobs (internal/app/verification.go)

    Evidence is a small fixture bound to the evidence revision its finding had;
    an administrator approves it for at most a day; a job asks the worker to
    evaluate it under that approval.  The handlers below are the bodies of the
    HTTP handlers on decoded inputs; roles are checked by the router. *)
From S2P Require Import Prelude GoLib Encoding Tx ReportAdapter Schema Auth Paging Assets WorkViews Work Reports ReportSLA ReportQueue ReportSnapshots ReportExports Fixture.
Local Open Scope Z_scope.

Definition verificationMethod : string := "deterministic-evidence".
Definition verificationFixtureLimit : Z := 64 * 1024.

(** ** What the API shows *)

(** Evidence without its content. *)
Record VerificationEvidence := {
  EvID : string; EvWorkspaceID : string; EvFindingID : string; EvSubmittedBy : string; EvMethod : string;
  EvSchema : string; EvEnvironmentID : string; EvScopeRevision : string; EvFindingEvidenceRevision : Z;
  EvDigest : string; EvSizeBytes : Z; EvCreatedAt : Z }.
Definition scanVerificationEvidence (id : string) (e : VerificationEvidenceRow) : VerificationEvidence := {|
  EvID := id; EvWorkspaceID := ve_workspace_id e; EvFindingID := ve_finding_id e; EvSubmittedBy := ve_submitted_by e;
  EvMethod := ve_method e; EvSchema := ve_fixture_schema e; EvEnvironmentID := ve_environment_id e;
  EvScopeRevision := ve_scope_revision e; EvFindingEvidenceRevision := ve_finding_evidence_revision e;
  EvDigest := ve_content_digest e; EvSizeBytes := ve_content_size e; EvCreatedAt := ve_created_at e |}.

Record VerificationApproval := {
  VaID : string; VaRow : VerificationApprovalRow; VaCurrent : bool }.
(** [revoked_at IS NULL AND expires_at>$1 AND finding_evidence_revision=...]. *)
Definition approvalCurrent (now revision : Z) (a : VerificationApprovalRow) : bool :=
  negb (isSome (va_revoked a)) && (now <? va_expires_at a) &&
  (vb_finding_evidence_revision (va_binding a) =? revision).
Definition scanVerificationApproval (now revision : Z) (id : string) (a : VerificationApprovalRow)
    : VerificationApproval :=
  {| VaID := id; VaRow := a; VaCurrent := approvalCurrent now revision a |}.

Record VerificationResult := {
  ReMethod : string; ReEnvironmentID : string; ReScopeRevision : string; ReEvidenceID : string;
  ReEvidenceDigest : string; ReOutcome : string; ReCloseFinding : bool; ReFalsePositive : bool }.
Definition outcomeText (reproduced : bool) : string := if reproduced then "reproduced" else "not-reproduced".

(** A job as the handlers and the worker see it; a finished job is not retried. *)
Record verificationJobRecord := {
  JobID : string; JobRow : VerificationRow; JobFailure : option (string * string * bool);
  JobResult : option VerificationResult; JobWorkerID : string }.
Definition JobBinding (j : verificationJobRecord) : VerificationBinding := vj_binding (vj_meta (JobRow j)).
Definition scanVerificationJob (id : string) (r : VerificationRow) : verificationJobRecord :=
  let b := vj_binding (vj_meta r) in
  {| JobID := id; JobRow := r;
     JobFailure := (λ f, (f.1, f.2, false)) <$> vj_failure (vj_entry r);
     JobResult := (λ o, {| ReMethod := vb_method b; ReEnvironmentID := vb_environment_id b;
       ReScopeRevision := vb_scope_revision b; ReEvidenceID := vb_evidence_id b;
       ReEvidenceDigest := vb_evidence_digest b; ReOutcome := outcomeText o;
       ReCloseFinding := vj_close_finding (vj_entry r); ReFalsePositive := vj_false_positive (vj_entry r) |})
       <$> vj_reproduced (vj_entry r);
     JobWorkerID := default "" (vj_worker_id (vj_entry r)) |}.

(** ** Selecting *)

(** [SELECT evidence_revision FROM findings WHERE workspace_id=$1 AND id=$2]. *)
Definition findingRevision (workspace finding : string) (db : DB) : option Z :=
  match t_findings db !! finding with
  | Some f => if f_workspace_id f ==? workspace then Some (f_evidence_revision f) else None
  | None => None
  end.
Definition orNoRows {A} (x : option A) : Res A := match x with Some a => Ok a | None => Err ErrNoRows end.

Definition evidenceOf (workspace finding id : string) (db : DB) : option VerificationEvidenceRow :=
  match t_verificationEvidence db !! id with
  | Some e => if (ve_workspace_id e ==? workspace) && (ve_finding_id e ==? finding) then Some e else None
  | None => None
  end.
Definition approvalOf (workspace finding id : string) (db : DB) : option VerificationApprovalRow :=
  match t_verificationApprovals db !! id with
  | Some a => if (vb_workspace_id (va_binding a) ==? workspace) && (vb_finding_id (va_binding a) ==? finding)
              then Some a else None
  | None => None
  end.
(** ... joined with its finding: the approval and the finding's revision. *)
Definition approvalWithRevision (workspace finding id : string) (db : DB) : option (VerificationApprovalRow * Z) :=
  a ← approvalOf workspace finding id db;
  rev ← findingRevision workspace finding db; Some (a, rev).

Definition member (workspace user : string) (db : DB) : bool := isSome (t_memberships db !! (workspace, user)).

(** ** Evidence *)

Record evidenceInput := {
  inMethod : string; inEnvironmentID : string; inScopeRevision : string; inFixtureSchema : string;
  inFixtureEnvironmentID : string; inCondition : option bool }.

Definition evidenceRow (workspace finding user : string) (i : evidenceInput) (content : list N) (revision at_ : Z)
    : VerificationEvidenceRow := {|
  ve_workspace_id := workspace; ve_finding_id := finding; ve_submitted_by := user; ve_method := verificationMethod;
  ve_fixture_schema := verificationFixtureSchema; ve_environment_id := inEnvironmentID i;
  ve_scope_revision := inScopeRevision i; ve_finding_evidence_revision := revision; ve_content := content;
  ve_content_digest := "sha256:" +:+ hex (Sum256 content); ve_content_size := Z.of_nat (length content);
  ve_created_at := at_ |}.

Definition evidenceTx (workspace finding user : string) (i : evidenceInput) (content : list N)
    : M DB VerificationEvidence :=
  revision <- query (λ _ db, orNoRows (findingRevision workspace finding db)) ;;
  id <- newID ;;
  at_ <- now ;;
  let row := evidenceRow workspace finding user i content revision at_ in
  insertInto t_verificationEvidence with_verificationEvidence
    (requires (λ db, member workspace user db && (0 <? revision)) ErrConstraint) id row ;;;
  ret (scanVerificationEvidence id row).

Definition createVerificationEvidence (workspace finding user : string) (i : evidenceInput)
    : M DB VerificationEvidence :=
  match inCondition i with
  | None => throw errInvalid
  | Some condition =>
      guard ((inMethod i ==? verificationMethod) && (inFixtureSchema i ==? verificationFixtureSchema) &&
             (inEnvironmentID i ==? inFixtureEnvironmentID i) && validText (inEnvironmentID i) 256 &&
             validText (inScopeRevision i) 256) errInvalid ;;;
      let content := bytes (fixtureDocument (inFixtureEnvironmentID i) condition) in
      guard ((1 <=? Z.of_nat (length content)) && (Z.of_nat (length content) <=? verificationFixtureLimit)) errInvalid ;;;
      transaction (evidenceTx workspace finding user i content)
  end.

(** ** Approvals *)

Definition dayNanos : Z := 24 * 3600 * 1000000000.

Definition evidenceBinding (id : string) (e : VerificationEvidenceRow) : VerificationBinding := {|
  vb_workspace_id := ve_workspace_id e; vb_finding_id := ve_finding_id e; vb_evidence_id := id;
  vb_method := ve_method e; vb_environment_id := ve_environment_id e; vb_scope_revision := ve_scope_revision e;
  vb_finding_evidence_revision := ve_finding_evidence_revision e; vb_evidence_digest := ve_content_digest e |}.

(** [now] and [expires] in nanoseconds; the columns keep microseconds. *)
Definition approvalTx (workspace finding user evidenceID rationale : string) (now expires : Z)
    : M DB VerificationApproval :=
  evidence <- query (λ _ db, orNoRows (evidenceOf workspace finding evidenceID db)) ;;
  revision <- query (λ _ db, orNoRows (findingRevision workspace finding db)) ;;
  guard (ve_finding_evidence_revision evidence =? revision) errConflict ;;;
  id <- newID ;;
  let row := {| va_binding := evidenceBinding evidenceID evidence; va_approved_by := user; va_rationale := rationale;
                va_created_at := now / 1000; va_expires_at := expires / 1000; va_revoked := None |} in
  insertInto t_verificationApprovals with_verificationApprovals
    (requires (λ db, member workspace user db && (va_created_at row <? va_expires_at row)) ErrConstraint) id row ;;;
  ret {| VaID := id; VaRow := row; VaCurrent := true |}.

(** [expires] is the parsed instant of the request, [None] when time.Parse refused it. *)
Definition createVerificationApproval (workspace finding user evidenceID rationale : string) (expires : option Z)
    : M DB VerificationApproval :=
  now_ <- nowNanos ;;
  match expires with
  | None => throw errInvalid
  | Some e =>
      guard (validID evidenceID && validText rationale 8192 && (now_ <? e) && (e <=? now_ + dayNanos)) errInvalid ;;;
      transaction (approvalTx workspace finding user evidenceID rationale now_ e)
  end.

(** ** Revocation *)

Definition revokedApproval (now : Z) (user rationale : string) (a : VerificationApprovalRow) : VerificationApprovalRow := {|
  va_binding := va_binding a; va_approved_by := va_approved_by a; va_rationale := va_rationale a;
  va_created_at := va_created_at a; va_expires_at := va_expires_at a; va_revoked := Some (now, user, rationale) |}.

Definition setEntry (r : VerificationRow) (e : VerificationEntry) : VerificationRow :=
  {| vj_meta := vj_meta r; vj_entry := e |}.
(** The entry of a job that ended without a result. *)
Definition endEntry (state : vstate) (failure : string * string) (now fence : Z) (e : VerificationEntry) : VerificationEntry := {|
  vj_state := state; vj_reproduced := vj_reproduced e; vj_close_finding := vj_close_finding e;
  vj_false_positive := vj_false_positive e; vj_failure := Some failure; vj_completed_at := Some now;
  vj_worker_id := None; vj_fence := fence; vj_attempts := vj_attempts e; vj_lease_until := None;
  vj_available_at := vj_available_at e |}.

Definition revokedFailure : string * string :=
  ("approval-revoked", "Verification approval was revoked before completion").
Definition cancelJob (now : Z) (r : VerificationRow) : VerificationRow :=
  setEntry r (endEntry VCancelled revokedFailure now (vj_fence (vj_entry r) + 1) (vj_entry r)).
Definition openJob (r : VerificationRow) : bool :=
  (vj_state (vj_entry r) ==? VQueued) || (vj_state (vj_entry r) ==? VProcessing).
(** [completed_at>=created_at] of every row the statement completes. *)
Definition completesInOrder (now : Z) (P : VerificationRow → bool) (db : DB) : bool :=
  negb (anyRow (λ _ r, P r && (now <? vj_created_at (vj_meta r))) (t_verificationJobs db)).
Definition jobsOf (workspace finding approval : string) (r : VerificationRow) : bool :=
  (vb_workspace_id (vj_binding (vj_meta r)) ==? workspace) && (vb_finding_id (vj_binding (vj_meta r)) ==? finding) &&
  (vj_approval_id (vj_meta r) ==? approval) && openJob r.

Definition revokeTx (workspace finding approvalID user rationale : string) : M DB VerificationApproval :=
  approval <- query (λ _ db, orNoRows (approvalOf workspace finding approvalID db)) ;;
  guard (negb (isSome (va_revoked approval))) errConflict ;;;
  now_ <- now ;;
  stmt (λ _ db,
    match approvalOf workspace finding approvalID db with
    | Some a => if member workspace user db && (va_created_at a <=? now_)
                then Ok (tt, with_verificationApprovals
                       (<[approvalID := revokedApproval now_ user rationale a]> (t_verificationApprovals db)) db)
                else Err ErrConstraint
    | None => Ok (tt, db)
    end) ;;;
  stmt (λ _ db,
    if completesInOrder now_ (jobsOf workspace finding approvalID) db
    then Ok (tt, with_verificationJobs (updateRows (λ _ r, jobsOf workspace finding approvalID r) (cancelJob now_)
                                         (t_verificationJobs db)) db)
    else Err ErrConstraint) ;;;
  value <- query (λ _ db, orNoRows (approvalWithRevision workspace finding approvalID db)) ;;
  ret (scanVerificationApproval now_ (snd value) approvalID (fst value)).

Definition revokeVerificationApproval (workspace finding approvalID user rationale : string) : M DB VerificationApproval :=
  guard (validText rationale 8192) errInvalid ;;;
  transaction (revokeTx workspace finding approvalID user rationale).

(** ** Jobs *)

Definition queuedEntry (available : Z) : VerificationEntry := {|
  vj_state := VQueued; vj_reproduced := None; vj_close_finding := false; vj_false_positive := false;
  vj_failure := None; vj_completed_at := None; vj_worker_id := None; vj_fence := 0; vj_attempts := 0;
  vj_lease_until := None; vj_available_at := available |}.

Definition sameJobKey (workspace key : string) (r : VerificationRow) : bool :=
  (vb_workspace_id (vj_binding (vj_meta r)) ==? workspace) && (vj_idempotency_key (vj_meta r) ==? key).
Definition jobByKey (workspace key : string) (db : DB) : option verificationJobRecord :=
  (λ p, scanVerificationJob p.1 p.2) <$> findRow (λ _ r, sameJobKey workspace key r) (t_verificationJobs db).

(** The foreign keys of a job: its requester and the approval with its binding. *)
Definition jobReferences (m : VerificationMeta) (db : DB) : bool :=
  member (vb_workspace_id (vj_binding m)) (vj_requested_by m) db &&
  match t_verificationApprovals db !! vj_approval_id m with
  | Some a => va_binding a ==? vj_binding m
  | None => false
  end.
(** [INSERT ... ON CONFLICT(workspace_id,idempotency_key) DO NOTHING]: whether a row was inserted. *)
Definition insertVerificationJob (id : string) (m : VerificationMeta) : M DB bool :=
  stmt (λ t db,
    if anyRow (λ _ r, sameJobKey (vb_workspace_id (vj_binding m)) (vj_idempotency_key m) r) (t_verificationJobs db)
    then Ok (false, db)
    else if negb (jobReferences m db) then Err ErrConstraint
    else match insertRow id {| vj_meta := m; vj_entry := queuedEntry t |} (t_verificationJobs db) with
         | Ok jobs => Ok (true, with_verificationJobs jobs db)
         | Err e => Err e
         end).

Definition enqueueVerificationTx (workspace finding user approvalID key : string) : M DB (Z * verificationJobRecord) :=
  existing <- query (λ _ db, Ok (jobByKey workspace key db)) ;;
  match existing with
  | Some job =>
      guard ((vb_finding_id (JobBinding job) ==? finding) && (vj_approval_id (vj_meta (JobRow job)) ==? approvalID))
        errConflict ;;;
      ret (200, job)
  | None =>
      now_ <- now ;;
      found <- query (λ _ db, orNoRows (approvalWithRevision workspace finding approvalID db)) ;;
      let '(approval, revision) := found in
      guard (approvalCurrent now_ revision approval) errConflict ;;;
      id <- newID ;;
      inserted <- insertVerificationJob id {| vj_binding := va_binding approval; vj_approval_id := approvalID;
        vj_requested_by := user; vj_idempotency_key := key; vj_created_at := now_ |} ;;
      job <- query (λ _ db, orNoRows (jobByKey workspace key db)) ;;
      guard ((vb_finding_id (JobBinding job) ==? finding) && (vj_approval_id (vj_meta (JobRow job)) ==? approvalID))
        errConflict ;;;
      ret (if (inserted : bool) then 202 else 200, job)
  end.

Definition enqueueVerification (workspace finding user approvalID key : string) : M DB (Z * verificationJobRecord) :=
  guard (validID approvalID && validText key 256) errInvalid ;;;
  transaction (enqueueVerificationTx workspace finding user approvalID key).

(** ** Reading *)

(** [listVerificationPage]: one page of the rows of a finding, of one of the
    three kinds; the kind decides whether the clock is read and how rows are shown. *)
Definition verificationPage {V A} (proj : DB → gmap string V) (binding : V → string * string) (clock : M DB Z)
    (scan : Z → DB → string → V → option A) (key : A → string) (query_ : urlQuery) (workspace finding : string)
    : M DB (list A * Z * option string) :=
  p <- fromRes (reportExportPageParameters query_) ;;
  let P (v : V) := binding v ==? (workspace, finding) in
  transaction (
    total <- query (λ _ db, Ok (countRows (λ _ v, P v) (proj db))) ;;
    now_ <- clock ;;
    items <- query (λ _ db, Ok (take (fst p + 1) (omap (λ r : string * V, scan now_ db r.1 r.2)
      (rowsAfter (λ i v, P v && isSome (scan now_ db i v)) (proj db) (snd p))))) ;;
    ret (fst (cutPage key (fst p) items), total, snd (cutPage key (fst p) items))).

Definition listVerificationEvidence : urlQuery → string → string → M DB (list VerificationEvidence * Z * option string) :=
  verificationPage t_verificationEvidence (λ e, (ve_workspace_id e, ve_finding_id e)) (ret 0)
    (λ _ _ i e, Some (scanVerificationEvidence i e)) EvID.
Definition listVerificationApprovals : urlQuery → string → string → M DB (list VerificationApproval * Z * option string) :=
  verificationPage t_verificationApprovals (λ a, (vb_workspace_id (va_binding a), vb_finding_id (va_binding a))) now
    (λ now_ db i a, (λ rev, scanVerificationApproval now_ rev i a) <$>
       findingRevision (vb_workspace_id (va_binding a)) (vb_finding_id (va_binding a)) db) VaID.
Definition listVerificationJobs : urlQuery → string → string → M DB (list verificationJobRecord * Z * option string) :=
  verificationPage t_verificationJobs
    (λ j, (vb_workspace_id (vj_binding (vj_meta j)), vb_finding_id (vj_binding (vj_meta j)))) (ret 0)
    (λ _ _ i j, Some (scanVerificationJob i j)) JobID.

Definition getVerificationJob (workspace finding id : string) : M DB verificationJobRecord :=
  query (λ _ db,
    match t_verificationJobs db !! id with
    | Some r => if (vb_workspace_id (vj_binding (vj_meta r)) ==? workspace) &&
                   (vb_finding_id (vj_binding (vj_meta r)) ==? finding)
                then Ok (scanVerificationJob id r) else Err ErrNoRows
    | None => Err ErrNoRows
    end).
