(* ===== verification/VerificationWorker.v ===== *)
(** * The verification worker (internal/app/verification_worker.go)

    [ProcessNext] first fails the jobs whose third lease ran out, then claims
    one job under a lease and a fence, runs the verifier over the database and
    records what it found.  Every write of the worker names the worker, the
    fence and the state the job must still have. *)
From S2P Require Import Prelude GoLib Encoding Tx ReportAdapter Schema Auth Fixture Verifier Verification.
Local Open Scope Z_scope.

Definition verificationAttempts : Z := 3.
Definition second : Z := 1000000.

(** Durations in nanoseconds; the database configuration is not part of the model. *)
Record verificationConfig := {
  cfgWorkerID : string; cfgLease : Z; cfgInterval : Z; cfgMaxFixture : Z }.
Definition normalizeVerificationWorkerConfig (c : verificationConfig) : option verificationConfig :=
  let lease := if cfgLease c =? 0 then 90 * 1000000000 else cfgLease c in
  let interval := if cfgInterval c =? 0 then 100 * 1000000 else cfgInterval c in
  let max := if cfgMaxFixture c =? 0 then verificationFixtureLimit else cfgMaxFixture c in
  if negb (validID (cfgWorkerID c)) || (lease <? 1000000000) || (10 * 60 * 1000000000 <? lease) ||
     (interval <? 10 * 1000000) || (1000000000 <? interval) || (max <? 1) || (verificationFixtureLimit <? max)
  then None
  else Some {| cfgWorkerID := cfgWorkerID c; cfgLease := lease; cfgInterval := interval; cfgMaxFixture := max |}.

(** ** Claims *)

Definition leaseExpired (t : Z) (e : VerificationEntry) : bool :=
  match vj_lease_until e with Some u => u <=? t | None => false end.
Definition leaseLive (t : Z) (e : VerificationEntry) : bool :=
  match vj_lease_until e with Some u => t <? u | None => false end.

Definition spent (t : Z) (r : VerificationRow) : bool :=
  let e := vj_entry r in (verificationAttempts <=? vj_attempts e) && (vj_state e ==? VProcessing) && leaseExpired t e.
(** [ORDER BY lease_until,id]. *)
Definition leaseOrder (a b : string * VerificationRow) : Prop :=
  let ta := default 0 (vj_lease_until (vj_entry a.2)) in let tb := default 0 (vj_lease_until (vj_entry b.2)) in
  (ta <? tb) || (ta =? tb) && strLe a.1 b.1 = true.
#[export] Instance leaseOrder_dec a b : Decision (leaseOrder a b).
Proof. unfold leaseOrder. apply _. Defined.
Definition spentJobs (locked : string → bool) (t : Z) (m : gmap string VerificationRow) : list (string * VerificationRow) :=
  take 100 (merge_sort leaseOrder (rowsWhere (λ id r, spent t r && negb (locked id)) m)).

Definition limitFailure : string * string :=
  ("attempt-limit", "Verification could not complete within its permitted attempts").
Definition endJob (state : vstate) (failure : string * string) (now : Z) (r : VerificationRow) : VerificationRow :=
  setEntry r (endEntry state failure now (vj_fence (vj_entry r)) (vj_entry r)).

Definition failExhausted : M DB bool :=
  now_ <- now ;;
  locked <- skipLocked ;;
  stmt (λ t db,
    let ids := fst <$> spentJobs locked t (t_verificationJobs db) in
    if existsb (λ p, now_ <? vj_created_at (vj_meta p.2)) (spentJobs locked t (t_verificationJobs db))
    then Err ErrConstraint
    else Ok (negb (bool_decide (ids = [])),
             with_verificationJobs (updateRows (λ id _, bool_decide (id ∈ ids)) (endJob VFailed limitFailure now_)
                                      (t_verificationJobs db)) db)).

Definition verifiable (t : Z) (r : VerificationRow) : bool :=
  let e := vj_entry r in
  (vj_attempts e <? verificationAttempts) &&
  ((vj_state e ==? VQueued) && (vj_available_at e <=? t) || (vj_state e ==? VProcessing) && leaseExpired t e).
(** [ORDER BY available_at,id]. *)
Definition availableLe (a b : string * VerificationRow) : bool :=
  (vj_available_at (vj_entry a.2) <? vj_available_at (vj_entry b.2)) ||
  (vj_available_at (vj_entry a.2) =? vj_available_at (vj_entry b.2)) && strLe a.1 b.1.
Definition nextVerification (locked : string → bool) (t : Z) (m : gmap string VerificationRow)
    : option (string * VerificationRow) :=
  argmin availableLe (rowsWhere (λ id r, verifiable t r && negb (locked id)) m).

Definition claimedJob (worker : string) (until : Z) (r : VerificationRow) : VerificationRow :=
  let e := vj_entry r in
  setEntry r {| vj_state := VProcessing; vj_reproduced := vj_reproduced e; vj_close_finding := vj_close_finding e;
    vj_false_positive := vj_false_positive e; vj_failure := vj_failure e; vj_completed_at := vj_completed_at e;
    vj_worker_id := Some worker; vj_fence := vj_fence e + 1; vj_attempts := vj_attempts e + 1;
    vj_lease_until := Some until; vj_available_at := vj_available_at e |}.

Section worker.
Context (w : verificationConfig).

Definition claimVerification : M DB verificationJobRecord :=
  locked <- skipLocked ;;
  lease <- intervalOf (cfgLease w) ;;
  stmt (λ t db,
    match nextVerification locked t (t_verificationJobs db) with
    | Some (id, r) =>
        let r' := claimedJob (cfgWorkerID w) (t + lease) r in
        Ok (scanVerificationJob id r', with_verificationJobs (<[id := r']> (t_verificationJobs db)) db)
    | None => Err ErrNoRows
    end).

(** ** Ending a lease *)

(** [worker_id=$2 AND fence=$3 AND state='processing'], and with a live lease. *)
Definition keeps (job : verificationJobRecord) (r : VerificationRow) : bool :=
  let e := vj_entry r in
  (vj_worker_id e ==? Some (JobWorkerID job)) && (vj_fence e =? vj_fence (vj_entry (JobRow job))) &&
  (vj_state e ==? VProcessing).
Definition keepsLive (t : Z) (job : verificationJobRecord) (r : VerificationRow) : bool :=
  keeps job r && leaseLive t (vj_entry r).

(** [UPDATE verification_jobs SET f WHERE id=$1 AND P]: the rows affected; a
    row completed before it was created breaks a CHECK. *)
Definition updateJob (id : string) (P : VerificationRow → bool) (f : VerificationRow → VerificationRow) (db : DB)
    : Res (Z * DB) :=
  match t_verificationJobs db !! id with
  | Some r =>
      if negb (P r) then Ok (0, db)
      else match vj_completed_at (vj_entry (f r)) with
           | Some t => if t <? vj_created_at (vj_meta r) then Err ErrConstraint
                       else Ok (1, with_verificationJobs (<[id := f r]> (t_verificationJobs db)) db)
           | None => Ok (1, with_verificationJobs (<[id := f r]> (t_verificationJobs db)) db)
           end
  | None => Ok (0, db)
  end.

Definition requeuedJob (available : Z) (r : VerificationRow) : VerificationRow :=
  let e := vj_entry r in
  setEntry r {| vj_state := VQueued; vj_reproduced := vj_reproduced e; vj_close_finding := vj_close_finding e;
    vj_false_positive := vj_false_positive e; vj_failure := vj_failure e; vj_completed_at := vj_completed_at e;
    vj_worker_id := None; vj_fence := vj_fence e; vj_attempts := vj_attempts e; vj_lease_until := None;
    vj_available_at := available |}.

(** [outcome=NULL] with the failure. *)
Definition failedJob (state : vstate) (failure : string * string) (now : Z) (r : VerificationRow) : VerificationRow :=
  let e := vj_entry r in
  setEntry r {| vj_state := state; vj_reproduced := None; vj_close_finding := vj_close_finding e;
    vj_false_positive := vj_false_positive e; vj_failure := Some failure; vj_completed_at := Some now;
    vj_worker_id := None; vj_fence := vj_fence e; vj_attempts := vj_attempts e; vj_lease_until := None;
    vj_available_at := vj_available_at e |}.
Definition settleVerificationFailure (job : verificationJobRecord) (state : vstate) (failure : string * string)
    (requireFence : bool) : M DB unit :=
  now_ <- now ;;
  stmt (λ t db, updateJob (JobID job) (λ r, if requireFence then keepsLive t job r else keeps job r)
                  (failedJob state failure now_) db) ;;;
  ret tt.

Definition retryVerification (job : verificationJobRecord) : M DB unit :=
  if verificationAttempts <=? vj_attempts (vj_entry (JobRow job))
  then settleVerificationFailure job VFailed limitFailure true
  else stmt (λ t db, updateJob (JobID job) (keepsLive t job)
              (λ r, requeuedJob (t + second * vj_attempts (vj_entry r)) r) db) ;;; ret tt.

Definition requeueCancelledVerification (job : verificationJobRecord) : M DB unit :=
  background (stmt (λ t db, updateJob (JobID job) (keeps job) (requeuedJob t) db)) ;;; ret tt.

(** ** Publication *)

Definition outcomeValue (outcome : string) : option bool :=
  if outcome ==? "reproduced" then Some true else if outcome ==? "not-reproduced" then Some false else None.
Definition succeededJob (reproduced : bool) (now : Z) (r : VerificationRow) : VerificationRow :=
  let e := vj_entry r in
  setEntry r {| vj_state := VSucceeded; vj_reproduced := Some reproduced; vj_close_finding := vj_close_finding e;
    vj_false_positive := vj_false_positive e; vj_failure := vj_failure e; vj_completed_at := Some now;
    vj_worker_id := None; vj_fence := vj_fence e; vj_attempts := vj_attempts e; vj_lease_until := None;
    vj_available_at := vj_available_at e |}.

(** The EXISTS of the publication: the approval still covers the job. *)
Definition covered (now : Z) (db : DB) (r : VerificationRow) : bool :=
  let b := vj_binding (vj_meta r) in
  match t_verificationApprovals db !! vj_approval_id (vj_meta r) with
  | Some a =>
      let c := va_binding a in
      (vb_workspace_id c ==? vb_workspace_id b) && negb (isSome (va_revoked a)) && (now <? va_expires_at a) &&
      (findingRevision (vb_workspace_id c) (vb_finding_id c) db ==? Some (vb_finding_evidence_revision c)) &&
      (vb_finding_evidence_revision c =? vb_finding_evidence_revision b) &&
      (vb_evidence_digest c ==? vb_evidence_digest b)
  | None => false
  end.

(** [errNoRows] stands for no row affected: rolled back and not reported. *)
Definition publishTx (job : verificationJobRecord) (outcome : string) : M DB unit :=
  now_ <- now ;;
  affected <- stmt (λ t db,
    let P r := keepsLive t job r && covered now_ db r in
    match outcomeValue outcome with
    | Some o => updateJob (JobID job) P (succeededJob o now_) db
    | None => match t_verificationJobs db !! JobID job with
              | Some r => if P r then Err ErrConstraint else Ok (0, db)
              | None => Ok (0, db)
              end
    end) ;;
  guard (affected =? 1) ErrNoRows ;;;
  done <- ctxErr ;;
  guard (negb done) ErrContext.
Definition publishVerificationSuccess (job : verificationJobRecord) (outcome : string) : M DB unit :=
  handle (transaction (publishTx job outcome)) (λ r,
    match r with Err ErrNoRows => ret tt | _ => fromRes r end).

(** ** The verifier's view of the database *)

(** The reads of io.ReadAll over [content]: the k-th finds room for [buffer k + 1] bytes. *)
Fixpoint splitChunks (fuel : nat) (buffer : nat → nat) (k : nat) (content : list N) : list (list N) :=
  match fuel, content with
  | S fuel', _ :: _ => take (buffer k + 1) content :: splitChunks fuel' buffer (k + 1) (drop (buffer k + 1) content)
  | _, _ => []
  end.

Definition evidenceKey (id : string) : string := "verification-evidence/" +:+ id.
(** verificationDatabaseEvidence.Open *)
Definition openDatabaseEvidence (buffer : nat → nat) (job : verificationJobRecord) (workspace : string) (ref : evidenceRef)
    : M DB (option evidenceReader) :=
  let b := JobBinding job in
  guard ((workspace ==? vb_workspace_id b) && (erWorkspaceID ref ==? workspace) && (erBucket ref ==? "postgresql") &&
         (erKey ref ==? evidenceKey (vb_evidence_id b)) && (erSHA256 ref ==? vb_evidence_digest b)) EvidenceErrScope ;;;
  e <- query (λ _ db, orNoRows (evidenceOf workspace (vb_finding_id b) (vb_evidence_id b) db)) ;;
  guard ((ve_content_digest e ==? erSHA256 ref) && (ve_content_size e =? erSizeBytes ref)) EvidenceErrIntegrity ;;;
  ret (Some {| rdChunks := splitChunks (length (ve_content e)) buffer 0 (ve_content e); rdError := None; rdClose := None |}).

(** Every failure of the lookup, also of the database, is ErrPolicy. *)
Definition lookupVerificationApproval (job : verificationJobRecord) (approvalID : string) : M DB Approval :=
  let b := JobBinding job in
  handle (query (λ _ db, orNoRows (
    found ← approvalWithRevision (vb_workspace_id b) (vb_finding_id b) approvalID db;
    if vb_evidence_id (va_binding (fst found)) ==? vb_evidence_id b then Some found else None))) (λ r,
  match r with
  | Err _ => throw VerifyErrPolicy
  | Ok (a, revision) =>
      let c := va_binding a in
      ret {| apID := approvalID; apWorkspaceID := vb_workspace_id c; apFindingID := vb_finding_id c;
             apMethod := vb_method c; apScopeRevision := vb_scope_revision c; apEnvironmentID := vb_environment_id c;
             apEvidenceSHA256 := vb_evidence_digest c; apExpiresAt := va_expires_at a;
             apApproved := negb (isSome (va_revoked a)) && (revision =? vb_finding_evidence_revision b) &&
               (vb_method c ==? vb_method b) && (vb_scope_revision c ==? vb_scope_revision b) &&
               (vb_environment_id c ==? vb_environment_id b) && (vb_evidence_digest c ==? vb_evidence_digest b) |}
  end).

Definition bindingChanged (message : string) : vstate * (string * string) := (VBlocked, ("binding-changed", message)).
(** Why an ErrPolicy came about, as far as the database now tells. *)
Definition verificationPolicyOutcome (job : verificationJobRecord) : M DB (vstate * (string * string)) :=
  let b := JobBinding job in
  handle (query (λ _ db, orNoRows (approvalWithRevision (vb_workspace_id b) (vb_finding_id b)
                                     (vj_approval_id (vj_meta (JobRow job))) db))) (λ r,
  match r with
  | Err _ => ret (bindingChanged "Verification evidence binding is no longer current")
  | Ok (a, revision) =>
      let c := va_binding a in
      if (vb_finding_evidence_revision c !=? revision) || (vb_method c !=? vb_method b) ||
         (vb_environment_id c !=? vb_environment_id b) || (vb_scope_revision c !=? vb_scope_revision b) ||
         (vb_evidence_digest c !=? vb_evidence_digest b)
      then ret (bindingChanged "Verification evidence binding is no longer current")
      else if isSome (va_revoked a) then ret (VCancelled, revokedFailure)
      else t <- now ;;
           ret (if va_expires_at a <=? t
                then (VBlocked, ("approval-expired", "Verification approval expired before completion"))
                else bindingChanged "Verification approval is no longer current")
  end).

(** ** Processing *)

(** What the outside decides while a job is processed: the room io.ReadAll
    finds, and when the verifier's guard cancelled. *)
Context (buffer : nat → nat) (revoked : nat → bool).

Definition requestOf (job : verificationJobRecord) (size : Z) : verifyRequest :=
  let b := JobBinding job in
  {| rqWorkspaceID := vb_workspace_id b; rqFindingID := vb_finding_id b; rqRunID := JobID job;
     rqApprovalRef := vj_approval_id (vj_meta (JobRow job)); rqMethod := vb_method b;
     rqScopeRevision := vb_scope_revision b; rqEnvironmentID := vb_environment_id b;
     rqEvidence := {| erWorkspaceID := vb_workspace_id b; erBucket := "postgresql";
       erKey := evidenceKey (vb_evidence_id b); erSHA256 := vb_evidence_digest b; erSizeBytes := size |} |}.

Definition integrityFailure (message : string) : string * string := ("evidence-integrity", message).

Definition settleVerification (job : verificationJobRecord) (verified : verifyResult * list error) : M DB unit :=
  let '(result, errs) := verified in
  if errs ==? [] then publishVerificationSuccess job (vrOutcome result) else
  done <- ctxErr ;;
  if (done : bool) then requeueCancelledVerification job
  else if isError VerifyErrFormat errs then
    settleVerificationFailure job VFailed ("fixture-format", "Verification fixture format is invalid") true
  else if isError EvidenceErrIntegrity errs then
    settleVerificationFailure job VFailed (integrityFailure "Verification evidence failed integrity validation") true
  else if isError VerifyErrPolicy errs then
    o <- verificationPolicyOutcome job ;; settleVerificationFailure job (fst o) (snd o) false
  else retryVerification job.

Definition processVerification (job : verificationJobRecord) : M DB unit :=
  let b := JobBinding job in
  handle (query (λ _ db, orNoRows (
    e ← evidenceOf (vb_workspace_id b) (vb_finding_id b) (vb_evidence_id b) db;
    if ve_content_digest e ==? vb_evidence_digest b then Some (ve_content_size e) else None))) (λ size,
  match size with
  | Err _ => settleVerificationFailure job VFailed (integrityFailure "Verification evidence metadata is unavailable") true
  | Ok size =>
      match OpenVerifier (cfgMaxFixture w) (cfgInterval w) with
      | Err _ => retryVerification job
      | Ok _ =>
          verified <- Verify (openDatabaseEvidence buffer job) (lookupVerificationApproval job) (cfgMaxFixture w)
                        revoked (requestOf job size) ;;
          settleVerification job verified
      end
  end).

Definition errorOf {A} (r : Res A) : option error := match r with Ok _ => None | Err e => Some e end.
(** Whether there was work, and the error. *)
Definition ProcessNextVerification : M DB (bool * option error) :=
  done <- ctxErr ;;
  if (done : bool) then ret (false, Some ErrContext) else
  handle failExhausted (λ settled,
  match settled with
  | Err e => ret (false, Some e)
  | Ok true => ret (true, None)
  | Ok false =>
      handle claimVerification (λ claimed,
      match claimed with
      | Err ErrNoRows => ret (false, None)
      | Err _ => ret (false, Some errVerificationWork)
      | Ok job => handle (processVerification job) (λ r, ret (true, errorOf r))
      end)
  end).
End worker.
