(* ===== verification/VerificationProps.v ===== *)
(** * The life of verification evidence, approvals and jobs

    [vjstep] is the life of one job; [veffect] lists what an operation may do
    to the three tables; [tables_ok] is their invariant, which contains every
    CHECK and foreign key of the schema that the statements rely on.  [used]
    holds the identifiers handed out so far: newID draws 128 random bits and
    is taken never to repeat one. *)
From S2P Require Import Prelude GoLib Encoding Tx ReportAdapter Schema Auth Paging Assets Fixture Verifier Verification VerificationWorker.
Local Open Scope Z_scope.

Abbreviation evidence_ := t_verificationEvidence.
Abbreviation approvals_ := t_verificationApprovals.
Abbreviation jobs_ := t_verificationJobs.

(** ** One job *)

Definition unsuccessful (s : vstate) : bool :=
  match s with VBlocked | VFailed | VCancelled => true | _ => false end.
Definition jobJudged (r : VerificationRow) (o : bool) : Prop :=
  judged (vb_evidence_digest (vj_binding (vj_meta r))) (vb_environment_id (vj_binding (vj_meta r))) o.

Inductive vjstep (r : VerificationRow) : VerificationRow → Prop :=
  | vj_claim worker until :
      openJob r = true → vj_attempts (vj_entry r) < verificationAttempts → vjstep r (claimedJob worker until r)
  | vj_requeue t : vj_state (vj_entry r) = VProcessing → vjstep r (requeuedJob t r)
  | vj_end s failure now fence :
      openJob r = true → unsuccessful s = true → vj_fence (vj_entry r) ≤ fence → vj_created_at (vj_meta r) ≤ now →
      vjstep r (setEntry r (endEntry s failure now fence (vj_entry r)))
  | vj_fail s failure now :
      vj_state (vj_entry r) = VProcessing → unsuccessful s = true → vj_created_at (vj_meta r) ≤ now →
      vjstep r (failedJob s failure now r)
  | vj_succeed o now :
      vj_state (vj_entry r) = VProcessing → vj_created_at (vj_meta r) ≤ now → jobJudged r o →
      vjstep r (succeededJob o now r).

Definition completed (r : VerificationRow) : Prop :=
  ∃ t, vj_completed_at (vj_entry r) = Some t ∧ vj_created_at (vj_meta r) ≤ t.

(** The CHECKs of verification_jobs, and what a result means. *)
Definition job_ok (r : VerificationRow) : Prop :=
  let e := vj_entry r in
  0 ≤ vj_attempts e ≤ verificationAttempts ∧ vj_attempts e ≤ vj_fence e ∧
  vj_close_finding e = false ∧ vj_false_positive e = false ∧
  match vj_state e with
  | VQueued => vj_worker_id e = None ∧ vj_lease_until e = None ∧ vj_reproduced e = None ∧ vj_failure e = None ∧
               vj_completed_at e = None
  | VProcessing => is_Some (vj_worker_id e) ∧ is_Some (vj_lease_until e) ∧ vj_reproduced e = None ∧
                   vj_failure e = None ∧ vj_completed_at e = None ∧ 1 ≤ vj_attempts e
  | VSucceeded => vj_worker_id e = None ∧ vj_lease_until e = None ∧ vj_failure e = None ∧ completed r ∧
                  ∃ o, vj_reproduced e = Some o ∧ jobJudged r o
  | _ => vj_worker_id e = None ∧ vj_lease_until e = None ∧ vj_reproduced e = None ∧ is_Some (vj_failure e) ∧ completed r
  end.

Lemma openJob_iff r : openJob r = true ↔ vj_state (vj_entry r) = VQueued ∨ vj_state (vj_entry r) = VProcessing.
Proof. unfold openJob. by breflect. Qed.

Lemma vjstep_ok r r' : vjstep r r' → job_ok r → job_ok r'.
Proof.
  unfold job_ok, completed, verificationAttempts. intros Hs (Ha & Hf & Hc & Hp & Hj).
  destruct Hs as [w u Ho Hlt|t Hs|s f t fence Ho Hu Hle Ht|s f t Hs Hu Ht|o t Hs Ht Hjd]; simpl in *;
    try apply openJob_iff in Ho; unfold verificationAttempts in *.
  - split_and!; try done; try lia; try (by eexists); destruct Ho as [Ho|Ho]; rewrite Ho in Hj; naive_solver.
  - rewrite Hs in Hj. split_and!; try done; try lia; naive_solver.
  - split_and!; try done; try lia. destruct s; try done; destruct Ho as [Ho|Ho]; rewrite Ho in Hj; naive_solver.
  - split_and!; try done; try lia. rewrite Hs in Hj. destruct s; naive_solver.
  - rewrite Hs in Hj. split_and!; try done; try lia; naive_solver.
Qed.

Lemma vjsteps_ok r r' : rtc vjstep r r' → job_ok r → job_ok r'.
Proof. induction 1; eauto using vjstep_ok. Qed.

Lemma vjsteps_meta r r' : rtc vjstep r r' → vj_meta r' = vj_meta r.
Proof. induction 1 as [|r1 r2 r3 Hs _ IH]; [done|]. rewrite IH. by destruct Hs. Qed.

Lemma vjstep_open r r' : vjstep r r' → openJob r = true.
Proof. intros []; try done; apply openJob_iff; auto. Qed.

(** A finished job stays as it is. *)
Lemma vjsteps_final r r' : openJob r = false → rtc vjstep r r' → r' = r.
Proof. intros Ho Hs. destruct Hs as [|r1 r2 r3 Hs _]; [done|]. apply vjstep_open in Hs. congruence. Qed.

(** ** The tables *)

Definition evidence_ok (e : VerificationEvidenceRow) : Prop :=
  ve_content_digest e = "sha256:" +:+ hex (Sum256 (ve_content e)) ∧
  ve_content_size e = Z.of_nat (length (ve_content e)) ∧ 1 ≤ ve_content_size e ≤ verificationFixtureLimit ∧
  ve_method e = verificationMethod ∧ validText (ve_environment_id e) 256 = true ∧
  validText (ve_scope_revision e) 256 = true ∧
  ∃ c, ve_content e = bytes (fixtureDocument (ve_environment_id e) c).

Definition dayMicros : Z := 24 * 3600 * 1000000.
Definition approval_ok (a : VerificationApprovalRow) : Prop :=
  va_created_at a < va_expires_at a ≤ va_created_at a + dayMicros ∧
  ∀ t u why, va_revoked a = Some (t, u, why) → va_created_at a ≤ t.

Definition boundTo (m : gmap string VerificationEvidenceRow) (b : VerificationBinding) : Prop :=
  ∃ e, m !! vb_evidence_id b = Some e ∧ evidenceBinding (vb_evidence_id b) e = b.
Definition approvedBy (m : gmap string VerificationApprovalRow) (x : VerificationMeta) : Prop :=
  ∃ a, m !! vj_approval_id x = Some a ∧ va_binding a = vj_binding x.

Record tables_ok (used : gset string) (db : DB) : Prop := {
  tk_used : dom (evidence_ db) ∪ dom (approvals_ db) ∪ dom (jobs_ db) ⊆ used;
  tk_evidence : ∀ i e, evidence_ db !! i = Some e → evidence_ok e;
  tk_approvals : ∀ i a, approvals_ db !! i = Some a → approval_ok a ∧ boundTo (evidence_ db) (va_binding a);
  tk_jobs : ∀ i r, jobs_ db !! i = Some r → job_ok r ∧ approvedBy (approvals_ db) (vj_meta r);
  tk_keys : ∀ i j r1 r2, jobs_ db !! i = Some r1 → jobs_ db !! j = Some r2 →
    sameJobKey (vb_workspace_id (vj_binding (vj_meta r2))) (vj_idempotency_key (vj_meta r2)) r1 = true → i = j }.

(** What one operation may do. *)
Definition sameBut (E A J : bool) (db db' : DB) : Prop :=
  (E = false → evidence_ db' = evidence_ db) ∧ (A = false → approvals_ db' = approvals_ db) ∧
  (J = false → jobs_ db' = jobs_ db).

(** A job that succeeds is covered by its approval at that moment. *)
Definition coveredStep (db : DB) (r r' : VerificationRow) : Prop :=
  vjstep r r' ∧ (vj_state (vj_entry r') = VSucceeded → ∃ now, covered now db r = true).

Inductive veffect (used : gset string) (db db' : DB) : Prop :=
  | ve_same : sameBut false false false db db' → veffect used db db'
  | ve_evidence id e :
      sameBut true false false db db' → id ∉ used → evidence_ok e →
      evidence_ db' = <[id := e]> (evidence_ db) → veffect used db db'
  | ve_approval id a :
      sameBut false true false db db' → id ∉ used → approval_ok a → va_revoked a = None →
      boundTo (evidence_ db) (va_binding a) → approvals_ db' = <[id := a]> (approvals_ db) → veffect used db db'
  | ve_revoke id a t user why P :
      sameBut false true true db db' → approvals_ db !! id = Some a → va_created_at a ≤ t →
      approvals_ db' = <[id := revokedApproval t user why a]> (approvals_ db) →
      (∀ i r, jobs_ db !! i = Some r → P r = true → vjstep r (cancelJob t r)) →
      (∀ i r, jobs_ db !! i = Some r → vj_approval_id (vj_meta r) = id → va_binding a = vj_binding (vj_meta r) →
         openJob r = true → P r = true) →
      jobs_ db' = updateRows (λ _ r, P r) (cancelJob t) (jobs_ db) → veffect used db db'
  | ve_insert id m t :
      sameBut false false true db db' → id ∉ used → approvedBy (approvals_ db) m →
      anyRow (λ _ r, sameJobKey (vb_workspace_id (vj_binding m)) (vj_idempotency_key m) r) (jobs_ db) = false →
      jobs_ db' = <[id := {| vj_meta := m; vj_entry := queuedEntry t |}]> (jobs_ db) → veffect used db db'
  | ve_jobs P f :
      sameBut false false true db db' →
      (∀ i r, jobs_ db !! i = Some r → P i r = true → coveredStep db r (f r)) →
      jobs_ db' = updateRows P f (jobs_ db) → veffect used db db'
  | ve_delete gone :
      evidence_ db' = deleteRows (λ _ e, gone (ve_workspace_id e) (ve_finding_id e)) (evidence_ db) →
      approvals_ db' = deleteRows (λ _ a, gone (vb_workspace_id (va_binding a)) (vb_finding_id (va_binding a))) (approvals_ db) →
      jobs_ db' = deleteRows (λ _ j, gone (vb_workspace_id (vj_binding (vj_meta j))) (vb_finding_id (vj_binding (vj_meta j))))
                    (jobs_ db) → veffect used db db'.

Definition idsOf (db : DB) : gset string := dom (evidence_ db) ∪ dom (approvals_ db) ∪ dom (jobs_ db).

(** Where a row comes from. *)
Lemma veffect_jobs used db db' i r' :
  veffect used db db' → jobs_ db' !! i = Some r' →
  (∃ r, jobs_ db !! i = Some r ∧ (r' = r ∨ coveredStep db r r')) ∨
  (i ∉ used) ∧ ∃ t, r' = {| vj_meta := vj_meta r'; vj_entry := queuedEntry t |} ∧ approvedBy (approvals_ db) (vj_meta r').
Proof.
  intros [(_ & _ & HJ)|id e (_ & _ & HJ)|id a (_ & _ & HJ)|id a t u why P _ _ _ _ HP _ HJ|id m t _ Hu Ha _ HJ|P f _ Hf HJ|gone _ _ HJ] Hr';
    rewrite HJ in Hr' by done; try (left; by eauto).
  - left. rewrite lookup_updateRows in Hr'. destruct (jobs_ db !! i) as [r|] eqn:Er; [|done]. simpl in Hr'.
    injection Hr' as <-. exists r. split; [done|]. destruct (P r) eqn:EP; [|by left]. right. split; [eauto|done].
  - destruct (decide (i = id)) as [->|Hne].
    + right. rewrite lookup_insert_eq in Hr'. simplify_eq/=. split; [done|]. by exists t.
    + rewrite lookup_insert_ne in Hr' by done. left. eauto.
  - left. rewrite lookup_updateRows in Hr'. destruct (jobs_ db !! i) as [r|] eqn:Er; [|done]. simpl in Hr'.
    injection Hr' as <-. exists r. split; [done|]. destruct (P i r) eqn:EP; [|by left]. right. eauto.
  - apply lookup_deleteRows_Some in Hr' as [? _]. left. eauto.
Qed.

Lemma veffect_approvals used db db' i a' :
  veffect used db db' → approvals_ db' !! i = Some a' →
  (∃ a, approvals_ db !! i = Some a ∧
    (a' = a ∨ ∃ t u why, va_created_at a ≤ t ∧ a' = revokedApproval t u why a)) ∨
  (i ∉ used) ∧ va_revoked a' = None ∧ approval_ok a' ∧ boundTo (evidence_ db) (va_binding a').
Proof.
  intros [(_ & HA & _)|id e (_ & HA & _)|id a _ Hu Hok Hn Hb HA|id a t u why P _ Ha Ht HA|id m t (_ & HA & _)|P f (_ & HA & _)|gone _ HA _] Ha';
    rewrite HA in Ha' by done; try (left; by eauto).
  - destruct (decide (i = id)) as [->|Hne]; [|rewrite lookup_insert_ne in Ha' by done; left; eauto].
    rewrite lookup_insert_eq in Ha'. simplify_eq. by right.
  - left. destruct (decide (i = id)) as [->|Hne]; [|rewrite lookup_insert_ne in Ha' by done; eauto].
    rewrite lookup_insert_eq in Ha'. simplify_eq. exists a. split; [done|]. right. by exists t, u, why.
  - apply lookup_deleteRows_Some in Ha' as [? _]. left. eauto.
Qed.

(** Bindings keep their targets. *)
Lemma boundTo_insert m id e b : m !! id = None → boundTo m b → boundTo (<[id := e]> m) b.
Proof.
  intros Hn (x & Hx & Hb). exists x. split; [|done]. rewrite lookup_insert_ne; [done|]. intros ->. congruence.
Qed.
Lemma boundTo_delete m gone b :
  boundTo m b → gone (vb_workspace_id b) (vb_finding_id b) = false →
  boundTo (deleteRows (λ _ e, gone (ve_workspace_id e) (ve_finding_id e)) m) b.
Proof.
  intros (e & He & Hb) Hg. exists e. split; [|done]. apply lookup_deleteRows_Some. split; [done|].
  rewrite <- Hb in Hg. exact Hg.
Qed.
Lemma approvedBy_delete m gone x :
  approvedBy m x → gone (vb_workspace_id (vj_binding x)) (vb_finding_id (vj_binding x)) = false →
  approvedBy (deleteRows (λ _ a, gone (vb_workspace_id (va_binding a)) (vb_finding_id (va_binding a))) m) x.
Proof.
  intros (a & Ha & Hb) Hg. exists a. split; [|done]. apply lookup_deleteRows_Some. split; [done|]. by rewrite Hb.
Qed.
Lemma approvedBy_insert m id a a' x :
  (m !! id = None ∨ m !! id = Some a ∧ va_binding a' = va_binding a) → approvedBy m x → approvedBy (<[id := a']> m) x.
Proof.
  intros Hi (b & Hb & Hx). unfold approvedBy. destruct (decide (vj_approval_id x = id)) as [<-|Hne].
  - rewrite lookup_insert_eq. destruct Hi as [Hi|[Hi Ha]]; [congruence|]. exists a'. split; [done|]. congruence.
  - rewrite lookup_insert_ne by done. eauto.
Qed.

Lemma sameJobKey_meta ws key r r' : vj_meta r' = vj_meta r → sameJobKey ws key r' = sameJobKey ws key r.
Proof. unfold sameJobKey. by intros ->. Qed.

Section effects.
Context (used : gset string) (db db' : DB) (Hok : tables_ok used db) (He : veffect used db db').

Lemma fresh_None id : id ∉ used → evidence_ db !! id = None ∧ approvals_ db !! id = None ∧ jobs_ db !! id = None.
Proof.
  intros Hn. pose proof (tk_used _ _ Hok). split_and!; apply not_elem_of_dom; set_solver.
Qed.

Lemma effect_evidence i e : evidence_ db' !! i = Some e → evidence_ok e.
Proof.
  pose proof (tk_evidence _ _ Hok).
  destruct He as [(HE & _)|id x _ _ Hx HE|id a (HE & _)|id a t u why P (HE & _)|id m t (HE & _)|P f (HE & _)|gone HE _ _];
    rewrite HE by done; eauto.
  - intros [[_ <-]|[_ ?]]%lookup_insert_Some; eauto.
  - intros [? _]%lookup_deleteRows_Some. eauto.
Qed.

(** Evidence leaves only together with what is bound to it. *)
Lemma effect_boundTo b i a :
  approvals_ db' !! i = Some a → va_binding a = b → boundTo (evidence_ db) b → boundTo (evidence_ db') b.
Proof.
  intros Ha Hb.
  destruct He as [(HE & _)|id x _ Hid _ HE|id y (HE & _)|id y t u why P (HE & _)|id m t (HE & _)|P f (HE & _)|gone HE HA _];
    rewrite HE by done; eauto.
  - apply boundTo_insert. by apply fresh_None.
  - intros Hbt. apply boundTo_delete; [done|]. rewrite HA in Ha. apply lookup_deleteRows_Some in Ha as [_ Hg]. by rewrite <- Hb.
Qed.

Lemma effect_approvedBy x i r :
  jobs_ db' !! i = Some r → vj_meta r = x → approvedBy (approvals_ db) x → approvedBy (approvals_ db') x.
Proof.
  intros Hr Hx.
  destruct He as [(_ & HA & _)|id e (_ & HA & _)|id a _ Hid _ _ _ HA|id a t u why P _ Ha _ HA|id m t (_ & HA & _)|P f (_ & HA & _)|gone _ HA HJ];
    rewrite HA by done; eauto.
  - apply (approvedBy_insert _ _ a). left. by apply fresh_None.
  - apply (approvedBy_insert _ _ a). by right.
  - intros Hab. apply approvedBy_delete; [done|]. rewrite HJ in Hr. apply lookup_deleteRows_Some in Hr as [_ Hg]. by rewrite <- Hx.
Qed.

Lemma effect_jobs_origin i r' :
  jobs_ db' !! i = Some r' →
  (∃ r, jobs_ db !! i = Some r ∧ vj_meta r' = vj_meta r) ∨
  (i ∉ used) ∧ anyRow (λ _ r, sameJobKey (vb_workspace_id (vj_binding (vj_meta r'))) (vj_idempotency_key (vj_meta r')) r) (jobs_ db) = false
    ∧ ∀ j r, jobs_ db' !! j = Some r → jobs_ db !! j = Some r ∨ i = j.
Proof.
  intros Hr. destruct (veffect_jobs _ _ _ _ _ He Hr) as [(r & H & Hs)|(Hn & t & _)].
  - left. exists r. split; [done|]. destruct Hs as [->|[Hs _]]; [done|]. by apply (vjsteps_meta r), rtc_once.
  - right. split; [done|].
    destruct (fresh_None i Hn) as (_ & _ & Hj).
    destruct He as [(_ & _ & HJ)|id e (_ & _ & HJ)|id a (_ & _ & HJ)|id a t' u why P _ _ _ _ _ _ HJ|id m t' _ _ _ Hk HJ|P f _ _ HJ|gone _ _ HJ];
      rewrite HJ in Hr by done; try congruence.
    + by rewrite lookup_updateRows, Hj in Hr.
    + apply lookup_insert_Some in Hr as [[-> <-]|[_ ?]]; [|congruence]. split; [exact Hk|]. intros j r.
      rewrite HJ. intros [[-> _]|[_ ?]]%lookup_insert_Some; auto.
    + by rewrite lookup_updateRows, Hj in Hr.
    + apply lookup_deleteRows_Some in Hr as [? _]. congruence.
Qed.

(** Every effect keeps the invariant. *)
Lemma effect_ok : tables_ok (used ∪ idsOf db') db'.
Proof.
  split.
  - unfold idsOf. set_solver.
  - apply effect_evidence.
  - intros i a Ha. destruct (veffect_approvals _ _ _ _ _ He Ha) as [(x & Hx & Hc)|(_ & _ & Hk & Hb)].
    + apply (tk_approvals _ _ Hok) in Hx as [[Ht Hr] Hb]. split; [|].
      * destruct Hc as [->|(t & u & why & Hle & ->)]; [done|]. split; [done|]. by intros ? ? ? [= <- _ _].
      * eapply effect_boundTo; [done|done|]. by destruct Hc as [->|(t & u & why & Hle & ->)].
    + split; [done|]. by eapply effect_boundTo.
  - intros i r' Hr. destruct (veffect_jobs _ _ _ _ _ He Hr) as [(r & Hj & Hs)|(_ & t & Heq & Hab)].
    + apply (tk_jobs _ _ Hok) in Hj as [Hjk Hab]. split.
      * destruct Hs as [->|[Hs _]]; [done|]. by apply (vjstep_ok r).
      * eapply effect_approvedBy; [done|done|]. destruct Hs as [->|[Hs%rtc_once _]]; [done|].
        by rewrite (vjsteps_meta _ _ Hs).
    + split; [|by eapply effect_approvedBy]. rewrite Heq. unfold job_ok, verificationAttempts. simpl. by split_and!.
  - intros i j r1 r2 H1 H2 Hk.
    destruct (effect_jobs_origin _ _ H2) as [(q2 & Hq2 & Hm2)|(Hn & Hfree & Hold)].
    + destruct (effect_jobs_origin _ _ H1) as [(q1 & Hq1 & Hm1)|(Hn & Hfree & Hold)].
      * rewrite (sameJobKey_meta _ _ _ _ Hm1), Hm2 in Hk. by eapply (tk_keys _ _ Hok i j).
      * destruct (Hold _ _ H2) as [Ho| ->]; [|done]. exfalso.
        pose proof (proj1 (anyRow_false _ _) Hfree _ _ Ho) as Hf. unfold sameJobKey in Hk, Hf. simpl in Hf.
        breflect_in Hk. breflect_in Hf. naive_solver.
    + destruct (Hold _ _ H1) as [Ho| ->]; [|done]. pose proof (proj1 (anyRow_false _ _) Hfree _ _ Ho) as Hf. simpl in Hf. congruence.
Qed.
End effects.

(** ** What the handlers and the worker do to the tables

    Every handler, and every statement of the worker, has one of these effects
    in every world: failing statements, lost commits and cancelled requests
    included. *)

Lemma stmt_cases {S A} (f : Z → S → Res (A * S)) env n s :
  out_db (stmt f env n s) = s ∨ ∃ a, f (env_clock env n) s = Ok (a, out_db (stmt f env n s)).
Proof.
  unfold stmt. destruct (env_fault env n || env_done env n); [by left|].
  destruct (f _ s) as [[a s']|e] eqn:E; simpl; [|by left]. right. by exists a.
Qed.
Lemma transaction_cases {S A} (m : M S A) env n s :
  out_db (transaction m env n s) = s ∨ ∃ a s' n', m env n s = mkOut (Ok a) s' n' ∧ out_db (transaction m env n s) = s'.
Proof.
  unfold transaction. destruct (m env n s) as [[a|e] s' n']; simpl; [|by left].
  destruct (env_commit env n'); simpl; eauto 10.
Qed.
Lemma out_bind_ret {S A B} (m : M S A) (b : B) env n s : out_db (bind m (λ _, ret b) env n s) = out_db (m env n s).
Proof. unfold bind. by destruct (m env n s) as [[] ]. Qed.

Definition freshEnv (used : gset string) (env : Env) : Prop := ∀ k, env_fresh env k ∉ used.

Section operations.
Context (used : gset string).

Lemma effect_refl db : veffect used db db.
Proof. by apply ve_same. Qed.
Lemma effect_eq db db' : db' = db → veffect used db db'.
Proof. intros ->. apply effect_refl. Qed.
#[local] Hint Resolve effect_refl effect_eq : core.

Lemma guarded_effect {A} b e (k : M DB A) env n db :
  (b = true → veffect used db (out_db (k env n db))) → veffect used db (out_db (bind (guard b e) (λ _, k) env n db)).
Proof. intros Hk. destruct b; [by apply Hk|]. apply effect_refl. Qed.

(** ** Handlers *)

Lemma createEvidence_effect ws f u i env n db :
  freshEnv used env → veffect used db (out_db (createVerificationEvidence ws f u i env n db)).
Proof.
  intros Hfresh. unfold createVerificationEvidence. destruct (inCondition i) as [c|]; [|done].
  apply guarded_effect. intros Hg. apply guarded_effect. intros Hl.
  destruct (transaction_cases (evidenceTx ws f u i (bytes (fixtureDocument (inFixtureEnvironmentID i) c))) env n db)
    as [->|(a & s' & n' & H & ->)]; [auto|].
  apply bind_inv in H as (rev & s3 & n3 & [Hrev ->]%query_inv & H).
  apply bind_inv in H as (id & s4 & n4 & [-> ->]%newID_inv & H).
  apply bind_inv in H as (at_ & s5 & n5 & [-> ->]%now_inv & H).
  apply bind_inv in H as (x & s6 & n6 & (_ & Hn & ->)%insertInto_inv & H). apply ret_inv in H as [_ ->].
  eapply ve_evidence; [done|apply Hfresh| |simpl; reflexivity].
  breflect_in Hg. breflect_in Hl. destruct Hg as ((((Hm & Hs) & He) & Hv1) & Hv2).
  repeat (split; [done|]). exists c. simpl. by rewrite He.
Qed.

Lemma createApproval_effect ws f u ev why expires env n db :
  freshEnv used env → veffect used db (out_db (createVerificationApproval ws f u ev why expires env n db)).
Proof.
  intros Hfresh. unfold createVerificationApproval, bind at 1. simpl.
  destruct expires as [e|]; [|done].
  apply guarded_effect. intros Hg. set (t := env_now env n * 1000 + env_nanos env n) in *.
  destruct (transaction_cases (approvalTx ws f u ev why t e) env (n + 1) db) as [->|(a & s' & n' & H & ->)]; [auto|].
  apply bind_inv in H as (x & s3 & n3 & [Hx ->]%query_inv & H).
  apply bind_inv in H as (rev & s4 & n4 & [Hrev ->]%query_inv & H).
  apply bind_inv in H as ([] & s5 & n5 & [Hr ->]%guard_inv & H).
  apply bind_inv in H as (id & s6 & n6 & [-> ->]%newID_inv & H).
  apply bind_inv in H as ([] & s7 & n7 & (Hc & Hn & ->)%insertInto_inv & H). apply ret_inv in H as [_ ->].
  unfold requires in Hc. destruct (_ && _) eqn:Hc' in Hc; [|done]. clear Hc. simpl in Hc'. breflect_in Hc'. breflect_in Hg.
  eapply ve_approval; [done|apply Hfresh| | | |simpl; reflexivity]; [|done|]; simpl.
  - unfold approval_ok, dayMicros, dayNanos in *. simpl. split; [|done].
    destruct Hg as [_ Hle]. clearbody t. Z.to_euclidean_division_equations. lia.
  - unfold evidenceOf in Hx. destruct (evidence_ db !! ev) as [y|] eqn:Hy; [|done].
    destruct (_ && _); [|done]. injection Hx as ->. by exists x.
Qed.

Lemma revoke_effect ws f id u why env n db :
  veffect used db (out_db (revokeVerificationApproval ws f id u why env n db)).
Proof.
  apply guarded_effect. intros _.
  destruct (transaction_cases (revokeTx ws f id u why) env n db) as [->|(v & s' & n' & H & ->)]; [auto|].
  apply bind_inv in H as (a & s3 & n3 & [Ha ->]%query_inv & H).
  apply bind_inv in H as ([] & s4 & n4 & [Hr ->]%guard_inv & H).
  apply bind_inv in H as (t & s5 & n5 & [-> ->]%now_inv & H).
  apply bind_inv in H as ([] & s6 & n6 & Hu%stmt_inv & H).
  apply bind_inv in H as ([] & s7 & n7 & Hj%stmt_inv & H).
  apply bind_inv in H as (z & s8 & n8 & [_ ->]%query_inv & H). apply ret_inv in H as [_ ->].
  destruct (approvalOf ws f id db) as [b|] eqn:Hb; [|done]. injection Ha as ->.
  destruct (_ && _) eqn:Hc in Hu; [|done]. injection Hu as <-. breflect_in Hc.
  destruct (completesInOrder _ _ _) eqn:Ho in Hj; [|done]. injection Hj as <-.
  unfold approvalOf in Hb. destruct (approvals_ db !! id) as [b'|] eqn:Hb'; [|done].
  destruct (_ && _) eqn:Hw in Hb; [|done]. injection Hb as ->. breflect_in Hw.
  unfold completesInOrder in Ho. apply negb_true_iff in Ho.
  apply (ve_revoke _ _ _ id a (env_now env n4) u why (jobsOf ws f id)); simpl; try done.
  - tauto.
  - intros i r Hi HP. pose proof (proj1 (anyRow_false _ _) Ho _ _ Hi) as Hlt. simpl in Hlt. rewrite HP in Hlt.
    simpl in Hlt. apply Z.ltb_ge in Hlt. apply vj_end; try done; [|lia].
    unfold jobsOf in HP. breflect_in HP. tauto.
  - intros i r Hi Hid Hbd Hopen. unfold jobsOf. rewrite <- Hbd, Hopen. breflect. tauto.
Qed.

Lemma insert_effect id m env n db :
  id ∉ used → veffect used db (out_db (insertVerificationJob id m env n db)).
Proof.
  intros Hid. unfold insertVerificationJob. set (f := λ t db, _).
  destruct (stmt_cases f env n db) as [->|(a & H)]; [auto|]. unfold f in H at 1.
  destruct (anyRow _ _) eqn:Hk; [injection H as _ <-; auto|].
  destruct (jobReferences m db) eqn:Hr; simpl in H; [|done]. unfold insertRow in H.
  destruct (jobs_ db !! id) eqn:Hj; [done|]. injection H as _ <-.
  apply (ve_insert _ _ _ id m (env_clock env n)); [done|done| |done|done].
  unfold jobReferences in Hr. apply andb_true_iff in Hr as [_ Hr].
  destruct (approvals_ db !! vj_approval_id m) as [x|] eqn:Hx; [|done]. exists x. split; [done|]. by breflect_in Hr.
Qed.

Lemma enqueue_effect ws f u a key env n db :
  freshEnv used env → veffect used db (out_db (enqueueVerification ws f u a key env n db)).
Proof.
  intros Hfresh. apply guarded_effect. intros _.
  destruct (transaction_cases (enqueueVerificationTx ws f u a key) env n db) as [->|(v & s' & n' & H & ->)]; [auto|].
  apply bind_inv in H as (ex & s3 & n3 & [_ ->]%query_inv & H). destruct ex as [job|].
  { apply bind_inv in H as ([] & s4 & n4 & [_ ->]%guard_inv & H). apply ret_inv in H as [_ ->]. auto. }
  apply bind_inv in H as (t & s4 & n4 & [-> ->]%now_inv & H).
  apply bind_inv in H as ([x rev] & s5 & n5 & [Hx ->]%query_inv & H).
  apply bind_inv in H as ([] & s6 & n6 & [_ ->]%guard_inv & H).
  apply bind_inv in H as (id & s7 & n7 & [-> ->]%newID_inv & H).
  apply bind_inv in H as (b & s8 & n8 & Hi & H).
  apply bind_inv in H as (job & s9 & n9 & [_ ->]%query_inv & H).
  apply bind_inv in H as ([] & s10 & n10 & [_ ->]%guard_inv & H). apply ret_inv in H as [_ ->].
  match type of Hi with insertVerificationJob ?id ?m _ _ _ = _ => pose proof (insert_effect id m env n7 db (Hfresh _)) as Hv end.
  by rewrite Hi in Hv.
Qed.

Lemma deleteAsset_effect blocked ws id env n db :
  veffect used db (out_db (deleteAsset blocked ws id env n db)).
Proof.
  unfold deleteAsset. set (f := λ _ db, _).
  assert (out_db (bind (stmt f) (λ affected, guard (negb (affected =? 0)) errNotFound) env n db) = out_db (stmt f env n db)) as ->.
  { unfold bind. destruct (stmt f env n db) as [[k|] s n1]; [|done]. unfold guard. by destruct (negb _). }
  destruct (stmt_cases f env n db) as [->|(a & H)]; [auto|]. unfold f in H at 1.
  destruct (t_assets db !! id) as [x|]; [|injection H as _ <-; auto].
  destruct (bool_decide _); [|injection H as _ <-; auto]. destruct (_ || _); [done|]. injection H as _ <-.
  apply (ve_delete _ _ _ (findingGone ws id db)); done.
Qed.

(** ** The worker *)

Lemma insert_updateRows (m : gmap string VerificationRow) id r f :
  m !! id = Some r → <[id := f r]> m = updateRows (λ i _, i ==? id) f m.
Proof.
  intros Hr. apply map_eq. intros i. rewrite lookup_updateRows. destruct (decide (i = id)) as [->|Hne].
  - rewrite lookup_insert_eq, Hr. simpl. by rewrite bool_decide_true.
  - rewrite lookup_insert_ne by done. destruct (m !! i); [|done]. simpl. by rewrite bool_decide_false.
Qed.

Lemma job_effect db id r f :
  jobs_ db !! id = Some r → coveredStep db r (f r) →
  veffect used db (with_verificationJobs (<[id := f r]> (jobs_ db)) db).
Proof.
  intros Hr Hs. apply (ve_jobs _ _ _ (λ i _, i ==? id) f); [done| |].
  - intros i r' Hr' Hi. apply bool_decide_eq_true in Hi as ->. simplify_eq. exact Hs.
  - simpl. by apply insert_updateRows.
Qed.

Lemma updateJob_effect id P f a db db' :
  updateJob id P f db = Ok (a, db') →
  (∀ r, jobs_ db !! id = Some r → P r = true → 
     (∀ t, vj_completed_at (vj_entry (f r)) = Some t → vj_created_at (vj_meta r) ≤ t) → coveredStep db r (f r)) →
  veffect used db db'.
Proof.
  unfold updateJob. intros H Hs. destruct (jobs_ db !! id) as [r|] eqn:Hr; [|injection H as _ <-; auto].
  destruct (P r) eqn:HP; simpl in H; [|injection H as _ <-; auto].
  destruct (vj_completed_at (vj_entry (f r))) as [t|] eqn:Ht.
  - destruct (Z.ltb_spec t (vj_created_at (vj_meta r))); [done|]. injection H as _ <-.
    apply job_effect; [done|]. apply Hs; [done..|]. intros t' Ht'. simplify_eq. lia.
  - injection H as _ <-. apply job_effect; [done|]. apply Hs; [done..|]. intros; congruence.
Qed.

Lemma keeps_processing job r : keeps job r = true → vj_state (vj_entry r) = VProcessing.
Proof. unfold keeps. intros H. breflect_in H. tauto. Qed.
Lemma keepsLive_keeps t job r : keepsLive t job r = true → keeps job r = true.
Proof. unfold keepsLive. by intros [? _]%andb_true_iff. Qed.

Lemma settle_effect job s failure fence env n db :
  unsuccessful s = true → veffect used db (out_db (settleVerificationFailure job s failure fence env n db)).
Proof.
  intros Hs. unfold settleVerificationFailure. unfold bind at 1. simpl. rewrite out_bind_ret. set (f := λ t db, _).
  destruct (stmt_cases f env (n + 1) db) as [->|(a & H)]; [auto|]. unfold f in H at 1.
  eapply updateJob_effect; [exact H|]. simpl. intros r Hr HP Ht.
  assert (vj_state (vj_entry r) = VProcessing) as Hp
    by (destruct fence; [apply keepsLive_keeps in HP|]; by apply keeps_processing in HP).
  split; [apply vj_fail; auto|]. simpl. by intros ->.
Qed.

Lemma requeue_step db job r t : keeps job r = true → coveredStep db r (requeuedJob t r).
Proof. intros Hk%keeps_processing. split; [by apply vj_requeue|done]. Qed.

Lemma retry_effect job env n db : veffect used db (out_db (retryVerification job env n db)).
Proof.
  unfold retryVerification. case_match; [by apply settle_effect|]. rewrite out_bind_ret. set (f := λ t db, _).
  destruct (stmt_cases f env n db) as [->|(a & Hf)]; [auto|]. unfold f in Hf at 1.
  eapply updateJob_effect; [exact Hf|]. simpl. intros r _ HP%keepsLive_keeps _. by apply (requeue_step _ job).
Qed.

Lemma requeue_effect job env n db : veffect used db (out_db (requeueCancelledVerification job env n db)).
Proof.
  unfold requeueCancelledVerification. rewrite out_bind_ret. unfold background. set (f := λ t db, _).
  match goal with |- context [stmt f ?e n db] => destruct (stmt_cases f e n db) as [->|(a & Hf)]; [auto|] end.
  unfold f in Hf at 1. eapply updateJob_effect; [exact Hf|]. intros r _ HP _. by apply (requeue_step _ job).
Qed.

Lemma claim_effect w env n db : veffect used db (out_db (claimVerification w env n db)).
Proof.
  unfold claimVerification, bind at 1. simpl. unfold bind at 1. simpl. set (f := λ t db, _).
  destruct (stmt_cases f env n db) as [->|(a & Hf)]; [auto|]. unfold f in Hf at 1.
  destruct (nextVerification _ _ _) as [[id r]|] eqn:Hn; [|done]. injection Hf as _ <-.
  apply argmin_elem, elem_of_rowsWhere in Hn as [Hr Hv]. unfold verifiable in Hv. breflect_in Hv.
  apply (job_effect db id r (claimedJob _ _)); [done|]. split; [|done]. apply vj_claim; [|tauto].
  apply openJob_iff. tauto.
Qed.

Lemma spentJobs_lookup locked t m i r : (i, r) ∈ spentJobs locked t m → m !! i = Some r ∧ spent t r = true.
Proof.
  unfold spentJobs. intros H%elem_of_take. destruct H as (k & H & _). apply list_elem_of_lookup_2 in H.
  rewrite merge_sort_Permutation, elem_of_rowsWhere, andb_true_iff in H. tauto.
Qed.

Lemma exhaust_effect env n db : veffect used db (out_db (failExhausted env n db)).
Proof.
  unfold failExhausted, bind at 1. simpl. unfold bind at 1. simpl. set (f := λ t db, _).
  destruct (stmt_cases f env (n + 1) db) as [->|(a & Hf)]; [auto|]. unfold f in Hf at 1.
  destruct (existsb _ _) eqn:Hc; [done|]. injection Hf as _ <-.
  eapply ve_jobs; [done| |simpl; reflexivity]. simpl. intros i r Hr Hi.
  apply bool_decide_eq_true, list_elem_of_fmap in Hi as ([k r'] & -> & Hin). simpl in *.
  destruct (spentJobs_lookup _ _ _ _ _ Hin) as [Hr' Hs]. simplify_eq. split; [|done].
  unfold spent in Hs. breflect_in Hs. apply vj_end; try done; [apply openJob_iff; tauto|].
  assert (¬ env_now env n < vj_created_at (vj_meta r)) as Hnl; [|lia]. intros Hlt.
  assert (existsb (λ p, env_now env n <? vj_created_at (vj_meta p.2)) (spentJobs (env_locked env (n + 1)) (env_clock env (n + 1)) (jobs_ db)) = true)
    as Hx; [|congruence].
  apply existsb_Exists. exists (k, r). split; [done|]. by apply Z.ltb_lt.
Qed.

(** The claim that the publication relies on: the row is still the job that was
    claimed, and the outcome is the verdict on its evidence. *)
Lemma publish_effect job outcome env n db :
  (∀ r, jobs_ db !! JobID job = Some r → vj_meta r = vj_meta (JobRow job)) →
  (∀ o, outcomeValue outcome = Some o → jobJudged (JobRow job) o) →
  veffect used db (out_db (publishVerificationSuccess job outcome env n db)).
Proof.
  intros Hm Hj. unfold publishVerificationSuccess, handle.
  destruct (transaction (publishTx job outcome) env n db) as [res db' n'] eqn:Ht.
  assert (db' = out_db (transaction (publishTx job outcome) env n db)) as Hd by (by rewrite Ht).
  replace (out_db _) with db' by (destruct res as [|[]]; done). rewrite Hd. clear Hd Ht.
  destruct (transaction_cases (publishTx job outcome) env n db) as [->|(a & s' & n1 & H & ->)]; [auto|].
  apply bind_inv in H as (t & s2 & n2 & [-> ->]%now_inv & H).
  apply bind_inv in H as (k & s3 & n3 & Hu%stmt_inv & H).
  apply bind_inv in H as ([] & s4 & n4 & [_ ->]%guard_inv & H).
  apply bind_inv in H as (d & s5 & n5 & [_ ->]%ctxErr_inv & H). apply guard_inv in H as [_ ->].
  destruct (outcomeValue outcome) as [o|] eqn:Ho.
  - eapply updateJob_effect; [exact Hu|]. simpl. intros r Hr [HP Hc]%andb_true_iff Hle. split; [|intros _; eauto].
    apply vj_succeed; [by eapply keeps_processing, keepsLive_keeps|auto|].
    unfold jobJudged. rewrite (Hm r Hr). by apply Hj.
  - cbv zeta in Hu. destruct (jobs_ db !! JobID job); [|injection Hu as _ <-; auto]. destruct (_ && _); [done|]. injection Hu as _ <-; auto.
Qed.
End operations.
