(* ===== verification/VerificationRuns.v ===== *)
(** * Verification over time

    The handlers and any number of workers interleave statement by statement:
    [verification_step] is one handler, or one statement of a worker that acts
    on a claim it was given, or any change outside the three tables.  A worker
    publishes only verdicts; [worker_publishes_verdicts] shows that the runs of
    ProcessNext are made of these steps. *)
From S2P Require Import Prelude GoLib Encoding Tx ReportAdapter Schema Auth Paging Assets Fixture Verifier Verification VerificationWorker VerificationProps.
Local Open Scope Z_scope.

Record vsys := { vsDB : DB; vsClaims : list verificationJobRecord; vsUsed : gset string }.
Definition track (s : vsys) (claims : list verificationJobRecord) (db : DB) : vsys :=
  {| vsDB := db; vsClaims := claims; vsUsed := vsUsed s ∪ idsOf db |}.
Definition gainedClaim (r : Res verificationJobRecord) (l : list verificationJobRecord) : list verificationJobRecord :=
  match r with Ok job => job :: l | Err _ => l end.

Inductive verification_step (s : vsys) : vsys → Prop :=
  | vs_evidence ws f u i env n : freshEnv (vsUsed s) env →
      verification_step s (track s (vsClaims s) (out_db (createVerificationEvidence ws f u i env n (vsDB s))))
  | vs_approve ws f u ev why expires env n : freshEnv (vsUsed s) env →
      verification_step s (track s (vsClaims s) (out_db (createVerificationApproval ws f u ev why expires env n (vsDB s))))
  | vs_revoke ws f id u why env n :
      verification_step s (track s (vsClaims s) (out_db (revokeVerificationApproval ws f id u why env n (vsDB s))))
  | vs_enqueue ws f u a key env n : freshEnv (vsUsed s) env →
      verification_step s (track s (vsClaims s) (out_db (enqueueVerification ws f u a key env n (vsDB s))))
  (** enqueueVerification reads the approval without a lock: its INSERT may come later. *)
  | vs_insert id m env n : id ∉ vsUsed s →
      verification_step s (track s (vsClaims s) (out_db (insertVerificationJob id m env n (vsDB s))))
  | vs_exhaust env n : verification_step s (track s (vsClaims s) (out_db (failExhausted env n (vsDB s))))
  | vs_claim w env n :
      let o := claimVerification w env n (vsDB s) in
      verification_step s (track s (gainedClaim (out_res o) (vsClaims s)) (out_db o))
  | vs_settle job st failure fence env n : job ∈ vsClaims s → unsuccessful st = true →
      verification_step s (track s (vsClaims s) (out_db (settleVerificationFailure job st failure fence env n (vsDB s))))
  | vs_retry job env n : job ∈ vsClaims s →
      verification_step s (track s (vsClaims s) (out_db (retryVerification job env n (vsDB s))))
  | vs_requeue job env n : job ∈ vsClaims s →
      verification_step s (track s (vsClaims s) (out_db (requeueCancelledVerification job env n (vsDB s))))
  | vs_publish job o env n : job ∈ vsClaims s → jobJudged (JobRow job) o →
      verification_step s (track s (vsClaims s) (out_db (publishVerificationSuccess job (outcomeText o) env n (vsDB s))))
  | vs_delete blocked ws id env n :
      verification_step s (track s (vsClaims s) (out_db (deleteAsset blocked ws id env n (vsDB s))))
  | vs_other db : sameBut false false false (vsDB s) db → verification_step s (track s (vsClaims s) db).

(** A deployment that has not verified anything. *)
Definition noVerifications (s : vsys) : Prop :=
  evidence_ (vsDB s) = ∅ ∧ approvals_ (vsDB s) = ∅ ∧ jobs_ (vsDB s) = ∅ ∧ vsClaims s = [].

(** A claim speaks of the row it was given. *)
Definition claim_ok (s : vsys) (job : verificationJobRecord) : Prop :=
  JobID job ∈ vsUsed s ∧ ∀ r, jobs_ (vsDB s) !! JobID job = Some r → vj_meta r = vj_meta (JobRow job).
Record vsys_ok (s : vsys) : Prop := {
  vk_tables : tables_ok (vsUsed s) (vsDB s); vk_claims : ∀ job, job ∈ vsClaims s → claim_ok s job }.

Lemma outcomeValue_text o o' : outcomeValue (outcomeText o) = Some o' → o' = o.
Proof. by destruct o; intros [= <-]. Qed.

Lemma step_effect s s' :
  vsys_ok s → verification_step s s' →
  veffect (vsUsed s) (vsDB s) (vsDB s') ∧ vsUsed s' = vsUsed s ∪ idsOf (vsDB s').
Proof.
  intros [_ Hc] Hs. split; [|by destruct Hs]. destruct Hs; simpl;
    eauto using createEvidence_effect, createApproval_effect, revoke_effect, enqueue_effect, insert_effect,
      exhaust_effect, claim_effect, settle_effect, retry_effect, requeue_effect, deleteAsset_effect, ve_same.
  apply publish_effect; [|intros o' ->%outcomeValue_text; done]. by apply Hc.
Qed.

Lemma claim_ok_step s s' job :
  vsys_ok s → verification_step s s' → claim_ok s job → claim_ok s' job.
Proof.
  intros Hok Hs [Hu Hm]. destruct (step_effect _ _ Hok Hs) as [He Hused]. split; [rewrite Hused; set_solver|].
  intros r' Hr'. destruct (veffect_jobs _ _ _ _ _ He Hr') as [(r & Hr & Hc)|(Hn & _)]; [|done].
  rewrite <- (Hm r Hr). destruct Hc as [->|[Hc%rtc_once _]]; [done|]. by apply vjsteps_meta.
Qed.

(** What a successful claim hands out. *)
Lemma claim_inv w env n db job :
  out_res (claimVerification w env n db) = Ok job →
  ∃ r until, jobs_ db !! JobID job = Some r ∧ verifiable (env_clock env n) r = true ∧
    JobRow job = claimedJob (cfgWorkerID w) until r ∧ JobWorkerID job = cfgWorkerID w ∧
    nextVerification (env_locked env n) (env_clock env n) (jobs_ db) = Some (JobID job, r) ∧
    until = env_clock env n + env_interval env (cfgLease w) ∧
    out_db (claimVerification w env n db) =
      with_verificationJobs (<[JobID job := JobRow job]> (jobs_ db)) db.
Proof.
  unfold claimVerification, bind. simpl. unfold stmt. destruct (env_fault env n || env_done env n); [done|].
  destruct (nextVerification _ _ _) as [[id r]|] eqn:Hn; [|done]. intros [= <-]. simpl.
  pose proof Hn as Hin. apply argmin_elem, elem_of_rowsWhere in Hin as [Hr Hv]. apply andb_true_iff in Hv as [Hv _].
  eexists r, _. split_and!; try done.
Qed.

Lemma step_ok s s' : verification_step s s' → vsys_ok s → vsys_ok s'.
Proof.
  intros Hs Hok. destruct (step_effect _ _ Hok Hs) as [He Hused]. split.
  - rewrite Hused. apply (effect_ok _ (vsDB s)); [by apply vk_tables|done].
  - assert (∀ job, job ∈ vsClaims s → claim_ok s' job) as Hold.
    { intros job Hj. apply (claim_ok_step s); [done..|]. by apply vk_claims. }
    destruct Hs; try exact Hold. simpl in *. intros job. unfold gainedClaim.
    destruct (out_res _) as [job'|] eqn:Hr; [|apply Hold]. intros [->|Hin]%elem_of_cons; [|by apply Hold].
    destruct (claim_inv _ _ _ _ _ Hr) as (r & u & Hj & _ & Hrow & _ & _ & _ & Hdb). unfold o. rewrite Hdb.
    split; simpl.
    + apply elem_of_union_r. unfold idsOf. simpl. rewrite dom_insert. set_solver.
    + rewrite lookup_insert_eq. by intros ? [= <-].
Qed.

Lemma fresh_ok s : noVerifications s → vsys_ok s.
Proof.
  intros (H1 & H2 & H3 & H4). split; [|rewrite H4; set_solver].
  split; rewrite ?H1, ?H2, ?H3; [set_solver| | | |]; intros *; rewrite lookup_empty; done.
Qed.

Lemma reached_ok s0 s : noVerifications s0 → rtc verification_step s0 s → vsys_ok s.
Proof. intros H0%fresh_ok Hs. revert H0. induction Hs; eauto using step_ok. Qed.

(** Later rows of known identifiers come from earlier ones. *)
Lemma steps_origin s s' :
  vsys_ok s → rtc verification_step s s' →
  vsUsed s ⊆ vsUsed s' ∧
  (∀ i r', i ∈ vsUsed s → jobs_ (vsDB s') !! i = Some r' → ∃ r, jobs_ (vsDB s) !! i = Some r ∧ rtc vjstep r r') ∧
  (∀ i a', i ∈ vsUsed s → approvals_ (vsDB s') !! i = Some a' →
     ∃ a, approvals_ (vsDB s) !! i = Some a ∧ va_binding a' = va_binding a ∧ (isSome (va_revoked a) = true → isSome (va_revoked a') = true)).
Proof.
  intros Hok Hs. revert Hok. induction Hs as [s|s s1 s2 H1 _ IH]; intros Hok.
  { split_and!; [done|eauto using rtc_refl..]. }
  destruct (IH (step_ok _ _ H1 Hok)) as (IHu & IHj & IHa). destruct (step_effect _ _ Hok H1) as [He Hused].
  assert (vsUsed s ⊆ vsUsed s1) as Hu by (rewrite Hused; set_solver). split_and!.
  - set_solver.
  - intros i r2 Hi Hr2. destruct (IHj i r2) as (r1 & Hr1 & Hs1); [set_solver|done|].
    destruct (veffect_jobs _ _ _ _ _ He Hr1) as [(r & Hr & Hc)|(Hn & _)]; [|done]. exists r. split; [done|].
    destruct Hc as [->|[Hc _]]; [done|]. by eapply rtc_l.
  - intros i a2 Hi Ha2. destruct (IHa i a2) as (a1 & Ha1 & Hb1 & Hr1); [set_solver|done|].
    destruct (veffect_approvals _ _ _ _ _ He Ha1) as [(a & Ha & Hc)|(Hn & _)]; [|done]. exists a. split; [done|].
    destruct Hc as [->|(t & u & why & _ & ->)]; [done|]. simpl in *. auto.
Qed.

(** ** Results *)

Definition approvalCovers (now : Z) (db : DB) (r : VerificationRow) : Prop :=
  ∃ a, approvals_ db !! vj_approval_id (vj_meta r) = Some a ∧ va_binding a = vj_binding (vj_meta r) ∧
    va_revoked a = None ∧ now < va_expires_at a ∧
    findingRevision (vb_workspace_id (va_binding a)) (vb_finding_id (va_binding a)) db =
      Some (vb_finding_evidence_revision (va_binding a)).

Lemma covered_inv now db r :
  covered now db r = true → approvedBy (approvals_ db) (vj_meta r) → approvalCovers now db r.
Proof.
  unfold covered. intros H (a & Ha & Hb). rewrite Ha in H. breflect_in H.
  destruct H as (((((_ & Hr) & Ht) & Hf) & _) & _). exists a. split_and!; try done.
  destruct (va_revoked a); [done|done].
Qed.

(** C7: a verification that succeeded rests on an approval row with exactly its binding and on evidence stored under it whose content has the approved digest; its outcome, reproduced or not, is what bytes with that digest say as a fixture of the approved environment; and no verification ever asks to close the finding or to mark it a false positive.  This holds in every interleaving of the handlers, of any number of workers and of deletions. *)
Theorem verification_results_sound s0 s i r :
  noVerifications s0 → rtc verification_step s0 s → jobs_ (vsDB s) !! i = Some r →
  (vj_close_finding (vj_entry r) = false ∧ vj_false_positive (vj_entry r) = false) ∧
  (vj_state (vj_entry r) = VSucceeded →
   ∃ o a e, vj_reproduced (vj_entry r) = Some o ∧
     approvals_ (vsDB s) !! vj_approval_id (vj_meta r) = Some a ∧ va_binding a = vj_binding (vj_meta r) ∧
     evidence_ (vsDB s) !! vb_evidence_id (va_binding a) = Some e ∧
     evidenceBinding (vb_evidence_id (va_binding a)) e = va_binding a ∧
     ve_content_digest e = "sha256:" +:+ hex (Sum256 (ve_content e)) ∧
     judged (ve_content_digest e) (ve_environment_id e) o).
Proof.
  intros H0 Hs Hr. pose proof (vk_tables _ (reached_ok _ _ H0 Hs)) as Hok.
  destruct (tk_jobs _ _ Hok i r Hr) as [(_ & _ & Hc & Hf & Hj) (a & Ha & Hb)]. split; [done|].
  intros Hst. rewrite Hst in Hj. destruct Hj as (_ & _ & _ & _ & o & Ho & Hjd).
  destruct (tk_approvals _ _ Hok _ _ Ha) as [_ (e & He & Heb)].
  exists o, a, e. split_and!; try done; [by apply (tk_evidence _ _ Hok _ _ He)|].
  unfold jobJudged in Hjd. rewrite <- Hb, <- Heb in Hjd. exact Hjd.
Qed.

(** The tables satisfy, at all times, the CHECKs and foreign keys the statements rely on: attempts stay within three and below the fence, each state has exactly its columns, completion never precedes creation, approvals last at most a day and point at evidence of the same binding, evidence is a stored fixture with its own digest and size, and a workspace has at most one job per idempotency key. *)
Theorem verification_tables_wellformed s0 s :
  noVerifications s0 → rtc verification_step s0 s → tables_ok (vsUsed s) (vsDB s).
Proof. intros H0 Hs. apply vk_tables. by eapply reached_ok. Qed.

(** A job becomes succeeded only in a step in which its approval is in force: not revoked, not expired at the instant of the publication, and given for the evidence revision the finding has in that very database; a finished job never changes again. *)
Theorem verification_success_needs_approval s0 s s' i r :
  noVerifications s0 → rtc verification_step s0 s → verification_step s s' →
  jobs_ (vsDB s) !! i = Some r →
  (∀ r', jobs_ (vsDB s') !! i = Some r' → vj_state (vj_entry r') = VSucceeded → vj_state (vj_entry r) ≠ VSucceeded →
     ∃ now, approvalCovers now (vsDB s) r) ∧
  (openJob r = false → ∀ r', jobs_ (vsDB s') !! i = Some r' → r' = r).
Proof.
  intros H0 Hs Hstep Hr. pose proof (reached_ok _ _ H0 Hs) as Hok. destruct (step_effect _ _ Hok Hstep) as [He _].
  assert (i ∈ vsUsed s) as Hi.
  { apply (tk_used _ _ (vk_tables _ Hok)). apply elem_of_union_r, elem_of_dom. eauto. }
  split.
  - intros r' Hr' Hst Hne. destruct (veffect_jobs _ _ _ _ _ He Hr') as [(x & Hx & Hc)|(Hn & _)]; [|done]. simplify_eq.
    destruct Hc as [->|[_ Hc]]; [done|]. destruct (Hc Hst) as [t Ht]. exists t. apply covered_inv; [done|].
    by apply (tk_jobs _ _ (vk_tables _ Hok) _ _ Hr).
  - intros Ho r' Hr'. destruct (veffect_jobs _ _ _ _ _ He Hr') as [(x & Hx & Hc)|(Hn & _)]; [|done]. simplify_eq.
    destruct Hc as [->|[Hc%vjstep_open _]]; [done|congruence].
Qed.

(** ** Revocation *)

Lemma revoke_inv ws f id u why env n db v db' n' :
  revokeVerificationApproval ws f id u why env n db = mkOut (Ok v) db' n' →
  ∃ a t, approvals_ db !! id = Some a ∧ vb_workspace_id (va_binding a) = ws ∧ vb_finding_id (va_binding a) = f ∧
    approvals_ db' = <[id := revokedApproval t u why a]> (approvals_ db) ∧
    jobs_ db' = updateRows (λ _ r, jobsOf ws f id r) (cancelJob t) (jobs_ db).
Proof.
  intros H. apply bind_inv in H as ([] & s1 & n1 & [_ ->]%guard_inv & H). apply transaction_inv in H as [n2 H].
  apply bind_inv in H as (a & s3 & n3 & [Ha ->]%query_inv & H).
  apply bind_inv in H as ([] & s4 & n4 & [Hr ->]%guard_inv & H).
  apply bind_inv in H as (t & s5 & n5 & [-> ->]%now_inv & H).
  apply bind_inv in H as ([] & s6 & n6 & Hu%stmt_inv & H).
  apply bind_inv in H as ([] & s7 & n7 & Hj%stmt_inv & H).
  apply bind_inv in H as (z & s8 & n8 & [_ ->]%query_inv & H). apply ret_inv in H as [_ ->].
  destruct (approvalOf ws f id db) as [b|] eqn:Hb; [|done]. injection Ha as ->.
  destruct (_ && _) eqn:Hc in Hu; [|done]. injection Hu as <-.
  destruct (completesInOrder _ _ _) eqn:Ho in Hj; [|done]. injection Hj as <-.
  unfold approvalOf in Hb. destruct (approvals_ db !! id) as [b'|] eqn:Hb'; [|done].
  destruct (_ && _) eqn:Hw in Hb; [|done]. injection Hb as ->. breflect_in Hw.
  exists a, (env_now env n4). tauto.
Qed.

Section revocation.
Context (s1 : vsys) (id : string).

(** Under a revoked approval no further job succeeds. *)
Lemma revoked_no_success s2 :
  vsys_ok s1 → id ∈ vsUsed s1 →
  (∀ a, approvals_ (vsDB s1) !! id = Some a → isSome (va_revoked a) = true) →
  rtc verification_step s1 s2 →
  ∀ i r, jobs_ (vsDB s2) !! i = Some r → vj_approval_id (vj_meta r) = id → vj_state (vj_entry r) = VSucceeded →
    jobs_ (vsDB s1) !! i = Some r.
Proof.
  intros Hok Hid Hrev. revert s2. apply (rtc_ind_r (λ s2, ∀ i r, jobs_ (vsDB s2) !! i = Some r →
    vj_approval_id (vj_meta r) = id → vj_state (vj_entry r) = VSucceeded → jobs_ (vsDB s1) !! i = Some r)); [done|].
  intros s2 s3 Hs H3 IH i r Hr Happ Hst.
  assert (vsys_ok s2) as Hok2 by (clear - Hok Hs; induction Hs; eauto using step_ok).
  destruct (step_effect _ _ Hok2 H3) as [He _].
  destruct (veffect_jobs _ _ _ _ _ He Hr) as [(r2 & Hr2 & Hc)|(_ & t & Hnew & _)];
    [|rewrite Hnew in Hst; done].
  destruct Hc as [->|[Hj Hcov]]; [by apply IH|]. exfalso. destruct (Hcov Hst) as [t Ht].
  assert (vj_meta r = vj_meta r2) as Hm by (by apply vjsteps_meta, rtc_once).
  apply covered_inv in Ht as (a & Ha & _ & Hn & _); [|by apply (tk_jobs _ _ (vk_tables _ Hok2) _ _ Hr2)].
  rewrite <- Hm, Happ in Ha. destruct (steps_origin _ _ Hok Hs) as (_ & _ & Hor).
  destruct (Hor id a Hid Ha) as (a1 & Ha1 & _ & Hkeep). specialize (Hkeep (Hrev _ Ha1)). by rewrite Hn in Hkeep.
Qed.
End revocation.

(** Once a revocation is acknowledged, every job under that approval is finished, and whatever happens later, restarts, races with a queueing request and expired leases included, no job under it succeeds any more: the succeeded ones are exactly those that had succeeded before, unchanged. *)
Theorem verification_revocation_final s0 s1 s2 ws f id u why env n v db' n' :
  noVerifications s0 → rtc verification_step s0 s1 →
  revokeVerificationApproval ws f id u why env n (vsDB s1) = mkOut (Ok v) db' n' →
  (∀ i r, jobs_ db' !! i = Some r → vj_approval_id (vj_meta r) = id → openJob r = false) ∧
  (rtc verification_step (track s1 (vsClaims s1) db') s2 →
   ∀ i r, jobs_ (vsDB s2) !! i = Some r → vj_approval_id (vj_meta r) = id → vj_state (vj_entry r) = VSucceeded →
     jobs_ (vsDB s1) !! i = Some r).
Proof.
  intros H0 Hs H. pose proof (reached_ok _ _ H0 Hs) as Hok.
  destruct (revoke_inv _ _ _ _ _ _ _ _ _ _ _ H) as (a & t & Ha & Hws & Hf & HA & HJ).
  assert (vsys_ok (track s1 (vsClaims s1) db')) as Hok'.
  { apply (step_ok s1); [|done]. pose proof (vs_revoke s1 ws f id u why env n) as Hv. by rewrite H in Hv. }
  assert (∀ i r, jobs_ db' !! i = Some r → ∃ r1, jobs_ (vsDB s1) !! i = Some r1 ∧
    r = (if jobsOf ws f id r1 then cancelJob t r1 else r1)) as Hrows.
  { intros i r Hr. rewrite HJ, lookup_updateRows in Hr. destruct (jobs_ (vsDB s1) !! i) as [r1|]; [|done].
    exists r1. split; [done|]. by injection Hr. }
  split.
  - intros i r Hr Happ. destruct (Hrows i r Hr) as (r1 & Hr1 & ->).
    destruct (jobsOf ws f id r1) eqn:Hjo; [done|]. destruct (openJob r1) eqn:Ho; [|done]. exfalso.
    destruct (tk_jobs _ _ (vk_tables _ Hok) _ _ Hr1) as [_ (a' & Ha' & Hb')].
    rewrite Happ, Ha in Ha'. simplify_eq. unfold jobsOf in Hjo. rewrite <- Hb', Ho in Hjo. breflect_in Hjo. naive_solver.
  - intros Hs2 i r Hr Happ Hst.
    apply (revoked_no_success (track s1 (vsClaims s1) db') id s2) in Hr; try done; simpl in *.
    + destruct (Hrows i r Hr) as (r1 & Hr1 & ->). by destruct (jobsOf ws f id r1).
    + apply elem_of_union_l, (tk_used _ _ (vk_tables _ Hok)). apply elem_of_union_l, elem_of_union_r, elem_of_dom. eauto.
    + intros a'. rewrite HA, lookup_insert_eq. by intros [= <-].
Qed.
