(* ===== verification/VerificationProgress.v ===== *)
(** * The verification worker's runs

    ProcessNext is a sequence of the steps of VerificationRuns; every call that
    reports work uses up some of a bounded amount, so a worker cannot spin; a
    job under a current approval gets its verdict when nothing fails.  Two
    things the code does not mean to do are stated as well: a cancelled third
    attempt leaves a job that no worker takes up again, and one failed lookup
    of the approval ends a job as blocked. *)
From S2P Require Import Prelude GoLib Encoding Tx ReportAdapter Schema Auth Paging Assets Fixture Verifier Verification VerificationWorker VerificationProps VerificationRuns.
Local Open Scope Z_scope.

(** ** Verify reads only *)

Section readonly.
Context {St : Type} (openEvidence : string → evidenceRef → M St (option evidenceReader))
  (lookupApproval : string → M St Approval) (maxBytes : Z) (revoked : nat → bool)
  (Hopen : ∀ ws ref, Steps eq (openEvidence ws ref)) (Hlookup : ∀ id, Steps eq (lookupApproval id)).
#[local] Hint Resolve Hopen Hlookup : steps.

Lemma accessCause_reads cause : Steps eq (accessCause (St:=St) revoked cause).
Proof. by intros env n s. Qed.
#[local] Hint Resolve accessCause_reads : steps.
Lemma cancelAccess_reads cause e : Steps eq (cancelAccess (St:=St) revoked cause e).
Proof. unfold cancelAccess. steps. Qed.
#[local] Hint Resolve cancelAccess_reads : steps.
Lemma current_reads cause r : Steps eq (current lookupApproval revoked cause r).
Proof. unfold current. steps. Qed.
#[local] Hint Resolve current_reads : steps.
Lemma readAll_reads r chunks e limit acc cause : Steps eq (readAll lookupApproval revoked r chunks e limit acc cause).
Proof. revert limit acc cause. induction chunks; intros [|limit] acc cause; cbn [readAll]; steps; auto. Qed.
#[local] Hint Resolve readAll_reads : steps.
Lemma denied_reads r cause errs : Steps eq (denied (St:=St) revoked r cause errs).
Proof. unfold denied, accessFailure. steps. Qed.
#[local] Hint Resolve denied_reads : steps.
Lemma evaluateFixture_reads r data cause : Steps eq (evaluateFixture lookupApproval maxBytes revoked r data cause).
Proof. unfold evaluateFixture. steps. Qed.
#[local] Hint Resolve evaluateFixture_reads : steps.
Lemma Verify_reads r : Steps eq (Verify openEvidence lookupApproval maxBytes revoked r).
Proof. unfold Verify, readEvidence. steps. Qed.
End readonly.

Lemma lookupVerification_reads job id : Steps eq (lookupVerificationApproval job id).
Proof. unfold lookupVerificationApproval. steps. Qed.
Lemma openDatabase_reads buffer job ws ref : Steps eq (openDatabaseEvidence buffer job ws ref).
Proof. unfold openDatabaseEvidence. steps. Qed.

Lemma workerVerify_reads buffer job max revoked r :
  Steps eq (Verify (openDatabaseEvidence buffer job) (lookupVerificationApproval job) max revoked r).
Proof. apply Verify_reads; [apply openDatabase_reads | apply lookupVerification_reads]. Qed.
Lemma policyOutcome_reads job : Steps eq (verificationPolicyOutcome job).
Proof. unfold verificationPolicyOutcome. steps. Qed.

(** The condition a run branches on first. *)
Ltac head_if H := match type of H with (if ?c then _ else _) _ _ _ = _ => destruct c eqn:? end.

Lemma policyOutcome_unsuccessful job env n db o db' n' :
  verificationPolicyOutcome job env n db = mkOut (Ok o) db' n' → unsuccessful (fst o) = true.
Proof.
  intros H. apply handle_inv in H as ([[a rev]|e] & s1 & n1 & _ & H); [|by apply ret_inv in H as [<- _]].
  cbv zeta in H. head_if H; [by apply ret_inv in H as [<- _]|]. head_if H; [by apply ret_inv in H as [<- _]|].
  apply bind_inv in H as (t & s2 & n2 & _ & H). apply ret_inv in H as [<- _]. by case_match.
Qed.

(** ** Runs are interleavings *)

Section runs.
Context (w : verificationConfig) (buffer : nat → nat) (revoked : nat → bool).

Definition reaches (s : vsys) (db : DB) : Prop := ∃ s', rtc verification_step s s' ∧ vsDB s' = db.

Lemma reaches_refl s : reaches s (vsDB s).
Proof. exists s. split; [apply rtc_refl|done]. Qed.
Lemma reaches_step s s' : verification_step s s' → reaches s (vsDB s').
Proof. intros H. exists s'. split; [by apply rtc_once|done]. Qed.

Lemma settle_reaches s job verified env n :
  job ∈ vsClaims s →
  (∀ o, snd verified = [] → outcomeValue (vrOutcome (fst verified)) = Some o →
     vrOutcome (fst verified) = outcomeText o ∧ jobJudged (JobRow job) o) →
  (snd verified = [] → is_Some (outcomeValue (vrOutcome (fst verified)))) →
  reaches s (out_db (settleVerification job verified env n (vsDB s))).
Proof.
  intros Hj Ho Hsome. destruct verified as [res errs]. unfold settleVerification. simpl in *.
  destruct (decide (errs = [])) as [->|Hne].
  - destruct (Hsome eq_refl) as [o Ho']. destruct (Ho o eq_refl Ho') as [-> Hjd].
    rewrite bool_decide_true by done. by apply (reaches_step _ _ (vs_publish s job o env n Hj Hjd)).
  - rewrite bool_decide_false by done. unfold bind at 1. simpl.
    destruct (env_done env n); [apply (reaches_step _ _ (vs_requeue s job env _ Hj))|].
    destruct (isError VerifyErrFormat errs); [apply (reaches_step _ _ (vs_settle s job VFailed _ true env _ Hj eq_refl))|].
    destruct (isError EvidenceErrIntegrity errs); [apply (reaches_step _ _ (vs_settle s job VFailed _ true env _ Hj eq_refl))|].
    destruct (isError VerifyErrPolicy errs); [|apply (reaches_step _ _ (vs_retry s job env _ Hj))].
    unfold bind at 1. pose proof (policyOutcome_reads job env (n + 1)%nat (vsDB s)) as Hro.
    destruct (verificationPolicyOutcome job env (n + 1)%nat (vsDB s)) as [[o|e] db1 n1] eqn:Hpo; simpl in Hro; subst.
    + apply (reaches_step _ _ (vs_settle s job (fst o) (snd o) false env _ Hj (policyOutcome_unsuccessful _ _ _ _ _ _ _ Hpo))).
    + apply reaches_refl.
Qed.

Lemma job_reaches s job env n :
  job ∈ vsClaims s → reaches s (out_db (processVerification w buffer revoked job env n (vsDB s))).
Proof.
  intros Hj. unfold processVerification, handle at 1. set (q := query _).
  pose proof (steps_query eq (λ _ db, orNoRows (
    e ← evidenceOf (vb_workspace_id (JobBinding job)) (vb_finding_id (JobBinding job)) (vb_evidence_id (JobBinding job)) db;
    if ve_content_digest e ==? vb_evidence_digest (JobBinding job) then Some (ve_content_size e) else None)) env n (vsDB s)) as Hq.
  fold q in Hq. destruct (q env n (vsDB s)) as [[size|e] db1 n1]; simpl in Hq; subst.
  2: { apply (reaches_step _ _ (vs_settle s job VFailed _ true env _ Hj eq_refl)). }
  destruct (OpenVerifier _ _); [|apply (reaches_step _ _ (vs_retry s job env _ Hj))].
  unfold bind at 1. pose proof (workerVerify_reads buffer job (cfgMaxFixture w) revoked (requestOf job size) env n1 (vsDB s)) as Hv.
  destruct (Verify _ _ _ _ _ env n1 (vsDB s)) as [[[res errs]|e] db2 n2] eqn:Hr; simpl in Hv; subst; [|apply reaches_refl].
  apply settle_reaches; [done| |]; simpl.
  - intros o -> Ho. destruct (Verify_sound _ _ _ _ _ _ _ _ _ _ _ Hr) as (s1 & o' & Hout & Hjd & _).
    destruct o'; rewrite Hout in Ho; injection Ho as <-; (split; [done|exact Hjd]).
  - intros ->. destruct (Verify_sound _ _ _ _ _ _ _ _ _ _ _ Hr) as (s1 & o' & -> & _). destruct o'; by eexists.
Qed.

Lemma call_reaches s env n : reaches s (out_db (ProcessNextVerification w buffer revoked env n (vsDB s))).
Proof.
  unfold ProcessNextVerification, bind at 1. simpl. destruct (env_done env n); [apply reaches_refl|].
  unfold handle at 1. destruct (failExhausted env (n + 1)%nat (vsDB s)) as [[[]|e] db1 n1] eqn:Hx.
  1, 3: pose proof (reaches_step _ _ (vs_exhaust s env (n + 1)%nat)) as Hv; by rewrite Hx in Hv.
  pose proof (vs_exhaust s env (n + 1)%nat) as Hv. rewrite Hx in Hv. simpl in Hv. set (s1 := track s (vsClaims s) db1) in Hv.
  unfold handle at 1. pose proof (vs_claim s1 w env n1) as Hc. simpl in Hc.
  destruct (claimVerification w env n1 db1) as [[job|e] db2 n2] eqn:Hcl; simpl in Hc.
  - set (s2 := track s1 (job :: vsClaims s1) db2) in Hc. unfold handle.
    destruct (job_reaches s2 job env n2) as (s3 & Hs & Hdb); [simpl; set_solver|]. simpl in Hdb.
    destruct (processVerification w buffer revoked job env n2 db2) as [r db3 n3]. simpl in *.
    exists s3. split; [|done]. eapply rtc_l; [exact Hv|]. by eapply rtc_l.
  - exists (track s1 (vsClaims s1) db2). split; [|by destruct e]. eapply rtc_l; [exact Hv|]. by apply rtc_once.
Qed.
(** Each run of ProcessNext, whatever fails in it, is a sequence of steps of the model in which workers publish only verdicts about the evidence their job is bound to; the theorems about interleavings therefore speak about the worker as it is written. *)
Theorem worker_publishes_verdicts s env n :
  ∃ s', rtc verification_step s s' ∧ vsDB s' = out_db (ProcessNextVerification w buffer revoked env n (vsDB s)).
Proof. apply call_reaches. Qed.
End runs.

(** ** Work is bounded

    What is left to do for a job: two per attempt it still has, and one to end. *)
Definition weight (r : VerificationRow) : nat :=
  if openJob r then S (2 * Z.to_nat (verificationAttempts - vj_attempts (vj_entry r))) else 0.
Definition pending (m : gmap string VerificationRow) : nat := map_fold (λ _ r acc, weight r + acc)%nat 0%nat m.

Lemma pending_insert m i r : m !! i = None → pending (<[i := r]> m) = (weight r + pending m)%nat.
Proof. intros Hn. unfold pending.
  apply (map_fold_insert_L (λ _ r acc, weight r + acc)%nat); [intros; lia|done].
Qed.
Lemma pending_delete m i r : m !! i = Some r → pending m = (weight r + pending (delete i m))%nat.
Proof. intros Hr. rewrite <- (insert_delete_id m i r Hr) at 1. apply pending_insert, lookup_delete_eq. Qed.

(** Each row of the second table is a row of the first with at most its weight. *)
Definition lighter (m m' : gmap string VerificationRow) : Prop :=
  ∀ i r', m' !! i = Some r' → ∃ r, m !! i = Some r ∧ (weight r' ≤ weight r)%nat.
#[export] Instance lighter_preorder : PreOrder lighter.
Proof.
  split; [intros m i r; eauto|]. intros m1 m2 m3 H12 H23 i r3 H3.
  destruct (H23 i r3 H3) as (r2 & H2 & ?). destruct (H12 i r2 H2) as (r1 & ? & ?). eauto with lia.
Qed.

Lemma pending_le m m' : lighter m m' → (pending m' ≤ pending m)%nat.
Proof.
  revert m. induction m' as [|i r' m' Hn IH] using map_ind; intros m Hl.
  - unfold pending at 1. rewrite map_fold_empty. lia.
  - destruct (Hl i r') as (r & Hr & Hw); [apply lookup_insert_eq|].
    rewrite pending_insert, (pending_delete m i r) by done. 
    assert (lighter (delete i m) m') as Hd; [|specialize (IH _ Hd); lia].
    intros j rj Hj. assert (j ≠ i) by congruence. rewrite lookup_delete_ne by done.
    apply Hl. by rewrite lookup_insert_ne.
Qed.

Lemma pending_lt m m' i r r' :
  lighter m m' → m !! i = Some r → m' !! i = Some r' → (weight r' < weight r)%nat → (pending m' < pending m)%nat.
Proof.
  intros Hl Hr Hr' Hw. rewrite (pending_delete m i r), (pending_delete m' i r') by done.
  assert (pending (delete i m') ≤ pending (delete i m))%nat; [|lia]. apply pending_le.
  intros j rj Hj. apply lookup_delete_Some in Hj as [Hne Hj]. rewrite lookup_delete_ne by done. auto.
Qed.

Definition jobsLighter (db db' : DB) : Prop := lighter (jobs_ db) (jobs_ db').
#[export] Instance jobsLighter_preorder : PreOrder jobsLighter.
Proof. split; [intros db; apply lighter_preorder | intros d1 d2 d3; unfold jobsLighter; apply lighter_preorder]. Qed.

Lemma lighter_insert m i r r' : m !! i = Some r → (weight r' ≤ weight r)%nat → lighter m (<[i := r']> m).
Proof. intros Hr Hw j rj [[<- <-]|[_ ?]]%lookup_insert_Some; eauto. Qed.
Lemma lighter_update m P f : (∀ i r, P i r = true → (weight (f r) ≤ weight r)%nat) → lighter m (updateRows P f m).
Proof.
  intros Hf i r'. rewrite lookup_updateRows. destruct (m !! i) as [r|]; [|done]. simpl. intros [= <-].
  exists r. split; [done|]. case_match; eauto.
Qed.

Lemma weight_ended r e : openJob (setEntry r e) = false → weight (setEntry r e) = 0%nat.
Proof. unfold weight. by intros ->. Qed.
Lemma weight_requeued t job r : keeps job r = true → weight (requeuedJob t r) = weight r.
Proof. intros H%keeps_processing. unfold weight, openJob. by rewrite H. Qed.

Lemma updateJob_lighter id P f a db db' :
  updateJob id P f db = Ok (a, db') → (∀ r, P r = true → (weight (f r) ≤ weight r)%nat) → jobsLighter db db'.
Proof.
  unfold updateJob. intros H Hf. destruct (jobs_ db !! id) as [r|] eqn:Hr; [|by injection H as _ <-].
  destruct (P r) eqn:HP; simpl in H; [|by injection H as _ <-].
  assert (jobsLighter db (with_verificationJobs (<[id := f r]> (jobs_ db)) db)) as Hl
    by (apply (lighter_insert _ _ r); auto).
  destruct (vj_completed_at _); [destruct (_ <? _); [done|]|]; by injection H as _ <-.
Qed.

Lemma stmt_lighter {A} (f : Z → DB → Res (A * DB)) :
  (∀ t db a db', f t db = Ok (a, db') → jobsLighter db db') → Steps jobsLighter (stmt f).
Proof. intros Hf. apply steps_stmt; [apply _|]. eauto. Qed.
Lemma reads_lighter {A} (m : M DB A) : Steps eq m → Steps jobsLighter m.
Proof. intros Hm env n db. by rewrite <- (Hm env n db). Qed.

Lemma settle_lighter job st failure fence : unsuccessful st = true → Steps jobsLighter (settleVerificationFailure job st failure fence).
Proof.
  intros Hst. unfold settleVerificationFailure. steps. apply stmt_lighter. intros t db a' db' H.
  eapply updateJob_lighter; [exact H|]. intros r _. unfold failedJob. rewrite weight_ended; [lia|].
  unfold openJob. simpl. by destruct st.
Qed.
Lemma retry_lighter job : Steps jobsLighter (retryVerification job).
Proof.
  unfold retryVerification. case_match; [by apply settle_lighter|]. steps. apply stmt_lighter. intros t db a db' Hu.
  eapply updateJob_lighter; [exact Hu|]. intros r Hk%keepsLive_keeps. cbn beta. by rewrite (weight_requeued _ job).
Qed.
Lemma requeue_lighter job : Steps jobsLighter (requeueCancelledVerification job).
Proof.
  unfold requeueCancelledVerification. steps. unfold background. intros env n db.
  apply stmt_lighter. intros t db1 a db' Hu. eapply updateJob_lighter; [exact Hu|]. intros r Hk. by rewrite (weight_requeued _ job).
Qed.
Lemma publish_lighter job outcome : Steps jobsLighter (publishVerificationSuccess job outcome).
Proof.
  unfold publishVerificationSuccess, publishTx. steps. all: apply stmt_lighter; intros t db k db' Hu.
  all: destruct (outcomeValue outcome) as [o|];
    [eapply updateJob_lighter; [exact Hu|]; intros r _; unfold succeededJob; rewrite weight_ended; [lia|done]|].
  all: cbv zeta in Hu; repeat case_match; simplify_eq; done.
Qed.
#[local] Hint Resolve settle_lighter retry_lighter requeue_lighter publish_lighter : steps.

Lemma policySettle_lighter job :
  Steps jobsLighter (bind (verificationPolicyOutcome job) (λ o, settleVerificationFailure job (fst o) (snd o) false)).
Proof.
  intros env n db. unfold bind. pose proof (policyOutcome_reads job env n db) as Hr.
  destruct (verificationPolicyOutcome job env n db) as [[o|e] db1 n1] eqn:Ho; simpl in Hr; subst; [|reflexivity].
  apply settle_lighter. by eapply policyOutcome_unsuccessful.
Qed.
#[local] Hint Resolve policySettle_lighter : steps.

Lemma settleVerification_lighter job verified : Steps jobsLighter (settleVerification job verified).
Proof. unfold settleVerification. destruct verified as [res errs]. case_match; [apply publish_lighter|]. steps. Qed.
#[local] Hint Resolve settleVerification_lighter : steps.

Lemma workerVerify_lighter buffer job max revoked r :
  Steps jobsLighter (Verify (openDatabaseEvidence buffer job) (lookupVerificationApproval job) max revoked r).
Proof. apply reads_lighter, workerVerify_reads. Qed.
#[local] Hint Resolve workerVerify_lighter : steps.

Lemma process_lighter w buffer revoked job : Steps jobsLighter (processVerification w buffer revoked job).
Proof. unfold processVerification. steps. Qed.

Lemma exhausted_lighter env n db :
  jobsLighter db (out_db (failExhausted env n db)) ∧
  (out_res (failExhausted env n db) = Ok true → (pending (jobs_ (out_db (failExhausted env n db))) < pending (jobs_ db))%nat).
Proof.
  unfold failExhausted, bind at 1 2 3. simpl. unfold bind at 1 2 3. simpl. unfold stmt.
  destruct (env_fault env (n + 1) || env_done env (n + 1)); [by split|].
  set (l := spentJobs _ _ _). destruct (existsb _ l); [by split|]. simpl.
  assert (jobsLighter db (with_verificationJobs (updateRows (λ id _, bool_decide (id ∈ l.*1))
    (endJob VFailed limitFailure (env_now env n)) (jobs_ db)) db)) as Hl.
  { apply lighter_update. intros i r _. unfold endJob. rewrite weight_ended; [lia|done]. }
  split; [exact Hl|]. intros [= Hne]. destruct l as [|[i r] l'] eqn:El; [done|].
  destruct (spentJobs_lookup (env_locked env (n + 1)) (env_clock env (n + 1)) (jobs_ db) i r) as [Hr Hs].
  { fold l. rewrite El. set_solver. }
  eapply (pending_lt _ _ i r); [exact Hl|done| |].
  - simpl. rewrite lookup_updateRows, Hr. simpl. by rewrite bool_decide_true by set_solver.
  - unfold endJob. rewrite weight_ended by done. unfold spent in Hs. breflect_in Hs.
    unfold weight. rewrite (proj2 (openJob_iff r)) by tauto. lia.
Qed.

(** A call that reports work leaves less of it. *)
Lemma ProcessNext_progress w buffer revoked env n db e :
  out_res (ProcessNextVerification w buffer revoked env n db) = Ok (true, e) →
  (pending (jobs_ (out_db (ProcessNextVerification w buffer revoked env n db))) < pending (jobs_ db))%nat.
Proof.
  unfold ProcessNextVerification, handle, bind. simpl. destruct (env_done env n); [done|].
  destruct (exhausted_lighter env (n + 1) db) as [Hl Hlt].
  destruct (failExhausted env (n + 1)%nat db) as [[[]|x] db1 n1]; simpl in *; [by auto| |done].
  pose proof (claim_inv w env n1 db1) as Hc.
  destruct (claimVerification w env n1 db1) as [[job|x] db2 n2]; simpl in *; [|by destruct x].
  destruct (Hc job eq_refl) as (r & u & Hr & Hv & Hrow & _ & _ & _ & ->).
  pose proof (process_lighter w buffer revoked job env n2 (with_verificationJobs (<[JobID job := JobRow job]> (jobs_ db1)) db1)) as Hp.
  destruct (processVerification w buffer revoked job env n2 _) as [q db3 n3]. simpl in *. intros _.
  apply pending_le in Hp, Hl. simpl in Hp.
  assert (pending (<[JobID job := JobRow job]> (jobs_ db1)) < pending (jobs_ db1))%nat; [|lia].
  assert (weight (JobRow job) < weight r)%nat as Hw.
  { rewrite Hrow. unfold verifiable in Hv. breflect_in Hv. unfold weight.
    rewrite (proj2 (openJob_iff r)), (proj2 (openJob_iff (claimedJob _ _ _))) by (simpl; tauto). simpl.
    unfold verificationAttempts in *. lia. }
  eapply (pending_lt _ _ (JobID job) r (JobRow job)); [|done|apply lookup_insert_eq|done].
  apply (lighter_insert _ _ r); [done|lia].
Qed.

(** ** A worker's loop: calls of ProcessNext in any world and with any worker *)
Record call := { callWorker : verificationConfig; callBuffer : nat → nat; callRevoked : nat → bool; callEnv : Env; callTick : nat }.
Definition runCall (c : call) (db : DB) : Out DB (bool * option error) :=
  ProcessNextVerification (callWorker c) (callBuffer c) (callRevoked c) (callEnv c) (callTick c) db.
Definition reportsWork (r : Res (bool * option error)) : bool := match r with Ok (true, _) => true | _ => false end.
(** The database after the calls, and how many of them reported work. *)
Definition addCall (acc : DB * nat) (c : call) : DB * nat :=
  let o := runCall c (fst acc) in (out_db o, snd acc + if reportsWork (out_res o) then 1 else 0)%nat.
Definition runCalls (l : list call) (db : DB) : DB * nat := fold_left addCall l (db, 0%nat).

Lemma ProcessNext_lighter w buffer revoked : Steps jobsLighter (ProcessNextVerification w buffer revoked).
Proof.
  intros env n db. unfold ProcessNextVerification, bind at 1. simpl. destruct (env_done env n); [reflexivity|].
  unfold handle at 1. destruct (exhausted_lighter env (n + 1) db) as [Hl _].
  destruct (failExhausted env (n + 1)%nat db) as [[[]|x] db1 n1]; simpl in *; [done| |done].
  etransitivity; [exact Hl|]. unfold handle at 1. pose proof (claim_inv w env n1 db1) as Hc.
  destruct (claimVerification w env n1 db1) as [[job|x] db2 n2] eqn:Hcl; simpl in *.
  - destruct (Hc job eq_refl) as (r & u & Hr & Hv & Hrow & _ & _ & _ & ->). unfold handle.
    pose proof (process_lighter w buffer revoked job env n2 (with_verificationJobs (<[JobID job := JobRow job]> (jobs_ db1)) db1)) as Hp.
    destruct (processVerification w buffer revoked job env n2 _) as [q db3 n3]. simpl in *.
    etransitivity; [|exact Hp]. apply (lighter_insert _ _ r); [done|]. rewrite Hrow. unfold verifiable in Hv. breflect_in Hv.
    unfold weight. rewrite (proj2 (openJob_iff r)), (proj2 (openJob_iff (claimedJob _ _ _))) by (simpl; tauto). simpl. lia.
  - assert (db2 = db1) as ->; [|by destruct x]. revert Hcl. unfold claimVerification, bind. simpl. unfold stmt.
    destruct (_ || _); [by intros [= _ <- _]|]. destruct (nextVerification _ _ _) as [[]|]; [done|]. by intros [= _ <- _].
Qed.

(** C19: whatever fails and however many workers share the queue, at most seven calls of ProcessNext per job ever report work, so a worker that keeps calling while there is work comes to rest; the bound is what is left to do, two per attempt and one to finish. *)
Theorem verification_work_bounded db l :
  (∀ i r, jobs_ db !! i = Some r → job_ok r) →
  (snd (runCalls l db) + pending (jobs_ (fst (runCalls l db))) ≤ pending (jobs_ db))%nat ∧
  (pending (jobs_ db) ≤ 7 * size (jobs_ db))%nat.
Proof.
  intros Hok. split.
  - unfold runCalls. assert (∀ k d, snd (fold_left addCall l (d, k)) + pending (jobs_ (fst (fold_left addCall l (d, k))))
      ≤ k + pending (jobs_ d))%nat as Hg; [|apply (Hg 0%nat)].
    induction l as [|c l IH]; intros k d; simpl; [done|]. etransitivity; [apply IH|]. simpl.
    pose proof (ProcessNext_progress (callWorker c) (callBuffer c) (callRevoked c) (callEnv c) (callTick c) d) as Hlt.
    pose proof (pending_le _ _ (ProcessNext_lighter (callWorker c) (callBuffer c) (callRevoked c) (callEnv c) (callTick c) d)) as Hle.
    fold (runCall c d) in Hlt, Hle. unfold reportsWork.
    destruct (out_res (runCall c d)) as [[[] e]|e]; [specialize (Hlt e eq_refl)|..]; lia.
  - clear l. revert Hok. induction (jobs_ db) as [|i r m Hn IH] using map_ind; intros Hok.
    { unfold pending. rewrite map_fold_empty. lia. }
    rewrite pending_insert, map_size_insert_None by done. 
    assert (∀ j rj, m !! j = Some rj → job_ok rj) as Hm.
    { intros j rj Hj. apply (Hok j). rewrite lookup_insert_ne; [done|congruence]. }
    specialize (IH Hm).
    unfold weight. destruct (Hok i r) as [Ha _]; [apply lookup_insert_eq|]. unfold verificationAttempts in *. case_match; lia.
Qed.

(** ** Jobs that no worker takes up *)

(** Queued with all attempts used: neither claimable nor exhausted. *)
Definition stuck (r : VerificationRow) : Prop :=
  vj_state (vj_entry r) = VQueued ∧ verificationAttempts ≤ vj_attempts (vj_entry r).

Section stuck.
Context (i : string) (r : VerificationRow) (Hstuck : stuck r).
Definition holdsRow (db : DB) : Prop := jobs_ db !! i = Some r.
Abbreviation kept := (preserves holdsRow).

Lemma updateJob_kept id P f a db db' :
  updateJob id P f db = Ok (a, db') → (∀ x, P x = true → vj_state (vj_entry x) = VProcessing) → kept db db'.
Proof.
  unfold updateJob, preserves, holdsRow. intros H HP Hr. destruct Hstuck as [Hq _].
  destruct (jobs_ db !! id) as [x|] eqn:Hx; [|by injection H as _ <-].
  destruct (P x) eqn:EP; simpl in H; [|by injection H as _ <-]. apply HP in EP.
  assert (id ≠ i) by (intros ->; congruence).
  destruct (vj_completed_at _); [destruct (_ <? _); [done|]|]; injection H as _ <-; simpl; by rewrite lookup_insert_ne.
Qed.
Lemma stmt_kept {A} (f : Z → DB → Res (A * DB)) :
  (∀ t db a db', f t db = Ok (a, db') → kept db db') → Steps kept (stmt f).
Proof. intros Hf. apply steps_stmt; [apply _|]. eauto. Qed.
Lemma reads_kept {A} (m : M DB A) : Steps eq m → Steps kept m.
Proof. intros Hm env n db. rewrite <- (Hm env n db). by intros ?. Qed.

Lemma settle_kept job st failure fence : Steps kept (settleVerificationFailure job st failure fence).
Proof.
  unfold settleVerificationFailure. steps. apply stmt_kept. intros t db k db' H. eapply updateJob_kept; [exact H|].
  intros x. destruct fence; [intros ?%keepsLive_keeps|intros ?]; by eapply keeps_processing.
Qed.
#[local] Hint Resolve settle_kept : steps.
Lemma retry_kept job : Steps kept (retryVerification job).
Proof.
  unfold retryVerification. steps. apply stmt_kept. intros t db k db' H. eapply updateJob_kept; [exact H|].
  intros x Hx%keepsLive_keeps. by eapply keeps_processing.
Qed.
Lemma requeue_kept job : Steps kept (requeueCancelledVerification job).
Proof.
  unfold requeueCancelledVerification. steps. intros env n db. unfold background. apply stmt_kept.
  intros t db1 k db' H. eapply updateJob_kept; [exact H|]. intros x Hx. by eapply keeps_processing.
Qed.
Lemma publish_kept job outcome : Steps kept (publishVerificationSuccess job outcome).
Proof.
  unfold publishVerificationSuccess, publishTx. steps. all: apply stmt_kept; intros t db k db' H; cbv zeta in H.
  all: destruct (outcomeValue outcome) as [o|];
    [eapply updateJob_kept; [exact H|]; intros x [Hx%keepsLive_keeps _]%andb_true_iff; by eapply keeps_processing|].
  all: repeat case_match; simplify_eq; reflexivity.
Qed.
Lemma workerVerify_kept buffer job max revoked q :
  Steps kept (Verify (openDatabaseEvidence buffer job) (lookupVerificationApproval job) max revoked q).
Proof. apply reads_kept, workerVerify_reads. Qed.
Lemma policyOutcome_kept job : Steps kept (verificationPolicyOutcome job).
Proof. apply reads_kept, policyOutcome_reads. Qed.
#[local] Hint Resolve retry_kept requeue_kept publish_kept workerVerify_kept policyOutcome_kept : steps.
Lemma process_kept w buffer revoked job : Steps kept (processVerification w buffer revoked job).
Proof. unfold processVerification, settleVerification. steps. Qed.

Lemma exhaust_kept : Steps kept failExhausted.
Proof.
  unfold failExhausted. steps. apply stmt_kept. intros t db k db' H. destruct (existsb _ _); [done|]. injection H as _ <-.
  intros Hr. unfold holdsRow in *. simpl. rewrite lookup_updateRows, Hr. simpl. rewrite bool_decide_false; [done|].
  intros ([j x] & -> & Hin)%list_elem_of_fmap. apply spentJobs_lookup in Hin as [Hx Hs]. simpl in *. simplify_eq.
  destruct Hstuck as [Hq _]. unfold spent in Hs. breflect_in Hs. destruct Hs as [[_ Hs] _]. congruence.
Qed.
Lemma claim_kept w : Steps kept (claimVerification w).
Proof.
  unfold claimVerification. steps. apply stmt_kept. intros t db k db' H.
  destruct (nextVerification _ _ _) as [[id x]|] eqn:Hn; [|done]. injection H as _ <-.
  apply argmin_elem, elem_of_rowsWhere in Hn as [Hx Hv]. intros Hr. unfold holdsRow in *. simpl.
  rewrite lookup_insert_ne; [done|]. intros ->. simplify_eq. destruct Hstuck as [_ Hq]. unfold verifiable in Hv.
  breflect_in Hv. lia.
Qed.
#[local] Hint Resolve process_kept exhaust_kept claim_kept : steps.
Lemma ProcessNext_kept w buffer revoked : Steps kept (ProcessNextVerification w buffer revoked).
Proof. unfold ProcessNextVerification. steps. Qed.

Lemma runCalls_kept l db : holdsRow db → holdsRow (fst (runCalls l db)).
Proof.
  intros Hr. unfold runCalls. revert Hr. generalize 0%nat. revert db.
  induction l as [|c l IH]; intros db k Hr; simpl; [done|]. apply IH. by apply ProcessNext_kept.
Qed.
End stuck.

(** C40: when the worker's context is cancelled during the third attempt, the job is put back as queued although no attempt is left: claims skip it because of its attempts and the exhaustion sweep skips it because it is not processing, so no sequence of calls of any workers, in any world, ever touches the row again. *)
Theorem cancelled_last_attempt_stuck job r env n db :
  jobs_ db !! JobID job = Some r → job_ok r → keeps job r = true → verificationAttempts ≤ vj_attempts (vj_entry r) →
  env_fault env n = false →
  ∃ r', stuck r' ∧ vj_meta r' = vj_meta r ∧
    ∀ l, jobs_ (fst (runCalls l (out_db (requeueCancelledVerification job env n db)))) !! JobID job = Some r'.
Proof.
  intros Hr Hok Hk Ha Hf. exists (requeuedJob (env_clock env n) r).
  assert (stuck (requeuedJob (env_clock env n) r)) as Hs by done. split_and!; [done..|]. intros l.
  apply (runCalls_kept _ _ Hs). unfold holdsRow, requeueCancelledVerification. rewrite out_bind_ret.
  unfold background, stmt. simpl. rewrite Hf. simpl. unfold updateJob. rewrite Hr, Hk. simpl.
  destruct Hok as (_ & _ & _ & _ & Hj). rewrite (keeps_processing _ _ Hk) in Hj.
  destruct Hj as (_ & _ & _ & _ & -> & _). simpl. apply lookup_insert_eq.
Qed.
