(* ===== verification/VerificationOutcome.v ===== *)
(** * What becomes of a claimed verification

    A job whose approval is in force gets the verdict its fixture states, in
    one call, when nothing fails; the fixture is read back in any chunks.  The
    same job ends as blocked when only the lookup of its approval fails once. *)
From S2P Require Import Prelude GoLib Encoding Tx ReportAdapter Schema Auth Paging Assets Fixture Verifier Verification VerificationWorker VerificationProps VerificationRuns VerificationProgress.
Local Open Scope Z_scope.

(** Nothing fails at this step. *)
Definition calmAt (env : Env) (n : nat) : Prop := env_fault env n = false ∧ env_done env n = false.
Lemma faultless_at env n : faultless env → calmAt env n.
Proof. intros (Hf & _ & Hd). by split. Qed.
Lemma stmt_at {S A} (f : Z → S → Res (A * S)) env n s :
  calmAt env n →
  stmt f env n s = match f (env_clock env n) s with
                   | Ok (a, s') => mkOut (Ok a) s' (n + 1)%nat
                   | Err e => mkOut (Err e) s (n + 1)%nat
                   end.
Proof. intros [Hf Hd]. unfold stmt. by rewrite Hf, Hd. Qed.
Lemma query_at {S A} (f : Z → S → Res A) env n s :
  calmAt env n → query f env n s = mkOut (f (env_clock env n) s) s (n + 1)%nat.
Proof. intros Hc. unfold query. rewrite (stmt_at _ _ _ _ Hc). by destruct (f _ s). Qed.

(** ** Reading in chunks *)

Lemma splitChunks_concat fuel buffer k content :
  (length content ≤ fuel)%nat → concat (splitChunks fuel buffer k content) = content.
Proof.
  revert k content. induction fuel as [|fuel IH]; intros k [|b l] Hl; simpl in *; try done; [lia|].
  rewrite Nat.add_1_r. simpl. rewrite IH by (rewrite length_drop; lia). by rewrite take_drop.
Qed.

Lemma fixtureCondition_document environmentID c :
  ValidString environmentID = true → fixtureCondition environmentID (bytes (fixtureDocument environmentID c)) = Some c.
Proof. intros Hv. unfold fixtureCondition. rewrite decode_document by done. simpl. by rewrite !bool_decide_true. Qed.

(** C34: the fixture a handler stores is exactly what the verifier reads back: whatever the buffer sizes of the reads, the chunks put together are the stored bytes, and decoding them gives the schema, the environment and the condition that were submitted, for every environment name in valid UTF-8, quotes, control characters and line separators included. *)
Theorem fixture_roundtrip buffer environmentID c :
  ValidString environmentID = true →
  let content := bytes (fixtureDocument environmentID c) in
  concat (splitChunks (length content) buffer 0 content) = content ∧
  decodeFixture content = Some {| fxSchema := bytes verificationFixtureSchema; fxEnvironmentID := bytes environmentID;
                                  fxCondition := Some c |} ∧
  fixtureCondition environmentID content = Some c.
Proof.
  intros Hv content. split_and!; [by apply splitChunks_concat|by apply decode_document|by apply fixtureCondition_document].
Qed.

(** ** A claimed job *)

Section claimed.
Context (w : verificationConfig) (buffer : nat → nat) (revoked : nat → bool) (env : Env) (db : DB)
  (job : verificationJobRecord) (r : VerificationRow) (a : VerificationApprovalRow) (e : VerificationEvidenceRow) (c : bool)
  (b : VerificationBinding) (Hb : vj_binding (vj_meta r) = b).

(** The row is held by the worker that claimed it ... *)
Context (Hrow : jobs_ db !! JobID job = Some r) (Hmeta : vj_meta (JobRow job) = vj_meta r) (Hkeeps : keeps job r = true)
  (Hopen : vj_completed_at (vj_entry r) = None).
(** ... its approval is in force and its evidence is the submitted fixture. *)
Context (Happroval : approvals_ db !! vj_approval_id (vj_meta r) = Some a) (Hbinding : va_binding a = b)
  (Hunrevoked : va_revoked a = None)
  (Hrevision : findingRevision (vb_workspace_id b) (vb_finding_id b) db = Some (vb_finding_evidence_revision b))
  (Hevidence : evidence_ db !! vb_evidence_id b = Some e) (Hbound : evidenceBinding (vb_evidence_id b) e = b)
  (Hok : evidence_ok e) (Hcontent : ve_content e = bytes (fixtureDocument (vb_environment_id b) c))
  (Hvalid : ValidString (vb_environment_id b) = true).
Context (Hnamed : (vb_method b ==? "deterministic-evidence") && (vj_approval_id (vj_meta r) !=? "") &&
  (vb_workspace_id b !=? "") && (vb_finding_id b !=? "") && (JobID job !=? "") && (vb_environment_id b !=? "") &&
  (vb_scope_revision b !=? "") = true).

Lemma jobBinding : JobBinding job = b.
Proof. unfold JobBinding. by rewrite Hmeta, Hb. Qed.

Lemma evidence_found : evidenceOf (vb_workspace_id b) (vb_finding_id b) (vb_evidence_id b) db = Some e.
Proof.
  unfold evidenceOf. rewrite Hevidence. rewrite <- Hbound. simpl. by rewrite !bool_decide_true.
Qed.
Lemma digest_bound : ve_content_digest e = vb_evidence_digest b.
Proof. by rewrite <- Hbound. Qed.

Lemma approval_found :
  approvalWithRevision (vb_workspace_id b) (vb_finding_id b) (vj_approval_id (vj_meta r)) db =
  Some (a, vb_finding_evidence_revision b).
Proof.
  unfold approvalWithRevision, approvalOf. rewrite Happroval, Hbinding, !bool_decide_true by done. simpl.
  by rewrite Hrevision.
Qed.

Definition seenApproval : Approval := {|
  apID := vj_approval_id (vj_meta r); apWorkspaceID := vb_workspace_id b; apFindingID := vb_finding_id b;
  apMethod := vb_method b; apScopeRevision := vb_scope_revision b; apEnvironmentID := vb_environment_id b;
  apEvidenceSHA256 := vb_evidence_digest b; apApproved := true; apExpiresAt := va_expires_at a |}.

Lemma lookup_runs n : faultless env →
  lookupVerificationApproval job (vj_approval_id (vj_meta r)) env n db = mkOut (Ok seenApproval) db (n + 1)%nat.
Proof.
  intros Hf. unfold lookupVerificationApproval, handle. rewrite (run_query env Hf), jobBinding, approval_found. simpl.
  rewrite Hbinding, bool_decide_true by done. simpl. unfold seenApproval.
  rewrite Hbinding, Hunrevoked, Z.eqb_refl, !bool_decide_true by done. done.
Qed.

Definition databaseReader : evidenceReader :=
  {| rdChunks := splitChunks (length (ve_content e)) buffer 0 (ve_content e); rdError := None; rdClose := None |}.

Lemma open_runs n : faultless env →
  openDatabaseEvidence buffer job (vb_workspace_id b)
    {| erWorkspaceID := vb_workspace_id b; erBucket := "postgresql"; erKey := evidenceKey (vb_evidence_id b);
       erSHA256 := vb_evidence_digest b; erSizeBytes := ve_content_size e |} env n db =
  mkOut (Ok (Some databaseReader)) db (n + 1)%nat.
Proof.
  intros Hf. unfold openDatabaseEvidence.
  cbn [erWorkspaceID erBucket erKey erSHA256 erSizeBytes]. rewrite jobBinding.
  repeat rewrite bool_decide_true by reflexivity. cbn [andb]. rewrite (bind_run _ _ _ _ db db tt n) by done.
  rewrite (bind_run _ _ _ _ db db e (n + 1)%nat) by (rewrite (run_query env Hf), evidence_found; done).
  by rewrite digest_bound, bool_decide_true, Z.eqb_refl by done.
Qed.

Lemma approval_matches t size :
  t < va_expires_at a → approvalMatches t seenApproval (requestOf job size) = true.
Proof.
  intros Ht. unfold approvalMatches, requestOf, seenApproval. simpl. rewrite jobBinding, Hmeta.
  rewrite (proj2 (Z.ltb_lt _ _) Ht), !bool_decide_true by done. done.
Qed.

Lemma verify_runs n :
  faultless env → (∀ k, revoked k = false) → (∀ k, env_now env k < va_expires_at a) → ve_content_size e ≤ cfgMaxFixture w →
  ∃ n', Verify (openDatabaseEvidence buffer job) (lookupVerificationApproval job) (cfgMaxFixture w) revoked
          (requestOf job (ve_content_size e)) env n db =
        mkOut (Ok (resultOf (requestOf job (ve_content_size e)) (outcomeText c)
                     [rqEvidence (requestOf job (ve_content_size e))], [])) db n'.
Proof.
  intros Hf Hr Ht Hmax. destruct Hok as (Hd & Hs & _).
  apply (Verify_runs _ _ _ _ env db _ seenApproval databaseReader c); simpl; try done.
  - intros k. eexists. rewrite Hmeta. by apply lookup_runs.
  - intros k. by apply approval_matches.
  - intros k. eexists. rewrite jobBinding. by apply open_runs.
  - by rewrite splitChunks_concat, Hs.
  - by rewrite splitChunks_concat, <- Hd, jobBinding, digest_bound.
  - rewrite splitChunks_concat, Hcontent, jobBinding by done. by apply fixtureCondition_document.
  - unfold namedRequest. simpl. rewrite jobBinding, Hmeta. exact Hnamed.
Qed.

Lemma covered_now t : t < va_expires_at a → covered t db r = true.
Proof.
  intros Ht. unfold covered. rewrite Happroval, Hbinding, Hunrevoked, Hb, Hrevision.
  rewrite (proj2 (Z.ltb_lt _ _) Ht), Z.eqb_refl, !bool_decide_true by done. done.
Qed.

Lemma publish_runs n :
  faultless env → (∀ k, env_now env k < va_expires_at a) → (∀ k, leaseLive (env_clock env k) (vj_entry r) = true) →
  (∀ k, vj_created_at (vj_meta r) ≤ env_now env k) →
  ∃ n' t, publishVerificationSuccess job (outcomeText c) env n db =
    mkOut (Ok tt) (with_verificationJobs (<[JobID job := succeededJob c t r]> (jobs_ db)) db) n'.
Proof.
  intros Hf Ht Hl Hc. eexists _, (env_now env n). unfold publishVerificationSuccess, handle.
  rewrite (run_transaction env Hf). unfold publishTx, bind at 1. simpl. unfold bind at 1. rewrite (run_stmt env Hf).
  assert (outcomeValue (outcomeText c) = Some c) as -> by (by destruct c).
  unfold updateJob. rewrite Hrow. unfold keepsLive. rewrite Hkeeps, Hl, (covered_now _ (Ht n)). simpl.
  rewrite (proj2 (Z.ltb_ge _ _) (Hc n)). simpl. destruct Hf as (_ & _ & Hd). unfold bind, ctxErr. simpl. rewrite Hd. reflexivity.
Qed.

Lemma process_runs n :
  faultless env → (∀ k, revoked k = false) → is_ok (OpenVerifier (cfgMaxFixture w) (cfgInterval w)) = true →
  ve_content_size e ≤ cfgMaxFixture w → (∀ k, env_now env k < va_expires_at a) →
  (∀ k, leaseLive (env_clock env k) (vj_entry r) = true) → (∀ k, vj_created_at (vj_meta r) ≤ env_now env k) →
  ∃ n' t, processVerification w buffer revoked job env n db =
    mkOut (Ok tt) (with_verificationJobs (<[JobID job := succeededJob c t r]> (jobs_ db)) db) n'.
Proof.
  intros Hf Hrv Hcfg Hmax Ht Hl Hc. unfold processVerification, handle. rewrite (run_query env Hf), jobBinding, evidence_found.
  simpl. rewrite digest_bound, bool_decide_true by done. simpl. destruct (OpenVerifier _ _); [|done].
  destruct (verify_runs (n + 1) Hf Hrv Ht Hmax) as [n1 H1]. rewrite (bind_run _ _ _ _ _ _ _ _ H1). simpl.
  apply publish_runs; done.
Qed.
End claimed.

(** ** The whole call *)

Lemma updateRows_none {V} (P : string → V → bool) f (m : gmap string V) : (∀ i v, P i v = false) → updateRows P f m = m.
Proof. intros HP. apply map_eq. intros i. rewrite lookup_updateRows. destruct (m !! i); [|done]. simpl. by rewrite HP. Qed.
Lemma with_jobs_same db : with_verificationJobs (jobs_ db) db = db.
Proof. by destruct db. Qed.

Lemma exhaust_runs env n db :
  calmAt env (n + 1) → spentJobs (env_locked env (n + 1)) (env_clock env (n + 1)) (jobs_ db) = [] →
  failExhausted env n db = mkOut (Ok false) db (n + 2)%nat.
Proof.
  intros Hf Hs. unfold failExhausted. rewrite (bind_run _ _ _ _ db db (env_now env n) (n + 1)%nat) by done.
  rewrite (bind_run _ _ _ _ db db (env_locked env (n + 1)) (n + 1)%nat) by done. rewrite (stmt_at _ _ _ _ Hf), Hs. simpl.
  rewrite updateRows_none, with_jobs_same by done. by rewrite <- Nat.add_assoc.
Qed.

Lemma claim_runs w env n db id r :
  calmAt env n → nextVerification (env_locked env n) (env_clock env n) (jobs_ db) = Some (id, r) →
  let r' := claimedJob (cfgWorkerID w) (env_clock env n + env_interval env (cfgLease w)) r in
  claimVerification w env n db =
    mkOut (Ok (scanVerificationJob id r')) (with_verificationJobs (<[id := r']> (jobs_ db)) db) (n + 1)%nat.
Proof.
  intros Hf Hn r'. unfold claimVerification. rewrite (bind_run _ _ _ _ db db (env_locked env n) n) by done.
  rewrite (bind_run _ _ _ _ db db (env_interval env (cfgLease w)) n) by done. by rewrite (stmt_at _ _ _ _ Hf), Hn.
Qed.

Lemma normalized_opens w :
  normalizeVerificationWorkerConfig w = Some w → is_ok (OpenVerifier (cfgMaxFixture w) (cfgInterval w)) = true.
Proof.
  unfold normalizeVerificationWorkerConfig, OpenVerifier, verificationFixtureLimit. intros H. cbv zeta in H.
  destruct (_ || _) eqn:E; [done|]. injection H as H. rewrite <- H. simpl. clear H.
  apply orb_false_iff in E as [E E7]. apply orb_false_iff in E as [E E6]. apply orb_false_iff in E as [E E5].
  apply orb_false_iff in E as [E E4]. apply Z.ltb_ge in E4, E5, E6, E7.
  rewrite (proj2 (Z.ltb_ge _ 1)), (proj2 (Z.ltb_ge _ _)) by (simpl in *; lia). simpl.
  set (i := if cfgInterval w =? 0 then _ else _) in *. assert ((i =? 0) = false) as -> by (apply Z.eqb_neq; lia).
  by rewrite (proj2 (Z.ltb_ge i _)), (proj2 (Z.ltb_ge _ i)) by lia.
Qed.

Lemma validText_nonempty s k : validText s k = true → s ≠ "".
Proof. intros H ->. by vm_compute in H. Qed.

Section completes.
Context (used : gset string) (w : verificationConfig) (buffer : nat → nat) (revoked : nat → bool) (env : Env) (n : nat)
  (db : DB) (id : string) (r : VerificationRow) (a : VerificationApprovalRow) (e : VerificationEvidenceRow) (c : bool).
Let b := vj_binding (vj_meta r).
Let r1 := claimedJob (cfgWorkerID w) (env_clock env (n + 3) + env_interval env (cfgLease w)) r.
Let job := scanVerificationJob id r1.
Let db1 := with_verificationJobs (<[id := r1]> (jobs_ db)) db.

(** The queue's next job, whose approval is in force and whose evidence fits the worker's limit. *)
Record inForce : Prop := {
  if_tables : tables_ok used db;
  if_spent : spentJobs (env_locked env (n + 2)) (env_clock env (n + 2)) (jobs_ db) = [];
  if_next : nextVerification (env_locked env (n + 3)) (env_clock env (n + 3)) (jobs_ db) = Some (id, r);
  if_approval : approvals_ db !! vj_approval_id (vj_meta r) = Some a;
  if_unrevoked : va_revoked a = None;
  if_revision : findingRevision (vb_workspace_id b) (vb_finding_id b) db = Some (vb_finding_evidence_revision b);
  if_evidence : evidence_ db !! vb_evidence_id b = Some e;
  if_content : ve_content e = bytes (fixtureDocument (ve_environment_id e) c);
  if_valid : ValidString (ve_environment_id e) = true;
  if_fits : ve_content_size e ≤ cfgMaxFixture w;
  if_config : normalizeVerificationWorkerConfig w = Some w;
  if_named : id ≠ "" ∧ vj_approval_id (vj_meta r) ≠ "" ∧ vb_workspace_id b ≠ "" ∧ vb_finding_id b ≠ "";
  if_now : ∀ k, vj_created_at (vj_meta r) ≤ env_now env k < va_expires_at a;
  if_lease : ∀ k, env_clock env k < env_clock env (n + 3) + env_interval env (cfgLease w) }.

Context (H : inForce).

Lemma next_row : jobs_ db !! id = Some r.
Proof. pose proof (if_next H) as Hn. by apply argmin_elem, elem_of_rowsWhere in Hn as [? _]. Qed.
Lemma approval_binding : va_binding a = b.
Proof.
  destruct (tk_jobs _ _ (if_tables H) _ _ next_row) as [_ (a' & Ha' & Hb')].
  rewrite (if_approval H) in Ha'. injection Ha' as ->. exact Hb'.
Qed.
Lemma evidence_binding : evidenceBinding (vb_evidence_id b) e = b.
Proof.
  destruct (tk_approvals _ _ (if_tables H) _ _ (if_approval H)) as [_ (e' & He' & Hb')]. rewrite approval_binding in He', Hb'.
  rewrite (if_evidence H) in He'. by injection He' as ->.
Qed.
Lemma binding_named :
  (vb_method b ==? "deterministic-evidence") && (vj_approval_id (vj_meta r) !=? "") &&
  (vb_workspace_id b !=? "") && (vb_finding_id b !=? "") && (id !=? "") && (vb_environment_id b !=? "") &&
  (vb_scope_revision b !=? "") = true.
Proof.
  destruct (if_named H) as (H1 & H2 & H3 & H4). destruct (tk_evidence _ _ (if_tables H) _ _ (if_evidence H)) as (_ & _ & _ & Hm & Hv1 & Hv2 & _).
  apply validText_nonempty in Hv1, Hv2. rewrite (bool_decide_false _ H1), (bool_decide_false _ H2), (bool_decide_false _ H3), (bool_decide_false _ H4).
  rewrite <- evidence_binding. simpl. by rewrite Hm, (bool_decide_false _ Hv1), (bool_decide_false _ Hv2).
Qed.
Lemma job_binding : vj_binding (vj_meta r1) = b.
Proof. done. Qed.
Lemma claimed_completed : vj_completed_at (vj_entry r1) = None.
Proof.
  destruct (tk_jobs _ _ (if_tables H) _ _ next_row) as [(_ & _ & _ & _ & Hj) _]. pose proof (if_next H) as Hn.
  apply argmin_elem, elem_of_rowsWhere in Hn as [_ Hv]. apply andb_true_iff in Hv as [Hv _]. unfold verifiable in Hv. breflect_in Hv.
  destruct Hv as [_ [[Hq _]|[Hq _]]]; rewrite Hq in Hj; simpl; tauto.
Qed.
Lemma claimed_keeps : keeps job r1 = true.
Proof. unfold keeps, job. simpl. by rewrite !bool_decide_true, Z.eqb_refl. Qed.

Lemma claimed_env : ValidString (vb_environment_id b) = true ∧ ve_content e = bytes (fixtureDocument (vb_environment_id b) c).
Proof. rewrite <- evidence_binding. simpl. split; [apply (if_valid H)|apply (if_content H)]. Qed.

Lemma claimed_process k :
  faultless env → (∀ k, revoked k = false) →
  ∃ n' t, processVerification w buffer revoked job env k db1 =
    mkOut (Ok tt) (with_verificationJobs (<[id := succeededJob c t r1]> (jobs_ db1)) db1) n'.
Proof.
  intros Hf Hr. destruct claimed_env as [Hv Hc].
  apply (process_runs w buffer revoked env db1 job r1 a e c b); try done.
  - apply lookup_insert_eq.
  - apply claimed_keeps.
  - apply (if_approval H).
  - apply approval_binding.
  - apply (if_unrevoked H).
  - apply (if_revision H).
  - apply (if_evidence H).
  - apply evidence_binding.
  - by apply (tk_evidence _ _ (if_tables H) _ _ (if_evidence H)).
  - exact binding_named.
  - apply normalized_opens, (if_config H).
  - apply (if_fits H).
  - intros j. apply (if_now H).
  - intros j. apply Z.ltb_lt, (if_lease H).
  - intros j. apply (if_now H).
Qed.

Lemma call_claims :
  (∀ k, (k ≤ n + 3)%nat → calmAt env k) → ∀ res db2 n2, processVerification w buffer revoked job env (n + 4)%nat db1 = mkOut res db2 n2 →
  ProcessNextVerification w buffer revoked env n db = mkOut (Ok (true, errorOf res)) db2 n2.
Proof.
  intros Hf res db2 n2 Hp. unfold ProcessNextVerification.
  rewrite (bind_run _ _ _ _ db db false (n + 1)%nat) by (unfold ctxErr; destruct (Hf n) as [_ ->]; [lia|done]).
  rewrite (handle_run _ _ _ _ db db (Ok false) (n + 3)%nat).
  2: { replace (n + 3)%nat with ((n + 1) + 2)%nat by lia. apply exhaust_runs; [apply Hf; lia|].
       replace (n + 1 + 1)%nat with (n + 2)%nat by lia. apply (if_spent H). }
  rewrite (handle_run _ _ _ _ _ _ _ _ (claim_runs w env (n + 3) db id r (Hf (n + 3)%nat ltac:(lia)) (if_next H))).
  replace (n + 3 + 1)%nat with (n + 4)%nat by lia. by rewrite (handle_run _ _ _ _ _ _ _ _ Hp).
Qed.

(** One failing lookup, everything else as it should be. *)
Definition lostLookup : string * string := ("binding-changed", "Verification approval is no longer current").

Lemma verify_blocked m size :
  (∀ k, env_done env k = false) → env_fault env (m + 1) = true → 0 ≤ size ≤ cfgMaxFixture w →
  Verify (openDatabaseEvidence buffer job) (lookupVerificationApproval job) (cfgMaxFixture w) revoked
    (requestOf job size) env m db1 = mkOut (Ok (stopped (requestOf job size) ("blocked", [VerifyErrPolicy]))) db1 (m + 3)%nat.
Proof.
  intros Hd Hf Hs. unfold Verify. rewrite (bind_run _ _ _ _ db1 db1 false (m + 1)%nat) by (unfold ctxErr; by rewrite Hd).
  pose proof binding_named as Hn. cbn [requestOf rqMethod rqApprovalRef rqWorkspaceID rqFindingID rqRunID rqEnvironmentID rqScopeRevision rqEvidence erSizeBytes].
  change (JobBinding job) with b. change (vj_approval_id (vj_meta (JobRow job))) with (vj_approval_id (vj_meta r)).
  change (JobID job) with id. breflect_in Hn. destruct Hn as ((((((Hn1 & Hn2) & Hn3) & Hn4) & Hn5) & Hn6) & Hn7).
  rewrite (bool_decide_true _ Hn1), (bool_decide_false _ Hn2), (bool_decide_false _ Hn3), (bool_decide_false _ Hn4),
    (bool_decide_false _ Hn5), (bool_decide_false _ Hn6), (bool_decide_false _ Hn7). cbn [negb orb].
  rewrite (proj2 (Z.ltb_ge size 0)), (proj2 (Z.ltb_ge _ size)) by lia. cbn [orb].
  rewrite (handle_run _ _ _ _ db1 db1 (Err VerifyErrPolicy) (m + 2)%nat).
  2: { unfold lookupVerificationApproval. rewrite (handle_run _ _ _ _ db1 db1 (Err ErrDatabase) (m + 2)%nat); [done|].
       unfold query, stmt. rewrite Hf, Hd. simpl. by rewrite <- Nat.add_assoc. }
  rewrite (bind_run _ _ _ _ db1 db1 false (m + 3)%nat); [done|]. unfold ctxErr. rewrite Hd. by rewrite <- Nat.add_assoc.
Qed.

Lemma blocked_process m :
  (∀ k, env_done env k = false) → (∀ k, env_fault env k = bool_decide (k = m + 2)%nat) →
  ∃ n' t, processVerification w buffer revoked job env m db1 =
    mkOut (Ok tt) (with_verificationJobs (<[id := failedJob VBlocked lostLookup t r1]> (jobs_ db1)) db1) n'.
Proof.
  intros Hd Hf. assert (∀ k, k ≠ (m + 2)%nat → calmAt env k) as Hc by (intros k Hk; split; [by rewrite Hf, bool_decide_false|done]).
  destruct (tk_evidence _ _ (if_tables H) _ _ (if_evidence H)) as (_ & _ & Hsize & _).
  unfold processVerification. change (JobBinding job) with b.
  rewrite (handle_run _ _ _ _ db1 db1 (Ok (ve_content_size e)) (m + 1)%nat).
  2: { rewrite query_at by (apply Hc; lia). change (evidenceOf (vb_workspace_id b) (vb_finding_id b) (vb_evidence_id b) db1)
         with (evidenceOf (vb_workspace_id b) (vb_finding_id b) (vb_evidence_id b) db).
       rewrite (evidence_found _ _ _ (if_evidence H) evidence_binding). simpl.
       by rewrite (digest_bound _ _ evidence_binding), bool_decide_true. }
  pose proof (normalized_opens _ (if_config H)) as Hopen. destruct (OpenVerifier _ _); [clear Hopen|done].
  assert (env_fault env (m + 1 + 1) = true) as Hfail by (rewrite Hf; apply bool_decide_true; lia).
  assert (0 ≤ ve_content_size e ≤ cfgMaxFixture w) as Hfits by (pose proof (if_fits H); lia).
  rewrite (bind_run _ _ _ _ _ _ _ _ (verify_blocked (m + 1) (ve_content_size e) Hd Hfail Hfits)).
  unfold settleVerification. simpl. rewrite (bind_run _ _ _ _ db1 db1 false (m + 5)%nat).
  2: { unfold ctxErr. rewrite Hd. f_equal. lia. }
  rewrite (bind_run _ _ _ _ db1 db1 (VBlocked, lostLookup) (m + 7)%nat).
  - eexists _, (env_now env (m + 7)). unfold settleVerificationFailure.
    rewrite (bind_run _ _ _ _ db1 db1 (env_now env (m + 7)) (m + 8)%nat) by (unfold now; f_equal; lia).
    unfold bind. rewrite stmt_at by (apply Hc; lia). unfold updateJob. simpl. rewrite lookup_insert_eq.
    rewrite claimed_keeps. simpl. rewrite (proj2 (Z.ltb_ge _ _)) by apply (if_now H). done.
  - unfold verificationPolicyOutcome. change (JobBinding job) with b.
    rewrite (handle_run _ _ _ _ db1 db1 (Ok (a, vb_finding_evidence_revision b)) (m + 6)%nat).
    2: { rewrite query_at by (apply Hc; lia). change (vj_approval_id (vj_meta (JobRow job))) with (vj_approval_id (vj_meta r)).
         change (approvalWithRevision (vb_workspace_id b) (vb_finding_id b) (vj_approval_id (vj_meta r)) db1)
           with (approvalWithRevision (vb_workspace_id b) (vb_finding_id b) (vj_approval_id (vj_meta r)) db).
         rewrite (approval_found _ _ _ _ (if_approval H) approval_binding (if_revision H)). simpl. f_equal. lia. }
    rewrite approval_binding, (if_unrevoked H). repeat rewrite bool_decide_true by done. cbn [negb orb isSome].
    unfold bind, now, ret. rewrite (proj2 (Z.leb_gt _ _)) by apply (if_now H). f_equal. lia.
Qed.
End completes.

(** C9: when nothing fails and the approval stays in force, one call of ProcessNext claims the next job and finishes it with the outcome that was submitted: reproduced exactly when the fixture's condition is true; no other job changes. *)
Theorem verification_completes used w buffer revoked env n db id r a e c :
  faultless env → (∀ k, revoked k = false) → inForce used w env n db id r a e c →
  ∃ r', out_res (ProcessNextVerification w buffer revoked env n db) = Ok (true, None) ∧
    jobs_ (out_db (ProcessNextVerification w buffer revoked env n db)) = <[id := r']> (jobs_ db) ∧
    vj_meta r' = vj_meta r ∧ vj_state (vj_entry r') = VSucceeded ∧ vj_reproduced (vj_entry r') = Some c ∧
    vj_fence (vj_entry r') = vj_fence (vj_entry r) + 1.
Proof.
  intros Hf Hr H. destruct (claimed_process _ w buffer revoked env n db id r a e c H (n + 4)%nat Hf Hr) as (n' & t & Hp).
  rewrite (call_claims _ _ _ _ _ _ _ _ _ _ _ _ H (λ k _, faultless_at env k Hf) _ _ _ Hp). simpl. eexists. split; [done|].
  split; [by rewrite insert_insert_eq|]. done.
Qed.

(** A single statement that fails, the first lookup of the approval, ends the job for good: the worker treats every failure of that lookup as a denial and settles the job as blocked because its binding changed, although the approval is in force and unchanged in the database, and no attempt is retried. *)
Theorem lookup_failure_blocks used w buffer revoked env n db id r a e c :
  (∀ k, env_done env k = false) → (∀ k, env_fault env k = bool_decide (k = n + 6)%nat) →
  inForce used w env n db id r a e c →
  ∃ r', out_res (ProcessNextVerification w buffer revoked env n db) = Ok (true, None) ∧
    jobs_ (out_db (ProcessNextVerification w buffer revoked env n db)) = <[id := r']> (jobs_ db) ∧
    vj_state (vj_entry r') = VBlocked ∧ vj_failure (vj_entry r') = Some lostLookup ∧
    openJob r' = false ∧ ∀ k, approvalCurrent (env_now env k) (vb_finding_evidence_revision (vj_binding (vj_meta r))) a = true.
Proof.
  intros Hd Hf H. destruct (blocked_process _ w buffer revoked env n db id r a e c H (n + 4)%nat Hd) as (n' & t & Hp).
  { intros k. rewrite Hf. apply bool_decide_ext. lia. }
  rewrite (call_claims used w buffer revoked env n db id r a e c H) with (2 := Hp).
  - simpl. eexists. split; [done|]. split; [by rewrite insert_insert_eq|]. split_and!; [done..|]. intros k.
    unfold approvalCurrent. rewrite (if_unrevoked _ _ _ _ _ _ _ _ _ _ H), (approval_binding used w env n db id r a e c H), Z.eqb_refl.
    rewrite (proj2 (Z.ltb_lt _ _)) by apply (if_now _ _ _ _ _ _ _ _ _ _ H). done.
  - intros k Hk. split; [rewrite Hf; apply bool_decide_false; lia|done].
Qed.
