(* ===== verification/VerificationExample.v ===== *)
(** * A verification from submission to verdict

    One finding, one administrator: the evidence is submitted, approved, queued
    and evaluated.  The runs below are the inputs at which the theorems on
    verifications are applied. *)
From S2P Require Import Prelude GoLib Encoding Tx ReportAdapter Schema Auth Paging Assets WorkViews Work Fixture Verifier Verification VerificationWorker VerificationProps VerificationRuns VerificationProgress VerificationOutcome.
Local Open Scope Z_scope.

(** A world whose clocks stand still and whose identifiers start with [p]. *)
Definition stillEnv (p : string) (fault : nat → bool) : Env := {|
  env_clock := λ _, 1000; env_now := λ _, 1000; env_nanos := λ _, 0; env_fault := fault;
  env_commit := λ _, Committed; env_done := λ _, false;
  env_fresh := λ n, p +:+ of_bytes (digitsN 31 (Z.of_nat n)); env_locked := λ _ _, false; env_interval := λ d, d / 1000 |}.
Definition still (p : string) : Env := stillEnv p (λ _, false).

Definition firstChar (s : string) : string := String.substring 0 1 s.
Lemma still_fresh used p fault :
  firstChar p = p → String.length p = 1%nat → forallb (λ x, firstChar x !=? p) (elements used) = true →
  freshEnv used (stillEnv p fault).
Proof.
  intros Hp Hl Hall k Hk. apply forallb_Forall in Hall. rewrite Forall_forall in Hall.
  apply elem_of_elements, Hall in Hk. breflect_in Hk. apply Hk. unfold stillEnv. cbn [env_fresh].
  generalize (of_bytes (digitsN 31 (Z.of_nat k))). intros x. by destruct p as [|c [|]], x.
Qed.

Definition verificationWorkerConfig : verificationConfig := {|
  cfgWorkerID := "000000000000000000000000000000ee"; cfgLease := 90 * 1000000000; cfgInterval := 100000000;
  cfgMaxFixture := 65536 |}.

Definition findingDB : DB :=
  with_memberships {[("ws", "u") := "admin"]} (with_findings {["f" := exampleFinding "a"]} emptyDB).
Definition v0 : vsys := {| vsDB := findingDB; vsClaims := []; vsUsed := ∅ |}.

Definition submission : evidenceInput := {|
  inMethod := verificationMethod; inEnvironmentID := "lab <1>"; inScopeRevision := "r1";
  inFixtureSchema := verificationFixtureSchema; inFixtureEnvironmentID := "lab <1>"; inCondition := Some true |}.
Definition submittedDB : DB := out_db (createVerificationEvidence "ws" "f" "u" submission (still "a") 0%nat findingDB).
Definition evidenceID : string := "a0000000000000000000000000000001".
Definition v1 : vsys := track v0 [] submittedDB.

Definition inAnHour : Z := 1000 * 1000 + 3600 * 1000000000.
Definition approvedDB : DB :=
  out_db (createVerificationApproval "ws" "f" "u" evidenceID "reviewed" (Some inAnHour) (still "b") 0%nat submittedDB).
Definition approvalID : string := "b0000000000000000000000000000003".
Definition v2 : vsys := track v1 [] approvedDB.

Definition queuedDB : DB := out_db (enqueueVerification "ws" "f" "u" approvalID "k" (still "c") 0%nat approvedDB).
Definition verificationID : string := "c0000000000000000000000000000003".
Definition v3 : vsys := track v2 [] queuedDB.

Definition judgedRun : Out DB (bool * option error) :=
  ProcessNextVerification verificationWorkerConfig (λ k, k) (λ _, false) (still "d") 0%nat queuedDB.

Example verification_example :
  out_res judgedRun = Ok (true, None) ∧
  (λ r, (vj_state (vj_entry r), vj_reproduced (vj_entry r))) <$> jobs_ (out_db judgedRun) !! verificationID =
    Some (VSucceeded, Some true).
Proof. vm_compute. done. Qed.

Lemma v3_reached : rtc verification_step v0 v3.
Proof.
  apply (rtc_l _ _ v1). { apply vs_evidence, still_fresh; by vm_compute. }
  apply (rtc_l _ _ v2). { apply vs_approve, still_fresh; by vm_compute. }
  apply rtc_once. apply vs_enqueue, still_fresh; by vm_compute.
Qed.
Lemma v0_fresh : noVerifications v0.
Proof. by split_and!. Qed.

Lemma judged_reached :
  ∃ s r, rtc verification_step v0 s ∧ jobs_ (vsDB s) !! verificationID = Some r ∧ vj_state (vj_entry r) = VSucceeded.
Proof.
  destruct (call_reaches verificationWorkerConfig (λ k, k) (λ _, false) v3 (still "d") 0%nat) as (s & Hs & Hdb).
  assert (match jobs_ (out_db judgedRun) !! verificationID with Some r => vj_state (vj_entry r) ==? VSucceeded | None => false end = true)
    as Hr by (vm_compute; reflexivity).
  change (out_db judgedRun) with (out_db (ProcessNextVerification verificationWorkerConfig (λ k, k) (λ _, false) (still "d") 0%nat (vsDB v3))) in Hr.
  rewrite <- Hdb in Hr. destruct (jobs_ (vsDB s) !! verificationID) as [r|] eqn:E; [|discriminate Hr].
  exists s, r. split; [exact (rtc_trans _ _ _ v3_reached Hs)|]. split; [exact E|]. by apply bool_decide_eq_true in Hr.
Qed.

Lemma verification_results_sound_witness :
  ∃ s r, rtc verification_step v0 s ∧ jobs_ (vsDB s) !! verificationID = Some r ∧
    vj_close_finding (vj_entry r) = false ∧
    ∃ o a e, vj_reproduced (vj_entry r) = Some o ∧ approvals_ (vsDB s) !! vj_approval_id (vj_meta r) = Some a ∧
      judged (ve_content_digest e) (ve_environment_id e) o.
Proof.
  destruct judged_reached as (s & r & Hs & Hr & Hst). exists s, r. split; [exact Hs|]. split; [exact Hr|].
  destruct (verification_results_sound v0 s verificationID r v0_fresh Hs Hr) as [[Hc _] Hv]. split; [exact Hc|].
  destruct (Hv Hst) as (o & a & e & Ho & Ha & _ & _ & _ & _ & Hj). exists o, a, e. exact (conj Ho (conj Ha Hj)).
Defined.

Lemma verification_tables_wellformed_witness : tables_ok (vsUsed v3) (vsDB v3).
Proof. exact (verification_tables_wellformed v0 v3 v0_fresh v3_reached). Defined.

(** The approval is revoked while its job waits. *)
Definition revokedRun : Out DB VerificationApproval :=
  revokeVerificationApproval "ws" "f" approvalID "u" "withdrawn" (still "e") 0%nat queuedDB.
Lemma verification_revocation_final_witness :
  is_ok (out_res revokedRun) = true ∧
  ∀ i r, jobs_ (out_db revokedRun) !! i = Some r → vj_approval_id (vj_meta r) = approvalID → openJob r = false.
Proof.
  assert (is_ok (out_res revokedRun) = true) as Hok by (vm_compute; reflexivity). split; [exact Hok|].
  destruct revokedRun as [[v|x] db' n'] eqn:E; [|discriminate Hok].
  exact (proj1 (verification_revocation_final v0 v3 v3 "ws" "f" approvalID "u" "withdrawn" (still "e") 0%nat v db' n'
    v0_fresh v3_reached E)).
Defined.

(** Two calls: the first has work, the second finds none. *)
Definition exampleCall (p : string) : call := {|
  callWorker := verificationWorkerConfig; callBuffer := λ k, k; callRevoked := λ _, false; callEnv := still p; callTick := 0%nat |}.
Lemma verification_work_bounded_witness :
  snd (runCalls [exampleCall "d"; exampleCall "e"] queuedDB) = 1%nat ∧
  (snd (runCalls [exampleCall "d"; exampleCall "e"] queuedDB) ≤ 7 * size (jobs_ queuedDB))%nat.
Proof.
  split; [vm_compute; reflexivity|].
  destruct (verification_work_bounded queuedDB [exampleCall "d"; exampleCall "e"]) as [H1 H2].
  - intros i r Hr. exact (proj1 (tk_jobs _ _ (vk_tables _ (reached_ok _ _ v0_fresh v3_reached)) i r Hr)).
  - etransitivity; [|exact H2]. etransitivity; [|exact H1]. apply Nat.le_add_r.
Defined.

(** The third attempt is under way when the worker is stopped. *)
Definition thirdAttempt : VerificationRow := {|
  vj_meta := {| vj_binding := {| vb_workspace_id := "ws"; vb_finding_id := "f"; vb_evidence_id := "e";
                  vb_method := verificationMethod; vb_environment_id := "lab"; vb_scope_revision := "r1";
                  vb_finding_evidence_revision := 1; vb_evidence_digest := "d" |};
                vj_approval_id := "a"; vj_requested_by := "u"; vj_idempotency_key := "k"; vj_created_at := 0 |};
  vj_entry := {| vj_state := VProcessing; vj_reproduced := None; vj_close_finding := false; vj_false_positive := false;
    vj_failure := None; vj_completed_at := None; vj_worker_id := Some "w"; vj_fence := 3; vj_attempts := 3;
    vj_lease_until := Some 5000; vj_available_at := 0 |} |}.
Definition thirdAttemptDB : DB := with_verificationJobs {["j" := thirdAttempt]} emptyDB.
Lemma cancelled_last_attempt_stuck_witness :
  ∃ r', stuck r' ∧ ∀ l, jobs_ (fst (runCalls l (out_db (requeueCancelledVerification (scanVerificationJob "j" thirdAttempt)
    (still "d") 0%nat thirdAttemptDB)))) !! "j" = Some r'.
Proof.
  destruct (cancelled_last_attempt_stuck (scanVerificationJob "j" thirdAttempt) thirdAttempt (still "d") 0%nat thirdAttemptDB)
    as (r' & Hs & _ & Hl).
  - reflexivity.
  - unfold job_ok, verificationAttempts. simpl. split_and!; try done; by eexists.
  - reflexivity.
  - unfold verificationAttempts. simpl. lia.
  - reflexivity.
  - exists r'. exact (conj Hs Hl).
Defined.

Lemma fixture_roundtrip_witness :
  decodeFixture (bytes (fixtureDocument "lab <1>" true)) =
    Some {| fxSchema := bytes verificationFixtureSchema; fxEnvironmentID := bytes "lab <1>"; fxCondition := Some true |}.
Proof. exact (proj1 (proj2 (fixture_roundtrip (λ _, 3%nat) "lab <1>" true eq_refl))). Defined.

(** The queued job is the next one and in force, in any world whose clocks stand still. *)
Lemma queued_in_force fault :
  ∃ r a e, jobs_ queuedDB !! verificationID = Some r ∧
    inForce (vsUsed v3) verificationWorkerConfig (stillEnv "d" fault) 0%nat queuedDB verificationID r a e true.
Proof.
  destruct (jobs_ queuedDB !! verificationID) as [r|] eqn:Er; [|by vm_compute in Er].
  destruct (approvals_ queuedDB !! approvalID) as [a|] eqn:Ea; [|by vm_compute in Ea].
  destruct (evidence_ queuedDB !! evidenceID) as [e|] eqn:Ee; [|by vm_compute in Ee].
  exists r, a, e. split; [done|]. pose proof (vk_tables _ (reached_ok _ _ v0_fresh v3_reached)) as Hok.
  vm_compute in Er, Ea, Ee. injection Er as <-. injection Ea as <-. injection Ee as <-.
  split; try (vm_compute; reflexivity); try exact Hok.
  - vm_compute. discriminate.
  - split_and!; discriminate.
  - intros k. simpl. lia.
Qed.

Lemma verification_completes_witness :
  ∃ r', jobs_ (out_db judgedRun) = <[verificationID := r']> (jobs_ queuedDB) ∧
    vj_state (vj_entry r') = VSucceeded ∧ vj_reproduced (vj_entry r') = Some true.
Proof.
  destruct (queued_in_force (λ _, false)) as (r & a & e & _ & H).
  destruct (verification_completes (vsUsed v3) verificationWorkerConfig (λ k, k) (λ _, false) (still "d") 0%nat queuedDB
    verificationID r a e true) as (r' & _ & Hj & _ & Hs & Ho & _).
  - by split_and!.
  - reflexivity.
  - exact H.
  - exists r'. exact (conj Hj (conj Hs Ho)).
Defined.

Definition oneFault (k : nat) : bool := bool_decide (k = 0 + 6)%nat.
Lemma lookup_failure_blocks_witness :
  ∃ r', jobs_ (out_db (ProcessNextVerification verificationWorkerConfig (λ k, k) (λ _, false) (stillEnv "d" oneFault) 0%nat queuedDB)) =
      <[verificationID := r']> (jobs_ queuedDB) ∧ vj_state (vj_entry r') = VBlocked.
Proof.
  destruct (queued_in_force oneFault) as (r & a & e & _ & H).
  destruct (lookup_failure_blocks (vsUsed v3) verificationWorkerConfig (λ k, k) (λ _, false) (stillEnv "d" oneFault) 0%nat queuedDB
    verificationID r a e true) as (r' & _ & Hj & Hs & _).
  - reflexivity.
  - reflexivity.
  - exact H.
  - exists r'. exact (conj Hj Hs).
Defined.
