(* ===== verification/Retention.v ===== *)
(** * Retention policy, holds and protection (internal/app/retention.go)

    A workspace has one policy of four ages; a hold names one resource that
    must stay; a resource is protected by holds, by active decisions on its
    findings, by assessments and by shared references.  The queries the
    retention worker repeats before it acts are here too, because the previews
    ask the same questions. *)
From S2P Require Import Prelude GoLib Encoding Tx ReportAdapter Schema Auth Intake Correlations.
Local Open Scope Z_scope.

Definition membership (workspace user : string) (db : DB) : bool :=
  isSome (t_memberships db !! (workspace, user)).

(** ** The policy *)

Definition readRetentionPolicy (workspace : string) : M DB RetentionPolicyRow :=
  query (λ _ db, match t_retentionPolicies db !! workspace with Some p => Ok p | None => Err ErrNoRows end).

Definition validRetentionPolicy (p : RetentionPolicyRow) : bool :=
  (0 <? rp_revision p) && (1 <=? rp_hot_history_days p) && (rp_audit_days p <=? 3650) &&
  (rp_hot_history_days p <? rp_raw_report_days p) &&
  (rp_raw_report_days p <? rp_archived_evidence_days p) &&
  (rp_archived_evidence_days p <? rp_audit_days p).

Definition getRetentionPolicy : string → M DB RetentionPolicyRow := readRetentionPolicy.

(** [input]: the revision it is based on and the new ages. *)
Definition updateRetentionPolicyTx (workspace actor : string) (input : RetentionPolicyRow) : M DB RetentionPolicyRow :=
  at_ <- now ;;
  affected <- stmt (λ _ db,
    match t_retentionPolicies db !! workspace with
    | Some p =>
        if rp_revision p =? rp_revision input then
          if membership workspace actor db then
            Ok (1, with_retentionPolicies (<[workspace := {|
              rp_revision := rp_revision p + 1; rp_hot_history_days := rp_hot_history_days input;
              rp_raw_report_days := rp_raw_report_days input;
              rp_archived_evidence_days := rp_archived_evidence_days input;
              rp_audit_days := rp_audit_days input; rp_updated := Some (actor, at_) |}]> (t_retentionPolicies db)) db)
          else Err ErrConstraint
        else Ok (0, db)
    | None => Ok (0, db)
    end) ;;
  guard (affected =? 1) errConflict ;;;
  readRetentionPolicy workspace.
Definition updateRetentionPolicy (workspace actor : string) (input : RetentionPolicyRow) : M DB RetentionPolicyRow :=
  guard (validRetentionPolicy input) errInvalid ;;;
  transaction (updateRetentionPolicyTx workspace actor input).

(** ** Holds *)

Definition isHistoryRetentionKind (kind : string) : bool :=
  bool_decide (kind ∈ ["finding-decision-event"; "notification-policy-revision"; "finding-change-event";
                       "notification-policy-event"]).
Definition validRetentionHoldKind (kind : string) : bool :=
  bool_decide (kind ∈ ["import"; "observation"; "correlation-event"]) || isHistoryRetentionKind kind.

Definition retentionResourceExists (workspace kind id : string) (db : DB) : bool :=
  let among {V} (table : gmap string V) (ws : V → string) :=
    match table !! id with Some v => ws v ==? workspace | None => false end in
  if kind ==? "import" then among (t_imports db) (λ r, i_workspace_id (i_meta r))
  else if kind ==? "observation" then among (t_observations db) ob_workspace_id
  else if kind ==? "correlation-event" then among (t_correlationEvents db) x_workspace_id
  else if kind ==? "finding-decision-event" then among (t_decisionEvents db) ev_workspace_id
  else if kind ==? "notification-policy-revision" then among (t_policyRevisions db) nr_workspace_id
  else if kind ==? "finding-change-event" then among (t_changeEvents db) ce_workspace_id
  else if kind ==? "notification-policy-event" then among (t_policyEvents db) pe_workspace_id
  else false.

Definition RetentionHold : Type := string * HoldRow.
Definition openHold (h : HoldRow) : bool := negb (isSome (h_released h)).

(** [ORDER BY created_at,id]. *)
Definition holdOrder (a b : RetentionHold) : Prop :=
  (h_created_at a.2 <? h_created_at b.2) || (h_created_at a.2 =? h_created_at b.2) && strLe a.1 b.1 = true.
#[export] Instance holdOrder_dec a b : Decision (holdOrder a b).
Proof. unfold holdOrder. apply _. Defined.
Definition listRetentionHolds (workspace : string) : M DB (list RetentionHold) :=
  holds <- query (λ _ db, Ok (take 501
    (merge_sort holdOrder (rowsWhere (λ _ h, h_workspace_id h ==? workspace) (t_holds db))))) ;;
  guard (length holds <=? 500)%nat errTooLarge ;;;
  ret holds.

(** One active hold per resource ([app_retention_holds_active_resource]). *)
Definition heldAlready (h : HoldRow) (db : DB) : bool :=
  anyRow (λ _ o, openHold o && (h_workspace_id o ==? h_workspace_id h) &&
                 (h_resource_kind o ==? h_resource_kind h) && (h_resource_id o ==? h_resource_id h)) (t_holds db).
Definition holdCheck (h : HoldRow) (db : DB) : option error :=
  if negb (membership (h_workspace_id h) (h_created_by h) db) then Some ErrConstraint
  else if heldAlready h db then Some ErrUnique else None.

Definition createHoldTx (workspace actor kind resource reason : string) : M DB RetentionHold :=
  exists_ <- query (λ _ db, Ok (retentionResourceExists workspace kind resource db)) ;;
  guard exists_ errNotFound ;;;
  id <- newID ;;
  at_ <- now ;;
  let hold := {| h_workspace_id := workspace; h_resource_kind := kind; h_resource_id := resource; h_reason := reason;
                 h_revision := 1; h_created_by := actor; h_created_at := at_; h_released := None |} in
  insertInto t_holds with_holds (holdCheck hold) id hold ;;;
  ret (id, hold).
Definition createRetentionHold (workspace actor kind resource reason : string) : M DB RetentionHold :=
  guard (validID resource && validRetentionHoldKind kind && validText reason 8192) errInvalid ;;;
  transaction (createHoldTx workspace actor kind resource reason).

Definition releasedHold (actor : string) (at_ : Z) (rationale : string) (h : HoldRow) : HoldRow := {|
  h_workspace_id := h_workspace_id h; h_resource_kind := h_resource_kind h; h_resource_id := h_resource_id h;
  h_reason := h_reason h; h_revision := h_revision h + 1; h_created_by := h_created_by h;
  h_created_at := h_created_at h; h_released := Some (actor, at_, rationale) |}.
Definition releaseRetentionHold (workspace actor id : string) (revision : Z) (rationale : string) : M DB RetentionHold :=
  guard ((1 <=? revision) && validText rationale 8192) errInvalid ;;;
  at_ <- now ;;
  affected <- stmt (λ _ db,
    match t_holds db !! id with
    | Some h =>
        if (h_workspace_id h ==? workspace) && (h_revision h =? revision) && openHold h then
          if membership workspace actor db
          then Ok (1, with_holds (<[id := releasedHold actor at_ rationale h]> (t_holds db)) db)
          else Err ErrConstraint
        else Ok (0, db)
    | None => Ok (0, db)
    end) ;;
  let read := query (λ _ db, match t_holds db !! id with
                             | Some h => Ok (if h_workspace_id h ==? workspace then Some h else None)
                             | None => Ok None
                             end) in
  found <- read ;;
  if negb (affected =? 1) then throw (if isSome found then errConflict else errNotFound)
  else match found with Some h => ret (id, h) | None => throw ErrNoRows end.

(** ** Protection *)

Definition retentionReasons (hold decision shared : bool) (extra : string) : list string :=
  (if hold then ["legal-hold"] else []) ++ (if decision then ["active-decision"] else []) ++
  (if shared then ["shared-observation-references"] else []) ++ (if extra !=? "" then [extra] else []).

(** What a person or a group keeps of a finding. *)
Definition activeDecision (id : string) (f : FindingRow) (db : DB) : bool :=
  isSome (d_owner_id (f_decision f)) || (d_workflow_state (f_decision f) !=? "open") ||
  (d_disposition (f_decision f) !=? "none") ||
  anyRow (λ _ n, (n_workspace_id n ==? f_workspace_id f) && (n_finding_id n ==? id)) (t_notes db) ||
  anyRow (λ _ m, activeMember (f_workspace_id f) id m && isSome (groupOf db m)) (t_members db).
(** The finding an observation belongs to is kept. *)
Definition decidedObservation (o : ObservationRow) (db : DB) : bool :=
  match t_findings db !! ob_finding_id o with
  | Some f => (f_workspace_id f ==? ob_workspace_id o) && activeDecision (ob_finding_id o) f db
  | None => false
  end.

Definition ofRun (workspace run : string) (o : ObservationRow) : bool :=
  (ob_workspace_id o ==? workspace) && (ob_run_id o ==? run).
Definition importOfRun (workspace run : string) (db : DB) : option (string * ImportRow) :=
  findRow (λ _ r, (i_workspace_id (i_meta r) ==? workspace) && (i_run_id (i_meta r) ==? run)) (t_imports db).

Definition holdsOn (workspace kind : string) (P : string → bool) (db : DB) : bool :=
  anyRow (λ _ h, openHold h && (h_workspace_id h ==? workspace) && (h_resource_kind h ==? kind) &&
                 P (h_resource_id h)) (t_holds db).

Section protection.
(** [assessed t workspace id]: an assessment preview refers to the observation
    when the statement at [t] looks. *)
Context (assessed : Z → string → string → bool).

Definition observationOf (workspace id : string) (db : DB) : option ObservationRow :=
  match t_observations db !! id with
  | Some o => if ob_workspace_id o ==? workspace then Some o else None
  | None => None
  end.
Definition importOf (workspace id : string) (db : DB) : option ImportRow :=
  match t_imports db !! id with
  | Some r => if i_workspace_id (i_meta r) ==? workspace then Some r else None
  | None => None
  end.

(** Hold, decision and assessment of an observation. *)
Definition observationHeld (workspace id : string) (db : DB) : bool :=
  anyRow (λ _ o, ob_workspace_id o ==? workspace) (t_observations db) &&
  (holdsOn workspace "observation" (λ r, r ==? id) db ||
   match observationOf workspace id db ≫= λ o, importOfRun workspace (ob_run_id o) db with
   | Some (import, _) => holdsOn workspace "import" (λ r, r ==? import) db
   | None => false
   end).
Definition observationReasons (t : Z) (workspace id : string) (db : DB) : list string :=
  retentionReasons (observationHeld workspace id db)
    (match observationOf workspace id db with Some o => decidedObservation o db | None => false end) false "" ++
  (if assessed t workspace id then ["assessment-reference"] else []).
Definition observationProtection (workspace id : string) : M DB (list string) :=
  query (λ t db, Ok (observationReasons t workspace id db)).

Definition importReasons (t : Z) (workspace id : string) (db : DB) : list string :=
  let mine := match importOf workspace id db with
              | Some r => rowsWhere (λ _ o, ofRun workspace (i_run_id (i_meta r)) o) (t_observations db)
              | None => []
              end in
  retentionReasons
    (holdsOn workspace "import" (λ r, r ==? id) db ||
     holdsOn workspace "observation" (λ r, existsb (λ p : string * ObservationRow, p.1 ==? r) mine) db)
    (existsb (λ p : string * ObservationRow, decidedObservation p.2 db) mine)
    (1 <? Z.of_nat (length mine))
    (if existsb (λ p : string * ObservationRow, assessed t workspace p.1) mine then "assessment-reference" else "").
Definition importProtection (workspace id : string) : M DB (list string) :=
  query (λ t db, Ok (importReasons t workspace id db)).
End protection.

Definition activeEvent (workspace id : string) (db : DB) : bool :=
  match t_correlationEvents db !! id with
  | Some x => (x_workspace_id x ==? workspace) &&
      match t_correlations db !! x_correlation_id x with
      | Some c => (g_workspace_id c ==? x_workspace_id x) && g_active c
      | None => false
      end
  | None => false
  end.
Definition auditReasons (workspace id : string) (db : DB) : list string :=
  retentionReasons (holdsOn workspace "correlation-event" (λ r, r ==? id) db) false false "" ++
  (if activeEvent workspace id db then ["active-correlation"] else []).
Definition auditProtection (workspace id : string) : M DB (list string) :=
  query (λ _ db, Ok (auditReasons workspace id db)).
