(* ===== verification/RetentionStore.v ===== *)
(** * Objects of the retention worker (internal/app/retention_storage.go)

    The object store is a service: [ObjectService] is what the worker uses of
    it and [ObjectLaws] what an S3 bucket documents, that a GET finds what the
    last PUT of the key wrote and nothing after a DELETE.  The worker's state
    [Ret] is the database with the objects.  Reads go through the verifying
    reader of internal/evidence. *)
From S2P Require Import Prelude GoLib Encoding Tx ReportAdapter Jobs Schema Auth Intake.
Local Open Scope Z_scope.

Class ObjectService (O : Type) := {
  getObject : O → string → option (list N);
  putObject : string → list N → O → O;
  deleteObject : string → O → O }.
Class ObjectLaws (O : Type) `{ObjectService O} := {
  get_put o k d : getObject (putObject k d o) k = Some d;
  get_put_other o k d k' : k' ≠ k → getObject (putObject k d o) k' = getObject o k';
  get_delete o k : getObject (deleteObject k o) k = None;
  get_delete_other o k k' : k' ≠ k → getObject (deleteObject k o) k' = getObject o k' }.

(** A bucket as a map. *)
#[export] Instance bucketService : ObjectService (gmap string (list N)) := {
  getObject o k := o !! k; putObject k d o := <[k := d]> o; deleteObject k o := delete k o }.
#[export] Instance bucketLaws : ObjectLaws (gmap string (list N)).
Proof.
  split; intros; simpl; [apply lookup_insert_eq|by apply lookup_insert_ne|apply lookup_delete_eq|
    by apply lookup_delete_ne].
Qed.

Section store.
Context {O : Type} `{!ObjectService O}.

Record Ret := mkRet { rt_db : DB; rt_objects : O }.
Definition lift {A} (m : M DB A) : M Ret A := λ env n s,
  match m env n (rt_db s) with mkOut r db n' => mkOut r (mkRet db (rt_objects s)) n' end.

(** Requests.  A write that fails may have taken effect. *)
Definition readObject (key : string) : M Ret (list N) := λ env n s,
  mkOut (if env_fault env n then Err EvidenceErrOther
         else match getObject (rt_objects s) key with Some d => Ok d | None => Err EvidenceErrNotFound end)
    s (n + 1)%nat.
Definition writeObjects (f : O → O) : M Ret unit := λ env n s,
  match env_commit env n with
  | Committed => mkOut (Ok tt) (mkRet (rt_db s) (f (rt_objects s))) (n + 1)%nat
  | Aborted => mkOut (Err EvidenceErrOther) s (n + 1)%nat
  | AckLost => mkOut (Err EvidenceErrOther) (mkRet (rt_db s) (f (rt_objects s))) (n + 1)%nat
  end.

(** The prefixes of raw reports and of archives, and the largest object. *)
Record retentionStore := { stRaw : string; stArchive : string; stLimit : Z }.

Definition scopedKey (prefix workspace key : string) : bool :=
  storageSegment workspace && HasPrefix key (prefix +:+ workspace +:+ "/") &&
  negb (Contains key "\") && negb (Contains key "/../") && negb (Contains key "/./").

(** [Store.Open] and the verified read of the whole body. *)
Definition readVerified (prefix workspace key digest : string) (size : Z) : M Ret (list N) :=
  guard (scopedKey prefix workspace key) EvidenceErrScope ;;;
  guard (digestPattern digest && (0 <=? size)) EvidenceErrOther ;;;
  data <- readObject key ;;
  guard ((Z.of_nat (length data) =? size) && (reportDigest data ==? digest)) EvidenceErrIntegrity ;;;
  ret data.
Definition readRetentionObject (st : retentionStore) (prefix workspace key digest : string) (size : Z)
    : M Ret (list N) :=
  guard ((0 <=? size) && (size <=? stLimit st)) EvidenceErrOther ;;;
  readVerified prefix workspace key digest size.

Definition readRaw (st : retentionStore) (record : importRecord) : M Ret (list N) :=
  guard (scopedKey (stRaw st) (WorkspaceOf record) (i_report_key (recMeta record))) EvidenceErrScope ;;;
  readRetentionObject st (stRaw st) (WorkspaceOf record) (i_report_key (recMeta record))
    (i_report_digest (recMeta record)) (i_report_size (recMeta record)).
Definition readArchive (st : retentionStore) (workspace key digest : string) (size : Z) : M Ret (list N) :=
  guard (scopedKey (stArchive st) workspace key) EvidenceErrScope ;;;
  readRetentionObject st (stArchive st) workspace key digest size.

(** Key and digest of an archive copy. *)
Definition archiveIdentity (st : retentionStore) (workspace kind id : string) (data : list N) : Res (string * string) :=
  if negb (storageSegment workspace) || negb (storageSegment kind) || negb (validID id) ||
     (stLimit st <? Z.of_nat (length data))
  then Err EvidenceErrOther
  else Ok (stArchive st +:+ workspace +:+ "/" +:+ kind +:+ "/" +:+ id +:+ "/" +:+ hex (Sum256 data), reportDigest data).

Definition headObject (key : string) : M Ret Z :=
  data <- readObject key ;; ret (Z.of_nat (length data)).
Definition putArchive (st : retentionStore) (workspace kind id : string) (data : list N) : M Ret (string * string) :=
  match archiveIdentity st workspace kind id data with
  | Err e => throw e
  | Ok (key, digest) =>
      writeObjects (putObject key data) ;;;
      handle (headObject key) (λ head,
        guard (match head with Ok n => n =? Z.of_nat (length data) | Err _ => false end) EvidenceErrOther ;;;
        handle (readRetentionObject st (stArchive st) workspace key digest (Z.of_nat (length data))) (λ verified,
          guard (match verified with Ok d => d ==? data | Err _ => false end) EvidenceErrOther ;;;
          ret (key, digest)))
  end.

Definition deleteIn (prefix workspace key : string) : M Ret unit :=
  guard (scopedKey prefix workspace key) EvidenceErrScope ;;;
  writeObjects (deleteObject key).
Definition deleteRaw (st : retentionStore) : string → string → M Ret unit := deleteIn (stRaw st).
Definition deleteArchive (st : retentionStore) : string → string → M Ret unit := deleteIn (stArchive st).
End store.
Arguments Ret : clear implicits.
Arguments mkRet {O}.
Arguments rt_db {O}.
Arguments rt_objects {O}.
