(* ===== verification/StorageKeys.v ===== *)
(** * Keys of stored objects (internal/app/storage.go)

    The check of a configured prefix, and that its stores read what they write:
    a key built under a checked prefix from a workspace, further segments and a
    digest passes the scope check of the verifying reader, and a report digest
    has the form the reader asks for. *)
From S2P Require Import Prelude GoLib Encoding Tx ReportAdapter Jobs Schema Auth Intake RetentionStore.
Local Open Scope Z_scope.

(** The prefix of a store, checked when its configuration is. *)
Definition validStoragePrefix (prefix : string) : bool :=
  if (prefix ==? "") || (1024 <? len prefix) || negb (HasSuffix prefix "/") then false
  else forallb (λ part, storageSegment part && (part !=? ".") && (part !=? ".."))
         (Split (of_bytes (removelast (bytes prefix))) slash).

Lemma length_round s kw : length (round s kw) = length s.
Proof. by destruct s as [|? [|? [|? [|? [|? [|? [|? [|? [|? ?]]]]]]]]]. Qed.
Lemma length_block s b : length (block s b) = length s.
Proof.
  unfold block. rewrite length_zip_with.
  enough (H : ∀ l s', length (fold_left round l s') = length s') by (rewrite H; lia).
  induction l as [|kw l IH]; intros s'; [done|]. simpl. by rewrite IH, length_round.
Qed.
Lemma Sum256_shape data : length (Sum256 data) = 32%nat ∧ Forall (λ b, (b < 256)%N) (Sum256 data).
Proof.
  unfold Sum256. set (n := (length (padded data) / 64)%nat). generalize (padded data). intros p.
  assert (Hl : ∀ n s q, length s = 8%nat → length (blocks n s q) = 8%nat)
    by (induction n0 as [|m IH]; intros s q Hs; [done|]; simpl; apply IH; by rewrite length_block).
  specialize (Hl n initialState p eq_refl). revert Hl. generalize (blocks n initialState p). intros l Hl. split.
  - assert (H : ∀ l, length (concat (bigEndian 4 <$> l)) = (4 * length l)%nat).
    { clear. induction l as [|x l IH]; [done|]. rewrite fmap_cons, concat_cons, length_app, IH.
      change (length (bigEndian 4 x)) with 4%nat. simpl. lia. }
    by rewrite H, Hl.
  - clear Hl n p. induction l as [|x l IH]; [constructor|]. rewrite fmap_cons, concat_cons. apply Forall_app. split; [|exact IH].
    unfold bigEndian. apply Forall_fmap, Forall_true. intros k. simpl. change 255%N with (N.ones 8). rewrite N.land_ones.
    by apply N.mod_lt.
Qed.
Lemma hexBytes_shape l : Forall (λ b, (b < 256)%N) l →
  length (hexBytes l) = (2 * length l)%nat ∧ forallb lowerHex (hexBytes l) = true.
Proof.
  assert (Hd : ∀ d, (d < 16)%N → lowerHex (hexDigit d) = true).
  { intros d Hd. unfold hexDigit, lowerHex. destruct (N.ltb_spec d 10); apply orb_true_iff;
      [left|right]; apply andb_true_iff; split; apply N.leb_le; lia. }
  induction 1 as [|b l Hb _ [IH1 IH2]]; [done|]. change (hexBytes (b :: l)) with (hexDigit (N.shiftr b 4) :: hexDigit (N.land b 15) :: hexBytes l).
  cbn [length forallb]. rewrite IH1, IH2, !Hd; [split; [lia|done]|..].
  - change 15%N with (N.ones 4). rewrite N.land_ones. by apply N.mod_lt.
  - rewrite N.shiftr_div_pow2. apply N.Div0.div_lt_upper_bound. simpl. lia.
Qed.
Lemma bytes_hex data : bytes (hex (Sum256 data)) = hexBytes (Sum256 data) ∧ forallb lowerHex (hexBytes (Sum256 data)) = true.
Proof.
  destruct (Sum256_shape data) as [_ Hb]. apply hexBytes_shape in Hb as [_ Hx]. split; [|done].
  apply bytes_of_bytes. apply forallb_Forall in Hx. eapply Forall_impl; [exact Hx|]. intros b H. unfold lowerHex in H.
  apply orb_true_iff in H as [H|H]; apply andb_true_iff in H as [_ H%N.leb_le]; lia.
Qed.
Lemma digestPattern_report data : digestPattern (reportDigest data) = true.
Proof.
  destruct (Sum256_shape data) as [Hl Hb]. apply hexBytes_shape in Hb as [Hh Hx]. rewrite Hl in Hh.
  assert (E : bytes (reportDigest data) = bytes "sha256:" ++ hexBytes (Sum256 data)).
  { unfold reportDigest. rewrite bytes_app. f_equal. apply bytes_hex. }
  unfold digestPattern. rewrite !andb_true_iff. split_and!.
  - unfold reportDigest, HasPrefix. simpl. by destruct (hex _).
  - unfold len. rewrite <- length_bytes, E, length_app, Hh. done.
  - rewrite E, drop_app_ge by done. simpl. by rewrite drop_0.
Qed.

(** ** Keys

    What a store puts under a validated prefix, its own readers accept. *)

(** A backslash, or a segment that begins with a dot. *)
Fixpoint unsafeKey (l : list N) : bool :=
  match l with
  | [] => false
  | b :: l' => (b =? 92)%N || (b =? 47)%N && bool_decide (head l' = Some 46%N) || unsafeKey l'
  end.
Definition segmentByte' (b : N) : bool := (segmentByte b || (b =? 46) || (b =? 95) || (b =? 45))%N.
Definition segmentBytes (l : list N) : Prop :=
  match l with [] => False | b :: l' => segmentByte b = true ∧ Forall (λ b, segmentByte' b = true) l' end.

Lemma storageSegment_bytes s : storageSegment s = true → segmentBytes (bytes s).
Proof.
  unfold storageSegment, segmentBytes. destruct (bytes s) as [|b l]; [done|]. intros [[Hb _]%andb_true_iff Hl]%andb_true_iff.
  split; [done|]. by apply forallb_Forall in Hl.
Qed.
Lemma segmentByte_plain b : segmentByte b = true → b ≠ 46%N ∧ b ≠ 47%N ∧ b ≠ 92%N.
Proof. intros H. split_and!; intros ->; done. Qed.
Lemma segmentByte'_plain b : segmentByte' b = true → b ≠ 47%N ∧ b ≠ 92%N.
Proof. intros H. split; intros ->; done. Qed.
Lemma segmentBytes_all l : segmentBytes l → Forall (λ b, segmentByte' b = true) l.
Proof. destruct l as [|b l]; [done|]. intros [Hb Hl]. constructor; [|done]. unfold segmentByte'. by rewrite Hb. Qed.

(** The first of the parts may have been entered already. *)
Lemma unsafe_path l rest :
  match splitBytes 47 l with p :: ps => Forall (λ b, segmentByte' b = true) p ∧ Forall segmentBytes ps | [] => False end →
  head rest ≠ Some 46%N → unsafeKey rest = false → unsafeKey (l ++ 47%N :: rest) = false.
Proof.
  intros Hl Hh Hr. induction l as [|b l IH]; cbn [app unsafeKey splitBytes] in *.
  { rewrite (bool_decide_eq_false_2 _ Hh), Hr. done. }
  destruct (N.eqb_spec b 47) as [->|Hb].
  - destruct Hl as [_ Hl]. destruct (splitBytes 47 l) as [|p ps] eqn:E; [by destruct l; simpl in E; repeat case_match|].
    inversion Hl as [|? ? Hp Hps]; subst. rewrite IH by (split; [by apply segmentBytes_all|done]).
    rewrite bool_decide_eq_false_2; [done|]. destruct l as [|c l]; simpl in *; [by simplify_eq|].
    destruct (c =? 47)%N eqn:Ec; [by simplify_eq|]. destruct (splitBytes 47 l); simplify_eq; destruct Hp as [Hc _];
      apply segmentByte_plain in Hc; intros [=]; tauto.
  - destruct (splitBytes 47 l) as [|p ps] eqn:E; [by destruct l; simpl in E; repeat case_match|].
    destruct Hl as [Hp Hps]. inversion Hp as [|? ? Hc Hp']; subst. apply segmentByte'_plain in Hc as [_ Hc].
    rewrite IH by done. by rewrite (proj2 (N.eqb_neq _ _) Hc).
Qed.
Lemma unsafe_segment s rest : storageSegment s = true → head rest ≠ Some 46%N → unsafeKey rest = false →
  unsafeKey (bytes s ++ 47%N :: rest) = false ∧ head (bytes s ++ 47%N :: rest) ≠ Some 46%N.
Proof.
  intros Hs%storageSegment_bytes Hh Hr. split.
  - apply unsafe_path; [|done..]. apply segmentBytes_all in Hs. rewrite splitBytes_none; [by split|].
    eapply Forall_impl; [exact Hs|]. intros b Hb. by apply segmentByte'_plain.
  - destruct (bytes s) as [|b l]; [done|]. destruct Hs as [Hb _]. apply segmentByte_plain in Hb. intros [=]. tauto.
Qed.
Lemma unsafe_hex l : forallb lowerHex l = true → unsafeKey l = false ∧ head l ≠ Some 46%N.
Proof.
  assert (Hp : ∀ b, lowerHex b = true → b ≠ 46%N ∧ b ≠ 47%N ∧ b ≠ 92%N) by (intros b H; split_and!; intros ->; done).
  intros H. split; [|destruct l as [|b l]; [done|]; apply andb_true_iff in H as [H _]; intros [= ->]; done].
  induction l as [|b l IH]; [done|]. apply andb_true_iff in H as [(_ & H1 & H2)%Hp H]. simpl.
  by rewrite (proj2 (N.eqb_neq _ _) H1), (proj2 (N.eqb_neq _ _) H2), IH.
Qed.
Lemma HasSuffix_slash s : HasSuffix s "/" = true → bytes s = removelast (bytes s) ++ [47%N].
Proof.
  induction s as [|c s IH]; [done|]. cbn [HasSuffix]. intros [[= -> ->]%bool_decide_eq_true|H%IH]%orb_true_iff; [done|].
  change (bytes (String c s)) with (Ascii.N_of_ascii c :: bytes s). rewrite H at 1. destruct (bytes s); [done|]. done.
Qed.
Lemma prefix_cons a t c s : String.prefix (String a t) (String c s) = true ↔ a = c ∧ String.prefix t s = true.
Proof. cbn [String.prefix]. destruct (Ascii.ascii_dec a c); [tauto|]. split; [done|]. intros [? _]. done. Qed.
Lemma HasPrefix_app a b : HasPrefix (a +:+ b) a = true.
Proof.
  unfold HasPrefix. induction a as [|c a IH]; [by destruct b|].
  change (String c a +:+ b)%string with (String c (a +:+ b)). by apply prefix_cons.
Qed.
Lemma safe_contains s :
  unsafeKey (bytes s) = false → Contains s "\" = false ∧ Contains s "/../" = false ∧ Contains s "/./" = false.
Proof.
  induction s as [|c s IH]; [done|]. change (bytes (String c s)) with (Ascii.N_of_ascii c :: bytes s). cbn [unsafeKey].
  intros [[H1 H2]%orb_false_iff (I1 & I2 & I3)%IH]%orb_false_iff. cbn [Contains]. rewrite I1, I2, I3, !orb_false_r.
  assert (Hd : ∀ t : string, String.prefix ("/." +:+ t) (String c s) ≠ true).
  { intros t. change ("/." +:+ t)%string with (String (Ascii.ascii_of_N 47) (String (Ascii.ascii_of_N 46) t)).
    intros [<- H]%prefix_cons. destruct s as [|d s]; [done|]. apply prefix_cons in H as [<- _].
    by vm_compute in H2. }
  split_and!; apply not_true_iff_false; [|apply (Hd "./")|apply (Hd "/")]. intros [<- _]%prefix_cons. by vm_compute in H1.
Qed.

(** What follows the workspace in a key. *)
Definition safeRest (rest : string) : Prop := unsafeKey (bytes rest) = false ∧ head (bytes rest) ≠ Some 46%N.
Lemma safe_digest data : safeRest (hex (Sum256 data)).
Proof. unfold safeRest. destruct (bytes_hex data) as [-> H]. by apply unsafe_hex. Qed.
Lemma safe_segment s rest : storageSegment s = true → safeRest rest → safeRest (s +:+ "/" +:+ rest).
Proof. intros Hs [H1 H2]. unfold safeRest. rewrite !bytes_app. by apply (unsafe_segment s (bytes rest)). Qed.

(** The parts of a checked prefix. *)
Lemma validPrefix_parts prefix : validStoragePrefix prefix = true →
  bytes prefix = removelast (bytes prefix) ++ [47%N] ∧ Forall segmentBytes (splitBytes 47 (removelast (bytes prefix))).
Proof.
  intros Hp. unfold validStoragePrefix in Hp. destruct (_ || _) eqn:E in Hp; [done|].
  apply orb_false_iff in E as [_ Hs%negb_false_iff%HasSuffix_slash]. split; [done|].
  set (body := removelast (bytes prefix)) in *. assert (Hb : Forall (λ b, (b < 256)%N) body).
  { pose proof (bytes_small prefix) as H. rewrite Hs in H. by apply Forall_app in H as [? _]. }
  unfold Split, slash in Hp. rewrite (bytes_of_bytes body Hb) in Hp. clearbody body. clear -Hp Hb.
  assert (Hsm : Forall (Forall (λ b, (b < 256)%N)) (splitBytes 47 body)).
  { clear Hp. induction Hb as [|b l Hb _ IH]; simpl; [by repeat constructor|]. destruct (b =? 47)%N; [by constructor|].
    destruct (splitBytes 47 l); [by repeat constructor|]. inversion IH; subst. by repeat constructor. }
  apply forallb_Forall, Forall_fmap in Hp. apply Forall_forall. intros p Hin. rewrite Forall_forall in Hp, Hsm.
  specialize (Hp p Hin). specialize (Hsm p Hin). simpl in Hp. apply andb_true_iff in Hp as [[Hp _]%andb_true_iff _].
  apply storageSegment_bytes in Hp. by rewrite bytes_of_bytes in Hp.
Qed.

Lemma scopedKey_safe prefix workspace rest :
  validStoragePrefix prefix = true → storageSegment workspace = true → safeRest rest →
  scopedKey prefix workspace (prefix +:+ workspace +:+ "/" +:+ rest) = true.
Proof.
  intros [Hs Hp]%validPrefix_parts Hw [H1 H2]. destruct (unsafe_segment workspace _ Hw H2 H1) as [Hw1 Hw2].
  set (key := (prefix +:+ _)%string). assert (unsafeKey (bytes key) = false) as (K1 & K2 & K3)%safe_contains.
  { unfold key. rewrite !bytes_app, Hs, <- app_assoc. apply unsafe_path; [|exact Hw2|exact Hw1].
    destruct (splitBytes 47 _) as [|p ps] eqn:E; [by destruct (removelast _); simpl in E; repeat case_match|].
    inversion Hp; subst. split; [by apply segmentBytes_all|done]. }
  assert (Ek : key = (prefix +:+ workspace +:+ "/") +:+ rest)
    by (apply bytes_inj; unfold key; by rewrite !bytes_app, <- !app_assoc).
  unfold scopedKey. rewrite Hw, K1, K2, K3, Ek, HasPrefix_app. done.
Qed.

(** The keys of collected evidence and of archive copies. *)
Lemma collectedKey_scoped prefix workspace id data :
  validStoragePrefix prefix = true → storageSegment workspace = true → storageSegment id = true →
  scopedKey prefix workspace (prefix +:+ workspace +:+ "/" +:+ id +:+ "/" +:+ hex (Sum256 data)) = true.
Proof. intros. apply scopedKey_safe; [done..|]. by apply safe_segment, safe_digest. Qed.
Lemma validID_segment id : validID id = true → storageSegment id = true.
Proof.
  unfold validID, storageSegment. destruct (len id =? 32) eqn:El; [|done]. simpl. apply Z.eqb_eq in El. unfold len in El.
  rewrite <- length_bytes in El. intros H.
  assert (Hd : ∀ b, lowerHexDigit b = true → segmentByte b = true).
  { intros b Hb. unfold lowerHexDigit in Hb. unfold segmentByte.
    destruct (N.ltb_spec b 48), (N.ltb_spec 57 b), (N.ltb_spec b 97), (N.ltb_spec 102 b); try done;
      rewrite !orb_true_iff, !andb_true_iff, !N.leb_le; lia. }
  destruct (bytes id) as [|b l]; [done|]. cbn [forallb] in H. apply andb_true_iff in H as [Hb Hl]. rewrite (Hd _ Hb).
  apply andb_true_iff. split; [apply andb_true_iff; split; [done|]|].
  - apply Z.leb_le || apply Nat.leb_le. simpl in *. lia.
  - apply forallb_forall. intros x Hx. rewrite forallb_forall in Hl. by rewrite (Hd _ (Hl x Hx)).
Qed.
Lemma archiveKey_scoped st workspace kind id data key digest :
  validStoragePrefix (stArchive st) = true → archiveIdentity st workspace kind id data = Ok (key, digest) →
  scopedKey (stArchive st) workspace key = true.
Proof.
  intros Hp. unfold archiveIdentity. destruct (storageSegment workspace) eqn:E1; [|done].
  destruct (storageSegment kind) eqn:E2; [|done]. destruct (validID id) eqn:E3; [|done]. simpl. destruct (_ <? _); [done|].
  intros [= <- _]. apply scopedKey_safe; [done..|]. apply safe_segment, safe_segment, safe_digest; [done|].
  by apply validID_segment.
Qed.
