(* ===== verification/RetentionWorker.v ===== *)
(** * The retention worker (internal/app/retention_worker.go, archive_publications.go)

    The worker claims one item of a run under a lease and a fence, acts on the
    database and the objects, and records the outcome.  Other sessions run
    between its statements: [rw_other] is what they have committed when the
    worker looks again, any function, so that a theorem with a condition on it
    holds for every interleaving that meets the condition. *)
From S2P Require Import Prelude GoLib Encoding Tx ReportAdapter Schema Auth Intake Correlations Retention RetentionStore.
Local Open Scope Z_scope.

Definition retentionAttempts : Z := 3.
Definition orphanArchiveGrace : Z := 24 * 3600 * 1000000.

Record retentionWorker := { wkID : string; wkLease : Z; wkStore : retentionStore }.

(** ** Runs and items *)

Record retentionRunRecord := { runID : string; runRow : RunRow }.
Definition runWorkspace (r : retentionRunRecord) : string := rr_workspace_id (rr_meta (runRow r)).
Definition runWorkerID (r : retentionRunRecord) : string := default "" (rr_worker_id (rr_job (runRow r))).
Definition runFence (r : retentionRunRecord) : Z := rr_fence (rr_job (runRow r)).
Record retentionItemRecord := { itemID : string; itemRow : RunItemRow }.
Definition itemResource (i : retentionItemRecord) : string := ri_resource_id (ri_meta (itemRow i)).
Definition itemKind (i : retentionItemRecord) : string := ri_kind (ri_meta (itemRow i)).

Record retentionOutcome := { ocState : ristate; ocOutcome : string; ocReasons : list string }.
Definition succeeded (outcome : string) : retentionOutcome := {| ocState := RiSucceeded; ocOutcome := outcome; ocReasons := [] |}.
Definition protected (outcome : string) (reasons : list string) : retentionOutcome :=
  {| ocState := RiProtected; ocOutcome := outcome; ocReasons := reasons |}.
Definition stateChanged : retentionOutcome := protected "state-changed" ["state-changed"].
(** The outcome of evidence found missing or corrupt. *)
Definition lostEvidence (state : string) : retentionOutcome :=
  {| ocState := if state ==? "missing" then RiMissing else RiCorrupt; ocOutcome := state; ocReasons := [] |}.

(** [UPDATE table SET f WHERE workspace_id=$1 AND id=$2 AND P]: the rows affected. *)
Definition updateOne {V} (proj : DB → gmap string V) (put : gmap string V → DB → DB) (ws : V → string)
    (workspace id : string) (P : V → bool) (f : V → V) (db : DB) : Z * DB :=
  match proj db !! id with
  | Some v => if (ws v ==? workspace) && P v then (1, put (<[id := f v]> (proj db)) db) else (0, db)
  | None => (0, db)
  end.
Definition updateRun := updateOne t_retentionRuns with_retentionRuns (λ r, rr_workspace_id (rr_meta r)).
Definition updateObservation := updateOne t_observations with_observations ob_workspace_id.
Definition updateImport := updateOne t_imports with_imports (λ r, i_workspace_id (i_meta r)).
Definition updateEvent := updateOne t_correlationEvents with_correlationEvents x_workspace_id.
Definition updatePublication := updateOne t_publications with_publications pb_workspace_id.
(** ... [AND run_id=$2]. *)
Definition updateItem (workspace run id : string) (P : RunItemRow → bool) : (RunItemRow → RunItemRow) → DB → Z * DB :=
  updateOne t_runItems with_runItems (λ i, ri_workspace_id (ri_meta i)) workspace id
    (λ i, (ri_run_id (ri_meta i) ==? run) && P i).
Definition anyway {V} (v : V) : bool := true.

Definition setRun (r : RunRow) (j : RunJob) : RunRow := {| rr_meta := rr_meta r; rr_job := j |}.
Definition setItem (i : RunItemRow) (j : RunItemJob) : RunItemRow := {| ri_meta := ri_meta i; ri_job := j |}.

Definition expiredLease (t : Z) (r : RunRow) : bool :=
  match rr_lease_until (rr_job r) with Some u => u <=? t | None => false end.
Definition openItem (i : RunItemRow) : bool :=
  (ri_state (ri_job i) ==? RiQueued) || (ri_state (ri_job i) ==? RiProcessing).
Definition itemOf (workspace run : string) (i : RunItemRow) : bool :=
  (ri_workspace_id (ri_meta i) ==? workspace) && (ri_run_id (ri_meta i) ==? run).
(** [ORDER BY ordinal LIMIT 1] over the items still to do. *)
Definition ordinalLe (a b : string * RunItemRow) : bool := ri_ordinal (ri_meta a.2) <=? ri_ordinal (ri_meta b.2).
Definition nextItem (workspace run : string) (db : DB) : option (string * RunItemRow) :=
  argmin ordinalLe (rowsWhere (λ _ i, itemOf workspace run i && openItem i) (t_runItems db)).

Definition runLe (a b : string * RunRow) : bool :=
  (rr_available_at (rr_job a.2) <? rr_available_at (rr_job b.2)) ||
  (rr_available_at (rr_job a.2) =? rr_available_at (rr_job b.2)) && strLe a.1 b.1.
Definition nextRun (P : RunRow → bool) (locked : string → bool) (db : DB) : option (string * RunRow) :=
  argmin runLe (rowsWhere (λ id r, P r && negb (locked id)) (t_retentionRuns db)).
Definition spentRun (t : Z) (r : RunRow) : bool :=
  (retentionAttempts <=? rr_attempts (rr_job r)) &&
  ((rr_state (rr_job r) ==? RQueued) || (rr_state (rr_job r) ==? RProcessing) && expiredLease t r).
Definition claimableRun (t : Z) (r : RunRow) : bool :=
  (rr_attempts (rr_job r) <? retentionAttempts) &&
  ((rr_state (rr_job r) ==? RQueued) && (rr_available_at (rr_job r) <=? t) ||
   (rr_state (rr_job r) ==? RProcessing) && expiredLease t r).

(** ** Advancing a run *)

Definition ownsRun (run : retentionRunRecord) (r : RunRow) : bool :=
  (rr_worker_id (rr_job r) ==? Some (runWorkerID run)) && (rr_fence (rr_job r) =? runFence run) &&
  (rr_state (rr_job r) ==? RProcessing).

Definition endedRun (state : rrstate) (failure : option (string * string)) (at_ : Z) (r : RunRow) : RunRow :=
  let j := rr_job r in setRun r {|
  rr_state := state; rr_completed_at := Some at_; rr_available_at := rr_available_at j; rr_worker_id := None;
  rr_fence := rr_fence j; rr_attempts := rr_attempts j; rr_lease_until := None; rr_failure := failure |}.
Definition requeuedRun (available : Z) (r : RunRow) : RunRow :=
  let j := rr_job r in setRun r {|
  rr_state := RQueued; rr_completed_at := rr_completed_at j; rr_available_at := available; rr_worker_id := None;
  rr_fence := rr_fence j; rr_attempts := 0; rr_lease_until := None; rr_failure := rr_failure j |}.

Definition failedItem (i : RunItemRow) : bool :=
  bool_decide (ri_state (ri_job i) ∈ [RiMissing; RiCorrupt; RiFailed]).
Definition finalizeRetentionRunTx (run : retentionRunRecord) : M DB unit :=
  failures <- query (λ _ db, Ok (countRows (λ _ i, itemOf (runWorkspace run) (runID run) i && failedItem i) (t_runItems db))) ;;
  at_ <- now ;;
  affected <- exec (λ _ db, updateRun (runWorkspace run) (runID run) (ownsRun run)
    (endedRun (if failures =? 0 then RSucceeded else RPartial) None at_) db) ;;
  guard (affected =? 1) errRetentionLeaseLost.
Definition advanceRetentionRunTx (run : retentionRunRecord) : M DB unit :=
  remaining <- query (λ _ db, Ok (countRows (λ _ i, itemOf (runWorkspace run) (runID run) i && openItem i) (t_runItems db))) ;;
  if remaining =? 0 then finalizeRetentionRunTx run else
  affected <- exec (λ t db, updateRun (runWorkspace run) (runID run) (ownsRun run) (requeuedRun t) db) ;;
  guard (affected =? 1) errRetentionLeaseLost.

(** ** Claiming *)

Definition abandonedFailure : string * string := ("attempt-limit", "Retention item ownership was repeatedly abandoned").
Definition abandonedItem (at_ : Z) (i : RunItemRow) : RunItemRow :=
  let j := ri_job i in setItem i {|
  ri_state := RiFailed; ri_reasons := ri_reasons j; ri_outcome := ri_outcome j;
  ri_attempts := Z.max (ri_attempts j) retentionAttempts; ri_failure := Some abandonedFailure;
  ri_started_at := ri_started_at j; ri_completed_at := Some at_ |}.
(** The lease of [worker]: a claim counts as an attempt and forgets the failure. *)
Definition leasedRun (worker : string) (until attempts : Z) (failure : option (string * string)) (r : RunRow) : RunRow :=
  let j := rr_job r in setRun r {|
  rr_state := RProcessing; rr_completed_at := rr_completed_at j; rr_available_at := rr_available_at j;
  rr_worker_id := Some worker; rr_fence := rr_fence j + 1; rr_attempts := attempts; rr_lease_until := Some until;
  rr_failure := failure |}.
Definition startedItem (at_ : Z) (i : RunItemRow) : RunItemRow :=
  let j := ri_job i in setItem i {|
  ri_state := RiProcessing; ri_reasons := ri_reasons j; ri_outcome := ri_outcome j; ri_attempts := ri_attempts j + 1;
  ri_failure := None; ri_started_at := Some (default at_ (ri_started_at j)); ri_completed_at := ri_completed_at j |}.

Section worker.
Context (w : retentionWorker).

(** A run abandoned three times: its item fails, or the run when none is left. *)
Definition abandonTx (id : string) (r : RunRow) : M DB unit :=
  let workspace := rr_workspace_id (rr_meta r) in
  item <- query (λ _ db, Ok (nextItem workspace id db)) ;;
  at_ <- now ;;
  match item with
  | None => exec (λ _ db, (tt, snd (updateRun workspace id anyway (endedRun RFailed (Some abandonedFailure) at_) db)))
  | Some (i, _) =>
      exec (λ _ db, (tt, snd (updateItem workspace id i anyway (abandonedItem at_) db))) ;;;
      lease <- intervalOf (wkLease w) ;;
      exec (λ t db, (tt, snd (updateRun workspace id anyway
        (leasedRun (wkID w) (t + lease) (rr_attempts (rr_job r)) (rr_failure (rr_job r))) db))) ;;;
      advanceRetentionRunTx {| runID := id;
        runRow := leasedRun (wkID w) lease (rr_attempts (rr_job r)) (rr_failure (rr_job r)) r |}
  end.

(** [None]: no work; [Some None]: a run was brought forward; otherwise an item to act on. *)
Definition claimTx : M DB (option (option (retentionRunRecord * retentionItemRecord))) :=
  locked <- skipLocked ;;
  spent <- query (λ t db, Ok (nextRun (spentRun t) locked db)) ;;
  match spent with
  | Some (id, r) => abandonTx id r ;;; ret (Some None)
  | None =>
      lease <- intervalOf (wkLease w) ;;
      claimed <- stmt (λ t db,
        match nextRun (claimableRun t) locked db with
        | Some (id, r) =>
            let r' := leasedRun (wkID w) (t + lease) (rr_attempts (rr_job r) + 1) None r in
            Ok (Some {| runID := id; runRow := r' |}, with_retentionRuns (<[id := r']> (t_retentionRuns db)) db)
        | None => Ok (None, db)
        end) ;;
      match claimed with
      | None => ret None
      | Some run =>
          item <- query (λ _ db, Ok (nextItem (runWorkspace run) (runID run) db)) ;;
          match item with
          | None => finalizeRetentionRunTx run ;;; ret (Some None)
          | Some (i, row) =>
              at_ <- now ;;
              exec (λ _ db, (tt, snd (updateItem (runWorkspace run) (runID run) i anyway (startedItem at_) db))) ;;;
              ret (Some (Some (run, {| itemID := i; itemRow := startedItem at_ row |})))
          end
      end
  end.
Definition claimRetentionItem : M DB (option (option (retentionRunRecord * retentionItemRecord))) := transaction claimTx.

(** ** The lease *)

Definition liveRun (t : Z) (run : retentionRunRecord) (r : RunRow) : bool :=
  ownsRun run r && match rr_lease_until (rr_job r) with Some u => t <? u | None => false end.
Definition lockRetentionRun (run : retentionRunRecord) : M DB unit :=
  active <- query (λ t db,
    match t_retentionRuns db !! runID run with
    | Some r => if rr_workspace_id (rr_meta r) ==? runWorkspace run then Ok (liveRun t run r) else Err ErrNoRows
    | None => Err ErrNoRows
    end) ;;
  guard active errRetentionLeaseLost.
Definition renewedRun (until : Z) (r : RunRow) : RunRow :=
  let j := rr_job r in setRun r {|
  rr_state := rr_state j; rr_completed_at := rr_completed_at j; rr_available_at := rr_available_at j;
  rr_worker_id := rr_worker_id j; rr_fence := rr_fence j; rr_attempts := rr_attempts j; rr_lease_until := Some until;
  rr_failure := rr_failure j |}.
Definition renewRetentionLease (run : retentionRunRecord) : M DB unit :=
  lease <- intervalOf (wkLease w) ;;
  affected <- exec (λ t db, updateRun (runWorkspace run) (runID run) (liveRun t run) (renewedRun (t + lease)) db) ;;
  guard (affected =? 1) errRetentionLeaseLost.

(** ** Finishing and retrying *)

Definition finishedItem (o : retentionOutcome) (at_ : Z) (i : RunItemRow) : RunItemRow :=
  let j := ri_job i in setItem i {|
  ri_state := ocState o; ri_reasons := ocReasons o; ri_outcome := ocOutcome o; ri_attempts := ri_attempts j;
  ri_failure := None; ri_started_at := ri_started_at j; ri_completed_at := Some at_ |}.
Definition processingItem (i : RunItemRow) : bool := ri_state (ri_job i) ==? RiProcessing.
Definition finishItemTx (run : retentionRunRecord) (item : retentionItemRecord) (o : retentionOutcome) : M DB unit :=
  lockRetentionRun run ;;;
  at_ <- now ;;
  affected <- exec (λ _ db, updateItem (runWorkspace run) (runID run) (itemID item) processingItem (finishedItem o at_) db) ;;
  guard (affected =? 1) errRetentionLeaseLost ;;;
  advanceRetentionRunTx run.
Definition finishRetentionItem (run : retentionRunRecord) (item : retentionItemRecord) (o : retentionOutcome) : M DB unit :=
  transaction (finishItemTx run item o).

Definition retryMessage (message : string) : string * string := ("retention-action-failed", message).
Definition givenUpItem (at_ : Z) (i : RunItemRow) : RunItemRow :=
  let j := ri_job i in setItem i {|
  ri_state := RiFailed; ri_reasons := ri_reasons j; ri_outcome := ri_outcome j; ri_attempts := ri_attempts j;
  ri_failure := Some (retryMessage "Retention action could not complete within its permitted attempts");
  ri_started_at := ri_started_at j; ri_completed_at := Some at_ |}.
Definition requeuedItem (i : RunItemRow) : RunItemRow :=
  let j := ri_job i in setItem i {|
  ri_state := RiQueued; ri_reasons := ri_reasons j; ri_outcome := ri_outcome j; ri_attempts := ri_attempts j;
  ri_failure := Some (retryMessage "Retention action will be retried"); ri_started_at := ri_started_at j;
  ri_completed_at := ri_completed_at j |}.
Definition retryItemTx (run : retentionRunRecord) (item : retentionItemRecord) : M DB unit :=
  lockRetentionRun run ;;;
  if retentionAttempts <=? ri_attempts (ri_job (itemRow item)) then
    at_ <- now ;;
    exec (λ _ db, (tt, snd (updateItem (runWorkspace run) (runID run) (itemID item) processingItem (givenUpItem at_) db))) ;;;
    advanceRetentionRunTx run
  else
    exec (λ _ db, (tt, snd (updateItem (runWorkspace run) (runID run) (itemID item) processingItem requeuedItem db))) ;;;
    exec (λ t db, (tt, snd (updateRun (runWorkspace run) (runID run) (ownsRun run) (requeuedRun (t + 1000000)) db))).
Definition retryRetentionItem (run : retentionRunRecord) (item : retentionItemRecord) : M DB unit :=
  transaction (retryItemTx run item).
End worker.
