(* ===== verification/RetentionActions.v ===== *)
(** * What the retention worker does (internal/app/retention_worker.go)

    One definition per action, in the order of the Go function.  Each access to
    the database outside a transaction, and each request to the object store,
    is preceded by whatever other sessions did meanwhile ([pause]). *)
From S2P Require Import Prelude GoLib Encoding Tx ReportAdapter Schema Auth Intake Correlations Retention RetentionStore RetentionWorker.
Local Open Scope Z_scope.

(** ** Evidence columns *)

Definition compactObservation (o : Observation) : Observation := {|
  o_id := o_id o; o_run_id := o_run_id o; o_source_id := o_source_id o; o_scan_id := o_scan_id o; o_scope := o_scope o;
  o_source_scan_at := o_source_scan_at o; o_source_finding_id := o_source_finding_id o;
  o_source_severity := o_source_severity o; o_normalized_severity := o_normalized_severity o;
  o_source_location := o_source_location o; o_impact := ""; o_remediation := ""; o_unmapped := [];
  o_evidence_digest := o_evidence_digest o; o_change_kind := o_change_kind o; o_change_reasons := o_change_reasons o |}.

Definition setEvidence (o : ObservationRow) (e : ObservationEvidence) : ObservationRow := {|
  ob_workspace_id := ob_workspace_id o; ob_finding_id := ob_finding_id o; ob_run_id := ob_run_id o;
  ob_ordinal := ob_ordinal o; ob_evidence := e |}.
Definition atRevision (revision : Z) (P : ObservationEvidence → bool) (o : ObservationRow) : bool :=
  (oe_revision (ob_evidence o) =? revision) && P (ob_evidence o).

Definition archivedEvidence (summary : Observation) (archive : ArchiveRef) (o : ObservationRow) : ObservationRow :=
  setEvidence o {| oe_data := None; oe_summary := Some summary; oe_availability := "archived";
    oe_revision := oe_revision (ob_evidence o) + 1; oe_archive := Some archive; oe_expired_at := None; oe_transition := None |}.
Definition restoredEvidence (data : Observation) (o : ObservationRow) : ObservationRow :=
  let e := ob_evidence o in
  setEvidence o {| oe_data := Some data; oe_summary := None; oe_availability := "available";
    oe_revision := oe_revision e + 1; oe_archive := oe_archive e; oe_expired_at := None; oe_transition := None |}.
(** [availability], [expired_at] and [transition] replaced. *)
Definition movedEvidence (availability : string) (expired : option Z) (transition : option string) (o : ObservationRow)
    : ObservationRow :=
  let e := ob_evidence o in
  setEvidence o {| oe_data := oe_data e; oe_summary := oe_summary e; oe_availability := availability;
    oe_revision := oe_revision e + 1; oe_archive := oe_archive e; oe_expired_at := expired; oe_transition := transition |}.

Definition movedImport (availability : string) (expired : option Z) (transition : option string) (r : ImportRow) : ImportRow := {|
  i_meta := i_meta r; i_job := i_job r;
  i_evidence := {| i_evidence_availability := availability; i_evidence_revision := i_evidence_revision (i_evidence r) + 1;
                   i_retention_transition := transition; i_evidence_expired_at := expired |} |}.
Definition importAt (revision : Z) (P : ImportEvidence → bool) (r : ImportRow) : bool :=
  (i_evidence_revision (i_evidence r) =? revision) && P (i_evidence r).
Definition expiringImport (e : ImportEvidence) : bool := i_retention_transition e ==? Some "expiring".
Definition expiringEvidence (e : ObservationEvidence) : bool := oe_transition e ==? Some "expiring".

Definition archivedEvent (archive : ArchiveRef) (x : CorrelationEventRow) : CorrelationEventRow := {|
  x_workspace_id := x_workspace_id x; x_correlation_id := x_correlation_id x; x_sequence := x_sequence x;
  x_event_type := x_event_type x; x_actor_id := x_actor_id x; x_rationale := x_rationale x;
  x_idempotency_key := x_idempotency_key x; x_binding_digest := x_binding_digest x; x_before_state := JObject [];
  x_after_state := JObject []; x_created_at := x_created_at x;
  x_detail := {| dt_availability := "archived"; dt_revision := dt_revision (x_detail x) + 1; dt_archive := Some archive |} |}.

(** ** Publications *)

Record archivePublication := { pubID : string; pubRow : PublicationRow }.

Definition kindToResource (kind : string) : string :=
  if kind ==? "correlation-events" then "correlation-event"
  else if kind ==? "finding-decision-events" then "finding-decision-event"
  else if kind ==? "notification-policy-revisions" then "notification-policy-revision"
  else if kind ==? "finding-change-events" then "finding-change-event"
  else if kind ==? "notification-policy-events" then "notification-policy-event"
  else "observation".

Definition publicationOf (workspace key : string) (db : DB) : option (string * PublicationRow) :=
  findRow (λ _ p, (pb_workspace_id p ==? workspace) && (pb_object_key p ==? key)) (t_publications db).
Definition publishingRow (workspace key kind resource digest : string) (size revision created at_ : Z) : PublicationRow := {|
  pb_workspace_id := workspace; pb_object_key := key; pb_resource_kind := kind; pb_resource_id := resource;
  pb_object_digest := digest; pb_object_size := size; pb_state := PbPublishing; pb_revision := revision;
  pb_created_at := created; pb_updated_at := at_; pb_referenced_at := None; pb_deleted_at := None |}.
(** [INSERT ... ON CONFLICT(workspace_id,object_key) DO UPDATE ... RETURNING]. *)
Definition upsertPublication (id workspace key kind resource digest : string) (size at_ : Z) : M DB archivePublication :=
  stmt (λ _ db,
    match publicationOf workspace key db with
    | Some (old, p) =>
        let p' := publishingRow workspace key kind resource digest size (pb_revision p + 1) (pb_created_at p) at_ in
        Ok ({| pubID := old; pubRow := p' |}, with_publications (<[old := p']> (t_publications db)) db)
    | None =>
        let p' := publishingRow workspace key kind resource digest size 1 at_ at_ in
        match insertRow id p' (t_publications db) with
        | Ok ps => Ok ({| pubID := id; pubRow := p' |}, with_publications ps db)
        | Err e => Err e
        end
    end).
Definition movedPublication (state : pbstate) (at_ : Z) (p : PublicationRow) : PublicationRow := {|
  pb_workspace_id := pb_workspace_id p; pb_object_key := pb_object_key p; pb_resource_kind := pb_resource_kind p;
  pb_resource_id := pb_resource_id p; pb_object_digest := pb_object_digest p; pb_object_size := pb_object_size p;
  pb_state := state; pb_revision := pb_revision p + 1; pb_created_at := pb_created_at p; pb_updated_at := at_;
  pb_referenced_at := if state ==? PbReferenced then Some at_ else None;
  pb_deleted_at := if state ==? PbDeleted then Some at_ else None |}.
Definition finishArchivePublication (p : archivePublication) (state : pbstate) : M DB unit :=
  at_ <- now ;;
  affected <- exec (λ _ db, updatePublication (pb_workspace_id (pubRow p)) (pubID p)
    (λ q, (pb_object_key q ==? pb_object_key (pubRow p)) && (pb_revision q =? pb_revision (pubRow p)))
    (movedPublication state at_) db) ;;
  guard (affected =? 1) errRetentionLeaseLost.

(** The row names [key] as its archived copy. *)
Definition refersTo (key : string) (archive : option ArchiveRef) : bool :=
  match archive with Some a => ar_key a ==? key | None => false end.
Definition archiveReferenceExists (workspace key : string) (db : DB) : bool :=
  anyRow (λ _ o, (ob_workspace_id o ==? workspace) && refersTo key (oe_archive (ob_evidence o))) (t_observations db) ||
  anyRow (λ _ x, (x_workspace_id x ==? workspace) && refersTo key (dt_archive (x_detail x))) (t_correlationEvents db) ||
  anyRow (λ _ e, (ev_workspace_id e ==? workspace) && refersTo key (dt_archive (ev_detail e))) (t_decisionEvents db) ||
  anyRow (λ _ r, (nr_workspace_id r ==? workspace) && refersTo key (dt_archive (nr_detail r))) (t_policyRevisions db) ||
  anyRow (λ _ e, (ce_workspace_id e ==? workspace) && refersTo key (dt_archive (ce_detail e))) (t_changeEvents db) ||
  anyRow (λ _ e, (pe_workspace_id e ==? workspace) && refersTo key (dt_archive (pe_detail e))) (t_policyEvents db).

Section actions.
Context {O : Type} `{!ObjectService O}.

(** What surrounds the worker: the other sessions, whether a heartbeat failed
    while a storage request ran (the lease was lost, or only the statement
    failed), the assessments of the workspace, and how PostgreSQL writes a
    jsonb value and Go reads an observation back. *)
Record RetentionWorld := {
  rw_other : nat → Ret O → Ret O; rw_beat : nat → option bool; rw_assessed : Z → string → string → bool;
  rw_text : Observation → list N; rw_decode : list N → option Observation; rw_jsonb : JSON → JSON }.
Context (v : RetentionWorld) (w : retentionWorker).

Definition pause : M (Ret O) unit := λ _ n s, mkOut (Ok tt) (rw_other v n s) (n + 1)%nat.
(** ... while a transaction holds the row of a publication locked: who would
    change it waits. *)
Definition pauseHolding (id : string) : M (Ret O) unit := λ _ n s,
  let s' := rw_other v n s in
  mkOut (Ok tt) (if t_publications (rt_db s') !! id ==? t_publications (rt_db s) !! id then s' else s) (n + 1)%nat.
Definition db {A} (m : M DB A) : M (Ret O) A := pause ;;; lift m.

Definition heartbeat : M (Ret O) unit := λ _ n s,
  mkOut (match rw_beat v n with None => Ok tt | Some true => Err errRetentionLeaseLost | Some false => Err ErrDatabase end)
    s (n + 1)%nat.
Definition withRetentionLease {A} (wait : M (Ret O) unit) (run : retentionRunRecord) (operation : M (Ret O) A)
    : M (Ret O) A :=
  wait ;;; lift (renewRetentionLease w run) ;;; wait ;;;
  handle operation (λ r, heartbeat ;;; fromRes r).

(** [rawEvidencePresent], [archiveEvidencePresent]: a damaged object is present. *)
Definition present {A} (m : M (Ret O) A) : M (Ret O) bool :=
  handle m (λ r, match r with
                 | Ok _ | Err EvidenceErrIntegrity => ret true
                 | Err EvidenceErrNotFound => ret false
                 | Err e => throw e
                 end).
Definition rawEvidencePresent (run : retentionRunRecord) (record : importRecord) : M (Ret O) bool :=
  present (withRetentionLease pause run (readRaw (wkStore w) record)).
Definition archiveEvidencePresent (run : retentionRunRecord) (a : ArchiveRef) : M (Ret O) bool :=
  present (withRetentionLease pause run (readArchive (wkStore w) (runWorkspace run) (ar_key a) (ar_digest a) (ar_size a))).

Definition beginArchivePublication (run : retentionRunRecord) (item : retentionItemRecord) (kind : string) (data : list N)
    : M (Ret O) archivePublication :=
  match archiveIdentity (wkStore w) (runWorkspace run) kind (itemResource item) data with
  | Err e => throw e
  | Ok (key, digest) =>
      db (transaction (
        lockRetentionRun run ;;;
        at_ <- now ;;
        id <- newID ;;
        upsertPublication id (runWorkspace run) key (kindToResource kind) (itemResource item) digest
          (Z.of_nat (length data)) at_))
  end.
Definition publishArchive (run : retentionRunRecord) (item : retentionItemRecord) (kind : string) (data : list N)
    : M (Ret O) (string * string) :=
  withRetentionLease pause run (putArchive (wkStore w) (runWorkspace run) kind (itemResource item) data).

(** ** archive-history *)

Definition archiveTx (run : retentionRunRecord) (item : retentionItemRecord) (p : archivePublication)
    (published : string * string) (data : list N) (revision : Z) (summary : Observation) : M DB retentionOutcome :=
  lockRetentionRun run ;;;
  reasons <- observationProtection (rw_assessed v) (runWorkspace run) (itemResource item) ;;
  if negb (reasons ==? []) then
    finishArchivePublication p PbOrphan ;;;
    ret (protected "protected-after-archive-write" reasons)
  else
    at_ <- now ;;
    affected <- exec (λ _ d, updateObservation (runWorkspace run) (itemResource item)
      (atRevision revision (λ e, oe_availability e ==? "available"))
      (archivedEvidence summary {| ar_key := fst published; ar_digest := snd published;
                                   ar_size := Z.of_nat (length data); ar_at := at_ |}) d) ;;
    guard (affected =? 1) errRetentionLeaseLost ;;;
    finishArchivePublication p PbReferenced ;;;
    ret (succeeded "archived").

Definition readObservation (run : retentionRunRecord) (item : retentionItemRecord) : M DB ObservationRow :=
  query (λ _ d, match observationOf (runWorkspace run) (itemResource item) d with
                | Some o => Ok o
                | None => Err ErrNoRows
                end).

Definition archiveObservation (run : retentionRunRecord) (item : retentionItemRecord) : M (Ret O) retentionOutcome :=
  o <- db (readObservation run item) ;;
  let e := ob_evidence o in
  if oe_availability e ==? "archived" then ret (succeeded "already-archived")
  else if oe_availability e !=? "available" then ret stateChanged
  else
    reasons <- db (observationProtection (rw_assessed v) (runWorkspace run) (itemResource item)) ;;
    if negb (reasons ==? []) then ret (protected "protected" reasons)
    else match oe_data e with
         | None => throw ErrDecode
         | Some o =>
             let data := rw_text v o in
             p <- beginArchivePublication run item "observations" data ;;
             published <- publishArchive run item "observations" data ;;
             db (transaction (archiveTx run item p published data (oe_revision e) (compactObservation o)))
         end.

(** ** expire-raw-report *)

Definition markImportAvailability (run : retentionRunRecord) (record : importRecord) (state : string) : M DB unit :=
  transaction (
    lockRetentionRun run ;;;
    affected <- exec (λ _ d, updateImport (WorkspaceOf record) (recID record)
      (importAt (i_evidence_revision (i_evidence (recRow record))) anyway)
      (λ r, movedImport state (i_evidence_expired_at (i_evidence r)) None r) d) ;;
    guard (affected =? 1) errRetentionLeaseLost).
Definition clearImportTransition (run : retentionRunRecord) (id : string) : M DB unit :=
  transaction (
    lockRetentionRun run ;;;
    exec (λ _ d, (tt, snd (updateImport (runWorkspace run) id (λ r, expiringImport (i_evidence r))
      (λ r, movedImport (i_evidence_availability (i_evidence r)) (i_evidence_expired_at (i_evidence r)) None r) d)))).

(** The transition, made while nothing protects the report; the reasons otherwise. *)
Definition expiringImportTx (run : retentionRunRecord) (item : retentionItemRecord) (revision : Z) : M DB (list string) :=
  lockRetentionRun run ;;;
  reasons <- importProtection (rw_assessed v) (runWorkspace run) (itemResource item) ;;
  if negb (reasons ==? []) then ret reasons
  else
    affected <- exec (λ _ d, updateImport (runWorkspace run) (itemResource item)
      (importAt revision (λ e, (i_evidence_availability e ==? "available") && negb (isSome (i_retention_transition e))))
      (λ r, movedImport (i_evidence_availability (i_evidence r)) (i_evidence_expired_at (i_evidence r)) (Some "expiring") r) d) ;;
    guard (affected =? 1) errRetentionLeaseLost ;;;
    ret [].
Definition expiredImportTx (run : retentionRunRecord) (item : retentionItemRecord) (revision : Z) : M DB unit :=
  lockRetentionRun run ;;;
  at_ <- now ;;
  affected <- exec (λ _ d, updateImport (runWorkspace run) (itemResource item) (importAt revision expiringImport)
    (movedImport "expired" (Some at_) None) d) ;;
  guard (affected =? 1) errRetentionLeaseLost.

(** The last look before the object is deleted: [None] when it may go, or is
    gone; otherwise the reasons, with the transition cleared. *)
Definition recheckImport (run : retentionRunRecord) (item : retentionItemRecord) (record : importRecord)
    : M (Ret O) (list string * bool) :=
  reasons <- db (importProtection (rw_assessed v) (runWorkspace run) (itemResource item)) ;;
  if reasons ==? [] then ret ([], false)
  else
    there <- rawEvidencePresent run record ;;
    if (there : bool) then db (clearImportTransition run (itemResource item)) ;;; ret (reasons, false)
    else ret ([], true).
(** Delete unless the object is known to be gone, then record the expiry. *)
Definition expireImport (run : retentionRunRecord) (item : retentionItemRecord) (record : importRecord) (revision : Z)
    (gone : bool) : M (Ret O) retentionOutcome :=
  (if gone then ret tt
   else withRetentionLease pause run (deleteRaw (wkStore w) (runWorkspace run) (i_report_key (recMeta record)))) ;;;
  db (transaction (expiredImportTx run item revision)) ;;;
  ret (succeeded "expired").

Definition expireUnprotected (run : retentionRunRecord) (item : retentionItemRecord) (record : importRecord) (revision : Z)
    : M (Ret O) retentionOutcome :=
  checked <- recheckImport run item record ;;
  match checked with
  | ([], gone) => expireImport run item record revision gone
  | (reasons, _) => ret (protected "protected-before-delete" reasons)
  end.

Definition expireRawReport (run : retentionRunRecord) (item : retentionItemRecord) : M (Ret O) retentionOutcome :=
  record <- db (readImport (runWorkspace run) (itemResource item)) ;;
  let e := i_evidence (recRow record) in
  let revision := i_evidence_revision e in
  let availability := i_evidence_availability e in
  if availability ==? "expired" then ret (succeeded "already-expired")
  else if (availability ==? "missing") || (availability ==? "corrupt") then ret (lostEvidence availability)
  else if availability !=? "available" then ret stateChanged
  else
    reasons <- db (importProtection (rw_assessed v) (runWorkspace run) (itemResource item)) ;;
    if RetentionTransition record ==? "" then
      if negb (reasons ==? []) then ret (protected "protected" reasons)
      else
        handle (withRetentionLease pause run (readRaw (wkStore w) record)) (λ read,
          match read with
          | Err e =>
              match evidenceAvailabilityError e with
              | None => throw e
              | Some (state, _) => db (markImportAvailability run record state) ;;; ret (lostEvidence state)
              end
          | Ok _ =>
              reasons <- db (transaction (expiringImportTx run item revision)) ;;
              if negb (reasons ==? []) then ret (protected "protected" reasons)
              else expireUnprotected run item record (revision + 1)
          end)
    else if reasons ==? [] then expireUnprotected run item record revision
    else
      there <- rawEvidencePresent run record ;;
      if (there : bool) then db (clearImportTransition run (itemResource item)) ;;; ret (protected "protected" reasons)
      else expireImport run item record revision true.
End actions.

(** ** History events (internal/app/retention_history.go, retention_history_archive.go)

    Four append-only tables keep events that retention may archive: the row
    stays, its content is copied as one JSON document.  The payloads, the rows
    they come from and what protects them; the worker's and the previews' code
    share them. *)

Definition retentionFindingDecisionEvent : string := "finding-decision-event".
Definition retentionNotificationPolicyRev : string := "notification-policy-revision".
Definition retentionFindingChangeEvent : string := "finding-change-event".
Definition retentionNotificationPolicyEvent : string := "notification-policy-event".

Definition timeString (t : Z) : string := RFC3339Nano t.

(** ** Payloads *)

Definition jsonStrings (l : list string) : JSON := JArray (JString <$> l).
Definition jsonOption (x : option string) : JSON := match x with Some s => JString s | None => JNull end.

Definition findingDecisionArchivePayload (id : string) (e : DecisionEventRow) : option JSON :=
  before ← decisionJSON (ev_before e); after ← decisionJSON (ev_after e);
  Some (JObject [("schemaVersion", JInt 1); ("resourceKind", JString retentionFindingDecisionEvent); ("id", JString id);
    ("workspaceId", JString (ev_workspace_id e)); ("findingId", JString (ev_finding_id e));
    ("decisionRevision", JInt (ev_decision_revision e)); ("actorId", JString (ev_actor_id e));
    ("action", JString (ev_action e)); ("rationale", JString (ev_rationale e));
    ("changedFields", jsonStrings (ev_changed_fields e)); ("beforeState", sortMaps before);
    ("afterState", sortMaps after); ("createdAt", JString (timeString (ev_created_at e)))]).

Definition notificationPolicyRevisionArchivePayload (id : string) (r : PolicyRevisionRow) : JSON :=
  let t := nr_terms r in
  JObject [("schemaVersion", JInt 1); ("resourceKind", JString retentionNotificationPolicyRev); ("id", JString id);
    ("workspaceId", JString (nr_workspace_id r)); ("policyId", JString (nr_policy_id r)); ("name", JString (pt_name t));
    ("connectionId", JString (pt_connection_id t)); ("connectionProfile", JString (pt_connection_profile t));
    ("connectionRevision", JInt (pt_connection_revision t)); ("enabled", JBool (pt_enabled t));
    ("changeKinds", jsonStrings (pt_change_kinds t)); ("minimumSeverity", JString (pt_minimum_severity t));
    ("revision", JInt (pt_revision t)); ("epoch", JInt (pt_epoch t)); ("actorId", JString (pt_approved_by t));
    ("actorName", JString (nr_actor_name r)); ("rationale", JString (pt_rationale t));
    ("createdAt", JString (timeString (pt_updated_at t)))].

Definition changeStateText (s : cstate) : string :=
  match s with CPending => "pending" | CProcessing => "processing" | CEvaluated => "evaluated" end.
Definition findingChangeArchivePayload (id : string) (e : ChangeEventRow) : JSON :=
  JObject [("schemaVersion", JInt 1); ("resourceKind", JString retentionFindingChangeEvent); ("id", JString id);
    ("workspaceId", JString (ce_workspace_id e)); ("findingId", JString (ce_finding_id e));
    ("policyEpoch", JInt (ce_policy_epoch e)); ("title", JString (ce_title e)); ("severity", JString (ce_severity e));
    ("assetName", JString (ce_asset_name e)); ("changeKind", JString (ce_change_kind e));
    ("changeRevision", JInt (ce_change_revision e)); ("changeAt", JString (timeString (ce_change_at e)));
    ("state", JString (changeStateText (ce_state (ce_job e)))); ("workerId", jsonOption (ce_worker_id (ce_job e)));
    ("fence", JInt (ce_fence (ce_job e))); ("leaseUntil", jsonOption (timeString <$> ce_lease_until (ce_job e)))].

Definition notificationPolicyEventArchivePayload (id : string) (e : PolicyEventRow) : JSON :=
  JObject [("schemaVersion", JInt 1); ("resourceKind", JString retentionNotificationPolicyEvent); ("id", JString id);
    ("workspaceId", JString (pe_workspace_id e)); ("policyId", JString (pe_policy_id e));
    ("policyRevision", JInt (pe_policy_revision e)); ("findingId", JString (pe_finding_id e));
    ("findingChangeRevision", JInt (pe_finding_change_revision e)); ("outcome", JString (pe_outcome e));
    ("deliveryId", jsonOption (pe_delivery_id e)); ("createdAt", JString (timeString (pe_created_at e)))].

(** ** The four tables as one *)

Definition historyDirectory (kind : string) : string :=
  if kind ==? retentionFindingDecisionEvent then "finding-decision-events"
  else if kind ==? retentionNotificationPolicyRev then "notification-policy-revisions"
  else if kind ==? retentionFindingChangeEvent then "finding-change-events"
  else if kind ==? retentionNotificationPolicyEvent then "notification-policy-events"
  else "".

(** The payload of a row, [None] when a stored value does not encode, and its detail columns. *)
Record historyArchiveRecord := { hrPayload : list N; hrDetail : HistoryDetail }.
Definition encoded (v : option JSON) : option (list N) := (λ j, bytes (marshal j)) <$> v.
Definition historyRow (workspace kind id : string) (db : DB) : option (option (list N) * HistoryDetail) :=
  let row {V} (table : gmap string V) (ws : V → string) (payload : V → option JSON) (detail : V → HistoryDetail) :=
    match table !! id with
    | Some x => if ws x ==? workspace then Some (encoded (payload x), detail x) else None
    | None => None
    end in
  if kind ==? retentionFindingDecisionEvent then
    row (t_decisionEvents db) ev_workspace_id (findingDecisionArchivePayload id) ev_detail
  else if kind ==? retentionNotificationPolicyRev then
    row (t_policyRevisions db) nr_workspace_id (λ r, Some (notificationPolicyRevisionArchivePayload id r)) nr_detail
  else if kind ==? retentionFindingChangeEvent then
    row (t_changeEvents db) ce_workspace_id (λ e, Some (findingChangeArchivePayload id e)) ce_detail
  else if kind ==? retentionNotificationPolicyEvent then
    row (t_policyEvents db) pe_workspace_id (λ e, Some (notificationPolicyEventArchivePayload id e)) pe_detail
  else None.
Definition readHistoryArchiveRecord (workspace kind id : string) : M DB historyArchiveRecord :=
  query (λ _ db, match historyRow workspace kind id db with
                 | Some (Some p, d) => Ok {| hrPayload := p; hrDetail := d |}
                 | Some (None, _) => Err ErrDecode
                 | None => Err ErrNoRows
                 end).

Definition ev_setDetail (e : DecisionEventRow) (d : HistoryDetail) : DecisionEventRow := {|
  ev_workspace_id := ev_workspace_id e; ev_finding_id := ev_finding_id e; ev_decision_revision := ev_decision_revision e;
  ev_actor_id := ev_actor_id e; ev_action := ev_action e; ev_rationale := ev_rationale e;
  ev_changed_fields := ev_changed_fields e; ev_before := ev_before e; ev_after := ev_after e;
  ev_created_at := ev_created_at e; ev_detail := d |}.
Definition nr_setDetail (r : PolicyRevisionRow) (d : HistoryDetail) : PolicyRevisionRow := {|
  nr_workspace_id := nr_workspace_id r; nr_policy_id := nr_policy_id r; nr_terms := nr_terms r;
  nr_actor_name := nr_actor_name r; nr_detail := d |}.
Definition ce_setDetail (e : ChangeEventRow) (d : HistoryDetail) : ChangeEventRow := {|
  ce_workspace_id := ce_workspace_id e; ce_finding_id := ce_finding_id e; ce_policy_epoch := ce_policy_epoch e;
  ce_title := ce_title e; ce_severity := ce_severity e; ce_asset_name := ce_asset_name e;
  ce_change_kind := ce_change_kind e; ce_change_revision := ce_change_revision e; ce_change_at := ce_change_at e;
  ce_job := ce_job e; ce_detail := d |}.
Definition pe_setDetail (e : PolicyEventRow) (d : HistoryDetail) : PolicyEventRow := {|
  pe_workspace_id := pe_workspace_id e; pe_policy_id := pe_policy_id e; pe_policy_revision := pe_policy_revision e;
  pe_finding_id := pe_finding_id e; pe_finding_change_revision := pe_finding_change_revision e;
  pe_outcome := pe_outcome e; pe_delivery_id := pe_delivery_id e; pe_created_at := pe_created_at e; pe_detail := d |}.

(** [UPDATE historyTable(kind) SET f WHERE workspace_id=$1 AND id=$2 AND detail_revision=$3 AND P]. *)
Definition updateHistory (workspace kind id : string) (revision : Z) (P : string → bool)
    (f : HistoryDetail → HistoryDetail) (db : DB) : Z * DB :=
  let Q (d : HistoryDetail) := (dt_revision d =? revision) && P (dt_availability d) in
  if kind ==? retentionFindingDecisionEvent then
    updateOne t_decisionEvents with_decisionEvents ev_workspace_id workspace id (λ e, Q (ev_detail e))
      (λ e, ev_setDetail e (f (ev_detail e))) db
  else if kind ==? retentionNotificationPolicyRev then
    updateOne t_policyRevisions with_policyRevisions nr_workspace_id workspace id (λ r, Q (nr_detail r))
      (λ r, nr_setDetail r (f (nr_detail r))) db
  else if kind ==? retentionFindingChangeEvent then
    updateOne t_changeEvents with_changeEvents ce_workspace_id workspace id (λ e, Q (ce_detail e))
      (λ e, ce_setDetail e (f (ce_detail e))) db
  else if kind ==? retentionNotificationPolicyEvent then
    updateOne t_policyEvents with_policyEvents pe_workspace_id workspace id (λ e, Q (pe_detail e))
      (λ e, pe_setDetail e (f (pe_detail e))) db
  else (0, db).
Definition archivedDetail (a : ArchiveRef) (d : HistoryDetail) : HistoryDetail :=
  {| dt_availability := "archived"; dt_revision := dt_revision d + 1; dt_archive := Some a |}.
Definition movedDetail (availability : string) (d : HistoryDetail) : HistoryDetail :=
  {| dt_availability := availability; dt_revision := dt_revision d + 1; dt_archive := dt_archive d |}.

(** ** Protection *)

Definition historyRetentionReasons (hold current pending active : bool) : list string :=
  (if hold then ["legal-hold"] else []) ++ (if current then ["current-policy-revision"] else []) ++
  (if pending then ["pending-policy-evaluation"] else []) ++ (if active then ["active-delivery"] else []).

Definition unevaluated (e : ChangeEventRow) : bool :=
  (ce_state (ce_job e) ==? CPending) || (ce_state (ce_job e) ==? CProcessing).
(** The terms in force, and an event still to be evaluated by this revision. *)
Definition currentRevision (r : PolicyRevisionRow) (db : DB) : bool :=
  match t_policies db !! nr_policy_id r with
  | Some p => (np_workspace_id p ==? nr_workspace_id r) && (pt_revision (np_terms p) =? pt_revision (nr_terms r))
  | None => false
  end.
Definition supersededFor (r : PolicyRevisionRow) (epoch : Z) (db : DB) : bool :=
  anyRow (λ _ l, (nr_workspace_id l ==? nr_workspace_id r) && (nr_policy_id l ==? nr_policy_id r) &&
                 (pt_epoch (nr_terms r) <? pt_epoch (nr_terms l)) && (pt_epoch (nr_terms l) <=? epoch)) (t_policyRevisions db).
Definition awaitsRevision (r : PolicyRevisionRow) (e : ChangeEventRow) (db : DB) : bool :=
  (ce_workspace_id e ==? nr_workspace_id r) && unevaluated e && (pt_epoch (nr_terms r) <=? ce_policy_epoch e) &&
  negb (supersededFor r (ce_policy_epoch e) db).
Definition pendingRevision (r : PolicyRevisionRow) (db : DB) : bool :=
  anyRow (λ _ e, awaitsRevision r e db) (t_changeEvents db).
(** The delivery an outcome queued is not finished. *)
Definition deliveryOf (e : PolicyEventRow) (db : DB) : option DeliveryRow :=
  id ← pe_delivery_id e; d ← t_deliveries db !! id;
  if dl_workspace_id (dl_intent (dl_meta d)) ==? pe_workspace_id e then Some d else None.
Definition activeDelivery (e : PolicyEventRow) (db : DB) : bool :=
  match deliveryOf e db with
  | Some d => (dl_state (dl_job d) ==? DQueued) || (dl_state (dl_job d) ==? DDispatching)
  | None => false
  end.

(** Current, pending and active, as the kind's own query finds them. *)
Definition historyConditions (workspace kind id : string) (db : DB) : Res (bool * bool * bool) :=
  let own {V} (table : gmap string V) (ws : V → string) :=
    match table !! id with Some x => if ws x ==? workspace then Some x else None | None => None end in
  if kind ==? retentionNotificationPolicyRev then
    match own (t_policyRevisions db) nr_workspace_id with
    | Some r => Ok (currentRevision r db, pendingRevision r db, false)
    | None => Ok (false, false, false)
    end
  else if kind ==? retentionFindingChangeEvent then
    match own (t_changeEvents db) ce_workspace_id with
    | Some e => Ok (false, unevaluated e, false)
    | None => Err ErrNoRows
    end
  else
    match own (t_policyEvents db) pe_workspace_id with
    | Some e => Ok (false, false, activeDelivery e db)
    | None => Err ErrNoRows
    end.
(** [q] runs a query: on the pool, or inside a transaction. *)
Definition historyProtection {S} (q : ∀ A, M DB A → M S A) (workspace kind id : string) : M S (list string) :=
  hold <- q bool (query (λ _ db, Ok (holdsOn workspace kind (λ r, r ==? id) db))) ;;
  conditions <- (if bool_decide (kind ∈ [retentionNotificationPolicyRev; retentionFindingChangeEvent; retentionNotificationPolicyEvent])
                 then q (bool * bool * bool)%type (query (λ _ db, historyConditions workspace kind id db))
                 else ret (false, false, false)) ;;
  let '(current, pending, active) := conditions in
  ret (historyRetentionReasons hold current pending active).
