(* ===== verification/RetentionArchive.v ===== *)
(** * Archives of the retention worker (internal/app/retention_worker.go, retention_history_archive.go)

    Archiving events, expiring and restoring archived observations, deleting
    orphaned archive objects, and the worker's loop body. *)
From S2P Require Import Prelude GoLib Encoding Tx ReportAdapter Schema Auth Intake Correlations Retention RetentionStore RetentionWorker RetentionActions.
Local Open Scope Z_scope.

Section archive.
Context {O : Type} `{!ObjectService O}.
Context (v : RetentionWorld (O:=O)) (w : retentionWorker).
Abbreviation db := (db v).
Abbreviation pause := (pause v).

(** ** archive-audit of a correlation event *)

Definition auditPayload (x : CorrelationEventRow) : list N :=
  bytes (marshal (JObject [("beforeState", rw_jsonb v (x_before_state x)); ("afterState", rw_jsonb v (x_after_state x))])).

Definition archiveAuditTx (run : retentionRunRecord) (item : retentionItemRecord) (p : archivePublication)
    (published : string * string) (data : list N) (revision : Z) : M DB retentionOutcome :=
  lockRetentionRun run ;;;
  reasons <- auditProtection (runWorkspace run) (itemResource item) ;;
  if negb (reasons ==? []) then
    finishArchivePublication p PbOrphan ;;;
    ret (protected "protected-after-archive-write" reasons)
  else
    at_ <- now ;;
    affected <- exec (λ _ d, updateEvent (runWorkspace run) (itemResource item)
      (λ x, (dt_revision (x_detail x) =? revision) && (dt_availability (x_detail x) ==? "available"))
      (archivedEvent {| ar_key := fst published; ar_digest := snd published;
                        ar_size := Z.of_nat (length data); ar_at := at_ |}) d) ;;
    guard (affected =? 1) errRetentionLeaseLost ;;;
    finishArchivePublication p PbReferenced ;;;
    ret (succeeded "archived").

Definition readEvent (workspace id : string) : M DB CorrelationEventRow :=
  query (λ _ d, match t_correlationEvents d !! id with
                | Some x => if x_workspace_id x ==? workspace then Ok x else Err ErrNoRows
                | None => Err ErrNoRows
                end).
Definition archiveAuditEvent (run : retentionRunRecord) (item : retentionItemRecord) : M (Ret O) retentionOutcome :=
  x <- db (readEvent (runWorkspace run) (itemResource item)) ;;
  let availability := dt_availability (x_detail x) in
  if availability ==? "archived" then ret (succeeded "already-archived")
  else if availability !=? "available" then ret stateChanged
  else
    reasons <- db (auditProtection (runWorkspace run) (itemResource item)) ;;
    if negb (reasons ==? []) then ret (protected "protected" reasons)
    else
      let data := auditPayload x in
      p <- beginArchivePublication v w run item "correlation-events" data ;;
      published <- publishArchive v w run item "correlation-events" data ;;
      db (transaction (archiveAuditTx run item p published data (dt_revision (x_detail x)))).

(** ** archive-audit of a history event *)

(** A publication of exactly this payload whose object is there. *)
Definition existingHistoryPublication (run : retentionRunRecord) (item : retentionItemRecord) (directory : string)
    (payload : list N) : M (Ret O) (option (string * string * archivePublication)) :=
  match archiveIdentity (wkStore w) (runWorkspace run) directory (itemResource item) payload with
  | Err e => throw e
  | Ok (key, digest) =>
      found <- db (query (λ _ d, Ok (publicationOf (runWorkspace run) key d))) ;;
      match found with
      | None => ret None
      | Some (id, p) =>
          if (pb_resource_kind p !=? itemKind item) || (pb_resource_id p !=? itemResource item) ||
             (pb_object_digest p !=? digest) || negb (pb_object_size p =? Z.of_nat (length payload))
          then ret None
          else handle (withRetentionLease v w pause run
                 (readArchive (wkStore w) (runWorkspace run) key digest (Z.of_nat (length payload)))) (λ read,
                 match read with
                 | Ok d => ret (if d ==? payload then Some (key, digest, {| pubID := id; pubRow := p |}) else None)
                 | Err _ => ret None
                 end)
      end
  end.
Definition publishHistory (run : retentionRunRecord) (item : retentionItemRecord) (directory : string) (payload : list N)
    : M (Ret O) (string * string * archivePublication) :=
  existing <- existingHistoryPublication run item directory payload ;;
  match existing with
  | Some x => ret x
  | None =>
      p <- beginArchivePublication v w run item directory payload ;;
      published <- publishArchive v w run item directory payload ;;
      ret (published, p)
  end.

Definition archiveHistoryTx (run : retentionRunRecord) (item : retentionItemRecord)
    (published : string * string * archivePublication) (payload : list N) : M DB retentionOutcome :=
  lockRetentionRun run ;;;
  current <- readHistoryArchiveRecord (runWorkspace run) (itemKind item) (itemResource item) ;;
  reasons <- historyProtection (λ A m, m) (runWorkspace run) (itemKind item) (itemResource item) ;;
  if (dt_availability (hrDetail current) !=? "available") || (hrPayload current !=? payload) then
    finishArchivePublication (snd published) PbOrphan ;;; ret stateChanged
  else if negb (reasons ==? []) then
    finishArchivePublication (snd published) PbOrphan ;;; ret (protected "protected" reasons)
  else
    at_ <- now ;;
    affected <- exec (λ _ d, updateHistory (runWorkspace run) (itemKind item) (itemResource item)
      (dt_revision (hrDetail current)) (λ a, a ==? "available")
      (archivedDetail {| ar_key := fst (fst published); ar_digest := snd (fst published);
                         ar_size := Z.of_nat (length payload); ar_at := at_ |}) d) ;;
    guard (affected =? 1) errRetentionLeaseLost ;;;
    finishArchivePublication (snd published) PbReferenced ;;;
    ret (succeeded "archived").
Definition archiveHistoryEvent (run : retentionRunRecord) (item : retentionItemRecord) : M (Ret O) retentionOutcome :=
  record <- db (readHistoryArchiveRecord (runWorkspace run) (itemKind item) (itemResource item)) ;;
  let availability := dt_availability (hrDetail record) in
  if availability ==? "archived" then ret (succeeded "already-archived")
  else if availability !=? "available" then ret stateChanged
  else
    reasons <- historyProtection (λ A, RetentionActions.db v) (runWorkspace run) (itemKind item) (itemResource item) ;;
    if negb (reasons ==? []) then ret (protected "protected" reasons)
    else
      published <- publishHistory run item (historyDirectory (itemKind item)) (hrPayload record) ;;
      db (transaction (archiveHistoryTx run item published (hrPayload record))).

(** ** expire-archive *)

(** archive_key and archive_size are scanned into values that are not NULL. *)
Definition scanArchive (o : ObservationRow) : Res ArchiveRef :=
  match oe_archive (ob_evidence o) with Some a => Ok a | None => Err ErrDecode end.

Definition clearObservationTransition (run : retentionRunRecord) (id : string) : M DB unit :=
  transaction (
    lockRetentionRun run ;;;
    exec (λ _ d, (tt, snd (updateObservation (runWorkspace run) id (λ o, expiringEvidence (ob_evidence o))
      (λ o, movedEvidence (oe_availability (ob_evidence o)) (oe_expired_at (ob_evidence o)) None o) d)))).
(** An archived copy found missing or corrupt; [f] is the new transition. *)
Definition markEvidence (run : retentionRunRecord) (item : retentionItemRecord) (revision : Z) (state : string)
    (f : option string → option string) : M DB unit :=
  transaction (
    lockRetentionRun run ;;;
    exec (λ _ d, (tt, snd (updateObservation (runWorkspace run) (itemResource item) (atRevision revision anyway)
      (λ o, movedEvidence state (oe_expired_at (ob_evidence o)) (f (oe_transition (ob_evidence o))) o) d)))).
Definition expiringTx (run : retentionRunRecord) (item : retentionItemRecord) (revision : Z) : M DB (list string) :=
  lockRetentionRun run ;;;
  reasons <- observationProtection (rw_assessed v) (runWorkspace run) (itemResource item) ;;
  if negb (reasons ==? []) then ret reasons
  else
    affected <- exec (λ _ d, updateObservation (runWorkspace run) (itemResource item)
      (atRevision revision (λ e, (oe_availability e ==? "archived") && negb (isSome (oe_transition e))))
      (λ o, movedEvidence (oe_availability (ob_evidence o)) (oe_expired_at (ob_evidence o)) (Some "expiring") o) d) ;;
    guard (affected =? 1) errRetentionLeaseLost ;;;
    ret [].
Definition expiredTx (run : retentionRunRecord) (item : retentionItemRecord) (revision : Z) (key : string) : M DB unit :=
  lockRetentionRun run ;;;
  at_ <- now ;;
  affected <- exec (λ _ d, updateObservation (runWorkspace run) (itemResource item) (atRevision revision expiringEvidence)
    (movedEvidence "expired" (Some at_) None) d) ;;
  guard (affected =? 1) errRetentionLeaseLost ;;;
  exec (λ _ d, (tt, with_publications (updateRows (λ _ p, (pb_workspace_id p ==? runWorkspace run) &&
      (pb_object_key p ==? key) && (pb_state p !=? PbDeleted)) (movedPublication PbDeleted at_) (t_publications d)) d)).

Definition expireCopy (run : retentionRunRecord) (item : retentionItemRecord) (a : ArchiveRef) (revision : Z) (gone : bool)
    : M (Ret O) retentionOutcome :=
  (if gone then ret tt
   else withRetentionLease v w pause run (deleteArchive (wkStore w) (runWorkspace run) (ar_key a))) ;;;
  db (transaction (expiredTx run item revision (ar_key a))) ;;;
  ret (succeeded "expired").
Definition recheckCopy (run : retentionRunRecord) (item : retentionItemRecord) (a : ArchiveRef) (revision : Z)
    : M (Ret O) retentionOutcome :=
  reasons <- db (observationProtection (rw_assessed v) (runWorkspace run) (itemResource item)) ;;
  if reasons ==? [] then expireCopy run item a revision false
  else
    there <- archiveEvidencePresent v w run a ;;
    if (there : bool)
    then db (clearObservationTransition run (itemResource item)) ;;; ret (protected "protected-before-delete" reasons)
    else expireCopy run item a revision true.

Definition expireObservationArchive (run : retentionRunRecord) (item : retentionItemRecord) : M (Ret O) retentionOutcome :=
  o <- db (readObservation run item) ;;
  a <- fromRes (scanArchive o) ;;
  let e := ob_evidence o in
  let revision := oe_revision e in
  if oe_availability e ==? "expired" then ret (succeeded "already-expired")
  else if (oe_availability e ==? "missing") || (oe_availability e ==? "corrupt") then ret (lostEvidence (oe_availability e))
  else if oe_availability e !=? "archived" then ret stateChanged
  else
    reasons <- db (observationProtection (rw_assessed v) (runWorkspace run) (itemResource item)) ;;
    if default "" (oe_transition e) ==? "" then
      if negb (reasons ==? []) then ret (protected "protected" reasons)
      else
        handle (withRetentionLease v w pause run
                 (readArchive (wkStore w) (runWorkspace run) (ar_key a) (ar_digest a) (ar_size a))) (λ read,
          match read with
          | Err e =>
              match evidenceAvailabilityError e with
              | None => throw e
              | Some (state, _) => db (markEvidence run item revision state (λ _, None)) ;;; ret (lostEvidence state)
              end
          | Ok _ =>
              reasons <- db (transaction (expiringTx run item revision)) ;;
              if negb (reasons ==? []) then ret (protected "protected" reasons)
              else recheckCopy run item a (revision + 1)
          end)
    else if reasons ==? [] then recheckCopy run item a revision
    else
      there <- archiveEvidencePresent v w run a ;;
      if (there : bool) then db (clearObservationTransition run (itemResource item)) ;;; ret (protected "protected" reasons)
      else expireCopy run item a revision true.

(** ** restore-archive *)

Definition restoreTx (run : retentionRunRecord) (item : retentionItemRecord) (revision : Z) (data : Observation) : M DB unit :=
  lockRetentionRun run ;;;
  affected <- exec (λ _ d, updateObservation (runWorkspace run) (itemResource item)
    (atRevision revision (λ e, bool_decide (oe_availability e ∈ ["archived"; "missing"; "corrupt"])))
    (restoredEvidence data) d) ;;
  guard (affected =? 1) errRetentionLeaseLost.
Definition restoreObservation (run : retentionRunRecord) (item : retentionItemRecord) : M (Ret O) retentionOutcome :=
  o <- db (readObservation run item) ;;
  a <- fromRes (scanArchive o) ;;
  let e := ob_evidence o in
  if oe_availability e ==? "available" then ret (succeeded "already-available")
  else if (oe_availability e ==? "expired") || (default "" (oe_transition e) !=? "") then ret stateChanged
  else
    handle (withRetentionLease v w pause run
             (readArchive (wkStore w) (runWorkspace run) (ar_key a) (ar_digest a) (ar_size a))) (λ read,
      match read with
      | Err x =>
          match evidenceAvailabilityError x with
          | None => throw x
          | Some (state, _) => db (markEvidence run item (oe_revision e) state (λ t, t)) ;;; ret (lostEvidence state)
          end
      | Ok data =>
          match rw_decode v data with
          | None => throw ErrDecode
          | Some observation =>
              db (transaction (restoreTx run item (oe_revision e) observation)) ;;; ret (succeeded "restored")
          end
      end).

(** ** delete-orphan *)

Definition lockPublication (workspace id : string) : M DB archivePublication :=
  query (λ _ d, match t_publications d !! id with
                | Some p => if pb_workspace_id p ==? workspace then Ok {| pubID := id; pubRow := p |} else Err ErrNoRows
                | None => Err ErrNoRows
                end).
Definition orphanStill (key digest : string) (revision at_ : Z) (p : PublicationRow) : bool :=
  (pb_object_key p ==? key) && (pb_object_digest p ==? digest) && (pb_revision p =? revision) &&
  ((pb_state p ==? PbPublishing) || (pb_state p ==? PbOrphan)) &&
  (pb_updated_at p <=? at_ - orphanArchiveGrace).
(** The transaction holds the row of the publication from its selection to the commit. *)
Definition deleteOrphanArchive (run : retentionRunRecord) (item : retentionItemRecord) : M (Ret O) retentionOutcome :=
  match ri_object (ri_meta (itemRow item)) with
  | None => throw errRetentionWork
  | Some (key, digest, revision) =>
      db (renewRetentionLease w run) ;;;
      p <- db (lockPublication (runWorkspace run) (itemResource item)) ;;
      at_ <- now ;;
      if negb (orphanStill key digest revision at_ (pubRow p)) then
        lift (transaction (ret tt)) ;;; ret stateChanged
      else
        let hold := pauseHolding v (pubID p) in
        hold ;;;
        referenced <- lift (query (λ _ d, Ok (archiveReferenceExists (runWorkspace run) (pb_object_key (pubRow p)) d))) ;;
        if (referenced : bool) then
          hold ;;; lift (transaction (finishArchivePublication p PbReferenced)) ;;;
          ret (protected "protected" ["archive-reference"])
        else
          handle (withRetentionLease v w hold run (readArchive (wkStore w) (runWorkspace run) (pb_object_key (pubRow p))
                   (pb_object_digest (pubRow p)) (pb_object_size (pubRow p)))) (λ read,
            let finish outcome :=
              hold ;;; lift (transaction (finishArchivePublication p PbDeleted)) ;;; ret (succeeded outcome) in
            match read with
            | Err EvidenceErrNotFound => finish "already-missing"
            | Ok _ | Err EvidenceErrIntegrity =>
                withRetentionLease v w hold run (deleteArchive (wkStore w) (runWorkspace run) (pb_object_key (pubRow p))) ;;;
                finish "deleted"
            | Err e => throw e
            end)
  end.

(** ** The worker *)

Definition processRetentionItem (run : retentionRunRecord) (item : retentionItemRecord) : M (Ret O) retentionOutcome :=
  let action := ri_action (ri_meta (itemRow item)) in
  if action ==? "archive-history" then archiveObservation v w run item
  else if action ==? "expire-raw-report" then expireRawReport v w run item
  else if action ==? "expire-archive" then expireObservationArchive run item
  else if action ==? "archive-audit" then
    if isHistoryRetentionKind (itemKind item) then archiveHistoryEvent run item else archiveAuditEvent run item
  else if action ==? "restore-archive" then restoreObservation run item
  else if action ==? "delete-orphan" then deleteOrphanArchive run item
  else throw errRetentionWork.

(** The claimed item acted on and its outcome recorded. *)
Definition processClaimed (run : retentionRunRecord) (item : retentionItemRecord) : M (Ret O) (bool * option error) :=
  let reported r := match r with Ok _ => ret (true, None) | Err e => ret (true, Some e) end in
  handle (processRetentionItem run item) (λ processed,
  match processed with
  | Err errRetentionLeaseLost => ret (true, None)
  | Err _ => handle (db (retryRetentionItem run item)) reported
  | Ok outcome =>
      handle (db (finishRetentionItem run item outcome)) (λ r,
        match r with Err errRetentionLeaseLost => ret (true, None) | _ => reported r end)
  end).
(** Whether there was work, and the error to report with it. *)
Definition ProcessNextRetention : M (Ret O) (bool * option error) :=
  handle (db (claimRetentionItem w)) (λ claimed,
  match claimed with
  | Err e => ret (false, Some e)
  | Ok None => ret (false, None)
  | Ok (Some None) => ret (true, None)
  | Ok (Some (Some (run, item))) => processClaimed run item
  end).
End archive.
