(* ===== verification/RetentionRuns.v ===== *)
(** * Retention runs and archived evidence (internal/app/retention_runs.go, retention_evidence.go)

    An administrator queues an approved preview, or the restoration of one
    observation, as a run with its items; readers fetch archived bytes, and
    what the read finds is recorded. *)
From S2P Require Import Prelude GoLib Encoding Tx ReportAdapter Jobs Schema Auth Intake Correlations Retention RetentionStore RetentionWorker RetentionActions.
Local Open Scope Z_scope.

Definition validDigest (value : string) : bool := digestPattern value.
Definition isApproved (p : PreviewRow) : bool := pv_state p ==? PvApproved.

(** ** Previews *)

Record RetentionPreview := { pvID : string; pvRow : PreviewRow; pvItems : list RetentionPreviewItem }.

(** The items of a preview by ordinal. *)
Definition itemOrdinalLe (a b : (string * Z) * PreviewItemRow) : Prop := a.1.2 ≤ b.1.2.
#[export] Instance itemOrdinalLe_dec a b : Decision (itemOrdinalLe a b).
Proof. unfold itemOrdinalLe. apply _. Defined.
Definition previewItems (workspace id : string) (db : DB) : list ((string * Z) * PreviewItemRow) :=
  merge_sort itemOrdinalLe (rowsWhere (λ k i, (pi_workspace_id i ==? workspace) && (k.1 ==? id)) (t_previewItems db)).

Definition previewOf (workspace id : string) (db : DB) : option PreviewRow :=
  match t_previews db !! id with
  | Some p => if pv_workspace_id p ==? workspace then Some p else None
  | None => None
  end.
Definition loadRetentionPreview (workspace id : string) : M DB RetentionPreview :=
  row <- query (λ _ db, match previewOf workspace id db with Some p => Ok p | None => Err ErrNoRows end) ;;
  items <- query (λ _ db, Ok (previewItems workspace id db)) ;;
  ret {| pvID := id; pvRow := row; pvItems := (λ r, pi_item r.2) <$> items |}.
Definition getRetentionPreview : string → string → M DB RetentionPreview := loadRetentionPreview.

(** ** Runs *)

Record RetentionRun := { rnID : string; rnRow : RunRow; rnItems : list (string * RunItemRow) }.

Definition itemLe (a b : string * RunItemRow) : Prop := ri_ordinal (ri_meta a.2) ≤ ri_ordinal (ri_meta b.2).
#[export] Instance itemLe_dec a b : Decision (itemLe a b).
Proof. unfold itemLe. apply _. Defined.
Definition runItems (workspace run : string) (db : DB) : list (string * RunItemRow) :=
  merge_sort itemLe (rowsWhere (λ _ i, itemOf workspace run i) (t_runItems db)).
Definition runOf (workspace id : string) (db : DB) : option RunRow :=
  match t_retentionRuns db !! id with
  | Some r => if rr_workspace_id (rr_meta r) ==? workspace then Some r else None
  | None => None
  end.
Definition loadRetentionRun (workspace id : string) : M DB RetentionRun :=
  row <- query (λ _ db, match runOf workspace id db with Some r => Ok r | None => Err ErrNoRows end) ;;
  items <- query (λ _ db, Ok (runItems workspace id db)) ;;
  ret {| rnID := id; rnRow := row; rnItems := items |}.
Definition getRetentionRun : string → string → M DB RetentionRun := loadRetentionRun.

(** Succeeded, Protected, Missing, Corrupt and Failed of the answer. *)
Definition runCount (state : ristate) (r : RetentionRun) : Z :=
  Z.of_nat (length (filter (λ i : string * RunItemRow, ri_state (ri_job i.2) = state) (rnItems r))).
(** A failure of an item that will be tried again. *)
Definition itemRetryable (i : RunItemRow) : bool :=
  match ri_failure (ri_job i) with
  | Some (code, _) => (ri_state (ri_job i) ==? RiQueued) && (code ==? "retention-action-failed")
  | None => false
  end.

Definition retentionRunDigest (v : JSON) : string := reportDigest (bytes (marshal v)).

Definition sameRunKey (workspace key : string) (r : RunRow) : bool :=
  (rr_workspace_id (rr_meta r) ==? workspace) && (rr_idempotency_key (rr_meta r) ==? key).
Definition retentionRunReplay (workspace key digest : string) : M DB (option string) :=
  found <- query (λ _ db, Ok (findRow (λ _ r, sameRunKey workspace key r) (t_retentionRuns db))) ;;
  match found with
  | None => ret None
  | Some (id, r) => guard (rr_binding_digest (rr_meta r) ==? digest) errConflict ;;; ret (Some id)
  end.

Definition queuedRun (available : Z) (m : RunMeta) : RunRow := {|
  rr_meta := m;
  rr_job := {| rr_state := RQueued; rr_completed_at := None; rr_available_at := available; rr_worker_id := None;
               rr_fence := 0; rr_attempts := 0; rr_lease_until := None; rr_failure := None |} |}.
(** The foreign keys and the unique key of a run. *)
Definition runCheck (m : RunMeta) (db : DB) : option error :=
  if negb (membership (rr_workspace_id m) (rr_requested_by m) db) ||
     match rr_operation m with
     | ApplyPreview p => negb (isSome (previewOf (rr_workspace_id m) p db))
     | RestoreObservation _ => false
     end
  then Some ErrConstraint
  else if anyRow (λ _ r, sameRunKey (rr_workspace_id m) (rr_idempotency_key m) r) (t_retentionRuns db)
  then Some ErrUnique else None.
(** available_at is the clock of the statement. *)
Definition insertRun (id : string) (m : RunMeta) : M DB unit :=
  stmt (λ t db, match runCheck m db with
                | Some e => Err e
                | None => match insertRow id (queuedRun t m) (t_retentionRuns db) with
                          | Ok rs => Ok (tt, with_retentionRuns rs db)
                          | Err e => Err e
                          end
                end).

Definition queuedItem (m : RunItemMeta) : RunItemRow := {|
  ri_meta := m;
  ri_job := {| ri_state := RiQueued; ri_reasons := []; ri_outcome := ""; ri_attempts := 0; ri_failure := None;
               ri_started_at := None; ri_completed_at := None |} |}.
(** Its run, the ordinal (0 to 199, once per run) and the resource (once per run and action). *)
Definition itemCheck (m : RunItemMeta) (db : DB) : option error :=
  if negb (isSome (runOf (ri_workspace_id m) (ri_run_id m) db)) ||
     negb ((0 <=? ri_ordinal m) && (ri_ordinal m <=? 199)) then Some ErrConstraint
  else if anyRow (λ _ i, itemOf (ri_workspace_id m) (ri_run_id m) i &&
            ((ri_ordinal (ri_meta i) =? ri_ordinal m) ||
             (ri_kind (ri_meta i) ==? ri_kind m) && (ri_resource_id (ri_meta i) ==? ri_resource_id m) &&
             (ri_action (ri_meta i) ==? ri_action m))) (t_runItems db)
  then Some ErrUnique else None.
Definition insertItem (m : RunItemMeta) : M DB unit :=
  id <- newID ;;
  insertInto t_runItems with_runItems (itemCheck m) id (queuedItem m).

Definition executionMeta (workspace run : string) (ordinal : Z) (i : RetentionPreviewItem) : RunItemMeta := {|
  ri_workspace_id := workspace; ri_run_id := run; ri_ordinal := ordinal; ri_class := pi_class i; ri_kind := pi_kind i;
  ri_resource_id := pi_resource_id i; ri_action := pi_action i; ri_object := pi_object i |}.

(** The rows read back with the ordinals 0, 1, ... *)
Fixpoint inSequence (from : Z) (l : list ((string * Z) * PreviewItemRow)) : bool :=
  match l with [] => true | r :: l' => (r.1.2 =? from) && inSequence (from + 1) l' end.

Definition queueExecutionTx (workspace actor previewID snapshot rationale key binding : string) (revision : Z)
    : M DB (Z * RetentionRun) :=
  replay <- retentionRunReplay workspace key binding ;;
  match replay with
  | Some id => run <- loadRetentionRun workspace id ;; ret (200, run)
  | None =>
      preview <- loadRetentionPreview workspace previewID ;;
      guard (isApproved (pvRow preview) && (pv_revision (pvRow preview) =? revision) &&
             (pv_snapshot_digest (pvRow preview) ==? snapshot)) errConflict ;;;
      run <- newID ;;
      at_ <- now ;;
      insertRun run {| rr_workspace_id := workspace; rr_operation := ApplyPreview previewID; rr_requested_by := actor;
        rr_rationale := rationale; rr_idempotency_key := key; rr_binding_digest := binding; rr_created_at := at_ |} ;;;
      items <- query (λ _ db, Ok (previewItems workspace previewID db)) ;;
      guard (inSequence 0 items) errConflict ;;;
      mapM (λ r, insertItem (executionMeta workspace run r.1.2 (pi_item r.2))) items ;;;
      loaded <- loadRetentionRun workspace run ;;
      ret (202, loaded)
  end.
Definition executionBinding (workspace actor preview snapshot rationale key : string) (revision : Z) : string :=
  retentionRunDigest (JObject [("Workspace", JString workspace); ("Actor", JString actor); ("Preview", JString preview);
    ("Snapshot", JString snapshot); ("Rationale", JString rationale); ("Key", JString key); ("Revision", JInt revision)]).
Definition queueRetentionExecution (workspace actor previewID snapshot rationale key : string) (revision : Z)
    : M DB (Z * RetentionRun) :=
  guard ((1 <=? revision) && validDigest snapshot && validText rationale 8192 && validText key 256) errInvalid ;;;
  transaction (queueExecutionTx workspace actor previewID snapshot rationale key
    (executionBinding workspace actor previewID snapshot rationale key revision) revision).

Definition queueRestoreTx (workspace actor observation rationale key binding : string) : M DB (Z * RetentionRun) :=
  replay <- retentionRunReplay workspace key binding ;;
  match replay with
  | Some id => run <- loadRetentionRun workspace id ;; ret (200, run)
  | None =>
      o <- query (λ _ db, match observationOf workspace observation db with Some o => Ok o | None => Err ErrNoRows end) ;;
      guard ((oe_availability (ob_evidence o) ==? "archived") && (default "" (oe_transition (ob_evidence o)) ==? ""))
        errConflict ;;;
      run <- newID ;;
      at_ <- now ;;
      insertRun run {| rr_workspace_id := workspace; rr_operation := RestoreObservation observation;
        rr_requested_by := actor; rr_rationale := rationale; rr_idempotency_key := key; rr_binding_digest := binding;
        rr_created_at := at_ |} ;;;
      insertItem {| ri_workspace_id := workspace; ri_run_id := run; ri_ordinal := 0; ri_class := "archived-evidence";
        ri_kind := "observation"; ri_resource_id := observation; ri_action := "restore-archive"; ri_object := None |} ;;;
      loaded <- loadRetentionRun workspace run ;;
      ret (202, loaded)
  end.
Definition queueObservationRestore (workspace actor observation rationale key : string) : M DB (Z * RetentionRun) :=
  guard (validText rationale 8192 && validText key 256) errInvalid ;;;
  transaction (queueRestoreTx workspace actor observation rationale key
    (retentionRunDigest (JObject [("Workspace", JString workspace); ("Actor", JString actor);
      ("Observation", JString observation); ("Rationale", JString rationale); ("Key", JString key)]))).

(** ** Reading archived evidence *)

Definition sourceEvidenceLimit : Z := 32 * 1024 * 1024.

Section reading.
Context {O : Type} `{!ObjectService O}.
(** [reader]: the prefix the archive reader is configured with, if any. *)
Context (v : RetentionWorld (O:=O)) (reader : option string).
Abbreviation db := (db v).

Definition readExact (prefix workspace : string) (a : ArchiveRef) : M (Ret O) (list N) :=
  guard ((0 <=? ar_size a) && (ar_size a <=? sourceEvidenceLimit)) EvidenceErrOther ;;;
  readVerified prefix workspace (ar_key a) (ar_digest a) (ar_size a).

(** The availability a read found, recorded at the revision that was read. *)
Definition recordObservation (workspace id : string) (revision : Z) (states : list string) (state : string) : M DB unit :=
  exec (λ _ d, (tt, snd (updateObservation workspace id
    (atRevision revision (λ e, bool_decide (oe_availability e ∈ states)))
    (λ o, movedEvidence state (oe_expired_at (ob_evidence o)) (oe_transition (ob_evidence o)) o) d))).

(** The bytes shown: the stored JSON, or the archived copy. *)
Definition observationEvidence (workspace id : string) : M (Ret O) (list N) :=
  o <- db (query (λ _ d, match observationOf workspace id d with Some o => Ok o | None => Err ErrNoRows end)) ;;
  let e := ob_evidence o in
  guard (oe_availability e !=? "expired") errEvidenceExpired ;;;
  guard (default "" (oe_transition e) ==? "") errUnavailable ;;;
  if oe_availability e ==? "available" then
    ret (match oe_data e with
         | Some d => rw_text v d
         | None => match oe_summary e with Some s => rw_text v s | None => [] end
         end)
  else match reader, oe_archive e with
  | Some prefix, Some a =>
      handle (pause v ;;; readExact prefix workspace a) (λ read,
        match read with
        | Err x =>
            match evidenceAvailabilityError x with
            | None => throw x
            | Some (state, problem) =>
                db (recordObservation workspace id (oe_revision e) ["archived"; "missing"; "corrupt"] state) ;;;
                throw problem
            end
        | Ok data =>
            (if oe_availability e !=? "archived" then
               db (recordObservation workspace id (oe_revision e) ["missing"; "corrupt"] "archived")
             else ret tt) ;;;
            ret data
        end)
  | _, _ => throw errUnavailable
  end.

(** [historyEvidence]: the archived document and the detail revision shown. *)
Definition historyEvidence (workspace kind id : string) : M (Ret O) (list N * Z) :=
  record <- db (readHistoryArchiveRecord workspace kind id) ;;
  let d := hrDetail record in
  let revision := dt_revision d in
  guard (dt_availability d !=? "available") errHistoryNotArchived ;;;
  match reader, dt_archive d with
  | Some prefix, Some a =>
      guard ((ar_key a !=? "") && (ar_digest a !=? "") && (0 <=? ar_size a)) errUnavailable ;;;
      let record_ states state := exec (λ _ d, updateHistory workspace kind id revision
        (λ x, bool_decide (x ∈ (states : list string))) (movedDetail state) d) in
      handle (pause v ;;; readExact prefix workspace a) (λ read,
        match read with
        | Err x =>
            match evidenceAvailabilityError x with
            | None => throw x
            | Some (state, problem) => db (record_ ["archived"; "missing"; "corrupt"] state) ;;; throw problem
            end
        | Ok data =>
            if dt_availability d !=? "archived" then
              affected <- db (record_ ["missing"; "corrupt"] "archived") ;;
              ret (data, if affected =? 1 then revision + 1 else revision)
            else ret (data, revision)
        end)
  | _, _ => throw errUnavailable
  end.
End reading.
