(* ===== verification/RetentionPreviews.v ===== *)
(** * Retention previews (internal/app/retention.go, retention_history.go)

    A preview lists what the policy would act on now, at most 200 resources,
    with what protects each; its digest binds the list to the revisions of
    everything the decision rests on.  Approval recomputes the list. *)
From stdpp Require Import pretty.
From S2P Require Import Prelude GoLib Encoding Tx ReportAdapter Schema Auth Intake Correlations Retention RetentionStore RetentionWorker RetentionActions RetentionRuns.
Local Open Scope Z_scope.

Definition retentionPreviewLimit : nat := 200.
Definition retentionPreviewTTL : Z := 15 * 60 * 1000000.
Definition dayMicro : Z := 86400 * 1000000.

Record retentionSnapshotItem := { siItem : RetentionPreviewItem; siBinding : string }.
Record retentionSnapshot := {
  snPolicy : RetentionPolicyRow; snSummaries : list RetentionClassSummary; snItems : list retentionSnapshotItem }.

Definition newRetentionSummaries (p : RetentionPolicyRow) : list RetentionClassSummary :=
  (λ '(class, action, days), {| SumClass := class; SumAction := action; SumRetainDays := days; SumTotalCount := 0;
     SumEligibleCount := 0; SumProtectedCount := 0; SumSizeBytes := 0 |}) <$>
  [("hot-history", "archive-history", rp_hot_history_days p);
   ("archived-evidence", "expire-archive", rp_archived_evidence_days p);
   ("raw-report", "expire-raw-report", rp_raw_report_days p);
   ("audit", "archive-audit", rp_audit_days p);
   ("orphan-archive", "delete-orphan", 1)].

Definition countItem (i : RetentionPreviewItem) (s : RetentionClassSummary) : RetentionClassSummary :=
  let eligible := pi_reasons i ==? [] in
  {| SumClass := SumClass s; SumAction := SumAction s; SumRetainDays := SumRetainDays s;
     SumTotalCount := SumTotalCount s + 1;
     SumEligibleCount := if eligible then SumEligibleCount s + 1 else SumEligibleCount s;
     SumProtectedCount := if eligible then SumProtectedCount s else SumProtectedCount s + 1;
     SumSizeBytes := if eligible then SumSizeBytes s + pi_size i else SumSizeBytes s |}.
(** The first summary of the item's class. *)
Fixpoint countIn (i : RetentionPreviewItem) (l : list RetentionClassSummary) : list RetentionClassSummary :=
  match l with
  | [] => []
  | s :: l' => if SumClass s ==? pi_class i then countItem i s :: l' else s :: countIn i l'
  end.
Definition addRetentionItem (i : retentionSnapshotItem) (s : retentionSnapshot) : retentionSnapshot := {|
  snPolicy := snPolicy s; snSummaries := countIn (siItem i) (snSummaries s); snItems := snItems s ++ [i] |}.
(** The rows of one query, added until there are too many. *)
Fixpoint appendItems (l : list retentionSnapshotItem) (s : retentionSnapshot) : Res retentionSnapshot :=
  match l with
  | [] => Ok s
  | i :: l' =>
      let s' := addRetentionItem i s in
      if (retentionPreviewLimit <? length (snItems s'))%nat then Err errTooLarge else appendItems l' s'
  end.

Definition boolString (b : bool) : string := if b then "true" else "false".
Definition intString (z : Z) : string := pretty z.

(** [string_agg(h.id||':'||h.revision,',' ORDER BY h.id)] over the open holds that match. *)
Definition holdNames (workspace : string) (P : HoldRow → bool) (db : DB) : string :=
  joinWith "," ((λ h : string * HoldRow, h.1 +:+ ":" +:+ pretty (h_revision h.2)) <$>
    rowsById (λ _ h, openHold h && (h_workspace_id h ==? workspace) && P h) (t_holds db)).
Definition onResource (kind id : string) (h : HoldRow) : bool :=
  (h_resource_kind h ==? kind) && (h_resource_id h ==? id).

Definition limited {V} (l : list V) : list V := take (retentionPreviewLimit + 1) l.
(** [ORDER BY time,id]. *)
Definition timeLe {V} (time : V → Z) (a b : string * V) : Prop :=
  (time a.2 <? time b.2) || (time a.2 =? time b.2) && strLe a.1 b.1 = true.
#[export] Instance timeLe_dec {V} (time : V → Z) a b : Decision (timeLe time a b).
Proof. unfold timeLe. apply _. Defined.
Definition rowsByTime {V} (time : V → Z) (P : string → V → bool) (m : gmap string V) : list (string * V) :=
  merge_sort (timeLe time) (rowsWhere P m).

Definition previewItem (class kind action id : string) (observed size : Z) (reasons : list string) : RetentionPreviewItem := {|
  pi_class := class; pi_kind := kind; pi_resource_id := id; pi_action := action; pi_observed_at := observed;
  pi_size := size; pi_reasons := reasons; pi_object := None |}.

Section snapshot.
(** Assessments; the text of jsonb values and of epochs as PostgreSQL writes them. *)
Context (assessed : Z → string → string → bool) (text : Observation → list N) (jsonText : JSON → list N)
  (epochText : Z → string).

(** An observation with the import and the finding it joins. *)
Definition joined (workspace : string) (o : ObservationRow) (db : DB) : option (string * ImportRow * FindingRow) :=
  i ← importOfRun workspace (ob_run_id o) db;
  f ← t_findings db !! ob_finding_id o;
  if f_workspace_id f ==? workspace then Some (i.1, i.2, f) else None.
Definition evidenceHolds (workspace id import : string) (db : DB) : string :=
  holdNames workspace (λ h, onResource "observation" id h || onResource "import" import h) db.
Definition assessmentReason (b : bool) : list string := if b then ["assessment-reference"] else [].
Definition textSize (o : ObservationRow) : Z :=
  match oe_data (ob_evidence o) with Some d => Z.of_nat (length (text d)) | None => 0 end.

(** ** Hot history *)
Definition hotItem (t : Z) (workspace : string) (db : DB) (r : string * ObservationRow) : option retentionSnapshotItem :=
  let '(id, o) := r in
  '(import, i, f) ← joined workspace o db;
  let holds := evidenceHolds workspace id import db in
  let assessment := assessed t workspace id in
  let observed := i_imported_at (i_meta i) in
  Some {| siItem := previewItem "hot-history" "observation" "archive-history" id observed (textSize o)
            (retentionReasons (holds !=? "") (activeDecision (ob_finding_id o) f db) false "" ++ assessmentReason assessment);
          siBinding := joinWith "|" [id; import; ob_finding_id o; timeString observed; holds;
            intString (d_decision_revision (f_decision f)); intString (f_evidence_revision f);
            intString (countRows (λ _ s, ofRun workspace (ob_run_id o) s) (t_observations db)); boolString assessment] |}.
Definition hotRows (workspace : string) (cutoff : Z) (db : DB) : list (string * ObservationRow) :=
  limited (rowsById (λ _ o, (ob_workspace_id o ==? workspace) && (oe_availability (ob_evidence o) ==? "available") &&
    match joined workspace o db with Some (_, i, _) => i_imported_at (i_meta i) <=? cutoff | None => false end) (t_observations db)).
Definition appendHotHistory (workspace : string) (cutoff : Z) (s : retentionSnapshot) : M DB retentionSnapshot :=
  items <- query (λ t db, Ok (omap (hotItem t workspace db) (hotRows workspace cutoff db))) ;;
  fromRes (appendItems items s).

(** ** Raw reports *)
Definition runObservations (workspace run : string) (db : DB) : list (string * ObservationRow) :=
  rowsById (λ _ o, ofRun workspace run o) (t_observations db).
Definition findingBinding (workspace : string) (db : DB) (o : string * ObservationRow) : option string :=
  f ← t_findings db !! ob_finding_id o.2;
  if f_workspace_id f ==? workspace then
    Some (ob_finding_id o.2 +:+ ":" +:+ pretty (d_decision_revision (f_decision f)) +:+ ":" +:+ pretty (f_evidence_revision f))
  else None.
Definition strOrd (a b : string) : Prop := strLe a b = true.
#[export] Instance strOrd_dec a b : Decision (strOrd a b).
Proof. unfold strOrd. apply _. Defined.
Definition importStateText (s : istate) : string :=
  match s with IQueued => "queued" | IProcessing => "processing" | ISucceeded => "succeeded" | IFailed => "failed" end.
Definition rawItem (t : Z) (workspace : string) (db : DB) (r : string * ImportRow) : retentionSnapshotItem :=
  let '(id, i) := r in
  let m := i_meta i in
  let mine := runObservations workspace (i_run_id m) db in
  let holds := holdNames workspace (λ h, onResource "import" id h ||
    (h_resource_kind h ==? "observation") && existsb (λ p : string * ObservationRow, p.1 ==? h_resource_id h) mine) db in
  let assessment := existsb (λ p : string * ObservationRow, assessed t workspace p.1) mine in
  let references := Z.of_nat (length mine) in
  let decisions := joinWith "," (merge_sort strOrd (remove_dups (omap (findingBinding workspace db) mine))) in
  {| siItem := previewItem "raw-report" "import" "expire-raw-report" id (i_imported_at m) (i_report_size m)
       (retentionReasons (holds !=? "") (existsb (λ p : string * ObservationRow, decidedObservation p.2 db) mine)
          (1 <? references) (if assessment then "assessment-reference" else ""));
     siBinding := joinWith "|" [id; i_run_id m; timeString (i_imported_at m); intString (i_report_size m); i_report_digest m;
       i_report_key m; importStateText (i_state (i_job i)); intString references; boolString assessment; decisions; holds] |}.
Definition rawRows (workspace : string) (cutoff : Z) (db : DB) : list (string * ImportRow) :=
  limited (rowsById (λ _ i, (i_workspace_id (i_meta i) ==? workspace) && (i_imported_at (i_meta i) <=? cutoff) &&
    bool_decide (i_state (i_job i) ∈ [ISucceeded; IFailed]) &&
    (i_evidence_availability (i_evidence i) ==? "available")) (t_imports db)).
Definition appendRawReports (workspace : string) (cutoff : Z) (s : retentionSnapshot) : M DB retentionSnapshot :=
  items <- query (λ t db, Ok (rawItem t workspace db <$> rawRows workspace cutoff db)) ;;
  fromRes (appendItems items s).

(** ** Archived evidence *)
Definition archivedItem (t : Z) (workspace : string) (db : DB) (r : string * ObservationRow) : option retentionSnapshotItem :=
  let '(id, o) := r in
  '(import, _, f) ← joined workspace o db;
  a ← oe_archive (ob_evidence o);
  let holds := evidenceHolds workspace id import db in
  let assessment := assessed t workspace id in
  Some {| siItem := previewItem "archived-evidence" "observation" "expire-archive" id (ar_at a) (ar_size a)
            (retentionReasons (holds !=? "") (activeDecision (ob_finding_id o) f db) false "" ++ assessmentReason assessment);
          siBinding := joinWith "|" [id; import; ob_finding_id o; timeString (ar_at a); intString (ar_size a);
            intString (oe_revision (ob_evidence o)); intString (d_decision_revision (f_decision f));
            intString (f_evidence_revision f); holds; boolString assessment] |}.
Definition archivedRows (workspace : string) (cutoff : Z) (db : DB) : list (string * ObservationRow) :=
  limited (rowsById (λ _ o, (ob_workspace_id o ==? workspace) && (oe_availability (ob_evidence o) ==? "archived") &&
    isSome (joined workspace o db) &&
    match oe_archive (ob_evidence o) with Some a => ar_at a <=? cutoff | None => false end) (t_observations db)).
Definition appendArchivedEvidence (workspace : string) (cutoff : Z) (s : retentionSnapshot) : M DB retentionSnapshot :=
  items <- query (λ t db, Ok (omap (archivedItem t workspace db) (archivedRows workspace cutoff db))) ;;
  fromRes (appendItems items s).

(** ** Audit *)
Definition groupOfEvent (x : CorrelationEventRow) (db : DB) : option CorrelationRow :=
  c ← t_correlations db !! x_correlation_id x;
  if g_workspace_id c ==? x_workspace_id x then Some c else None.
Definition groupStateText (c : CorrelationRow) : string := if g_active c then "active" else "split".
Definition auditItem (workspace : string) (db : DB) (r : string * CorrelationEventRow) : option retentionSnapshotItem :=
  let '(id, x) := r in
  c ← groupOfEvent x db;
  let size := Z.of_nat (length (jsonText (x_before_state x))) + Z.of_nat (length (jsonText (x_after_state x))) + len (x_rationale x) in
  let holds := holdNames workspace (onResource "correlation-event" id) db in
  Some {| siItem := previewItem "audit" "correlation-event" "archive-audit" id (x_created_at x) size
            (retentionReasons (holds !=? "") false false "" ++ (if g_active c then ["active-correlation"] else []));
          siBinding := joinWith "|" [id; timeString (x_created_at x); intString size; groupStateText c;
            intString (g_revision c); holds] |}.
Definition auditRows (workspace : string) (cutoff : Z) (db : DB) : list (string * CorrelationEventRow) :=
  limited (rowsById (λ _ x, (x_workspace_id x ==? workspace) && (x_created_at x <=? cutoff) &&
    (dt_availability (x_detail x) ==? "available") && isSome (groupOfEvent x db)) (t_correlationEvents db)).
Definition appendAudit (workspace : string) (cutoff : Z) (s : retentionSnapshot) : M DB retentionSnapshot :=
  items <- query (λ _ db, Ok (omap (auditItem workspace db) (auditRows workspace cutoff db))) ;;
  fromRes (appendItems items s).
End snapshot.
