(* ===== verification/RetentionApproval.v ===== *)
(** * Snapshots, previews and their approval (internal/app/retention.go, retention_history.go)

    The history tables and the orphaned archives of a snapshot, the snapshot's
    order and digest, and the handlers that record and approve a preview. *)
From stdpp Require Import pretty.
From S2P Require Import Prelude GoLib Encoding Tx ReportAdapter Schema Auth Intake Correlations Retention RetentionStore RetentionWorker RetentionActions RetentionRuns RetentionPreviews.
Local Open Scope Z_scope.

Definition historyPayloadBinding (payload : list N) (authority : list string) : string :=
  joinWith "|" (hex (Sum256 payload) :: authority).
Definition historyItem (kind id : string) (observed : Z) (payload : list N) (reasons authority : list string)
    : retentionSnapshotItem := {|
  siItem := previewItem "audit" kind "archive-audit" id observed (Z.of_nat (length payload)) reasons;
  siBinding := historyPayloadBinding payload authority |}.
Definition available (d : HistoryDetail) : bool := dt_availability d ==? "available".

Section snapshot.
Context (assessed : Z → string → string → bool) (text : Observation → list N) (jsonText : JSON → list N)
  (epochText : Z → string).

(** ** History *)

Definition historyHolds (workspace kind id : string) (db : DB) : string := holdNames workspace (onResource kind id) db.

(** A row that does not encode fails the whole query. *)
Definition decisionHistoryItem (workspace : string) (db : DB) (r : string * DecisionEventRow) : Res retentionSnapshotItem :=
  match encoded (findingDecisionArchivePayload r.1 r.2) with
  | None => Err ErrDecode
  | Some payload =>
      let holds := historyHolds workspace retentionFindingDecisionEvent r.1 db in
      Ok (historyItem retentionFindingDecisionEvent r.1 (ev_created_at r.2) payload
            (historyRetentionReasons (holds !=? "") false false false) [holds])
  end.
Fixpoint mapRes {A B} (f : A → Res B) (l : list A) : Res (list B) :=
  match l with
  | [] => Ok []
  | x :: l' => match f x, mapRes f l' with Ok y, Ok ys => Ok (y :: ys) | Err e, _ => Err e | _, Err e => Err e end
  end.
Definition decisionRows (workspace : string) (cutoff : Z) (db : DB) : list (string * DecisionEventRow) :=
  limited (rowsByTime ev_created_at (λ _ e, (ev_workspace_id e ==? workspace) && (ev_created_at e <=? cutoff) &&
    available (ev_detail e)) (t_decisionEvents db)).
Definition appendFindingDecisionHistory (workspace : string) (cutoff : Z) (s : retentionSnapshot) : M DB retentionSnapshot :=
  items <- query (λ _ db, mapRes (decisionHistoryItem workspace db) (decisionRows workspace cutoff db)) ;;
  fromRes (appendItems items s).

(** The events that wait for a revision, by id. *)
Definition pendingNames (r : PolicyRevisionRow) (db : DB) : string :=
  joinWith "," ((λ e : string * ChangeEventRow, joinWith ":" [e.1; pretty (ce_policy_epoch e.2);
      changeStateText (ce_state (ce_job e.2)); default "" (ce_worker_id (ce_job e.2)); pretty (ce_fence (ce_job e.2));
      match ce_lease_until (ce_job e.2) with Some u => epochText u | None => "" end]) <$>
    rowsById (λ _ e, awaitsRevision r e db) (t_changeEvents db)).
Definition revisionHistoryItem (workspace : string) (db : DB) (r : string * PolicyRevisionRow) : retentionSnapshotItem :=
  let payload := bytes (marshal (notificationPolicyRevisionArchivePayload r.1 r.2)) in
  let holds := historyHolds workspace retentionNotificationPolicyRev r.1 db in
  let current := currentRevision r.2 db in
  let pending := pendingNames r.2 db in
  historyItem retentionNotificationPolicyRev r.1 (pt_updated_at (nr_terms r.2)) payload
    (historyRetentionReasons (holds !=? "") current (pending !=? "") false) [boolString current; pending; holds].
Definition revisionRows (workspace : string) (cutoff : Z) (db : DB) : list (string * PolicyRevisionRow) :=
  limited (rowsByTime (λ r, pt_updated_at (nr_terms r)) (λ _ r, (nr_workspace_id r ==? workspace) &&
    (pt_updated_at (nr_terms r) <=? cutoff) && available (nr_detail r)) (t_policyRevisions db)).
Definition appendNotificationPolicyRevisionHistory (workspace : string) (cutoff : Z) (s : retentionSnapshot)
    : M DB retentionSnapshot :=
  items <- query (λ _ db, Ok (revisionHistoryItem workspace db <$> revisionRows workspace cutoff db)) ;;
  fromRes (appendItems items s).

Definition changeHistoryItem (workspace : string) (db : DB) (r : string * ChangeEventRow) : retentionSnapshotItem :=
  let payload := bytes (marshal (findingChangeArchivePayload r.1 r.2)) in
  let holds := historyHolds workspace retentionFindingChangeEvent r.1 db in
  historyItem retentionFindingChangeEvent r.1 (ce_change_at r.2) payload
    (historyRetentionReasons (holds !=? "") false (unevaluated r.2) false) [holds].
Definition changeRows (workspace : string) (cutoff : Z) (db : DB) : list (string * ChangeEventRow) :=
  limited (rowsByTime ce_change_at (λ _ e, (ce_workspace_id e ==? workspace) && (ce_change_at e <=? cutoff) &&
    available (ce_detail e)) (t_changeEvents db)).
Definition appendFindingChangeHistory (workspace : string) (cutoff : Z) (s : retentionSnapshot) : M DB retentionSnapshot :=
  items <- query (λ _ db, Ok (changeHistoryItem workspace db <$> changeRows workspace cutoff db)) ;;
  fromRes (appendItems items s).

Definition deliveryStateText (s : dstate) : string :=
  match s with
  | DQueued => "queued" | DDispatching => "dispatching" | DConfirmed => "confirmed" | DAccepted => "accepted"
  | DBlocked => "blocked" | DFailed => "failed" | DRateLimited => "rate-limited" | DUncertain => "uncertain"
  end.
Definition nullableRetentionTime (t : option Z) : string := match t with Some x => timeString x | None => "" end.
Definition deliveryAuthority (d : option DeliveryRow) : string :=
  match d with
  | Some d => let j := dl_job d in
      joinWith ":" [deliveryStateText (dl_state j); default "" (dl_worker_id j); intString (dl_fence j);
        nullableRetentionTime (dl_lease_until j); nullableRetentionTime (dl_dispatch_started_at j);
        nullableRetentionTime (dl_completed_at j)]
  | None => joinWith ":" [""; ""; intString 0; ""; ""; ""]
  end.
Definition eventHistoryItem (workspace : string) (db : DB) (r : string * PolicyEventRow) : retentionSnapshotItem :=
  let payload := bytes (marshal (notificationPolicyEventArchivePayload r.1 r.2)) in
  let holds := historyHolds workspace retentionNotificationPolicyEvent r.1 db in
  historyItem retentionNotificationPolicyEvent r.1 (pe_created_at r.2) payload
    (historyRetentionReasons (holds !=? "") false false (activeDelivery r.2 db)) [holds; deliveryAuthority (deliveryOf r.2 db)].
Definition eventRows (workspace : string) (cutoff : Z) (db : DB) : list (string * PolicyEventRow) :=
  limited (rowsByTime pe_created_at (λ _ e, (pe_workspace_id e ==? workspace) && (pe_created_at e <=? cutoff) &&
    available (pe_detail e)) (t_policyEvents db)).
Definition appendNotificationPolicyEventHistory (workspace : string) (cutoff : Z) (s : retentionSnapshot)
    : M DB retentionSnapshot :=
  items <- query (λ _ db, Ok (eventHistoryItem workspace db <$> eventRows workspace cutoff db)) ;;
  fromRes (appendItems items s).

Definition appendHistoryRetention (workspace : string) (cutoff : Z) (s : retentionSnapshot) : M DB retentionSnapshot :=
  s <- appendFindingDecisionHistory workspace cutoff s ;;
  s <- appendNotificationPolicyRevisionHistory workspace cutoff s ;;
  s <- appendFindingChangeHistory workspace cutoff s ;;
  appendNotificationPolicyEventHistory workspace cutoff s.

(** ** Orphaned archives *)

Definition publicationStateText (s : pbstate) : string :=
  match s with PbPublishing => "publishing" | PbReferenced => "referenced" | PbOrphan => "orphan" | PbDeleted => "deleted" end.
Definition orphanItem (workspace : string) (db : DB) (r : string * PublicationRow) : retentionSnapshotItem :=
  let p := r.2 in
  let referenced := archiveReferenceExists workspace (pb_object_key p) db in
  {| siItem := {| pi_class := "orphan-archive"; pi_kind := "archive-object"; pi_resource_id := r.1; pi_action := "delete-orphan";
                  pi_observed_at := pb_updated_at p; pi_size := pb_object_size p;
                  pi_reasons := if referenced then ["archive-reference"] else [];
                  pi_object := Some (pb_object_key p, pb_object_digest p, pb_revision p) |};
     siBinding := joinWith "|" [r.1; pb_object_key p; pb_object_digest p; intString (pb_object_size p);
       publicationStateText (pb_state p); intString (pb_revision p); timeString (pb_updated_at p); boolString referenced] |}.
Definition orphanRows (workspace : string) (cutoff : Z) (db : DB) : list (string * PublicationRow) :=
  limited (rowsById (λ _ p, (pb_workspace_id p ==? workspace) && bool_decide (pb_state p ∈ [PbPublishing; PbOrphan]) &&
    (pb_updated_at p <=? cutoff)) (t_publications db)).
Definition appendOrphanArchives (workspace : string) (cutoff : Z) (s : retentionSnapshot) : M DB retentionSnapshot :=
  items <- query (λ _ db, Ok (orphanItem workspace db <$> orphanRows workspace cutoff db)) ;;
  fromRes (appendItems items s).

(** ** The snapshot *)

Definition classRank (class : string) : Z :=
  if class ==? "hot-history" then 0 else if class ==? "archived-evidence" then 1 else if class ==? "raw-report" then 2
  else if class ==? "audit" then 3 else if class ==? "orphan-archive" then 4 else 0.
(** The comparison function of the sort is not positive. *)
Definition itemBefore (a b : RetentionPreviewItem) : bool :=
  if negb (classRank (pi_class a) =? classRank (pi_class b)) then classRank (pi_class a) <? classRank (pi_class b)
  else if pi_kind a !=? pi_kind b then strLe (pi_kind a) (pi_kind b)
  else if isHistoryRetentionKind (pi_kind a) && negb (pi_observed_at a =? pi_observed_at b)
  then pi_observed_at a <? pi_observed_at b
  else strLe (pi_resource_id a) (pi_resource_id b).
Definition snapshotOrder (a b : retentionSnapshotItem) : Prop := itemBefore (siItem a) (siItem b) = true.
#[export] Instance snapshotOrder_dec a b : Decision (snapshotOrder a b).
Proof. unfold snapshotOrder. apply _. Defined.

(** json.Marshal of the policy and the items with their bindings. *)
Definition optionString (x : option string) : JSON := jsonOption x.
Definition bindingItem (i : retentionSnapshotItem) : option JSON :=
  let p := siItem i in
  observed ← formatTime (pi_observed_at p);
  Some (JObject [("class", JString (pi_class p)); ("resourceKind", JString (pi_kind p));
    ("resourceId", JString (pi_resource_id p)); ("action", JString (pi_action p)); ("observedAt", JString observed);
    ("sizeBytes", JInt (pi_size p)); ("protectedReasons", jsonStrings (pi_reasons p));
    ("objectKey", optionString ((λ o, o.1.1) <$> pi_object p)); ("objectDigest", optionString ((λ o, o.1.2) <$> pi_object p));
    ("objectRevision", match pi_object p with Some o => JInt o.2 | None => JNull end); ("Binding", JString (siBinding i))]).
Definition retentionSnapshotDigest (s : retentionSnapshot) : Res string :=
  match mapRes (λ i, match bindingItem i with Some j => Ok j | None => Err ErrDecode end) (snItems s) with
  | Err e => Err e
  | Ok items =>
      let p := snPolicy s in
      Ok (reportDigest (bytes (marshal (JObject [
        ("Policy", JObject [("Revision", JInt (rp_revision p)); ("HotHistoryDays", JInt (rp_hot_history_days p));
           ("RawReportDays", JInt (rp_raw_report_days p)); ("ArchivedEvidenceDays", JInt (rp_archived_evidence_days p));
           ("AuditDays", JInt (rp_audit_days p))]);
        ("Items", JArray items)]))))
  end.

Definition buildRetentionSnapshot (workspace : string) (now : Z) : M DB (retentionSnapshot * string) :=
  policy <- readRetentionPolicy workspace ;;
  let since days := now - days * dayMicro in
  let s := {| snPolicy := policy; snSummaries := newRetentionSummaries policy; snItems := [] |} in
  s <- appendHotHistory assessed text workspace (since (rp_hot_history_days policy)) s ;;
  s <- appendRawReports assessed workspace (since (rp_raw_report_days policy)) s ;;
  s <- appendArchivedEvidence assessed workspace (since (rp_archived_evidence_days policy)) s ;;
  s <- appendAudit jsonText workspace (since (rp_audit_days policy)) s ;;
  s <- appendHistoryRetention workspace (since (rp_audit_days policy)) s ;;
  s <- appendOrphanArchives workspace (now - orphanArchiveGrace) s ;;
  let sorted := {| snPolicy := snPolicy s; snSummaries := snSummaries s; snItems := merge_sort snapshotOrder (snItems s) |} in
  digest <- fromRes (retentionSnapshotDigest sorted) ;;
  ret (sorted, digest).

(** ** Creating a preview *)

Definition previewCheck (p : PreviewRow) (db : DB) : bool := membership (pv_workspace_id p) (pv_created_by p) db.
(** Class, kind and resource once per preview, and the ordinals the table allows. *)
Definition previewItemCheck (id : string) (ordinal : Z) (r : PreviewItemRow) (db : DB) : option error :=
  if negb ((0 <=? ordinal) && (ordinal <=? 199)) then Some ErrConstraint
  else if anyRow (λ k i, (k.1 ==? id) && (pi_class (pi_item i) ==? pi_class (pi_item r)) &&
            (pi_kind (pi_item i) ==? pi_kind (pi_item r)) && (pi_resource_id (pi_item i) ==? pi_resource_id (pi_item r))) (t_previewItems db)
  then Some ErrUnique else None.
Fixpoint insertPreviewItems (workspace id : string) (ordinal : Z) (l : list RetentionPreviewItem) : M DB unit :=
  match l with
  | [] => ret tt
  | i :: l' =>
      let row := {| pi_workspace_id := workspace; pi_item := i |} in
      insertInto t_previewItems with_previewItems (previewItemCheck id ordinal row) (id, ordinal) row ;;;
      insertPreviewItems workspace id (ordinal + 1) l'
  end.
Definition publicRetentionItems (l : list retentionSnapshotItem) : list RetentionPreviewItem := siItem <$> l.

Definition createPreviewTx (workspace actor : string) : M DB RetentionPreview :=
  now_ <- now ;;
  built <- buildRetentionSnapshot workspace now_ ;;
  let '(snapshot, digest) := built in
  id <- newID ;;
  let row := {| pv_workspace_id := workspace; pv_revision := 1; pv_state := PvReady;
    pv_policy_revision := rp_revision (snPolicy snapshot); pv_snapshot_digest := digest;
    pv_summary := snSummaries snapshot; pv_created_by := actor; pv_created_at := now_;
    pv_expires_at := now_ + retentionPreviewTTL; pv_approval := None |} in
  insertInto t_previews with_previews (requires (previewCheck row) ErrConstraint) id row ;;;
  insertPreviewItems workspace id 0 (publicRetentionItems (snItems snapshot)) ;;;
  ret {| pvID := id; pvRow := row; pvItems := publicRetentionItems (snItems snapshot) |}.
Definition createRetentionPreview (workspace actor : string) : M DB RetentionPreview :=
  transaction (createPreviewTx workspace actor).

(** ** Approval *)

Definition stalePreview (p : PreviewRow) : PreviewRow := {|
  pv_workspace_id := pv_workspace_id p; pv_revision := pv_revision p + 1; pv_state := PvStale;
  pv_policy_revision := pv_policy_revision p; pv_snapshot_digest := pv_snapshot_digest p; pv_summary := pv_summary p;
  pv_created_by := pv_created_by p; pv_created_at := pv_created_at p; pv_expires_at := pv_expires_at p;
  pv_approval := pv_approval p |}.
Definition approvedPreview (actor : string) (at_ : Z) (rationale key binding : string) (p : PreviewRow) : PreviewRow := {|
  pv_workspace_id := pv_workspace_id p; pv_revision := pv_revision p + 1; pv_state := PvApproved;
  pv_policy_revision := pv_policy_revision p; pv_snapshot_digest := pv_snapshot_digest p; pv_summary := pv_summary p;
  pv_created_by := pv_created_by p; pv_created_at := pv_created_at p; pv_expires_at := pv_expires_at p;
  pv_approval := Some (actor, at_, rationale, key, binding) |}.
Definition readyPreview (p : PreviewRow) : bool := pv_state p ==? PvReady.
Definition approvalKey (p : PreviewRow) : option string := (λ a, a.1.2) <$> pv_approval p.
Definition updatePreview := updateOne t_previews with_previews pv_workspace_id.
Definition markStale (workspace id : string) : M DB (Res (Z * RetentionPreview)) :=
  exec (λ _ db, (tt, snd (updatePreview workspace id readyPreview stalePreview db))) ;;;
  ret (Err errConflict).

Definition retentionApprovalDigest (workspace preview actor rationale key snapshot : string) (revision : Z) : string :=
  retentionRunDigest (JObject [("Workspace", JString workspace); ("Preview", JString preview); ("Actor", JString actor);
    ("Rationale", JString rationale); ("Key", JString key); ("Snapshot", JString snapshot); ("Revision", JInt revision)]).

(** [Err] inside the result: the transaction commits and the request fails. *)
Definition approvePreviewTx (workspace actor id snapshot rationale key binding : string) (revision : Z)
    : M DB (Res (Z * RetentionPreview)) :=
  prior <- query (λ _ db, Ok (findRow (λ _ p, (pv_workspace_id p ==? workspace) && (approvalKey p ==? Some key)) (t_previews db))) ;;
  match prior with
  | Some (priorID, p) =>
      guard ((priorID ==? id) && ((snd <$> pv_approval p) ==? Some binding)) errConflict ;;;
      preview <- loadRetentionPreview workspace id ;;
      ret (Ok (200, preview))
  | None =>
      preview <- loadRetentionPreview workspace id ;;
      now_ <- now ;;
      guard (readyPreview (pvRow preview) && (pv_revision (pvRow preview) =? revision) &&
             (pv_snapshot_digest (pvRow preview) ==? snapshot)) errConflict ;;;
      if pv_expires_at (pvRow preview) <=? now_ then markStale workspace id
      else
        built <- buildRetentionSnapshot workspace now_ ;;
        let '(current, digest) := built in
        if negb (rp_revision (snPolicy current) =? pv_policy_revision (pvRow preview)) ||
           (digest !=? pv_snapshot_digest (pvRow preview)) then markStale workspace id
        else
          affected <- stmt (λ _ db,
            let updated := updatePreview workspace id (λ p, (pv_revision p =? revision) && readyPreview p)
                             (approvedPreview actor now_ rationale key binding) db in
            if (fst updated =? 1) && negb (membership workspace actor db) then Err ErrConstraint else Ok updated) ;;
          guard (affected =? 1) errConflict ;;;
          preview <- loadRetentionPreview workspace id ;;
          ret (Ok (201, preview))
  end.
Definition approveRetentionPreview (workspace actor id snapshot rationale key : string) (revision : Z) : M DB (Z * RetentionPreview) :=
  guard ((1 <=? revision) && validDigest snapshot && validText rationale 8192 && validText key 256) errInvalid ;;;
  transactionRes (approvePreviewTx workspace actor id snapshot rationale key
    (retentionApprovalDigest workspace id actor rationale key snapshot revision) revision).
End snapshot.
