(* ===== verification/RetentionFence.v ===== *)
(** * The fence of the retention worker

    Rules for programs over the database and the objects, and the proof that
    the worker changes the database only while it owns the run it works on. *)
From S2P Require Import Prelude GoLib Encoding Tx ReportAdapter Schema Auth Intake Correlations Retention RetentionStore RetentionWorker RetentionActions RetentionArchive.
Local Open Scope Z_scope.

(** An assertion that [R] cannot break; [R] from a state where it holds.  Others
    who obey [R] cannot break it either, so it survives every pause. *)
Class Stable {S} (R : S → S → Prop) (I : S → Prop) := stable s s' : R s s' → I s → I s'.
Definition under {S} (I : S → Prop) (R : S → S → Prop) (s s' : S) : Prop := I s → R s s'.
#[export] Instance under_preorder {S} (R : S → S → Prop) (I : S → Prop) : PreOrder R → Stable R I → PreOrder (under I R).
Proof.
  intros HR HI. split; [intros s _; reflexivity|].
  intros s1 s2 s3 H1 H2 Hs. pose proof (H1 Hs) as H. etransitivity; [exact H|]. apply H2. by eapply HI.
Qed.

(** The database part of a step that leaves the objects alone. *)
Definition lifted {O} (R : Ret O → Ret O → Prop) (d d' : DB) : Prop := ∀ o, R (mkRet d o) (mkRet d' o).
#[export] Instance lifted_preorder {O} (R : Ret O → Ret O → Prop) : PreOrder R → PreOrder (lifted R).
Proof. intros HR. split; [intros d o; reflexivity|intros d1 d2 d3 H1 H2 o; etransitivity; [apply H1|apply H2]]. Qed.

Section rules.
Context {O : Type} `{!ObjectService O} (v : RetentionWorld (O:=O)).
Context (R : Ret O → Ret O → Prop) `{!PreOrder R}.

Lemma steps_lift {A} (m : M DB A) :
  Steps (lifted R) m → Steps R (lift m).
Proof.
  intros H env n [d o]. specialize (H env n d). unfold lift. simpl.
  destruct (m env n d) as [r d' n']. simpl in *. apply H.
Qed.
Lemma steps_readObject key : Steps R (readObject key).
Proof. intros env n s. reflexivity. Qed.
Lemma steps_heartbeat : Steps R (heartbeat v).
Proof. intros env n s. reflexivity. Qed.
Lemma steps_writeObjects f : (∀ s, R s (mkRet (rt_db s) (f (rt_objects s)))) → Steps R (writeObjects f).
Proof. intros H env n s. unfold writeObjects. destruct (env_commit env n); simpl; [apply H|reflexivity|apply H]. Qed.
Lemma steps_readVerified prefix workspace key digest size : Steps R (readVerified prefix workspace key digest size).
Proof. unfold readVerified. steps. Qed.
Lemma steps_readArchive st workspace key digest size : Steps R (readArchive st workspace key digest size).
Proof. unfold readArchive, readRetentionObject. steps. Qed.
Lemma steps_readRaw st record : Steps R (readRaw st record).
Proof. unfold readRaw, readRetentionObject. steps. Qed.
Lemma steps_headObject key : Steps R (headObject key).
Proof. unfold headObject. steps. Qed.

(** The others obey [R]. *)
Context (Hother : ∀ n s, R s (rw_other v n s)).
Lemma steps_pause : Steps R (pause v).
Proof. intros env n s. apply Hother. Qed.
Lemma steps_pauseHolding id : Steps R (pauseHolding v id).
Proof. intros env n s. unfold pauseHolding. simpl. case_if; [apply Hother|reflexivity]. Qed.
Lemma steps_db {A} (m : M DB A) : Steps R (lift m) → Steps R (db v m).
Proof. intros. apply steps_bind; [apply _|apply steps_pause|done]. Qed.
End rules.

#[export] Hint Resolve steps_readObject steps_heartbeat steps_readVerified steps_readArchive steps_readRaw
  steps_headObject : steps.

(** ** Runs in time *)

Section timed_rules.
Context {O : Type} `{!ObjectService O} (v : RetentionWorld (O:=O)).
Context (step : Env → nat → Ret O → Ret O → Prop).

Lemma timed_lift {A} (m : M DB A) :
  Timed (λ env k d d', ∀ o, step env k (mkRet d o) (mkRet d' o)) m → Timed step (lift m).
Proof.
  intros H env n [d o]. specialize (H env n d). unfold lift. simpl.
  destruct (m env n d) as [r d' n']. simpl in *. induction H as [|n k n' d d1 d' Hn Hs _ IH]; [by apply timed_idle|].
  eapply timed_act; [done|apply Hs|apply IH].
Qed.
Lemma timed_readObject key : Timed step (readObject key).
Proof. intros env n s. apply timed_idle. simpl. lia. Qed.
Lemma timed_heartbeat : Timed step (heartbeat v).
Proof. intros env n s. apply timed_idle. simpl. lia. Qed.
Lemma timed_writeObjects f :
  (∀ env k s, step env k s (mkRet (rt_db s) (f (rt_objects s)))) → Timed step (writeObjects f).
Proof.
  intros H env n s. unfold writeObjects.
  destruct (env_commit env n); simpl; [|apply timed_idle; lia|];
    (eapply (timed_once _ _ _ n); [lia|apply H]).
Qed.
Lemma timed_readVerified prefix workspace key digest size : Timed step (readVerified prefix workspace key digest size).
Proof. unfold readVerified. pose proof timed_readObject. timed_run. Qed.
Lemma timed_readArchive st workspace key digest size : Timed step (readArchive st workspace key digest size).
Proof. unfold readArchive, readRetentionObject. pose proof timed_readVerified. timed_run. Qed.
Lemma timed_readRaw st record : Timed step (readRaw st record).
Proof. unfold readRaw, readRetentionObject. pose proof timed_readVerified. timed_run. Qed.
Lemma timed_headObject key : Timed step (headObject key).
Proof. unfold headObject. pose proof timed_readObject. timed_run. Qed.
End timed_rules.
#[export] Hint Resolve timed_readObject timed_heartbeat timed_readVerified timed_readArchive timed_readRaw
  timed_headObject : timed.

(** The transactions of the worker, statement by statement. *)
Ltac forward_tx :=
  unfold archiveTx, expiringImportTx, expiredImportTx, archiveAuditTx, archiveHistoryTx, expiringTx, expiredTx, restoreTx,
    finishArchivePublication, finishItemTx, retryItemTx, advanceRetentionRunTx, finalizeRetentionRunTx,
    upsertPublication, observationProtection, importProtection, auditProtection, historyProtection,
    readHistoryArchiveRecord, lockRetentionRun; forward.

(** ** Ownership *)

(** At time [t] of the database clock the run is processing for this worker,
    with the fence of the claim and a lease that has not expired. *)
Definition ownedAt (t : Z) (run : retentionRunRecord) (d : DB) : Prop :=
  ∃ r until, t_retentionRuns d !! runID run = Some r ∧ rr_workspace_id (rr_meta r) = runWorkspace run ∧
    rr_state (rr_job r) = RProcessing ∧ rr_worker_id (rr_job r) = Some (runWorkerID run) ∧
    rr_fence (rr_job r) = runFence run ∧ rr_lease_until (rr_job r) = Some until ∧ t < until.

Lemma liveRun_owned t run r d :
  t_retentionRuns d !! runID run = Some r → rr_workspace_id (rr_meta r) = runWorkspace run → liveRun t run r = true →
  ownedAt t run d.
Proof.
  intros Hr Hw H. unfold liveRun, ownsRun in H. destruct (rr_lease_until (rr_job r)) as [until|] eqn:El;
    [|by rewrite andb_false_r in H]. breflect_in H. exists r, until. tauto.
Qed.
Lemma lockRetentionRun_inv run env n s u s' n' :
  lockRetentionRun run env n s = mkOut (Ok u) s' n' → s' = s ∧ ownedAt (env_clock env n) run s.
Proof.
  unfold lockRetentionRun. intros H. apply bind_inv in H as (active & s1 & n1 & H1%query_inv & H2%guard_inv).
  destruct H1 as [H1 ->], H2 as [Ha ->]. split; [done|]. simplify_eq.
  destruct (t_retentionRuns s !! runID run) as [r|] eqn:Er; [|done].
  destruct (_ ==? _) eqn:Ews in H1; [|done]. apply bool_decide_eq_true in Ews. simplify_eq. by eapply liveRun_owned.
Qed.

Section fence.
Context {O : Type} `{!ObjectService O} (v : RetentionWorld (O:=O)) (w : retentionWorker) (run : retentionRunRecord).

(** What happens at tick [k]: what others do then, what happens to objects, and
    what the owner at the clock of that tick does to the database. *)
Definition fencedStep (env : Env) (k : nat) (s s' : Ret O) : Prop :=
  s' = rw_other v k s ∨ rt_db s' = rt_db s ∨ (ownedAt (env_clock env k) run (rt_db s) ∧ rt_objects s' = rt_objects s).
Abbreviation T := (Timed fencedStep).

Lemma fenced_locked {A} (m : M DB A) : Forward m → T (lift (transaction (lockRetentionRun run ;;; m))).
Proof.
  intros Hm. apply timed_lift, timed_transaction.
  { unfold lockRetentionRun. forward. }
  intros env n d a d' n' H. right. exists n. split.
  - split; [done|]. eapply Timed_tick, H. instantiate (1 := λ _ _ _ _, True). unfold lockRetentionRun. forward.
  - apply bind_inv in H as (u & d1 & n1 & (-> & Hown)%lockRetentionRun_inv & _). intros o. right. right. by split.
Qed.
Lemma fenced_renew : T (lift (renewRetentionLease w run)).
Proof.
  apply timed_lift. unfold renewRetentionLease. timed_run. apply timed_exec. intros env n d. unfold updateRun, updateOne.
  destruct (t_retentionRuns d !! runID run) as [r|] eqn:Er; simpl; [|by left].
  destruct (_ && _) eqn:E; simpl; [|by left]. apply andb_true_iff in E as [Ews%bool_decide_eq_true Hl].
  right. intros o. right. right. split; [|done]. by eapply liveRun_owned.
Qed.
Lemma fenced_objects f : T (writeObjects f).
Proof. apply timed_writeObjects. intros env k s. right. by left. Qed.
Lemma fenced_pause : T (pause v).
Proof. intros env n s. eapply (timed_once _ _ _ n); [simpl; lia|]. by left. Qed.
Lemma fenced_query {A} (f : Z → DB → Res A) : T (lift (query f)).
Proof. apply timed_lift, timed_query. Qed.
Lemma fenced_db {A} (m : M DB A) : T (lift m) → T (db v m).
Proof. intros. apply timed_bind; [apply fenced_pause|done]. Qed.
#[local] Hint Resolve fenced_renew fenced_objects fenced_pause fenced_query : timed.
Ltac fenced :=
  repeat first
    [ progress timed_run
    | apply fenced_db
    | apply fenced_query
    | apply fenced_locked; solve [forward_tx] ].

Lemma fenced_lease {A} (m : M (Ret O) A) : T m → T (withRetentionLease v w (pause v) run m).
Proof. intros. unfold withRetentionLease. timed_run. Qed.
Lemma fenced_begin item kind data : T (beginArchivePublication v w run item kind data).
Proof. unfold beginArchivePublication. fenced. Qed.
Lemma fenced_publish item kind data : T (publishArchive v w run item kind data).
Proof. apply fenced_lease. unfold putArchive, readRetentionObject. timed_run. Qed.
Lemma fenced_delete prefix key : T (withRetentionLease v w (pause v) run (deleteIn prefix (runWorkspace run) key)).
Proof. apply fenced_lease. unfold deleteIn. timed_run. Qed.
Lemma fenced_present {A} (m : M (Ret O) A) : T m → T (present m).
Proof. intros. unfold present. timed_run. Qed.
Lemma fenced_readArchive workspace key digest size :
  T (withRetentionLease v w (pause v) run (readArchive (wkStore w) workspace key digest size)).
Proof. apply fenced_lease. timed_run. Qed.
Lemma fenced_readRaw record : T (withRetentionLease v w (pause v) run (readRaw (wkStore w) record)).
Proof. apply fenced_lease. timed_run. Qed.
Lemma fenced_rawPresent record : T (rawEvidencePresent v w run record).
Proof. apply fenced_present, fenced_readRaw. Qed.
Lemma fenced_archivePresent a : T (archiveEvidencePresent v w run a).
Proof. apply fenced_present, fenced_readArchive. Qed.
#[local] Hint Resolve fenced_begin fenced_publish fenced_delete fenced_readArchive fenced_readRaw fenced_rawPresent
  fenced_archivePresent : timed.

Lemma fenced_archiveObservation item : T (archiveObservation v w run item).
Proof. unfold archiveObservation, readObservation, observationProtection. fenced. Qed.
Lemma fenced_expireImport item record revision gone : T (expireImport v w run item record revision gone).
Proof. unfold expireImport, deleteRaw. fenced. Qed.
#[local] Hint Resolve fenced_expireImport : timed.
Lemma fenced_clearImport id : T (db v (clearImportTransition run id)).
Proof. unfold clearImportTransition. fenced. Qed.
Lemma fenced_markImport record st : T (db v (markImportAvailability run record st)).
Proof. unfold markImportAvailability. fenced. Qed.
#[local] Hint Resolve fenced_clearImport fenced_markImport : timed.
Lemma fenced_expireUnprotected item record revision : T (expireUnprotected v w run item record revision).
Proof. unfold expireUnprotected, recheckImport, importProtection. fenced. Qed.
#[local] Hint Resolve fenced_expireUnprotected : timed.
Lemma fenced_expireRawReport item : T (expireRawReport v w run item).
Proof. unfold expireRawReport, importProtection, readImport. fenced. Qed.
Lemma fenced_archiveAuditEvent item : T (archiveAuditEvent v w run item).
Proof. unfold archiveAuditEvent, readEvent, auditProtection. fenced. Qed.
Lemma fenced_archiveHistoryEvent item : T (archiveHistoryEvent v w run item).
Proof.
  unfold archiveHistoryEvent, historyProtection, publishHistory, existingHistoryPublication, readHistoryArchiveRecord. fenced.
Qed.
Lemma fenced_clearObservation id : T (db v (clearObservationTransition run id)).
Proof. unfold clearObservationTransition. fenced. Qed.
Lemma fenced_mark item revision st f : T (db v (markEvidence run item revision st f)).
Proof. unfold markEvidence. fenced. Qed.
#[local] Hint Resolve fenced_clearObservation fenced_mark : timed.
Lemma fenced_expireCopy item a revision gone : T (expireCopy v w run item a revision gone).
Proof. unfold expireCopy, deleteArchive. fenced. Qed.
#[local] Hint Resolve fenced_expireCopy : timed.
Lemma fenced_recheckCopy item a revision : T (recheckCopy v w run item a revision).
Proof. unfold recheckCopy, observationProtection. fenced. Qed.
#[local] Hint Resolve fenced_recheckCopy : timed.
Lemma fenced_expireArchive item : T (expireObservationArchive v w run item).
Proof. unfold expireObservationArchive, readObservation, observationProtection. fenced. Qed.
Lemma fenced_restore item : T (restoreObservation v w run item).
Proof. unfold restoreObservation, readObservation. fenced. Qed.
#[local] Hint Resolve fenced_archiveObservation fenced_expireRawReport fenced_archiveAuditEvent fenced_archiveHistoryEvent
  fenced_expireArchive fenced_restore : timed.

End fence.

(** ** Statements that leave the observations alone *)

Definition sameBy {T} (proj : DB → T) (d d' : DB) : Prop := proj d' = proj d.
#[export] Instance sameBy_preorder {T} (proj : DB → T) : PreOrder (sameBy proj).
Proof. split; [done|]. intros d1 d2 d3 H1 H2. unfold sameBy in *. congruence. Qed.
Lemma updateOne_by {T V} (proj : DB → T) (table : DB → gmap string V) put ws workspace id P f d :
  (∀ t, proj (put t d) = proj d) → sameBy proj d (snd (updateOne table put ws workspace id P f d)).
Proof. intros H. unfold updateOne. destruct (table d !! id); [case_if|]; simpl; done || apply H. Qed.

(** Runs, items and imports are kept apart from what [proj] shows. *)
Class Bookkeeping {T} (proj : DB → T) := {
  by_runs t d : proj (with_retentionRuns t d) = proj d;
  by_items t d : proj (with_runItems t d) = proj d;
  by_imports t d : proj (with_imports t d) = proj d }.

Ltac bookkeeping :=
  repeat first
    [ progress steps
    | apply steps_exec; [apply _|]; intros ? ?; simpl; apply updateOne_by; intros;
      first [apply by_runs | apply by_items | apply by_imports] ].

Section bookkeeping.
Context {T} (proj : DB → T) `{!Bookkeeping proj}.
Lemma by_lock run : Steps (sameBy proj) (lockRetentionRun run).
Proof. unfold lockRetentionRun. steps. Qed.
Lemma by_renew w run : Steps (sameBy proj) (renewRetentionLease w run).
Proof. unfold renewRetentionLease. bookkeeping. Qed.
#[local] Hint Resolve by_lock by_renew : steps.
Lemma by_advance run : Steps (sameBy proj) (advanceRetentionRunTx run).
Proof. unfold advanceRetentionRunTx, finalizeRetentionRunTx. bookkeeping. Qed.
#[local] Hint Resolve by_advance : steps.
Lemma by_claim w : Steps (sameBy proj) (claimRetentionItem w).
Proof.
  unfold claimRetentionItem, claimTx, abandonTx, finalizeRetentionRunTx. bookkeeping.
  apply steps_stmt; [apply _|]. intros t d a' d' H. destruct (nextRun _ _ d) as [[id r]|]; simplify_eq; [apply by_runs|done].
Qed.
Lemma by_finish run item o : Steps (sameBy proj) (finishRetentionItem run item o).
Proof. unfold finishRetentionItem, finishItemTx. bookkeeping. Qed.
Lemma by_retry run item : Steps (sameBy proj) (retryRetentionItem run item).
Proof. unfold retryRetentionItem, retryItemTx. bookkeeping. Qed.
Lemma by_markImport run record st : Steps (sameBy proj) (markImportAvailability run record st).
Proof. unfold markImportAvailability. bookkeeping. Qed.
Lemma by_clearImport run id : Steps (sameBy proj) (clearImportTransition run id).
Proof. unfold clearImportTransition. bookkeeping. Qed.
Lemma by_expiringImport {O} `{!ObjectService O} (v : RetentionWorld (O:=O)) run item revision :
  Steps (sameBy proj) (expiringImportTx v run item revision).
Proof. unfold expiringImportTx, importProtection. bookkeeping. Qed.
Lemma by_expiredImport run item revision : Steps (sameBy proj) (expiredImportTx run item revision).
Proof. unfold expiredImportTx. bookkeeping. Qed.
End bookkeeping.
#[export] Hint Resolve by_lock by_renew by_advance by_claim by_finish by_retry by_markImport by_clearImport
  by_expiringImport by_expiredImport : steps.

(** ** Observations *)

Definition sameObservations : DB → DB → Prop := sameBy t_observations.
#[export] Instance observations_apart : Bookkeeping t_observations.
Proof. by split. Qed.
#[export] Instance sameObservations_preorder : PreOrder sameObservations := _.

Lemma updateOne_same {V} (proj : DB → gmap string V) put ws workspace id P f d :
  (∀ t, t_observations (put t d) = t_observations d) →
  sameObservations d (snd (updateOne proj put ws workspace id P f d)).
Proof. apply updateOne_by. Qed.
Lemma updateHistory_same workspace kind id revision P f d :
  sameObservations d (snd (updateHistory workspace kind id revision P f d)).
Proof. unfold updateHistory. repeat case_if; done || by apply updateOne_same. Qed.

Ltac same :=
  repeat first
    [ progress steps
    | apply steps_exec; [apply _|]; intros ? ?; try reflexivity; simpl;
      first [apply updateHistory_same | apply updateOne_same; intros; reflexivity] ].

Lemma same_lock run : Steps sameObservations (lockRetentionRun run).
Proof. apply by_lock. Qed.
Lemma same_renew w run : Steps sameObservations (renewRetentionLease w run).
Proof. apply by_renew, _. Qed.
#[export] Hint Resolve same_lock same_renew : steps.
Lemma same_upsert id workspace key kind resource digest size at_ :
  Steps sameObservations (upsertPublication id workspace key kind resource digest size at_).
Proof.
  apply steps_stmt; [apply _|]. intros t d a d' H. cbv zeta in H. destruct (publicationOf _ _ d) as [[old p]|]; [simplify_eq; reflexivity|].
  destruct (insertRow _ _ _); simplify_eq; reflexivity.
Qed.
Lemma same_finishPublication p st : Steps sameObservations (finishArchivePublication p st).
Proof. unfold finishArchivePublication. same. Qed.
#[export] Hint Resolve same_upsert same_finishPublication : steps.

Section same.
Context {O : Type} `{!ObjectService O} (v : RetentionWorld (O:=O)) (w : retentionWorker).
Lemma same_audit run item p published data revision : Steps sameObservations (archiveAuditTx run item p published data revision).
Proof. unfold archiveAuditTx, auditProtection. same. Qed.
Lemma same_history run item published payload : Steps sameObservations (archiveHistoryTx run item published payload).
Proof. unfold archiveHistoryTx, readHistoryArchiveRecord, historyProtection. same. Qed.
End same.
#[export] Hint Resolve same_audit same_history : steps.
#[export] Hint Extern 1 (Steps sameObservations _) => unfold sameObservations : steps.

(** ** Actions that leave the observations alone

    For a relation that others obey, that ignores what happens outside the
    observations and allows objects to be deleted and documents other than
    observations to be written, the worker obeys it as soon as the three
    actions on observations do. *)
Section frame.
Context {O : Type} `{!ObjectService O} (v : RetentionWorld (O:=O)) (w : retentionWorker).
Context (R : Ret O → Ret O → Prop) `{!PreOrder R}.
Context (Hsame : ∀ d d' o, sameObservations d d' → R (mkRet d o) (mkRet d' o)).
Context (Hother : ∀ n s, R s (rw_other v n s)).
Context (Hdelete : ∀ s key, R s (mkRet (rt_db s) (deleteObject key (rt_objects s)))).
Context (Hput : ∀ workspace kind id data, kind ≠ "observations" → Steps R (putArchive (wkStore w) workspace kind id data)).

Lemma frame_lift {A} (m : M DB A) : Steps sameObservations m → Steps R (lift m).
Proof. intros H. apply steps_lift. intros env n d o. apply Hsame, H. Qed.
Lemma frame_db {A} (m : M DB A) : Steps sameObservations m → Steps R (db v m).
Proof. intros. apply steps_db; [done..|]. by apply frame_lift. Qed.
Lemma frame_pause : Steps R (pause v).
Proof. by apply steps_pause. Qed.
Lemma frame_hold id : Steps R (pauseHolding v id).
Proof. by apply steps_pauseHolding. Qed.
#[local] Hint Resolve frame_pause frame_hold : steps.
Lemma frame_renew run : Steps R (lift (renewRetentionLease w run)).
Proof. apply frame_lift, same_renew. Qed.
#[local] Hint Resolve frame_renew : steps.
Lemma frame_lease {A} wait run (m : M (Ret O) A) : Steps R wait → Steps R m → Steps R (withRetentionLease v w wait run m).
Proof. intros. unfold withRetentionLease. steps. Qed.
Lemma frame_present {A} (m : M (Ret O) A) : Steps R m → Steps R (present m).
Proof. intros. unfold present. steps. Qed.
Lemma frame_deleteIn prefix workspace key : Steps R (deleteIn (O:=O) prefix workspace key).
Proof. unfold deleteIn. steps. by apply steps_writeObjects. Qed.
#[local] Hint Resolve frame_deleteIn : steps.
Lemma frame_begin run item kind data : Steps R (beginArchivePublication v w run item kind data).
Proof. unfold beginArchivePublication. steps. apply frame_lift. same. Qed.
Lemma frame_publish run item kind data : kind ≠ "observations" → Steps R (publishArchive v w run item kind data).
Proof. intros. apply frame_lease; [apply frame_pause|by apply Hput]. Qed.
Lemma frame_archivePresent run a : Steps R (archiveEvidencePresent v w run a).
Proof. apply frame_present, frame_lease; steps. Qed.
Lemma frame_rawPresent run record : Steps R (rawEvidencePresent v w run record).
Proof. apply frame_present, frame_lease; steps. Qed.
#[local] Hint Resolve frame_begin frame_archivePresent frame_rawPresent : steps.
Ltac frame :=
  repeat first
    [ progress steps
    | apply frame_lease; [progress steps..|]
    | apply frame_lease; steps
    | apply frame_db; solve [same]
    | apply frame_lift; solve [same] ].

Lemma frame_expireImport run item record revision gone : Steps R (expireImport v w run item record revision gone).
Proof. unfold expireImport. frame. Qed.
Lemma frame_recheckImport run item record : Steps R (recheckImport v w run item record).
Proof. unfold recheckImport, importProtection. frame. Qed.
#[local] Hint Resolve frame_expireImport frame_recheckImport : steps.
Lemma frame_expireRawReport run item : Steps R (expireRawReport v w run item).
Proof. unfold expireRawReport, expireUnprotected, importProtection, readImport. frame. Qed.
Lemma frame_archiveAuditEvent run item : Steps R (archiveAuditEvent v w run item).
Proof. unfold archiveAuditEvent, readEvent, auditProtection. frame. Qed.
Lemma frame_existing run item directory payload : Steps R (existingHistoryPublication v w run item directory payload).
Proof. unfold existingHistoryPublication. frame. Qed.
Lemma historyDirectory_ne kind : historyDirectory kind ≠ "observations".
Proof. unfold historyDirectory. by repeat case_if. Qed.
Lemma frame_archiveHistoryEvent run item : Steps R (archiveHistoryEvent v w run item).
Proof.
  unfold archiveHistoryEvent, readHistoryArchiveRecord, historyProtection, publishHistory. frame;
    [apply frame_existing|apply Hput, historyDirectory_ne].
Qed.
Lemma frame_deleteOrphan run item : Steps R (deleteOrphanArchive v w run item).
Proof. unfold deleteOrphanArchive, lockPublication. frame. Qed.

Lemma frame_process run item :
  Steps R (archiveObservation v w run item) → Steps R (expireObservationArchive v w run item) →
  Steps R (restoreObservation v w run item) → Steps R (processRetentionItem v w run item).
Proof.
  intros Ha He Hr. unfold processRetentionItem. repeat case_if; try done; try apply steps_throw; try apply _.
  - apply frame_expireRawReport.
  - apply frame_archiveHistoryEvent.
  - apply frame_archiveAuditEvent.
  - apply frame_deleteOrphan.
Qed.
Lemma frame_processNext :
  (∀ run item, Steps R (archiveObservation v w run item)) → (∀ run item, Steps R (expireObservationArchive v w run item)) →
  (∀ run item, Steps R (restoreObservation v w run item)) → Steps R (ProcessNextRetention v w).
Proof.
  intros Ha He Hr. unfold ProcessNextRetention, processClaimed.
  pose proof (λ run item, frame_process run item (Ha run item) (He run item) (Hr run item)). frame.
Qed.
End frame.
