(* ===== verification/RetentionLifecycle.v ===== *)
(** * The life of an observation's evidence

    Evidence is hot, archived, restored, lost and found again, expiring and
    expired.  [evidenceStep] are the moves; every session, worker or reader,
    makes only these, each raising the revision by one. *)
From S2P Require Import Prelude GoLib Encoding Tx ReportAdapter Schema Auth Intake Correlations Retention RetentionStore RetentionWorker RetentionActions RetentionArchive RetentionRuns RetentionFence.
Local Open Scope Z_scope.

Definition lostStates : list string := ["missing"; "corrupt"].
Definition archiveStates : list string := ["archived"; "missing"; "corrupt"].

(** [e] with availability, expiry and transition replaced. *)
Definition moved (e : ObservationEvidence) (availability : string) (expired : option Z) (transition : option string)
    : ObservationEvidence := {|
  oe_data := oe_data e; oe_summary := oe_summary e; oe_availability := availability; oe_revision := oe_revision e + 1;
  oe_archive := oe_archive e; oe_expired_at := expired; oe_transition := transition |}.

Inductive evidenceStep (e : ObservationEvidence) : ObservationEvidence → Prop :=
  | es_archive o a : oe_availability e = "available" → oe_data e = Some o →
      evidenceStep e {| oe_data := None; oe_summary := Some (compactObservation o); oe_availability := "archived";
        oe_revision := oe_revision e + 1; oe_archive := Some a; oe_expired_at := None; oe_transition := None |}
  | es_expiring : oe_availability e = "archived" → oe_transition e = None →
      evidenceStep e (moved e "archived" (oe_expired_at e) (Some "expiring"))
  | es_kept : oe_transition e = Some "expiring" → evidenceStep e (moved e (oe_availability e) (oe_expired_at e) None)
  | es_expired at_ : oe_transition e = Some "expiring" → evidenceStep e (moved e "expired" (Some at_) None)
  | es_lost st t : oe_availability e ≠ "available" → oe_availability e ≠ "expired" → default "" (oe_transition e) = "" → st ∈ lostStates →
      t = None ∨ t = oe_transition e → evidenceStep e (moved e st (oe_expired_at e) t)
  | es_found : oe_availability e ∈ lostStates → default "" (oe_transition e) = "" →
      evidenceStep e (moved e "archived" (oe_expired_at e) (oe_transition e))
  | es_restore o : oe_availability e ∈ archiveStates → default "" (oe_transition e) = "" →
      evidenceStep e {| oe_data := Some o; oe_summary := None; oe_availability := "available";
        oe_revision := oe_revision e + 1; oe_archive := oe_archive e; oe_expired_at := None; oe_transition := None |}.

Lemma evidenceStep_revision e e' : evidenceStep e e' → oe_revision e' = oe_revision e + 1.
Proof. by destruct 1. Qed.
Lemma evidenceSteps_revision e e' : rtc evidenceStep e e' → oe_revision e ≤ oe_revision e' ∧ (oe_revision e' = oe_revision e → e' = e).
Proof.
  induction 1 as [e|e e1 e2 H1 H2 [IH1 IH2]]; [done|]. apply evidenceStep_revision in H1. split; [lia|]. lia.
Qed.

(** What the columns of one row say together. *)
Definition evidenceOK (e : ObservationEvidence) : Prop :=
  (oe_availability e = "available" ∧ isSome (oe_data e) ∧ oe_transition e = None ∧ oe_expired_at e = None) ∨
  (oe_availability e ∈ archiveStates ∧ oe_data e = None ∧ isSome (oe_archive e) ∧ isSome (oe_summary e) ∧ oe_expired_at e = None ∧
   (oe_transition e = None ∨ oe_availability e = "archived" ∧ oe_transition e = Some "expiring")) ∨
  (oe_availability e = "expired" ∧ oe_data e = None ∧ isSome (oe_archive e) ∧ isSome (oe_summary e) ∧
   isSome (oe_expired_at e) ∧ oe_transition e = None).

Lemma archiveStates_lost st : st ∈ lostStates → st ∈ archiveStates.
Proof. unfold lostStates, archiveStates. set_solver. Qed.
Lemma notArchived : ("available" ∉ archiveStates) ∧ ("expired" ∉ archiveStates).
Proof. split; apply (bool_decide_eq_false_1 _); reflexivity. Qed.
Lemma archived_ok e : evidenceOK e → oe_availability e ∈ archiveStates →
  oe_data e = None ∧ isSome (oe_archive e) ∧ isSome (oe_summary e) ∧ oe_expired_at e = None ∧
  (oe_transition e = None ∨ oe_availability e = "archived" ∧ oe_transition e = Some "expiring").
Proof.
  pose proof notArchived as [N1 N2]. intros [(-> & _)|[(_ & H)|(-> & _)]]; done.
Qed.
Lemma expiring_ok e : evidenceOK e → oe_transition e = Some "expiring" → oe_availability e = "archived".
Proof. by intros [(_ & _ & -> & _)|[(_ & _ & _ & _ & _ & [->|[? _]])|(_ & _ & _ & _ & _ & ->)]]. Qed.
Lemma inArchive : "archived" ∈ archiveStates.
Proof. apply (bool_decide_eq_true_1 _); reflexivity. Qed.

Lemma evidenceStep_ok e e' : evidenceStep e e' → evidenceOK e → evidenceOK e'.
Proof.
  intros Hstep Hok. pose proof inArchive as Hin. pose proof (archived_ok e Hok) as Harch.
  destruct Hstep as [o a Ha Hd|Ha Ht|Ht|at_ Ht|st t Ha He Ht Hst Hor|Ha Ht|o Ha Ht]; unfold moved.
  - right; left. simpl. auto 10.
  - rewrite Ha in Harch. right; left. simpl. naive_solver.
  - pose proof (expiring_ok e Hok Ht) as Ha. rewrite Ha in *. right; left. simpl. naive_solver.
  - pose proof (expiring_ok e Hok Ht) as Ha. rewrite Ha in *. right; right. simpl. naive_solver.
  - pose proof (archiveStates_lost st Hst). right; left. simpl.
    assert (oe_availability e ∈ archiveStates) as Hin' by (destruct Hok as [[? _]|[[? _]|[? _]]]; done).
    destruct (Harch Hin') as (? & ? & ? & ? & Htr).
    destruct Htr as [Htr|[_ Htr]]; rewrite Htr in *; [|done]. naive_solver.
  - pose proof (archiveStates_lost _ Ha) as Ha'. right; left. simpl. naive_solver.
  - left. simpl. auto.
Qed.
Lemma evidenceSteps_ok e e' : rtc evidenceStep e e' → evidenceOK e → evidenceOK e'.
Proof. induction 1; eauto using evidenceStep_ok. Qed.
(** Expiry is final. *)
Lemma expired_final e e' : rtc evidenceStep e e' → evidenceOK e → oe_availability e = "expired" → e' = e.
Proof.
  intros H Hok He. destruct H as [|e e1 e2 Hs _]; [done|]. exfalso. pose proof notArchived as [_ Hn].
  assert (oe_transition e = None) as Ht.
  { destruct Hok as [(? & _)|[(? & _)|(_ & _ & _ & _ & _ & ?)]]; [congruence|congruence|done]. }
  destruct Hs as [| | | | |Ha|? Ha]; try congruence. apply archiveStates_lost in Ha. congruence.
Qed.

(** ** Databases and sessions *)

Definition sameObservation (o o' : ObservationRow) : Prop :=
  ob_workspace_id o' = ob_workspace_id o ∧ ob_finding_id o' = ob_finding_id o ∧ ob_run_id o' = ob_run_id o ∧
  ob_ordinal o' = ob_ordinal o.
(** Rows stay, and their evidence moves. *)
Definition evolves (d d' : DB) : Prop :=
  ∀ id o, t_observations d !! id = Some o →
    ∃ o', t_observations d' !! id = Some o' ∧ sameObservation o o' ∧ rtc evidenceStep (ob_evidence o) (ob_evidence o').
#[export] Instance evolves_preorder : PreOrder evolves.
Proof.
  split.
  - intros d id o H. exists o. done.
  - intros d1 d2 d3 H1 H2 id o H. destruct (H1 id o H) as (o2 & E2 & (?&?&?&?) & S2).
    destruct (H2 id o2 E2) as (o3 & E3 & (?&?&?&?) & S3). exists o3. split; [done|].
    split; [repeat split; congruence|by etransitivity].
Qed.
Lemma same_evolves d d' : sameObservations d d' → evolves d d'.
Proof. intros H id o Ho. exists o. rewrite H. done. Qed.

(** The row was read with evidence [e]. *)
Definition seen (id : string) (e : ObservationEvidence) (d : DB) : Prop :=
  ∃ o, t_observations d !! id = Some o ∧ rtc evidenceStep e (ob_evidence o).
#[export] Instance seen_stable id e : Stable evolves (seen id e).
Proof.
  intros d d' H (o & Ho & Hs). destruct (H id o Ho) as (o' & Ho' & _ & Hs'). exists o'. split; [done|by etransitivity].
Qed.

Lemma update_evolves workspace id P f d :
  (∀ o, t_observations d !! id = Some o → P o = true → sameObservation o (f o) ∧ evidenceStep (ob_evidence o) (ob_evidence (f o))) →
  evolves d (snd (updateObservation workspace id P f d)).
Proof.
  intros H. unfold updateObservation, updateOne. destruct (t_observations d !! id) as [o|] eqn:Ho; [|reflexivity].
  destruct (_ && _) eqn:E; [|reflexivity]. apply andb_true_iff in E as [_ HP]. destruct (H o eq_refl HP) as [Hm Hs].
  intros id' o' Ho'. simpl. destruct (decide (id' = id)) as [->|Hne].
  - rewrite lookup_insert_eq. exists (f o). rewrite Ho in Ho'. simplify_eq. split; [done|]. split; [done|by apply rtc_once].
  - rewrite lookup_insert_ne by done. by exists o'.
Qed.
(** An update at the revision that was read finds what was read. *)
Lemma update_seen workspace id e P f d :
  seen id e d →
  (∀ o, ob_evidence o = e → P e = true → sameObservation o (f o) ∧ evidenceStep e (ob_evidence (f o))) →
  evolves d (snd (updateObservation workspace id (atRevision (oe_revision e) P) f d)).
Proof.
  intros (o & Ho & Hs) Hf. apply update_evolves. intros o' Ho' HP. simplify_eq.
  unfold atRevision in HP. apply andb_true_iff in HP as [Hr%Z.eqb_eq HP].
  assert (ob_evidence o = e) as <- by (by apply (evidenceSteps_revision _ _ Hs)). by apply Hf.
Qed.

Section sessions.
Context {O : Type} `{!ObjectService O} (v : RetentionWorld (O:=O)) (w : retentionWorker).

Section transactions.
Context (run : retentionRunRecord) (item : retentionItemRecord) (e : ObservationEvidence).
Abbreviation R := (under (seen (itemResource item) e) evolves).
#[local] Instance seen_preorder : PreOrder R := _.
Lemma seen_same {A} (m : M DB A) : Steps sameObservations m → Steps R m.
Proof. intros H env n d _. apply same_evolves, H. Qed.
Lemma seen_lock : Steps R (lockRetentionRun run).
Proof. apply seen_same, same_lock. Qed.
Lemma seen_finishPublication p st : Steps R (finishArchivePublication p st).
Proof. apply seen_same, same_finishPublication. Qed.
#[local] Hint Resolve seen_lock seen_finishPublication : steps.
Lemma seen_update {A} (g : Z → A) P f :
  (∀ o, ob_evidence o = e → P e = true → sameObservation o (f o) ∧ evidenceStep e (ob_evidence (f o))) →
  Steps R (exec (λ _ d, (g 0, snd (updateObservation (runWorkspace run) (itemResource item) (atRevision (oe_revision e) P) f d)))).
Proof. intros H. apply steps_exec; [apply _|]. intros t d Hs. simpl. by apply update_seen. Qed.
Lemma seen_counted P f :
  (∀ o, ob_evidence o = e → P e = true → sameObservation o (f o) ∧ evidenceStep e (ob_evidence (f o))) →
  Steps R (exec (λ _ d, updateObservation (runWorkspace run) (itemResource item) (atRevision (oe_revision e) P) f d)).
Proof. intros H. apply steps_exec; [apply _|]. intros t d Hs. by apply update_seen. Qed.

Lemma evolve_archiveTx p published data o :
  oe_data e = Some o → Steps R (archiveTx v run item p published data (oe_revision e) (compactObservation o)).
Proof.
  intros Hd. unfold archiveTx, observationProtection. steps. apply seen_counted.
  intros o' <- Ha%bool_decide_eq_true. split; [done|]. by apply es_archive.
Qed.
Lemma evolve_expiringTx : Steps R (expiringTx v run item (oe_revision e)).
Proof.
  unfold expiringTx, observationProtection. steps. apply seen_counted. intros o <- Hp.
  apply andb_true_iff in Hp as [Ha%bool_decide_eq_true Ht]. split; [done|]. simpl. rewrite Ha. apply es_expiring; [done|].
  by destruct (oe_transition (ob_evidence o)).
Qed.
Lemma evolve_markEvidence st f :
  oe_availability e ≠ "available" → oe_availability e ≠ "expired" → default "" (oe_transition e) = "" → st ∈ lostStates →
  f (oe_transition e) = None ∨ f (oe_transition e) = oe_transition e →
  Steps R (markEvidence run item (oe_revision e) st f).
Proof.
  intros Ha He Ht Hst Hf. unfold markEvidence. steps. apply (seen_update (λ _, tt)). intros o <- _. split; [done|].
  by apply es_lost.
Qed.
Lemma evolve_restoreTx o : default "" (oe_transition e) = "" → Steps R (restoreTx run item (oe_revision e) o).
Proof.
  intros Ht. unfold restoreTx. steps. apply seen_counted. intros o' <- Ha%bool_decide_eq_true. split; [done|].
  by apply es_restore.
Qed.
End transactions.

(** The transition is what these two look at. *)
Lemma evolve_clear run id : Steps evolves (clearObservationTransition run id).
Proof.
  unfold clearObservationTransition. apply steps_transaction; [apply _|]. apply steps_bind; [apply _| |].
  { intros env n d. apply same_evolves, same_lock. }
  intros _. apply steps_exec; [apply _|]. intros t d. simpl. apply update_evolves. intros o _ Ht%bool_decide_eq_true.
  split; [done|]. by apply es_kept.
Qed.
Lemma evolve_expiredTx run item revision key : Steps evolves (expiredTx run item revision key).
Proof.
  unfold expiredTx. apply steps_bind; [apply _| |]. { intros env n d. apply same_evolves, same_lock. }
  intros _. steps; apply steps_exec; try apply _; intros t d.
  - apply update_evolves. intros o _ Hp. unfold atRevision in Hp. apply andb_true_iff in Hp as [_ Ht%bool_decide_eq_true].
    split; [done|]. by apply es_expired.
  - by apply same_evolves.
Qed.

(** ** Actions *)

Definition evolving (s s' : Ret O) : Prop := evolves (rt_db s) (rt_db s').
#[local] Instance evolving_preorder : PreOrder evolving.
Proof. unfold evolving. split; [intros s; reflexivity|]. intros s1 s2 s3 H1 H2. by etransitivity. Qed.
Definition read (id : string) (e : ObservationEvidence) (s : Ret O) : Prop := seen id e (rt_db s).
#[local] Instance read_stable id e : Stable evolving (read id e).
Proof. intros s s'. apply seen_stable. Qed.

Context (Hother : ∀ n s, evolving s (rw_other v n s)).

Lemma evolving_put st workspace kind id data : Steps evolving (putArchive (O:=O) st workspace kind id data).
Proof.
  unfold putArchive, readRetentionObject. steps. apply steps_writeObjects; [apply _|]. intros s'. by apply same_evolves.
Qed.

Section reading.
Context (id : string) (e : ObservationEvidence).
Abbreviation R := (under (read id e) evolving).
#[local] Instance reading_preorder : PreOrder R := _.
Lemma reading_same d d' (o : O) : sameObservations d d' → R (mkRet d o) (mkRet d' o).
Proof. intros H _. by apply same_evolves. Qed.
Lemma reading_other n s : R s (rw_other v n s).
Proof. intros _. apply Hother. Qed.
Lemma reading_delete s key : R s (mkRet (rt_db s) (deleteObject key (rt_objects s))).
Proof. intros _. by apply same_evolves. Qed.
Lemma reading_put st workspace kind id' data : Steps R (putArchive (O:=O) st workspace kind id' data).
Proof. intros env n s _. apply evolving_put. Qed.
Lemma reading_lease {A} run (m : M (Ret O) A) : Steps R m → Steps R (withRetentionLease v w (pause v) run m).
Proof.
  intros. eapply frame_lease; try apply _; [apply reading_same|apply steps_pause, reading_other|done].
Qed.
Lemma reading_readArchive run workspace key digest size :
  Steps R (withRetentionLease v w (pause v) run (readArchive (wkStore w) workspace key digest size)).
Proof. apply reading_lease. steps. Qed.
Lemma reading_begin run item kind data : Steps R (beginArchivePublication v w run item kind data).
Proof. eapply frame_begin; [apply _|apply reading_same|apply reading_other]. Qed.
Lemma reading_publish run item kind data : Steps R (publishArchive v w run item kind data).
Proof. apply reading_lease, reading_put. Qed.
Lemma reading_present run a : Steps R (archiveEvidencePresent v w run a).
Proof. eapply frame_archivePresent; [apply _|apply reading_same|apply reading_other]. Qed.
Lemma reading_delete_archive run workspace key :
  Steps R (withRetentionLease v w (pause v) run (deleteArchive (wkStore w) workspace key)).
Proof. apply reading_lease. eapply frame_deleteIn; [apply _|apply reading_delete]. Qed.
Lemma reading_lift {A} (m : M DB A) : Steps (under (seen id e) evolves) m → Steps R (lift m).
Proof. intros H. apply steps_lift. intros env n d o Hs. apply H, Hs. Qed.
Lemma reading_db {A} (m : M DB A) : Steps (under (seen id e) evolves) m → Steps R (db v m).
Proof. intros H. apply steps_db; [apply _|apply reading_other|by apply reading_lift]. Qed.
Lemma reading_query {A} (f : Z → DB → Res A) : Steps R (db v (query f)).
Proof. apply reading_db, steps_query, _. Qed.
End reading.
#[local] Hint Resolve reading_readArchive reading_begin reading_publish reading_present reading_delete_archive
  reading_query : steps.

Lemma evolve_any {A} id e (m : M DB A) : Steps evolves m → Steps (under (seen id e) evolves) m.
Proof. intros H env n d _. apply H. Qed.

(** The first statement of the three actions. *)
Lemma steps_reading_row {A} run item (k : ObservationRow → M (Ret O) A) :
  (∀ o, Steps (under (read (itemResource item) (ob_evidence o)) evolving) (k o)) →
  Steps evolving (bind (db v (readObservation run item)) k).
Proof.
  intros H env n s. unfold db, readObservation, bind, pause, lift. simpl.
  destruct (query _ env (n + 1)%nat (rt_db (rw_other v n s))) as [[o|x] d n'] eqn:E; simpl.
  - apply query_inv in E as [E ->]. etransitivity; [apply Hother|]. apply (H o env n' (mkRet _ _)).
    unfold observationOf in E. destruct (t_observations _ !! itemResource item) as [o'|] eqn:Eo; [|done].
    destruct (_ ==? _) in E; [|done]. simplify_eq. by exists o.
  - assert (d = rt_db (rw_other v n s)) as ->; [|apply Hother].
    unfold query, stmt in E. destruct (_ || _); [by simplify_eq|]. destruct (observationOf _ _ _); by simplify_eq.
Qed.

Lemma reading_pause id e : Steps (under (read id e) evolving) (pause v).
Proof. apply steps_pause, reading_other. Qed.
Lemma reading_lookup {A} id e (f : Z → DB → Res A) : Steps (under (read id e) evolving) (lift (query f)).
Proof. apply reading_lift, steps_query, _. Qed.
#[local] Hint Resolve reading_pause reading_lookup : steps.
#[local] Instance reading_rows_preorder id e : PreOrder (under (read id e) evolving) := _.

Lemma evolve_archiveObservation run item : Steps evolving (archiveObservation v w run item).
Proof.
  unfold archiveObservation. apply steps_reading_row. intros o. cbv zeta.
  destruct (oe_data (ob_evidence o)) as [d|] eqn:Hd; unfold observationProtection; steps.
  apply reading_lift, steps_transaction, evolve_archiveTx; [apply _|done].
Qed.
Lemma evidenceAvailabilityError_lost x st problem : evidenceAvailabilityError x = Some (st, problem) → st ∈ lostStates.
Proof. unfold evidenceAvailabilityError. destruct x; intros; simplify_eq; apply (bool_decide_eq_true_1 _); reflexivity. Qed.
(** An archived copy that could not be read. *)
Lemma evolve_unreadable run item e x f :
  oe_availability e ≠ "available" → oe_availability e ≠ "expired" → default "" (oe_transition e) = "" →
  f (oe_transition e) = None ∨ f (oe_transition e) = oe_transition e →
  Steps (under (read (itemResource item) e) evolving)
    (match evidenceAvailabilityError x with
     | None => throw x
     | Some (st, _) => db v (markEvidence run item (oe_revision e) st f) ;;; ret (lostEvidence st)
     end).
Proof.
  intros Ha He Ht Hf. destruct (evidenceAvailabilityError x) as [[st problem]|] eqn:Ex; [|steps].
  apply evidenceAvailabilityError_lost in Ex. apply steps_bind; [apply _| |steps]. by apply reading_db, evolve_markEvidence.
Qed.
Lemma evolve_restoreObservation run item : Steps evolving (restoreObservation v w run item).
Proof.
  unfold restoreObservation. apply steps_reading_row. intros o. apply steps_bind; [apply _|steps|]. intros a. cbv zeta.
  destruct (oe_availability (ob_evidence o) ==? "available") eqn:Ha; [steps|]. apply bool_decide_eq_false in Ha.
  destruct (_ || _) eqn:E; [steps|]. apply orb_false_iff in E as [He%bool_decide_eq_false Ht%negb_false_iff%bool_decide_eq_true].
  apply steps_handle; [apply _|steps|]. intros [data|x]; [|by apply evolve_unreadable; auto].
  destruct (rw_decode v data) as [data'|]; [|steps]. apply steps_bind; [apply _| |steps].
  apply reading_db, steps_transaction, evolve_restoreTx; [apply _|done].
Qed.
Lemma evolve_expireCopy run item a e revision gone :
  Steps (under (read (itemResource item) e) evolving) (expireCopy v w run item a revision gone).
Proof.
  unfold expireCopy. steps. apply reading_lift, steps_transaction; [apply _|]. apply evolve_any, evolve_expiredTx.
Qed.
Lemma evolve_clearing run item e :
  Steps (under (read (itemResource item) e) evolving) (db v (clearObservationTransition run (itemResource item))).
Proof. apply reading_db, evolve_any, evolve_clear. Qed.
Lemma evolve_recheckCopy run item a e revision :
  Steps (under (read (itemResource item) e) evolving) (recheckCopy v w run item a revision).
Proof.
  pose proof (evolve_expireCopy run item a e) as H1. pose proof (evolve_clearing run item e) as H2.
  unfold recheckCopy, observationProtection. steps.
Qed.
Lemma evolve_expireArchive run item : Steps evolving (expireObservationArchive v w run item).
Proof.
  unfold expireObservationArchive. apply steps_reading_row. intros o. apply steps_bind; [apply _|steps|]. intros a. cbv zeta.
  pose proof (evolve_expireCopy run item a (ob_evidence o)) as H1. pose proof (evolve_clearing run item (ob_evidence o)) as H2.
  pose proof (evolve_recheckCopy run item a (ob_evidence o)) as H3.
  destruct (_ ==? "expired") eqn:He; [steps|]. apply bool_decide_eq_false in He.
  destruct (_ || _); [steps|]. destruct (_ !=? _) eqn:Ha; [steps|]. apply negb_false_iff, bool_decide_eq_true in Ha.
  apply steps_bind; [apply _|unfold observationProtection; steps|]. intros reasons.
  destruct (default "" _ ==? "") eqn:Ht; [|steps]. apply bool_decide_eq_true in Ht.
  destruct (negb _); [steps|]. apply steps_handle; [apply _|steps|].
  intros [data|x]; [|apply evolve_unreadable; auto; congruence].
  steps. apply reading_lift, steps_transaction, evolve_expiringTx. apply _.
Qed.

(** Readers record what they find of an archived copy. *)
Lemma evolve_record workspace id e st states :
  (∀ o, ob_evidence o = e → oe_availability e ∈ states →
    evidenceStep e (moved e st (oe_expired_at e) (oe_transition e))) →
  Steps (under (read id e) evolving) (db v (recordObservation workspace id (oe_revision e) states st)).
Proof.
  intros Hf. apply reading_db. unfold recordObservation. apply steps_exec; [apply _|]. intros t d Hs. simpl.
  apply update_seen; [done|]. intros o He Ha%bool_decide_eq_true. rewrite <- He in *. split; [done|]. by apply (Hf o).
Qed.
Lemma evolve_read_row {A} workspace id (k : ObservationRow → M (Ret O) A) :
  (∀ o, Steps (under (read id (ob_evidence o)) evolving) (k o)) →
  Steps evolving (bind (db v (query (λ _ d, match observationOf workspace id d with Some o => Ok o | None => Err ErrNoRows end))) k).
Proof.
  pose (run := {| runID := ""; runRow := queuedRun 0 {| rr_workspace_id := workspace; rr_operation := RestoreObservation "";
    rr_requested_by := ""; rr_rationale := ""; rr_idempotency_key := ""; rr_binding_digest := ""; rr_created_at := 0 |} |}).
  pose (item := {| itemID := ""; itemRow := queuedItem {| ri_workspace_id := workspace; ri_run_id := ""; ri_ordinal := 0;
    ri_class := ""; ri_kind := ""; ri_resource_id := id; ri_action := ""; ri_object := None |} |}).
  apply (steps_reading_row run item).
Qed.
Lemma evolve_observationEvidence reader workspace id : Steps evolving (observationEvidence v reader workspace id).
Proof.
  unfold observationEvidence. apply evolve_read_row. intros o. cbv zeta.
  apply steps_guarded; [apply _|]. intros He%negb_true_iff%bool_decide_eq_false.
  apply steps_guarded; [apply _|]. intros Ht%bool_decide_eq_true.
  destruct (_ ==? "available") eqn:Ha; [steps|]. apply bool_decide_eq_false in Ha.
  destruct reader as [prefix|]; [|steps]. destruct (oe_archive (ob_evidence o)) as [a|]; [|steps].
  apply steps_handle; [apply _|unfold readExact; steps|]. intros [data|x].
  - destruct (oe_availability (ob_evidence o) !=? "archived"); [|steps].
    apply steps_bind; [apply _| |steps]. apply evolve_record. intros. by apply es_found.
  - destruct (evidenceAvailabilityError x) as [[st problem]|] eqn:Ex; [|steps]. apply evidenceAvailabilityError_lost in Ex.
    apply steps_bind; [apply _| |steps]. apply evolve_record. intros. apply es_lost; auto.
Qed.

(** The row [o] of [id] has moved on to what [s] has. *)
Definition livesOn (id : string) (o : ObservationRow) (s : Ret O) : Prop :=
  ∃ o', t_observations (rt_db s) !! id = Some o' ∧ sameObservation o o' ∧
    rtc evidenceStep (ob_evidence o) (ob_evidence o') ∧ evidenceOK (ob_evidence o') ∧
    oe_revision (ob_evidence o) ≤ oe_revision (ob_evidence o') ∧
    (oe_revision (ob_evidence o') = oe_revision (ob_evidence o) → ob_evidence o' = ob_evidence o) ∧
    (oe_availability (ob_evidence o) = "expired" → ob_evidence o' = ob_evidence o).
Lemma evolving_livesOn s s' id o :
  t_observations (rt_db s) !! id = Some o → evidenceOK (ob_evidence o) → evolving s s' → livesOn id o s'.
Proof.
  intros Ho Hok H. destruct (H id o Ho) as (o' & Ho' & Hm & Hs). exists o'. split; [done|]. split; [done|]. split; [done|].
  split; [by eapply evidenceSteps_ok|]. destruct (evidenceSteps_revision _ _ Hs). split; [done|]. split; [done|].
  intros He. by apply (expired_final _ _ Hs).
Qed.
Lemma evolve_processNext : Steps evolving (ProcessNextRetention v w).
Proof.
  apply frame_processNext; [apply _|intros d d' o'; apply same_evolves|done|intros s' key; by apply same_evolves| | | |].
  - intros. apply evolving_put.
  - apply evolve_archiveObservation.
  - apply evolve_expireArchive.
  - apply evolve_restoreObservation.
Qed.

(** C24: the evidence of an observation only moves along its life cycle, from
    hot to archived and back, lost and found, expiring and kept or expired,
    one revision per move, whatever the other sessions do between the
    statements of a worker or a reader as long as they do the same: rows stay,
    the columns stay consistent (hot data while available; a reference to the
    archived copy, a summary and no data while archived or lost; a date exactly
    when expired), evidence read at a revision is the evidence of that
    revision, and expired evidence never changes again. *)
Theorem evidence_lifecycle env n s id o :
  t_observations (rt_db s) !! id = Some o → evidenceOK (ob_evidence o) →
  livesOn id o (out_db (ProcessNextRetention v w env n s)) ∧
  ∀ reader workspace other, livesOn id o (out_db (observationEvidence v reader workspace other env n s)).
Proof.
  intros Ho Hok. split; [|intros]; apply (evolving_livesOn s); try done;
    [apply evolve_processNext|apply evolve_observationEvidence].
Qed.
End sessions.
