(* ===== verification/RetentionContent.v ===== *)
(** * Archiving keeps the content

    An observation archived, lost, found, restored and archived again is the
    observation that was imported.  The copy is named after workspace,
    directory, resource and digest, and no two of these share a key. *)
From S2P Require Import Prelude GoLib Encoding Tx ReportAdapter Schema Auth Intake Correlations Retention RetentionStore RetentionWorker RetentionActions RetentionArchive RetentionRuns RetentionFence.
Local Open Scope Z_scope.

(** ** Keys *)

Definition noSlash (s : string) : Prop := Forall (λ b, b ≠ 47%N) (bytes s).
Lemma segment_noSlash s : storageSegment s = true → noSlash s.
Proof.
  unfold storageSegment, noSlash. destruct (bytes s) as [|b l]; [done|]. intros H.
  apply andb_true_iff in H as [[Hb _]%andb_true_iff Hl]. constructor; [by intros ->|].
  apply Forall_forall. intros x Hx ->. rewrite forallb_forall in Hl. apply list_elem_of_In in Hx. by apply Hl in Hx.
Qed.
Lemma validID_noSlash s : validID s = true → noSlash s.
Proof.
  unfold validID, noSlash. destruct (negb _); [done|]. intros Hl.
  apply Forall_forall. intros x Hx ->. rewrite forallb_forall in Hl. apply list_elem_of_In in Hx. by apply Hl in Hx.
Qed.
Lemma bytes_split (a a' x x' : list N) :
  Forall (λ b, b ≠ 47%N) a → Forall (λ b, b ≠ 47%N) a' → a ++ 47%N :: x = a' ++ 47%N :: x' → a = a' ∧ x = x'.
Proof.
  intros Ha. revert a'. induction Ha as [|b a Hb Ha IH]; intros [|b' a'] Ha' E; simplify_eq/=; try done.
  - by inversion Ha'.
  - inversion Ha'; subst. destruct (IH a') as [-> ->]; done.
Qed.
Lemma segment_split a a' x x' : noSlash a → noSlash a' → a +:+ "/" +:+ x = a' +:+ "/" +:+ x' → a = a' ∧ x = x'.
Proof.
  intros Ha Ha' E%(f_equal bytes). rewrite !bytes_app in E. destruct (bytes_split _ _ _ _ Ha Ha' E) as [E1 E2].
  split; by apply bytes_inj.
Qed.
Lemma string_app_inv a x y : a +:+ x = a +:+ y → x = y.
Proof. intros E%(f_equal bytes). rewrite !bytes_app in E. apply app_inv_head in E. by apply bytes_inj. Qed.

Lemma archiveIdentity_ok st workspace kind id data key digest :
  archiveIdentity st workspace kind id data = Ok (key, digest) →
  noSlash workspace ∧ noSlash kind ∧ noSlash id ∧ digest = reportDigest data ∧
  key = stArchive st +:+ workspace +:+ "/" +:+ kind +:+ "/" +:+ id +:+ "/" +:+ hex (Sum256 data).
Proof.
  unfold archiveIdentity. destruct (storageSegment workspace) eqn:E1; [|done]. destruct (storageSegment kind) eqn:E2; [|done].
  destruct (validID id) eqn:E3; [|done]. simpl. destruct (_ <? _); [done|]. intros [= <- <-].
  auto using segment_noSlash, validID_noSlash.
Qed.
(** Different resources have different keys. *)
Lemma archiveIdentity_inj st workspace kind id data workspace' kind' id' data' key digest digest' :
  archiveIdentity st workspace kind id data = Ok (key, digest) →
  archiveIdentity st workspace' kind' id' data' = Ok (key, digest') → workspace = workspace' ∧ kind = kind' ∧ id = id'.
Proof.
  intros (Hw & Hk & Hi & _ & ->)%archiveIdentity_ok (Hw' & Hk' & Hi' & _ & E)%archiveIdentity_ok.
  apply string_app_inv in E. apply segment_split in E as [-> E]; [|done..].
  apply segment_split in E as [-> E]; [|done..]. by apply segment_split in E as [-> E].
Qed.

(** ** Values

    [Yields I m P]: a value returned from a state that satisfies [I] satisfies [P]. *)
Definition Yields {S A} (I : S → Prop) (m : M S A) (P : A → Prop) : Prop :=
  ∀ env n s a, I s → out_res (m env n s) = Ok a → P a.

Section yields.
Context {S : Type} (I : S → Prop).
Lemma yields_ret {A} (a : A) (P : A → Prop) : P a → Yields I (ret a) P.
Proof. intros Ha env n s b _ [= <-]. done. Qed.
Lemma yields_bind {A B} (m : M S A) (k : A → M S B) (Q : A → Prop) (P : B → Prop) :
  Steps (preserves I) m → Yields I m Q → (∀ a, Q a → Yields I (k a) P) → Yields I (bind m k) P.
Proof.
  intros Hm HQ Hk env n s b Hs. unfold bind. specialize (Hm env n s Hs). specialize (HQ env n s).
  destruct (m env n s) as [[a|e] s1 n1]; simpl in *; [|done]. apply Hk; auto.
Qed.
Lemma yields_skip {A B} (m : M S A) (k : A → M S B) (P : B → Prop) :
  Steps (preserves I) m → (∀ a, Yields I (k a) P) → Yields I (bind m k) P.
Proof. intros Hm Hk. by apply (yields_bind _ _ (λ _, True)). Qed.
Lemma yields_throw {A} e (P : A → Prop) : Yields I (throw e) P.
Proof. by intros env n s a _. Qed.
Lemma yields_handle {A B} (m : M S A) (k : Res A → M S B) (P : B → Prop) :
  Steps (preserves I) m → (∀ r, Yields I (k r) P) → Yields I (handle m k) P.
Proof.
  intros Hm Hk env n s b Hs. unfold handle. specialize (Hm env n s Hs). destruct (m env n s) as [r s1 n1]. by apply Hk.
Qed.
Lemma steps_yields {A B} (m : M S A) (k : A → M S B) (P : A → Prop) :
  Steps (preserves I) m → Yields I m P → (∀ a, P a → Steps (preserves I) (k a)) → Steps (preserves I) (bind m k).
Proof.
  intros Hm HP Hk env n s Hs. unfold bind. specialize (Hm env n s Hs). specialize (HP env n s).
  destruct (m env n s) as [[a|e] s1 n1]; simpl in *; [|done]. apply Hk; auto.
Qed.
Lemma steps_yields_handle {A B} (m : M S A) (k : Res A → M S B) (P : A → Prop) :
  Steps (preserves I) m → Yields I m P → (∀ a, P a → Steps (preserves I) (k (Ok a))) →
  (∀ e, Steps (preserves I) (k (Err e))) → Steps (preserves I) (handle m k).
Proof.
  intros Hm HP Hk He env n s Hs. unfold handle. specialize (Hm env n s Hs). specialize (HP env n s).
  destruct (m env n s) as [[a|e] s1 n1]; simpl in *; [apply Hk|apply He]; auto.
Qed.
End yields.

Section content.
Context {O : Type} `{!ObjectService O, !ObjectLaws O} (v : RetentionWorld (O:=O)) (w : retentionWorker).
(** The observation [id] of [workspace], its content and the name of its copy. *)
Context (workspace id : string) (content : Observation) (key digest : string).
Abbreviation text := (rw_text v content).
Context (Hkey : archiveIdentity (wkStore w) workspace "observations" id text = Ok (key, digest)).
(** Go reads back what PostgreSQL wrote. *)
Context (Hdecode : rw_decode v text = Some content).

Definition reference (a : ArchiveRef) : Prop := ar_key a = key ∧ ar_digest a = digest ∧ ar_size a = Z.of_nat (length text).
Definition rowContent (o : ObservationRow) : Prop :=
  ob_workspace_id o = workspace ∧ (∀ x, oe_data (ob_evidence o) = Some x → x = content) ∧
  (oe_data (ob_evidence o) = None → isSome (oe_archive (ob_evidence o)) = true) ∧
  (∀ a, oe_archive (ob_evidence o) = Some a → reference a).
(** The row holds the content, or a reference to the one key at which only its text is found. *)
Definition keepsContent (s : Ret O) : Prop :=
  (∃ o, t_observations (rt_db s) !! id = Some o ∧ rowContent o) ∧
  (∀ data, getObject (rt_objects s) key = Some data → data = text).
Context (Hother : ∀ n s, keepsContent s → keepsContent (rw_other v n s)).
Abbreviation R := (preserves keepsContent).

Lemma content_same d d' o : sameObservations d d' → R (mkRet d o) (mkRet d' o).
Proof. intros E [(o' & Ho & Hc) Hobj]. split; [exists o'; simpl; by rewrite E|done]. Qed.
Lemma content_delete s k : R s (mkRet (rt_db s) (deleteObject k (rt_objects s))).
Proof.
  intros [Hrow Hobj]. split; [done|]. intros data. simpl. destruct (decide (key = k)) as [<-|Hne].
  - by rewrite get_delete.
  - rewrite get_delete_other by done. apply Hobj.
Qed.
Lemma content_write ws kind id' data k dg :
  archiveIdentity (wkStore w) ws kind id' data = Ok (k, dg) →
  (ws = workspace → kind = "observations" → id' = id → data = text) → Steps R (writeObjects (O:=O) (putObject k data)).
Proof.
  intros E Hd. apply steps_writeObjects; [apply _|].
  intros s [Hrow Hobj]. split; [done|]. intros x. simpl. destruct (decide (key = k)) as [<-|Hne].
  - rewrite get_put. intros [= <-]. destruct (archiveIdentity_inj _ _ _ _ _ _ _ _ _ _ _ _ Hkey E) as (<- & <- & <-). by apply Hd.
  - rewrite get_put_other by done. apply Hobj.
Qed.
Lemma content_put ws kind id' data :
  (ws = workspace → kind = "observations" → id' = id → data = text) →
  Steps R (putArchive (O:=O) (wkStore w) ws kind id' data).
Proof.
  intros Hd. unfold putArchive, readRetentionObject. destruct (archiveIdentity _ ws kind id' data) as [[k dg]|e] eqn:E; [|steps].
  apply steps_bind; [apply _| |intros; steps]. by eapply content_write.
Qed.
Lemma content_update ws id' P f d o :
  (id' = id → ws = workspace → ∀ r, rowContent r → P r = true → rowContent (f r)) →
  R (mkRet d o) (mkRet (snd (updateObservation ws id' P f d)) o).
Proof.
  intros H [(r & Hr & Hc) Hobj]. split; [|done]. simpl in *. unfold updateObservation, updateOne.
  destruct (t_observations d !! id') as [r'|] eqn:Er; [|by exists r].
  destruct (_ && _) eqn:E; [|by exists r]. apply andb_true_iff in E as [Ews%bool_decide_eq_true HP]. simpl.
  destruct (decide (id' = id)) as [->|Hne].
  - rewrite lookup_insert_eq. simplify_eq. exists (f r). split; [done|]. apply H; [done| |done..]. by destruct Hc as [<- _].
  - rewrite lookup_insert_ne by done. by exists r.
Qed.
Lemma moved_content availability expired transition r : rowContent r → rowContent (movedEvidence availability expired transition r).
Proof. done. Qed.

#[local] Instance content_preorder : PreOrder R := _.
#[local] Instance content_lifted : PreOrder (lifted R) := _.
Lemma content_same_steps {A} (m : M DB A) : Steps sameObservations m → Steps (lifted R) m.
Proof. intros H env n d o. apply content_same, H. Qed.
Lemma content_lock run : Steps (lifted R) (lockRetentionRun run).
Proof. apply content_same_steps, same_lock. Qed.
Lemma content_finishPublication p st : Steps (lifted R) (finishArchivePublication p st).
Proof. apply content_same_steps, same_finishPublication. Qed.
#[local] Hint Resolve content_lock content_finishPublication : steps.
Lemma content_exec {A} (g : Z → DB → A) ws id' P f :
  (id' = id → ws = workspace → ∀ r, rowContent r → P r = true → rowContent (f r)) →
  Steps (lifted R) (exec (λ t d, (g t d, snd (updateObservation ws id' P f d)))).
Proof. intros H. apply steps_exec; [apply _|]. intros t d o. by apply content_update. Qed.
Lemma content_counted ws id' P f :
  (id' = id → ws = workspace → ∀ r, rowContent r → P r = true → rowContent (f r)) →
  Steps (lifted R) (exec (λ t d, updateObservation ws id' P f d)).
Proof. intros H. apply steps_exec; [apply _|]. intros t d o. by apply content_update. Qed.

Definition about (run : retentionRunRecord) (item : retentionItemRecord) : Prop :=
  itemResource item = id ∧ runWorkspace run = workspace.

Lemma content_archiveTx run item p published data revision summary :
  (about run item → published = (key, digest) ∧ data = text) →
  Steps (lifted R) (archiveTx v run item p published data revision summary).
Proof.
  intros H. unfold archiveTx, observationProtection. steps. apply content_counted.
  intros E1 E2 r (Hws & Hd & Hn & Ha) _. destruct (H (conj E1 E2)) as [-> ->].
  split; [done|]. split; [done|]. split; [done|]. by intros ? [= <-].
Qed.
Lemma content_restoreTx run item revision data :
  (about run item → data = content) → Steps (lifted R) (restoreTx run item revision data).
Proof.
  intros H. unfold restoreTx. steps. apply content_counted.
  intros E1 E2 r (Hws & Hd & Hn & Ha) _. rewrite (H (conj E1 E2)). split; [done|]. split; [by intros x [= <-]|]. done.
Qed.
Lemma content_expiringTx run item revision : Steps (lifted R) (expiringTx v run item revision).
Proof. unfold expiringTx, observationProtection. steps. by apply content_counted. Qed.
Lemma content_expiredTx run item revision k : Steps (lifted R) (expiredTx run item revision k).
Proof.
  unfold expiredTx. steps; [by apply content_counted|]. apply steps_exec; [apply _|]. intros t d o. by apply content_same.
Qed.
Lemma content_clear run id' : Steps (lifted R) (clearObservationTransition run id').
Proof. unfold clearObservationTransition. steps. by apply (content_exec (λ _ _, tt)). Qed.
Lemma content_mark run item revision st f : Steps (lifted R) (markEvidence run item revision st f).
Proof. unfold markEvidence. steps. by apply (content_exec (λ _ _, tt)). Qed.
Lemma content_db {A} (m : M DB A) : Steps (lifted R) m → Steps R (db v m).
Proof. intros H. apply steps_db; [apply _|exact Hother|by apply steps_lift]. Qed.
Lemma content_lifted_steps {A} (m : M DB A) : Steps (lifted R) m → Steps R (lift m).
Proof. by apply steps_lift. Qed.
Lemma content_pause : Steps R (pause v).
Proof. apply steps_pause. exact Hother. Qed.
Lemma content_lease {A} run (m : M (Ret O) A) : Steps R m → Steps R (withRetentionLease v w (pause v) run m).
Proof. intros. eapply frame_lease; try apply _; [apply content_same|apply content_pause|done]. Qed.
Lemma content_readArchive run ws k dg size :
  Steps R (withRetentionLease v w (pause v) run (readArchive (wkStore w) ws k dg size)).
Proof. apply content_lease. steps. Qed.
Lemma content_begin run item kind data : Steps R (beginArchivePublication v w run item kind data).
Proof. eapply frame_begin; [apply _|apply content_same|exact Hother]. Qed.
Lemma content_present run a : Steps R (archiveEvidencePresent v w run a).
Proof. eapply frame_archivePresent; [apply _|apply content_same|exact Hother]. Qed.
Lemma content_deleteArchive run ws k :
  Steps R (withRetentionLease v w (pause v) run (deleteArchive (wkStore w) ws k)).
Proof. apply content_lease. eapply frame_deleteIn; [apply _|apply content_delete]. Qed.
Lemma content_query {A} (f : Z → DB → Res A) : Steps R (lift (query f)).
Proof. apply content_lifted_steps, steps_query, _. Qed.
#[local] Hint Resolve content_pause content_readArchive content_begin content_present content_deleteArchive content_query : steps.

(** What was read of the row. *)
Lemma yields_row run item :
  Yields keepsContent (db v (readObservation run item)) (λ o, itemResource item = id → about run item ∧ rowContent o).
Proof.
  intros env n s o Hs. unfold db, readObservation, bind, pause, lift. simpl. apply (Hother n) in Hs as [(r & Hr & Hc) _].
  destruct (query _ _ _ _) as [[o'|x] d n'] eqn:E; [|done]. intros [= ->] Hid. apply query_inv in E as [E _].
  unfold observationOf in E. rewrite Hid, Hr in E. destruct (_ ==? _) eqn:Ews in E; [|done]. simplify_eq.
  apply bool_decide_eq_true in Ews. destruct Hc as [Hws ?]. split; [split; [done|congruence]|done].
Qed.
Lemma content_readRow run item : Steps R (db v (readObservation run item)).
Proof. apply content_db. unfold readObservation. apply steps_query, _. Qed.
Lemma content_row {A} run item (k : ObservationRow → M (Ret O) A) :
  (∀ o, (itemResource item = id → about run item ∧ rowContent o) → Steps R (k o)) →
  Steps R (bind (db v (readObservation run item)) k).
Proof. apply steps_yields; [apply content_readRow|apply yields_row]. Qed.
Lemma content_renew run : Steps R (lift (renewRetentionLease w run)).
Proof. apply content_lifted_steps, content_same_steps, same_renew. Qed.
#[local] Hint Resolve content_renew : steps.
Lemma yields_lease {A} run (m : M (Ret O) A) (P : A → Prop) :
  Yields keepsContent m P → Yields keepsContent (withRetentionLease v w (pause v) run m) P.
Proof.
  intros Hm. unfold withRetentionLease. do 3 (apply yields_skip; [steps|intros _]). intros env n s a Hs. unfold handle.
  specialize (Hm env n s). destruct (m env n s) as [r s1 n1]. unfold bind, heartbeat. simpl in *.
  destruct (rw_beat v n1) as [[|]|]; [done..|]. destruct r; [|done]. intros [= ->]. by apply Hm.
Qed.
(** The name a copy is published under. *)
Lemma content_published run item data :
  (about run item → data = text) →
  Yields keepsContent (publishArchive v w run item "observations" data) (λ p, about run item → p = (key, digest)).
Proof.
  intros Hd. apply yields_lease. unfold putArchive, readRetentionObject.
  destruct (archiveIdentity _ _ _ _ data) as [[k dg]|e] eqn:E; [|apply yields_throw].
  assert (about run item → (k, dg) = (key, digest)) as Hkd.
  { intros [Hid Hws]. rewrite Hid, Hws, Hd, Hkey in E by done. by simplify_eq. }
  apply yields_skip; [eapply content_write; [done|]; intros; by apply Hd|intros _]. apply yields_handle; [steps|intros head].
  apply yields_skip; [steps|intros _]. apply yields_handle; [steps|intros verified].
  apply yields_skip; [steps|intros _]. by apply yields_ret.
Qed.
(** What is read of the copy. *)
Lemma content_copy run a :
  Yields keepsContent (withRetentionLease v w (pause v) run (readArchive (wkStore w) (runWorkspace run) (ar_key a) (ar_digest a) (ar_size a)))
    (λ data, reference a → data = text).
Proof.
  apply yields_lease. unfold readArchive, readRetentionObject, readVerified. do 4 (apply yields_skip; [steps|intros _]).
  apply (yields_bind _ _ _ (λ data, reference a → data = text)); [steps| |intros data Hd; apply yields_skip; [steps|intros _]; by apply yields_ret].
  intros env n s data [_ Hobj] H (E1 & _). unfold readObject in H. simpl in H. rewrite E1 in H. destruct (env_fault env n); [done|].
  destruct (getObject _ key) as [x|] eqn:E; [|done]. simplify_eq. by apply Hobj.
Qed.

Lemma content_archiveObservation run item : Steps R (archiveObservation v w run item).
Proof.
  unfold archiveObservation. apply content_row. intros o Ho. cbv zeta.
  destruct (oe_data (ob_evidence o)) as [x|] eqn:Hx; [|unfold observationProtection; steps].
  assert (about run item → rw_text v x = text) as Hd.
  { intros [Hid _]. destruct (Ho Hid) as (_ & _ & Hc & _). by rewrite (Hc x Hx). }
  do 2 (case_if; [steps|]). apply steps_bind; [apply _|unfold observationProtection; steps|]. intros reasons.
  case_if; [steps|]. apply steps_bind; [apply _|steps|]. intros p.
  eapply steps_yields; [|by apply content_published|].
  - apply content_lease, content_put. intros Hws _ Hid. by apply Hd.
  - intros published Hp. apply content_db, steps_transaction, content_archiveTx; [apply _|auto].
Qed.
Lemma content_restore run item : Steps R (restoreObservation v w run item).
Proof.
  unfold restoreObservation. apply content_row. intros o Ho.
  apply (steps_yields _ _ _ (λ a, oe_archive (ob_evidence o) = Some a)); [steps| |].
  { intros env n s a _. unfold scanArchive. destruct (oe_archive _); by intros [= ->]. }
  intros a Ha. cbv zeta. do 2 (case_if; [steps|]). eapply steps_yields_handle; [steps|apply content_copy| |].
  - intros data Hd. destruct (rw_decode v data) as [x|] eqn:Hx; [|steps]. apply steps_bind; [apply _| |steps].
    apply content_db, steps_transaction, content_restoreTx; [apply _|]. intros [Hid _].
    destruct (Ho Hid) as (_ & _ & _ & _ & Hr). rewrite (Hd (Hr a Ha)) in Hx. congruence.
  - intros x. destruct (evidenceAvailabilityError x) as [[st problem]|]; [|steps]. apply steps_bind; [apply _| |steps].
    apply content_db, content_mark.
Qed.
Lemma content_expireCopy run item a revision gone : Steps R (expireCopy v w run item a revision gone).
Proof. unfold expireCopy. steps. apply content_lifted_steps, steps_transaction, content_expiredTx. apply _. Qed.
Lemma content_clearing run id' : Steps R (db v (clearObservationTransition run id')).
Proof. apply content_db, content_clear. Qed.
#[local] Hint Resolve content_expireCopy content_clearing : steps.
Lemma content_recheck run item a revision : Steps R (recheckCopy v w run item a revision).
Proof. unfold recheckCopy, observationProtection. steps. Qed.
#[local] Hint Resolve content_recheck : steps.
Lemma content_expire run item : Steps R (expireObservationArchive v w run item).
Proof.
  unfold expireObservationArchive, observationProtection. steps.
  - apply content_lifted_steps, steps_transaction, content_expiringTx. apply _.
  - apply content_lifted_steps, content_mark.
Qed.

(** No action of the worker changes the content.  While a row holds [content] or refers to
    its copy, and the key of that copy holds the text of [content] or nothing,
    that stays so, whatever the worker works on, wherever it fails and whatever
    others do in between as long as they keep it too: a reference always names
    the digest, size and key of the text. *)
Theorem content_kept env n s : keepsContent s → keepsContent (out_db (ProcessNextRetention v w env n s)).
Proof.
  revert env n s. change (Steps R (ProcessNextRetention v w)).
  apply frame_processNext; [apply _|apply content_same|exact Hother|apply content_delete| | | |].
  - intros ws kind id' data Hne. by apply content_put.
  - apply content_archiveObservation.
  - apply content_expire.
  - apply content_restore.
Qed.
End content.
