(* ===== verification/RetentionRoundTrip.v ===== *)
(** * There and back

    An observation that was archived is an object that can be read, and what is
    restored is the observation that was archived: what a reported success
    means, and that both actions succeed when nothing is in their way. *)
From S2P Require Import Prelude GoLib Encoding Tx ReportAdapter Jobs Schema Auth Intake Correlations Retention RetentionStore StorageKeys RetentionWorker RetentionActions RetentionArchive RetentionRuns RetentionFence RetentionContent.
Local Open Scope Z_scope.

(** ** What a reported success means *)

Section reported.
Context {O : Type} `{!ObjectService O, !ObjectLaws O} (v : RetentionWorld (O:=O)) (w : retentionWorker).
Context (workspace id : string) (content : Observation) (key digest : string).
Abbreviation text := (rw_text v content).
Abbreviation keeps := (keepsContent v workspace id content key digest).
Context (Hkey : archiveIdentity (wkStore w) workspace "observations" id text = Ok (key, digest)).
Context (Hdecode : rw_decode v text = Some content).
Context (Hother : ∀ n s, keeps s → keeps (rw_other v n s)).
(** Others leave the copy where it is. *)
Context (Hcopy : ∀ n s, getObject (rt_objects s) key = Some text → getObject (rt_objects (rw_other v n s)) key = Some text).

(** The row is archived, names its copy, and the copy is there. *)
Definition archivedCopy (s : Ret O) : Prop :=
  ∃ o at_, t_observations (rt_db s) !! id = Some o ∧ ob_workspace_id o = workspace ∧
    oe_data (ob_evidence o) = None ∧ oe_availability (ob_evidence o) = "archived" ∧ oe_transition (ob_evidence o) = None ∧
    oe_archive (ob_evidence o) = Some {| ar_key := key; ar_digest := digest; ar_size := Z.of_nat (length text); ar_at := at_ |} ∧
    getObject (rt_objects s) key = Some text.
(** The row holds the content itself. *)
Definition holdsContent (s : Ret O) : Prop :=
  ∃ o, t_observations (rt_db s) !! id = Some o ∧ ob_workspace_id o = workspace ∧
    oe_data (ob_evidence o) = Some content ∧ oe_availability (ob_evidence o) = "available".

Lemma updateObservation_one ws i P f d d' : updateObservation ws i P f d = (1, d') →
  ∃ r, t_observations d !! i = Some r ∧ ob_workspace_id r = ws ∧ P r = true ∧ t_observations d' !! i = Some (f r).
Proof.
  unfold updateObservation, updateOne. destruct (t_observations d !! i) as [r|]; [|done]. destruct (_ && _) eqn:E; [|done].
  intros [= <-]. apply andb_true_iff in E as [E%bool_decide_eq_true HP]. exists r. simpl. by rewrite lookup_insert_eq.
Qed.
Lemma lift_inv {A} (m : M DB A) env n (s : Ret O) a s' n' : lift m env n s = mkOut (Ok a) s' n' →
  m env n (rt_db s) = mkOut (Ok a) (rt_db s') n' ∧ rt_objects s' = rt_objects s.
Proof. unfold lift. destruct (m env n (rt_db s)). by intros [= -> <- ->]. Qed.
Lemma db_inv {A} (m : M DB A) env n (s : Ret O) a s' n' : db v m env n s = mkOut (Ok a) s' n' →
  m env (n + 1)%nat (rt_db (rw_other v n s)) = mkOut (Ok a) (rt_db s') n' ∧ rt_objects s' = rt_objects (rw_other v n s).
Proof. intros H. by apply (lift_inv m env (n + 1)%nat (rw_other v n s)). Qed.
Lemma kept_by {A} (m : M (Ret O) A) env n s r s' n' :
  Steps (preserves keeps) m → keeps s → m env n s = mkOut r s' n' → keeps s'.
Proof. intros Hm Hs E. specialize (Hm env n s Hs). by rewrite E in Hm. Qed.
Lemma yielded {A} (m : M (Ret O) A) P env n s a s' n' : Yields keeps m P → keeps s → m env n s = mkOut (Ok a) s' n' → P a.
Proof. intros Hm Hs E. apply (Hm env n s a Hs). by rewrite E. Qed.
Lemma lease_inv {A} run (m : M (Ret O) A) env n s a s' n' : withRetentionLease v w (pause v) run m env n s = mkOut (Ok a) s' n' →
  ∃ s1 n1 n2, m env n1 s1 = mkOut (Ok a) s' n2.
Proof.
  intros (u & s1 & n1 & _ & H)%bind_inv. apply bind_inv in H as (u2 & s2 & n2 & _ & H).
  apply bind_inv in H as (u3 & s3 & n3 & _ & H). apply handle_inv in H as (r & s4 & n4 & Hm & H).
  apply bind_inv in H as (u4 & s5 & n5 & Hb & H). apply fromRes_inv in H as [-> ->].
  unfold heartbeat in Hb. injection Hb as _ <- _. eauto.
Qed.

Lemma unchanged_state {A} (m : M (Ret O) A) env n s r s' n' : Steps eq m → m env n s = mkOut r s' n' → s' = s.
Proof. intros Hm E. specialize (Hm env n s). by rewrite E in Hm. Qed.

(** A published copy is there. *)
Lemma put_there ws kind i data env n (s : Ret O) k dg s' n' :
  putArchive (wkStore w) ws kind i data env n s = mkOut (Ok (k, dg)) s' n' → getObject (rt_objects s') k = Some data.
Proof.
  unfold putArchive. destruct (archiveIdentity _ ws kind i data) as [[k' dg']|e]; [|done].
  intros (u & s1 & n1 & Hw & H)%bind_inv. apply handle_inv in H as (h & s2 & n2 & Hh & H).
  apply bind_inv in H as (u2 & s3 & n3 & [_ ->]%guard_inv & H). apply handle_inv in H as (r & s4 & n4 & Hr & H).
  apply bind_inv in H as (u3 & s5 & n5 & [_ ->]%guard_inv & [[= -> ->] ->]%ret_inv).
  apply unchanged_state in Hh as ->; [|unfold headObject; steps]. apply unchanged_state in Hr as ->; [|unfold readRetentionObject; steps].
  unfold writeObjects in Hw. destruct (env_commit env n); simplify_eq. simpl. apply get_put.
Qed.

Lemma archiveTx_archived run item p published data revision summary env n d d' n' :
  archiveTx v run item p published data revision summary env n d = mkOut (Ok (succeeded "archived")) d' n' →
  ∃ r at_, t_observations d' !! itemResource item = Some (archivedEvidence summary
      {| ar_key := fst published; ar_digest := snd published; ar_size := Z.of_nat (length data); ar_at := at_ |} r) ∧
    ob_workspace_id r = runWorkspace run.
Proof.
  unfold archiveTx. intros (u & d1 & n1 & _ & H)%bind_inv. apply bind_inv in H as (reasons & d2 & n2 & _ & H).
  destruct (negb _); [apply bind_inv in H as (u2 & d3 & n3 & _ & [[=] _]%ret_inv)|].
  apply bind_inv in H as (at_ & d3 & n3 & _ & H). apply bind_inv in H as (k & d4 & n4 & Hu%exec_inv & H).
  apply bind_inv in H as (u3 & d5 & n5 & [->%Z.eqb_eq ->]%guard_inv & H).
  apply bind_inv in H as (u4 & d6 & n6 & Hf & [_ ->]%ret_inv). apply updateObservation_one in Hu as (r & _ & Hws & _ & Hr).
  exists r, at_. split; [|done]. pose proof (same_finishPublication p PbReferenced env n5 d4) as Hs. rewrite Hf in Hs.
  simpl in Hs. unfold sameObservations in Hs. by rewrite Hs.
Qed.

(** What is reported archived has its copy. *)
Lemma archived_there run item env n s s' n' :
  itemResource item = id → runWorkspace run = workspace → keeps s →
  archiveObservation v w run item env n s = mkOut (Ok (succeeded "archived")) s' n' → archivedCopy s'.
Proof.
  intros Hid Hws Hs H. assert (Ha : about workspace id run item) by done. unfold archiveObservation in H.
  apply bind_inv in H as (o & s1 & n1 & Ho & H).
  pose proof (yielded _ _ _ _ _ _ _ _ (yields_row v workspace id content key digest Hother run item) Hs Ho Hid) as [_ Hrow].
  apply (kept_by _ _ _ _ _ _ _ (content_readRow v workspace id content key digest Hother run item) Hs) in Ho as Hs1. cbv zeta in H.
  destruct (_ ==? "archived"); [apply ret_inv in H as [[=] _]|]. destruct (negb _) eqn:Eav in H; [by apply ret_inv in H as [[=] _]|].
  apply bind_inv in H as (reasons & s2 & n2 & Hr & H). destruct (negb _) in H; [by apply ret_inv in H as [[=] _]|].
  apply kept_by in Hr as Hs2; [|eapply content_db; [done|unfold observationProtection; apply steps_query, _]|done].
  destruct (oe_data (ob_evidence o)) as [x|] eqn:Ex; [|done]. assert (x = content) as -> by (by apply Hrow).
  apply bind_inv in H as (p & s3 & n3 & Hb & H). apply kept_by in Hb as Hs3; [|by apply content_begin|done].
  apply bind_inv in H as (published & s4 & n4 & Hp & H).
  assert (published = (key, digest)) as -> by
    (refine (yielded _ _ _ _ _ _ _ _ (content_published v w workspace id content key digest Hkey Hother run item text (λ _, eq_refl)) Hs3 Hp Ha)).
  unfold publishArchive in Hp. apply lease_inv in Hp as (s5 & n5 & n6 & Hp). apply put_there, (Hcopy n4) in Hp.
  apply db_inv in H as [H Hobj]. apply transaction_inv in H as [n7 H].
  apply archiveTx_archived in H as (r & at_ & Hr' & Hw). rewrite Hid in Hr'. eexists _, at_. split; [exact Hr'|].
  simpl. split_and!; [congruence|done..|]. by rewrite Hobj.
Qed.

(** What is restored is the content. *)
Lemma restored_content run item env n s s' n' :
  itemResource item = id → runWorkspace run = workspace → keeps s →
  restoreObservation v w run item env n s = mkOut (Ok (succeeded "restored")) s' n' → holdsContent s'.
Proof.
  intros Hid Hws Hs H. unfold restoreObservation in H. apply bind_inv in H as (o & s1 & n1 & Ho & H).
  pose proof (yielded _ _ _ _ _ _ _ _ (yields_row v workspace id content key digest Hother run item) Hs Ho Hid) as [_ Hrow].
  apply (kept_by _ _ _ _ _ _ _ (content_readRow v workspace id content key digest Hother run item) Hs) in Ho as Hs1.
  apply bind_inv in H as (a & s2 & n2 & [Ha ->]%fromRes_inv & H). cbv zeta in H.
  assert (Hr : reference v content key digest a).
  { apply Hrow. unfold scanArchive in Ha. destruct (oe_archive _); [by simplify_eq|done]. }
  destruct (_ ==? "available"); [by apply ret_inv in H as [[=] _]|]. destruct (_ || _); [by apply ret_inv in H as [[=] _]|].
  apply handle_inv in H as (read & s3 & n3 & Hread & H). destruct read as [data|x].
  - assert (data = text) as -> by
      (exact (yielded _ _ _ _ _ _ _ _ (content_copy v w workspace id content key digest Hother run a) Hs1 Hread Hr)).
    rewrite Hdecode in H. apply bind_inv in H as (u & s4 & n4 & H & [_ ->]%ret_inv). apply db_inv in H as [H _].
    apply transaction_inv in H as [n5 H]. unfold restoreTx in H. apply bind_inv in H as (u2 & d1 & n6 & _ & H).
    apply bind_inv in H as (k & d2 & n7 & Hu%exec_inv & H). apply guard_inv in H as [->%Z.eqb_eq E].
    apply updateObservation_one in Hu as (r & _ & Hw & _ & Hu). rewrite Hid, <- E in Hu. eexists. split; [exact Hu|].
    simpl. split; [congruence|done].
  - destruct (evidenceAvailabilityError x) as [[st problem]|]; [|done].
    apply bind_inv in H as (u & s4 & n4 & _ & [H _]%ret_inv). unfold lostEvidence in H. by destruct (st ==? "missing").
Qed.
End reported.

(** ** Success when nothing is in the way

    [Total env P m Q]: from a state that satisfies [P] the program returns, and
    its result and the state it leaves satisfy [Q]. *)
Definition Total {S A} (env : Env) (P : S → Prop) (m : M S A) (Q : A → S → Prop) : Prop :=
  ∀ n s, P s → ∃ a s' n', m env n s = mkOut (Ok a) s' n' ∧ Q a s'.

Section total.
Context {S : Type} (env : Env) (Hok : faultless env).
Implicit Types (P : S → Prop).
Lemma total_ret {A} P (a : A) (Q : A → S → Prop) : (∀ s, P s → Q a s) → Total env P (ret a) Q.
Proof. intros H n s Hs. eexists _, _, _. split; [done|by apply H]. Qed.
Lemma total_bind {A B} P (Q : A → S → Prop) (m : M S A) (k : A → M S B) (T : B → S → Prop) :
  Total env P m Q → (∀ a, Total env (Q a) (k a) T) → Total env P (bind m k) T.
Proof. intros Hm Hk n s Hs. destruct (Hm n s Hs) as (a & s1 & n1 & E & Ha). unfold bind. rewrite E. by apply Hk. Qed.
Lemma total_handle {A B} P (Q : A → S → Prop) (m : M S A) (k : Res A → M S B) (T : B → S → Prop) :
  Total env P m Q → (∀ a, Total env (Q a) (k (Ok a)) T) → Total env P (handle m k) T.
Proof. intros Hm Hk n s Hs. destruct (Hm n s Hs) as (a & s1 & n1 & E & Ha). unfold handle. rewrite E. by apply Hk. Qed.
Lemma total_guard P b e : (∀ s, P s → b = true) → Total env P (guard b e) (λ _, P).
Proof. intros H n s Hs. unfold guard. rewrite (H s Hs). eexists _, _, _. by split. Qed.
Lemma total_query {A} P (f : Z → S → Res A) (Q : A → S → Prop) :
  (∀ n s, P s → ∃ a, f (env_clock env n) s = Ok a ∧ Q a s) → Total env P (query f) Q.
Proof. intros H n s Hs. destruct (H n s Hs) as (a & E & Ha). rewrite (run_query env Hok), E. eauto 6. Qed.
Lemma total_stmt {A} P (f : Z → S → Res (A * S)) (Q : A → S → Prop) :
  (∀ n s, P s → ∃ a s', f (env_clock env n) s = Ok (a, s') ∧ Q a s') → Total env P (stmt f) Q.
Proof. intros H n s Hs. destruct (H n s Hs) as (a & s' & E & Ha). rewrite (run_stmt env Hok), E. eauto 6. Qed.
Lemma total_exec {A} P (f : Z → S → A * S) (Q : A → S → Prop) :
  (∀ n s, P s → Q (fst (f (env_clock env n) s)) (snd (f (env_clock env n) s))) → Total env P (exec f) Q.
Proof. intros H n s Hs. rewrite (run_exec env Hok). eauto 6. Qed.
Lemma total_transaction {A} P (m : M S A) (Q : A → S → Prop) : Total env P m Q → Total env P (transaction m) Q.
Proof. intros H n s Hs. destruct (H n s Hs) as (a & s' & n' & E & Ha). rewrite (run_transaction env Hok), E. eauto 6. Qed.
Lemma total_weaken {A} P P' (m : M S A) (Q Q' : A → S → Prop) :
  Total env P m Q → (∀ s, P' s → P s) → (∀ a s, Q a s → Q' a s) → Total env P' m Q'.
Proof. intros H HP HQ n s Hs. destruct (H n s (HP s Hs)) as (a & s' & n' & E & Ha). eauto 6. Qed.
End total.

Section undisturbed.
Context {O : Type} `{!ObjectService O, !ObjectLaws O} (v : RetentionWorld (O:=O)) (w : retentionWorker).
Context (workspace id : string) (content : Observation) (key digest : string).
Abbreviation text := (rw_text v content).
Context (Hkey : archiveIdentity (wkStore w) workspace "observations" id text = Ok (key, digest)).
Context (Hdecode : rw_decode v text = Some content).
Context (Hprefix : validStoragePrefix (stArchive (wkStore w)) = true).
Context (env : Env) (run : retentionRunRecord) (item : retentionItemRecord).
Context (Hid : itemResource item = id) (Hws : runWorkspace run = workspace).

(** The worker holds the run, and no reading of the clock is past its lease. *)
Definition live (d : DB) : Prop :=
  ∃ r u, t_retentionRuns d !! runID run = Some r ∧ rr_workspace_id (rr_meta r) = workspace ∧ ownsRun run r = true ∧
    rr_lease_until (rr_job r) = Some u ∧ ∀ k, env_clock env k < u.
Definition unprotected (d : DB) : Prop := ∀ t, observationReasons (rw_assessed v) t workspace id d = [].
Definition freshNames (d : DB) : Prop := ∀ k, t_publications d !! env_fresh env k = None.
(** What others leave alone. *)
Record leftAlone (s s' : Ret O) : Prop := {
  la_run : t_retentionRuns (rt_db s') !! runID run = t_retentionRuns (rt_db s) !! runID run;
  la_row : t_observations (rt_db s') !! id = t_observations (rt_db s) !! id;
  la_publications : t_publications (rt_db s') = t_publications (rt_db s);
  la_unprotected : unprotected (rt_db s) → unprotected (rt_db s');
  la_object : getObject (rt_objects s') key = getObject (rt_objects s) key }.
(** Nothing fails, the lease is longer than the action, others are elsewhere. *)
Record undisturbed : Prop := {
  un_faultless : faultless env;
  un_beat : ∀ k, rw_beat v k = None;
  un_lease : ∀ i j, env_clock env i < env_clock env j + env_interval env (wkLease w);
  un_aside : ∀ n s, leftAlone s (rw_other v n s) }.
Context (Hun : undisturbed).
Let Hok : faultless env := un_faultless Hun.

Definition publishing (p : archivePublication) (d : DB) : Prop :=
  t_publications d !! pubID p = Some (pubRow p) ∧ pb_workspace_id (pubRow p) = workspace.
(** Between two statements: the row, the publication if it was begun, and the
    copy if it was written. *)
Record during (o : ObservationRow) (free : bool) (p : option archivePublication) (copied : bool) (s : Ret O) : Prop := {
  du_live : live (rt_db s);
  du_row : t_observations (rt_db s) !! id = Some o;
  du_free : free = true → unprotected (rt_db s);
  du_publication : match p with None => free = true → freshNames (rt_db s) | Some p => publishing p (rt_db s) end;
  du_copy : copied = true → getObject (rt_objects s) key = Some text }.

Lemma during_aside o free p copied n s : during o free p copied s → during o free p copied (rw_other v n s).
Proof.
  intros [Hl Hr Hf Hp Hc]. destruct (un_aside Hun n s) as [E1 E2 E3 E4 E5]. split.
  - unfold live. by rewrite E1.
  - by rewrite E2.
  - auto.
  - unfold freshNames, publishing. by rewrite E3.
  - by rewrite E5.
Qed.
Lemma total_pause o free p copied : Total env (during o free p copied) (pause v) (λ _, during o free p copied).
Proof. intros n s Hs. eexists _, _, _. split; [done|]. by apply during_aside. Qed.
Lemma total_lift {A} (P : Ret O → Prop) (m : M DB A) (Q : A → Ret O → Prop) :
  (∀ x, Total env (λ d, P (mkRet d x)) m (λ a d, Q a (mkRet d x))) → Total env P (lift m) Q.
Proof. intros H n [d x] Hs. destruct (H x n d Hs) as (a & d' & n' & E & Ha). unfold lift. simpl. rewrite E. eauto 6. Qed.
Lemma total_db {A} o free p copied (m : M DB A) (Q : A → Ret O → Prop) :
  (∀ x, Total env (λ d, during o free p copied (mkRet d x)) m (λ a d, Q a (mkRet d x))) → Total env (during o free p copied) (db v m) Q.
Proof. intros H. eapply total_bind; [apply total_pause|]. intros ?. by apply total_lift. Qed.

(** The lease. *)
Lemma live_run n d r : live d → t_retentionRuns d !! runID run = Some r →
  rr_workspace_id (rr_meta r) = workspace ∧ liveRun (env_clock env n) run r = true.
Proof.
  intros (r' & u & Hr & Hw & Ho & Hu & Hc) E. simplify_eq. split; [done|]. unfold liveRun. rewrite Ho, Hu.
  apply Z.ltb_lt, Hc.
Qed.
Lemma total_lock o free p copied x :
  Total env (λ d, during o free p copied (mkRet d x)) (lockRetentionRun run) (λ _ d, during o free p copied (mkRet d x)).
Proof.
  unfold lockRetentionRun. apply (total_bind _ _ (λ a d, a = true ∧ during o free p copied (mkRet d x))).
  - apply total_query; [done|]. intros n d Hd. pose proof (du_live _ _ _ _ _ Hd) as Hl. pose proof Hl as (r & u & Hr & _).
    simpl in Hl, Hr. destruct (live_run n d r Hl Hr) as [Hw E]. rewrite Hr, Hws, Hw, E, bool_decide_eq_true_2 by done. eauto.
  - intros a. eapply total_weaken; [apply (total_guard _ (λ d, a = true ∧ during o free p copied (mkRet d x))); by intros s [-> _]|done|]. by intros ? s [_ ?].
Qed.
Lemma total_renew o free p copied x :
  Total env (λ d, during o free p copied (mkRet d x)) (renewRetentionLease w run) (λ _ d, during o free p copied (mkRet d x)).
Proof.
  unfold renewRetentionLease. intros n d Hd. unfold intervalOf, bind. rewrite (run_exec env Hok). cbv beta iota zeta.
  pose proof Hd as [Hl Hrow Hf Hp Hc]. pose proof Hl as (r & u & Hr & _ & Ho & _). simpl in Hl, Hr.
  destruct (live_run n d r Hl Hr) as [Hw E]. unfold updateRun, updateOne. rewrite Hr, Hws, Hw, E, bool_decide_eq_true_2 by done.
  simpl. eexists _, _, _. split; [done|]. split; try done. eexists _, _. simpl. rewrite lookup_insert_eq.
  split_and!; [done|exact Hw|exact Ho|done|]. intros k. apply (un_lease Hun).
Qed.
Lemma total_lease {A} o free p copied (m : M (Ret O) A) (Q : A → Ret O → Prop) :
  Total env (during o free p copied) m Q → Total env (during o free p copied) (withRetentionLease v w (pause v) run m) Q.
Proof.
  intros Hm. unfold withRetentionLease. eapply total_bind; [apply total_pause|]. intros ?.
  apply (total_bind _ _ (λ _, during o free p copied)); [apply total_lift; intros x; apply total_renew|]. intros ?.
  eapply total_bind; [apply total_pause|]. intros ?. eapply total_handle; [exact Hm|]. intros y n s Hs.
  unfold bind, heartbeat. rewrite (un_beat Hun). eauto 6.
Qed.

(** The publication is begun, and later settled. *)
Lemma total_begin o copied :
  Total env (during o true None copied) (beginArchivePublication v w run item "observations" text)
    (λ p, during o true (Some p) copied).
Proof.
  unfold beginArchivePublication. rewrite Hws, Hid, Hkey. apply total_db. intros x. apply total_transaction; [done|].
  eapply total_bind; [apply total_lock|]. intros ? n d [Hl Hr Hf Hp Hc]. unfold bind, now, newID, upsertPublication.
  specialize (Hp eq_refl (n + 1)%nat). simpl in Hp. rewrite (run_stmt env Hok).
  destruct (publicationOf workspace key d) as [[old q]|] eqn:E.
  - eexists _, _, _. split; [done|]. split; try done. split; [|done]. simpl. apply lookup_insert_eq.
  - unfold insertRow. rewrite Hp. eexists _, _, _. split; [done|]. split; try done. split; [|done]. simpl. apply lookup_insert_eq.
Qed.
Lemma total_finish o o' free copied p st x :
  Total env (λ d, during o free (Some p) copied (mkRet d x) ∧ o = o') (finishArchivePublication p st)
    (λ _ d, t_observations d !! id = Some o').
Proof.
  unfold finishArchivePublication. intros n d [[Hl Hr Hf [Hp Hw] Hc] ->]. unfold bind, now. rewrite (run_exec env Hok).
  unfold updatePublication, updateOne. simpl in Hp. rewrite Hp, !bool_decide_eq_true_2, Z.eqb_refl by done. simpl.
  eexists _, _, _. by split.
Qed.

(** The copy. *)
Lemma key_reads size : size = Z.of_nat (length text) →
  (0 <=? size) && (size <=? stLimit (wkStore w)) = true ∧ scopedKey (stArchive (wkStore w)) workspace key = true ∧
  digestPattern digest && (0 <=? size) = true ∧ reportDigest text = digest.
Proof.
  intros ->. split_and!; [|by eapply archiveKey_scoped| |].
  - unfold archiveIdentity in Hkey. destruct (_ || _) eqn:E in Hkey; [done|]. apply orb_false_iff in E as [_ E%Z.ltb_ge].
    rewrite (proj2 (Z.leb_le 0 _)), (proj2 (Z.leb_le _ _) E) by lia. done.
  - apply archiveIdentity_ok in Hkey as (_ & _ & _ & -> & _). by rewrite digestPattern_report, (proj2 (Z.leb_le 0 _)) by lia.
  - by apply archiveIdentity_ok in Hkey as (_ & _ & _ & -> & _).
Qed.
Lemma total_read o free p :
  Total env (during o free p true) (readRetentionObject (wkStore w) (stArchive (wkStore w)) workspace key digest (Z.of_nat (length text)))
    (λ data s, data = text ∧ during o free p true s).
Proof.
  intros n s Hs. destruct (key_reads _ eq_refl) as (E1 & E2 & E3 & E4). pose proof (du_copy _ _ _ _ _ Hs eq_refl) as Ho.
  unfold readRetentionObject, readVerified, bind, guard, ret, readObject. rewrite E1, E2, E3. cbv beta iota zeta.
  rewrite (proj1 Hok), Ho. cbv beta iota zeta. rewrite Z.eqb_refl, E4, bool_decide_eq_true_2 by done. eexists _, _, _. by split.
Qed.
Lemma total_readArchive o free p :
  Total env (during o free p true) (readArchive (wkStore w) workspace key digest (Z.of_nat (length text)))
    (λ data s, data = text ∧ during o free p true s).
Proof.
  unfold readArchive. eapply total_bind; [apply total_guard; intros; by apply (key_reads _ eq_refl)|]. intros ?. apply total_read.
Qed.
Lemma total_put o p copied :
  Total env (during o true p copied) (putArchive (wkStore w) workspace "observations" id text)
    (λ a s, a = (key, digest) ∧ during o true p true s).
Proof.
  unfold putArchive. rewrite Hkey. apply (total_bind _ _ (λ _, during o true p true)).
  { intros n s [Hl Hr Hf Hp Hc]. unfold writeObjects. rewrite (proj1 (proj2 Hok)). eexists _, _, _. split; [done|].
    split; try done. intros _. simpl. apply get_put. }
  intros ?. apply (total_handle _ _ (λ a s, a = Z.of_nat (length text) ∧ during o true p true s)).
  { intros n s Hs. unfold headObject, bind, readObject, ret. rewrite (proj1 Hok), (du_copy _ _ _ _ _ Hs eq_refl). eauto 6. }
  intros size. eapply total_bind; [apply total_guard; intros s [-> _]; apply Z.eqb_refl|]. intros ?.
  apply (total_handle _ _ (λ data s, data = text ∧ during o true p true s)).
  { eapply total_weaken; [apply total_read|by intros s [_ ?]|done]. }
  intros data. eapply total_bind; [apply total_guard; intros s [-> _]; by apply bool_decide_eq_true_2|]. intros ?.
  apply total_ret. by intros s [_ ?].
Qed.

(** *** The two actions *)

Lemma during_row o free p copied d x : during o free p copied (mkRet d x) → t_observations d !! id = Some o.
Proof. apply du_row. Qed.
Lemma during_free o p copied d x t : during o true p copied (mkRet d x) → observationReasons (rw_assessed v) t workspace id d = [].
Proof. intros H. by apply (du_free _ _ _ _ _ H). Qed.
Lemma total_row o free p copied : ob_workspace_id o = workspace →
  Total env (during o free p copied) (db v (readObservation run item)) (λ a s, a = o ∧ during o free p copied s).
Proof.
  intros Ho. apply total_db. intros x. apply total_query; [done|]. intros n d Hd. exists o. split; [|done].
  unfold observationOf. rewrite Hid, Hws, (during_row _ _ _ _ _ _ Hd), bool_decide_eq_true_2 by done. done.
Qed.
Lemma total_protection o p copied :
  Total env (during o true p copied) (db v (observationProtection (rw_assessed v) (runWorkspace run) (itemResource item)))
    (λ a s, a = [] ∧ during o true p copied s).
Proof.
  apply total_db. intros x. apply total_query; [done|]. intros n d Hd. rewrite Hws, Hid. eexists. split; [done|].
  split; [|done]. by eapply during_free.
Qed.
Lemma total_archiveTx o p x summary :
  ob_workspace_id o = workspace → oe_availability (ob_evidence o) = "available" →
  Total env (λ d, during o true (Some p) true (mkRet d x))
    (archiveTx v run item p (key, digest) text (oe_revision (ob_evidence o)) summary) (λ a _, a = succeeded "archived").
Proof.
  intros Ho Hav. unfold archiveTx. eapply total_bind; [apply total_lock|]. intros ? n d Hd.
  unfold observationProtection, bind at 1. rewrite (run_query env Hok), Hws, Hid. simpl.
  rewrite (during_free _ _ _ _ _ _ Hd), bool_decide_eq_true_2 by done. simpl. unfold bind at 1, now. cbv beta iota zeta.
  unfold bind at 1. rewrite (run_exec env Hok). unfold updateObservation, updateOne.
  rewrite (during_row _ _ _ _ _ _ Hd), bool_decide_eq_true_2 by done. unfold atRevision. rewrite Z.eqb_refl, Hav, bool_decide_eq_true_2 by done.
  simpl. unfold bind at 1, guard. simpl. unfold bind at 1. set (o' := archivedEvidence _ _ _). set (d' := with_observations _ _).
  destruct (total_finish o' o' false true p PbReferenced x (n + 1 + 1 + 1)%nat d') as (u & d2 & n2 & E & _).
  { destruct Hd as [Hl Hr Hf Hp Hc]. split; [|done]. split; try done. simpl. apply lookup_insert_eq. }
  unfold ret. rewrite E. eauto 6.
Qed.
Lemma archive_succeeds o n s :
  ob_workspace_id o = workspace → oe_availability (ob_evidence o) = "available" → oe_data (ob_evidence o) = Some content →
  during o true None false s → ∃ s' n', archiveObservation v w run item env n s = mkOut (Ok (succeeded "archived")) s' n'.
Proof.
  intros Ho Hav Hd Hs. enough (Total env (during o true None false) (archiveObservation v w run item)
    (λ a _, a = succeeded "archived")) as H by (destruct (H n s Hs) as (a & s' & n' & E & ->); eauto).
  clear n s Hs. unfold archiveObservation. eapply total_bind; [by apply total_row|]. intros a n s [-> Hs]. cbv zeta. revert n s Hs.
  rewrite Hav, Hd. change (Total env (during o true None false)
    (reasons <- db v (observationProtection (rw_assessed v) (runWorkspace run) (itemResource item)) ;;
     if negb (reasons ==? []) then ret (protected "protected" reasons)
     else p <- beginArchivePublication v w run item "observations" text ;;
       published <- publishArchive v w run item "observations" text ;;
       db v (transaction (archiveTx v run item p published text (oe_revision (ob_evidence o)) (compactObservation content))))
    (λ a _, a = succeeded "archived")).
  eapply total_bind; [apply total_protection|]. intros reasons n s [-> Hs]. revert n s Hs. rewrite bool_decide_eq_true_2 by done.
  change (Total env (during o true None false) (p <- beginArchivePublication v w run item "observations" text ;;
       published <- publishArchive v w run item "observations" text ;;
       db v (transaction (archiveTx v run item p published text (oe_revision (ob_evidence o)) (compactObservation content))))
    (λ a _, a = succeeded "archived")).
  eapply total_bind; [apply total_begin|]. intros p. unfold publishArchive. rewrite Hws, Hid.
  eapply total_bind; [apply total_lease, total_put|]. intros a n s [-> Hs]. revert n s Hs.
  apply (total_db o true (Some p) true). intros x. apply total_transaction; [done|]. by apply total_archiveTx.
Qed.

Lemma total_restoreTx o free p copied x y :
  ob_workspace_id o = workspace → oe_availability (ob_evidence o) = "archived" →
  Total env (λ d, during o free p copied (mkRet d x)) (restoreTx run item (oe_revision (ob_evidence o)) y) (λ _ _, True).
Proof.
  intros Ho Hav. unfold restoreTx. eapply total_bind; [apply total_lock|]. intros ? n d Hd.
  unfold bind. rewrite (run_exec env Hok). unfold updateObservation, updateOne. rewrite Hws, Hid, (during_row _ _ _ _ _ _ Hd).
  rewrite bool_decide_eq_true_2 by done. unfold atRevision. rewrite Z.eqb_refl, Hav, bool_decide_eq_true_2 by set_solver.
  simpl. eauto 6.
Qed.
Lemma restore_succeeds o at_ n s :
  ob_workspace_id o = workspace → oe_availability (ob_evidence o) = "archived" → oe_transition (ob_evidence o) = None →
  oe_archive (ob_evidence o) = Some {| ar_key := key; ar_digest := digest; ar_size := Z.of_nat (length text); ar_at := at_ |} →
  during o false None true s → ∃ s' n', restoreObservation v w run item env n s = mkOut (Ok (succeeded "restored")) s' n'.
Proof.
  intros Ho Hav Ht Ha Hs. enough (Total env (during o false None true) (restoreObservation v w run item)
    (λ a _, a = succeeded "restored")) as H by (destruct (H n s Hs) as (a & s' & n' & E & ->); eauto).
  clear n s Hs. unfold restoreObservation. eapply total_bind; [by apply total_row|]. intros a n s [-> Hs].
  unfold bind at 1, scanArchive. rewrite Ha. cbn [fromRes]. unfold ret at 1. cbv beta iota zeta. revert n s Hs. rewrite Hav, Ht, Hws.
  cbn [ar_key ar_digest ar_size default]. refine (total_handle env _ _ _ _ _ (total_lease _ _ _ _ _ _ (total_readArchive o false None)) _).
  intros data n s [-> Hs]. rewrite Hdecode. revert n s Hs.
  refine (total_bind env _ (λ _ _, True) _ _ _ _ (λ _, total_ret env _ _ _ (λ _ _, eq_refl))).
  apply (total_db o false None true). intros x. apply total_transaction; [done|]. by apply total_restoreTx.
Qed.
End undisturbed.

(** ** The round trip *)

Section roundtrip.
Context {O : Type} `{!ObjectService O, !ObjectLaws O} (v : RetentionWorld (O:=O)) (w : retentionWorker).
Context (workspace id : string) (content : Observation) (key digest : string).
Abbreviation keeps := (keepsContent v workspace id content key digest).
Abbreviation archived := (archivedCopy v workspace id content key digest).
Abbreviation restored := (holdsContent (O:=O) workspace id content).

Lemma archived_keeps s : archived s → keeps s.
Proof.
  intros (o & at_ & Hr & Hw & Hd & Hav & Ht & Ha & Ho). split; [|by intros data Hx; simplify_eq].
  exists o. split; [done|]. unfold rowContent. rewrite Hd, Ha. split_and!; [done..|]. by intros a [= <-].
Qed.

(** C13: archiving and restoring an observation is a round trip.  For an
    observation with [content] (or a reference to its copy) that others do not
    alter and a copy they do not delete: when the worker reports it archived,
    wherever else the run failed or paused, the row names key, digest and size
    of the copy and the object under that key is the text of the content; when
    it reports it restored the row holds exactly [content] again.  And it does
    report both: where nothing fails, the lease covers the action, nothing
    protects the observation and others are elsewhere, archiving an available
    observation succeeds, and so does restoring an archived one. *)
Theorem archive_roundtrip :
  archiveIdentity (wkStore w) workspace "observations" id (rw_text v content) = Ok (key, digest) →
  rw_decode v (rw_text v content) = Some content →
  (∀ n s, keeps s → keeps (rw_other v n s)) →
  (∀ n s, getObject (rt_objects s) key = Some (rw_text v content) →
     getObject (rt_objects (rw_other v n s)) key = Some (rw_text v content)) →
  ∀ run item env n s, itemResource item = id → runWorkspace run = workspace → keeps s →
  (∀ s' n', archiveObservation v w run item env n s = mkOut (Ok (succeeded "archived")) s' n' → archived s') ∧
  (∀ s' n', restoreObservation v w run item env n s = mkOut (Ok (succeeded "restored")) s' n' → restored s') ∧
  (validStoragePrefix (stArchive (wkStore w)) = true →
   undisturbed v w workspace id key env run → live workspace env run (rt_db s) →
   (restored s → unprotected v workspace id (rt_db s) → freshNames env (rt_db s) →
    ∃ s' n', archiveObservation v w run item env n s = mkOut (Ok (succeeded "archived")) s' n') ∧
   (archived s → ∃ s' n', restoreObservation v w run item env n s = mkOut (Ok (succeeded "restored")) s' n')).
Proof.
  intros Hkey Hdecode Hother Hcopy run item env n s Hid Hws Hs.
  split; [by intros s' n'; apply (archived_there v w workspace id content key digest)|].
  split; [by intros s' n'; apply (restored_content v w workspace id content key digest)|].
  intros Hp Hun Hl. split.
  - intros (o & Hr & Hw & Hd & Hav) Hf Hn. apply (archive_succeeds v w workspace id content key digest) with (o := o); try done.
  - intros (o & at_ & Hr & Hw & Hd & Hav & Ht & Ha & Ho).
    apply (restore_succeeds v w workspace id content key digest) with (o := o) (at_ := at_); try done.
Qed.
End roundtrip.
