(* ===== verification/RetentionOrphans.v ===== *)
(** * Publications and the deletion of orphaned archives

    An object has one publication, and a reference to the object appears only
    in a transaction that moves it: the worker keeps this whatever it does
    ([respects]).  An object is deleted as an orphan while its publication row
    is locked, so no reference can appear under the lock. *)
From S2P Require Import Prelude GoLib Encoding Tx ReportAdapter Schema Auth Intake Correlations Retention RetentionStore RetentionWorker RetentionActions RetentionArchive RetentionFence RetentionContent.
Local Open Scope Z_scope.

(** ** References and publications *)

(** The part of the database references and publications live in. *)
Definition archivesOf (d : DB) :=
  (t_publications d, (t_observations d, t_correlationEvents d, t_decisionEvents d, t_policyRevisions d, t_changeEvents d,
   t_policyEvents d)).
Abbreviation sameArchives := (sameBy archivesOf).
#[export] Instance archives_apart : Bookkeeping archivesOf.
Proof. by split. Qed.
Definition referencesOf (d : DB) := snd (archivesOf d).
Lemma same_reference workspace key d d' :
  referencesOf d' = referencesOf d → archiveReferenceExists workspace key d' = archiveReferenceExists workspace key d.
Proof. intros [= E1 E2 E3 E4 E5 E6]. unfold archiveReferenceExists. by rewrite E1, E2, E3, E4, E5, E6. Qed.
Lemma sameArchives_reference workspace key d d' :
  sameArchives d d' → archiveReferenceExists workspace key d' = archiveReferenceExists workspace key d.
Proof. intros H. apply same_reference. unfold referencesOf. by rewrite H. Qed.
Lemma sameArchives_publications d d' : sameArchives d d' → t_publications d' = t_publications d.
Proof. by intros [= -> _]. Qed.

(** Publications stay and their revisions grow; while the row of an object is
    unchanged, no reference to the object appears. *)
Definition respects (d d' : DB) : Prop :=
  ∀ id p, t_publications d !! id = Some p →
    ∃ p', t_publications d' !! id = Some p' ∧ pb_workspace_id p' = pb_workspace_id p ∧ pb_object_key p' = pb_object_key p ∧
      pb_revision p ≤ pb_revision p' ∧
      (pb_revision p' = pb_revision p → p' = p ∧
         (archiveReferenceExists (pb_workspace_id p) (pb_object_key p) d = false →
          archiveReferenceExists (pb_workspace_id p) (pb_object_key p) d' = false)).
#[export] Instance respects_preorder : PreOrder respects.
Proof.
  split.
  - intros d id p Hp. exists p. done.
  - intros d1 d2 d3 H1 H2 id p Hp. destruct (H1 id p Hp) as (p2 & Hp2 & W2 & K2 & L2 & E2).
    destruct (H2 id p2 Hp2) as (p3 & Hp3 & W3 & K3 & L3 & E3). exists p3. split; [done|].
    split; [congruence|]. split; [congruence|]. split; [lia|]. intros Er.
    destruct E2 as [-> F2]; [lia|]. destruct E3 as [-> F3]; [lia|]. auto.
Qed.

Definition uniquePublications (d : DB) : Prop :=
  ∀ i j p q, t_publications d !! i = Some p → t_publications d !! j = Some q →
    pb_workspace_id p = pb_workspace_id q → pb_object_key p = pb_object_key q → i = j.
Definition respecting (d d' : DB) : Prop := uniquePublications d → uniquePublications d' ∧ respects d d'.
#[export] Instance respecting_preorder : PreOrder respecting.
Proof.
  split; [intros d H; split; [done|reflexivity]|]. intros d1 d2 d3 H1 H2 Hu.
  destruct (H1 Hu) as [Hu2 R1]. destruct (H2 Hu2) as [Hu3 R2]. split; [done|by etransitivity].
Qed.

(** ** References *)

(** References appear to no other object than [key] of [workspace]. *)
Definition addsOnly (workspace key : string) (d d' : DB) : Prop :=
  t_publications d' = t_publications d ∧
  ∀ ws k, ¬ (ws = workspace ∧ k = key) → archiveReferenceExists ws k d = false → archiveReferenceExists ws k d' = false.
(** ... or to none. *)
Definition addsNone (d d' : DB) : Prop :=
  t_publications d' = t_publications d ∧
  ∀ ws k, archiveReferenceExists ws k d = false → archiveReferenceExists ws k d' = false.

Lemma refers_update {V} (table : DB → gmap string V) put wsf workspace id P f (arch : V → option ArchiveRef) ws k d :
  (∀ t, table (put t d) = t) →
  (∀ x, P x = true → wsf x = workspace → wsf (f x) = workspace ∧
     (arch (f x) = arch x ∨ ∃ a, arch (f x) = Some a ∧ ¬ (ws = workspace ∧ k = ar_key a))) →
  anyRow (λ _ r, (wsf r ==? ws) && refersTo k (arch r)) (table d) = false →
  anyRow (λ _ r, (wsf r ==? ws) && refersTo k (arch r)) (table (snd (updateOne table put wsf workspace id P f d))) = false.
Proof.
  intros Ht Hf H. unfold updateOne. destruct (table d !! id) as [x|] eqn:Ex; [|done].
  destruct (_ && _) eqn:E; [|done]. apply andb_true_iff in E as [Ew%bool_decide_eq_true HP]. simpl. rewrite Ht.
  rewrite anyRow_false in *. intros j y Hj. destruct (decide (j = id)) as [->|Hne].
  - rewrite lookup_insert_eq in Hj. simplify_eq. specialize (H _ _ Ex). destruct (Hf x HP eq_refl) as [Hw Ha].
    rewrite Hw. destruct Ha as [->|(a & -> & Hn)]; [exact H|]. simpl. apply andb_false_iff.
    destruct (decide (wsf x = ws)) as [<-|Hne']; [right|left]; apply bool_decide_eq_false; [|done]. naive_solver.
  - rewrite lookup_insert_ne in Hj by done. eauto.
Qed.
Lemma updateOne_none {V} (table : DB → gmap string V) put wsf workspace id P f d :
  (∀ t, t_publications (put t d) = t_publications d) →
  t_publications (snd (updateOne table put wsf workspace id P f d)) = t_publications d.
Proof. intros H. unfold updateOne. destruct (table d !! id); [case_if|]; simpl; done || apply H. Qed.

(** The six disjuncts: five tables are untouched, one is updated. *)
Ltac untouched := unfold updateOne; destruct (_ !! _); [destruct (_ && _)|]; simpl; assumption.
Ltac refers :=
  unfold archiveReferenceExists; rewrite !orb_false_iff; intros [[[[[? ?] ?] ?] ?] ?];
  repeat split; try untouched; (apply refers_update; [intros; reflexivity| |assumption]).

Lemma observation_adds workspace id P summary a d :
  addsOnly workspace (ar_key a) d (snd (updateObservation workspace id P (archivedEvidence summary a) d)).
Proof.
  split; [by apply updateOne_none|]. intros ws k Hne. unfold updateObservation. refers.
  intros x _ Hw. split; [done|]. right. by exists a.
Qed.
Lemma observation_none workspace id P f d :
  (∀ o, ob_workspace_id (f o) = ob_workspace_id o ∧ oe_archive (ob_evidence (f o)) = oe_archive (ob_evidence o)) →
  addsNone d (snd (updateObservation workspace id P f d)).
Proof.
  intros Hf. split; [by apply updateOne_none|]. intros ws k. unfold updateObservation. refers.
  intros x _ Hw. destruct (Hf x) as [-> ->]. auto.
Qed.
Lemma event_adds workspace id P a d :
  addsOnly workspace (ar_key a) d (snd (updateEvent workspace id P (archivedEvent a) d)).
Proof.
  split; [by apply updateOne_none|]. intros ws k Hne. unfold updateEvent. refers.
  intros x _ Hw. split; [done|]. right. by exists a.
Qed.
Lemma history_adds workspace kind id revision P a d :
  addsOnly workspace (ar_key a) d (snd (updateHistory workspace kind id revision P (archivedDetail a) d)).
Proof.
  unfold updateHistory. split; [repeat case_if; done || by apply updateOne_none|]. intros ws k Hne. cbv zeta.
  repeat case_if; [refers; intros x _ Hw; split; [done|]; right; by exists a..|done].
Qed.

(** ** Publications *)

Definition nameOf (p : PublicationRow) : string * string := (pb_workspace_id p, pb_object_key p).
Lemma moves_respecting d ps :
  (∀ id, nameOf <$> ps !! id = nameOf <$> t_publications d !! id) →
  (∀ id p p', t_publications d !! id = Some p → ps !! id = Some p' → p' = p ∨ pb_revision p < pb_revision p') →
  respecting d (with_publications ps d).
Proof.
  intros Hn Hm Hu. split.
  - intros i j p q Hp Hq Ew Ek. simpl in *. pose proof (Hn i) as Hi. pose proof (Hn j) as Hj. rewrite Hp in Hi. rewrite Hq in Hj.
    symmetry in Hi, Hj. apply fmap_Some in Hi as (p0 & Hp0 & [= E1 E2]), Hj as (q0 & Hq0 & [= E3 E4]).
    apply (Hu i j p0 q0); congruence.
  - intros id p Hp. pose proof (Hn id) as Hi. rewrite Hp in Hi. apply fmap_Some in Hi as (p' & Hp' & [= E1 E2]).
    exists p'. split; [done|]. split; [done|]. split; [done|].
    destruct (Hm id p p' Hp Hp') as [->|Hlt]; [split; [done|]; intros _; split; [done|auto]|]. split; lia.
Qed.
Lemma same_respecting d d' : sameArchives d d' → respecting d d'.
Proof.
  intros H Hu. pose proof (sameArchives_publications _ _ H) as Hp. split.
  - unfold uniquePublications in *. by rewrite Hp.
  - intros id p Hid. exists p. rewrite Hp. repeat split; try done. by rewrite (sameArchives_reference _ _ _ _ H).
Qed.
Lemma none_respecting d d' : addsNone d d' → respecting d d'.
Proof.
  intros [Hp Hr] Hu. split; [unfold uniquePublications in *; by rewrite Hp|].
  intros id p Hid. exists p. rewrite Hp. repeat split; try lia; auto.
Qed.
(** A reference and the move of the publication it uses, together. *)
Lemma referencing_respecting workspace key id P st at_ d d1 d2 :
  addsOnly workspace key d d1 → (∀ q, P q = true → pb_object_key q = key) →
  updatePublication workspace id P (movedPublication st at_) d1 = (1, d2) → respecting d d2.
Proof.
  intros [Hp1 Hr] HP. unfold updatePublication, updateOne. rewrite Hp1.
  destruct (t_publications d !! id) as [q|] eqn:Hq; [|done]. destruct (_ && _) eqn:E; [|done].
  apply andb_true_iff in E as [Ew%bool_decide_eq_true HPq]. intros [= <-] Hu. apply HP in HPq. split.
  - assert (∀ j x, <[id:=movedPublication st at_ q]> (t_publications d) !! j = Some x →
      ∃ y, t_publications d !! j = Some y ∧ nameOf y = nameOf x) as Hback.
    { intros j x Hj. destruct (decide (j = id)) as [->|Hne].
      - rewrite lookup_insert_eq in Hj. simplify_eq. by exists q.
      - rewrite lookup_insert_ne in Hj by done. by exists x. }
    intros i j x y Hi Hj E1 E2. simpl in *. apply Hback in Hi as (x0 & Hx0 & [= F1 F2]), Hj as (y0 & Hy0 & [= G1 G2]).
    apply (Hu i j x0 y0); congruence.
  - intros j x Hj. simpl. destruct (decide (j = id)) as [->|Hne].
    + rewrite lookup_insert_eq. simplify_eq. eexists. split; [done|]. simpl. split; [done|]. split; [done|]. split; lia.
    + rewrite lookup_insert_ne by done. exists x. repeat split; try done. intros Hf.
      assert (¬ (pb_workspace_id x = workspace ∧ pb_object_key x = key)) as Hno.
      { intros [F1 F2]. apply Hne. apply (Hu j id x q); congruence. }
      specialize (Hr _ _ Hno Hf). rewrite <- Hr. by apply same_reference.
Qed.
Lemma moved_respecting workspace id P st at_ d :
  respecting d (snd (updatePublication workspace id P (movedPublication st at_) d)).
Proof.
  unfold updatePublication, updateOne. destruct (t_publications d !! id) as [q|] eqn:Hq; [|reflexivity].
  destruct (_ && _); [|reflexivity]. apply moves_respecting.
  - intros j. destruct (decide (j = id)) as [->|Hne]; [by rewrite lookup_insert_eq, Hq|by rewrite lookup_insert_ne].
  - intros j p p' Hp. destruct (decide (j = id)) as [->|Hne]; [rewrite lookup_insert_eq|rewrite lookup_insert_ne by done].
    + intros [= <-]. simplify_eq. right. simpl. lia.
    + left. congruence.
Qed.
Lemma upsert_respecting id workspace key kind resource digest size at_ :
  Steps respecting (upsertPublication id workspace key kind resource digest size at_).
Proof.
  apply steps_stmt; [apply _|]. intros t d a d' H. cbv zeta in H.
  destruct (publicationOf workspace key d) as [[old p]|] eqn:E.
  - apply findRow_Some in E as [Ho Hk]. apply andb_true_iff in Hk as [Hw%bool_decide_eq_true Hk%bool_decide_eq_true].
    injection H as _ <-. apply moves_respecting.
    + intros j. destruct (decide (j = old)) as [->|Hne]; [rewrite lookup_insert_eq, Ho; simpl; unfold nameOf; simpl; congruence|by rewrite lookup_insert_ne].
    + intros j q q' Hq. destruct (decide (j = old)) as [->|Hne]; [rewrite lookup_insert_eq|rewrite lookup_insert_ne by done].
      * intros [= <-]. simplify_eq. right. simpl. lia.
      * left. congruence.
  - unfold insertRow in H. destruct (t_publications d !! id) eqn:Hid; [done|]. simplify_eq. intros Hu.
    assert (∀ j q, t_publications d !! j = Some q → ¬ (pb_workspace_id q = workspace ∧ pb_object_key q = key)) as Hno.
    { intros j q Hj [Hw Hk]. apply (findRow_None _ _ j q) in E; [|done]. simpl in E. rewrite Hw, Hk, !bool_decide_eq_true_2 in E; done. }
    split.
    + intros i j p q. simpl. intros Hi Hj. apply lookup_insert_Some in Hi as [[<- <-]|[Hni Hi]], Hj as [[<- <-]|[Hnj Hj]]; simpl; intros Ew Ek.
      * done.
      * by destruct (Hno j q Hj).
      * by destruct (Hno i p Hi).
      * by apply (Hu i j p q).
    + intros j q Hj. exists q. simpl. rewrite lookup_insert_ne by congruence. repeat split; done.
Qed.

(** ** Transactions *)

(** Runs that end normally. *)
Definition OkSteps {S A} (R : S → S → Prop) (m : M S A) : Prop :=
  ∀ env n s a s' n', m env n s = mkOut (Ok a) s' n' → R s s'.
Lemma steps_ok {S A} (R : S → S → Prop) (m : M S A) : Steps R m → OkSteps R m.
Proof. intros H env n s a s' n' E. specialize (H env n s). by rewrite E in H. Qed.
Lemma ok_bind {S A B} (R : S → S → Prop) `{!PreOrder R} (m : M S A) (k : A → M S B) :
  OkSteps R m → (∀ a, OkSteps R (k a)) → OkSteps R (bind m k).
Proof. intros Hm Hk env n s b s' n' E. apply bind_inv in E as (a & s1 & n1 & E1%Hm & E2%Hk). by etransitivity. Qed.
(** A program whose values satisfy [P]. *)
Lemma steps_value {S A B} (R : S → S → Prop) `{!PreOrder R} (m : M S A) (k : A → M S B) (P : A → Prop) :
  Steps R m → Yields (λ _, True) m P → (∀ a, P a → Steps R (k a)) → Steps R (bind m k).
Proof.
  intros Hm HP Hk env n s. unfold bind. specialize (Hm env n s). specialize (HP env n s).
  destruct (m env n s) as [[a|e] s1 n1]; simpl in *; [|done]. etransitivity; [done|]. apply Hk; auto.
Qed.

Lemma respecting_lock run : Steps respecting (lockRetentionRun run).
Proof. intros env n d. apply same_respecting, by_lock. Qed.
Lemma respecting_finish p st : Steps respecting (finishArchivePublication p st).
Proof. unfold finishArchivePublication. steps. apply steps_exec; [apply _|]. intros t d. apply moved_respecting. Qed.
#[local] Hint Resolve respecting_lock respecting_finish upsert_respecting : steps.

(** The end of the three transactions that archive. *)
Lemma archive_respecting {A} p (U : Z → DB → Z * DB) (key : string) (o : A) :
  (∀ at_ d, addsOnly (pb_workspace_id (pubRow p)) key d (snd (U at_ d))) → pb_object_key (pubRow p) = key →
  OkSteps respecting (at_ <- now ;; affected <- exec (λ _ d, U at_ d) ;; guard (affected =? 1) errRetentionLeaseLost ;;;
    finishArchivePublication p PbReferenced ;;; ret o).
Proof.
  intros HU Hk env n s a s' n' H.
  apply bind_inv in H as (at_ & s1 & n1 & [-> ->]%now_inv & H).
  apply bind_inv in H as (aff & s2 & n2 & E2%exec_inv & H).
  apply bind_inv in H as (u & s3 & n3 & [_ ->]%guard_inv & H).
  apply bind_inv in H as (u' & s4 & n4 & H & [_ ->]%ret_inv).
  apply bind_inv in H as (at2 & s5 & n5 & [-> ->]%now_inv & H).
  apply bind_inv in H as (aff2 & s6 & n6 & E6%exec_inv & [Ha%Z.eqb_eq ->]%guard_inv). subst aff2.
  eapply referencing_respecting; [|  |exact E6].
  - specialize (HU (env_now env n) s). rewrite E2 in HU. exact HU.
  - intros q [Hq%bool_decide_eq_true _]%andb_true_iff. congruence.
Qed.

Section respect.
Context {O : Type} `{!ObjectService O} (v : RetentionWorld (O:=O)) (w : retentionWorker).
Definition respectful (s s' : Ret O) : Prop := respecting (rt_db s) (rt_db s').
#[local] Instance respectful_preorder : PreOrder respectful.
Proof. unfold respectful. split; [intros s; reflexivity|]. intros s1 s2 s3 H1 H2. by etransitivity. Qed.
Context (Hother : ∀ n s, respectful s (rw_other v n s)).

(** The publication [p] is the one of [published]. *)
Definition publicationFor (run : retentionRunRecord) (p : archivePublication) (published : string * string) : Prop :=
  pb_object_key (pubRow p) = fst published ∧ pb_workspace_id (pubRow p) = runWorkspace run.

Lemma respecting_archiveTx run item p published data revision summary :
  publicationFor run p published → OkSteps respecting (archiveTx v run item p published data revision summary).
Proof.
  intros [Hk Hw]. unfold archiveTx, observationProtection. do 2 (apply ok_bind; [apply _|apply steps_ok; steps|intros ?]).
  case_if; [apply steps_ok; steps|]. eapply (archive_respecting p _ (fst published)); [|done].
  intros at_ d. rewrite Hw. apply observation_adds.
Qed.
Lemma respecting_auditTx run item p published data revision :
  publicationFor run p published → OkSteps respecting (archiveAuditTx run item p published data revision).
Proof.
  intros [Hk Hw]. unfold archiveAuditTx, auditProtection. do 2 (apply ok_bind; [apply _|apply steps_ok; steps|intros ?]).
  case_if; [apply steps_ok; steps|]. eapply (archive_respecting p _ (fst published)); [|done].
  intros at_ d. rewrite Hw. apply event_adds.
Qed.
Lemma respecting_historyTx run item published payload :
  publicationFor run (snd published) (fst published) → OkSteps respecting (archiveHistoryTx run item published payload).
Proof.
  intros [Hk Hw]. unfold archiveHistoryTx, readHistoryArchiveRecord, historyProtection.
  do 3 (apply ok_bind; [apply _|apply steps_ok; steps|intros ?]).
  do 2 (case_if; [apply steps_ok; steps|]). eapply (archive_respecting (snd published) _ (fst (fst published))); [|done].
  intros at_ d. rewrite Hw. apply history_adds.
Qed.

Lemma respectful_db {A} (m : M DB A) : Steps respecting m → Steps respectful (db v m).
Proof. intros H. apply steps_db; [apply _|exact Hother|]. apply steps_lift. intros env n d o. apply H. Qed.
Lemma respectful_lift {A} (m : M DB A) : Steps respecting m → Steps respectful (lift m).
Proof. intros H. apply steps_lift. intros env n d o. apply H. Qed.
Lemma respectful_same {A} (m : M DB A) : Steps sameArchives m → Steps respectful (lift m).
Proof. intros H. apply respectful_lift. intros env n d. apply same_respecting, H. Qed.
Lemma respectful_ok {A} (m : M DB A) : OkSteps respecting m → Steps respectful (db v (transaction m)).
Proof. intros H. apply respectful_db, steps_transaction_ok; [apply _|exact H]. Qed.
Lemma respectful_query {A} (f : Z → DB → Res A) : Steps respectful (lift (query f)).
Proof. apply respectful_lift, steps_query, _. Qed.
Lemma respectful_pause : Steps respectful (pause v).
Proof. apply steps_pause. exact Hother. Qed.
Lemma respectful_hold id : Steps respectful (pauseHolding v id).
Proof. apply steps_pauseHolding; [apply _|exact Hother]. Qed.
Lemma respectful_renew run : Steps respectful (lift (renewRetentionLease w run)).
Proof. apply respectful_same, by_renew, _. Qed.
Lemma respectful_write f : Steps respectful (writeObjects (O:=O) f).
Proof. apply steps_writeObjects; [apply _|]. intros s. by apply same_respecting. Qed.
#[local] Hint Resolve respectful_query respectful_pause respectful_hold respectful_renew respectful_write : steps.
Lemma respectful_lease {A} wait run (m : M (Ret O) A) :
  Steps respectful wait → Steps respectful m → Steps respectful (withRetentionLease v w wait run m).
Proof. intros. unfold withRetentionLease. steps. Qed.
Lemma respectful_begin run item kind data : Steps respectful (beginArchivePublication v w run item kind data).
Proof. unfold beginArchivePublication. steps. apply respectful_lift. steps. Qed.
Lemma respectful_publish run item kind data : Steps respectful (publishArchive v w run item kind data).
Proof. apply respectful_lease; [steps|]. unfold putArchive, readRetentionObject. steps. Qed.
Lemma respectful_existing run item directory payload : Steps respectful (existingHistoryPublication v w run item directory payload).
Proof. unfold existingHistoryPublication, withRetentionLease. steps. Qed.
#[local] Hint Resolve respectful_begin respectful_publish respectful_existing : steps.

(** What the publishing steps return. *)
Lemma yields_db {A} (m : M DB A) (P : A → Prop) : (∀ env n d a d' n', m env n d = mkOut (Ok a) d' n' → P a) → Yields (λ _, True) (db v m) P.
Proof.
  intros H env n s a _. unfold db, bind, pause, lift. simpl.
  destruct (m env (n + 1)%nat (rt_db (rw_other v n s))) as [r d n'] eqn:E. simpl. intros ->. by eapply H.
Qed.
Lemma always_steps {S A} (m : M S A) : Steps (preserves (λ _ : S, True)) m.
Proof. by intros env n s. Qed.
Lemma begin_value run item kind data :
  Yields (λ _, True) (beginArchivePublication v w run item kind data)
    (λ p, pb_workspace_id (pubRow p) = runWorkspace run ∧
       ∃ digest, archiveIdentity (wkStore w) (runWorkspace run) kind (itemResource item) data = Ok (pb_object_key (pubRow p), digest)).
Proof.
  unfold beginArchivePublication. destruct (archiveIdentity _ _ _ _ data) as [[key digest]|e] eqn:E; [|apply yields_throw].
  apply yields_db. intros env n d p d' n' [n1 H]%transaction_inv.
  apply bind_inv in H as (u & s1 & n2 & _ & H). apply bind_inv in H as (at_ & s2 & n3 & _ & H).
  apply bind_inv in H as (id & s3 & n4 & _ & H%stmt_inv). cbv zeta in H.
  destruct (publicationOf _ key s3) as [[old q]|]; [|destruct (insertRow _ _ _); [|done]]; simplify_eq; simpl; eauto.
Qed.
Lemma handle_value {A B} (m : M (Ret O) A) (k : Res A → M (Ret O) B) (P : B → Prop) :
  (∀ r, Yields (λ _, True) (k r) P) → Yields (λ _, True) (handle m k) P.
Proof. intros H. apply yields_handle; [apply always_steps|done]. Qed.
Lemma bind_value {A B} (m : M (Ret O) A) (k : A → M (Ret O) B) (P : B → Prop) :
  (∀ a, Yields (λ _, True) (k a) P) → Yields (λ _, True) (bind m k) P.
Proof. intros H. apply yields_skip; [apply always_steps|done]. Qed.
Lemma lease_value {A} wait run (m : M (Ret O) A) (P : A → Prop) :
  Yields (λ _, True) m P → Yields (λ _, True) (withRetentionLease v w wait run m) P.
Proof.
  intros Hm. unfold withRetentionLease. do 3 (apply bind_value; intros _). intros env n s a Hs. unfold handle.
  specialize (Hm env n s). destruct (m env n s) as [r s1 n1]. unfold bind, heartbeat. simpl in *.
  destruct (rw_beat v n1) as [[|]|]; [done..|]. destruct r; [|done]. intros [= ->]. by apply Hm.
Qed.
Lemma publish_value run item kind data :
  Yields (λ _, True) (publishArchive v w run item kind data)
    (λ x, archiveIdentity (wkStore w) (runWorkspace run) kind (itemResource item) data = Ok x).
Proof.
  apply lease_value. unfold putArchive. destruct (archiveIdentity _ _ _ _ data) as [[key digest]|e]; [|apply yields_throw].
  apply bind_value. intros _. apply handle_value. intros head. apply bind_value. intros _. apply handle_value. intros verified.
  apply bind_value. intros _. by apply yields_ret.
Qed.
Lemma existing_value run item directory payload :
  Yields (λ _, True) (existingHistoryPublication v w run item directory payload)
    (λ x, match x with Some (published, p) => publicationFor run p published | None => True end).
Proof.
  unfold existingHistoryPublication. destruct (archiveIdentity _ _ _ _ payload) as [[key digest]|e]; [|apply yields_throw].
  apply (yields_bind _ _ _ (λ found, match found with
    | Some (_, p) => pb_workspace_id p = runWorkspace run ∧ pb_object_key p = key | None => True end)); [apply always_steps| |].
  - apply yields_db. intros env n d found d' n' [H _]%query_inv. simplify_eq.
    destruct (publicationOf _ _ d) as [[i p]|] eqn:E; [|done]. apply findRow_Some in E as [_ E].
    by apply andb_true_iff in E as [?%bool_decide_eq_true ?%bool_decide_eq_true].
  - intros [[i p]|] Hp; [|by apply yields_ret]. case_if; [by apply yields_ret|]. apply handle_value.
    intros [data|x]; [|by apply yields_ret]. apply yields_ret. case_if; [|done]. by destruct Hp.
Qed.
Lemma publishHistory_value run item directory payload :
  Yields (λ _, True) (publishHistory v w run item directory payload) (λ x, publicationFor run (snd x) (fst x)).
Proof.
  unfold publishHistory. eapply yields_bind; [apply always_steps|apply existing_value|]. intros [x|] Hx.
  - apply yields_ret. by destruct x.
  - eapply yields_bind; [apply always_steps|apply begin_value|]. intros p (Hw & digest & Ei).
    eapply yields_bind; [apply always_steps|apply publish_value|]. intros published Ep. apply yields_ret.
    split; [|done]. rewrite Ei in Ep. by simplify_eq.
Qed.

(** Moves that keep the reference. *)
Lemma respecting_exec {A} (g : DB → A) workspace id P f :
  (∀ o, ob_workspace_id (f o) = ob_workspace_id o ∧ oe_archive (ob_evidence (f o)) = oe_archive (ob_evidence o)) →
  Steps respecting (exec (λ _ d, (g d, snd (updateObservation workspace id P f d)))).
Proof. intros H. apply steps_exec; [apply _|]. intros t d. by apply none_respecting, observation_none. Qed.
Lemma respecting_counted workspace id P f :
  (∀ o, ob_workspace_id (f o) = ob_workspace_id o ∧ oe_archive (ob_evidence (f o)) = oe_archive (ob_evidence o)) →
  Steps respecting (exec (λ _ d, updateObservation workspace id P f d)).
Proof. intros H. apply steps_exec; [apply _|]. intros t d. by apply none_respecting, observation_none. Qed.
Lemma respecting_clear run id : Steps respecting (clearObservationTransition run id).
Proof. unfold clearObservationTransition. steps. by apply (respecting_exec (λ _, tt)). Qed.
Lemma respecting_mark run item revision st f : Steps respecting (markEvidence run item revision st f).
Proof. unfold markEvidence. steps. by apply (respecting_exec (λ _, tt)). Qed.
Lemma respecting_restoreTx run item revision data : Steps respecting (restoreTx run item revision data).
Proof. unfold restoreTx. steps. by apply respecting_counted. Qed.
Lemma respecting_expiringTx run item revision : Steps respecting (expiringTx v run item revision).
Proof. unfold expiringTx, observationProtection. steps. by apply respecting_counted. Qed.
Lemma respecting_expiredTx run item revision key : Steps respecting (expiredTx run item revision key).
Proof.
  unfold expiredTx. steps; [by apply respecting_counted|]. apply steps_exec; [apply _|]. intros t d. simpl. apply moves_respecting.
  - intros id. rewrite lookup_updateRows. destruct (t_publications d !! id) as [p|]; [|done]. simpl. by case_if.
  - intros id p p' Hp. rewrite lookup_updateRows, Hp. simpl. intros [= <-]. case_if; [right; simpl; lia|by left].
Qed.
#[local] Hint Resolve respecting_clear respecting_mark respecting_restoreTx respecting_expiringTx respecting_expiredTx : steps.

(** Walk to the first statement that publishes. *)
Ltac to_publishing :=
  repeat (lazymatch goal with
          | |- Steps _ (bind (beginArchivePublication _ _ _ _ _ _) _) => fail
          | |- Steps _ (bind (publishHistory _ _ _ _ _ _) _) => fail
          | _ => steps_step
          end).
Lemma respectful_publishing {A} run item kind data (tx : archivePublication → string * string → M DB A) :
  (∀ p published, publicationFor run p published → OkSteps respecting (tx p published)) →
  Steps respectful (p <- beginArchivePublication v w run item kind data ;; published <- publishArchive v w run item kind data ;;
    db v (transaction (tx p published))).
Proof.
  intros H. eapply steps_value; [apply _|steps|apply begin_value|]. intros p (Hw & digest & Ei).
  eapply steps_value; [apply _|steps|apply publish_value|]. intros published Ep. apply respectful_ok, H.
  split; [|done]. rewrite Ei in Ep. by simplify_eq.
Qed.
Lemma respectful_archiveObservation run item : Steps respectful (archiveObservation v w run item).
Proof.
  unfold archiveObservation, readObservation, observationProtection. to_publishing.
  apply (respectful_publishing _ _ _ _ (λ p published, archiveTx v run item p published _ _ _)).
  intros p published. apply respecting_archiveTx.
Qed.
Lemma respectful_archiveAudit run item : Steps respectful (archiveAuditEvent v w run item).
Proof.
  unfold archiveAuditEvent, readEvent, auditProtection. to_publishing.
  apply (respectful_publishing _ _ _ _ (λ p published, archiveAuditTx run item p published _ _)).
  intros p published. apply respecting_auditTx.
Qed.
Lemma respectful_archiveHistory run item : Steps respectful (archiveHistoryEvent v w run item).
Proof.
  unfold archiveHistoryEvent, readHistoryArchiveRecord, historyProtection. to_publishing.
  eapply steps_value; [apply _|unfold publishHistory; steps|apply publishHistory_value|]. intros published Hp.
  by apply respectful_ok, respecting_historyTx.
Qed.
Ltac respectful_statements :=
  repeat first [ progress steps
               | apply respectful_lift; solve [steps]
               | apply respectful_same; solve [steps] ].
Lemma respectful_expireCopy run item a revision gone : Steps respectful (expireCopy v w run item a revision gone).
Proof. unfold expireCopy, withRetentionLease, deleteArchive, deleteIn. respectful_statements. Qed.
Lemma respectful_archivePresent run a : Steps respectful (archiveEvidencePresent v w run a).
Proof. unfold archiveEvidencePresent, present, withRetentionLease. respectful_statements. Qed.
Lemma respectful_rawPresent run record : Steps respectful (rawEvidencePresent v w run record).
Proof. unfold rawEvidencePresent, present, withRetentionLease. respectful_statements. Qed.
#[local] Hint Resolve respectful_expireCopy respectful_archivePresent respectful_rawPresent : steps.
Lemma respectful_expireArchive run item : Steps respectful (expireObservationArchive v w run item).
Proof.
  unfold expireObservationArchive, recheckCopy, readObservation, observationProtection, withRetentionLease. respectful_statements.
Qed.
Lemma respectful_restore run item : Steps respectful (restoreObservation v w run item).
Proof. unfold restoreObservation, readObservation, withRetentionLease. respectful_statements. Qed.
Lemma respectful_expireRaw run item : Steps respectful (expireRawReport v w run item).
Proof.
  unfold expireRawReport, expireUnprotected, recheckImport, expireImport, importProtection, readImport, withRetentionLease,
    deleteRaw, deleteIn. respectful_statements.
Qed.
Lemma respectful_deleteOrphan run item : Steps respectful (deleteOrphanArchive v w run item).
Proof. unfold deleteOrphanArchive, lockPublication, withRetentionLease, deleteArchive, deleteIn. respectful_statements. Qed.
#[local] Hint Resolve respectful_archiveObservation respectful_archiveAudit respectful_archiveHistory respectful_expireArchive
  respectful_restore respectful_expireRaw respectful_deleteOrphan : steps.

Lemma respectful_processNext : Steps respectful (ProcessNextRetention v w).
Proof. unfold ProcessNextRetention, processClaimed, processRetentionItem. respectful_statements. Qed.

(** The worker, whatever it works on and wherever it fails, keeps one
    publication per object, publications stay and their revisions only grow,
    and while the publication of an object is unchanged no observation, event
    or policy revision comes to refer to that object, as long as the other
    sessions do the same. *)
Theorem worker_respects env n s :
  uniquePublications (rt_db s) →
  uniquePublications (rt_db (out_db (ProcessNextRetention v w env n s))) ∧
  respects (rt_db s) (rt_db (out_db (ProcessNextRetention v w env n s))).
Proof.
  apply respectful_processNext.
Qed.
End respect.

(** ** Orphans *)

(** ** Programs from a state to a state *)

(** [Ends P m Q]: every run of [m] from [P], failing or not, ends in [Q]. *)
Definition Ends {S A} (P : S → Prop) (m : M S A) (Q : S → Prop) : Prop :=
  ∀ env n s, P s → Q (out_db (m env n s)).
Lemma ends_bind {S A B} (P P' Q : S → Prop) (m : M S A) (k : A → M S B) :
  Ends P m P' → (∀ s, P' s → Q s) → (∀ a, Ends P' (k a) Q) → Ends P (bind m k) Q.
Proof.
  intros Hm HQ Hk env n s Hs. unfold bind. specialize (Hm env n s Hs).
  destruct (m env n s) as [[a|e] s1 n1]; simpl in *; [by apply Hk|by apply HQ].
Qed.
Lemma ends_handle {S A B} (P P' Q : S → Prop) (m : M S A) (k : Res A → M S B) :
  Ends P m P' → (∀ r, Ends P' (k r) Q) → Ends P (handle m k) Q.
Proof.
  intros Hm Hk env n s Hs. unfold handle. specialize (Hm env n s Hs). destruct (m env n s) as [r s1 n1]. by apply Hk.
Qed.
Lemma ends_keep {S A} (P Q : S → Prop) (m : M S A) : (∀ env n s, out_db (m env n s) = s) → (∀ s, P s → Q s) → Ends P m Q.
Proof. intros H HQ env n s Hs. rewrite H. auto. Qed.
Lemma ends_steps {S A} (P : S → Prop) (m : M S A) : Steps (preserves P) m → Ends P m P.
Proof. intros H env n s. apply H. Qed.

Section orphans.
Context {O : Type} `{!ObjectService O, !ObjectLaws O} (v : RetentionWorld (O:=O)) (w : retentionWorker) (run : retentionRunRecord).
Abbreviation workspace := (runWorkspace run).
Context (key : string).

(** Objects have one publication, and what is referred to is there. *)
Definition safe (s : Ret O) : Prop :=
  uniquePublications (rt_db s) ∧
  (archiveReferenceExists workspace key (rt_db s) = true → isSome (getObject (rt_objects s) key) = true).
Context (Hrespects : ∀ n s, respectful s (rw_other v n s)).
Context (Hsafe : ∀ n s, safe s → safe (rw_other v n s)).

Definition held (p : archivePublication) (s : Ret O) : Prop :=
  safe s ∧ t_publications (rt_db s) !! pubID p = Some (pubRow p) ∧ pb_workspace_id (pubRow p) = workspace.
Definition orphaned (p : archivePublication) (s : Ret O) : Prop :=
  held p s ∧ archiveReferenceExists workspace (pb_object_key (pubRow p)) (rt_db s) = false.

Lemma safe_archives d d' o : sameArchives d d' → preserves safe (mkRet d o) (mkRet d' o).
Proof.
  intros H [Hu Hs]. split; simpl in *; [by apply (same_respecting _ _ H)|]. by rewrite (sameArchives_reference _ _ _ _ H).
Qed.
Lemma held_archives p d d' o : sameArchives d d' → preserves (held p) (mkRet d o) (mkRet d' o).
Proof.
  intros H (Hs & Hp & Hw). split; [by eapply safe_archives|]. simpl in *. by rewrite (sameArchives_publications _ _ H).
Qed.
Lemma orphaned_archives p d d' o : sameArchives d d' → preserves (orphaned p) (mkRet d o) (mkRet d' o).
Proof.
  intros H [Hh Hr]. split; [by eapply held_archives|]. simpl in *. by rewrite (sameArchives_reference _ _ _ _ H).
Qed.
Lemma held_hold p : Steps (preserves (held p)) (pauseHolding v (pubID p)).
Proof.
  intros env n s (Hs & Hp & Hw). unfold pauseHolding. simpl. case_bool_decide as E; [|done].
  split; [by apply Hsafe|]. by rewrite E.
Qed.
Lemma orphaned_hold p : Steps (preserves (orphaned p)) (pauseHolding v (pubID p)).
Proof.
  intros env n s [Hh Hr]. split; [by apply held_hold|]. unfold pauseHolding. simpl. case_bool_decide as E; [|done].
  destruct Hh as ([Hu _] & Hp & Hw). destruct (Hrespects n s Hu) as [_ Hr']. destruct (Hr' _ _ Hp) as (p' & Hp' & _ & _ & _ & H).
  rewrite E, Hp in Hp'. simplify_eq. rewrite Hw in H. by apply H.
Qed.
Lemma orphaned_lease {A} p (m : M (Ret O) A) :
  Steps (preserves (orphaned p)) m → Steps (preserves (orphaned p)) (withRetentionLease v w (pauseHolding v (pubID p)) run m).
Proof.
  intros Hm. pose proof (orphaned_hold p).
  assert (Steps (preserves (orphaned p)) (lift (renewRetentionLease w run))).
  { apply steps_lift. intros env n d o. apply orphaned_archives, by_renew, _. }
  unfold withRetentionLease. steps.
Qed.
Lemma safe_db {A} (m : M DB A) : Steps sameArchives m → Steps (preserves safe) (db v m).
Proof.
  intros H. apply steps_db; [apply _|exact Hsafe|]. apply steps_lift. intros env n d o. apply safe_archives, H.
Qed.
#[local] Instance safe_lifted : PreOrder (lifted (preserves safe)) := _.
(** Publications move without changing references. *)
Lemma safe_finish p st : Steps (preserves safe) (lift (transaction (finishArchivePublication p st))).
Proof.
  apply steps_lift, steps_transaction; [apply _|]. unfold finishArchivePublication. steps.
  apply steps_exec; [apply _|]. intros t d o [Hu Hs]. split; [by apply moved_respecting|]. simpl in *.
  erewrite same_reference; [exact Hs|]. unfold updatePublication, updateOne.
  destruct (t_publications d !! pubID p); [case_if|]; done.
Qed.
Lemma held_safe p s : held p s → safe s.
Proof. by intros [H _]. Qed.
Lemma orphaned_safe p s : orphaned p s → safe s.
Proof. by intros [H%held_safe _]. Qed.

Lemma orphaned_delete p : Ends (orphaned p) (deleteArchive (O:=O) (wkStore w) workspace (pb_object_key (pubRow p))) safe.
Proof.
  unfold deleteArchive, deleteIn. apply (ends_bind _ (orphaned p)).
  - apply ends_keep; [|done]. intros env n s. unfold guard. by case_if.
  - apply orphaned_safe.
  - intros _ env n s Ho. unfold writeObjects.
    assert (safe (mkRet (rt_db s) (deleteObject (pb_object_key (pubRow p)) (rt_objects s)))) as Hd.
    { destruct Ho as [[[Hu Hs] _] Hr]. split; [done|]. intros Href. simpl in *. destruct (decide (key = pb_object_key (pubRow p))) as [Ek|Hne].
      - rewrite Ek in Href. congruence.
      - rewrite get_delete_other by done. by apply Hs. }
    destruct (env_commit env n); simpl; try done. by eapply orphaned_safe.
Qed.
(** The row that was locked. *)
Lemma ends_locked {A} id (k : archivePublication → M (Ret O) A) :
  (∀ p, Ends (held p) (k p) safe) → Ends safe (bind (db v (lockPublication workspace id)) k) safe.
Proof.
  intros Hk env n s Hs. unfold db, lockPublication, bind, pause, lift. simpl. apply (Hsafe n) in Hs.
  destruct (query _ _ _ _) as [[p|x] d n'] eqn:E; simpl.
  - apply query_inv in E as [E ->]. apply Hk. destruct (t_publications _ !! id) as [q|] eqn:Eq; [|done].
    destruct (_ ==? _) eqn:Ew in E; [|done]. apply bool_decide_eq_true in Ew. simplify_eq. by split.
  - assert (d = rt_db (rw_other v n s)) as ->; [|done].
    unfold query, stmt in E. destruct (_ || _); [by simplify_eq|].
    destruct (t_publications _ !! id); [destruct (_ ==? _) in E|]; by simplify_eq.
Qed.
(** The look for references. *)
Lemma ends_referenced {A} p (k : bool → M (Ret O) A) :
  Ends (held p) (k true) safe → Ends (orphaned p) (k false) safe →
  Ends (held p) (bind (lift (query (λ _ d, Ok (archiveReferenceExists workspace (pb_object_key (pubRow p)) d)))) k) safe.
Proof.
  intros Ht Hf env n s Hs. unfold bind, lift. destruct (query _ _ _ _) as [[b|x] d n'] eqn:E; simpl.
  - apply query_inv in E as [E ->]. simplify_eq. destruct (archiveReferenceExists _ _ _) eqn:Er; [by apply Ht|by apply Hf].
  - assert (d = rt_db s) as ->; [|by eapply held_safe].
    unfold query, stmt in E. destruct (_ || _); by simplify_eq.
Qed.
Lemma safe_finishing p st (outcome : retentionOutcome) :
  Steps (preserves safe) (pauseHolding v (pubID p) ;;; lift (transaction (finishArchivePublication p st)) ;;; ret outcome).
Proof.
  pose proof (safe_finish p st). pose proof (steps_pauseHolding v (preserves safe) Hsafe (pubID p)). steps.
Qed.
Lemma ends_deleting p :
  Ends (orphaned p) (withRetentionLease v w (pauseHolding v (pubID p)) run
    (deleteArchive (wkStore w) workspace (pb_object_key (pubRow p)))) safe.
Proof.
  unfold withRetentionLease.
  assert (Steps (preserves (orphaned p)) (lift (renewRetentionLease w run))).
  { apply steps_lift. intros env n d o. apply orphaned_archives, by_renew, _. }
  do 3 (apply (ends_bind _ (orphaned p)); [apply ends_steps; done || apply orphaned_hold|apply orphaned_safe|intros _]).
  apply (ends_handle _ safe); [apply orphaned_delete|]. intros r. apply ends_steps. steps.
Qed.
Lemma ends_from {A} (P : Ret O → Prop) (m : M (Ret O) A) : (∀ s, P s → safe s) → Steps (preserves safe) m → Ends P m safe.
Proof. intros HP Hm env n s Hs. apply Hm; auto. Qed.

(** C14: the deletion of an orphaned archive object never takes away an object a
    row of the workspace refers to, whatever other sessions do between its
    statements, as long as objects keep their one publication, who adds a
    reference moves the publication with it ([worker_respects]: every worker
    does), and who adds a reference to an object has put the object there. *)
Theorem orphans_only item env n s : safe s → safe (out_db (deleteOrphanArchive v w run item env n s)).
Proof.
  revert env n s. change (Ends safe (deleteOrphanArchive v w run item) safe). unfold deleteOrphanArchive.
  destruct (ri_object _) as [[[k dg] revision]|]; [|by apply ends_keep].
  apply (ends_bind _ safe); [apply ends_steps, safe_db, by_renew, _|done|]. intros _. apply ends_locked. intros p.
  apply (ends_bind _ (held p)); [by apply ends_keep|apply held_safe|]. intros at_.
  destruct (negb _); [apply ends_from; [apply held_safe|]; steps; apply steps_lift; steps|].
  cbv zeta. apply (ends_bind _ (held p)); [apply ends_steps, held_hold|apply held_safe|]. intros _.
  apply ends_referenced; [apply ends_from; [apply held_safe|apply safe_finishing]|].
  apply (ends_handle _ (orphaned p)); [apply ends_steps, orphaned_lease; steps|].
  assert (Ends (orphaned p) (withRetentionLease v w (pauseHolding v (pubID p)) run
    (deleteArchive (wkStore w) workspace (pb_object_key (pubRow p))) ;;;
    pauseHolding v (pubID p) ;;; lift (transaction (finishArchivePublication p PbDeleted)) ;;; ret (succeeded "deleted")) safe) as Hdel.
  { apply (ends_bind _ safe); [apply ends_deleting|done|]. intros _. apply ends_steps, safe_finishing. }
  intros [data|[]]; try exact Hdel; try (apply ends_keep; [done|apply orphaned_safe]).
  apply ends_from; [apply orphaned_safe|apply safe_finishing].
Qed.
End orphans.
