(* ===== verification/RetentionPreviewProps.v ===== *)
(** * What a preview shows is what the worker asks

    A preview computes its reasons with one query per class; the worker asks
    again, per item, before it acts.  On the same rows both give the same
    answer, for every class.  The counts of a preview are those of its items. *)
From stdpp Require Import pretty.
From S2P Require Import Prelude GoLib Encoding Tx ReportAdapter Schema Auth Intake Correlations Retention RetentionStore RetentionWorker RetentionActions RetentionArchive RetentionRuns RetentionPreviews RetentionApproval.
Local Open Scope Z_scope.

(** ** Names of holds *)

Lemma joinWith_empty sep l : Forall (λ x, x ≠ "") l → (joinWith sep l = "" ↔ l = []).
Proof.
  intros H. destruct l as [|x l]; [done|]. inversion H as [|? ? Hx _]; subst. split; [|done].
  intros E. exfalso. destruct l; simpl in E; [done|]. by destruct x.
Qed.
Lemma rowsById_nil {V} (P : string → V → bool) m : rowsById P m = [] ↔ anyRow P m = false.
Proof.
  rewrite anyRow_false. split.
  - intros E k x Hk. destruct (P k x) eqn:EP; [|done].
    assert ((k, x) ∈ rowsById P m) as Hin by (unfold rowsById; by rewrite merge_sort_Permutation, elem_of_rowsWhere).
    rewrite E in Hin. by apply elem_of_nil in Hin.
  - intros H. destruct (rowsById P m) as [|[k x] l] eqn:E; [done|].
    assert ((k, x) ∈ rowsById P m) as Hin by (rewrite E; apply list_elem_of_here).
    unfold rowsById in Hin. rewrite merge_sort_Permutation, elem_of_rowsWhere in Hin. destruct Hin as [Hk HP].
    rewrite (H _ _ Hk) in HP. done.
Qed.
(** A list of names, each with a separator in it, is empty when there are no rows. *)
Lemma namesOf {V} (f : string * V → string) P m :
  (∀ r, f r ≠ "") → (joinWith "," (f <$> rowsById P m) !=? "") = anyRow P m.
Proof.
  intros Hf. assert (Forall (λ x, x ≠ "") (f <$> rowsById P m)) as HF.
  { apply Forall_fmap, Forall_forall. intros r _. apply Hf. }
  destruct (anyRow P m) eqn:E.
  - apply negb_true_iff, bool_decide_eq_false. rewrite (joinWith_empty _ _ HF). intros En%fmap_nil_inv%rowsById_nil. congruence.
  - apply rowsById_nil in E. by rewrite E.
Qed.
Lemma suffix_ne a c b : a +:+ String c b ≠ "".
Proof. by destruct a. Qed.
Lemma holdNames_any workspace P db :
  (holdNames workspace P db !=? "") = anyRow (λ _ h, openHold h && (h_workspace_id h ==? workspace) && P h) (t_holds db).
Proof. apply namesOf. intros r. apply suffix_ne. Qed.
Lemma anyRow_ext {V} (P Q : string → V → bool) m : (∀ k x, P k x = Q k x) → anyRow P m = anyRow Q m.
Proof. intros H. unfold anyRow. induction (map_to_list m) as [|x l IH]; simpl; [done|]. by rewrite H, IH. Qed.
Lemma anyRow_or {V} (P Q : string → V → bool) m : anyRow (λ k x, P k x || Q k x) m = anyRow P m || anyRow Q m.
Proof.
  unfold anyRow. induction (map_to_list m) as [|x l IH]; simpl; [done|]. rewrite IH.
  destruct (P x.1 x.2), (Q x.1 x.2); simpl; rewrite ?orb_true_r; done.
Qed.
Lemma holdNames_one workspace kind id db :
  (holdNames workspace (onResource kind id) db !=? "") = holdsOn workspace kind (λ r, r ==? id) db.
Proof. rewrite holdNames_any. apply anyRow_ext. intros _ h. unfold onResource. by rewrite andb_assoc. Qed.
Lemma holdNames_two workspace P Q db :
  (holdNames workspace (λ h, P h || Q h) db !=? "") =
  (holdNames workspace P db !=? "") || (holdNames workspace Q db !=? "").
Proof. rewrite !holdNames_any, <- anyRow_or. apply anyRow_ext. intros _ h. apply andb_orb_distrib_r. Qed.

(** ** The worker's questions *)

Section questions.
Context (assessed : Z → string → string → bool) (text : Observation → list N) (jsonText : JSON → list N)
  (epochText : Z → string).

Definition historyReasons (workspace kind id : string) (db : DB) : option (list string) :=
  let hold := holdsOn workspace kind (λ r, r ==? id) db in
  if bool_decide (kind ∈ [retentionNotificationPolicyRev; retentionFindingChangeEvent; retentionNotificationPolicyEvent])
  then match historyConditions workspace kind id db with
       | Ok (current, pending, active) => Some (historyRetentionReasons hold current pending active)
       | Err _ => None
       end
  else Some (historyRetentionReasons hold false false false).
(** ... are what [historyProtection] returns inside a transaction. *)
Lemma historyProtection_reasons workspace kind id env n db reasons db' n' :
  historyProtection (λ A m, m) workspace kind id env n db = mkOut (Ok reasons) db' n' →
  db' = db ∧ historyReasons workspace kind id db = Some reasons.
Proof.
  intros H. apply bind_inv in H as (hold & s1 & n1 & [[= <-] ->]%query_inv & H).
  apply bind_inv in H as (c & s2 & n2 & Hc & H). unfold historyReasons. case_bool_decide.
  - apply query_inv in Hc as [-> ->]. destruct c as [[cur pend] act]. by apply ret_inv in H as [<- ->].
  - apply ret_inv in Hc as [<- ->]. by apply ret_inv in H as [<- ->].
Qed.

(** What protects an item, as the worker asks for its action at clock [t]. *)
Definition workerReasons (t : Z) (workspace : string) (i : RetentionPreviewItem) (db : DB) : option (list string) :=
  let id := pi_resource_id i in
  if (pi_action i ==? "archive-history") || (pi_action i ==? "expire-archive") then Some (observationReasons assessed t workspace id db)
  else if pi_action i ==? "expire-raw-report" then Some (importReasons assessed t workspace id db)
  else if pi_action i ==? "archive-audit" then
    if isHistoryRetentionKind (pi_kind i) then historyReasons workspace (pi_kind i) id db
    else Some (auditReasons workspace id db)
  else match pi_object i with
       | Some (key, _, _) => Some (if archiveReferenceExists workspace key db then ["archive-reference"] else [])
       | None => None
       end.

Lemma evidence_reasons t workspace id o import i f db :
  t_observations db !! id = Some o → ob_workspace_id o = workspace → joined workspace o db = Some (import, i, f) →
  retentionReasons (evidenceHolds workspace id import db !=? "") (activeDecision (ob_finding_id o) f db) false "" ++
    assessmentReason (assessed t workspace id) = observationReasons assessed t workspace id db.
Proof.
  intros Ho Hw Hj. unfold joined in Hj. destruct (importOfRun workspace (ob_run_id o) db) as [[import' i']|] eqn:Ei; [|done].
  simpl in Hj. destruct (t_findings db !! ob_finding_id o) as [f'|] eqn:Ef; [|done]. simpl in Hj.
  destruct (f_workspace_id f' ==? workspace) eqn:Ew; [|done]. simplify_eq. apply bool_decide_eq_true in Ew.
  unfold observationReasons. f_equal. unfold observationHeld, observationOf, decidedObservation.
  rewrite Ho, (bool_decide_eq_true_2 (ob_workspace_id o = ob_workspace_id o)) by done. simpl.
  rewrite Ei, Ef, (bool_decide_eq_true_2 _ Ew). simpl. f_equal.
  unfold evidenceHolds. rewrite holdNames_two, !holdNames_one.
  assert (anyRow (λ _ o', ob_workspace_id o' ==? ob_workspace_id o) (t_observations db) = true) as ->; [|done].
  apply anyRow_true. exists id, o. split; [done|]. by apply bool_decide_eq_true.
Qed.
Lemma hot_reasons t workspace id o db i :
  t_observations db !! id = Some o → ob_workspace_id o = workspace → hotItem assessed text t workspace db (id, o) = Some i →
  workerReasons t workspace (siItem i) db = Some (pi_reasons (siItem i)).
Proof.
  intros Ho Hw H. unfold hotItem in H. destruct (joined workspace o db) as [[[import r] f]|] eqn:Hj; [|done].
  simpl in H. injection H as <-. unfold workerReasons. simpl. by rewrite (evidence_reasons t workspace id o import r f db).
Qed.
Lemma archived_reasons t workspace id o db i :
  t_observations db !! id = Some o → ob_workspace_id o = workspace → archivedItem assessed t workspace db (id, o) = Some i →
  workerReasons t workspace (siItem i) db = Some (pi_reasons (siItem i)).
Proof.
  intros Ho Hw H. unfold archivedItem in H. destruct (joined workspace o db) as [[[import r] f]|] eqn:Hj; [|done].
  simpl in H. destruct (oe_archive (ob_evidence o)) as [a|]; [|done]. simpl in H. injection H as <-.
  unfold workerReasons. simpl. by rewrite (evidence_reasons t workspace id o import r f db).
Qed.
Lemma existsb_perm {A} (P : A → bool) l l' : l ≡ₚ l' → existsb P l = existsb P l'.
Proof. induction 1; simpl; rewrite ?IHPermutation; try congruence. by destruct (P x), (P y). Qed.
Lemma raw_reasons t workspace id r db :
  t_imports db !! id = Some r → i_workspace_id (i_meta r) = workspace →
  workerReasons t workspace (siItem (rawItem assessed t workspace db (id, r))) db =
    Some (pi_reasons (siItem (rawItem assessed t workspace db (id, r)))).
Proof.
  intros Hr Hw. unfold workerReasons, rawItem, importReasons, importOf. simpl. rewrite Hr, (bool_decide_eq_true_2 _ Hw).
  assert (runObservations workspace (i_run_id (i_meta r)) db ≡ₚ rowsWhere (λ _ o, ofRun workspace (i_run_id (i_meta r)) o) (t_observations db))
    as Hp by apply merge_sort_Permutation.
  do 2 f_equal.
  - rewrite holdNames_two, holdNames_one. f_equal. rewrite holdNames_any. apply anyRow_ext. intros _ h.
    rewrite (existsb_perm _ _ _ Hp), andb_assoc. done.
  - by apply existsb_perm.
  - by rewrite Hp.
  - by rewrite (existsb_perm _ _ _ Hp).
Qed.
Lemma audit_reasons t workspace id x db i :
  t_correlationEvents db !! id = Some x → x_workspace_id x = workspace → auditItem jsonText workspace db (id, x) = Some i →
  workerReasons t workspace (siItem i) db = Some (pi_reasons (siItem i)).
Proof.
  intros Hx Hw H. unfold auditItem, groupOfEvent in H. destruct (t_correlations db !! x_correlation_id x) as [c|] eqn:Ec; [|done].
  simpl in H. destruct (g_workspace_id c ==? x_workspace_id x) eqn:Eg; [|done]. simpl in H. injection H as <-.
  unfold workerReasons, auditReasons, activeEvent. simpl. rewrite Hx, (bool_decide_eq_true_2 _ Hw), Ec, Eg. simpl.
  by rewrite holdNames_one.
Qed.
Lemma orphan_reasons t workspace id p db :
  workerReasons t workspace (siItem (orphanItem workspace db (id, p))) db = Some (pi_reasons (siItem (orphanItem workspace db (id, p)))).
Proof. done. Qed.

(** The four kinds of history. *)
Lemma history_action t workspace kind id observed payload reasons authority db :
  isHistoryRetentionKind kind = true → historyReasons workspace kind id db = Some reasons →
  workerReasons t workspace (siItem (historyItem kind id observed payload reasons authority)) db = Some reasons.
Proof. intros Hk H. unfold workerReasons. cbn [siItem historyItem previewItem pi_action pi_kind pi_resource_id]. by rewrite Hk. Qed.
Lemma decision_reasons t workspace id e db i :
  decisionHistoryItem workspace db (id, e) = Ok i → workerReasons t workspace (siItem i) db = Some (pi_reasons (siItem i)).
Proof.
  unfold decisionHistoryItem. destruct (encoded _) as [payload|]; [|done]. intros [= <-].
  apply history_action; [done|]. unfold historyReasons, historyHolds. rewrite bool_decide_eq_false_2 by (by apply (bool_decide_eq_false_1 _)).
  by rewrite holdNames_one.
Qed.
Lemma pendingNames_any r db : (pendingNames epochText r db !=? "") = pendingRevision r db.
Proof. unfold pendingNames, pendingRevision. apply (namesOf (λ e : string * ChangeEventRow, _)). intros e. simpl. apply suffix_ne. Qed.
Lemma revision_reasons t workspace id r db :
  t_policyRevisions db !! id = Some r → nr_workspace_id r = workspace →
  workerReasons t workspace (siItem (revisionHistoryItem epochText workspace db (id, r))) db =
    Some (pi_reasons (siItem (revisionHistoryItem epochText workspace db (id, r)))).
Proof.
  intros Hr Hw. unfold revisionHistoryItem; cbv zeta; apply history_action; [done|]. unfold historyReasons, historyConditions, historyHolds.
  rewrite holdNames_one, pendingNames_any, bool_decide_eq_true_2 by (by apply (bool_decide_eq_true_1 _)). simpl.
  by rewrite Hr, (bool_decide_eq_true_2 _ Hw).
Qed.
Lemma change_reasons t workspace id e db :
  t_changeEvents db !! id = Some e → ce_workspace_id e = workspace →
  workerReasons t workspace (siItem (changeHistoryItem workspace db (id, e))) db =
    Some (pi_reasons (siItem (changeHistoryItem workspace db (id, e)))).
Proof.
  intros He Hw. unfold changeHistoryItem; cbv zeta; apply history_action; [done|]. unfold historyReasons, historyConditions, historyHolds.
  rewrite holdNames_one, bool_decide_eq_true_2 by (by apply (bool_decide_eq_true_1 _)). simpl.
  by rewrite He, (bool_decide_eq_true_2 _ Hw).
Qed.
Lemma event_reasons t workspace id e db :
  t_policyEvents db !! id = Some e → pe_workspace_id e = workspace →
  workerReasons t workspace (siItem (eventHistoryItem workspace db (id, e))) db =
    Some (pi_reasons (siItem (eventHistoryItem workspace db (id, e)))).
Proof.
  intros He Hw. unfold eventHistoryItem; cbv zeta; apply history_action; [done|]. unfold historyReasons, historyConditions, historyHolds.
  rewrite holdNames_one, bool_decide_eq_true_2 by (by apply (bool_decide_eq_true_1 _)). simpl.
  by rewrite He, (bool_decide_eq_true_2 _ Hw).
Qed.

(** ** Counts *)

(** The sum of [f] over the items that satisfy [P]. *)
Definition tally (P : RetentionPreviewItem → bool) (f : RetentionPreviewItem → Z) (l : list retentionSnapshotItem) : Z :=
  foldr (λ i acc, (if P (siItem i) then f (siItem i) else 0) + acc) 0 l.
Lemma tally_snoc P f l i : tally P f (l ++ [i]) = tally P f l + (if P (siItem i) then f (siItem i) else 0).
Proof. unfold tally. induction l as [|x l IH]; simpl; lia. Qed.
Lemma tally_perm P f l l' : l ≡ₚ l' → tally P f l = tally P f l'.
Proof. unfold tally. induction 1; simpl; lia. Qed.
Definition unprotected (i : RetentionPreviewItem) : bool := pi_reasons i ==? [].
Definition inClass (class : string) (i : RetentionPreviewItem) : bool := class ==? pi_class i.
(** What a summary says of a list of items. *)
Definition summaryOf (l : list retentionSnapshotItem) (s : RetentionClassSummary) : RetentionClassSummary :=
  let here := inClass (SumClass s) in
  {| SumClass := SumClass s; SumAction := SumAction s; SumRetainDays := SumRetainDays s;
     SumTotalCount := tally here (λ _, 1) l;
     SumEligibleCount := tally (λ i, here i && unprotected i) (λ _, 1) l;
     SumProtectedCount := tally (λ i, here i && negb (unprotected i)) (λ _, 1) l;
     SumSizeBytes := tally (λ i, here i && unprotected i) pi_size l |}.

Lemma summaryOf_snoc l i s :
  summaryOf (l ++ [i]) s = if inClass (SumClass s) (siItem i) then countItem (siItem i) (summaryOf l s) else summaryOf l s.
Proof.
  unfold summaryOf, countItem, unprotected. rewrite !tally_snoc. destruct (inClass _ _); simpl.
  - destruct (pi_reasons (siItem i) ==? []); simpl; f_equal; lia.
  - by rewrite !Z.add_0_r.
Qed.
Lemma countIn_summaries l i base :
  NoDup (SumClass <$> base) → countIn (siItem i) (summaryOf l <$> base) = summaryOf (l ++ [i]) <$> base.
Proof.
  induction base as [|b base IH]; simpl; [done|]. rewrite NoDup_cons. intros [Hb Hd].
  rewrite summaryOf_snoc. unfold inClass. case_bool_decide as E.
  - f_equal. apply list_fmap_ext. intros k x Hx. rewrite summaryOf_snoc. unfold inClass.
    rewrite bool_decide_eq_false_2; [done|]. intros E'. apply Hb, list_elem_of_fmap. exists x.
    split; [congruence|]. by eapply list_elem_of_lookup_2.
  - f_equal. by apply IH.
Qed.
Lemma newSummaries_NoDup p : NoDup (SumClass <$> newRetentionSummaries p).
Proof. simpl. apply (bool_decide_eq_true_1 _). reflexivity. Qed.

(** A snapshot under construction. *)
Definition counted (p : RetentionPolicyRow) (s : retentionSnapshot) : Prop :=
  snPolicy s = p ∧ snSummaries s = summaryOf (snItems s) <$> newRetentionSummaries p ∧
  (length (snItems s) ≤ retentionPreviewLimit)%nat.
Lemma appendItems_counted p l s s' :
  counted p s → appendItems l s = Ok s' → counted p s' ∧ snItems s' = snItems s ++ l.
Proof.
  revert s. induction l as [|i l IH]; intros s (Hp & Hs & Hl); cbn [appendItems].
  - intros [= <-]. by rewrite app_nil_r.
  - case_match eqn:E; [done|]. intros H. apply Nat.ltb_ge in E. apply IH in H as [Hc Hi].
    + split; [done|]. rewrite Hi. simpl. by rewrite <- app_assoc.
    + split; [done|]. split; [|done]. simpl. rewrite Hs. apply countIn_summaries, newSummaries_NoDup.
Qed.

(** ** The snapshot *)

Section snapshot.
Context (workspace : string) (db : DB) (p : RetentionPolicyRow).
(** The reasons of the item are what the worker finds. *)
Definition answered (i : retentionSnapshotItem) : Prop :=
  ∃ t, workerReasons t workspace (siItem i) db = Some (pi_reasons (siItem i)).
Definition sound (s : retentionSnapshot) : Prop := counted p s ∧ Forall answered (snItems s).

Lemma sound_append (f : Z → DB → Res (list retentionSnapshotItem)) s env n s' db' n' :
  (∀ t items, f t db = Ok items → Forall answered items) →
  (items <- query f ;; fromRes (appendItems items s)) env n db = mkOut (Ok s') db' n' → sound s → db' = db ∧ sound s'.
Proof.
  intros Hf H [Hc Ha]. apply bind_inv in H as (items & s1 & n1 & [Hi ->]%query_inv & [E ->]%fromRes_inv).
  apply appendItems_counted with (p := p) in E as [Hc' Hi']; [|done]. split; [done|]. split; [done|].
  rewrite Hi'. apply Forall_app. split; [done|by eapply Hf].
Qed.
Lemma limited_row {V} (le : string * V → string * V → Prop) `{!∀ a b, Decision (le a b)} P (m : gmap string V) r :
  r ∈ limited (merge_sort le (rowsWhere P m)) → m !! r.1 = Some r.2 ∧ P r.1 r.2 = true.
Proof.
  destruct r as [k x]. unfold limited. intros Hin. apply elem_of_take in Hin as (j & Hin & _). apply list_elem_of_lookup_2 in Hin.
  by rewrite merge_sort_Permutation, elem_of_rowsWhere in Hin.
Qed.
Lemma answered_omap {V} (g : string * V → option retentionSnapshotItem) l :
  (∀ r i, r ∈ l → g r = Some i → answered i) → Forall answered (omap g l).
Proof. intros H. apply Forall_forall. intros i Hi. apply list_elem_of_omap in Hi as (r & Hr & E). by eapply H. Qed.
Lemma answered_fmap {V} (g : string * V → retentionSnapshotItem) l :
  (∀ r, r ∈ l → answered (g r)) → Forall answered (g <$> l).
Proof. intros H. apply Forall_fmap, Forall_forall. intros r Hr. by apply H. Qed.
Lemma answered_mapRes {V} (g : string * V → Res retentionSnapshotItem) l items :
  (∀ r i, r ∈ l → g r = Ok i → answered i) → mapRes g l = Ok items → Forall answered items.
Proof.
  intros H. revert items. induction l as [|r l IH]; intros items; cbn [mapRes]; [by intros [= <-]|].
  destruct (g r) as [i|] eqn:E; [|done]. destruct (mapRes g l) as [rest|] eqn:Em; [|done]. intros [= <-]. constructor.
  - eapply H; [apply list_elem_of_here|done].
  - apply IH; [|done]. intros r' i' Hr'. apply H. by apply list_elem_of_further.
Qed.
Ltac conditions :=
  repeat match goal with
  | E : _ && _ = true |- _ => apply andb_true_iff in E as [? ?]
  | E : (_ ==? _) = true |- _ => apply bool_decide_eq_true in E
  end.

Lemma sound_hot cutoff s env n s' db' n' :
  appendHotHistory assessed text workspace cutoff s env n db = mkOut (Ok s') db' n' → sound s → db' = db ∧ sound s'.
Proof.
  apply sound_append. intros t items [= <-]. apply answered_omap. intros [id o] i Hr Hi.
  apply (limited_row _ _ _ _) in Hr as [Ho Hp]. cbn [fst snd] in *. conditions. exists t. by eapply hot_reasons.
Qed.
Lemma sound_raw cutoff s env n s' db' n' :
  appendRawReports assessed workspace cutoff s env n db = mkOut (Ok s') db' n' → sound s → db' = db ∧ sound s'.
Proof.
  apply sound_append. intros t items [= <-]. apply answered_fmap. intros [id r] Hr.
  apply (limited_row _ _ _ _) in Hr as [Ho Hp]. cbn [fst snd] in *. conditions. exists t. by apply raw_reasons.
Qed.
Lemma sound_archived cutoff s env n s' db' n' :
  appendArchivedEvidence assessed workspace cutoff s env n db = mkOut (Ok s') db' n' → sound s → db' = db ∧ sound s'.
Proof.
  apply sound_append. intros t items [= <-]. apply answered_omap. intros [id o] i Hr Hi.
  apply (limited_row _ _ _ _) in Hr as [Ho Hp]. cbn [fst snd] in *. conditions. exists t. by eapply archived_reasons.
Qed.
Lemma sound_audit cutoff s env n s' db' n' :
  appendAudit jsonText workspace cutoff s env n db = mkOut (Ok s') db' n' → sound s → db' = db ∧ sound s'.
Proof.
  apply sound_append. intros t items [= <-]. apply answered_omap. intros [id x] i Hr Hi.
  apply (limited_row _ _ _ _) in Hr as [Ho Hp]. cbn [fst snd] in *. conditions. exists 0. by eapply audit_reasons.
Qed.
Lemma sound_decisions cutoff s env n s' db' n' :
  appendFindingDecisionHistory workspace cutoff s env n db = mkOut (Ok s') db' n' → sound s → db' = db ∧ sound s'.
Proof.
  apply sound_append. intros t items. apply answered_mapRes. intros [id e] i _ Hi. exists 0. by eapply decision_reasons.
Qed.
Lemma sound_revisions cutoff s env n s' db' n' :
  appendNotificationPolicyRevisionHistory epochText workspace cutoff s env n db = mkOut (Ok s') db' n' → sound s → db' = db ∧ sound s'.
Proof.
  apply sound_append. intros t items [= <-]. apply answered_fmap. intros [id r] Hr.
  apply (limited_row _ _ _ _) in Hr as [Ho Hp]. cbn [fst snd] in *. conditions. exists 0. by apply revision_reasons.
Qed.
Lemma sound_changes cutoff s env n s' db' n' :
  appendFindingChangeHistory workspace cutoff s env n db = mkOut (Ok s') db' n' → sound s → db' = db ∧ sound s'.
Proof.
  apply sound_append. intros t items [= <-]. apply answered_fmap. intros [id e] Hr.
  apply (limited_row _ _ _ _) in Hr as [Ho Hp]. cbn [fst snd] in *. conditions. exists 0. by apply change_reasons.
Qed.
Lemma sound_events cutoff s env n s' db' n' :
  appendNotificationPolicyEventHistory workspace cutoff s env n db = mkOut (Ok s') db' n' → sound s → db' = db ∧ sound s'.
Proof.
  apply sound_append. intros t items [= <-]. apply answered_fmap. intros [id e] Hr.
  apply (limited_row _ _ _ _) in Hr as [Ho Hp]. cbn [fst snd] in *. conditions. exists 0. by apply event_reasons.
Qed.
Lemma sound_orphans cutoff s env n s' db' n' :
  appendOrphanArchives workspace cutoff s env n db = mkOut (Ok s') db' n' → sound s → db' = db ∧ sound s'.
Proof.
  apply sound_append. intros t items [= <-]. apply answered_fmap. intros [id q] _. exists 0. apply orphan_reasons.
Qed.
Lemma sound_history cutoff s env n s' db' n' :
  appendHistoryRetention epochText workspace cutoff s env n db = mkOut (Ok s') db' n' → sound s → db' = db ∧ sound s'.
Proof.
  intros H Hs. apply bind_inv in H as (s1 & d1 & n1 & E1 & H). apply sound_decisions in E1 as [-> H1]; [|done].
  apply bind_inv in H as (s2 & d2 & n2 & E2 & H). apply sound_revisions in E2 as [-> H2]; [|done].
  apply bind_inv in H as (s3 & d3 & n3 & E3 & H). apply sound_changes in E3 as [-> H3]; [|done].
  by apply sound_events in H.
Qed.
Lemma sound_sorted s :
  sound s → sound {| snPolicy := snPolicy s; snSummaries := snSummaries s; snItems := merge_sort snapshotOrder (snItems s) |}.
Proof.
  intros [(Hp & Hs & Hl) Ha]. pose proof (merge_sort_Permutation snapshotOrder (snItems s)) as Hperm.
  split; [|simpl; by rewrite Hperm]. split; [done|]. split; [|simpl; by rewrite Hperm]. cbn [snSummaries snItems]. rewrite Hs.
  apply list_fmap_ext. intros k x _. unfold summaryOf. simpl. f_equal; by apply tally_perm.
Qed.
End snapshot.

Lemma build_sound workspace now env n db s digest db' n' :
  buildRetentionSnapshot assessed text jsonText epochText workspace now env n db = mkOut (Ok (s, digest)) db' n' →
  db' = db ∧ (∃ p, t_retentionPolicies db !! workspace = Some p ∧ sound workspace db p s) ∧ retentionSnapshotDigest s = Ok digest.
Proof.
  intros H. apply bind_inv in H as (p & d0 & n0 & [Hp ->]%query_inv & H).
  assert (t_retentionPolicies db !! workspace = Some p) as Hpol by (destruct (t_retentionPolicies db !! workspace); by simplify_eq).
  cbv zeta in H. set (s0 := Build_retentionSnapshot p _ []) in H.
  assert (sound workspace db p s0) as Hs0 by (repeat split; simpl; [lia|constructor]).
  apply bind_inv in H as (s1 & d1 & n1 & E1 & H). apply (sound_hot _ _ p) in E1 as [-> H1]; [|done].
  apply bind_inv in H as (s2 & d2 & n2 & E2 & H). apply (sound_raw _ _ p) in E2 as [-> H2]; [|done].
  apply bind_inv in H as (s3 & d3 & n3 & E3 & H). apply (sound_archived _ _ p) in E3 as [-> H3]; [|done].
  apply bind_inv in H as (s4 & d4 & n4 & E4 & H). apply (sound_audit _ _ p) in E4 as [-> H4]; [|done].
  apply bind_inv in H as (s5 & d5 & n5 & E5 & H). apply (sound_history _ _ p) in E5 as [-> H5]; [|done].
  apply bind_inv in H as (s6 & d6 & n6 & E6 & H). apply (sound_orphans _ _ p) in E6 as [-> H6]; [|done].
  apply bind_inv in H as (dg & d7 & n7 & [E7 ->]%fromRes_inv & H). apply ret_inv in H as [[= <- <-] ->].
  split; [done|]. split; [|done]. exists p. split; [done|]. by apply sound_sorted.
Qed.

(** C22: a preview says what the worker would find.  A snapshot that is built
    reads the database and leaves it alone, lists at most 200 items, carries
    the digest of its policy and items, and the reasons of every item, of any
    of the five classes and the four kinds of history, are exactly the reasons
    the worker's own question gives for the action on the same rows; its
    summaries count and add up these items per class. *)
Theorem preview_truthful workspace now env n db s digest db' n' :
  buildRetentionSnapshot assessed text jsonText epochText workspace now env n db = mkOut (Ok (s, digest)) db' n' →
  db' = db ∧ retentionSnapshotDigest s = Ok digest ∧ (length (snItems s) ≤ 200)%nat ∧
  (∀ i, i ∈ snItems s → ∃ t, workerReasons t workspace (siItem i) db = Some (pi_reasons (siItem i))) ∧
  ∃ p, t_retentionPolicies db !! workspace = Some p ∧ snPolicy s = p ∧
    snSummaries s = summaryOf (snItems s) <$> newRetentionSummaries p.
Proof.
  intros (Hdb & (p & Hp & [(Hpol & Hsum & Hlen) Ha]) & Hd)%build_sound. split; [done|]. split; [done|]. split; [done|].
  split; [intros i Hi; by apply (proj1 (Forall_forall _ _) Ha)|]. by exists p.
Qed.
End questions.
