(* ===== verification/RetentionApprovalProps.v ===== *)
(** * Approval and execution

    What is approved is what was shown, and what is executed is what was
    approved. *)
From S2P Require Import Prelude GoLib Encoding Tx ReportAdapter Schema Auth Intake Correlations Retention RetentionStore RetentionWorker RetentionActions RetentionArchive RetentionRuns RetentionPreviews RetentionApproval RetentionPreviewProps.
Local Open Scope Z_scope.

(** ** Loading *)

Lemma loadPreview_inv workspace id env n db p db' n' :
  loadRetentionPreview workspace id env n db = mkOut (Ok p) db' n' →
  db' = db ∧ pvID p = id ∧ previewOf workspace id db = Some (pvRow p) ∧ pvItems p = (λ r, pi_item r.2) <$> previewItems workspace id db.
Proof.
  intros H. apply bind_inv in H as (row & s1 & n1 & [H1 ->]%query_inv & H).
  apply bind_inv in H as (items & s2 & n2 & [[= <-] ->]%query_inv & [<- ->]%ret_inv).
  destruct (previewOf workspace id db); by simplify_eq.
Qed.
Lemma loadRun_inv workspace id env n db r db' n' :
  loadRetentionRun workspace id env n db = mkOut (Ok r) db' n' →
  db' = db ∧ rnID r = id ∧ runOf workspace id db = Some (rnRow r) ∧ rnItems r = runItems workspace id db.
Proof.
  intros H. apply bind_inv in H as (row & s1 & n1 & [H1 ->]%query_inv & H).
  apply bind_inv in H as (items & s2 & n2 & [[= <-] ->]%query_inv & [<- ->]%ret_inv).
  destruct (runOf workspace id db); by simplify_eq.
Qed.

(** ** Approval *)

Section approval.
Context (assessed : Z → string → string → bool) (text : Observation → list N) (jsonText : JSON → list N)
  (epochText : Z → string).

Lemma stale_inv workspace id env n db r db' n' : markStale workspace id env n db = mkOut (Ok r) db' n' → r = Err errConflict.
Proof. intros H. by apply bind_inv in H as (u & s1 & n1 & _ & [<- _]%ret_inv). Qed.

(** An approval that is recorded approves what was shown.  The preview was
    ready, unexpired and at the revision and digest the administrator named;
    the list built again from the database of the approval, with the reasons
    the worker finds there, has that very digest and the policy's revision is
    still the preview's; and the approval changes nothing but the state of that
    preview, which is what the administrator gets back. *)
Theorem approval_current workspace actor id snapshot rationale key revision env n db preview db' n' :
  approveRetentionPreview assessed text jsonText epochText workspace actor id snapshot rationale key revision env n db =
    mkOut (Ok (201, preview)) db' n' →
  ∃ row at_ current p,
    previewOf workspace id db = Some row ∧ pv_state row = PvReady ∧ pv_revision row = revision ∧
    pv_snapshot_digest row = snapshot ∧ at_ < pv_expires_at row ∧
    t_retentionPolicies db !! workspace = Some p ∧ rp_revision p = pv_policy_revision row ∧
    sound assessed workspace db p current ∧ retentionSnapshotDigest current = Ok snapshot ∧
    db' = with_previews (<[id := approvedPreview actor at_ rationale key
      (retentionApprovalDigest workspace id actor rationale key snapshot revision) row]> (t_previews db)) db ∧
    previewOf workspace id db' = Some (pvRow preview) ∧ pvItems preview = (λ r, pi_item r.2) <$> previewItems workspace id db.
Proof.
  intros H. apply bind_inv in H as (u & s1 & n1 & [_ ->]%guard_inv & H).
  apply bind_inv in H as (r & s2 & n2 & [n3 H]%transaction_inv & [-> ->]%fromRes_inv).
  apply bind_inv in H as (prior & s3 & n4 & [_ ->]%query_inv & H). destruct prior as [[priorID q]|].
  { apply bind_inv in H as (u1 & s4 & n5 & _ & H). apply bind_inv in H as (pv & s5 & n6 & _ & [H _]%ret_inv). by simplify_eq. }
  apply bind_inv in H as (pv & s4 & n5 & (-> & _ & Hrow & _)%loadPreview_inv & H).
  apply bind_inv in H as (at_ & s5 & n6 & [-> ->]%now_inv & H).
  apply bind_inv in H as (u2 & s6 & n7 & [Hg ->]%guard_inv & H).
  apply andb_true_iff in Hg as [Hg Hdg%bool_decide_eq_true]. apply andb_true_iff in Hg as [Hready%bool_decide_eq_true Hrev%Z.eqb_eq].
  destruct (_ <=? _) eqn:Hexp; [apply stale_inv in H; done|]. apply Z.leb_gt in Hexp.
  apply bind_inv in H as ([current digest] & s7 & n8 & (-> & (p & Hp & Hs) & Hd)%build_sound & H).
  destruct (_ || _) eqn:Hsame; [apply stale_inv in H; done|]. apply orb_false_iff in Hsame as [Hpr Hds].
  apply negb_false_iff, Z.eqb_eq in Hpr. apply negb_false_iff, bool_decide_eq_true in Hds.
  apply bind_inv in H as (aff & s8 & n9 & Hup%stmt_inv & H). cbv zeta in Hup.
  apply bind_inv in H as (u3 & s9 & n10 & [Haff%Z.eqb_eq ->]%guard_inv & H).
  apply bind_inv in H as (pv' & s10 & n11 & (-> & _ & Hrow' & Hitems')%loadPreview_inv & [[= <-] ->]%ret_inv).
  unfold updatePreview, updateOne in Hup. unfold previewOf in Hrow. destruct (t_previews db !! id) as [row|] eqn:Erow; [|done].
  destruct (_ ==? workspace) eqn:Ews in Hrow; [|done]. injection Hrow as ->. rewrite Ews in Hup.
  assert ((pv_revision (pvRow pv) =? revision) && readyPreview (pvRow pv) = true) as Hc.
  { apply andb_true_iff. split; [by apply Z.eqb_eq|by apply bool_decide_eq_true]. }
  rewrite Hc in Hup. simpl in Hup. destruct (negb _) in Hup; [done|]. injection Hup as <- <-.
  exists (pvRow pv), (env_now env n5), current, p. unfold previewOf at 1. rewrite Erow, Ews.
  destruct Hs as [(Hpol & ? & ?) ?]. repeat split; try done; congruence.
Qed.
End approval.

(** ** Execution *)

(** Items belong to runs that exist (the foreign key). *)
Definition itemsOwned (db : DB) : Prop :=
  ∀ k i, t_runItems db !! k = Some i → isSome (t_retentionRuns db !! ri_run_id (ri_meta i)) = true.

Lemma rowsWhere_insert {V} (P : string → V → bool) (m : gmap string V) k x :
  m !! k = None → P k x = true → rowsWhere P (<[k := x]> m) ≡ₚ (k, x) :: rowsWhere P m.
Proof.
  intros Hk HP. unfold rowsWhere. rewrite map_to_list_insert by done. by rewrite filter_cons_True.
Qed.
(** The rows one insertion per element leaves. *)
Lemma insertItems_inv workspace run (metas : list RunItemMeta) env n db out db' n' :
  Forall (λ m, ri_workspace_id m = workspace ∧ ri_run_id m = run) metas →
  mapM insertItem metas env n db = mkOut (Ok out) db' n' →
  ∃ rows, ri_meta ∘ snd <$> rows = metas ∧ Forall (λ r : string * RunItemRow, r.2 = queuedItem (ri_meta r.2)) rows ∧
    rowsWhere (λ _ i, itemOf workspace run i) (t_runItems db') ≡ₚ rows ++ rowsWhere (λ _ i, itemOf workspace run i) (t_runItems db) ∧
    (∃ items, t_runItems db ⊆ items ∧ db' = with_runItems items db).
Proof.
  revert n db out n'. induction metas as [|m metas IH]; intros n db out n' Hall H; cbn [mapM] in H.
  - apply ret_inv in H as [_ ->]. exists []. split_and!; [done|done|done|]. exists (t_runItems db). split; [done|]. by destruct db.
  - inversion Hall as [|? ? [Hw Hr] Hall']; subst. apply bind_inv in H as (u & s1 & n1 & Hi & H).
    apply bind_inv in H as (us & s2 & n2 & H & [_ ->]%ret_inv).
    apply bind_inv in Hi as (id & s3 & n3 & [-> ->]%newID_inv & (_ & Hid & ->)%insertInto_inv).
    apply IH in H as (rows & Hm & Hq & Hp & items & Hsub & ->); [|done]. exists ((env_fresh env n, queuedItem m) :: rows).
    split_and!; [simpl; by f_equal|by constructor| |exists items; split; [|done]; etrans; [by apply insert_subseteq|exact Hsub]].
    rewrite Hp. simpl.
    rewrite rowsWhere_insert; [by rewrite Permutation_middle|done|].
    unfold itemOf. simpl. rewrite !bool_decide_eq_true_2 by done. done.
Qed.
Lemma mapM_fmap {S A B C} (f : B → M S C) (g : A → B) l env n s :
  mapM (λ x, f (g x)) l env n s = mapM f (g <$> l) env n s.
Proof.
  revert n s. induction l as [|x l IH]; intros n s; cbn [mapM fmap list_fmap]; [done|]. unfold bind.
  destruct (f (g x) env n s) as [[y|e] s1 n1]; [|done]. by rewrite IH.
Qed.
Lemma inSequence_sorted from l :
  inSequence from l = true →
  StronglySorted (λ a b : (string * Z) * PreviewItemRow, a.1.2 < b.1.2) l ∧ Forall (λ a : (string * Z) * PreviewItemRow, from ≤ a.1.2) l.
Proof.
  revert from. induction l as [|a l IH]; intros from H; cbn [inSequence] in H; [by split; constructor|].
  apply andb_true_iff in H as [Ha%Z.eqb_eq H]. destruct (IH _ H) as [Hs Hf]. split; constructor; try done; [|lia|];
    (eapply Forall_impl; [exact Hf|]); simpl; lia.
Qed.

#[local] Instance itemLe_total : Total itemLe.
Proof. intros a b. unfold itemLe. lia. Qed.
#[local] Instance itemLe_trans : Transitive itemLe.
Proof. intros a b c. unfold itemLe. lia. Qed.
Lemma sorted_rows (rows l : list (string * RunItemRow)) :
  l ≡ₚ rows → StronglySorted (λ a b, ri_ordinal a < ri_ordinal b) (ri_meta ∘ snd <$> rows) → merge_sort itemLe l = rows.
Proof.
  intros Hp Hs.
  assert (StronglySorted (λ a b : string * RunItemRow, ri_ordinal (ri_meta a.2) < ri_ordinal (ri_meta b.2)) rows) as Hr.
  { clear Hp. induction rows as [|a rows IH]; [constructor|]. simpl in Hs. inversion Hs as [|? ? Hs' Hf]; subst.
    constructor; [by apply IH|]. by rewrite Forall_fmap in Hf. }
  apply (StronglySorted_unique_strong itemLe).
  - intros a b Ha Hb. rewrite merge_sort_Permutation, Hp in Ha. unfold itemLe. intros H1 H2. clear Hs Hp.
    induction Hr as [|c rows Hr IH Hc]; [by apply elem_of_nil in Ha|]. rewrite Forall_forall in Hc.
    apply elem_of_cons in Ha as [->|Ha], Hb as [->|Hb]; [done| | |by apply IH].
    + specialize (Hc _ Hb). simpl in Hc. lia.
    + specialize (Hc _ Ha). simpl in Hc. lia.
  - apply Sorted_StronglySorted; [apply _|]. apply Sorted_merge_sort, _.
  - clear Hp Hs. induction Hr as [|c rows Hr IH Hc]; constructor; [done|]. eapply Forall_impl; [exact Hc|].
    unfold itemLe. simpl. lia.
  - by rewrite merge_sort_Permutation.
Qed.
Lemma insertRun_inv id m env n db u db' n' :
  insertRun id m env n db = mkOut (Ok u) db' n' →
  ∃ t, t_retentionRuns db !! id = None ∧ db' = with_retentionRuns (<[id := queuedRun t m]> (t_retentionRuns db)) db.
Proof.
  intros H%stmt_inv. destruct (runCheck m db); [done|]. unfold insertRow in H.
  destruct (t_retentionRuns db !! id) eqn:E; [done|]. injection H as _ <-. eauto.
Qed.
Lemma noItems workspace run db :
  itemsOwned db → t_retentionRuns db !! run = None → rowsWhere (λ _ i, itemOf workspace run i) (t_runItems db) = [].
Proof.
  intros Ho Hr. destruct (rowsWhere _ _) as [|[k i] l] eqn:E; [done|].
  assert ((k, i) ∈ rowsWhere (λ _ i, itemOf workspace run i) (t_runItems db)) as Hin by (rewrite E; apply list_elem_of_here).
  apply elem_of_rowsWhere in Hin as [Hk Hi]. apply andb_true_iff in Hi as [_ Hi%bool_decide_eq_true].
  specialize (Ho _ _ Hk). by rewrite Hi, Hr in Ho.
Qed.
Lemma execution_metas workspace run l :
  inSequence 0 l = true →
  StronglySorted (λ a b, ri_ordinal a < ri_ordinal b) ((λ r, executionMeta workspace run r.1.2 (pi_item r.2)) <$> l).
Proof.
  intros [Hs _]%inSequence_sorted. induction Hs as [|a l Hs IH Ha]; simpl; constructor; [done|]. by rewrite Forall_fmap.
Qed.

(** The item at position [i] of a run carries out the item at position [i] of
    a preview: the same class, kind, resource, action and object, waiting. *)
Definition carriesOut (workspace run : string) (i : nat) (approved : RetentionPreviewItem) (item : RunItemRow) : Prop :=
  let m := ri_meta item in let j := ri_job item in
  ri_workspace_id m = workspace ∧ ri_run_id m = run ∧ ri_ordinal m = Z.of_nat i ∧
  ri_class m = pi_class approved ∧ ri_kind m = pi_kind approved ∧ ri_resource_id m = pi_resource_id approved ∧
  ri_action m = pi_action approved ∧ ri_object m = pi_object approved ∧
  ri_state j = RiQueued ∧ ri_attempts j = 0 ∧ ri_failure j = None ∧ ri_started_at j = None ∧ ri_completed_at j = None.

Lemma inSequence_lookup from l i r : inSequence from l = true → l !! i = Some r → r.1.2 = from + Z.of_nat i.
Proof.
  revert from i. induction l as [|a l IH]; intros from [|i] H Hr; cbn [inSequence] in H; try done;
    apply andb_true_iff in H as [Ha%Z.eqb_eq H]; simplify_eq/=; [lia|]. rewrite (IH _ _ H Hr). lia.
Qed.

(** C23: what is executed is what was approved.  A run is queued only from a
    preview that is approved at the revision and with the digest named; its
    items are the items of that preview, one each, none added or left out: the
    item at each position has the workspace, the run, that position as its
    ordinal and the class, kind, resource, action and object of the approved
    item at that position, and is waiting and never tried; the run and its
    items are added and nothing else is written. *)
Theorem execution_manifest workspace actor id snapshot rationale key revision env n db run db' n' :
  itemsOwned db →
  queueRetentionExecution workspace actor id snapshot rationale key revision env n db = mkOut (Ok (202, run)) db' n' →
  ∃ row, previewOf workspace id db = Some row ∧ pv_state row = PvApproved ∧ pv_revision row = revision ∧
    pv_snapshot_digest row = snapshot ∧ t_retentionRuns db !! rnID run = None ∧ rr_state (rr_job (rnRow run)) = RQueued ∧
    length (rnItems run) = length (previewItems workspace id db) ∧
    (∀ i approved item, previewItems workspace id db !! i = Some approved → rnItems run !! i = Some item →
       carriesOut workspace (rnID run) i (pi_item approved.2) item.2) ∧
    ∃ items, t_runItems db ⊆ items ∧
      db' = with_runItems items (with_retentionRuns (<[rnID run := rnRow run]> (t_retentionRuns db)) db).
Proof.
  intros Hown H. apply bind_inv in H as (u & s1 & n1 & [_ ->]%guard_inv & [n2 H]%transaction_inv).
  apply bind_inv in H as (replay & s2 & n3 & Hrep & H). destruct replay as [old|].
  { apply bind_inv in H as (r & s3 & n4 & _ & [H _]%ret_inv). by simplify_eq. }
  assert (s2 = db) as ->.
  { apply bind_inv in Hrep as (f & s3 & n4 & [_ ->]%query_inv & Hrep). destruct f as [[i r]|]; [|by apply ret_inv in Hrep as [_ ->]].
    by apply bind_inv in Hrep as (u1 & s4 & n5 & _ & [? _]%ret_inv). }
  apply bind_inv in H as (pv & s3 & n4 & (-> & _ & Hrow & _)%loadPreview_inv & H).
  apply bind_inv in H as (u1 & s4 & n5 & [Hg ->]%guard_inv & H).
  apply andb_true_iff in Hg as [[Happ%bool_decide_eq_true Hrev%Z.eqb_eq]%andb_true_iff Hdg%bool_decide_eq_true].
  apply bind_inv in H as (rid & s5 & n6 & [_ ->]%newID_inv & H). apply bind_inv in H as (at_ & s6 & n7 & [-> ->]%now_inv & H).
  apply bind_inv in H as (u2 & s7 & n8 & (t & Hfresh & ->)%insertRun_inv & H).
  apply bind_inv in H as (items & s8 & n9 & [[= <-] ->]%query_inv & H).
  apply bind_inv in H as (u3 & s9 & n10 & [Hseq ->]%guard_inv & H).
  apply bind_inv in H as (us & s10 & n11 & Hins & H).
  rewrite (mapM_fmap insertItem (λ r, executionMeta workspace rid r.1.2 (pi_item r.2))) in Hins.
  apply (insertItems_inv workspace rid) in Hins as (rows & Hm & Hq & Hp & its & Hsub & ->);
    [|apply Forall_fmap, Forall_forall; done].
  apply bind_inv in H as (loaded & s11 & n12 & (-> & Hid & Hrun & Hit)%loadRun_inv & [[= <-] ->]%ret_inv).
  change (t_runItems (with_retentionRuns _ db)) with (t_runItems db) in Hp. rewrite (noItems _ _ db) in Hp by done.
  rewrite app_nil_r in Hp. change (previewItems workspace id (with_retentionRuns _ db)) with (previewItems workspace id db) in *.
  assert (rnItems loaded = rows) as Hrows.
  { rewrite Hit. apply sorted_rows; [done|]. rewrite Hm. by apply execution_metas. }
  unfold runOf in Hrun. simpl in Hrun. rewrite lookup_insert_eq in Hrun. simpl in Hrun.
  rewrite bool_decide_eq_true_2 in Hrun by done. injection Hrun as Hrow'.
  exists (pvRow pv). rewrite Hid, Hrows. split_and!; try done.
  3: { intros i approved item Ha Hi. assert (ri_meta item.2 = executionMeta workspace rid approved.1.2 (pi_item approved.2)) as Em.
       { apply (f_equal (λ l, l !! i)) in Hm. rewrite !list_lookup_fmap, Ha, Hi in Hm. by injection Hm. }
       rewrite Forall_lookup in Hq. specialize (Hq _ _ Hi). pose proof (inSequence_lookup _ _ _ _ Hseq Ha) as Ho.
       rewrite Hq. unfold carriesOut. simpl. rewrite Em. simpl. by split_and!. }
  2: { apply (f_equal length) in Hm. by rewrite !length_fmap in Hm. }
  - by rewrite <- Hrow'.
  - exists its. by rewrite <- Hrow'.
Qed.
