(* ===== verification/RetentionExample.v ===== *)
(** * Retention at work

    One observation and its report are previewed, approved, archived and
    restored; the theorems applied to these runs; and three interleavings in
    which the code does not do what its documentation says. *)
From S2P Require Import Prelude GoLib Encoding Tx ReportAdapter Jobs Schema Auth Intake Work Correlations Retention RetentionStore RetentionWorker RetentionActions RetentionArchive RetentionRuns RetentionPreviews RetentionApproval RetentionFence RetentionLifecycle RetentionContent RetentionRoundTrip RetentionOrphans RetentionPreviewProps RetentionApprovalProps.
Local Open Scope Z_scope.

(** [n] statements into a day counted from the import. *)
Definition envAt (day : Z) : Env := {|
  env_clock := λ n, day * 86400 * 1000000 + Z.of_nat n * 1000; env_now := λ n, day * 86400 * 1000000 + Z.of_nat n * 1000;
  env_nanos := λ _, 0; env_fault := λ _, false; env_commit := λ _, Committed; env_done := λ _, false;
  env_fresh := env_fresh calm; env_locked := λ _ _, false; env_interval := λ d, d / 1000 |}.
Definition today : Z := 400 * 86400 * 1000000.
Definition lateEnv : Env := envAt 400.

Definition obsID : string := "000000000000000000000000000000b1".
Definition importID : string := "000000000000000000000000000000c1".
Definition anObservation : Observation := {|
  o_id := obsID; o_run_id := "r1"; o_source_id := "scanner"; o_scan_id := "s1";
  o_scope := {| ScopeID := "repo"; ScopeRevision := "abc"; ScopeBranch := "main" |}; o_source_scan_at := None;
  o_source_finding_id := "f"; o_source_severity := "high"; o_normalized_severity := "high";
  o_source_location := {| URI := "a.go"; Line := 3 |}; o_impact := "data loss"; o_remediation := "fix it";
  o_unmapped := []; o_evidence_digest := ""; o_change_kind := "new"; o_change_reasons := [] |}.

Definition aReport : list N := bytes "report".
Definition rawKey : string := "raw/ws/" +:+ importID +:+ "/" +:+ hex (Sum256 aReport).
Definition anImport : ImportRow := {|
  i_meta := {| i_run_id := "r1"; i_workspace_id := "ws"; i_asset_id := "a"; i_source_id := "scanner"; i_scan_id := "s1";
    i_scope := {| ScopeID := "repo"; ScopeRevision := "abc"; ScopeBranch := "main" |}; i_format := "sarif";
    i_mapping := {| MSourceFindingID := ""; MTitle := ""; MSourceSeverity := ""; MSourceLocation := ""; MSourceLine := "";
      MImpact := ""; MRemediation := ""; MDescription := "" |};
    i_source_scan_at := None; i_collected_at := 0; i_imported_at := 0; i_source_status := "observed"; i_scan_kind := "sast";
    i_completeness := "complete"; i_report_digest := reportDigest aReport; i_report_key := rawKey;
    i_report_size := Z.of_nat (length aReport); i_metadata_digest := ""; i_submitted_by := Some "admin" |};
  i_job := {| i_state := ISucceeded; i_observation_count := 1; i_failure_code := None; i_failure_message := None;
    i_worker_id := None; i_fence := 1; i_attempts := 1; i_lease_until := None; i_available_at := 0 |};
  i_evidence := {| i_evidence_availability := "available"; i_evidence_revision := 1; i_retention_transition := None;
    i_evidence_expired_at := None |} |}.
Definition anObservationRow : ObservationRow := {|
  ob_workspace_id := "ws"; ob_finding_id := "f"; ob_run_id := "r1"; ob_ordinal := 0; ob_evidence := hotEvidence anObservation |}.
Definition aPolicy : RetentionPolicyRow := {|
  rp_revision := 1; rp_hot_history_days := 90; rp_raw_report_days := 180; rp_archived_evidence_days := 365; rp_audit_days := 730;
  rp_updated := None |}.
Definition oldDB : DB :=
  with_memberships {[("ws", "admin") := "admin"]} (with_retentionPolicies {["ws" := aPolicy]}
  (with_findings {["f" := exampleFinding "a"]} (with_imports {[importID := anImport]}
  (with_observations {[obsID := anObservationRow]} emptyDB)))).

(** The bucket, the worker, and the world around it. *)
Abbreviation Bucket := (gmap string (list N)).
Definition oldState : Ret Bucket := mkRet oldDB {[rawKey := aReport]}.
Definition obsText (o : Observation) : list N := bytes (o_id o +:+ "|" +:+ o_impact o +:+ "|" +:+ o_remediation o).
Definition quietWorld : RetentionWorld (O:=Bucket) := {|
  rw_other := λ _ s, s; rw_beat := λ _, None; rw_assessed := λ _ _ _, false; rw_text := obsText;
  rw_decode := λ data, if data ==? obsText anObservation then Some anObservation else None; rw_jsonb := λ j, j |}.
(** Others commit [f] just before the [k]-th step. *)
Definition disturbed (k : nat) (f : DB → DB) : RetentionWorld (O:=Bucket) := {|
  rw_other := λ n s, if decide (n = k) then mkRet (f (rt_db s)) (rt_objects s) else s; rw_beat := λ _, None;
  rw_assessed := λ _ _ _, false; rw_text := obsText; rw_decode := rw_decode quietWorld; rw_jsonb := λ j, j |}.
Definition aWorker : retentionWorker := {|
  wkID := "w1"; wkLease := 90 * 1000000000; wkStore := {| stRaw := "raw/"; stArchive := "archive/"; stLimit := 1000000 |} |}.

(** ** Preview, approval, execution *)

Definition jsonText (j : JSON) : list N := bytes (marshal j).
Definition epochText (t : Z) : string := "".
Abbreviation assessed0 := (rw_assessed quietWorld).
Definition snapshot0 := buildRetentionSnapshot assessed0 obsText jsonText epochText "ws" today lateEnv 0%nat oldDB.
Definition previewed := createRetentionPreview assessed0 obsText jsonText epochText "ws" "admin" lateEnv 0%nat oldDB.
Definition previewID : string := match out_res previewed with Ok p => pvID p | Err _ => "" end.
Definition previewedDB : DB := out_db previewed.
Definition digest0 : string := match out_res previewed with Ok p => pv_snapshot_digest (pvRow p) | Err _ => "" end.
Definition approved := approveRetentionPreview assessed0 obsText jsonText epochText "ws" "admin" previewID digest0 "quarterly clean-up"
  "k1" 1 lateEnv 50%nat previewedDB.
Definition queued := queueRetentionExecution "ws" "admin" previewID digest0 "quarterly clean-up" "k2" 2 lateEnv 100%nat (out_db approved).
Definition queuedState : Ret Bucket := mkRet (out_db queued) (rt_objects oldState).
Definition archivedState : Ret Bucket := out_db (ProcessNextRetention quietWorld aWorker lateEnv 200%nat queuedState).
Definition expiredState : Ret Bucket := out_db (ProcessNextRetention quietWorld aWorker lateEnv 300%nat archivedState).
Definition restoring := queueObservationRestore "ws" "admin" obsID "audit request" "k3" lateEnv 400%nat (rt_db expiredState).
Definition restoredState : Ret Bucket :=
  out_db (ProcessNextRetention quietWorld aWorker lateEnv 500%nat (mkRet (out_db restoring) (rt_objects expiredState))).

(** ** A hold that comes too late *)

(** An administrator puts a hold on a resource ([createRetentionHold], acknowledged). *)
Definition holding (kind id : string) (d : DB) : DB := out_db (createRetentionHold "ws" "admin" kind id "litigation" lateEnv 0%nat d).
(** ... just before step [k], while the object is still there. *)
Definition heldAt (k : nat) (kind id key : string) : RetentionWorld (O:=Bucket) := {|
  rw_other := λ n s, if decide (n = k) then if isSome (rt_objects s !! key) then mkRet (holding kind id (rt_db s)) (rt_objects s) else s else s;
  rw_beat := λ _, None; rw_assessed := λ _ _ _, false; rw_text := obsText; rw_decode := rw_decode quietWorld; rw_jsonb := λ j, j |}.
Definition lateHold : Ret Bucket :=
  out_db (ProcessNextRetention (heldAt 325 "import" importID rawKey) aWorker lateEnv 300%nat archivedState).

(** ** Two runs on one observation *)

Definition nextPreview := createRetentionPreview assessed0 obsText jsonText epochText "ws" "admin" (envAt 800) 600%nat (rt_db expiredState).
Definition nextID : string := match out_res nextPreview with Ok p => pvID p | Err _ => "" end.
Definition nextDigest : string := match out_res nextPreview with Ok p => pv_snapshot_digest (pvRow p) | Err _ => "" end.
Definition nextApproved : DB :=
  out_db (approveRetentionPreview assessed0 obsText jsonText epochText "ws" "admin" nextID nextDigest "yearly" "k4" 1 (envAt 800) 650%nat
    (out_db nextPreview)).
Definition twice : DB :=
  out_db (queueRetentionExecution "ws" "admin" nextID nextDigest "yearly" "k6" 2 (envAt 800) 750%nat
    (out_db (queueRetentionExecution "ws" "admin" nextID nextDigest "yearly" "k5" 2 (envAt 800) 700%nat nextApproved))).
Definition twoRuns : Ret Bucket := mkRet twice (rt_objects expiredState).
Definition secondWorker : retentionWorker := {| wkID := "w2"; wkLease := wkLease aWorker; wkStore := wkStore aWorker |}.
(** A hold on the observation, and the second worker works on the second run. *)
Definition secondRun (s : Ret Bucket) : Ret Bucket :=
  out_db (ProcessNextRetention quietWorld secondWorker (envAt 800) 900%nat
    (mkRet (holding "observation" obsID (rt_db s)) (rt_objects s))).
Definition meanwhile (k : nat) (f : Ret Bucket → Ret Bucket) : RetentionWorld (O:=Bucket) := {|
  rw_other := λ n s, if decide (n = k) then f s else s; rw_beat := λ _, None; rw_assessed := λ _ _ _, false;
  rw_text := obsText; rw_decode := rw_decode quietWorld; rw_jsonb := λ j, j |}.
Definition crossed : Ret Bucket := out_db (ProcessNextRetention (meanwhile 825 secondRun) aWorker (envAt 800) 800%nat twoRuns).

(** A hold on a report, acknowledged after the worker's last look and while the
    object is still there, does not keep it: the object is deleted and the item
    recorded as expired. *)
Theorem late_hold_ignored :
  holdsOn "ws" "import" (λ r, r ==? importID) (rt_db lateHold) = true ∧
  rt_objects archivedState !! rawKey = Some aReport ∧ rt_objects lateHold !! rawKey = None ∧
  (λ i, i_evidence_availability (i_evidence i)) <$> t_imports (rt_db lateHold) !! importID = Some "expired".
Proof. vm_compute. done. Qed.

(** Two runs of one approved preview cross: the second run finds a new hold and
    the copy there, takes back the transition of the first and reports the
    observation protected; the first then deletes the copy.  The row stays
    archived, held and without transition, and its copy is gone. *)
Theorem crossed_runs_lose_copy :
  holdsOn "ws" "observation" (λ r, r ==? obsID) (rt_db crossed) = true ∧
  (λ o, (oe_availability (ob_evidence o), oe_transition (ob_evidence o))) <$> t_observations (rt_db crossed) !! obsID =
    Some ("archived", None) ∧
  (λ o, (λ a, isSome (rt_objects twoRuns !! ar_key a)) <$> oe_archive (ob_evidence o)) <$> t_observations (rt_db crossed) !! obsID =
    Some (Some true) ∧
  (λ o, (λ a, isSome (rt_objects crossed !! ar_key a)) <$> oe_archive (ob_evidence o)) <$> t_observations (rt_db crossed) !! obsID =
    Some (Some false) ∧
  (λ i, (ri_state (ri_job i), ri_outcome (ri_job i))) <$> t_runItems (rt_db crossed) !! "id-757" = Some (RiProtected, "protected").
Proof. vm_compute. done. Qed.

(** The report comes back from the archive as it went in. *)
Example archive_restores :
  ob_evidence <$> t_observations (rt_db archivedState) !! obsID ≠ Some (hotEvidence anObservation) ∧
  (λ o, (oe_data (ob_evidence o), oe_availability (ob_evidence o), oe_revision (ob_evidence o))) <$>
    t_observations (rt_db restoredState) !! obsID = Some (Some anObservation, "available", 3).
Proof. vm_compute. done. Qed.

(** ** The theorems at work *)

Definition claimed := claimRetentionItem aWorker lateEnv 200%nat (rt_db queuedState).
Definition claimedRun : retentionRunRecord :=
  match out_res claimed with Ok (Some (Some (r, _))) => r | _ => {| runID := ""; runRow := queuedRun 0 {| rr_workspace_id := "";
    rr_operation := ApplyPreview ""; rr_requested_by := ""; rr_rationale := ""; rr_idempotency_key := ""; rr_binding_digest := "";
    rr_created_at := 0 |} |} end.
Definition claimedItem : retentionItemRecord :=
  match out_res claimed with Ok (Some (Some (_, i))) => i | _ => {| itemID := ""; itemRow := queuedItem {| ri_workspace_id := "";
    ri_run_id := ""; ri_ordinal := 0; ri_class := ""; ri_kind := ""; ri_resource_id := ""; ri_action := ""; ri_object := None |} |} end.
Definition claimedState : Ret Bucket := mkRet (out_db claimed) (rt_objects queuedState).


(** Another worker does a whole call whenever the first pauses. *)
Definition busyWorld : RetentionWorld (O:=Bucket) := {|
  rw_other := λ n s, out_db (ProcessNextRetention quietWorld secondWorker lateEnv n s); rw_beat := λ _, None;
  rw_assessed := λ _ _ _, false; rw_text := obsText; rw_decode := rw_decode quietWorld; rw_jsonb := λ j, j |}.
Lemma busy_evolves n s : evolving s (rw_other busyWorld n s).
Proof. apply evolve_processNext. intros m x. unfold evolving. reflexivity. Qed.
Lemma evidence_lifecycle_witness :
  t_observations (rt_db queuedState) !! obsID = Some anObservationRow ∧
  livesOn obsID anObservationRow (out_db (ProcessNextRetention busyWorld aWorker lateEnv 200%nat queuedState)) ∧
  livesOn obsID anObservationRow (out_db (observationEvidence busyWorld (Some "archive/") "ws" obsID lateEnv 200%nat queuedState)).
Proof.
  assert (t_observations (rt_db queuedState) !! obsID = Some anObservationRow) as Ho by (vm_compute; reflexivity).
  split; [exact Ho|]. destruct (evidence_lifecycle busyWorld aWorker busy_evolves lateEnv 200%nat queuedState obsID anObservationRow Ho) as [H1 H2].
  - left. repeat split; reflexivity.
  - split; [exact H1|apply H2].
Defined.

Definition copyName : string * string :=
  match archiveIdentity (wkStore aWorker) "ws" "observations" obsID (obsText anObservation) with Ok x => x | Err _ => ("", "") end.
Abbreviation copyKept := (keepsContent quietWorld "ws" obsID anObservation (fst copyName) (snd copyName)).
Lemma available_keeps (s : Ret Bucket) :
  t_observations (rt_db s) !! obsID = Some anObservationRow → rt_objects s !! fst copyName = None → copyKept s.
Proof.
  intros Hd Hn. split.
  - exists anObservationRow. split; [exact Hd|]. repeat split; try done. simpl. congruence.
  - intros data Hx. change (rt_objects s !! fst copyName = Some data) in Hx. congruence.
Qed.
Lemma content_kept_example :
  copyKept queuedState ∧ copyKept (out_db (ProcessNextRetention quietWorld aWorker lateEnv 200%nat queuedState)).
Proof.
  assert (copyKept queuedState) as Hk by (apply available_keeps; vm_compute; reflexivity).
  split; [exact Hk|]. apply (content_kept quietWorld aWorker "ws" obsID anObservation (fst copyName) (snd copyName)).
  - vm_compute. reflexivity.
  - vm_compute. reflexivity.
  - intros n s H. exact H.
  - exact Hk.
Qed.

(** Archived and restored while the clock stands still. *)
Definition stillEnv : Env := {|
  env_clock := λ _, today + 300000; env_now := λ _, today + 300000; env_nanos := λ _, 0; env_fault := λ _, false;
  env_commit := λ _, Committed; env_done := λ _, false; env_fresh := λ _, "p1"; env_locked := λ _ _, false;
  env_interval := λ d, d / 1000 |}.
Definition archival := archiveObservation quietWorld aWorker claimedRun claimedItem stillEnv 210%nat claimedState.
Definition restoration := restoreObservation quietWorld aWorker claimedRun claimedItem stillEnv 300%nat (out_db archival).
Lemma still_undisturbed : undisturbed quietWorld aWorker "ws" obsID (fst copyName) stillEnv claimedRun.
Proof.
  split; [repeat split|done|intros i j; vm_compute; reflexivity|]. intros n s. split; [reflexivity..|done|reflexivity].
Qed.
Lemma archive_roundtrip_witness :
  out_res archival = Ok (succeeded "archived") ∧
  archivedCopy quietWorld "ws" obsID anObservation (fst copyName) (snd copyName) (out_db archival) ∧
  out_res restoration = Ok (succeeded "restored") ∧ holdsContent "ws" obsID anObservation (out_db restoration).
Proof.
  pose proof (archive_roundtrip quietWorld aWorker "ws" obsID anObservation (fst copyName) (snd copyName)
    ltac:(vm_compute; reflexivity) ltac:(vm_compute; reflexivity) (λ _ _ H, H) (λ _ _ H, H) claimedRun claimedItem stillEnv) as T.
  destruct (T 210%nat claimedState) as (A1 & _ & A2); [vm_compute; reflexivity|vm_compute; reflexivity|
    apply available_keeps; vm_compute; reflexivity|].
  assert (∃ s' n', archival = mkOut (Ok (succeeded "archived")) s' n') as (s1 & n1 & E1).
  { apply A2; [vm_compute; reflexivity|exact still_undisturbed| | |intros t; vm_compute; reflexivity|intros k; vm_compute; reflexivity].
    - eexists _, _. split; [vm_compute; reflexivity|]. split; [vm_compute; reflexivity|]. split; [vm_compute; reflexivity|].
      split; [vm_compute; reflexivity|]. intros k. vm_compute. reflexivity.
    - exists anObservationRow. split; [vm_compute; reflexivity|]. repeat split. }
  pose proof (A1 s1 n1 E1) as Hs1. assert (out_db archival = s1) as Es1 by (by rewrite E1).
  destruct (T 300%nat s1) as (_ & B1 & B2); [vm_compute; reflexivity|vm_compute; reflexivity|by apply archived_keeps|].
  assert (∃ s' n', restoration = mkOut (Ok (succeeded "restored")) s' n') as (s2 & n2 & E2).
  { unfold restoration. rewrite Es1. apply B2; [vm_compute; reflexivity|exact still_undisturbed| |exact Hs1]. rewrite <- Es1.
    eexists _, _. split; [vm_compute; reflexivity|]. split; [vm_compute; reflexivity|]. split; [vm_compute; reflexivity|].
    split; [vm_compute; reflexivity|]. intros k. vm_compute. reflexivity. }
  rewrite E1, E2. split; [done|]. split; [exact Hs1|]. split; [done|]. apply (B1 s2 n2). rewrite <- E2, <- Es1. done.
Defined.

Lemma unique_one (d : DB) id p : t_publications d = {[id := p]} → uniquePublications d.
Proof. intros E i j x y. rewrite E, !lookup_singleton_Some. intros [<- _] [<- _] _ _. reflexivity. Qed.
Definition onlyPublication (d : DB) : string * PublicationRow :=
  match map_to_list (t_publications d) with [x] => x | _ => ("", publishingRow "" "" "" "" "" 0 0 0 0) end.
Lemma archived_unique : uniquePublications (rt_db archivedState).
Proof. apply (unique_one _ (fst (onlyPublication (rt_db archivedState))) (snd (onlyPublication (rt_db archivedState)))). vm_compute. reflexivity. Qed.
Lemma worker_respects_witness :
  uniquePublications (rt_db archivedState) ∧
  respects (rt_db archivedState) (rt_db (out_db (ProcessNextRetention busyWorld aWorker lateEnv 300%nat archivedState))).
Proof.
  split; [apply archived_unique|]. apply (worker_respects busyWorld aWorker); [|apply archived_unique].
  intros n s. apply respectful_processNext. intros m x. unfold respectful. reflexivity.
Defined.

(** An orphan: the publication was forgotten, and a row has come to refer to its object. *)
Lemma orphans_only_witness :
  archiveReferenceExists "ws" (fst copyName) (rt_db archivedState) = true ∧
  safe claimedRun (fst copyName) (out_db (deleteOrphanArchive quietWorld aWorker claimedRun claimedItem lateEnv 300%nat archivedState)).
Proof.
  split; [vm_compute; reflexivity|]. apply (orphans_only quietWorld aWorker claimedRun (fst copyName)).
  - intros n s. unfold respectful. reflexivity.
  - intros n s H. exact H.
  - split; [apply archived_unique|]. intros _. vm_compute. reflexivity.
Defined.

Lemma preview_truthful_witness :
  match out_res snapshot0 with
  | Ok (s, digest) => (length (snItems s) ≤ 200)%nat ∧ retentionSnapshotDigest s = Ok digest ∧ 0 < Z.of_nat (length (snItems s))
  | Err _ => False
  end.
Proof.
  assert (match out_res snapshot0 with Ok (s, _) => 0 <? Z.of_nat (length (snItems s)) | Err _ => false end = true) as H
    by (vm_compute; reflexivity).
  destruct (out_res snapshot0) as [[s digest]|e] eqn:E; [|discriminate H].
  assert (snapshot0 = mkOut (Ok (s, digest)) (out_db snapshot0) (out_tick snapshot0)) as Hs by (rewrite <- E; destruct snapshot0; reflexivity).
  destruct (preview_truthful assessed0 obsText jsonText epochText "ws" today lateEnv 0%nat oldDB s digest _ _ Hs) as (_ & Hd & Hl & _).
  split; [exact Hl|]. split; [exact Hd|]. apply Z.ltb_lt, H.
Defined.
Lemma approval_current_witness :
  match out_res approved with
  | Ok (code, preview) => code = 201 ∧ ∃ row, previewOf "ws" previewID previewedDB = Some row ∧ pv_state row = PvReady
  | Err _ => False
  end.
Proof.
  assert (match out_res approved with Ok (code, _) => code =? 201 | Err _ => false end = true) as H by (vm_compute; reflexivity).
  destruct (out_res approved) as [[code preview]|e] eqn:E; [|discriminate H]. apply Z.eqb_eq in H. rewrite H in E.
  assert (approved = mkOut (Ok (201, preview)) (out_db approved) (out_tick approved)) as Ha by (rewrite <- E; destruct approved; reflexivity).
  split; [exact H|]. destruct (approval_current assessed0 obsText jsonText epochText "ws" "admin" previewID digest0 "quarterly clean-up"
    "k1" 1 lateEnv 50%nat previewedDB preview _ _ Ha) as (row & at_ & current & p & Hr & Hst & _). exists row. split; [exact Hr|exact Hst].
Defined.
Lemma execution_manifest_witness :
  match out_res queued with
  | Ok (code, run) => code = 202 ∧ length (rnItems run) = 2%nat ∧
      ∀ i shown item, previewItems "ws" previewID (out_db approved) !! i = Some shown →
        rnItems run !! i = Some item → carriesOut "ws" (rnID run) i (pi_item shown.2) item.2
  | Err _ => False
  end.
Proof.
  assert (match out_res queued with Ok (code, run) => (code =? 202) && (length (rnItems run) =? 2)%nat | Err _ => false end = true) as H
    by (vm_compute; reflexivity).
  assert (t_runItems (out_db approved) = ∅) as Hnone by (vm_compute; reflexivity).
  destruct (out_res queued) as [[code run]|e] eqn:E; [|discriminate H].
  apply andb_true_iff in H as [Hc Hl]. apply Z.eqb_eq in Hc. apply Nat.eqb_eq in Hl. rewrite Hc in E.
  assert (queued = mkOut (Ok (202, run)) (out_db queued) (out_tick queued)) as Hq by (rewrite <- E; destruct queued; reflexivity).
  split; [exact Hc|]. split; [exact Hl|].
  assert (itemsOwned (out_db approved)) as Ho by (intros k i; rewrite Hnone, lookup_empty; discriminate).
  destruct (execution_manifest "ws" "admin" previewID digest0 "quarterly clean-up" "k2" 2 lateEnv 100%nat (out_db approved) run _ _ Ho Hq)
    as (row & _ & _ & _ & _ & _ & _ & _ & Hm & _). exact Hm.
Defined.
