(* ===== verification/Sources.v ===== *)
(** * Source connections (source_connections.go, source_ado.go, source_types.go)

    Where collected evidence comes from: the two collector profiles, the shape
    of a GitHub repository name and of an Azure DevOps target and selection,
    and the operations on the source_connections table.  Credentials are sealed
    as those of integration connections ([Connections]). *)
From S2P Require Import Prelude GoLib Encoding Tx ReportAdapter Schema Auth Intake Paging Assets WorkViews Work Connections.
Local Open Scope Z_scope.

(** connectors/types.go: the collector profiles. *)
Definition GitHubCloudApp : string := "github-cloud-app".
Definition ADOArtifacts : string := "ado-services-build-artifacts".

(** ** Names *)

Definition wordByte (b : N) : bool := upper b || lowerLetter b || isDigit b || (b =? 95)%N.
(** [^[A-Za-z0-9_][A-Za-z0-9_.-]{0,254}$] *)
Definition sourceAzureDevOpsOrganization : string → bool :=
  pattern wordByte (λ b, wordByte b || (b =? 46) || (b =? 45))%N 0 254.
(** Two such names around a slash. *)
Definition sourceRepositoryName (s : string) : bool :=
  match Split s slash with
  | [owner; name] => sourceAzureDevOpsOrganization owner && sourceAzureDevOpsOrganization name
  | _ => false
  end.
(** [^[1-9][0-9]{0,19}$] *)
Definition sourceRepositoryID : string → bool := pattern (λ b, ((49 <=? b) && (b <=? 57))%N) isDigit 0 19.
Definition sourceAzureDevOpsBuild : string → bool := sourceRepositoryID.
Definition hexByte (b : N) : bool := (isDigit b || (97 <=? b) && (b <=? 102) || (65 <=? b) && (b <=? 70))%N.
(** [^[0-9a-fA-F]{8}-[0-9a-fA-F]{4}-[0-9a-fA-F]{4}-[0-9a-fA-F]{4}-[0-9a-fA-F]{12}$] *)
Definition sourceAzureDevOpsUUID (s : string) : bool :=
  let groups := splitBytes dash (bytes s) in
  bool_decide (length <$> groups = [8; 4; 4; 4; 12]%nat) && forallb (forallb hexByte) groups.

Definition validSourceRepository (repository : string) : bool :=
  (len repository <=? 256) && sourceRepositoryName repository.

(** [strings.ToLower] of ASCII text, and [strings.EqualFold] where one side is
    ASCII: besides the letters, U+212A folds to k and U+017F to s. *)
Definition lowerByte (b : N) : N := if upper b then (b + 32)%N else b.
Definition asciiLower (s : string) : string := of_bytes (lowerByte <$> bytes s).
Fixpoint foldBytes (l : list N) : list N :=
  match l with
  | [] => []
  | b :: l1 =>
      match l1 with
      | [] => [lowerByte b]
      | c :: l2 =>
          if ((b =? 197) && (c =? 191))%N then 115%N :: foldBytes l2
          else match l2 with
               | d :: l3 => if ((b =? 226) && (c =? 132) && (d =? 170))%N then 107%N :: foldBytes l3
                            else lowerByte b :: foldBytes l1
               | [] => lowerByte b :: foldBytes l1
               end
      end
  end.
Definition EqualFold (a b : string) : bool := foldBytes (bytes a) ==? foldBytes (bytes b).

(** ** Azure DevOps targets and selections *)

Definition normalizeAzureDevOpsTarget (target : AzureDevOpsTarget) : option AzureDevOpsTarget :=
  if negb (sourceAzureDevOpsOrganization (Organization target)) || negb (sourceAzureDevOpsUUID (TargetProjectID target)) ||
     negb (sourceAzureDevOpsUUID (TargetRepositoryID target))
  then None
  else Some {| Organization := asciiLower (Organization target);
               TargetProjectID := asciiLower (TargetProjectID target);
               TargetRepositoryID := asciiLower (TargetRepositoryID target) |}.

(** [path.Clean]: the segments left on the stack, the last first. *)
Fixpoint cleanSegments (rooted : bool) (segments stack : list string) : list string :=
  match segments with
  | [] => stack
  | s :: rest =>
      cleanSegments rooted rest
        (if (s ==? "") || (s ==? ".") then stack
         else if s ==? ".." then
           match stack with
           | top :: below => if top ==? ".." then ".." :: stack else below
           | [] => if rooted then [] else [".."]
           end
         else s :: stack)
  end.
Definition pathClean (path : string) : string :=
  let rooted := HasPrefix path "/" in
  let joined := joinWith "/" (rev (cleanSegments rooted (Split path slash) [])) in
  if rooted then "/" +:+ joined else if joined ==? "" then "." else joined.

Definition validAzureDevOpsSelection (selection : AzureDevOpsSelection) : bool :=
  let path := ArtifactPath selection in
  if negb (sourceAzureDevOpsBuild (BuildID selection)) || negb (sourceAzureDevOpsOrganization (ArtifactName selection)) ||
     (path ==? "") || (2048 <? len path) || HasPrefix path "/" || HasSuffix path "/" || containsAny path "\%?#:" ||
     Contains path "//" || containsControl (bytes path) || (pathClean path !=? path)
  then false
  else (length (Split path slash) <=? 32)%nat &&
       forallb (λ s, negb ((s ==? "") || (s ==? ".") || (s ==? ".."))) (Split path slash).

Definition sameAzureDevOpsTarget (left right : option AzureDevOpsTarget) : bool := left ==? right.

Definition targetParts (t : AzureDevOpsTarget) : list string := [Organization t; TargetProjectID t; TargetRepositoryID t].
Definition azureDevOpsScopeKey (t : AzureDevOpsTarget) : string :=
  Organization t +:+ "/" +:+ TargetProjectID t +:+ "/" +:+ TargetRepositoryID t.
Definition stringsDigest (l : list string) : string := hex (Sum256 (bytes (marshal (JArray (JString <$> l))))).
Definition azureDevOpsScopeIdentity (t : AzureDevOpsTarget) : string := "ado-scope-v1:" +:+ stringsDigest (targetParts t).
Definition azureDevOpsImportIdentities (t : AzureDevOpsTarget) (s : AzureDevOpsSelection) : string * string :=
  ("ado-services-build-artifacts:" +:+ stringsDigest ("ado-source-v1" :: targetParts t),
   "ado-report-v1:" +:+ stringsDigest ("sarif-2.1.0" :: targetParts t ++ [BuildID s; ArtifactName s; ArtifactPath s])).

(** ** Operations *)

Definition sourceCredentialAAD (profile workspace id : string) : list N :=
  bytes "aspm/source-credential/v1" ++ 0%N :: bytes profile ++ 0%N :: bytes workspace ++ 0%N :: bytes id.

Record SourceConnection := { SrcID : string; SrcRow : SourceRow; SrcCredentialConfigured : bool }.
Definition scanSourceConnection (id : string) (r : SourceRow) : SourceConnection :=
  {| SrcID := id; SrcRow := r; SrcCredentialConfigured := (0 <? length (so_ciphertext r))%nat |}.

(** [SELECT ... WHERE workspace_id=$1 AND id=$2]. *)
Definition sourceOf (workspace id : string) (db : DB) : option SourceRow :=
  match t_sources db !! id with
  | Some r => if so_workspace_id r ==? workspace then Some r else None
  | None => None
  end.
Definition readSource (workspace id : string) : M DB SourceRow :=
  query (λ _ db, match sourceOf workspace id db with Some r => Ok r | None => Err ErrNoRows end).

Definition sourceSessionRole (session : authenticatedSession) (workspace : string) : M DB string :=
  lockWorkspace workspace ;;; sessionRole session workspace.

(** The CHECKs of the profile, its target, and for a collection its selection. *)
Definition profileCheck (profile repository : string) (target : option AzureDevOpsTarget) : bool :=
  (profile ==? GitHubCloudApp) && negb (isSome target) ||
  (profile ==? ADOArtifacts) && (repository ==? "") && isSome target.
Definition sourceCheck (r : SourceRow) : bool :=
  profileCheck (so_profile r) (so_repository r) (so_target r) &&
  (30 <=? Z.of_nat (length (so_ciphertext r))) && (Z.of_nat (length (so_ciphertext r)) <=? 16413).

Record sourceInput := {
  srProfile : string; srName : string; srRepository : optional string; srToken : string; srEnabled : option bool;
  srAzureDevOps : optional AzureDevOpsTarget }.

(** The switch over the profile: the repository and the normalized target. *)
Definition sourceTarget (i : sourceInput) : Res (string * option AzureDevOpsTarget) :=
  if srProfile i ==? GitHubCloudApp then
    match (if IsSet (srRepository i) then Value (srRepository i) else None) with
    | Some repository =>
        if validSourceRepository repository && negb (IsSet (srAzureDevOps i)) then Ok (repository, None) else Err errInvalid
    | None => Err errInvalid
    end
  else if srProfile i ==? ADOArtifacts then
    match (if IsSet (srRepository i) || negb (IsSet (srAzureDevOps i)) then None else Value (srAzureDevOps i)) with
    | Some target => match normalizeAzureDevOpsTarget target with
                     | Some normalized => Ok ("", Some normalized)
                     | None => Err errInvalid
                     end
    | None => Err errInvalid
    end
  else Err errInvalid.

Section operations.
Context `{!Gateway} (keyed : bool).

Definition createSourceTx (nonce : list N) (workspace : string) (session : authenticatedSession) (i : sourceInput)
    (enabled : bool) (repository : string) (target : option AzureDevOpsTarget) : M DB SourceConnection :=
  role <- sourceSessionRole session workspace ;;
  guard (role ==? "admin") errForbidden ;;;
  id <- newID ;;
  ciphertext <- fromRes (sealCredential keyed nonce (sourceCredentialAAD (srProfile i) workspace id) (srToken i)) ;;
  at_ <- now ;;
  let row := {| so_workspace_id := workspace; so_profile := srProfile i; so_name := srName i; so_repository := repository;
    so_enabled := enabled; so_ciphertext := ciphertext; so_revision := 1; so_repository_id := None;
    so_created_at := at_; so_updated_at := at_; so_target := target |} in
  insertInto t_sources with_sources
    (requires (λ db, sourceCheck row && isSome (t_workspaces db !! workspace)) ErrConstraint) id row ;;;
  ret (scanSourceConnection id row).

Definition createSource (nonce : list N) (workspace : string) (session : authenticatedSession) (i : sourceInput)
    : M DB SourceConnection :=
  enabled <- fromRes (match srEnabled i with
                      | Some b => if validText (srName i) 256 && validIntegrationToken (srToken i) then Ok b else Err errInvalid
                      | None => Err errInvalid
                      end) ;;
  target <- fromRes (sourceTarget i) ;;
  guard keyed errUnavailable ;;;
  transaction (createSourceTx nonce workspace session i enabled (fst target) (snd target)).

Record sourcePatch := {
  spName : optional string; spRepository : optional string; spToken : optional string; spEnabled : optional bool;
  spProfile : optional string; spAzureDevOps : optional AzureDevOpsTarget }.

Definition validSourcePatch (p : sourcePatch) : bool :=
  setAndValid (spName p) (λ v, validText v 256) && setAndValid (spToken p) validIntegrationToken &&
  setAndValid (spEnabled p) (λ _, true) && negb (IsSet (spProfile p)) && negb (IsSet (spAzureDevOps p)).

(** A token that is set replaces the stored one when it differs from it. *)
Definition patchedToken (nonce : list N) (workspace id : string) (p : sourcePatch) (r : SourceRow) : Res (list N * bool) :=
  match (if IsSet (spToken p) then Value (spToken p) else None) with
  | None => Ok (so_ciphertext r, false)
  | Some token =>
      let aad := sourceCredentialAAD (so_profile r) workspace id in
      match openCredential keyed aad (so_ciphertext r) with
      | Err e => Err e
      | Ok plain =>
          if plain ==? token then Ok (so_ciphertext r, false)
          else match sealCredential keyed nonce aad token with Ok c => Ok (c, true) | Err e => Err e end
      end
  end.

(** The row with the columns of a patch. *)
Definition patchedSource (name repository : string) (ciphertext : list N) (enabled : bool) (r : SourceRow) : SourceRow := {|
  so_workspace_id := so_workspace_id r; so_profile := so_profile r; so_name := name; so_repository := repository;
  so_enabled := enabled; so_ciphertext := ciphertext; so_revision := so_revision r; so_repository_id := so_repository_id r;
  so_created_at := so_created_at r; so_updated_at := so_updated_at r; so_target := so_target r |}.
Definition revisedSource (at_ : Z) (r : SourceRow) : SourceRow := {|
  so_workspace_id := so_workspace_id r; so_profile := so_profile r; so_name := so_name r; so_repository := so_repository r;
  so_enabled := so_enabled r; so_ciphertext := so_ciphertext r; so_revision := so_revision r + 1;
  so_repository_id := so_repository_id r; so_created_at := so_created_at r; so_updated_at := at_; so_target := so_target r |}.

Definition updateSourceTx (nonce : list N) (workspace : string) (session : authenticatedSession) (id : string)
    (p : sourcePatch) : M DB SourceConnection :=
  role <- sourceSessionRole session workspace ;;
  guard (role ==? "admin") errForbidden ;;;
  r <- readSource workspace id ;;
  guard (negb (IsSet (spRepository p)) ||
         (so_profile r ==? GitHubCloudApp) && setAndValid (spRepository p) validSourceRepository) errInvalid ;;;
  let '(name, c1) := patchedField (spName p) (so_name r) in
  let '(repository, c2) := patchedField (spRepository p) (so_repository r) in
  let '(enabled, c3) := patchedField (spEnabled p) (so_enabled r) in
  token <- fromRes (patchedToken nonce workspace id p r) ;;
  let '(ciphertext, c4) := token in
  if c1 || c2 || c3 || c4 then
    at_ <- now ;;
    next <- stmt (λ _ db,
      match sourceOf workspace id db with
      | None => Err ErrNoRows
      | Some old =>
          let next := revisedSource at_ (patchedSource name repository ciphertext enabled old) in
          if sourceCheck next then Ok (next, with_sources (<[id := next]> (t_sources db)) db) else Err ErrConstraint
      end) ;;
    ret (scanSourceConnection id next)
  else ret (scanSourceConnection id (patchedSource name repository ciphertext enabled r)).

Definition updateSource (nonce : list N) (workspace : string) (session : authenticatedSession) (id : string)
    (p : sourcePatch) : M DB SourceConnection :=
  guard (validSourcePatch p) errInvalid ;;;
  transaction (updateSourceTx nonce workspace session id p).
End operations.

Definition getSource (workspace id : string) : M DB SourceConnection :=
  r <- readSource workspace id ;; ret (scanSourceConnection id r).

(** The profile a list is about. *)
Definition sourceProfile (query : urlQuery) : Res string :=
  match q_values query !! "profile" with
  | None => Ok GitHubCloudApp
  | Some [v] => if (v ==? GitHubCloudApp) || (v ==? ADOArtifacts) then Ok v else Err errInvalid
  | Some _ => Err errInvalid
  end.

(** A page of a table with the number of its rows. *)
Definition pageWithTotal {V B} (table : DB → gmap string V) (P : V → bool) (key : B → string) (scan : string → V → B)
    (limit : nat) (cursor : string) : M DB (list B * Z * option string) :=
  total <- query (λ _ db, Ok (countRows (λ _ r, P r) (table db))) ;;
  items <- query (λ _ db, Ok (take (limit + 1) ((λ r : string * V, scan r.1 r.2) <$>
    rowsAfter (λ _ r, P r) (table db) cursor))) ;;
  ret (fst (cutPage key limit items), total, snd (cutPage key limit items)).

Definition listSources (query_ : urlQuery) (workspace : string) : M DB (list SourceConnection * Z * option string) :=
  profile <- fromRes (sourceProfile query_) ;;
  p <- fromRes (pageParameters (queryGet query_ "limit") (queryGet query_ "cursor")) ;;
  transaction (pageWithTotal t_sources (λ r, (so_workspace_id r ==? workspace) && (so_profile r ==? profile)) SrcID
    scanSourceConnection (fst p) (snd p)).
