(* ===== verification/SourceCollections.v ===== *)
(** * Source collections (source_collections.go, source_imports.go, source_storage.go)

    Requests to collect from a source, what was collected, and the import of a
    collected report.  A request binds what it was made for by a digest.  The
    evidence of a record is an object of the evidence store; the state [Ret]
    is the database with the objects ([RetentionStore]). *)
From S2P Require Import Prelude GoLib Encoding Tx ReportAdapter Schema Auth Intake Paging Assets WorkViews Work Connections RetentionStore RetentionRuns Sources.
Local Open Scope Z_scope.

(** ** The binding *)

Definition targetJSON (t : option AzureDevOpsTarget) : JSON :=
  match t with
  | Some t => JObject [("organization", JString (Organization t)); ("projectId", JString (TargetProjectID t));
                       ("repositoryId", JString (TargetRepositoryID t))]
  | None => JNull
  end.
Definition selectionJSON (s : option AzureDevOpsSelection) : JSON :=
  match s with
  | Some s => JObject [("buildId", JString (BuildID s)); ("artifactName", JString (ArtifactName s));
                       ("artifactPath", JString (ArtifactPath s))]
  | None => JNull
  end.
Definition collectionJSON (c : CollectionIntent) : JSON :=
  if sc_profile c ==? GitHubCloudApp then
    JObject [("Workspace", JString (sc_workspace_id c)); ("Source", JString (sc_source_id c));
             ("Profile", JString (sc_profile c)); ("Repository", JString (sc_repository c));
             ("Actor", JString (sc_requested_by c)); ("Revision", JInt (sc_connection_revision c))]
  else
    JObject [("Workspace", JString (sc_workspace_id c)); ("Source", JString (sc_source_id c));
             ("Profile", JString (sc_profile c)); ("Actor", JString (sc_requested_by c));
             ("Revision", JInt (sc_connection_revision c)); ("Target", targetJSON (sc_target c));
             ("Selection", selectionJSON (sc_selection c))].
Definition sourceCollectionBinding (c : CollectionIntent) : list N := Sum256 (bytes (marshal (collectionJSON c))).

(** ** Collections *)

(** [sourceCollectionRecord]: the row with its primary key. *)
Record sourceCollectionRecord := { colID : string; colRow : CollectionRow }.
Definition colIntent (c : sourceCollectionRecord) : CollectionIntent := sc_intent (sc_meta (colRow c)).
Definition scanSourceCollection (id : string) (r : CollectionRow) : sourceCollectionRecord := {| colID := id; colRow := r |}.

Definition collectionIn (workspace : string) (r : CollectionRow) : bool := sc_workspace_id (sc_intent (sc_meta r)) ==? workspace.
Definition collectionOf (workspace id : string) (db : DB) : option CollectionRow :=
  match t_collections db !! id with
  | Some r => if collectionIn workspace r then Some r else None
  | None => None
  end.

Record collectionInput := {
  ciIdempotencyKey : string; ciBuildID : optional string; ciArtifactName : optional string; ciArtifactPath : optional string }.

(** The switch over the profile of the source. *)
Definition sourceSelection (source : SourceRow) (i : collectionInput) : Res (option AzureDevOpsSelection) :=
  if so_profile source ==? GitHubCloudApp then
    if IsSet (ciBuildID i) || IsSet (ciArtifactName i) || IsSet (ciArtifactPath i) then Err errInvalid else Ok None
  else if so_profile source ==? ADOArtifacts then
    let field o := if IsSet o then Value (A:=string) o else None in
    match field (ciBuildID i), field (ciArtifactName i), field (ciArtifactPath i), so_target source with
    | Some build, Some name, Some path, Some _ =>
        let value := {| BuildID := build; ArtifactName := name; ArtifactPath := path |} in
        if validAzureDevOpsSelection value then Ok (Some value) else Err errInvalid
    | _, _, _, _ => Err errInvalid
    end
  else Err errInvalid.

(** The column defaults of a new collection. *)
Definition queuedCollection : CollectionJob := {|
  sc_state := SQueued; sc_complete := false; sc_asset_id := None; sc_repository_id := None; sc_record_count := 0;
  sc_gaps := []; sc_collected_at := None; sc_completed_at := None; sc_failure := None; sc_worker_id := None;
  sc_fence := 0; sc_lease_until := None |}.

Definition collectionCheck (m : CollectionMeta) : bool :=
  let c := sc_intent m in
  profileCheck (sc_profile c) (sc_repository c) (sc_target c) &&
  bool_decide (isSome (sc_selection c) = (sc_profile c ==? ADOArtifacts)) &&
  (0 <? sc_connection_revision c) && (length (sc_binding_digest m) =? 32)%nat.
Definition collectionRefs (m : CollectionMeta) (db : DB) : bool :=
  let c := sc_intent m in
  isSome (t_workspaces db !! sc_workspace_id c) && isSome (t_users db !! sc_requested_by c) &&
  isSome (sourceOf (sc_workspace_id c) (sc_source_id c) db).
Definition sameCollectionKey (workspace key : string) (r : CollectionRow) : bool :=
  collectionIn workspace r && (sc_idempotency_key (sc_meta r) ==? key).
(** [INSERT ... ON CONFLICT (workspace_id,idempotency_key) DO NOTHING RETURNING]. *)
Definition insertCollection (id : string) (m : CollectionMeta) : M DB (option CollectionRow) :=
  stmt (λ _ db,
    if negb (collectionCheck m) then Err ErrConstraint
    else if anyRow (λ _ r, sameCollectionKey (sc_workspace_id (sc_intent m)) (sc_idempotency_key m) r) (t_collections db)
    then Ok (None, db)
    else let row := {| sc_meta := m; sc_job := queuedCollection |} in
         match insertRow id row (t_collections db) with
         | Err e => Err e
         | Ok rows => if collectionRefs m db then Ok (Some row, with_collections rows db) else Err ErrConstraint
         end).

Definition enqueueSourceTx (workspace : string) (session : authenticatedSession) (sourceID : string) (i : collectionInput)
    : M DB (Z * sourceCollectionRecord) :=
  role <- sourceSessionRole session workspace ;;
  guard (canWrite {| WorkspaceID := ""; WorkspaceName := ""; WorkspaceRole := role |}) errForbidden ;;;
  source <- readSource workspace sourceID ;;
  guard (so_enabled source) errConflict ;;;
  selection <- fromRes (sourceSelection source i) ;;
  id <- newID ;;
  at_ <- now ;;
  let intent := {| sc_workspace_id := workspace; sc_source_id := sourceID; sc_profile := so_profile source;
    sc_connection_revision := so_revision source; sc_repository := so_repository source;
    sc_requested_by := UserID (SessUser session); sc_target := so_target source; sc_selection := selection |} in
  let digest := sourceCollectionBinding intent in
  inserted <- insertCollection id {| sc_intent := intent; sc_idempotency_key := ciIdempotencyKey i;
                                     sc_binding_digest := digest; sc_created_at := at_ |} ;;
  match inserted with
  | Some row => ret (202, scanSourceCollection id row)
  | None =>
      prior <- query (λ _ db, match findRow (λ _ r, sameCollectionKey workspace (ciIdempotencyKey i) r) (t_collections db) with
                              | Some p => Ok p
                              | None => Err ErrNoRows
                              end) ;;
      guard (sc_binding_digest (sc_meta prior.2) ==? digest) errConflict ;;;
      ret (200, scanSourceCollection prior.1 prior.2)
  end.

(** [configured]: the evidence store of collections is. *)
Definition enqueueSourceCollection (configured : bool) (workspace : string) (session : authenticatedSession)
    (sourceID : string) (i : collectionInput) : M DB (Z * sourceCollectionRecord) :=
  guard (validText (ciIdempotencyKey i) 256) errInvalid ;;;
  guard configured errUnavailable ;;;
  transaction (enqueueSourceTx workspace session sourceID i).

Definition getSourceCollection (workspace id : string) : M DB sourceCollectionRecord :=
  query (λ _ db, match collectionOf workspace id db with Some r => Ok (scanSourceCollection id r) | None => Err ErrNoRows end).

Definition listSourceCollections (query_ : urlQuery) (workspace sourceID : string)
    : M DB (list sourceCollectionRecord * Z * option string) :=
  p <- fromRes (pageParameters (queryGet query_ "limit") (queryGet query_ "cursor")) ;;
  transaction (
    readSource workspace sourceID ;;;
    pageWithTotal t_collections (λ r, collectionIn workspace r && (sc_source_id (sc_intent (sc_meta r)) ==? sourceID)) colID
      scanSourceCollection (fst p) (snd p)).

(** ** Records *)

(** [sourceEvidenceRecord]: the row with its primary key. *)
Record sourceEvidenceRecord := { evID : string; evRow : SourceRecordRow }.
Definition scanSourceEvidence (id : string) (r : SourceRecordRow) : sourceEvidenceRecord := {| evID := id; evRow := r |}.
Definition recordIn (workspace collection : string) (r : SourceRecordRow) : bool :=
  (sr_workspace_id r ==? workspace) && (sr_collection_id r ==? collection).
Definition sourceRecordOf (workspace collection id : string) (db : DB) : option SourceRecordRow :=
  match t_sourceRecords db !! id with
  | Some r => if recordIn workspace collection r then Some r else None
  | None => None
  end.
Definition readSourceRecord (workspace collection id : string) : M DB SourceRecordRow :=
  query (λ _ db, match sourceRecordOf workspace collection id db with Some r => Ok r | None => Err ErrNoRows end).

Definition listSourceRecords (query_ : urlQuery) (workspace collection : string)
    : M DB (list sourceEvidenceRecord * Z * option string) :=
  p <- fromRes (pageParameters (queryGet query_ "limit") (queryGet query_ "cursor")) ;;
  transaction (
    getSourceCollection workspace collection ;;;
    pageWithTotal t_sourceRecords (recordIn workspace collection) evID scanSourceEvidence (fst p) (snd p)).

Section evidence.
Context {O : Type} `{!ObjectService O}.

(** The bucket and prefix of the evidence reader. *)
Record evidenceStore := { esBucket : string; esPrefix : string }.

(** [sourceEvidenceReader.read]: whatever goes wrong is unavailable. *)
Definition readCollected (st : evidenceStore) (workspace : string) (ref : evidenceRef) : M (Ret O) (list N) :=
  handle (
    guard ((0 <=? erSizeBytes ref) && (erSizeBytes ref <=? sourceEvidenceLimit)) EvidenceErrOther ;;;
    guard ((erWorkspaceID ref ==? workspace) && (erBucket ref ==? esBucket st)) EvidenceErrScope ;;;
    readVerified (esPrefix st) workspace (erKey ref) (erSHA256 ref) (erSizeBytes ref)) (λ r,
  match r with Ok data => ret data | Err _ => throw errUnavailable end).

(** [None] when no evidence store is configured. *)
Definition sourceRecordEvidence (store : option evidenceStore) (workspace collection id : string) : M (Ret O) (list N) :=
  r <- lift (readSourceRecord workspace collection id) ;;
  match store with
  | None => throw errUnavailable
  | Some st => readCollected st workspace (sr_evidence r)
  end.
End evidence.

(** ** Importing a collected report *)

Record sourceImportAuthority := {
  saWorkspace : string; saSource : string; saCollection : string; saRecord : string; saAsset : string;
  saSession : authenticatedSession; saRevision : Z; saTarget : AzureDevOpsTarget; saSelection : AzureDevOpsSelection }.

Definition finishedCollection (r : CollectionRow) : bool :=
  (sc_state (sc_job r) ==? SSucceeded) || (sc_state (sc_job r) ==? SPartial).

Definition checkSourceImportAuthority (a : sourceImportAuthority) : M DB unit :=
  authorizeIntake (saSession a) (saWorkspace a) (saAsset a) ;;;
  source <- readSource (saWorkspace a) (saSource a) ;;
  guard (so_enabled source && (so_profile source ==? ADOArtifacts) && (so_revision source =? saRevision a) &&
         (so_target source ==? Some (saTarget a))) errConflict ;;;
  collection <- query (λ _ db,
    match collectionOf (saWorkspace a) (saCollection a) db with
    | Some r => if (sc_source_id (sc_intent (sc_meta r)) ==? saSource a) &&
                   (sc_profile (sc_intent (sc_meta r)) ==? ADOArtifacts) then Ok r else Err errNotFound
    | None => Err errNotFound
    end) ;;
  guard (finishedCollection collection && (sc_asset_id (sc_job collection) ==? Some (saAsset a)) &&
         (sc_connection_revision (sc_intent (sc_meta collection)) =? saRevision a) &&
         (sc_target (sc_intent (sc_meta collection)) ==? Some (saTarget a)) &&
         (sc_selection (sc_intent (sc_meta collection)) ==? Some (saSelection a))) errConflict ;;;
  record <- query (λ _ db, match sourceRecordOf (saWorkspace a) (saCollection a) (saRecord a) db with
                           | Some r => Ok r
                           | None => Err errNotFound
                           end) ;;
  guard (sr_kind record ==? "report") errInvalid.

(** [strings.Cut(s, ":")]. *)
Definition cutColon (s : string) : option (string * string) :=
  match splitBytes 58%N (bytes s) with
  | first :: (_ :: _) as parts => Some (of_bytes first, of_bytes (drop (length first + 1) (bytes s)))
  | _ => None
  end.
(** The record is the report the selection of its collection names. *)
Definition selectedReport (target : AzureDevOpsTarget) (selection : AzureDevOpsSelection) (r : SourceRecordRow) : bool :=
  match cutColon (sr_external_id r) with
  | Some (artifact, path) =>
      sourceAzureDevOpsBuild artifact && (path ==? ArtifactPath selection) &&
      EqualFold (sr_parent_id r) (TargetRepositoryID target) && (sr_native_run_id r ==? BuildID selection)
  | None => false
  end.

Definition importContextTx (workspace collectionID recordID : string) (session : authenticatedSession)
    : M DB (sourceImportAuthority * SourceRecordRow * Z) :=
  collection <- getSourceCollection workspace collectionID ;;
  let c := colIntent collection in let j := sc_job (colRow collection) in
  guard (sc_profile c ==? ADOArtifacts) errNotFound ;;;
  match (if finishedCollection (colRow collection) then sc_asset_id j else None), sc_collected_at j, sc_target c, sc_selection c with
  | Some asset, Some collectedAt, Some stored, Some selection =>
      match normalizeAzureDevOpsTarget stored with
      | Some target =>
          guard ((target ==? stored) && validAzureDevOpsSelection selection) errConflict ;;;
          evidence <- readSourceRecord workspace collectionID recordID ;;
          guard (sr_kind evidence ==? "report") errInvalid ;;;
          guard (selectedReport target selection evidence) errConflict ;;;
          let authority := {| saWorkspace := workspace; saSource := sc_source_id c; saCollection := collectionID;
            saRecord := recordID; saAsset := asset; saSession := session; saRevision := sc_connection_revision c;
            saTarget := target; saSelection := selection |} in
          checkSourceImportAuthority authority ;;;
          ret (authority, evidence, collectedAt)
      | None => throw errConflict
      end
  | _, _, _, _ => throw errConflict
  end.
Definition sourceImportContext (workspace collectionID recordID : string) (session : authenticatedSession)
    : M DB (sourceImportAuthority * SourceRecordRow * Z) :=
  transaction (importContextTx workspace collectionID recordID session).

(** The body of the request. *)
Record sourceImportInput := {
  iiAPIVersion : string; iiFormat : string; iiScope : Scope; iiSourceStatus : string; iiScanKind : string;
  iiCompleteness : string; iiMapping : Mapping }.
Definition validSourceImport (i : sourceImportInput) : bool :=
  (iiAPIVersion i ==? APIVersion) && validText (ScopeID (iiScope i)) 512 && validText (ScopeRevision (iiScope i)) 512 &&
  validText (ScopeBranch (iiScope i)) 512 && ((iiSourceStatus i ==? "succeeded") || (iiSourceStatus i ==? "failed")) &&
  ((iiScanKind i ==? "full") || (iiScanKind i ==? "delta")) &&
  ((iiCompleteness i ==? "complete") || (iiCompleteness i ==? "partial") || (iiCompleteness i ==? "unknown")) &&
  (iiFormat i !=? "").

Definition importOfRecord (i : sourceImportInput) (a : sourceImportAuthority) (collectedAt : Z) (scanAt : option Z)
    (report : string) : importInput :=
  let identities := azureDevOpsImportIdentities (saTarget a) (saSelection a) in {|
  inAPIVersion := iiAPIVersion i; inAssetID := saAsset a; inFormat := iiFormat i; inReport := report;
  inSourceID := fst identities; inScanID := snd identities; inScope := iiScope i; inSourceScanAt := scanAt;
  inCollectedAt := collectedAt; inSourceStatus := iiSourceStatus i; inScanKind := iiScanKind i;
  inCompleteness := iiCompleteness i; inMapping := iiMapping i |}.

Section import.
Context {O : Type} `{!ObjectService O}.
Context (registry : option Registry) (s3 : ObjectStore) (prefix : string) (limit maxUpload : Z).
(** The cause with which the watcher of the authority cancelled by then, and
    what the other sessions did before a statement of the handler. *)
Context (revoked : nat → option error) (others : nat → Ret O → Ret O).

(** Statements under the watched context, and its cause. *)
Definition watched {S A} (m : M S A) : M S A := λ env n s,
  m {| env_clock := env_clock env; env_now := env_now env; env_nanos := env_nanos env; env_fault := env_fault env;
       env_commit := env_commit env; env_done := λ k, env_done env k || isSome (revoked k); env_fresh := env_fresh env;
       env_locked := env_locked env; env_interval := env_interval env |} n s.
Definition watchCause {S} : M S (option error) := λ env n s,
  mkOut (Ok (match revoked n with Some e => Some e | None => if env_done env n then Some ErrContext else None end)) s (n + 1)%nat.
Definition among : M (Ret O) unit := λ _ n s, mkOut (Ok tt) (others n s) (n + 1)%nat.

Definition importSourceRecord (store : option evidenceStore) (workspace collectionID recordID : string)
    (session : authenticatedSession) (i : sourceImportInput) : M (Ret O) (Z * importRecord) :=
  guard (validSourceImport i) errInvalid ;;;
  guard (iiFormat i ==? "sarif") errUnsupported ;;;
  match RegistryValidateMapping registry (iiFormat i) (iiMapping i) with
  | Some _ => throw errInvalid
  | None =>
      context <- lift (sourceImportContext workspace collectionID recordID session) ;;
      let '(authority, evidence, collectedAt) := context in
      match store with
      | None => throw errUnavailable
      | Some st =>
          among ;;;
          handle (watched (readCollected st workspace (sr_evidence evidence))) (λ read,
          cause <- watchCause ;;
          match cause, read with
          | Some e, _ => throw e
          | None, Err _ => throw errUnavailable
          | None, Ok data =>
              guard (utf8Valid data) errInvalid ;;;
              guard (Z.of_nat (length data) <=? maxUpload) errTooLarge ;;;
              let report := of_bytes data in
              let value := importOfRecord i authority collectedAt (sr_source_scan_at evidence) report in
              among ;;;
              handle (watched (lift (acceptImport registry s3 prefix limit workspace session value report true
                                       (Some (checkSourceImportAuthority authority))))) (λ accepted,
              cause <- watchCause ;;
              match cause with Some e => throw e | None => fromRes accepted end)
          end)
      end
  end.
End import.
