(* ===== verification/SourceWorker.v ===== *)
(** * The collection worker (source_worker.go, source_process.go, source_finalize.go)

    The worker claims a queued collection under a lease and a fence, asks the
    collector of the profile for the records of the source, checks what it
    gets, stores the evidence and publishes the collection in one transaction
    that checks the authority of the request again.  A lease that runs out ends
    the collection: a collection is tried once.

    The collector is behind an interface; its answers, the cause with which the
    watcher cancelled the work and what other sessions do between two
    requests come from the record [CollectWorld]. *)
From S2P Require Import Prelude GoLib Encoding Tx ReportAdapter Schema Auth Intake Paging Assets WorkViews Work Connections Deliveries DeliveryWorker RetentionStore Sources SourceCollections.
Local Open Scope Z_scope.

(** ** connectors/types.go *)

Record Limits := { LimRequests : Z; LimPages : Z; LimPageSize : Z; LimBytes : Z }.
Record Identity := { IdWorkspaceID : string; IdSourceID : string; IdRunID : string; IdScopeID : string }.
#[export] Instance Identity_eq_dec : EqDecision Identity.
Proof. solve_decision. Defined.
Record CollectRequest := {
  RqIdentity : Identity; RqRepository : string; RqOrganization : string; RqProject : string; RqBuildID : string;
  RqArtifactName : string; RqArtifactPath : string }.
Record NativeRecord := {
  RecKind : string; RecExternalID : string; RecParentID : string; RecNativeRunID : string; RecSeverity : string;
  RecState : string; RecLocation : string; RecRawURL : string; RecRaw : list N; RecSourceScanAt : option Z;
  RecSourceUpdatedAt : option Z }.
Record Collection := {
  ColIdentity : Identity; ColCollectedAt : Z; ColComplete : bool; ColRecords : list NativeRecord; ColGaps : list string }.
(** An error of a collector: which sentinel it wraps, [ErrProtocol] for those
    that are not told apart, and the code, native code,
    HTTP status and retry delay (in nanoseconds) of a connectors.Error. *)
Inductive sentinel := ErrLimit | ErrScope | ErrAuth | ErrProtocol.
#[export] Instance sentinel_eq_dec : EqDecision sentinel.
Proof. solve_decision. Defined.
Record collectError := { ceIs : sentinel; ceDetail : option (string * string * Z * Z) }.
Definition plainError (s : sentinel) : collectError := {| ceIs := s; ceDetail := None |}.

(** ** Configuration *)

Definition NormalizeCollectionLimits (l : Limits) : option Limits :=
  if (LimRequests l <? 0) || (128 <? LimRequests l) || (LimPages l <? 0) || (64 <? LimPages l) ||
     (LimPageSize l <? 0) || (100 <? LimPageSize l) || (LimBytes l <? 0) || (RetentionRuns.sourceEvidenceLimit <? LimBytes l)
  then None
  else Some {| LimRequests := if LimRequests l =? 0 then 32 else LimRequests l;
               LimPages := if LimPages l =? 0 then 8 else LimPages l;
               LimPageSize := if LimPageSize l =? 0 then 50 else LimPageSize l;
               LimBytes := if LimBytes l =? 0 then 8 * 1024 * 1024 else LimBytes l |}.

(** What [validateSourceNativeClient] looks at of an [*http.Client] and its
    transport; versions of TLS are numbers, 0 when they are not set. *)
Record tlsPolicy := { tlsMin : Z; tlsMax : Z; tlsInsecure : bool; tlsServerName : string }.
Record httpTransport := { trDialTLS : bool; trProxy : bool; trTLS : option tlsPolicy }.
Record httpClient := { hcTransport : option httpTransport; hcTimeout : Z; hcJar : bool }.
Definition VersionTLS12 : Z := 771.
Definition VersionTLS13 : Z := 772.
Definition validTLS (p : tlsPolicy) : bool :=
  let minimum := if tlsMin p =? 0 then VersionTLS12 else tlsMin p in
  let maximum := if tlsMax p =? 0 then VersionTLS13 else tlsMax p in
  negb (tlsInsecure p || (minimum <? VersionTLS12) || (VersionTLS13 <? minimum) || (maximum <? minimum) ||
        (maximum <? VersionTLS12) || (tlsServerName p !=? "")).
Definition validateSourceNativeClient (client : option httpClient) : bool :=
  match client with
  | Some c =>
      match hcTransport c with
      | Some t => negb (trDialTLS t) && negb (trProxy t) &&
                  match trTLS t with Some p => validTLS p | None => true end &&
                  (0 <? hcTimeout c) && (hcTimeout c <=? 30 * 1000000000) && negb (hcJar c)
      | None => false
      end
  | None => false
  end.

Section endpoints.
Context `{!Gateway}.
(** [net.JoinHostPort]. *)
Definition JoinHostPort (host port : string) : string :=
  if Contains host ":" || Contains host "%" then "[" +:+ host +:+ "]:" +:+ port else host +:+ ":" +:+ port.
Definition sourceOrigin (endpoint : string) : option string :=
  match urlParse endpoint with
  | None => None
  | Some u =>
      if Hostname u ==? "" then None
      else Some (JoinHostPort (toLower (Hostname u))
                   (if Port u ==? "" then if Scheme u ==? "http" then "80" else "443" else Port u))
  end.
(** The client of [sourceNativeClient] connects to this address. *)
Definition sourceDials (endpoint address : string) : bool :=
  match sourceOrigin endpoint with Some origin => EqualFold address origin | None => false end.
Definition ValidateCollectionGateway (endpoint : string) : option string :=
  ValidateDeliveryGateway (if endpoint ==? "" then "https://api.github.com" else endpoint).
Definition ValidateAzureDevOpsGateway (endpoint : string) : option string :=
  ValidateDeliveryGateway (if endpoint ==? "" then "https://dev.azure.com" else endpoint).
End endpoints.

(** ** Checking what was collected *)

Record sourceRepository := { RepoID : string; RepoName : string; RepoScopeKey : string }.

(** The running total and the identities seen of the loop over the records. *)
Fixpoint checkRecords (limits : Limits) (total : Z) (seen : gset string) (records : list NativeRecord)
    : option sentinel :=
  match records with
  | [] => None
  | r :: rest =>
      let size := Z.of_nat (length (RecRaw r)) in
      let total := total + size in
      if (size =? 0) || (LimBytes limits <? size) || (RetentionRuns.sourceEvidenceLimit <? total) ||
         (16384 <? len (RecRawURL r)) || (4096 <? len (RecLocation r)) || (256 <? len (RecState r)) ||
         (256 <? len (RecSeverity r))
      then Some ErrLimit
      else
        let identity := RecKind r +:+ ":" +:+ RecExternalID r in
        if bool_decide (identity ∈ seen) || (RecRawURL r ==? "") then Some ErrProtocol
        else checkRecords limits total ({[identity]} ∪ seen) rest
  end.

Section validation.
(** json.Unmarshal of a repository: of GitHub its number and full name, of
    Azure DevOps its id, name and project. *)
Context (decodeGitHub : list N → option (string * string)) (decodeAzure : list N → option (string * string * string)).

Fixpoint githubFindings (native : string) (records : list NativeRecord) : option sentinel :=
  match records with
  | [] => None
  | r :: rest =>
      if negb (sourceRepositoryID (RecExternalID r)) || (RecNativeRunID r !=? "") || isSome (RecSourceScanAt r)
      then Some ErrProtocol
      else if (RecKind r !=? "finding") || (RecParentID r !=? native) then Some ErrScope
      else githubFindings native rest
  end.
Definition validateGitHubSourceResult (job : CollectionIntent) (records : list NativeRecord) : sourceRepository + sentinel :=
  match records with
  | [] => inl {| RepoID := ""; RepoName := ""; RepoScopeKey := "" |}
  | r :: rest =>
      if negb (sourceRepositoryID (RecExternalID r)) || (RecNativeRunID r !=? "") || isSome (RecSourceScanAt r)
      then inr ErrProtocol
      else match (if RecKind r ==? "repository" then decodeGitHub (RecRaw r) else None) with
           | None => inr ErrScope
           | Some (id, fullName) =>
               if (id !=? RecExternalID r) || negb (validSourceRepository fullName) ||
                  negb (EqualFold fullName (sc_repository job)) then inr ErrScope
               else match githubFindings id rest with
                    | Some e => inr e
                    | None => inl {| RepoID := id; RepoName := fullName; RepoScopeKey := id |}
                    end
           end
  end.

Definition expectedKinds : list string := ["repository"; "pipeline"; "artifact"; "report"].
(** The loop over the records: the name of the repository and the id of the
    artifact so far. *)
Fixpoint azureRecords (t : AzureDevOpsTarget) (s : AzureDevOpsSelection) (kinds : list string) (name artifact : string)
    (records : list NativeRecord) : string + sentinel :=
  match records, kinds with
  | [], _ => inl name
  | _ :: _, [] => inr ErrProtocol
  | r :: rest, kind :: kinds' =>
      if RecKind r !=? kind then inr ErrProtocol
      else if kind ==? "repository" then
        match (if (RecParentID r !=? "") || (RecNativeRunID r !=? "") || isSome (RecSourceScanAt r) then None
               else decodeAzure (RecRaw r)) with
        | None => inr ErrScope
        | Some (id, nativeName, project) =>
            if negb (EqualFold id (TargetRepositoryID t)) || negb (EqualFold project (TargetProjectID t)) ||
               negb (EqualFold (RecExternalID r) (TargetRepositoryID t)) then inr ErrScope
            else if (nativeName !=? "") && negb (sourceAzureDevOpsOrganization nativeName) then inr ErrProtocol
            else azureRecords t s kinds' nativeName artifact rest
        end
      else if kind ==? "pipeline" then
        if (RecExternalID r !=? BuildID s) || negb (EqualFold (RecParentID r) (TargetRepositoryID t)) ||
           (RecNativeRunID r !=? BuildID s) || isSome (RecSourceScanAt r) then inr ErrScope
        else azureRecords t s kinds' name artifact rest
      else if kind ==? "artifact" then
        if negb (sourceAzureDevOpsBuild (RecExternalID r)) || negb (EqualFold (RecParentID r) (TargetRepositoryID t)) ||
           (RecNativeRunID r !=? BuildID s) || isSome (RecSourceScanAt r) then inr ErrScope
        else azureRecords t s kinds' name (RecExternalID r) rest
      else
        if (artifact ==? "") || (RecExternalID r !=? artifact +:+ ":" +:+ ArtifactPath s) ||
           negb (EqualFold (RecParentID r) (TargetRepositoryID t)) || (RecNativeRunID r !=? BuildID s) then inr ErrScope
        else azureRecords t s kinds' name artifact rest
  end.
Definition validateAzureDevOpsSourceResult (stored : AzureDevOpsTarget) (selection : AzureDevOpsSelection)
    (records : list NativeRecord) : sourceRepository + sentinel :=
  match normalizeAzureDevOpsTarget stored with
  | None => inr ErrScope
  | Some target =>
      if (target !=? stored) || negb (validAzureDevOpsSelection selection) then inr ErrScope
      else match azureRecords target selection expectedKinds "" "" records with
           | inr e => inr e
           | inl name => inl {| RepoID := TargetRepositoryID target;
               RepoName := if name ==? "" then TargetRepositoryID target else name;
               RepoScopeKey := azureDevOpsScopeKey target |}
           end
  end.

(** The scope a collection asks for, and how many records it may have. *)
Definition collectionScope (limits : Limits) (c : CollectionIntent) : option (string * Z) :=
  if sc_profile c ==? ADOArtifacts then
    match sc_target c, sc_selection c with
    | Some target, Some _ => Some (azureDevOpsScopeIdentity target, 4)
    | _, _ => None
    end
  else Some (sc_repository c, 1 + LimPages limits * LimPageSize limits).
Definition validateSourceResult (job : sourceCollectionRecord) (result : Collection) (limits : Limits)
    : sourceRepository + sentinel :=
  let c := colIntent job in
  match collectionScope limits c with
  | None => inr ErrScope
  | Some (scope, recordLimit) =>
      let records := ColRecords result in
      if (ColIdentity result !=? {| IdWorkspaceID := sc_workspace_id c; IdSourceID := sc_source_id c; IdRunID := colID job;
                                    IdScopeID := scope |}) ||
         IsZero (ColCollectedAt result) || (length records =? 0)%nat || (recordLimit <? Z.of_nat (length records)) ||
         (64 <? length (ColGaps result))%nat
      then inr ErrProtocol
      else match checkRecords limits 0 ∅ records with
      | Some e => inr e
      | None =>
          if existsb (λ gap, 256 <? len gap) (ColGaps result) then inr ErrLimit
          else if sc_profile c ==? GitHubCloudApp then validateGitHubSourceResult c records
          else match (if sc_profile c ==? ADOArtifacts then sc_target c else None), sc_selection c with
               | Some target, Some selection => validateAzureDevOpsSourceResult target selection records
               | _, _ => inr ErrScope
               end
      end
  end.
End validation.

(** ** Failures *)

Definition sourceDenial (code : string) : error := collectionDenial code.
Definition sourceAuthorizationRevoked : error := sourceDenial "authorization-revoked".
Definition sourceConnectionDisabled : error := sourceDenial "connection-disabled".
Definition sourceConnectionChanged : error := sourceDenial "connection-changed".
Definition sourceLeaseLost : error := sourceDenial "lease-lost".
Definition sourceIdentityConflict : error := sourceDenial "identity-conflict".
Definition sourceBindingConflict : error := sourceDenial "binding-conflict".

Definition sourceFailure (e : error) : sstate * FindingDeliveryFailure :=
  match e with
  | collectionDenial code =>
      (if bool_decide (e ∈ [sourceAuthorizationRevoked; sourceConnectionChanged; sourceConnectionDisabled; sourceBindingConflict])
       then SBlocked else SFailed, failureOf code)
  | ErrContext => (SFailed, failureOf "canceled")
  | _ => (SFailed, failureOf "unavailable")
  end.
(** The failure shown for an error of the collector. *)
Definition sourceNativeFailure (cause : collectError) (token : string) : FindingDeliveryFailure :=
  match ceDetail cause with
  | Some (code, nativeCode, status, retry) =>
      {| DeliveryCode := code; HTTPStatus := status;
         NativeCode := if (token !=? "") && Contains nativeCode token then "" else nativeCode;
         RetryAfterSeconds := Z.max 0 (retry ÷ 1000000000); DeliveryRetryable := false; Stage := ""; MissingFields := [] |}
  | None => failureOf (match ceIs cause with
                       | ErrLimit => "limit" | ErrScope => "scope" | ErrAuth => "auth" | ErrProtocol => "protocol"
                       end)
  end.

(** ** Statements *)

Definition setCollection (r : CollectionRow) (j : CollectionJob) : CollectionRow := {| sc_meta := sc_meta r; sc_job := j |}.
Definition jobOf (c : sourceCollectionRecord) : CollectionJob := sc_job (colRow c).
Definition colWorkspace (c : sourceCollectionRecord) : string := sc_workspace_id (colIntent c).

Definition collectionOver (t : Z) (j : CollectionJob) : bool :=
  match sc_lease_until j with Some u => u <=? t | None => false end.
(** [state='queued'], or collecting under a lease that ran out. *)
Definition claimableCollection (t : Z) (r : CollectionRow) : bool :=
  let j := sc_job r in (sc_state j ==? SQueued) || (sc_state j ==? SCollecting) && collectionOver t j.
(** [ORDER BY created_at,id LIMIT 1]. *)
Definition collectionLe (a b : string * CollectionRow) : bool :=
  let ta := sc_created_at (sc_meta a.2) in let tb := sc_created_at (sc_meta b.2) in
  (ta <? tb) || (ta =? tb) && strLe a.1 b.1.
Definition nextCollection (locked : string → bool) (t : Z) (m : gmap string CollectionRow) : option (string * CollectionRow) :=
  argmin collectionLe (rowsWhere (λ id r, claimableCollection t r && negb (locked id)) m).

(** [worker_id=$3 AND fence=$4 AND state='collecting'], and with a live lease. *)
Definition ownsCollection (job : sourceCollectionRecord) (r : CollectionRow) : bool :=
  (sc_worker_id (sc_job r) ==? sc_worker_id (jobOf job)) && (sc_fence (sc_job r) =? sc_fence (jobOf job)) &&
  (sc_state (sc_job r) ==? SCollecting).
Definition leasesCollection (t : Z) (job : sourceCollectionRecord) (r : CollectionRow) : bool :=
  ownsCollection job r && match sc_lease_until (sc_job r) with Some u => t <? u | None => false end.

(** [UPDATE source_collections SET f WHERE workspace_id=$1 AND id=$2 AND P]. *)
Definition updateCollection (workspace id : string) (P : CollectionRow → bool) (f : CollectionRow → CollectionRow) (db : DB)
    : Z * DB :=
  match t_collections db !! id with
  | Some r => if collectionIn workspace r && P r then (1, with_collections (<[id := f r]> (t_collections db)) db) else (0, db)
  | None => (0, db)
  end.

(** The row of a collection that ended without records. *)
Definition endedCollection (state : sstate) (failure : FindingDeliveryFailure) (at_ : Z) (r : CollectionRow) : CollectionRow :=
  setCollection r {| sc_state := state; sc_complete := false; sc_asset_id := None; sc_repository_id := None;
    sc_record_count := 0; sc_gaps := []; sc_collected_at := sc_collected_at (sc_job r); sc_completed_at := Some at_;
    sc_failure := Some failure; sc_worker_id := sc_worker_id (sc_job r); sc_fence := sc_fence (sc_job r);
    sc_lease_until := None |}.
(** The row whose lease ran out, and the row that may not be collected. *)
Definition expiredCollection (worker : string) (at_ : Z) (r : CollectionRow) : CollectionRow :=
  let j := sc_job r in
  setCollection r {| sc_state := SFailed; sc_complete := false; sc_asset_id := sc_asset_id j;
    sc_repository_id := sc_repository_id j; sc_record_count := sc_record_count j; sc_gaps := sc_gaps j;
    sc_collected_at := sc_collected_at j; sc_completed_at := Some at_; sc_failure := Some (failureOf "lease-expired");
    sc_worker_id := Some worker; sc_fence := sc_fence j + 1; sc_lease_until := None |}.
Definition deniedCollection (worker : string) (denial : error) (at_ : Z) (r : CollectionRow) : CollectionRow :=
  let j := sc_job r in
  setCollection r {| sc_state := fst (sourceFailure denial); sc_complete := sc_complete j; sc_asset_id := sc_asset_id j;
    sc_repository_id := sc_repository_id j; sc_record_count := sc_record_count j; sc_gaps := sc_gaps j;
    sc_collected_at := sc_collected_at j; sc_completed_at := Some at_; sc_failure := Some (snd (sourceFailure denial));
    sc_worker_id := Some worker; sc_fence := sc_fence j + 1; sc_lease_until := sc_lease_until j |}.
Definition claimedCollection (worker : string) (until : Z) (r : CollectionRow) : CollectionRow :=
  let j := sc_job r in
  setCollection r {| sc_state := SCollecting; sc_complete := sc_complete j; sc_asset_id := sc_asset_id j;
    sc_repository_id := sc_repository_id j; sc_record_count := sc_record_count j; sc_gaps := sc_gaps j;
    sc_collected_at := sc_collected_at j; sc_completed_at := sc_completed_at j; sc_failure := sc_failure j;
    sc_worker_id := Some worker; sc_fence := sc_fence j + 1; sc_lease_until := Some until |}.

(** The requester may still write, the connection is enabled and as it was. *)
Definition sourceAuthority (job : sourceCollectionRecord) (lock : bool) : M DB SourceRow :=
  let c := colIntent job in
  (if lock then lockWorkspace (sc_workspace_id c) else ret tt) ;;;
  role <- query (λ _ db, Ok (t_memberships db !! (sc_workspace_id c, sc_requested_by c))) ;;
  guard (match role with
         | Some role => canWrite {| WorkspaceID := ""; WorkspaceName := ""; WorkspaceRole := role |}
         | None => false
         end) sourceAuthorizationRevoked ;;;
  found <- query (λ _ db, Ok (sourceOf (sc_workspace_id c) (sc_source_id c) db)) ;;
  match found with
  | None => throw sourceConnectionChanged
  | Some source =>
      guard (so_enabled source) sourceConnectionDisabled ;;;
      guard ((so_revision source =? sc_connection_revision c) && (so_repository source ==? sc_repository c) &&
             (so_profile source ==? sc_profile c) && sameAzureDevOpsTarget (so_target source) (sc_target c))
        sourceConnectionChanged ;;;
      ret source
  end.
Definition sourceLease (job : sourceCollectionRecord) : M DB unit :=
  live <- query (λ t db, Ok (match collectionOf (colWorkspace job) (colID job) db with
                             | Some r => leasesCollection t job r
                             | None => false
                             end)) ;;
  guard live sourceLeaseLost.

Definition settleSource (job : sourceCollectionRecord) (state : sstate) (failure : FindingDeliveryFailure) : M DB unit :=
  affected <- infra (exec (λ t db, updateCollection (colWorkspace job) (colID job) (ownsCollection job)
                                     (endedCollection state failure t) db)) ;;
  guard (affected =? 1) sourceLeaseLost.
Definition failSource (job : sourceCollectionRecord) (cause : error) : M DB unit :=
  settleSource job (fst (sourceFailure cause)) (snd (sourceFailure cause)).

(** ** The claim *)

Record collectorConfig := {
  ccWorkerID : string; ccLease : Z; ccStore : evidenceStore; ccLimits : Limits; ccKeyed : bool;
  ccEndpoint : string → option string (** of a profile *) }.
Definition collectorLease (w : collectorConfig) : Z := ccLease w / 1000000 * 1000.

Section worker.
Context {O : Type} `{!Gateway} `{!ObjectService O}.
Context (w : collectorConfig).

(** [pgx.ErrNoRows] and the failures of the server are not told apart by the
    claim, what is not a denial is an infrastructure error. *)
Definition writeClaim (job : sourceCollectionRecord) (f : Z → CollectionRow → CollectionRow) : M DB unit :=
  infra (exec (λ t db, (tt, snd (updateCollection (colWorkspace job) (colID job) (λ _, true) (f t) db)))).
Definition claimSourceTx : M DB (option (option (sourceCollectionRecord * SourceRow))) :=
  locked <- skipLocked ;;
  found <- infra (query (λ t db, Ok (nextCollection locked t (t_collections db)))) ;;
  match found with
  | None => ret None
  | Some (id, r) =>
      let job := scanSourceCollection id r in
      if sc_state (sc_job r) ==? SCollecting then writeClaim job (expiredCollection (ccWorkerID w)) ;;; ret (Some None)
      else if sourceCollectionBinding (colIntent job) !=? sc_binding_digest (sc_meta r) then
        writeClaim job (deniedCollection (ccWorkerID w) sourceBindingConflict) ;;; ret (Some None)
      else handle (sourceAuthority job true) (λ authority,
        match authority with
        | Err (collectionDenial code) =>
            writeClaim job (deniedCollection (ccWorkerID w) (collectionDenial code)) ;;; ret (Some None)
        | Err _ => infraErr
        | Ok source =>
            claimed <- infra (stmt (λ t db,
              match collectionOf (colWorkspace job) id db with
              | Some r => let r' := claimedCollection (ccWorkerID w) (t + collectorLease w) r in
                          Ok (scanSourceCollection id r', with_collections (<[id := r']> (t_collections db)) db)
              | None => Err ErrNoRows
              end)) ;;
            ret (Some (Some (claimed, source)))
        end)
  end.
(** [None]: nothing to do; [Some None]: a collection was ended instead. *)
Definition claimSource : M DB (option (option (sourceCollectionRecord * SourceRow))) :=
  handle (transaction claimSourceTx) (λ r, match r with Err ErrDatabase => infraErr | _ => fromRes r end).

(** ** Evidence and publication *)

(** reportStore.put: a key is written once. *)
Definition putOnce (key : string) (data : list N) : M (Ret O) unit := λ env n s,
  match getObject (rt_objects s) key with
  | Some _ => mkOut (Err EvidenceErrOther) s (n + 1)%nat
  | None => writeObjects (putObject key data) env n s
  end.
Definition putCollected (workspace id : string) (data : list N) : M (Ret O) string :=
  guard (storageSegment workspace && storageSegment id && (Z.of_nat (length data) <=? LimBytes (ccLimits w)))
    EvidenceErrOther ;;;
  let key := esPrefix (ccStore w) +:+ workspace +:+ "/" +:+ id +:+ "/" +:+ hex (Sum256 data) in
  putOnce key data ;;;
  handle (headObject key) (λ head,
    guard (match head with Ok n => n =? Z.of_nat (length data) | Err _ => false end) EvidenceErrOther ;;; ret key).

Definition evidenceRecord (job : sourceCollectionRecord) (id key : string) (ordinal : Z) (r : NativeRecord) : sourceEvidenceRecord :=
  {| evID := id;
     evRow := {| sr_workspace_id := colWorkspace job; sr_collection_id := colID job; sr_ordinal := ordinal;
       sr_kind := RecKind r; sr_external_id := RecExternalID r; sr_parent_id := RecParentID r;
       sr_native_run_id := RecNativeRunID r; sr_state := RecState r; sr_severity := RecSeverity r;
       sr_location := RecLocation r; sr_raw_url := RecRawURL r; sr_source_scan_at := RecSourceScanAt r;
       sr_source_updated_at := RecSourceUpdatedAt r;
       sr_evidence := {| erWorkspaceID := colWorkspace job; erBucket := esBucket (ccStore w); erKey := key;
         erSHA256 := reportDigest (RecRaw r); erSizeBytes := Z.of_nat (length (RecRaw r)) |} |} |}.
Fixpoint publishSourceRecords (job : sourceCollectionRecord) (ordinal : Z) (records : list NativeRecord)
    : M (Ret O) (list sourceEvidenceRecord) :=
  match records with
  | [] => ret []
  | r :: rest =>
      done <- ctxErr ;;
      guard (negb done) ErrContext ;;;
      id <- newID ;;
      key <- putCollected (colWorkspace job) id (RecRaw r) ;;
      published <- publishSourceRecords job (ordinal + 1) rest ;;
      ret (evidenceRecord job id key ordinal r :: published)
  end.

Definition repositoryAsset (workspace name : string) (at_ : Z) : AssetRow := {|
  a_workspace_id := workspace; a_name := name; a_kind := "repository"; a_environment := ""; a_criticality := "medium";
  a_tags := []; a_owner_id := None; a_created_at := at_ |}.
(** The asset of the repository, made when there is none. *)
Definition linkAsset (workspace profile name scopeKey : string) : M DB string :=
  found <- infra (query (λ _ db, Ok (t_repositoryAssets db !! (workspace, profile, scopeKey)))) ;;
  match found with
  | Some asset => ret asset
  | None =>
      id <- newID ;;
      infra (stmt (λ t db,
        if negb (isSome (t_workspaces db !! workspace)) then Err ErrConstraint
        else match insertRow id (repositoryAsset workspace name t) (t_assets db) with
             | Ok assets => Ok (tt, with_assets assets db)
             | Err e => Err e
             end)) ;;;
      infra (insertInto t_repositoryAssets with_repositoryAssets
        (λ db, if negb match t_assets db !! id with Some a => a_workspace_id a ==? workspace | None => false end
               then Some ErrConstraint
               else if anyRow (λ k asset, (k.1.1 ==? workspace) && (k.1.2 ==? profile) && (asset ==? id)) (t_repositoryAssets db)
               then Some ErrUnique else None) (workspace, profile, scopeKey) id) ;;;
      ret id
  end.

Definition pinnedSource (repository : string) (r : SourceRow) : SourceRow := {|
  so_workspace_id := so_workspace_id r; so_profile := so_profile r; so_name := so_name r; so_repository := so_repository r;
  so_enabled := so_enabled r; so_ciphertext := so_ciphertext r; so_revision := so_revision r;
  so_repository_id := Some repository; so_created_at := so_created_at r; so_updated_at := so_updated_at r;
  so_target := so_target r |}.
Definition pinSource (workspace id repository : string) (db : DB) : DB :=
  match sourceOf workspace id db with
  | Some r => with_sources (<[id := pinnedSource repository r]> (t_sources db)) db
  | None => db
  end.

Definition recordKinds : list string := ["repository"; "finding"; "pipeline"; "artifact"; "report"].
Definition recordCheck (r : SourceRecordRow) (db : DB) : option error :=
  if negb ((0 <=? sr_ordinal r) && (sr_ordinal r <=? 6400) && bool_decide (sr_kind r ∈ recordKinds) &&
           isSome (collectionOf (sr_workspace_id r) (sr_collection_id r) db)) then Some ErrConstraint
  else if anyRow (λ _ q, (sr_collection_id q ==? sr_collection_id r) &&
                   ((sr_ordinal q =? sr_ordinal r) ||
                    (sr_kind q ==? sr_kind r) && (sr_external_id q ==? sr_external_id r))) (t_sourceRecords db)
  then Some ErrUnique else None.
Definition insertRecord (r : sourceEvidenceRecord) : M DB unit :=
  infra (insertInto t_sourceRecords with_sourceRecords (recordCheck (evRow r)) (evID r) (evRow r)).

(** The row of a published collection. *)
Definition publishedCollection (complete : bool) (asset repository : string) (count : Z) (gaps : list string)
    (collected : Z) (failure : option FindingDeliveryFailure) (at_ : Z) (r : CollectionRow) : CollectionRow :=
  setCollection r {| sc_state := if isSome failure || negb complete then SPartial else SSucceeded;
    sc_complete := complete && negb (isSome failure); sc_asset_id := Some asset; sc_repository_id := Some repository;
    sc_record_count := count; sc_gaps := gaps; sc_collected_at := Some collected; sc_completed_at := Some at_;
    sc_failure := failure; sc_worker_id := sc_worker_id (sc_job r); sc_fence := sc_fence (sc_job r);
    sc_lease_until := None |}.

(** A pinned connection belongs to another repository. *)
Definition otherRepository (source : SourceRow) (repository : string) : bool :=
  match so_repository_id source with Some pinned => negb (EqualFold pinned repository) | None => false end.

Definition finalizeSourceTx (job : sourceCollectionRecord) (result : Collection) (repository : sourceRepository)
    (records : list sourceEvidenceRecord) (failure : option FindingDeliveryFailure) : M DB unit :=
  source <- handle (sourceAuthority job true) (λ r, match r with Err ErrDatabase => throw errDeliveryWork | _ => fromRes r end) ;;
  held <- infra (query (λ t db, Ok (match collectionOf (colWorkspace job) (colID job) db with
                                    | Some r => leasesCollection t job r
                                    | None => false
                                    end))) ;;
  guard held sourceLeaseLost ;;;
  guard (negb (otherRepository source (RepoID repository))) sourceIdentityConflict ;;;
  infra (query (λ _ _, Ok tt)) ;;;
  asset <- linkAsset (colWorkspace job) (sc_profile (colIntent job)) (RepoName repository) (RepoScopeKey repository) ;;
  infra (exec (λ _ db, (tt, pinSource (colWorkspace job) (sc_source_id (colIntent job)) (RepoID repository) db))) ;;;
  mapM insertRecord records ;;;
  affected <- infra (stmt (λ t db,
    let updated := updateCollection (colWorkspace job) (colID job) (leasesCollection t job)
      (publishedCollection (ColComplete result) asset (RepoID repository) (Z.of_nat (length records))
         (ColGaps result) (ColCollectedAt result) failure t) db in
    if (fst updated =? 1) && (6401 <? Z.of_nat (length records)) then Err ErrConstraint else Ok updated)) ;;
  guard (affected =? 1) sourceLeaseLost ;;;
  done <- ctxErr ;;
  guard (negb done) ErrContext.
Definition finalizeSource (job : sourceCollectionRecord) (result : Collection) (repository : sourceRepository)
    (records : list sourceEvidenceRecord) (failure : option FindingDeliveryFailure) : M DB unit :=
  handle (transaction (finalizeSourceTx job result repository records failure)) (λ r,
    match r with Err ErrDatabase => infraErr | _ => fromRes r end).

(** ** Processing *)

(** What surrounds the worker: the other sessions, the cause with which the
    watcher or the end of the worker cancelled the work by then, and the
    answers of the collector. *)
Record CollectWorld := {
  cw_other : nat → Ret O → Ret O; cw_cause : nat → option error; cw_open : nat → option error;
  cw_collect : nat → CollectRequest → Collection * option collectError }.
Context (v : CollectWorld).
Context (decodeGitHub : list N → option (string * string)) (decodeAzure : list N → option (string * string * string)).

Definition others : M (Ret O) unit := λ _ n s, mkOut (Ok tt) (cw_other v n s) (n + 1)%nat.
(** A statement after whatever the others do. *)
Definition then_ {A} (m : M (Ret O) A) : M (Ret O) A := others ;;; m.
(** Under the context of the work, and its cause. *)
Definition access {S A} : M S A → M S A := watched (cw_cause v).
Definition collectCause {S} : M S (option error) := watchCause (cw_cause v).
(** Under a context of its own. *)
Definition cleanup (m : M DB unit) : M (Ret O) unit := then_ (lift (background m)).

Definition finishDeniedSource (job : sourceCollectionRecord) (cause : error) : M (Ret O) (option error) :=
  handle (cleanup (failSource job cause)) (λ settled,
  match settled with
  | Err e => ret (Some e)
  | Ok _ =>
      done <- ctxErr ;;
      ret (if (done : bool) then Some ErrContext
           else match cause with collectionDenial _ => None | _ => Some errDeliveryWork end)
  end).
(** [settleSource], [failSource] with the error, if any. *)
Definition settledError (m : M DB unit) : M (Ret O) (option error) :=
  handle (cleanup m) (λ r, ret (match r with Ok _ => None | Err e => Some e end)).

Definition collectRequest (job : sourceCollectionRecord) : CollectRequest :=
  let c := colIntent job in
  let identity scope := {| IdWorkspaceID := sc_workspace_id c; IdSourceID := sc_source_id c; IdRunID := colID job;
                           IdScopeID := scope |} in
  match (if sc_profile c ==? ADOArtifacts then sc_target c else None), sc_selection c with
  | Some t, Some s =>
      {| RqIdentity := identity (azureDevOpsScopeIdentity t); RqRepository := TargetRepositoryID t;
         RqOrganization := Organization t; RqProject := TargetProjectID t; RqBuildID := BuildID s;
         RqArtifactName := ArtifactName s; RqArtifactPath := ArtifactPath s |}
  | _, _ =>
      {| RqIdentity := identity (sc_repository c); RqRepository := sc_repository c; RqOrganization := "";
         RqProject := ""; RqBuildID := ""; RqArtifactName := ""; RqArtifactPath := "" |}
  end.
Definition collect (request : CollectRequest) : M (Ret O) (Collection * option collectError) := λ _ n s,
  mkOut (Ok (cw_collect v n request)) s (n + 1)%nat.
Definition openCollector : M (Ret O) (option error) := λ _ n s, mkOut (Ok (cw_open v n)) s (n + 1)%nat.

Definition publishCollected (job : sourceCollectionRecord) (result : Collection) (repository : sourceRepository)
    (failure : option FindingDeliveryFailure) : M (Ret O) (option error) :=
  handle (then_ (access (publishSourceRecords job 0 (ColRecords result)))) (λ published,
  cause <- collectCause ;;
  match cause, published with
  | Some e, _ => finishDeniedSource job e
  | None, Err e =>
      settled <- settledError (failSource job e) ;;
      ret (match settled with Some e => Some e | None => Some errDeliveryWork end)
  | None, Ok records =>
      handle (then_ (lift (access (finalizeSource job result repository records failure)))) (λ r,
      match r with Ok _ => ret None | Err e => finishDeniedSource job e end)
  end).

Definition collectSource (job : sourceCollectionRecord) (source : SourceRow) (token : string) : M (Ret O) (option error) :=
  answer <- then_ (collect (collectRequest job)) ;;
  let '(result, nativeErr) := answer in
  cause <- collectCause ;;
  match cause with
  | Some e => finishDeniedSource job e
  | None =>
      let failed e := settledError (settleSource job SFailed (sourceNativeFailure e token)) in
      match validateSourceResult decodeGitHub decodeAzure job result (ccLimits w), nativeErr with
      | inr _, Some e => failed e
      | inr e, None => failed (plainError e)
      | inl repository, None =>
          if negb (ColComplete result) then failed (plainError ErrProtocol)
          else if otherRepository source (RepoID repository) then settledError (failSource job sourceIdentityConflict)
          else publishCollected job result repository None
      | inl repository, Some e =>
          if otherRepository source (RepoID repository) then settledError (failSource job sourceIdentityConflict)
          else publishCollected job result repository (Some (sourceNativeFailure e token))
      end
  end.

Definition processSource (job : sourceCollectionRecord) (source : SourceRow) : M (Ret O) (option error) :=
  let c := colIntent job in
  match openCredential (ccKeyed w) (sourceCredentialAAD (sc_profile c) (sc_workspace_id c) (sc_source_id c)) (so_ciphertext source) with
  | Err _ => settledError (settleSource job SBlocked (failureOf "credential-unavailable"))
  | Ok token =>
      match ccEndpoint w (sc_profile c) with
      | None => settledError (failSource job errUnsupported)
      | Some _ =>
          opened <- openCollector ;;
          match opened with
          | Some e => settledError (failSource job e)
          | None =>
              handle (then_ (lift (access (sourceAuthority job false ;;; sourceLease job)))) (λ r,
              match r with
              | Err e => finishDeniedSource job e
              | Ok _ => collectSource job source token
              end)
          end
      end
  end.

(** Whether there was work, and the error. *)
Definition ProcessNextSource : M (Ret O) (bool * option error) :=
  handle (then_ (lift (access claimSource))) (λ claimed,
  match claimed with
  | Err e => ret (false, Some e)
  | Ok None => ret (false, None)
  | Ok (Some None) => ret (true, None)
  | Ok (Some (Some (job, source))) => e <- processSource job source ;; ret (true, e)
  end).
End worker.
