(* ===== verification/SourceRuns.v ===== *)
(** * The collection worker is a run of its machine

    The abstract machine behind the collection worker: claims, refusals,
    expiries and failures of rows, the storing of an object, and the
    publication of a collection as one step, with everything that made it
    legitimate.  Then what each transaction of the worker does, a small logic
    for programs that pause while others act, and the refinement: every call of
    the worker is a run of [collectorStep] between the steps of the others. *)
From S2P Require Import Prelude GoLib Encoding Tx ReportAdapter Schema Auth Intake Paging Assets WorkViews Work Connections Deliveries DeliveryWorker DeliveryProps RetentionStore RetentionWorker RetentionFence Sources SourceCollections SourceWorker.
Local Open Scope Z_scope.

(** ** Authority *)

Definition mayWrite (workspace user : string) (d : DB) : Prop :=
  ∃ role, t_memberships d !! (workspace, user) = Some role ∧
    canWrite {| WorkspaceID := ""; WorkspaceName := ""; WorkspaceRole := role |} = true.
(** The requester may write, and the connection is enabled and the one the
    collection was requested for. *)
Definition authorised (c : CollectionIntent) (source : SourceRow) (d : DB) : Prop :=
  mayWrite (sc_workspace_id c) (sc_requested_by c) d ∧
  sourceOf (sc_workspace_id c) (sc_source_id c) d = Some source ∧ so_enabled source = true ∧
  so_revision source = sc_connection_revision c ∧ so_repository source = sc_repository c ∧
  so_profile source = sc_profile c ∧ so_target source = sc_target c.

(** ** Steps *)

(** How a row changes short of being published. *)
Inductive rowStep (d : DB) (r : CollectionRow) : CollectionRow → Prop :=
  | row_claimed worker until source :
      sc_state (sc_job r) = SQueued → sourceCollectionBinding (sc_intent (sc_meta r)) = sc_binding_digest (sc_meta r) →
      authorised (sc_intent (sc_meta r)) source d → rowStep d r (claimedCollection worker until r)
  | row_denied worker denial t :
      sc_state (sc_job r) = SQueued →
      denial = sourceBindingConflict ∧ sourceCollectionBinding (sc_intent (sc_meta r)) ≠ sc_binding_digest (sc_meta r) ∨
      denial ∈ [sourceAuthorizationRevoked; sourceConnectionDisabled; sourceConnectionChanged] ∧
        (∀ source, ¬ authorised (sc_intent (sc_meta r)) source d) →
      rowStep d r (deniedCollection worker denial t r)
  | row_expired worker seen t :
      sc_state (sc_job r) = SCollecting → collectionOver seen (sc_job r) = true → rowStep d r (expiredCollection worker t r)
  | row_ended state failure t :
      sc_state (sc_job r) = SCollecting → state ∈ [SBlocked; SFailed] → rowStep d r (endedCollection state failure t r).

Section spec.
Context {O : Type} `{!ObjectService O} (w : collectorConfig).
Context (decodeGitHub : list N → option (string * string)) (decodeAzure : list N → option (string * string * string)).

(** The rows and objects for the records of the collector, in order, each
    object under a key of its own in the workspace. *)
Fixpoint storedAs (o : O) (job : sourceCollectionRecord) (ordinal : Z) (records : list NativeRecord)
    (rows : list sourceEvidenceRecord) : Prop :=
  match records, rows with
  | [], [] => True
  | r :: records', e :: rows' =>
      (∃ key, e = evidenceRecord w job (evID e) key ordinal r ∧ getObject o key = Some (RecRaw r) ∧
         storageSegment (colWorkspace job) = true ∧ storageSegment (evID e) = true ∧
         key = esPrefix (ccStore w) +:+ colWorkspace job +:+ "/" +:+ evID e +:+ "/" +:+ hex (Sum256 (RecRaw r))) ∧
      storedAs o job (ordinal + 1) records' rows'
  | _, _ => False
  end.

Record publication := {
  puJob : sourceCollectionRecord; puResult : Collection; puError : option collectError; puToken : string;
  puRepository : sourceRepository; puRows : list sourceEvidenceRecord; puAsset : string; puSource : SourceRow;
  puRow : CollectionRow; puTime : Z; puLinked : DB }.
Definition puIntent (p : publication) : CollectionIntent := colIntent (puJob p).
Definition puKey (p : publication) : string * string * string :=
  (colWorkspace (puJob p), sc_profile (puIntent p), RepoScopeKey (puRepository p)).

(** The asset of the repository: the one it had, or a new one. *)
Definition links (p : publication) (d d' : DB) : Prop :=
  t_repositoryAssets d !! puKey p = Some (puAsset p) ∧ d' = d ∨
  t_repositoryAssets d !! puKey p = None ∧ t_assets d !! puAsset p = None ∧
    ∃ t, d' = with_repositoryAssets (<[puKey p := puAsset p]> (t_repositoryAssets d))
                (with_assets (<[puAsset p := repositoryAsset (colWorkspace (puJob p)) (RepoName (puRepository p)) t]> (t_assets d)) d).

Definition rowsTable (rows : list sourceEvidenceRecord) : gmap string SourceRecordRow :=
  list_to_map ((λ e, (evID e, evRow e)) <$> rows).
Definition publishedRow (p : publication) : CollectionRow :=
  publishedCollection (ColComplete (puResult p)) (puAsset p) (RepoID (puRepository p)) (Z.of_nat (length (puRows p)))
    (ColGaps (puResult p)) (ColCollectedAt (puResult p)) ((λ e, sourceNativeFailure e (puToken p)) <$> puError p) (puTime p) (puRow p).

(** What is published: an answer of the collector that was checked, all of it
    and stored, for a collection the worker holds, by who may request it, from
    the repository the connection is pinned to. *)
Record publishes (p : publication) (s s' : Ret O) : Prop := {
  pub_valid : validateSourceResult decodeGitHub decodeAzure (puJob p) (puResult p) (ccLimits w) = inl (puRepository p);
  pub_complete : puError p = None → ColComplete (puResult p) = true;
  pub_stored : storedAs (rt_objects s) (puJob p) 0 (ColRecords (puResult p)) (puRows p);
  pub_row : t_collections (rt_db s) !! colID (puJob p) = Some (puRow p);
  pub_meta : sc_meta (puRow p) = sc_meta (colRow (puJob p));
  pub_held : leasesCollection (puTime p) (puJob p) (puRow p) = true;
  pub_authority : authorised (puIntent p) (puSource p) (rt_db s);
  pub_pinned : otherRepository (puSource p) (RepoID (puRepository p)) = false;
  pub_links : links p (rt_db s) (puLinked p);
  pub_fresh : NoDup (evID <$> puRows p) ∧ ∀ e, e ∈ puRows p → t_sourceRecords (rt_db s) !! evID e = None;
  pub_objects : rt_objects s' = rt_objects s;
  pub_db : rt_db s' = with_collections (<[colID (puJob p) := publishedRow p]> (t_collections (rt_db s)))
    (with_sourceRecords (rowsTable (puRows p) ∪ t_sourceRecords (rt_db s))
      (pinSource (colWorkspace (puJob p)) (sc_source_id (puIntent p)) (RepoID (puRepository p)) (puLinked p))) }.

Inductive collectorStep (s : Ret O) : Ret O → Prop :=
  | step_row id r r' :
      t_collections (rt_db s) !! id = Some r → rowStep (rt_db s) r r' →
      collectorStep s (mkRet (with_collections (<[id := r']> (t_collections (rt_db s))) (rt_db s)) (rt_objects s))
  | step_store key data :
      getObject (rt_objects s) key = None → collectorStep s (mkRet (rt_db s) (putObject key data (rt_objects s)))
  | step_publish p s' : publishes p s s' → collectorStep s s'.
End spec.

(** ** Runs *)

(** ** The transactions *)

Lemma sourceAuthority_inv job lock env n d r d' n' :
  sourceAuthority job lock env n d = mkOut r d' n' →
  d' = d ∧ match r with
           | Ok source => authorised (colIntent job) source d
           | Err (collectionDenial code) =>
               collectionDenial code ∈ [sourceAuthorizationRevoked; sourceConnectionDisabled; sourceConnectionChanged] ∧
               ∀ source, ¬ authorised (colIntent job) source d
           | Err _ => True
           end.
Proof.
  unfold sourceAuthority. intros H.
  assert (Hlock : ∀ u, (if lock then lockWorkspace (sc_workspace_id (colIntent job)) else ret tt) env n d = u →
    out_db u = d ∧ match out_res u with Err (collectionDenial _) => False | _ => True end).
  { intros u <-. destruct lock; [|done]. unfold lockWorkspace, query, stmt.
    destruct (_ || _); [split; [done|]; simpl; by destruct (env_done env n)|]. by destruct (isSome _). }
  unfold bind at 1 in H. destruct (_ env n d) as [[u|e] d1 n1]; destruct (Hlock _ eq_refl) as [<- He]; simpl in *;
    [|simplify_eq; by destruct e].
  unfold bind at 1, query at 1, stmt at 1 in H.
  destruct (_ || _); [simplify_eq; by destruct (env_done env _)|].
  unfold bind at 1 in H. destruct (match t_memberships d1 !! _ with Some _ => _ | None => _ end) eqn:Ew; simpl in H;
    [|simplify_eq; split; [done|]; split; [set_solver|]; intros source [(role & Hr & Hw) _]; rewrite Hr in Ew; congruence].
  unfold bind at 1, query at 1, stmt at 1 in H.
  destruct (_ || _); [simplify_eq; by destruct (env_done env _)|].
  destruct (sourceOf _ _ d1) as [source|] eqn:Es;
    [|unfold throw in H; simplify_eq; split; [done|]; split; [set_solver|]; intros s' (_ & ? & _); congruence].
  unfold bind at 1 in H. destruct (so_enabled source) eqn:Een; simpl in H;
    [|simplify_eq; split; [done|]; split; [set_solver|]; intros s' (_ & ? & ? & _); congruence].
  destruct (_ && sameAzureDevOpsTarget _ _) eqn:Ec; unfold bind, guard, ret, throw in H; simplify_eq; split; try done.
  - unfold sameAzureDevOpsTarget in Ec. breflect_in Ec. destruct Ec as (((? & ?) & ?) & ?). split_and!; try done.
    destruct (t_memberships d' !! _) as [role|] eqn:Er; [|done]. by exists role.
  - split; [set_solver|]. intros s' (_ & Hs & ? & ? & ? & ? & ?). simplify_eq. unfold sameAzureDevOpsTarget in Ec.
    repeat (rewrite bool_decide_eq_true_2 in Ec by congruence). rewrite (proj2 (Z.eqb_eq _ _)) in Ec by congruence. done.
Qed.

Lemma updateCollection_inv ws id P f d :
  let '(k, d') := updateCollection ws id P f d in
  k = 1 ∧ (∃ r, t_collections d !! id = Some r ∧ collectionIn ws r = true ∧ P r = true ∧
             d' = with_collections (<[id := f r]> (t_collections d)) d) ∨ k = 0 ∧ d' = d.
Proof.
  unfold updateCollection. destruct (t_collections d !! id) as [r|]; [|by right].
  destruct (collectionIn ws r && P r) eqn:E; [|by right]. apply andb_true_iff in E as [? ?]. left. eauto 10.
Qed.

Lemma sourceFailure_state e : fst (sourceFailure e) ∈ [SBlocked; SFailed].
Proof.
  assert (Hb : SBlocked ∈ [SBlocked; SFailed]) by set_solver. assert (Hf : SFailed ∈ [SBlocked; SFailed]) by set_solver.
  unfold sourceFailure. destruct e; try exact Hf. simpl. by destruct (bool_decide _).
Qed.

Lemma rowStep_meta d r r' : rowStep d r r' → sc_meta r' = sc_meta r.
Proof. by destruct 1. Qed.

(** A claim ends with a row moved, or with nothing. *)
Definition movesRow (d : DB) (id : string) (r' : CollectionRow) (d' : DB) : Prop :=
  ∃ r, t_collections d !! id = Some r ∧ rowStep d r r' ∧ d' = with_collections (<[id := r']> (t_collections d)) d.

Lemma writeClaim_inv id r f env n d x d' n' :
  t_collections d !! id = Some r →
  writeClaim (scanSourceCollection id r) f env n d = mkOut (Ok x) d' n' →
  ∃ t, d' = with_collections (<[id := f t r]> (t_collections d)) d.
Proof.
  intros Hr H%infra_inv%exec_inv. injection H as _ <-. exists (env_clock env n). unfold updateCollection. simpl.
  rewrite Hr. unfold collectionIn, colWorkspace, colIntent. simpl. by rewrite bool_decide_eq_true_2.
Qed.

Lemma nextCollection_inv locked t m id r :
  nextCollection locked t m = Some (id, r) →
  m !! id = Some r ∧ (sc_state (sc_job r) = SQueued ∨ sc_state (sc_job r) = SCollecting ∧ collectionOver t (sc_job r) = true).
Proof.
  unfold nextCollection. intros H%argmin_elem%elem_of_rowsWhere. destruct H as [Hr H]. split; [done|].
  apply andb_true_iff in H as [H _]. unfold claimableCollection in H. breflect_in H. done.
Qed.

Lemma claimSourceTx_inv w env n d x d' n' :
  claimSourceTx w env n d = mkOut (Ok x) d' n' →
  x = None ∧ d' = d ∨
  ∃ id r', movesRow d id r' d' ∧
    (x = Some None ∨ ∃ source, x = Some (Some (scanSourceCollection id r', source)) ∧ sc_state (sc_job r') = SCollecting).
Proof.
  unfold claimSourceTx. intros H. apply bind_inv in H as (lk & d0 & n0 & [-> ->]%skipLocked_inv & H). apply bind_inv in H as (found & d1 & n1 & Hq & H).
  apply infra_inv, query_inv in Hq as [Hq ->]. injection Hq as <-.
  destruct (nextCollection _ _ _) as [[id r]|] eqn:En; [|by left; apply ret_inv in H as [<- ->]].
  apply nextCollection_inv in En as [Hr Hs]. right. exists id. cbv beta iota zeta in H.
  destruct (sc_state (sc_job r) ==? SCollecting) eqn:Ec; breflect_in Ec.
  { apply bind_inv in H as (u & d1 & n2 & Hw & H). apply ret_inv in H as [<- ->].
    apply (writeClaim_inv id r) in Hw as [t ->]; [|done]. destruct Hs as [Hs|[_ Ho]]; [congruence|].
    eexists. split; [|by left]. exists r. split_and!; [done| |done]. by econstructor. }
  assert (Hq : sc_state (sc_job r) = SQueued) by (destruct Hs as [?|[? _]]; [done|congruence]). clear Hs.
  destruct (sourceCollectionBinding _ !=? _) eqn:Eb.
  { apply bind_inv in H as (u & d1 & n2 & Hw & H). apply ret_inv in H as [<- ->].
    apply (writeClaim_inv id r) in Hw as [t ->]; [|done]. eexists. split; [|by left]. exists r.
    split_and!; [done| |done]. constructor; [done|]. left. split; [done|]. intros E. apply negb_true_iff, bool_decide_eq_false in Eb. done. }
  apply negb_false_iff, bool_decide_eq_true in Eb.
  apply handle_inv in H as (res & d1 & n2 & Ha & H). apply sourceAuthority_inv in Ha as [-> Ha].
  destruct res as [source|e].
  - apply bind_inv in H as (c & d2 & n3 & Hc & H). apply ret_inv in H as [<- ->]. apply infra_inv, stmt_inv in Hc.
    unfold collectionOf in Hc. rewrite Hr in Hc. destruct (collectionIn _ r); [|done]. simplify_eq. eexists. split; [|right; eauto].
    exists r. split_and!; [done| |done]. econstructor; [done|exact Eb|exact Ha].
  - destruct e; try (by unfold infraErr, bind, ctxErr, throw in H).
    apply bind_inv in H as (u & d1 & n3 & Hw & H). apply ret_inv in H as [<- ->].
    apply (writeClaim_inv id r) in Hw as [t ->]; [|done]. eexists. split; [|by left]. exists r.
    split_and!; [done| |done]. constructor; [done|]. by right.
Qed.

(** ** The publication *)

Lemma linkAsset_inv ws profile name scope env n d asset d' n' :
  linkAsset ws profile name scope env n d = mkOut (Ok asset) d' n' →
  t_repositoryAssets d !! (ws, profile, scope) = Some asset ∧ d' = d ∨
  t_repositoryAssets d !! (ws, profile, scope) = None ∧ t_assets d !! asset = None ∧
    ∃ t, d' = with_repositoryAssets (<[(ws, profile, scope) := asset]> (t_repositoryAssets d))
                (with_assets (<[asset := repositoryAsset ws name t]> (t_assets d)) d).
Proof.
  unfold linkAsset. intros H. apply bind_inv in H as (found & d1 & n1 & Hq & H).
  apply infra_inv, query_inv in Hq as [Hq ->]. injection Hq as <-.
  destruct (t_repositoryAssets d !! _) as [a|] eqn:El; [left; by apply ret_inv in H as [-> ->]|right].
  apply bind_inv in H as (id & d1 & n2 & [_ ->]%newID_inv & H).
  apply bind_inv in H as (u & d1 & n3 & Hs%infra_inv%stmt_inv & H).
  apply bind_inv in H as (u2 & d2 & n4 & Hl%infra_inv%insertInto_inv & H). apply ret_inv in H as [-> ->].
  destruct (negb _); [done|]. unfold insertRow in Hs. destruct (t_assets d !! asset) eqn:Ea; [done|].
  injection Hs as _ <-. destruct Hl as (_ & _ & ->). eauto.
Qed.

Lemma insertRecords_inv records env n d l d' n' :
  mapM insertRecord records env n d = mkOut (Ok l) d' n' →
  NoDup (evID <$> records) ∧ (∀ e, e ∈ records → t_sourceRecords d !! evID e = None) ∧
  d' = with_sourceRecords (rowsTable records ∪ t_sourceRecords d) d.
Proof.
  revert n d l d' n'. induction records as [|e rest IH]; intros n d l d' n' H; simpl in H.
  - apply ret_inv in H as [_ ->]. split_and!; [constructor|set_solver|]. unfold rowsTable. simpl.
    rewrite (left_id_L ∅ (∪)). by destruct d.
  - apply bind_inv in H as (u & d1 & n1 & (_ & Hf & ->)%infra_inv%insertInto_inv & H).
    apply bind_inv in H as (l' & d2 & n2 & (Hnd & Hfresh & ->)%IH & H). apply ret_inv in H as [_ ->]. simpl in Hfresh.
    assert (Hne : ∀ e', e' ∈ rest → evID e' ≠ evID e ∧ t_sourceRecords d !! evID e' = None).
    { intros e' He'. specialize (Hfresh e' He'). destruct (decide (evID e' = evID e)) as [E|E].
      - rewrite E, lookup_insert_eq in Hfresh. done.
      - by rewrite lookup_insert_ne in Hfresh by done. }
    split_and!.
    + rewrite fmap_cons. constructor; [|done]. intros (e' & E & He')%list_elem_of_fmap. by destruct (Hne e' He').
    + intros e' [->|He']%elem_of_cons; [done|]. by apply Hne.
    + change (with_sourceRecords (rowsTable rest ∪ <[evID e := evRow e]> (t_sourceRecords d)) d =
              with_sourceRecords (rowsTable (e :: rest) ∪ t_sourceRecords d) d).
      apply (f_equal (λ m, with_sourceRecords m d)). unfold rowsTable. rewrite fmap_cons. simpl. rewrite <- insert_union_l. symmetry. apply insert_union_r.
      apply not_elem_of_list_to_map_1. rewrite <- list_fmap_compose. intros (e' & E & He')%list_elem_of_fmap.
      simpl in E. by destruct (Hne e' He').
Qed.

Section publication.
Context {O : Type} `{!ObjectService O} (w : collectorConfig).
Context (decodeGitHub : list N → option (string * string)) (decodeAzure : list N → option (string * string * string)).

Lemma finalizeSourceTx_inv job result repository rows ce token env n o d x d' n' :
  validateSourceResult decodeGitHub decodeAzure job result (ccLimits w) = inl repository →
  (ce = None → ColComplete result = true) →
  storedAs w o job 0 (ColRecords result) rows →
  (∀ r, t_collections d !! colID job = Some r → sc_meta r = sc_meta (colRow job)) →
  finalizeSourceTx job result repository rows ((λ e, sourceNativeFailure e token) <$> ce) env n d = mkOut (Ok x) d' n' →
  collectorStep w decodeGitHub decodeAzure (mkRet d o) (mkRet d' o).
Proof.
  intros Hv Hc Hs Hm H. unfold finalizeSourceTx in H.
  apply bind_inv in H as (source & d1 & n1 & Ha & H). apply handle_inv in Ha as (r & d2 & n2 & Ha & Hr).
  apply sourceAuthority_inv in Ha as [-> Ha]. assert (r = Ok source ∧ d1 = d) as [-> ->].
  { destruct r as [|e]; [by apply fromRes_inv in Hr|]. by destruct e. }
  clear Hr. apply bind_inv in H as (held & d1 & n3 & Hh%infra_inv%query_inv & H). destruct Hh as [_ ->].
  apply bind_inv in H as (u & d1 & n4 & [_ ->]%guard_inv & H).
  apply bind_inv in H as (u' & d1 & n5 & [Hp ->]%guard_inv & H).
  apply bind_inv in H as (u'' & d1 & n6 & Hq%infra_inv%query_inv & H). destruct Hq as [_ ->].
  apply bind_inv in H as (asset & d1 & n7 & Hl%linkAsset_inv & H).
  apply bind_inv in H as (u3 & d2 & n8 & Hpin%infra_inv%exec_inv & H). injection Hpin as _ <-.
  apply bind_inv in H as (l & d2 & n9 & (Hnd & Hfresh & ->)%insertRecords_inv & H).
  apply bind_inv in H as (k & d3 & n10 & Hu%infra_inv%stmt_inv & H).
  apply bind_inv in H as (u4 & d4 & n11 & [Hk ->]%guard_inv & H). apply Z.eqb_eq in Hk.
  apply bind_inv in H as (done & d4 & n12 & [_ ->]%ctxErr_inv & H). apply guard_inv in H as [_ ->].
  match type of Hu with context [updateCollection ?a ?b ?c ?e ?f] => pose proof (updateCollection_inv a b c e f) as Hup;
    destruct (updateCollection a b c e f) as [k' d5] end.
  simpl in Hu. destruct (_ && _) in Hu; [done|]. injection Hu as -> ->.
  destruct Hup as [[_ (row & Hrow & _ & Hlease & ->)]|[? _]]; [|congruence].
  assert (Hpc : ∀ a b c e, t_collections (pinSource a b c e) = t_collections e ∧ t_sourceRecords (pinSource a b c e) = t_sourceRecords e).
  { intros. unfold pinSource. by destruct (sourceOf _ _ _). }
  assert (Hlc : t_collections d1 = t_collections d ∧ t_sourceRecords d1 = t_sourceRecords d)
    by (destruct Hl as [[_ ->]|(_ & _ & t & ->)]; done).
  simpl in Hrow. rewrite (proj1 (Hpc _ _ _ _)), (proj1 Hlc) in Hrow.
  apply (step_publish _ _ _ _ {| puJob := job; puResult := result; puError := ce; puToken := token;
    puRepository := repository; puRows := rows; puAsset := asset; puSource := source; puRow := row;
    puTime := env_clock env n9; puLinked := d1 |}).
  split; simpl; try done.
  - by apply Hm.
  - by apply negb_true_iff in Hp.
  - split; [done|]. intros e He. specialize (Hfresh e He). by rewrite (proj2 (Hpc _ _ _ _)), (proj2 Hlc) in Hfresh.
  - simpl. rewrite (proj1 (Hpc _ _ _ _)), (proj1 Hlc), (proj2 (Hpc _ _ _ _)), (proj2 Hlc). done.
Qed.
End publication.

(** ** Programs with pauses

    [Runs R P m Q]: from a state of [P] every run of [m] is within [R] and ends
    in [Q] of its result. *)
Section logic.
Context {S : Type} (R : S → S → Prop) `{!PreOrder R}.
Definition Runs {A} (P : S → Prop) (m : M S A) (Q : Res A → S → Prop) : Prop :=
  ∀ env n s, P s → R s (out_db (m env n s)) ∧ Q (out_res (m env n s)) (out_db (m env n s)).

Lemma runs_handle {A B} P (m : M S A) Q (k : Res A → M S B) Q' :
  Runs P m Q → (∀ r, Runs (Q r) (k r) Q') → Runs P (handle m k) Q'.
Proof.
  intros Hm Hk env n s Hs. destruct (Hm env n s Hs) as [H1 H2]. unfold handle.
  destruct (m env n s) as [r s1 n1]; simpl in *. destruct (Hk r env n1 s1 H2) as [H3 H4].
  split; [by etransitivity|done].
Qed.
Lemma runs_bind {A B} P (m : M S A) Q (k : A → M S B) Q' :
  Runs P m Q → (∀ a, Runs (Q (Ok a)) (k a) Q') → (∀ e s, Q (Err e) s → Q' (Err e) s) → Runs P (m' <- m ;; k m') Q'.
Proof.
  intros Hm Hk He env n s Hs. destruct (Hm env n s Hs) as [H1 H2]. unfold bind.
  destruct (m env n s) as [[a|e] s1 n1]; simpl in *; [|by split; auto].
  destruct (Hk a env n1 s1 H2) as [H3 H4]. split; [by etransitivity|done].
Qed.
Lemma runs_ret {A} (a : A) P : Runs P (ret a) (λ r s, r = Ok a ∧ P s).
Proof. intros env n s Hs. split; [reflexivity|done]. Qed.
(** A program that only takes steps of [R], with an assertion it cannot break. *)
Lemma runs_stable {A} (I : S → Prop) (m : M S A) : Stable R I → Steps R m → Runs I m (λ _, I).
Proof. intros HI Hm env n s Hs. specialize (Hm env n s). split; [done|]. by eapply HI. Qed.
Lemma runs_weaken {A} (P P' : S → Prop) (m : M S A) (Q Q' : Res A → S → Prop) :
  (∀ s, P s → P' s) → (∀ r s, Q' r s → Q r s) → Runs P' m Q' → Runs P m Q.
Proof. intros HP HQ Hm env n s Hs. destruct (Hm env n s (HP s Hs)). auto. Qed.
(** [m] asserts [Q] on its own; a stable [I] is carried along. *)
Lemma runs_keep {A} (I P : S → Prop) (m : M S A) (Q : Res A → S → Prop) :
  Stable R I → Runs (λ s, I s ∧ P s) m Q → Runs (λ s, I s ∧ P s) m (λ r s, I s ∧ Q r s).
Proof. intros HI Hm env n s Hs. destruct (Hm env n s Hs) as [H1 H2]. split_and!; [done|eapply HI; naive_solver|done]. Qed.
Lemma runs_steps {A} (I : S → Prop) (m : M S A) Q : Runs I m Q → Runs I m (λ _ _, True).
Proof. apply runs_weaken; auto. Qed.
End logic.

Section refinement.
Context {O : Type} `{GW : !Gateway} `{OS : !ObjectService O} `{OL : !ObjectLaws O}.
Context (w : collectorConfig) (v : CollectWorld (O:=O)).
Context (decodeGitHub : list N → option (string * string)) (decodeAzure : list N → option (string * string * string)).

(** What the others keep: the request of a collection, and stored evidence. *)
Definition keepsCollected (s s' : Ret O) : Prop :=
  (∀ id r, t_collections (rt_db s) !! id = Some r → ∃ r', t_collections (rt_db s') !! id = Some r' ∧ sc_meta r' = sc_meta r) ∧
  (∀ key data, getObject (rt_objects s) key = Some data → getObject (rt_objects s') key = Some data).
(** A step of the worker, or of the others. *)
Definition systemStep (s s' : Ret O) : Prop :=
  collectorStep w decodeGitHub decodeAzure s s' ∨ ∃ n, s' = cw_other v n s.
Context (Hothers : ∀ n s, keepsCollected s (cw_other v n s)).
Abbreviation R := (rtc systemStep).

#[local] Instance keeps_preorder : PreOrder keepsCollected.
Proof.
  split; [split; eauto|]. intros s1 s2 s3 [H1 H2] [H3 H4]. split; [|eauto].
  intros id r Hr. destruct (H1 id r Hr) as (r2 & Hr2 & <-). destruct (H3 id r2 Hr2) as (r3 & ? & <-). eauto.
Qed.
Lemma keeps_insert (d : DB) (o : O) id r r' :
  t_collections d !! id = Some r → sc_meta r' = sc_meta r →
  ∀ d', t_collections d' = <[id := r']> (t_collections d) → keepsCollected (mkRet d o) (mkRet d' o).
Proof.
  intros Hr Hm d' E. split; [|done]. simpl. intros k q Hq. rewrite E.
  destruct (decide (k = id)) as [->|]; [rewrite lookup_insert_eq; naive_solver|rewrite lookup_insert_ne by done; eauto].
Qed.
Lemma collectorStep_keeps s s' : collectorStep w decodeGitHub decodeAzure s s' → keepsCollected s s'.
Proof.
  destruct s as [d o]. intros [id r r' Hr Hm%rowStep_meta|key data Hn|p [d' o'] Hp]; simpl in *.
  - by eapply keeps_insert.
  - split; [eauto|]. simpl. intros k x Hk. destruct (decide (k = key)) as [->|]; [congruence|by rewrite get_put_other].
  - destruct Hp. simpl in *. subst.
    by apply (keeps_insert _ _ (colID (puJob p)) (puRow p) (publishedRow p)).
Qed.
Lemma system_keeps s s' : R s s' → keepsCollected s s'.
Proof.
  induction 1 as [|s1 s2 s3 [Hs%collectorStep_keeps|[n ->]] _ IH]; [reflexivity|..]; (etransitivity; [|exact IH]); done || apply Hothers.
Qed.

(** The row of the job is there, with the request that was claimed. *)
Definition claimed (job : sourceCollectionRecord) (s : Ret O) : Prop :=
  ∃ r, t_collections (rt_db s) !! colID job = Some r ∧ sc_meta r = sc_meta (colRow job).
#[local] Instance claimed_stable job : Stable R (claimed job).
Proof. intros s s' [H _]%system_keeps (r & Hr & Hm). destruct (H _ _ Hr) as (r' & ? & ?). exists r'. by split; [|congruence]. Qed.
Definition stored job ordinal records rows (s : Ret O) : Prop := storedAs w (rt_objects s) job ordinal records rows.
#[local] Instance stored_stable job ordinal records rows : Stable R (stored job ordinal records rows).
Proof.
  intros s s' [_ H]%system_keeps. unfold stored. revert ordinal rows.
  induction records as [|r records IH]; intros ordinal [|e rows]; simpl; try done.
  intros [(key & ? & Ho & Hk) ?]. split; [|by apply IH]. exists key. split_and!; [done|by apply H|apply Hk..].
Qed.

(** *** The statements *)

Lemma system_row d (o : O) id r' d' : movesRow d id r' d' → R (mkRet d o) (mkRet d' o).
Proof. intros (r & Hr & Hstep & ->). apply rtc_once. left. by apply (step_row _ _ _ (mkRet d o) id r r'). Qed.

Lemma steps_others : Steps R (others v).
Proof. intros env n s. apply rtc_once. right. eauto. Qed.
Lemma runs_then {A} (I : Ret O → Prop) (m : M (Ret O) A) Q : Stable R I → Runs R I m Q → Runs R I (then_ v m) Q.
Proof.
  intros HI Hm env n s Hs. assert (Ho : R s (cw_other v n s)) by (apply rtc_once; right; eauto).
  destruct (Hm env (n + 1)%nat (cw_other v n s)) as [H1 H2]; [by eapply HI|]. split; [by etransitivity|done].
Qed.
#[local] Instance and_stable (I J : Ret O → Prop) : Stable R I → Stable R J → Stable R (λ s, I s ∧ J s).
Proof. intros HI HJ s s' Hs [? ?]. split; [by eapply HI|by eapply HJ]. Qed.
#[local] Instance true_stable : Stable R (λ _, True).
Proof. by intros ? ?. Qed.
Lemma runs_any {A} (P : Ret O → Prop) (m : M (Ret O) A) : Steps R m → Runs R P m (λ _ _, True).
Proof. intros Hm env n s _. split; [apply Hm|done]. Qed.
Lemma steps_watch {A} (m : M DB A) : Steps (lifted R) m → Steps R (lift (watched (cw_cause v) m)).
Proof. intros H. apply (steps_lift R). intros env n d. apply H. Qed.
Lemma steps_settle job state failure :
  state ∈ [SBlocked; SFailed] → Steps R (cleanup v (settleSource job state failure)).
Proof.
  intros Hs. unfold cleanup, then_. apply steps_bind; [apply _|apply steps_others|]. intros _. apply (steps_lift R).
  assert (HP : PreOrder (lifted R)) by apply _.
  enough (Steps (lifted R) (settleSource job state failure)) as H by (intros env n d; apply H).
  unfold settleSource. apply steps_bind; [apply _| |intros; apply steps_guard, _]. apply infra_steps; [apply _|].
  apply steps_exec; [apply _|]. intros t d o.
  pose proof (updateCollection_inv (colWorkspace job) (colID job) (ownsCollection job) (endedCollection state failure t) d) as H.
  destruct (updateCollection _ _ _ _ d) as [k d']; simpl. destruct H as [(_ & r & Hr & _ & Ho & ->)|[_ ->]]; [|done].
  apply (system_row _ _ (colID job) (endedCollection state failure t r)). exists r. split_and!; [done| |done].
  constructor; [|done]. unfold ownsCollection in Ho. breflect_in Ho. by destruct Ho as [_ ?].
Qed.
Lemma steps_fail job cause : Steps R (cleanup v (failSource job cause)).
Proof. apply steps_settle, sourceFailure_state. Qed.
Lemma steps_settled m : Steps R (cleanup v m) → Steps R (settledError v m).
Proof. intros H. unfold settledError. steps. Qed.
Lemma steps_finishDenied job cause : Steps R (finishDeniedSource v job cause).
Proof. unfold finishDeniedSource. pose proof (steps_fail job cause). steps. Qed.
Lemma steps_cause : Steps R (collectCause v).
Proof. intros env n s. reflexivity. Qed.
Lemma steps_authority job lock : Steps (lifted R) (sourceAuthority job lock).
Proof. unfold sourceAuthority, lockWorkspace. assert (PreOrder (lifted R)) by apply _. steps. Qed.
Lemma steps_lease job : Steps (lifted R) (sourceLease job).
Proof. unfold sourceLease. assert (PreOrder (lifted R)) by apply _. steps. Qed.

(** *** Evidence *)

Lemma runs_putCollected P ws id data :
  Runs R P (putCollected w ws id data) (λ r s, match r with
    | Ok key => getObject (rt_objects s) key = Some data ∧ storageSegment ws = true ∧ storageSegment id = true ∧
        key = esPrefix (ccStore w) +:+ ws +:+ "/" +:+ id +:+ "/" +:+ hex (Sum256 data)
    | Err _ => True
    end).
Proof.
  intros env n s _. unfold putCollected, putOnce, writeObjects, headObject, readObject, handle, bind, guard, ret, throw.
  destruct (_ && _) eqn:Eseg; cbv beta iota zeta; [|split; [reflexivity|exact I]]. set (key := (_ +:+ _)%string).
  apply andb_true_iff in Eseg as [[Hws Hid]%andb_true_iff _].
  destruct (getObject (rt_objects s) key) as [x|] eqn:Eg; cbv beta iota zeta; [split; [reflexivity|exact I]|].
  assert (Hstore : R s (mkRet (rt_db s) (putObject key data (rt_objects s)))) by (by apply rtc_once; left; apply step_store).
  destruct (env_commit env n) eqn:Ec; cbv beta iota zeta; [|split; [reflexivity|exact I]|split; [exact Hstore|exact I]].
  destruct (env_fault env (n + 1)); cbv beta iota zeta; [split; [exact Hstore|exact I]|].
  simpl. rewrite get_put. simpl. rewrite Z.eqb_refl. simpl. split; [exact Hstore|].
  split; [apply get_put|done].
Qed.
Lemma runs_publishRecords job ordinal records P :
  Runs R P (publishSourceRecords w job ordinal records) (λ r s, match r with
    | Ok rows => stored job ordinal records rows s
    | Err _ => True
    end).
Proof.
  revert ordinal P. induction records as [|r records IH]; intros ordinal P; simpl.
  { intros env n s _. by split. }
  intros env n s _. unfold bind, ctxErr, guard, newID, ret, throw. cbv beta iota zeta.
  destruct (negb _); cbv beta iota zeta; [|split; [reflexivity|exact I]]. generalize (env_fresh env (n + 1)). intros id.
  destruct (runs_putCollected (λ _, True) (colWorkspace job) id (RecRaw r) env (n + 1 + 1)%nat s) as [H1 H2]; [done|].
  destruct (putCollected _ _ _ _ env _ s) as [[key|e] s1 n1]; simpl in *; [|done].
  destruct (IH (ordinal + 1) (λ _, True) env n1 s1) as [H3 H4]; [done|].
  destruct (publishSourceRecords _ _ _ _ env n1 s1) as [[rows|e] s2 n2]; simpl in *; [|split; [by etransitivity|done]].
  split; [by etransitivity|]. split; [|done]. destruct H2 as (Hg & Hws & Hid & Hkey). exists key.
  split_and!; [done| |done..]. by apply (proj2 (system_keeps _ _ H3)).
Qed.

(** *** The publication of a checked answer *)

Section answer.
Context (job : sourceCollectionRecord) (result : Collection) (repository : sourceRepository).
Context (cause : option collectError) (token : string).
Context (Hvalid : validateSourceResult decodeGitHub decodeAzure job result (ccLimits w) = inl repository).
Context (Hcomplete : cause = None → ColComplete result = true).
Let failure : option FindingDeliveryFailure := (λ e, sourceNativeFailure e token) <$> cause.

Lemma runs_finalize rows :
  Runs R (λ s, claimed job s ∧ stored job 0 (ColRecords result) rows s)
    (lift (access v (finalizeSource job result repository rows failure))) (λ _ _, True).
Proof.
  intros env n [d o] [(r & Hr & Hm) Hs]. split; [|done]. unfold lift, access, watched. simpl. set (env' := Build_Env _ _ _ _ _ _ _ _ _).
  assert (H : Steps (λ d1 d2, d1 = d → R (mkRet d o) (mkRet d2 o)) (transaction (finalizeSourceTx job result repository rows failure))).
  { intros env1 n1 s1. unfold transaction. destruct (finalizeSourceTx _ _ _ _ _ env1 n1 s1) as [[x|e] d' n'] eqn:E; simpl;
      [|intros ->; done].
    assert (s1 = d → R (mkRet d o) (mkRet d' o)).
    { intros ->. apply rtc_once. left. eapply (finalizeSourceTx_inv w decodeGitHub decodeAzure); [done..| |exact E].
      simpl in Hr. intros q Hq. congruence. }
    destruct (env_commit env1 n'); simpl; [done|by intros ->|done]. }
  specialize (H env' n d). unfold finalizeSource, handle.
  destruct (transaction _ env' n d) as [x d' n'] eqn:E; simpl in H.
  enough (Hd : ∀ k : M DB (), (∀ e m q, out_db (k e m q) = q) →
    R (mkRet d o) (out_db (match k env' n' d' with mkOut r' db n'' => mkOut r' (mkRet db o) n'' end))).
  { destruct x as [[]|e]; [apply Hd|destruct e; apply Hd]; intros; try done. }
  intros k Hk. specialize (Hk env' n' d'). destruct (k env' n' d') as [r' db m]. simpl in *. subst. auto.
Qed.

Lemma runs_publish : Runs R (claimed job) (publishCollected w v job result repository failure) (λ _ _, True).
Proof.
  unfold publishCollected. eapply runs_handle; [apply _| |].
  - apply (runs_weaken R (claimed job) (λ s, claimed job s ∧ True) _ _ (λ r s, claimed job s ∧ match r with
      | Ok rows => stored job 0 (ColRecords result) rows s | Err _ => True end)); [done|intros r s H; exact H|].
    apply runs_keep; [apply _|]. apply runs_then; [apply _|]. intros env n s _.
    by apply (runs_publishRecords job 0 (ColRecords result) (λ _, True)).
  - intros published. eapply (runs_bind _ _ _ (λ _ s, claimed job s ∧ match published with
      | Ok rows => stored job 0 (ColRecords result) rows s | Err _ => True end)); [|intros c|done].
    { intros env n s Hs. split; [apply steps_cause|done]. }
    destruct c as [e|]; [apply runs_any, steps_finishDenied|]. destruct published as [rows|e].
    + eapply runs_handle; [apply _|apply runs_then; [apply _|apply runs_finalize]|].
      intros r. apply runs_any. pose proof (steps_finishDenied job). steps.
    + apply runs_any. pose proof (steps_settled (failSource job e) (steps_fail job e)). steps.
Qed.
End answer.

(** *** The worker *)

Lemma runs_collect job source token :
  Runs R (claimed job) (collectSource w v decodeGitHub decodeAzure job source token) (λ _ _, True).
Proof.
  assert (Hset : ∀ m, Steps R (cleanup v m) → ∀ P, Runs R P (settledError v m) (λ _ _, True))
    by (intros; by apply runs_any, steps_settled).
  assert (Hsettle : ∀ f P, Runs R P (settledError v (settleSource job SFailed f)) (λ _ _, True))
    by (intros f; apply Hset, steps_settle; set_solver).
  assert (Hfail : ∀ e P, Runs R P (settledError v (failSource job e)) (λ _ _, True))
    by (intros e; apply Hset, steps_fail).
  unfold collectSource. apply (runs_bind _ _ _ (λ _, claimed job)); [|intros [result nativeErr]|done].
  { apply runs_then; [apply _|]. by intros env n s Hs. }
  apply (runs_bind _ _ _ (λ _, claimed job)); [by intros env n s Hs|intros [e|]|done].
  { apply runs_any, steps_finishDenied. }
  cbv zeta. destruct (validateSourceResult _ _ _ _ _) as [repository|e] eqn:Hv.
  - destruct nativeErr as [e|]; [|destruct (ColComplete result) eqn:Ec; [|apply Hsettle]].
    + destruct (otherRepository _ _); [apply Hfail|]. by apply (runs_publish job result repository (Some e) token).
    + destruct (otherRepository _ _); [apply Hfail|]. by apply (runs_publish job result repository None token).
  - destruct nativeErr; apply Hsettle.
Qed.
Lemma runs_process job source : Runs R (claimed job) (processSource w v decodeGitHub decodeAzure job source) (λ _ _, True).
Proof.
  assert (Hfail : ∀ e P, Runs R P (settledError v (failSource job e)) (λ _ _, True))
    by (intros e P; apply runs_any, steps_settled, steps_fail).
  unfold processSource. destruct (openCredential _ _ _) as [token|];
    [|apply runs_any, steps_settled, steps_settle; set_solver].
  destruct (ccEndpoint _ _); [|apply Hfail].
  apply (runs_bind _ _ _ (λ _, claimed job)); [by intros ? ? ? ?|intros [e|]; [apply Hfail|]|done].
  eapply (runs_handle _ _ _ (λ _, claimed job)).
  - apply runs_then; [apply _|]. apply runs_stable; [apply _|]. apply steps_watch.
    apply steps_bind; [apply _|apply steps_authority|intros; apply steps_lease].
  - intros [x|e]; [apply runs_collect|apply runs_any, steps_finishDenied].
Qed.

Lemma runs_claim :
  Runs R (λ _, True) (lift (access v (claimSource w))) (λ r s, match r with
    | Ok (Some (Some (job, _))) => claimed job s
    | _ => True
    end).
Proof.
  intros env n [d o] _. unfold lift, access, watched. simpl. set (env' := Build_Env _ _ _ _ _ _ _ _ _).
  assert (H : ∀ r d' n', transaction (claimSourceTx w) env' n d = mkOut r d' n' →
    R (mkRet d o) (mkRet d' o) ∧ match r with Ok (Some (Some (job, _))) => claimed job (mkRet d' o) | _ => True end).
  { intros res d1 n1. unfold transaction. destruct (claimSourceTx w env' n d) as [[x|e] d' n'] eqn:E; [|by intros [= <- <- _]].
    apply claimSourceTx_inv in E as [[-> ->]|(id & r' & Hmove & Hx)].
    { destruct (env_commit env' n'); by intros [= <- <- _]. }
    assert (HR : R (mkRet d o) (mkRet d' o)) by (by eapply system_row). destruct Hmove as (r & Hr & _ & Hd').
    destruct (env_commit env' n'); intros [= <- <- _]; try done. split; [done|].
    destruct Hx as [->|(source & -> & _)]; [done|]. exists r'. simpl. rewrite Hd'. simpl. by rewrite lookup_insert_eq. }
  unfold claimSource, handle. destruct (transaction _ env' n d) as [x d' n']. specialize (H _ _ _ eq_refl).
  destruct x as [c|e]; simpl; [done|]. destruct e; simpl; by destruct H.
Qed.

Lemma collector_run env n s :
  rtc systemStep s (out_db (ProcessNextSource w v decodeGitHub decodeAzure env n s)).
Proof.
  enough (H : Runs R (λ _, True) (ProcessNextSource w v decodeGitHub decodeAzure) (λ _ _, True)) by (by apply H).
  unfold ProcessNextSource. eapply runs_handle; [apply _|apply runs_then; [apply _|apply runs_claim]|].
  intros [[[[job source]|]|]|e]; [|apply runs_any; steps..].
  apply (runs_bind _ _ _ (λ _ _, True)); [apply runs_process|intros; apply runs_any; steps|done].
Qed.

(** C10: every call of the collection worker is a run of the abstract machine
    between the steps of other sessions, whatever they do as long as they keep
    the requests of collections and stored evidence, and whatever fails: the
    database, commits, the object store, the collector, the watcher of the
    authority.  In particular a collection is published in one step only, for
    a lease that is held, with the authority of the requester and the
    connection as they are at that moment, from a checked answer of the
    collector all of whose records are stored under the keys of the rows. *)
Theorem collector_refines env n s :
  rtc systemStep s (out_db (ProcessNextSource w v decodeGitHub decodeAzure env n s)).
Proof. apply collector_run. Qed.
End refinement.
