(* ===== verification/SourceLimits.v ===== *)
(** * A checked answer fits

    Valid UTF-8 consists of bytes.  What the checks of a collector's answer
    leave: few enough records with distinct identities and bounded fields. *)
From S2P Require Import Prelude GoLib Encoding Tx ReportAdapter Jobs Schema Auth Intake Paging Assets WorkViews Work Connections Deliveries DeliveryWorker RetentionStore StorageKeys Sources SourceCollections SourceWorker.
Local Open Scope Z_scope.

Lemma utf8Valid_bytes l : utf8Valid l = true → Forall (λ b, (b < 256)%N) l.
Proof.
  remember (length l) as n eqn:Hn. revert l Hn. induction n as [n IH] using lt_wf_ind; intros l ->.
  assert (Hrec : ∀ k, (length k < length l)%nat → utf8Valid k = true → Forall (λ b, (b < 256)%N) k)
    by (intros k Hk; by apply (IH (length k))).
  assert (Hc : ∀ b, cont b = true → (b < 256)%N).
  { intros b H. unfold cont in H. apply andb_true_iff in H as [_ H%N.leb_le]. lia. }
  destruct l as [|b0 l1]; simpl; [done|]. destruct (N.ltb_spec b0 128).
  { intros Hv. constructor; [lia|]. apply Hrec; simpl; [lia|done]. }
  destruct l1 as [|b1 l2]; [done|]. destruct (utf8two b0 b1) eqn:E2.
  { intros Hv. unfold utf8two in E2. apply andb_true_iff in E2 as [[_ ?%N.leb_le]%andb_true_iff ?%Hc].
    do 2 (constructor; [lia|]). apply Hrec; simpl; [lia|done]. }
  destruct l2 as [|b2 l3]; [done|]. destruct (utf8three b0 b1 b2) eqn:E3.
  { intros Hv. unfold utf8three, cont in E3. rewrite !andb_true_iff, !orb_true_iff, !andb_true_iff, !orb_true_iff, !andb_true_iff,
      !N.leb_le, !N.eqb_eq in E3.
    do 3 (constructor; [lia|]). apply Hrec; simpl; [lia|done]. }
  destruct l3 as [|b3 l4]; [done|]. destruct (utf8four b0 b1 b2 b3) eqn:E4; [|done].
  intros Hv. unfold utf8four, cont in E4. rewrite !andb_true_iff, !orb_true_iff, !andb_true_iff,
    !N.leb_le, !N.eqb_eq in E4.
  do 4 (constructor; [lia|]). apply Hrec; simpl; [lia|done].
Qed.

(** ** What the checks leave *)

Definition rawSize (r : NativeRecord) : Z := Z.of_nat (length (RecRaw r)).
Definition nativeIdentity (r : NativeRecord) : string := RecKind r +:+ ":" +:+ RecExternalID r.
Definition fits (limits : Limits) (r : NativeRecord) : Prop :=
  0 < rawSize r ≤ LimBytes limits ∧ 0 < len (RecRawURL r) ≤ 16384 ∧ len (RecLocation r) ≤ 4096 ∧
  len (RecState r) ≤ 256 ∧ len (RecSeverity r) ≤ 256.

Lemma len_positive s : s ≠ "" → 0 < len s.
Proof. destruct s; [done|]. unfold len. simpl. lia. Qed.

Lemma checkRecords_none limits total seen records : 0 ≤ total ≤ RetentionRuns.sourceEvidenceLimit →
  checkRecords limits total seen records = None →
  Forall (fits limits) records ∧ total + foldr Z.add 0 (rawSize <$> records) ≤ RetentionRuns.sourceEvidenceLimit ∧
  NoDup (nativeIdentity <$> records) ∧ ∀ r, r ∈ records → nativeIdentity r ∉ seen.
Proof.
  revert total seen. induction records as [|r records IH]; intros total seen Ht Hc.
  { split_and!; [constructor|simpl; lia|constructor|]. intros r Hr. by apply elem_of_nil in Hr. }
  cbn [checkRecords] in Hc. destruct (_ || _) eqn:E in Hc; [done|]. destruct (_ || _) eqn:E2 in Hc; [done|].
  fold (rawSize r) in *. fold (nativeIdentity r) in *.
  rewrite !orb_false_iff, !Z.ltb_ge, Z.eqb_neq in E. rewrite orb_false_iff, !bool_decide_eq_false in E2. destruct E2 as [Hn Hu].
  assert (0 ≤ rawSize r) by (unfold rawSize; lia).
  destruct (IH (total + rawSize r) ({[nativeIdentity r]} ∪ seen)) as (Hf & Hsum & Hnd & Hseen); [lia|done|].
  rewrite !fmap_cons. split_and!.
  - constructor; [|done]. pose proof (len_positive _ Hu). unfold fits. lia.
  - simpl. lia.
  - constructor; [|done]. intros (q & E3 & Hq)%list_elem_of_fmap. apply (Hseen q Hq). rewrite E3. set_solver.
  - intros q [->|Hq]%elem_of_cons; [done|]. specialize (Hseen q Hq). set_solver.
Qed.

Section kinds.
Context (decodeGitHub : list N → option (string * string)) (decodeAzure : list N → option (string * string * string)).
Definition hasKind (r : NativeRecord) : Prop := RecKind r ∈ recordKinds.

Lemma githubFindings_kinds native records : githubFindings native records = None → Forall hasKind records.
Proof.
  induction records as [|r records IH]; [constructor|]. cbn [githubFindings]. destruct (_ || _); [done|].
  destruct (_ || _) eqn:E; [done|]. intros H. constructor; [|by apply IH]. apply orb_false_iff in E as [E _].
  apply negb_false_iff, bool_decide_eq_true in E. unfold hasKind. rewrite E. unfold recordKinds. set_solver.
Qed.
Lemma github_kinds c records repository :
  validateGitHubSourceResult decodeGitHub c records = inl repository → Forall hasKind records.
Proof.
  destruct records as [|r records]; [constructor|]. unfold validateGitHubSourceResult. destruct (_ || _); [done|].
  destruct (RecKind r ==? "repository") eqn:Ek; [|done]. apply bool_decide_eq_true in Ek.
  destruct (decodeGitHub (RecRaw r)) as [[id name]|]; [|done]. destruct (_ || _); [done|].
  destruct (githubFindings id records) eqn:Ef; [done|]. intros _. constructor; [|by eapply githubFindings_kinds].
  unfold hasKind. rewrite Ek. unfold recordKinds. set_solver.
Qed.
Lemma azureRecords_kinds t s kinds name artifact records x : Forall (λ k, k ∈ recordKinds) kinds →
  azureRecords decodeAzure t s kinds name artifact records = inl x → Forall hasKind records.
Proof.
  intros Hk. revert kinds Hk name artifact. induction records as [|r records IH]; intros kinds Hk name artifact; [constructor|].
  destruct Hk as [|kind kinds Hkind Hk]; [done|]. cbn [azureRecords].
  destruct (RecKind r !=? kind) eqn:E; [done|]. apply negb_false_iff, bool_decide_eq_true in E.
  intros H. constructor; [unfold hasKind; by rewrite E|]. repeat case_match; try done; by eapply IH.
Qed.
Lemma azure_kinds t s records repository :
  validateAzureDevOpsSourceResult decodeAzure t s records = inl repository → Forall hasKind records.
Proof.
  unfold validateAzureDevOpsSourceResult. destruct (normalizeAzureDevOpsTarget t); [|done]. destruct (_ || _); [done|].
  destruct (azureRecords _ _ _ _ _ _ _) eqn:E; [|done]. intros _. eapply azureRecords_kinds; [|exact E].
  unfold expectedKinds, recordKinds. repeat constructor; set_solver.
Qed.

(** C26: an answer that passes the checks fits the tables.  With limits as the
    configuration normalizes them there are between 1 and 6401 records, of the
    kinds the table allows and with fields of bounded length, none of them
    empty or larger than the limit, altogether at most the evidence limit, no
    two with the same kind and identity, and at most 64 gaps of at most 256
    bytes: the CHECKs on ordinals, kinds and counts and the uniqueness of kind
    and identity cannot reject them when they are published. *)
Theorem checked_answer_fits configured limits job result repository :
  NormalizeCollectionLimits configured = Some limits →
  validateSourceResult decodeGitHub decodeAzure job result limits = inl repository →
  let records := ColRecords result in
  1 ≤ Z.of_nat (length records) ≤ 6401 ∧ Forall (fits limits) records ∧ Forall hasKind records ∧
  foldr Z.add 0 (rawSize <$> records) ≤ RetentionRuns.sourceEvidenceLimit ∧ NoDup (nativeIdentity <$> records) ∧
  (length (ColGaps result) ≤ 64)%nat ∧ Forall (λ gap, len gap ≤ 256) (ColGaps result).
Proof.
  intros Hl Hv. unfold NormalizeCollectionLimits in Hl. destruct (_ || _) eqn:El in Hl; [done|].
  rewrite !orb_false_iff, !Z.ltb_ge in El. unfold validateSourceResult in Hv.
  destruct (collectionScope _ _) as [[scope limit]|] eqn:Es; [|done].
  assert (Hlimit : limit ≤ 6401).
  { unfold collectionScope in Es. destruct (_ ==? _) in Es; [by repeat case_match; simplify_eq|]. injection Es as _ <-.
    injection Hl as <-. cbn [LimPages LimPageSize]. set (x := if LimPages _ =? 0 then _ else _). set (y := if LimPageSize _ =? 0 then _ else _).
    assert (0 ≤ x ≤ 64) by (unfold x; destruct (LimPages configured =? 0); lia). assert (0 ≤ y ≤ 100) by (unfold y; destruct (LimPageSize configured =? 0); lia).
    pose proof (Z.mul_le_mono_nonneg x 64 y 100). lia. }
  destruct (_ || _) eqn:Eb in Hv; [done|]. rewrite !orb_false_iff in Eb. destruct Eb as [[[_ Hne] Hmax] Hgaps].
  apply Nat.eqb_neq in Hne. apply Z.ltb_ge in Hmax. apply Nat.ltb_ge in Hgaps.
  destruct (checkRecords _ _ _ _) eqn:Ec; [done|].
  assert (H0 : 0 ≤ 0 ≤ RetentionRuns.sourceEvidenceLimit) by (vm_compute; done).
  destruct (checkRecords_none _ _ _ _ H0 Ec) as (Hf & Hsum & Hnd & _). destruct (existsb _ _) eqn:Ee; [done|].
  split_and!; try done; try lia.
  - destruct (_ ==? _); [by eapply github_kinds|]. repeat case_match; try done; by eapply azure_kinds.
  - apply Forall_forall. intros gap Hg. rewrite <- not_true_iff_false, existsb_exists in Ee.
    destruct (256 <? len gap) eqn:E; [|by apply Z.ltb_ge in E]. destruct Ee. exists gap. split; [by apply list_elem_of_In|done].
Qed.
End kinds.
