(* ===== verification/SourceInvariant.v ===== *)
(** * What holds of collections and their records

    The rows of a collection by state, the records of finished collections,
    and the repository a connection is pinned to: an invariant of the abstract
    machine of [SourceRuns] and of the requests. *)
From S2P Require Import Prelude GoLib Encoding Tx ReportAdapter Schema Auth Intake Paging Assets WorkViews Work Connections Deliveries DeliveryWorker DeliveryProps RetentionStore RetentionFence Sources SourceCollections SourceWorker SourceRuns.
Local Open Scope Z_scope.

(** A collection has the columns of its state and is tried once: the fence
    counts the claim and at most one expiry. *)
Definition collection_ok (r : CollectionRow) : Prop :=
  let j := sc_job r in
  sc_binding_digest (sc_meta r) = sourceCollectionBinding (sc_intent (sc_meta r)) ∧
  match sc_state j with
  | SQueued => j = queuedCollection
  | SCollecting => is_Some (sc_worker_id j) ∧ sc_fence j = 1 ∧ is_Some (sc_lease_until j) ∧ sc_complete j = false ∧
      sc_asset_id j = None ∧ sc_record_count j = 0 ∧ sc_completed_at j = None ∧ sc_failure j = None
  | SSucceeded | SPartial => sc_fence j = 1 ∧ sc_lease_until j = None ∧ is_Some (sc_completed_at j) ∧
      is_Some (sc_collected_at j) ∧ is_Some (sc_asset_id j) ∧ 0 < sc_record_count j ∧
      sc_complete j = (sc_state j ==? SSucceeded) ∧ (sc_state j = SSucceeded → sc_failure j = None)
  | SBlocked | SFailed => 1 ≤ sc_fence j ≤ 2 ∧ sc_lease_until j = None ∧ is_Some (sc_completed_at j) ∧
      is_Some (sc_failure j) ∧ sc_complete j = false ∧ sc_asset_id j = None ∧ sc_record_count j = 0
  end.

(** The records of a finished collection are numbered without a gap; another
    collection has none. *)
Definition recordAt (d : DB) (collection : string) (ordinal : Z) (id : string) : Prop :=
  ∃ q, t_sourceRecords d !! id = Some q ∧ sr_collection_id q = collection ∧ sr_ordinal q = ordinal.
Definition records_ok (d : DB) : Prop :=
  (∀ id q, t_sourceRecords d !! id = Some q →
    ∃ r, t_collections d !! sr_collection_id q = Some r ∧ finishedCollection r = true ∧
      sr_workspace_id q = sc_workspace_id (sc_intent (sc_meta r)) ∧ 0 ≤ sr_ordinal q < sc_record_count (sc_job r)) ∧
  (∀ collection r ordinal, t_collections d !! collection = Some r → finishedCollection r = true →
    0 ≤ ordinal < sc_record_count (sc_job r) → exists! id, recordAt d collection ordinal id).

(** The connection of a finished collection is pinned to its repository. *)
Definition pinned_ok (d : DB) : Prop := ∀ id r, t_collections d !! id = Some r → finishedCollection r = true →
  ∃ source pinned repository,
    sourceOf (sc_workspace_id (sc_intent (sc_meta r))) (sc_source_id (sc_intent (sc_meta r))) d = Some source ∧
    so_repository_id source = Some pinned ∧ sc_repository_id (sc_job r) = Some repository ∧ EqualFold pinned repository = true.

Definition keys_ok (d : DB) : Prop := ∀ id1 id2 r1 r2, t_collections d !! id1 = Some r1 → t_collections d !! id2 = Some r2 →
  sc_workspace_id (sc_intent (sc_meta r1)) = sc_workspace_id (sc_intent (sc_meta r2)) →
  sc_idempotency_key (sc_meta r1) = sc_idempotency_key (sc_meta r2) → id1 = id2.

Record sourcesOK (d : DB) : Prop := {
  ok_rows : ∀ id r, t_collections d !! id = Some r → collection_ok r;
  ok_records : records_ok d; ok_pinned : pinned_ok d; ok_keys : keys_ok d }.

Lemma sourcesOK_empty d : t_collections d = ∅ → t_sourceRecords d = ∅ → sourcesOK d.
Proof.
  intros Hc Hr. split; unfold records_ok, pinned_ok, keys_ok;
    [|split|..]; intros *; rewrite ?Hc, ?Hr, ?lookup_empty; done.
Qed.

(** ** Changes of a row *)

Lemma finished_state r : finishedCollection r = true ↔ sc_state (sc_job r) = SSucceeded ∨ sc_state (sc_job r) = SPartial.
Proof. unfold finishedCollection. rewrite orb_true_iff, !bool_decide_eq_true. done. Qed.

Lemma rowStep_unfinished d r r' : rowStep d r r' → finishedCollection r = false ∧ finishedCollection r' = false.
Proof.
  assert (Hn : ∀ q, sc_state (sc_job q) ∈ [SQueued; SCollecting; SBlocked; SFailed] → finishedCollection q = false).
  { intros q Hq. unfold finishedCollection. rewrite !bool_decide_eq_false_2; [done|intros E; rewrite E in Hq; set_solver..]. }
  destruct 1 as [? ? ? Hs|? denial ? Hs _|? ? ? Hs|? ? ? Hs Hst]; (split; apply Hn; [rewrite Hs; set_solver|]); simpl;
    try set_solver.
  - pose proof (sourceFailure_state denial). set_solver.
Qed.

Lemma rowStep_ok d r r' : rowStep d r r' → collection_ok r → collection_ok r'.
Proof.
  intros H [Hb Hj]. split; [by destruct H|]. destruct H as [? ? ? Hs|? denial ? Hs _|? ? ? Hs|state ? ? Hs Hst]; rewrite Hs in Hj.
  - simpl. rewrite Hj. simpl. eauto 10.
  - pose proof (sourceFailure_state denial) as Hd. simpl. rewrite Hj. simpl.
    apply elem_of_cons in Hd as [->|Hx%list_elem_of_singleton]; try rewrite Hx; split_and!; eauto; lia.
  - destruct Hj as (? & Hf & ? & ? & ? & ? & ? & ?). simpl. rewrite Hf. split_and!; eauto; lia.
  - destruct Hj as (? & Hf & ? & ? & ? & ? & ? & ?). simpl. rewrite Hf.
    apply elem_of_cons in Hst as [->|Hx%list_elem_of_singleton]; try rewrite Hx; split_and!; eauto; lia.
Qed.

(** A row moves among the unfinished ones. *)
Lemma move_ok d id r r' : t_collections d !! id = Some r → rowStep d r r' → sourcesOK d →
  sourcesOK (with_collections (<[id := r']> (t_collections d)) d).
Proof.
  intros Hr Hstep [Hrows [Hrec1 Hrec2] Hpin Hkeys]. pose proof (rowStep_unfinished _ _ _ Hstep) as [Hu Hu'].
  pose proof (rowStep_meta _ _ _ Hstep) as Hm.
  assert (Hfin : ∀ k q, <[id := r']> (t_collections d) !! k = Some q → finishedCollection q = true → t_collections d !! k = Some q).
  { intros k q Hk Hq. destruct (decide (k = id)) as [->|]; [rewrite lookup_insert_eq in Hk; congruence|].
    by rewrite lookup_insert_ne in Hk by done. }
  split; simpl.
  - intros k q Hk. destruct (decide (k = id)) as [->|]; [|rewrite lookup_insert_ne in Hk by done; eauto].
    rewrite lookup_insert_eq in Hk. simplify_eq. eapply rowStep_ok; eauto.
  - split; simpl; [|intros k q i Hk Hq; by apply Hrec2; [apply Hfin|]].
    intros k q Hk. destruct (Hrec1 k q Hk) as (c & Hc & Hcf & ?). exists c. split; [|done].
    rewrite lookup_insert_ne; [done|]. intros ->. congruence.
  - intros k q Hk Hq. apply (Hpin k q); [by apply Hfin|done].
  - intros k1 k2 q1 q2. simpl. intros H1 H2. destruct (decide (k1 = id)) as [->|], (decide (k2 = id)) as [->|];
      rewrite ?lookup_insert_eq, ?lookup_insert_ne in H1 by done; rewrite ?lookup_insert_eq, ?lookup_insert_ne in H2 by done;
      simplify_eq; rewrite ?Hm; eauto.
Qed.

(** ** The publication *)

Section publication.
Context {O : Type} `{OS : !ObjectService O} (w : collectorConfig).
Context (decodeGitHub : list N → option (string * string)) (decodeAzure : list N → option (string * string * string)).

Lemma storedAs_rows (o : O) job k records rows :
  storedAs w o job k records rows → length rows = length records ∧
  ∀ i e, rows !! i = Some e → sr_collection_id (evRow e) = colID job ∧ sr_workspace_id (evRow e) = colWorkspace job ∧
    sr_ordinal (evRow e) = k + Z.of_nat i.
Proof.
  revert k rows. induction records as [|r records IH]; intros k [|e rows]; simpl; try done.
  intros [(key & He & _) [Hlen Hrest]%IH]. split; [by f_equal|]. intros [|i] e' Hi; simpl in Hi.
  - simplify_eq. rewrite He. simpl. split_and!; [done..|lia].
  - destruct (Hrest i e' Hi) as (? & ? & ->). split_and!; [done..|lia].
Qed.

Lemma valid_nonempty job result repository :
  validateSourceResult decodeGitHub decodeAzure job result (ccLimits w) = inl repository → (0 < length (ColRecords result))%nat.
Proof.
  unfold validateSourceResult. destruct (collectionScope _ _) as [[scope limit]|]; [|done].
  destruct (length (ColRecords result)) eqn:E; [|lia]. simpl. by rewrite orb_true_r.
Qed.

Lemma elem_of_rowsTable rows id q : NoDup (evID <$> rows) →
  rowsTable rows !! id = Some q ↔ ∃ i e, rows !! i = Some e ∧ evID e = id ∧ evRow e = q.
Proof.
  intros Hnd. unfold rowsTable. rewrite <- elem_of_list_to_map by (by rewrite <- list_fmap_compose).
  rewrite list_elem_of_fmap. split.
  - intros (e & [= -> ->] & [i Hi]%list_elem_of_lookup_1). eauto.
  - intros (i & e & Hi & <- & <-). exists e. split; [done|]. by eapply list_elem_of_lookup_2.
Qed.

Lemma EqualFold_eq a b : EqualFold a b = true ↔ foldBytes (bytes a) = foldBytes (bytes b).
Proof. apply bool_decide_eq_true. Qed.

(** What the pinning leaves of a connection. *)
Lemma sourceOf_pin ws id repository d ws' id' source :
  sourceOf ws' id' d = Some source →
  sourceOf ws' id' (pinSource ws id repository d) =
    Some (if bool_decide (ws' = ws ∧ id' = id) then pinnedSource repository source else source).
Proof.
  intros Hs. pose proof Hs as Hs'. unfold sourceOf in Hs'. destruct (t_sources d !! id') as [r|] eqn:Er; [|done].
  destruct (so_workspace_id r ==? ws') eqn:Ew; [|done]. apply bool_decide_eq_true in Ew. simplify_eq.
  unfold pinSource. case_bool_decide as E.
  - destruct E as [<- ->]. rewrite Hs. unfold sourceOf. simpl. rewrite lookup_insert_eq. simpl. by rewrite bool_decide_eq_true_2.
  - destruct (sourceOf ws id d) as [q|] eqn:Eq; [|done]. unfold sourceOf. simpl.
    destruct (decide (id' = id)) as [->|]; [|by rewrite lookup_insert_ne, Er, bool_decide_eq_true_2].
    unfold sourceOf in Eq. rewrite Er in Eq. destruct (so_workspace_id source ==? ws) eqn:Ew; [|done].
    apply bool_decide_eq_true in Ew. by destruct E.
Qed.

Section published.
Context (p : publication) (s s' : Ret O).
Context (Hp : publishes w decodeGitHub decodeAzure p s s') (Hok : sourcesOK (rt_db s)).
Let id : string := colID (puJob p).

Lemma published_row :
  finishedCollection (puRow p) = false ∧ finishedCollection (publishedRow p) = true ∧ collection_ok (publishedRow p) ∧
  colWorkspace (puJob p) = sc_workspace_id (sc_intent (sc_meta (puRow p))).
Proof.
  destruct Hp as [Hvalid Hcomplete Hst Hr Hm Hheld _ _ _ _ _ _]. apply storedAs_rows in Hst as [Hlen _].
  apply valid_nonempty in Hvalid. unfold leasesCollection, ownsCollection in Hheld. breflect_in Hheld.
  destruct Hheld as [[[_ _] Hstate] _]. pose proof (ok_rows _ Hok id _ Hr) as [Hb Hj]. rewrite Hstate in Hj.
  destruct Hj as (_ & Hf & _). split_and!.
  - unfold finishedCollection. by rewrite Hstate.
  - apply finished_state. unfold publishedRow, publishedCollection. simpl. destruct (isSome _ || _); auto.
  - split; [done|]. unfold publishedRow, publishedCollection. simpl. rewrite Hf.
    destruct (puError p); simpl; [rewrite andb_false_r|rewrite Hcomplete by done; simpl]; split_and!; first [done|lia|by eauto].
  - unfold colWorkspace, colIntent. by rewrite Hm.
Qed.
Lemma published_none k q : t_sourceRecords (rt_db s) !! k = Some q → sr_collection_id q ≠ id.
Proof.
  intros Hk E. destruct (proj1 (ok_records _ Hok) k q Hk) as (c & Hc & Hcf & _). rewrite E in Hc. unfold id in Hc.
  rewrite (pub_row _ _ _ _ _ _ Hp) in Hc. destruct published_row as [? _]. congruence.
Qed.
(** The records are the old ones and those of the collection. *)
Lemma published_table k q : t_sourceRecords (rt_db s') !! k = Some q ↔
  t_sourceRecords (rt_db s) !! k = Some q ∨
  ∃ i e, puRows p !! i = Some e ∧ evID e = k ∧ evRow e = q ∧ sr_collection_id q = id ∧
    sr_workspace_id q = colWorkspace (puJob p) ∧ sr_ordinal q = Z.of_nat i.
Proof.
  destruct Hp as [_ _ Hst _ _ _ _ _ _ [Hnd Hfresh] _ ->]. apply storedAs_rows in Hst as [_ Hst]. simpl.
  rewrite lookup_union_Some, elem_of_rowsTable by done || (apply map_disjoint_spec; intros j x y;
    rewrite elem_of_rowsTable by done; intros (i & e & Hi & <- & _); rewrite Hfresh; [done|by eapply list_elem_of_lookup_2]).
  split; [|naive_solver]. intros [(i & e & Hi & He & Hq)|]; [|by left]. right. exists i, e.
  destruct (Hst i e Hi) as (? & ? & ?). subst. split_and!; done || lia.
Qed.
Lemma published_collections k c : t_collections (rt_db s') !! k = Some c →
  k = id ∧ c = publishedRow p ∨ k ≠ id ∧ t_collections (rt_db s) !! k = Some c.
Proof.
  rewrite (pub_db _ _ _ _ _ _ Hp). simpl. fold id. destruct (decide (k = id)) as [->|];
    [rewrite lookup_insert_eq; naive_solver|rewrite lookup_insert_ne by done; auto].
Qed.

Lemma published_records : records_ok (rt_db s').
Proof.
  destruct published_row as (Hu & Hf & _ & Hws). destruct (ok_records _ Hok) as [Hrec1 Hrec2].
  assert (Hcount : sc_record_count (sc_job (publishedRow p)) = Z.of_nat (length (puRows p))) by done.
  assert (Hnew : t_collections (rt_db s') !! id = Some (publishedRow p)).
  { rewrite (pub_db _ _ _ _ _ _ Hp). apply lookup_insert_eq. }
  split.
  - intros k q [Hk|(i & e & Hi & _ & _ & Hc & Hw & ->)]%published_table.
    + destruct (Hrec1 k q Hk) as (c & Hc & ?). exists c. split; [|done]. rewrite (pub_db _ _ _ _ _ _ Hp). simpl.
      rewrite lookup_insert_ne; [done|]. intros E. by apply published_none in Hk.
    + exists (publishedRow p). rewrite Hc, Hcount, Hw, Hws. apply lookup_lt_Some in Hi. split_and!; done || lia.
  - intros k c ordinal [[-> ->]|[Hne Hk]]%published_collections Hcf Ho.
    + rewrite Hcount in Ho. destruct (lookup_lt_is_Some_2 (puRows p) (Z.to_nat ordinal)) as [e He]; [lia|].
      assert (Hi : ∀ k' q, t_sourceRecords (rt_db s') !! k' = Some q → sr_collection_id q = id → sr_ordinal q = ordinal → k' = evID e).
      { intros k' q [Hk'|(i & e' & He' & <- & _ & _ & _ & Hq)]%published_table Hc Hord; [by apply published_none in Hk'|].
        assert (i = Z.to_nat ordinal) as -> by lia. congruence. }
      exists (evID e). split; [|intros k' (q & ? & ? & ?); symmetry; by eapply Hi].
      assert (Hst := proj2 (storedAs_rows _ _ _ _ _ (pub_stored _ _ _ _ _ _ Hp)) _ _ He). destruct Hst as (? & ? & ?).
      exists (evRow e). split_and!; [|done|lia]. apply published_table. right. exists (Z.to_nat ordinal), e. split_and!; done || lia.
    + destruct (Hrec2 k c ordinal Hk Hcf Ho) as (i & (q & Hi & Hc & Hq) & Huniq). exists i. split.
      { exists q. split_and!; [|done..]. apply published_table. by left. }
      intros k' (q' & [Hk'|(? & ? & _ & _ & _ & E & _)]%published_table & ? & ?); [|congruence]. apply Huniq. by exists q'.
Qed.

Lemma published_pinned : pinned_ok (rt_db s').
Proof.
  assert (Hsrc : ∀ ws k source, sourceOf ws k (rt_db s) = Some source → sourceOf ws k (puLinked p) = Some source).
  { intros ws k source. destruct (pub_links _ _ _ _ _ _ Hp) as [[_ ->]|(_ & _ & t & ->)]; done. }
  intros k c Hk Hcf. rewrite (pub_db _ _ _ _ _ _ Hp).
  change (∃ source pinned repository, sourceOf (sc_workspace_id (sc_intent (sc_meta c))) (sc_source_id (sc_intent (sc_meta c)))
      (pinSource (colWorkspace (puJob p)) (sc_source_id (puIntent p)) (RepoID (puRepository p)) (puLinked p)) = Some source ∧
    so_repository_id source = Some pinned ∧ sc_repository_id (sc_job c) = Some repository ∧ EqualFold pinned repository = true).
  apply published_collections in Hk as [[-> ->]|[Hne Hk]].
  - destruct (pub_authority _ _ _ _ _ _ Hp) as (_ & Hs & _). apply Hsrc in Hs.
    assert (E : sc_meta (publishedRow p) = sc_meta (colRow (puJob p))) by (rewrite <- (pub_meta _ _ _ _ _ _ Hp); done).
    rewrite E. erewrite sourceOf_pin by exact Hs. rewrite bool_decide_eq_true_2 by done.
    eexists _, _, _. split_and!; [done..|]. by apply EqualFold_eq.
  - destruct (ok_pinned _ Hok k c Hk Hcf) as (source & pinned & repository & Hs & Hpin & Hr & He).
    erewrite sourceOf_pin by (by apply Hsrc). case_bool_decide as E; [|eauto 10]. eexists _, _, repository.
    split_and!; [done..|]. destruct E as [E1 E2]. rewrite E1, E2 in Hs.
    destruct (pub_authority _ _ _ _ _ _ Hp) as (_ & Hs' & _). unfold colWorkspace, puIntent in *. simplify_eq.
    pose proof (pub_pinned _ _ _ _ _ _ Hp) as Ho. unfold otherRepository in Ho. rewrite Hpin in Ho.
    apply negb_false_iff in Ho. rewrite EqualFold_eq in *. congruence.
Qed.

Lemma publish_ok : sourcesOK (rt_db s').
Proof.
  destruct published_row as (_ & _ & Hrow & Hws). pose proof (pub_row _ _ _ _ _ _ Hp) as Hr. split.
  - intros k c [[-> ->]|[_ Hk]]%published_collections; [done|]. by eapply ok_rows.
  - apply published_records.
  - apply published_pinned.
  - intros k1 k2 c1 c2 [[-> ->]|[_ H1]]%published_collections [[-> ->]|[_ H2]]%published_collections Hw Hk; [done|..];
      by eapply (ok_keys _ Hok).
Qed.
End published.
End publication.

(** ** Requests *)

(** A change of connections that keepsCollected every connection, its workspace and the
    repository it is pinned to. *)
Lemma sources_change m d : sourcesOK d →
  (∀ ws id source, sourceOf ws id d = Some source → ∃ source', sourceOf ws id (with_sources m d) = Some source' ∧
    so_repository_id source' = so_repository_id source) →
  sourcesOK (with_sources m d).
Proof.
  intros [Hrows Hrec Hpin Hkeys] Hs. split; [done..| |done]. intros k c Hk Hf.
  destruct (Hpin k c Hk Hf) as (source & pinned & repository & Hso & Hp & ?).
  apply Hs in Hso as (source' & Hso & E). exists source', pinned, repository. by rewrite E.
Qed.

Lemma createSource_ok `{GW : !Gateway} keyed nonce ws session i :
  Steps (preserves sourcesOK) (createSource keyed nonce ws session i).
Proof.
  unfold createSource, createSourceTx, sourceSessionRole, lockWorkspace, sessionRole. steps.
  apply steps_insertInto; [apply _|]. intros d _ Hfresh Hok. apply sources_change; [done|].
  intros ws' id source Hs. exists source. split; [|done]. unfold sourceOf in *. simpl. rewrite lookup_insert_ne; [done|].
  intros <-. by rewrite Hfresh in Hs.
Qed.
Lemma updateSource_ok `{GW : !Gateway} keyed nonce ws session id p :
  Steps (preserves sourcesOK) (updateSource keyed nonce ws session id p).
Proof.
  unfold updateSource, updateSourceTx, sourceSessionRole, lockWorkspace, sessionRole, readSource. steps.
  apply steps_stmt; [apply _|]. intros t d x d' Hx Hok. destruct (sourceOf ws id d) as [old|] eqn:Es; [|done].
  destruct (sourceCheck _); [|done]. simplify_eq. apply sources_change; [done|]. intros ws' id' source Hs.
  unfold sourceOf in *. simpl. destruct (decide (id' = id)) as [->|]; [|rewrite lookup_insert_ne by done; eauto].
  destruct (t_sources d !! id) as [r|]; [|done]. rewrite lookup_insert_eq.
  destruct (so_workspace_id r ==? ws); [|done]. destruct (so_workspace_id r ==? ws') eqn:Ew; [|done]. simplify_eq.
  eexists. simpl. by rewrite Ew.
Qed.

Lemma insertCollection_ok id m : sc_binding_digest m = sourceCollectionBinding (sc_intent m) →
  Steps (preserves sourcesOK) (insertCollection id m).
Proof.
  intros Hb. apply steps_stmt; [apply _|]. intros t d x d' H [Hrows [Hrec1 Hrec2] Hpin Hkeys].
  destruct (negb _); [done|]. destruct (anyRow _ _) eqn:Ea; [by simplify_eq|]. unfold insertRow in H.
  destruct (t_collections d !! id) eqn:Ei; [done|]. destruct (collectionRefs _ _); [|done]. simplify_eq.
  set (row := {| sc_meta := m; sc_job := queuedCollection |}).
  assert (Hfin : ∀ k q, <[id := row]> (t_collections d) !! k = Some q → finishedCollection q = true → t_collections d !! k = Some q).
  { intros k q Hk Hq. destruct (decide (k = id)) as [->|]; [rewrite lookup_insert_eq in Hk; by simplify_eq|].
    by rewrite lookup_insert_ne in Hk by done. }
  assert (Hother : ∀ k q, t_collections d !! k = Some q → sc_workspace_id (sc_intent (sc_meta q)) = sc_workspace_id (sc_intent m) →
    sc_idempotency_key (sc_meta q) ≠ sc_idempotency_key m).
  { intros k q Hk Hw E. rewrite anyRow_false in Ea. specialize (Ea k q Hk). unfold sameCollectionKey, collectionIn in Ea.
    rewrite !bool_decide_eq_true_2 in Ea by done. done. }
  split; simpl.
  - intros k q Hk. destruct (decide (k = id)) as [->|]; [|rewrite lookup_insert_ne in Hk by done; eauto].
    rewrite lookup_insert_eq in Hk. by simplify_eq.
  - split; simpl; [|intros k q i Hk Hq; by apply Hrec2; [apply Hfin|]].
    intros k q Hk. destruct (Hrec1 k q Hk) as (c & Hc & ?). exists c. split; [|done].
    rewrite lookup_insert_ne; [done|]. intros ->. congruence.
  - intros k q Hk Hq. apply (Hpin k q); [by apply Hfin|done].
  - intros k1 k2 q1 q2. simpl. intros H1 H2. destruct (decide (k1 = id)) as [->|], (decide (k2 = id)) as [->|];
      rewrite ?lookup_insert_eq, ?lookup_insert_ne in H1 by done; rewrite ?lookup_insert_eq, ?lookup_insert_ne in H2 by done;
      simplify_eq; simpl; intros Hw Hk; [done|by destruct (Hother _ _ H2)|by destruct (Hother _ _ H1)|eauto].
Qed.
Lemma enqueue_ok configured ws session id i : Steps (preserves sourcesOK) (enqueueSourceCollection configured ws session id i).
Proof.
  unfold enqueueSourceCollection, enqueueSourceTx, sourceSessionRole, lockWorkspace, sessionRole, readSource.
  steps. by apply insertCollection_ok.
Qed.

(** ** The system *)

Section system.
Context {O : Type} `{GW : !Gateway} `{OS : !ObjectService O} `{OL : !ObjectLaws O}.
Context (w : collectorConfig) (v : CollectWorld (O:=O)).
Context (decodeGitHub : list N → option (string * string)) (decodeAzure : list N → option (string * string * string)).

(** C11: collections stay well formed under every request about connections and
    collections and every call of the collection worker, as long as the others
    keep it so: a row has exactly the columns of its state, is claimed at most
    once and bound to its request; the records of a finished collection are
    numbered from 0 to its count without gap or repetition, and no other
    collection has records; all finished collections of a connection come from
    the repository it is pinned to; and an idempotency key names one
    collection. *)
Theorem collections_wellformed keyed nonce ws session id :
  (∀ n s, keepsCollected s (cw_other v n s)) → (∀ n s, sourcesOK (rt_db s) → sourcesOK (rt_db (cw_other v n s))) →
  (∀ i, Steps (preserves sourcesOK) (createSource keyed nonce ws session i)) ∧
  (∀ p, Steps (preserves sourcesOK) (updateSource keyed nonce ws session id p)) ∧
  (∀ configured i, Steps (preserves sourcesOK) (enqueueSourceCollection configured ws session id i)) ∧
  Steps (preserves (λ s, sourcesOK (rt_db s))) (ProcessNextSource w v decodeGitHub decodeAzure).
Proof.
  intros Hkeeps Hothers. split_and!; [intros; apply createSource_ok|intros; apply updateSource_ok|intros; apply enqueue_ok|].
  intros env n s. unfold preserves.
  assert (H : rtc (systemStep w v decodeGitHub decodeAzure) s (out_db (ProcessNextSource w v decodeGitHub decodeAzure env n s)))
    by (by apply collector_run).
  induction H as [|s1 s2 s3 [Hs|[k ->]] _ IH]; [done|intros Hok; apply IH..]; [|by apply Hothers].
  destruct Hs as [i r r' Hr Hstep|key data _|p s2 Hp]; [by eapply move_ok|done|by eapply publish_ok].
Qed.
End system.
