(* ===== verification/SourceImports.v ===== *)
(** * Evidence and imports of collected reports

    What a reader gets of published evidence, and what an import of a
    collected report has checked: the composition of the evidence store, the
    collections and the intake of reports. *)
From S2P Require Import Prelude GoLib Encoding Tx ReportAdapter Schema Auth AuthProps Intake Reconcile ImportWorker Paging Assets ImportProps WorkViews Work Connections Deliveries DeliveryWorker DeliveryProps RetentionStore StorageKeys RetentionWorker RetentionRuns RetentionFence Sources SourceCollections SourceWorker SourceRuns SourceLimits.
Local Open Scope Z_scope.

(** ** The authority of an import *)

(** What an import of a collected report is allowed by: the session may import
    into the asset, the connection is enabled and as it was, the collection
    finished with that asset, and the record is its report. *)
Definition reportAuthorised (a : sourceImportAuthority) (d : DB) : Prop :=
  may_import (saSession a) (saWorkspace a) (saAsset a) d ∧
  (∃ source, sourceOf (saWorkspace a) (saSource a) d = Some source ∧ so_enabled source = true ∧
    so_profile source = ADOArtifacts ∧ so_revision source = saRevision a ∧ so_target source = Some (saTarget a)) ∧
  (∃ c, collectionOf (saWorkspace a) (saCollection a) d = Some c ∧ finishedCollection c = true ∧
    sc_asset_id (sc_job c) = Some (saAsset a) ∧
    let i := sc_intent (sc_meta c) in
    sc_source_id i = saSource a ∧ sc_profile i = ADOArtifacts ∧ sc_connection_revision i = saRevision a ∧
    sc_target i = Some (saTarget a) ∧ sc_selection i = Some (saSelection a)) ∧
  (∃ q, sourceRecordOf (saWorkspace a) (saCollection a) (saRecord a) d = Some q ∧ sr_kind q = "report").

Lemma checkAuthority_inv a env n d x d' n' :
  checkSourceImportAuthority a env n d = mkOut (Ok x) d' n' → d' = d ∧ reportAuthorised a d.
Proof.
  unfold checkSourceImportAuthority, readSource. intros H.
  apply bind_inv in H as (u & d1 & n1 & [-> Hmay]%authorizeIntake_inv & H).
  apply bind_inv in H as (source & d1 & n2 & [Hs ->]%query_inv & H).
  apply bind_inv in H as (u2 & d1 & n3 & [Hg ->]%guard_inv & H).
  apply bind_inv in H as (c & d1 & n4 & [Hc ->]%query_inv & H).
  apply bind_inv in H as (u3 & d1 & n5 & [Hg2 ->]%guard_inv & H).
  apply bind_inv in H as (q & d1 & n6 & [Hq ->]%query_inv & [Hk ->]%guard_inv).
  destruct (sourceOf _ _ d) as [s|] eqn:Es; [|done]. destruct (collectionOf _ _ d) as [c'|] eqn:Ec; [|done].
  destruct (_ && _) eqn:Ep in Hc; [|done]. destruct (sourceRecordOf _ _ _ d) as [q'|] eqn:Eq; [|done]. simplify_eq.
  breflect_in Hg. breflect_in Hg2. breflect_in Ep. apply bool_decide_eq_true in Hk. split; [done|]. split; [done|].
  destruct Hg as (((? & ?) & ?) & ?), Hg2 as ((((? & ?) & ?) & ?) & ?), Ep as [? ?]. split_and!; eauto 12.
Qed.
Lemma checkAuthority_pure a : Steps eq (checkSourceImportAuthority a).
Proof. unfold checkSourceImportAuthority, authorizeIntake, sessionRole, readSource. steps. Qed.

(** ** Acceptance under the authority *)

Section accept.
Context (registry : option Registry) (s3 : ObjectStore) (prefix : string) (limit : Z).
Context (workspace : string) (session : authenticatedSession) (i : importInput) (report : string) (a : sourceImportAuthority).
Let check : M DB importRecord := intakeCheck workspace session i (reportDigest (bytes report)) (metadataDigest i) true
  (Some (checkSourceImportAuthority a)).

(** The import found or made: its asset, its scan, its report. *)
Definition importedAs (record : importRecord) : Prop :=
  i_workspace_id (recMeta record) = workspace ∧ i_asset_id (recMeta record) = inAssetID i ∧
  i_source_id (recMeta record) = inSourceID i ∧ i_scan_id (recMeta record) = inScanID i ∧
  i_report_digest (recMeta record) = reportDigest (bytes report) ∧ i_metadata_digest (recMeta record) = metadataDigest i ∧
  SubmittedBy record = UserID (SessUser session).

Lemma check_inv env n d record d' n' :
  check env n d = mkOut (Ok record) d' n' →
  d' = d ∧ reportAuthorised a d ∧ t_imports d !! recID record = Some (recRow record) ∧ importedAs record.
Proof.
  unfold check, intakeCheck, sourceScan. intros H.
  apply bind_inv in H as (u & d1 & n1 & [-> _]%authorizeIntake_inv & H).
  apply bind_inv in H as (u2 & d1 & n2 & [-> Ha]%checkAuthority_inv & H).
  apply bind_inv in H as (existing & d1 & n3 & [Hs ->]%query_inv & H).
  apply bind_inv in H as (at_ & d1 & n4 & [_ ->]%now_inv & H).
  destruct (findRow _ _) as [[k row]|] eqn:Ef; [|done]. injection Hs as <-. apply findRow_Some in Ef as [Hrow Hkey].
  unfold replayAllowed in H. destruct (_ || _) eqn:Er in H; [done|]. destruct (negb (_ <? _)) in H; [done|].
  apply bind_inv in H as (u3 & d1 & n5 & [Hg ->]%guard_inv & H). apply ret_inv in H as [<- ->].
  split_and!; [done..|]. unfold sourceScanRow in Hkey. breflect_in Hkey. breflect_in Er. breflect_in Hg.
  unfold importedAs, recMeta in *. simpl in *. destruct Hkey as [[-> ->] ->], Er as [[[? ?] ?] ?], Hg as [|Hg]; [done|]. by split_and!.
Qed.
Lemma check_pure env n d r d' n' : newScan check env n d = mkOut r d' n' → d' = d.
Proof.
  intros H. assert (Hs : Steps eq (newScan check)).
  { unfold newScan, check, intakeCheck, authorizeIntake, sessionRole, sourceScan. pose proof (checkAuthority_pure a). steps. }
  specialize (Hs env n d). by rewrite H in Hs.
Qed.
Lemma newScan_found env n d record d' n' :
  newScan check env n d = mkOut (Ok (Some record)) d' n' → ∃ n1, check env n d = mkOut (Ok record) d' n1.
Proof.
  unfold newScan. intros H. apply handle_inv in H as (r & d1 & n1 & Hc & H).
  destruct r as [x|e]; [apply ret_inv in H as [[= ->] ->]; eauto|]. case_decide; by db_inv.
Qed.

Lemma accept_inv env n d status record d' n' :
  acceptImport registry s3 prefix limit workspace session i report true (Some (checkSourceImportAuthority a)) env n d
    = mkOut (Ok (status, record)) d' n' →
  reportAuthorised a d ∧ importedAs record ∧
  (d' = d ∧ t_imports d !! recID record = Some (recRow record) ∨
   t_imports d !! recID record = None ∧ i_state (i_job (recRow record)) = IQueued ∧
   d' = with_imports (<[recID record := recRow record]> (t_imports d)) d).
Proof.
  intros H. unfold acceptImport in H. db_inv.
  all: match goal with H : newScan _ _ _ _ = mkOut (Ok ?f) _ _ |- _ =>
    fold check in H; pose proof (check_pure _ _ _ _ _ _ H) as ->; match f with Some _ => apply newScan_found in H as [? H] | _ => idtac end end.
  - match goal with H : check _ _ _ = _ |- _ => apply check_inv in H as (_ & Ha & Hr & Hi) end.
    match goal with H : importReply _ = _ |- _ => injection H as <- <- end. auto 10.
  - match goal with H : acceptTx _ _ _ _ _ _ _ _ _ _ _ _ _ _ = _ |- _ => unfold acceptTx in H; fold check in H end.
    match goal with H : bind (newScan check) _ _ _ _ = _ |- _ => apply bind_inv in H as (found & d1 & n1 & Hf & H) end.
    pose proof (check_pure _ _ _ _ _ _ Hf) as ->. destruct found as [existing|].
    + apply newScan_found in Hf as [? (_ & Ha & Hr & Hi)%check_inv]. db_inv.
      match goal with H : importReply _ = _ |- _ => injection H as <- <- end. auto 10.
    + match goal with H : bind _ _ _ _ _ = _ |- _ => apply bind_inv in H as (at_ & d1 & n2 & [_ ->]%now_inv & H);
        apply bind_inv in H as (made & d1 & n3 & (t & Hn & -> & ->)%insertImport_inv & H);
        apply bind_inv in H as (u & d1 & n4 & [-> _]%authorizeIntake_inv & H);
        apply bind_inv in H as (u2 & d1 & n5 & [-> Ha]%checkAuthority_inv & H); apply ret_inv in H as [Hr ->] end.
      injection Hr as <- <-. split; [exact Ha|]. split; [by split_and!|]. by right.
Qed.
End accept.

(** ** Reading evidence *)

Section evidence.
Context {O : Type} `{OS : !ObjectService O}.

Lemma readCollected_inv st ws ref env n (s : Ret O) data s' n' :
  readCollected st ws ref env n s = mkOut (Ok data) s' n' →
  s' = s ∧ getObject (rt_objects s) (erKey ref) = Some data ∧ Z.of_nat (length data) = erSizeBytes ref ∧
  reportDigest data = erSHA256 ref.
Proof.
  unfold readCollected, readVerified. intros H. apply handle_inv in H as (r & s1 & n1 & Hr & H).
  destruct r as [x|e]; [|done]. apply ret_inv in H as [-> ->].
  apply bind_inv in Hr as (u & s2 & n2 & [_ ->]%guard_inv & Hr).
  apply bind_inv in Hr as (u2 & s2 & n3 & [_ ->]%guard_inv & Hr).
  apply bind_inv in Hr as (u3 & s2 & n4 & [_ ->]%guard_inv & Hr).
  apply bind_inv in Hr as (u4 & s2 & n5 & [_ ->]%guard_inv & Hr).
  apply bind_inv in Hr as (d & s2 & n6 & Hread & Hr).
  apply bind_inv in Hr as (u5 & s3 & n7 & [Hg ->]%guard_inv & [-> ->]%ret_inv).
  unfold readObject in Hread. injection Hread as Hread <- _. destruct (env_fault _ _); [done|].
  destruct (getObject _ _) as [o|] eqn:Eo; [|done]. simplify_eq. breflect_in Hg. by destruct Hg.
Qed.

Lemma readCollected_run st ws ref env n (s : Ret O) data :
  faultless env → erWorkspaceID ref = ws → erBucket ref = esBucket st → scopedKey (esPrefix st) ws (erKey ref) = true →
  getObject (rt_objects s) (erKey ref) = Some data → Z.of_nat (length data) = erSizeBytes ref →
  erSizeBytes ref ≤ sourceEvidenceLimit → reportDigest data = erSHA256 ref →
  out_res (readCollected st ws ref env n s) = Ok data.
Proof.
  intros (Hf & _ & _) Hw Hb Hk Ho Hlen Hmax Hd. unfold readCollected, readVerified, handle, bind, guard, readObject, ret, throw.
  rewrite (bool_decide_eq_true_2 _ Hw), (bool_decide_eq_true_2 _ Hb), Hk, <- Hd, digestPattern_report.
  rewrite (proj2 (Z.leb_le 0 _)), (proj2 (Z.leb_le _ _) Hmax) by lia. cbn [andb]. cbv beta iota zeta. rewrite Hf, Ho.
  cbv beta iota zeta. rewrite (proj2 (Z.eqb_eq _ _) Hlen), bool_decide_eq_true_2 by done. done.
Qed.

Context (w : collectorConfig).
Context (decodeGitHub : list N → option (string * string)) (decodeAzure : list N → option (string * string * string)).

Lemma checkRecords_size limits total seen records r : 0 ≤ total →
  checkRecords limits total seen records = None → r ∈ records → Z.of_nat (length (RecRaw r)) ≤ RetentionRuns.sourceEvidenceLimit.
Proof.
  revert total seen. induction records as [|q records IH]; intros total seen Ht Hc Hr; [by apply elem_of_nil in Hr|].
  cbn [checkRecords] in Hc. destruct (_ || _) eqn:E in Hc; [done|]. destruct (_ || _) in Hc; [done|].
  apply elem_of_cons in Hr as [->|Hr]; [|eapply IH; [|exact Hc|done]; lia].
  rewrite !orb_false_iff, !Z.ltb_ge in E. lia.
Qed.
Lemma valid_records job result repository r :
  validateSourceResult decodeGitHub decodeAzure job result (ccLimits w) = inl repository → r ∈ ColRecords result →
  Z.of_nat (length (RecRaw r)) ≤ RetentionRuns.sourceEvidenceLimit.
Proof.
  unfold validateSourceResult. destruct (collectionScope _ _) as [[scope limit]|]; [|done].
  destruct (_ || _) in |- *; [done|]. destruct (checkRecords _ _ _ _) eqn:Ec; [done|]. intros _. by apply (checkRecords_size _ 0 ∅ _ _ ltac:(lia) Ec).
Qed.

(** C25: published evidence reads back.  While its row and its object are kept,
    a reader of a published record gets the bytes the collector answered for
    it or an error, never anything else; and when nothing fails it gets them:
    the key the collector built under a prefix that passed the configuration's
    check is in the scope the reader accepts for the workspace. *)
Theorem evidence_reads_back p (s s' s3 : Ret O) i e r :
  publishes w decodeGitHub decodeAzure p s s' → puRows p !! i = Some e → ColRecords (puResult p) !! i = Some r →
  t_sourceRecords (rt_db s3) !! evID e = Some (evRow e) →
  (∀ key data, getObject (rt_objects s') key = Some data → getObject (rt_objects s3) key = Some data) →
  let read := sourceRecordEvidence (Some (ccStore w)) (colWorkspace (puJob p)) (colID (puJob p)) (evID e) in
  (∀ env n data, out_res (read env n s3) = Ok data → data = RecRaw r) ∧
  (∀ env n, faultless env → validStoragePrefix (esPrefix (ccStore w)) = true →
    out_res (read env n s3) = Ok (RecRaw r)).
Proof.
  intros Hp He Hr Hrow Hkept. pose proof (pub_stored _ _ _ _ _ _ Hp) as Hs.
  assert (Hi : ∀ k records rows, storedAs w (rt_objects s) (puJob p) k records rows → rows !! i = Some e → records !! i = Some r →
    ∃ key ordinal, e = evidenceRecord w (puJob p) (evID e) key ordinal r ∧ getObject (rt_objects s) key = Some (RecRaw r) ∧
      (validStoragePrefix (esPrefix (ccStore w)) = true → scopedKey (esPrefix (ccStore w)) (colWorkspace (puJob p)) key = true)).
  { clear. induction i as [|i IH]; intros k [|q records] [|f rows]; simpl; try done.
    - intros [(key & ? & ? & ? & ? & Ek) _] ? ?. simplify_eq. eexists _, _. split_and!; [done|done|].
      intros Hv. by apply collectedKey_scoped.
    - intros [_ H]. by eapply IH. }
  destruct (Hi _ _ _ Hs He Hr) as (key & ordinal & Ee & Ho & Hscoped). clear Hi.
  rewrite <- (pub_objects _ _ _ _ _ _ Hp) in Ho. apply Hkept in Ho.
  assert (Hsize : Z.of_nat (length (RecRaw r)) ≤ RetentionRuns.sourceEvidenceLimit)
    by (eapply valid_records; [exact (pub_valid _ _ _ _ _ _ Hp)|by eapply list_elem_of_lookup_2]).
  assert (Hof : sourceRecordOf (colWorkspace (puJob p)) (colID (puJob p)) (evID e) (rt_db s3) = Some (evRow e)).
  { unfold sourceRecordOf. rewrite Hrow, Ee. unfold recordIn. simpl. by rewrite !bool_decide_eq_true_2. }
  assert (Hev : sr_evidence (evRow e) = {| erWorkspaceID := colWorkspace (puJob p); erBucket := esBucket (ccStore w);
    erKey := key; erSHA256 := reportDigest (RecRaw r); erSizeBytes := Z.of_nat (length (RecRaw r)) |}) by (by rewrite Ee).
  split.
  - intros env n data H. unfold sourceRecordEvidence, bind, lift, readSourceRecord, query, stmt in H.
    destruct (_ || _) in H; [done|]. rewrite Hof in H. simpl in H.
    destruct (readCollected _ _ _ env _ _) as [res s4 n4] eqn:Erd. simpl in H. subst res.
    apply readCollected_inv in Erd as (_ & Hg & _). rewrite Hev in Hg. simpl in Hg. congruence.
  - intros env n Hok Hscope%Hscoped. unfold sourceRecordEvidence, bind at 1, lift, readSourceRecord. rewrite (run_query env Hok), Hof.
    apply readCollected_run; rewrite ?Hev in *; done.
Qed.
End evidence.

(** ** The import of a collected report *)

Section import.
Context {O : Type} `{OS : !ObjectService O}.
Context (registry : option Registry) (s3 : ObjectStore) (prefix : string) (limit maxUpload : Z).
Context (revoked : nat → option error) (others : nat → Ret O → Ret O) (store : option evidenceStore).

Lemma importContext_inv workspace collection record session env n d a q at_ d' n' :
  sourceImportContext workspace collection record session env n d = mkOut (Ok (a, q, at_)) d' n' →
  d' = d ∧ saWorkspace a = workspace ∧ saCollection a = collection ∧ saRecord a = record ∧ saSession a = session ∧
  sourceRecordOf workspace collection record d = Some q.
Proof.
  unfold sourceImportContext, importContextTx, getSourceCollection, readSourceRecord. intros H.
  apply transaction_inv in H as [n1 H]. apply bind_inv in H as (c & d1 & n2 & [_ ->]%query_inv & H). cbv zeta in H.
  apply bind_inv in H as (u & d1 & n3 & [_ ->]%guard_inv & H).
  destruct (if finishedCollection _ then _ else _) as [asset|]; [|done]. destruct (sc_collected_at _) as [collected|]; [|done].
  destruct (sc_target _) as [target|]; [|done]. destruct (sc_selection _) as [selection|]; [|done].
  destruct (normalizeAzureDevOpsTarget target) as [t|]; [|done].
  apply bind_inv in H as (u2 & d1 & n4 & [_ ->]%guard_inv & H).
  apply bind_inv in H as (e & d1 & n5 & [He ->]%query_inv & H).
  apply bind_inv in H as (u3 & d1 & n6 & [_ ->]%guard_inv & H).
  apply bind_inv in H as (u4 & d1 & n7 & [_ ->]%guard_inv & H).
  apply bind_inv in H as (u5 & d1 & n8 & [-> _]%checkAuthority_inv & H). apply ret_inv in H as [Hr ->].
  destruct (sourceRecordOf _ _ _ d); [|done]. by simplify_eq.
Qed.

(** C12: an import of a collected report brings in exactly what was collected,
    under the authority of the moment it is accepted in.  When it succeeds,
    the bytes the evidence store had for the record, with the digest and the
    size the record names, are the report of the import; its asset, source and
    scan are those of the collection; and in the database in which it was
    accepted the session could import into the asset, the connection was
    enabled and unchanged, the collection finished with that asset and the
    record its report.  An accepted import is either one that was there, and
    then nothing changed, or one new queued row. *)
Theorem import_is_collected workspace collection record session i env n s status imported s' n' :
  importSourceRecord registry s3 prefix limit maxUpload revoked others store workspace collection record session i env n s
    = mkOut (Ok (status, imported)) s' n' →
  ∃ a q data s1,
    sourceRecordOf workspace collection record (rt_db s) = Some q ∧
    (∃ k, getObject (rt_objects (others k s)) (erKey (sr_evidence q)) = Some data) ∧
    reportDigest data = erSHA256 (sr_evidence q) ∧ Z.of_nat (length data) = erSizeBytes (sr_evidence q) ∧
    saWorkspace a = workspace ∧ saCollection a = collection ∧ saRecord a = record ∧ saSession a = session ∧
    reportAuthorised a (rt_db s1) ∧
    WorkspaceOf imported = workspace ∧ i_asset_id (recMeta imported) = saAsset a ∧
    (i_source_id (recMeta imported), i_scan_id (recMeta imported)) = azureDevOpsImportIdentities (saTarget a) (saSelection a) ∧
    i_report_digest (recMeta imported) = erSHA256 (sr_evidence q) ∧
    SubmittedBy imported = UserID (SessUser session) ∧
    rt_objects s' = rt_objects s1 ∧
    (rt_db s' = rt_db s1 ∧ t_imports (rt_db s1) !! recID imported = Some (recRow imported) ∨
     t_imports (rt_db s1) !! recID imported = None ∧ i_state (i_job (recRow imported)) = IQueued ∧
     rt_db s' = with_imports (<[recID imported := recRow imported]> (t_imports (rt_db s1))) (rt_db s1)).
Proof.
  unfold importSourceRecord. intros H.
  apply bind_inv in H as (u & d1 & n1 & [_ ->]%guard_inv & H). apply bind_inv in H as (u2 & d1 & n2 & [_ ->]%guard_inv & H).
  destruct (RegistryValidateMapping _ _ _); [done|]. apply bind_inv in H as ([[a q] at_] & s1 & n3 & Hc & H).
  unfold lift in Hc. destruct (sourceImportContext _ _ _ _ _ _ _) as [r d' m] eqn:Ec. injection Hc as -> <- <-.
  apply importContext_inv in Ec as (-> & Hw & Hcol & Hrec & Hses & Hq). destruct store as [st|]; [|done].
  replace (mkRet (rt_db s) (rt_objects s)) with s in H by (by destruct s).
  apply bind_inv in H as (u3 & s1 & n4 & Ha & H). unfold among in Ha. injection Ha as _ <- <-. 
  apply handle_inv in H as (rd & s1 & n5 & Hread & H). unfold watched in Hread.
  apply bind_inv in H as (cause & s2 & n6 & Hcause & H). unfold watchCause in Hcause. injection Hcause as _ <- <-.
  destruct cause as [e|]; [done|]. destruct rd as [data|e]; [|done]. apply readCollected_inv in Hread as (-> & Hobj & Hlen & Hd).
  apply bind_inv in H as (u4 & s2 & n7 & [Hutf ->]%guard_inv & H). apply bind_inv in H as (u5 & s2 & n8 & [_ ->]%guard_inv & H).
  cbv zeta in H. apply bind_inv in H as (u6 & s2 & n9 & Ha & H). unfold among in Ha. injection Ha as _ <- <-.
  apply handle_inv in H as (acc & s2 & n10 & Hacc & H). unfold watched, lift in Hacc.
  apply bind_inv in H as (cause & s4 & n11 & Hcause & H). unfold watchCause in Hcause. injection Hcause as _ <- <-.
  destruct cause as [e|]; [done|]. apply fromRes_inv in H as [-> ->].
  match type of Hacc with context [acceptImport ?r ?x ?p ?l ?ws ?ss ?v ?rep ?b ?c ?en ?m0 ?d] =>
    destruct (acceptImport r x p l ws ss v rep b c en m0 d) as [res d2 m2] eqn:Eacc; injection Hacc as -> <- <-;
    apply accept_inv in Eacc as (Hauth & (E1 & E2 & E3 & E4 & E5 & E6 & E7) & Hdb) end.
  rewrite bytes_of_bytes in E5 by (by apply utf8Valid_bytes).
  eexists a, q, data, _. split_and!; try done; [by eexists|rewrite E3, E4; symmetry; apply surjective_pairing|congruence].
Qed.
End import.
