(* ===== verification/SourceExample.v ===== *)
(** * Source collection at work

    An Azure DevOps repository is connected, a build artifact is collected and
    its report imported. *)
From S2P Require Import Prelude GoLib Encoding Tx ReportAdapter Schema Auth AuthProps Intake Reconcile ImportWorker Paging Assets ImportProps WorkViews Work Connections Deliveries DeliveryWorker DeliveryExample DeliveryProps RetentionStore RetentionWorker RetentionFence Sources SourceCollections SourceWorker SourceRuns SourceLimits SourceInvariant SourceImports.
Local Open Scope Z_scope.

Abbreviation Bucket := (gmap string (list N)).
Definition sourceTargetX : AzureDevOpsTarget := {|
  Organization := "Contoso"; TargetProjectID := "AAAAAAAA-1111-2222-3333-444444444444";
  TargetRepositoryID := "bbbbbbbb-1111-2222-3333-444444444444" |}.
Definition aSource : sourceInput := {|
  srProfile := ADOArtifacts; srName := "Builds"; srRepository := {| IsSet := false; Value := None |};
  srToken := "secret-token"; srEnabled := Some true; srAzureDevOps := {| IsSet := true; Value := Some sourceTargetX |} |}.
(** The calm world with identifiers as the code draws them, 32 hexadecimal digits. *)
Definition calmHex : Env := {|
  env_clock := env_clock calm; env_now := env_now calm; env_nanos := env_nanos calm; env_fault := env_fault calm;
  env_commit := env_commit calm; env_done := env_done calm;
  env_fresh := λ n, "000000000000" +:+ formatPadded (Z.of_nat n); env_locked := env_locked calm;
  env_interval := env_interval calm |}.
Definition created := createSource true exampleNonce "ws" deliverySession aSource calmHex 0%nat deliveryDB.
Definition sourceID : string := match out_res created with Ok s => SrcID s | Err _ => "" end.
Definition sel (s : string) : optional string := {| IsSet := true; Value := Some s |}.
Definition aRequest (key : string) : collectionInput := {|
  ciIdempotencyKey := key; ciBuildID := sel "42"; ciArtifactName := sel "scan"; ciArtifactPath := sel "out/report.sarif" |}.
Definition enqueued := enqueueSourceCollection true "ws" deliverySession sourceID (aRequest "k1") calmHex 20%nat (out_db created).
Definition collectionID : string := match out_res enqueued with Ok (_, c) => colID c | Err _ => "" end.

(** The native records of the build. *)
Definition nativeRecord (kind external parent run : string) (raw : list N) : NativeRecord := {|
  RecKind := kind; RecExternalID := external; RecParentID := parent; RecNativeRunID := run; RecSeverity := "";
  RecState := "completed"; RecLocation := ""; RecRawURL := "https://dev.azure.com/contoso"; RecRaw := raw;
  RecSourceScanAt := None; RecSourceUpdatedAt := None |}.
Definition repositoryGUID : string := "bbbbbbbb-1111-2222-3333-444444444444".
Definition projectGUID : string := "aaaaaaaa-1111-2222-3333-444444444444".
Definition sarif : list N := bytes "{}".
Definition fourRecords : list NativeRecord := [
  nativeRecord "repository" repositoryGUID "" "" (bytes "repo"); nativeRecord "pipeline" "42" repositoryGUID "42" (bytes "build");
  nativeRecord "artifact" "7" repositoryGUID "42" (bytes "artifact");
  nativeRecord "report" "7:out/report.sarif" repositoryGUID "42" sarif].
Definition decodeAzureX (raw : list N) : option (string * string * string) :=
  if raw ==? bytes "repo" then Some (repositoryGUID, "shop", projectGUID) else None.
Definition decodeGitHubX (raw : list N) : option (string * string) := None.
(** The collector answers every request with these records. *)
Definition answering (records : list NativeRecord) (complete : bool) (request : CollectRequest) : Collection := {|
  ColIdentity := RqIdentity request; ColCollectedAt := 5000; ColComplete := complete; ColRecords := records; ColGaps := [] |}.
Definition calmSources : CollectWorld (O:=Bucket) := {|
  cw_other := λ _ s, s; cw_cause := λ _, None; cw_open := λ _, None;
  cw_collect := λ _ request, (answering fourRecords true request, None) |}.
Definition aCollector : collectorConfig := {|
  ccWorkerID := "c1"; ccLease := 60 * 1000000000; ccStore := {| esBucket := "evidence"; esPrefix := "collected/" |};
  ccLimits := {| LimRequests := 32; LimPages := 8; LimPageSize := 50; LimBytes := 1024 |}; ccKeyed := true;
  ccEndpoint := λ _, Some "https://dev.azure.com" |}.
Definition requested : Ret Bucket := mkRet (out_db enqueued) ∅.
Definition collectedRun := ProcessNextSource aCollector calmSources decodeGitHubX decodeAzureX calmHex 100%nat requested.
Definition collectedState : Ret Bucket := out_db collectedRun.
Definition reportID : string :=
  match findRow (λ _ r, sr_kind r ==? "report") (t_sourceRecords (rt_db collectedState)) with Some (id, _) => id | None => "" end.

(** ** Witnesses *)

Lemma calm_keeps n s : keepsCollected s (cw_other calmSources n s).
Proof. split; eauto. Qed.

(** The run that collects the build is a run of the machine, and it ends with
    a published collection of four records. *)
Lemma collector_refines_witness :
  rtc (systemStep aCollector calmSources decodeGitHubX decodeAzureX) requested collectedState ∧
  (sc_state ∘ sc_job <$> t_collections (rt_db collectedState) !! collectionID) = Some SSucceeded ∧
  size (t_sourceRecords (rt_db collectedState)) = 4%nat.
Proof.
  split; [|split; vm_compute; reflexivity].
  unfold collectedState, collectedRun. apply collector_refines. exact calm_keeps.
Defined.

(** From a database without collections to one with a published one. *)
Lemma collections_wellformed_witness :
  sourcesOK (rt_db collectedState) ∧
  (sc_state ∘ sc_job <$> t_collections (rt_db collectedState) !! collectionID) = Some SSucceeded.
Proof.
  split; [|vm_compute; reflexivity].
  destruct (collections_wellformed aCollector calmSources decodeGitHubX decodeAzureX true exampleNonce "ws" deliverySession
    sourceID calm_keeps (λ _ _ H, H)) as (Hcreate & _ & Henqueue & Hcollect).
  unfold collectedState, collectedRun. apply Hcollect. unfold requested. cbn [rt_db]. unfold enqueued. apply Henqueue.
  unfold created. apply Hcreate. apply sourcesOK_empty; reflexivity.
Defined.

(** The publication of that run. *)
Definition claimRun := claimSource aCollector calmHex 100%nat (rt_db requested).
Definition collectedJob : sourceCollectionRecord := Eval vm_compute in
  match out_res claimRun with Ok (Some (Some (job, _))) => job | _ => scanSourceCollection "" {| sc_meta := {| sc_intent := {|
    sc_workspace_id := ""; sc_source_id := ""; sc_profile := ""; sc_connection_revision := 0; sc_repository := "";
    sc_requested_by := ""; sc_target := None; sc_selection := None |}; sc_idempotency_key := ""; sc_binding_digest := [];
    sc_created_at := 0 |}; sc_job := queuedCollection |} end.
Definition anAnswer : Collection := answering fourRecords true (collectRequest collectedJob).
Definition aRepository : sourceRepository := Eval vm_compute in
  match validateSourceResult decodeGitHubX decodeAzureX collectedJob anAnswer (ccLimits aCollector) with
  | inl r => r | inr _ => {| RepoID := ""; RepoName := ""; RepoScopeKey := "" |} end.
Definition storing := publishSourceRecords aCollector collectedJob 0 fourRecords calmHex 130%nat (mkRet (out_db claimRun) (∅ : Bucket)).
Definition storedRows : list sourceEvidenceRecord := Eval vm_compute in match out_res storing with Ok rows => rows | Err _ => [] end.
Definition beforePublication : Ret Bucket := out_db storing.
Definition linking := linkAsset "ws" ADOArtifacts (RepoName aRepository) (RepoScopeKey aRepository) calmHex 150%nat (rt_db beforePublication).
Definition linkedAsset : string := Eval vm_compute in match out_res linking with Ok id => id | Err _ => "" end.
Definition aPublication : publication := {|
  puJob := collectedJob; puResult := anAnswer; puError := None; puToken := "secret-token"; puRepository := aRepository;
  puRows := storedRows; puAsset := linkedAsset;
  puSource := default (pinnedSource "" {| so_workspace_id := ""; so_profile := ""; so_name := ""; so_repository := "";
    so_enabled := false; so_ciphertext := []; so_revision := 0; so_repository_id := None; so_created_at := 0;
    so_updated_at := 0; so_target := None |}) (sourceOf "ws" sourceID (rt_db beforePublication));
  puRow := colRow collectedJob; puTime := 160000; puLinked := out_db linking |}.
(** A state after [p]. *)
Definition published_ (p : publication) (s : Ret Bucket) : Ret Bucket := mkRet
  (with_collections (<[colID (puJob p) := publishedRow p]> (t_collections (rt_db s)))
    (with_sourceRecords (rowsTable (puRows p) ∪ t_sourceRecords (rt_db s))
      (pinSource (colWorkspace (puJob p)) (sc_source_id (puIntent p)) (RepoID (puRepository p)) (puLinked p))))
  (rt_objects s).
Lemma publishes_intro w decodeGitHub decodeAzure p (s : Ret Bucket) :
  validateSourceResult decodeGitHub decodeAzure (puJob p) (puResult p) (ccLimits w) = inl (puRepository p) →
  ColComplete (puResult p) = true → storedAs w (rt_objects s) (puJob p) 0 (ColRecords (puResult p)) (puRows p) →
  t_collections (rt_db s) !! colID (puJob p) = Some (puRow p) → sc_meta (puRow p) = sc_meta (colRow (puJob p)) →
  leasesCollection (puTime p) (puJob p) (puRow p) = true → authorised (puIntent p) (puSource p) (rt_db s) →
  otherRepository (puSource p) (RepoID (puRepository p)) = false → links p (rt_db s) (puLinked p) →
  bool_decide (NoDup (evID <$> puRows p) ∧ Forall (λ e, t_sourceRecords (rt_db s) !! evID e = None) (puRows p)) = true →
  publishes w decodeGitHub decodeAzure p s (published_ p s).
Proof.
  intros. match goal with H : bool_decide _ = true |- _ => apply bool_decide_eq_true in H as [? ?] end.
  split; try done. split; [done|]. by apply Forall_forall.
Qed.

Lemma aPublication_publishes :
  publishes aCollector decodeGitHubX decodeAzureX aPublication beforePublication (published_ aPublication beforePublication).
Proof.
  apply publishes_intro; [vm_compute; reflexivity|vm_compute; reflexivity| |vm_compute; reflexivity|vm_compute; reflexivity|
    vm_compute; reflexivity| |vm_compute; reflexivity| |vm_compute; reflexivity].
  - assert (Hrows : out_res storing = Ok storedRows) by (vm_compute; reflexivity).
    destruct (runs_publishRecords aCollector calmSources decodeGitHubX decodeAzureX calm_keeps collectedJob 0 fourRecords (λ _, True)
      calmHex 130%nat (mkRet (out_db claimRun) ∅) I) as [_ H]. fold storing in H. rewrite Hrows in H. exact H.
  - split; [exists "admin"; vm_compute; done|]. split_and!; vm_compute; reflexivity.
  - assert (Hasset : out_res linking = Ok linkedAsset) by (vm_compute; reflexivity).
    exact (linkAsset_inv _ _ _ _ _ _ _ _ _ _ (res_eta linking linkedAsset Hasset)).
Qed.

(** The report of the build reads back. *)
Lemma evidence_reads_back_witness :
  out_res (sourceRecordEvidence (Some (ccStore aCollector)) (colWorkspace collectedJob) (colID collectedJob)
    (evID (default (evidenceRecord aCollector collectedJob "" "" 0 (nativeRecord "" "" "" "" [])) (storedRows !! 3%nat))) calm 0%nat
    (published_ aPublication beforePublication)) = Ok sarif.
Proof.
  refine (proj2 (evidence_reads_back aCollector decodeGitHubX decodeAzureX aPublication beforePublication
    (published_ aPublication beforePublication) (published_ aPublication beforePublication) 3%nat _
    (nativeRecord "report" "7:out/report.sarif" repositoryGUID "42" sarif) aPublication_publishes _ _ _ (λ _ _ H, H)) _ _ _ _);
    [vm_compute; reflexivity..|done|vm_compute; reflexivity].
Defined.

(** The report of the build is imported. *)
Definition anImport : sourceImportInput := {|
  iiAPIVersion := APIVersion; iiFormat := "sarif";
  iiScope := {| ScopeID := "repo"; ScopeRevision := "abc"; ScopeBranch := "main" |}; iiSourceStatus := "succeeded";
  iiScanKind := "full"; iiCompleteness := "complete"; iiMapping := noMapping |}.
Definition importStore : ObjectStore := {| PutObject := λ _ _, true; HeadObject := λ _, Some 2 |}.
Definition importing := importSourceRecord (Some sampleRegistry) importStore "reports/" 1000 1000 (λ _, None) (λ _ s, s)
  (Some (ccStore aCollector)) "ws" collectionID reportID deliverySession anImport calmHex 300%nat collectedState.

Lemma import_is_collected_witness :
  ∃ status imported a q,
    out_res importing = Ok (status, imported) ∧ sourceRecordOf "ws" collectionID reportID (rt_db collectedState) = Some q ∧
    saCollection a = collectionID ∧ i_report_digest (recMeta imported) = erSHA256 (sr_evidence q).
Proof.
  assert (H : is_ok (out_res importing) = true) by (vm_compute; reflexivity).
  destruct importing as [[[status imported]|e] s' n'] eqn:E; [|done]. unfold importing in E.
  destruct (import_is_collected (Some sampleRegistry) importStore "reports/" 1000 1000 (λ _, None) (λ _ s, s)
    (Some (ccStore aCollector)) "ws" collectionID reportID deliverySession anImport calmHex 300%nat collectedState _ _ _ _ E)
    as (a & q & data & s1 & Hq & _ & _ & _ & _ & Hc & _ & _ & _ & _ & _ & _ & Hd & _).
  exists status, imported, a, q. split; [reflexivity|]. split; [exact Hq|]. split; [exact Hc|exact Hd].
Defined.

(** The four records of the build fit. *)
Lemma checked_answer_fits_witness :
  Z.of_nat (length (ColRecords anAnswer)) = 4 ∧ Forall (fits (ccLimits aCollector)) (ColRecords anAnswer) ∧
  NoDup (nativeIdentity <$> ColRecords anAnswer).
Proof.
  destruct (checked_answer_fits decodeGitHubX decodeAzureX (ccLimits aCollector) (ccLimits aCollector) collectedJob anAnswer
    aRepository) as (_ & Hf & _ & _ & Hnd & _); [vm_compute; reflexivity..|].
  split; [vm_compute; reflexivity|]. split; [exact Hf|exact Hnd].
Defined.
